(* ===== verification/_CoqProject ===== *)
-Q . S2P
Prelude.v
Words.v
Esp.v
Rtos.v
MeshProto.v
MeshProtoV1.v
MeshProtoV2.v
LogStream.v
LogProps.v
LogTime.v
MeshWire.v
RelState.v
RelCore.v
RelOps.v
RelEnv.v
RelQuiet.v
RelInv.v
RelFrame.v
RelConsume.v
RelLost.v
RelOrder.v
RelReasm.v
RelProps.v
RelSelftest.v
RelSelftestProps.v
Facade.v
FacadeInv.v
NodeState.v
TicketQueue.v
TxBroker.v
EventOutbox.v
KeeLink.v
MeshTime.v
WeeklySchedule.v
WeeklyProps.v
WeeklyRun.v
OtaLib.v
OtaTypes.v
OtaV3.v
OtaChain.v
OtaInflate.v
OtaStream.v
OtaRefine.v
OtaImage.v
OtaCheckpoint.v
OtaCheckpointProps.v
OtaFlashEnv.v
OtaRx.v
OtaRxInv.v
OtaRxReach.v
OtaRxProps.v
OtaRxDemo.v
OtaFlash.v
OtaFlashProps.v
OtaBoot.v
OtaBootProps.v
FabricTypes.v
Fabric.v
FabricDemo.v
Node.v
NodeInv.v
NodeReach.v
NodeProps.v
NodeLink.v
NodeDemo.v
RootState.v
Root.v
RootInv.v
Hooks.v
RootReach.v
RootProps.v
RootNode.v
RootDemo.v
OtaPackage.v
OtaDemo.v
OtaPackageProps.v
OtaFlashDemo.v
OtaWorker.v
OtaWorkerInv.v
OtaWorkerProps.v
