(* ===== verification/Prelude.v ===== *)
(** * keemash_mesh_core: a verification development

    keemash_mesh_core is the C library that the root and the nodes of an
    ESP-WIFI-MESH network of ESP32 devices share.  This development models the
    library, from the bytes of a packet to the two facades an application calls,
    and proves what its parts promise.  File and function names below are those
    under src/; a definition carries the name of the C function it models, and
    the struct members of a type keep their names behind a short prefix
    ([t_seq], [s_raw_offset], ...).

    ** The parts and how they interact

    An application talks to a facade: on a node to keemash_mesh_node.c, on the
    root to keemash_mesh_root.c.  Both keep one context of the reliable core
    behind a lock; the core cuts messages into fragments, sends packets through
    the transport (which the TX broker serialises), and at the other end checks,
    reorders and reassembles them and calls the facade's deliver callback, which
    may call the facade again.  The facades also speak two older protocols: V2
    packets and their compatibility tunnel, and V1 packets.  On top of the
    facades: commands and their answers, reports (node, topology, tasks, memory,
    sensors), the log stream, time packets that set the clock the weekly schedule
    runs by, and firmware updates.  Updates have an old receiver (V1 and V2
    packets) and a new one: protobuf messages reach a worker task, which hands
    them to the flash receiver; that checks the signed fields, feeds the blocks to
    the stream decoder, which inflates them and writes the image, keeps
    checkpoints in NVS, verifies the image and selects it for the next boot; after
    the reboot the boot report tells the root what became of it.  KeeLink frames
    and Fabric envelopes travel between the root and its controller.

    ** Files

    - Prelude: record update, the state monad [ST] with its frame rule ([stable])
      and its Hoare triples, arrays as lists with search and count; no C code.
      Words: integers at their width with wrap-around, byte encodings, C strings.
      Esp: [esp_err_t].  Rtos: the calls of FreeRTOS and of the transport.
    - MeshProto, MeshProtoV1, MeshProtoV2: include/keemash_mesh_proto.h.
      MeshWire: the packet layer of keemash_mesh_core.c (sequence arithmetic,
      CRC-16, [packet_valid]).
    - RelState, RelCore, RelOps: the reliable core of keemash_mesh_core.c: the
      context and its slot tables; transmission, loss accounting, in-order
      consumption, reassembly; every entry point.  RelEnv is a recording
      environment for the statements about what is delivered.  RelQuiet, RelInv,
      RelFrame, RelConsume, RelOrder, RelReasm, RelLost, RelProps: the theorems
      about it.  RelSelftest, RelSelftestProps: the core's self-test, two contexts
      that call into each other.
    - Facade, FacadeInv: what the two facades share.  NodeState, Node:
      keemash_mesh_node.c; NodeInv, NodeReach, NodeProps, NodeLink, NodeDemo: its
      theorems and an instance.  RootState, Root: keemash_mesh_root.c; RootInv,
      RootReach, RootProps, RootNode, RootDemo: its theorems, what one facade sends
      and the other takes, and a root linked to a node.  Hooks:
      keemash_mesh_hooks.c and keemash_mesh_network.c.
    - TicketQueue, TxBroker, EventOutbox: keemash_mesh_tx_broker.c and
      keemash_mesh_event_outbox.c, with the slot queue they have in common.  A
      step is one critical section of the mutex, so a run is any interleaving of
      client calls with the two halves of the worker's round.
    - LogStream, LogProps: keemash_mesh_log_stream.c.  LogTime:
      keemash_log_time_vprintf.c.
    - KeeLink: keemash_keelink.c.  MeshTime: keemash_mesh_time.c.  FabricTypes,
      Fabric, FabricDemo: keemash_fabric.c and the messages it carries.
    - WeeklySchedule, WeeklyProps, WeeklyRun: keemash_weekly_schedule.c.
    - OtaRx, OtaRxInv, OtaRxReach, OtaRxProps, OtaRxDemo:
      keemash_mesh_ota_receiver.c.
    - OtaLib, OtaTypes: the error monad [res], Kconfig options, the digest
      interface, the messages of keelink-fabric-v2.pb.h and nanopb.
    - OtaV3, OtaChain: keemash_ota_v3.c.  OtaInflate: keemash_ota_v3_inflate.c.
      OtaStream, OtaRefine, OtaImage: keemash_ota_v3_stream.c.  OtaPackage,
      OtaPackageProps: keemash_ota_v3_package.c.  OtaCheckpoint,
      OtaCheckpointProps: keemash_ota_v3_checkpoint.c.  OtaFlashEnv, OtaFlash,
      OtaFlashProps: keemash_ota_v3_flash_receiver.c.  OtaBoot, OtaBootProps:
      keemash_ota_v3_boot.c and the path from activation to acknowledgement.
      OtaWorker, OtaWorkerInv, OtaWorkerProps: keemash_mesh_ota_v3_receiver.c.
    - OtaDemo, OtaFlashDemo and the last sections of the Props files: concrete
      instances of every interface, on which an artifact is packaged, received,
      verified, activated and acknowledged; the hypotheses of the theorems hold
      there.

    ** Conventions

    A function that changes state is a term of [ST S A], or takes and returns
    the state; a function that only fails is a term of [res].  A pointer a
    caller must not pass as NULL is a plain argument; one the code tests is an
    option.  A callback may re-enter its component, so it acts on the whole state;
    where that nests without a bound the model has a depth, and what lies deeper
    is arbitrary or recorded.  A packet or address that the core passes on by pointer
    into a slot is a reference ([packet_ref], [mac_ref] of RelCore), read again at every
    use, so that a transport call that re-enters the core and clears the slot is seen by
    the next use as in C; a packet that arrives is the bytes of its call.  Code outside the sources is a class: the radio,
    clock and callbacks ([Env] of RelState, [RxEnv], [FacadeEnv], [NodeEnv],
    [RootEnv], [LogEnv], [WorkerEnv]), FreeRTOS and the transport ([Rtos],
    [MeshTransport]), Mbed TLS digests ([Digest], [Sha1Laws]), PSA keys ([Psa]),
    nanopb ([Nanopb], [PackageEnv], [EnvelopePb]), zlib ([Zlib]), NVS, heap and ROM
    CRC ([CheckpointEnv]), partitions and OTA handles ([FlashEnv]), ESP-MESH
    ([MeshPolicy]).  A class named after one of these with [Laws] states the
    documented behaviour the theorems rely on; every call may fail unless its laws
    say otherwise.  [HooksMove] and [RootHooks] say that an application hook moves
    the state as the facade's own operations do; Hooks proves them for a firmware
    without hooks.  [NodeStep] and [RootStep] list the steps a facade is made of: an
    invariant of the steps is one of every operation.

    ** What the theorems show

    - Delivery: when one channel carries fewer than 2^31 - 1 messages of one fragment and
      the loss reports that arrive are ones its sender made, messages reach the client in
      order and at most once, whatever order, loss and repetition (RelOrder, with the
      loss report beyond that bound that breaks it); reassembly does not depend on the
      order of fragments (RelReasm), the table of lost ranges is exact (RelLost), in-order
      consumption terminates (RelConsume).  Every context reachable by the calls of the
      header, the debug entry points among them, is well formed, but for the one debug
      call that takes a receive slot over its peer's share (RelInv); also when two
      contexts call into each other (RelSelftestProps).  Submissions, acknowledgements,
      slot reservations and the timeout estimator do what they should (RelProps);
      corrupted packets are refused (MeshWire).  The verdict of the self-test is the
      outcome of its cases, counted and masked exactly, and its cases pass.
    - Facades: their variables and the context are well formed in every reachable
      state (NodeReach, RootReach); a command runs once as long as the node keeps its
      session and is not told to forget it, whatever lies between (NodeProps); it reaches
      the node as it was sent, and its answer reaches the root's record, cut to the 63
      characters of [text], and stays there (RootNode, RootProps); the tunnel of the
      node delivers 1, 2, 3, ..., that of the root in increasing order below the last
      sequence number; packets of others have no effect (NodeLink); a pong is accepted
      exactly when it answers the pending ping, and its round trip is recorded at the
      clock's time (RootProps).
    - Queues: each packet is sent once and each event at least until it is
      accepted, by priority and age; groups are queued whole or not at all; log
      lines leave in order and the queue drains (LogProps).
    - Codecs: round trips and canonical forms (KeeLink, MeshWire, WeeklyProps,
      Fabric for structs within the bounds of [envelope_typed], with the validity of
      what is decoded).
    - Schedule: valid in every reachable state, the next point is the nearest,
      a commit is a transaction, a point runs once a day.
    - Updates, old receiver: an active transfer stays within its partition, DATA is
      exact, and a COMMIT that succeeds leaves the announced image, unless a V1 END
      already waits for the reboot (OtaRxProps, OtaRxDemo).
    - Updates, new receiver: an accepted block table tiles the image and is
      determined by the signed digest (OtaChain); inflation ends, stays in bounds and is
      a run of zlib over the encoded bytes (OtaInflate); the stream decoder refines an
      abstract receiver that keeps whole byte strings, and accepts a repeated chunk only
      if it is the last one (OtaRefine), so a finished transfer, fresh or
      resumed, is the signed image (OtaImage), so is a verified package, whose header,
      manifest and blocks are what they should be byte for byte
      (OtaPackageProps), and so is the content of the partition a commit reports
      (OtaFlashProps) and the worker restarts into, unless the transfer was restored from
      a checkpoint that already said verified (OtaWorkerProps); the checkpoint
      store refines a register and survives torn writes while stored copies can be read
      (OtaCheckpointProps);
      checkpoints are never refused, and identity survives the reboot up to one
      acknowledgement (OtaBootProps).
    - Policy: the single-root policy makes its calls in order and stops at the
      first that is refused (Hooks).
    - Deviations: a receive slot that stays occupied and a loss report that makes a
      message be delivered again (RelOrder), a debug call that overfills a share
      (RelInv), a forgotten retry and a missed point of the schedule (WeeklyRun,
      WeeklyProps), a keyed event that is not the newest (EventOutbox), an abort that
      cannot succeed (OtaBootProps), a V1 END that skips the hash (OtaRxProps) and a V2
      COMMIT accepted after one (OtaRxDemo), a cleared checkpoint that returns when a copy
      cannot be read (OtaCheckpointProps), a new session that lets a command run again
      (NodeDemo), an old session or the last sequence number that makes the root deliver
      twice, a node whose pending time holds up the others, an answer that looks changed
      when it is repeated (RootDemo); the statements are about the code as it is.

    ** Fuel

    Loops without a structural bound take fuel, and a theorem shows that what
    the callers pass is enough.  [consume_contiguous_done]: the measure of the
    receive and lost tables.  [inflate_total]: two rounds for every byte of
    input and output left.  [read_prefix], [manifest_crc], [validate_chunks]: a
    round for every 2048 bytes, plus one; they return [ESP_FAIL] when fuel runs
    out, which the theorems about accepted inputs exclude by their conclusion.
    [broker_loop_order]: the number of slots.  The nesting of the self-test:
    every statement about it holds at any depth, and its cases are run at a depth
    that is not exhausted ([debug_cases_pass]).

    ** Not modelled

    The functions that only free memory or delete a task (deinit, stop), the encoders
    nanopb generates (keelink-fabric-v2.pb.c, tables of field descriptors), the Rust
    crate and the examples, which are not part of the C library.  Of the self-test
    only shortened stress cases are run; the full ones are defined.  Concurrency is
    modelled where the code has it (broker, outbox and the queues of the workers);
    elsewhere a lock or the sources require a single caller.  SHA-256 and ECDSA are
    not analysed: statements about identity are up to an explicit collision. *)

From stdpp Require Export prelude list numbers.
From Stdlib Require Export ZArith Lia.

(** ** Record update

    C code assigns one member of a struct at a time.  [r <| f := v |>] is the
    struct [r] after [r.f = v].  The setter of a field is found from the eta
    expansion of its record, declared once per record as an [Eta] instance. *)

Class Eta (R : Type) := eta : R -> R.
Class Setter {R T : Type} (proj : R -> T) := setter : (T -> T) -> R -> R.

Ltac head_of t := lazymatch t with ?h _ => head_of h | _ => t end.

(** The instance is unfolded at its head: the [Eta] of a record declared in a
    section takes the section's variables. *)
Ltac solve_setter R proj :=
  let e := eval cbv beta delta [eta] in (@eta R _) in
  let h := head_of e in
  let e := eval unfold h in e in
  let g := fresh "g" in
  let r := fresh "r" in
  intros g r;
  let b := eval cbv beta in (e r) in
  match b with
  | context C [proj r] => let b' := context C [g (proj r)] in exact b'
  end.

#[export] Hint Extern 1 (@Setter ?R ?T ?proj) => solve_setter R proj
  : typeclass_instances.

Definition set_field {R T} (proj : R -> T) `{!Setter proj} (v : T) (r : R) : R :=
  setter (fun _ => v) r.
Definition upd_field {R T} (proj : R -> T) `{!Setter proj} (g : T -> T) (r : R) : R :=
  setter g r.

Declare Scope kee_scope.
Delimit Scope kee_scope with kee.
Notation "r <| f := v |>" := (set_field f v r)
  (at level 1, f at level 1, v at level 99, left associativity,
   format "r  <| f  :=  v |>") : kee_scope.
Notation "r <| f ::= g |>" := (upd_field f g r)
  (at level 1, f at level 1, g at level 99, left associativity,
   format "r  <| f  ::=  g |>") : kee_scope.
#[global] Open Scope kee_scope.

(** ** Effects: a state monad

    A C function that reads and writes memory and returns a value is a term of
    [ST S A].  [←] and [;;] are the sequencing of the C statements. *)

Definition ST (S A : Type) : Type := S -> A * S.

#[export] Instance ST_ret (S : Type) : MRet (ST S) := fun A a s => (a, s).
#[export] Instance ST_bind (S : Type) : MBind (ST S) :=
  fun A B k m s => let '(a, s') := m s in k a s'.

Definition get_st {S : Type} : ST S S := fun s => (s, s).
Definition gets {S A : Type} (f : S -> A) : ST S A := fun s => (f s, s).
Definition modify {S : Type} (f : S -> S) : ST S unit := fun s => (tt, f s).
Definition when {S : Type} (b : bool) (m : ST S unit) : ST S unit :=
  if b then m else mret tt.

(** [for (x in xs) body(x)] *)
Fixpoint for_each {S A : Type} (xs : list A) (body : A -> ST S unit) : ST S unit :=
  match xs with
  | [] => mret tt
  | x :: xs => body x ;; for_each xs body
  end.

(** [for (x in xs) { ... if (...) return v; ... } rest] *)
Fixpoint for_until {S A B : Type} (xs : list A) (body : A -> ST S (option B))
  (rest : ST S B) : ST S B :=
  match xs with
  | [] => rest
  | x :: xs => r ← body x;
               match r with Some v => mret v | None => for_until xs body rest end
  end.

Lemma bind_eq {S A B : Type} (m : ST S A) (k : A -> ST S B) (s : S) :
  (m ≫= k) s = k (m s).1 (m s).2.
Proof. unfold mbind, ST_bind. by destruct (m s). Qed.

Lemma ret_eq {S A : Type} (a : A) (s : S) : (mret a : ST S A) s = (a, s).
Proof. done. Qed.

Lemma bind_assoc {S A B C : Type} (m : ST S A) (k : A -> ST S B) (h : B -> ST S C) s :
  ((m ≫= k) ≫= h) s = (m ≫= (fun a => k a ≫= h)) s.
Proof. by rewrite !bind_eq. Qed.

Lemma for_each_app {S A : Type} (xs ys : list A) (body : A -> ST S unit) (s : S) :
  (for_each (xs ++ ys) body s).2 = (for_each ys body (for_each xs body s).2).2.
Proof.
  revert s. induction xs as [|x xs IH]; intros s; [done|].
  cbn [app for_each]. rewrite !bind_eq. apply IH.
Qed.

(** *** Steps that stay inside a preorder

    [stable R m]: whatever the starting state, running [m] moves the state
    along [R].  Frame conditions ("the receive side is untouched"), measures
    ("no slot is allocated") and invariants ("[I] before implies [I] after")
    are all preorders, so one set of composition rules serves them all. *)

Definition stable {S A : Type} (R : relation S) (m : ST S A) : Prop :=
  forall s, R s (m s).2.

Definition keeps {S : Type} (I : S -> Prop) : relation S := fun s s' => I s -> I s'.
#[export] Instance keeps_preorder {S : Type} (I : S -> Prop) : PreOrder (keeps I).
Proof. split; [intros s H; exact H|]. intros x y z H1 H2 H. apply H2, H1, H. Qed.

Create HintDb stable discriminated.
#[export] Hint Constants Opaque : stable.
#[export] Hint Variables Opaque : stable.

Section Stable.
Context {S : Type} (R : relation S) `{!PreOrder R}.

Lemma stable_ret {A} (a : A) : stable R (mret a).
Proof. intros s. reflexivity. Qed.
Lemma stable_gets {A} (f : S -> A) : stable R (gets f).
Proof. intros s. reflexivity. Qed.
Lemma stable_get : stable R get_st.
Proof. intros s. reflexivity. Qed.
Lemma stable_modify (f : S -> S) : (forall s, R s (f s)) -> stable R (modify f).
Proof. intros H s. apply H. Qed.
Lemma stable_bind {A B} (m : ST S A) (k : A -> ST S B) :
  stable R m -> (forall a, stable R (k a)) -> stable R (m ≫= k).
Proof.
  intros Hm Hk s. rewrite bind_eq. transitivity (m s).2; [apply Hm|apply Hk].
Qed.
Lemma stable_when (b : bool) (m : ST S unit) : stable R m -> stable R (when b m).
Proof. intros H. destruct b; [done|]. apply stable_ret. Qed.
Lemma stable_for_each {A} (xs : list A) (body : A -> ST S unit) :
  (forall x, stable R (body x)) -> stable R (for_each xs body).
Proof.
  intros H. induction xs as [|x xs IH]; [apply stable_ret|].
  apply stable_bind; auto.
Qed.
Lemma stable_for_until {A B} (xs : list A) (body : A -> ST S (option B)) rest :
  (forall x, stable R (body x)) -> stable R rest -> stable R (for_until xs body rest).
Proof.
  intros H Hr. induction xs as [|x xs IH]; [done|].
  apply stable_bind; [auto|]. intros [v|]; [apply stable_ret|done].
Qed.
End Stable.

(** Walk through a program text, one statement at a time. *)
Ltac stable_step :=
  lazymatch goal with
  | |- stable _ (mret _) => refine (stable_ret _ _)
  | |- stable _ (gets _) => refine (stable_gets _ _)
  | |- stable _ get_st => refine (stable_get _)
  | |- stable _ (_ ≫= _) => refine (stable_bind _ _ _ _ _); [|intros ?]
  | |- stable _ (when _ _) => refine (stable_when _ _ _ _)
  | |- stable _ (for_each _ _) => refine (stable_for_each _ _ _ _); intros ?
  | |- stable _ (for_until _ _ _) => refine (stable_for_until _ _ _ _ _ _); [intros ?|]
  | |- stable _ (if ?b then _ else _) => destruct b eqn:?
  | |- stable _ (match ?x with _ => _ end) => destruct x eqn:?
  | |- stable _ (let '(_, _) := ?x in _) => destruct x eqn:?
  end.
Ltac stable_auto := repeat (stable_step || solve [eauto with stable nocore]).

(** A list cut into pieces of [k]. *)
Lemma concat_chunks {A} (l : list A) k n :
  (length l <= k * n)%nat ->
  concat ((fun i => take k (drop (k * i) l)) <$> seq 0 n) = l.
Proof.
  revert l. induction n as [|n IH]; intros l H.
  { destruct l; cbn in *; [done|lia]. }
  cbn [seq]. rewrite fmap_cons. cbn [concat]. rewrite Nat.mul_0_r, drop_0.
  rewrite <- seq_shift. change (map S (seq 0 n)) with (S <$> seq 0 n).
  rewrite <- list_fmap_compose.
  transitivity (take k l ++ drop k l); [|apply take_drop]. f_equal.
  rewrite <- (IH (drop k l)) by (rewrite length_drop; lia).
  f_equal. apply list_fmap_ext. intros i j _. cbn. rewrite drop_drop. do 2 f_equal. lia.
Qed.

(** ** Arrays

    A C array of slots is a list; [for (i = 0; i < n; i++) if (P(a[i])) ...]
    is a search for the first index. *)

Section Arrays.
Context {A : Type}.
Implicit Types (P Q : A -> bool) (l : list A).

Fixpoint find_idx P l : option nat :=
  match l with
  | [] => None
  | x :: l => if P x then Some 0%nat else S <$> find_idx P l
  end.

Fixpoint count_if P l : nat :=
  match l with
  | [] => 0
  | x :: l => (if P x then 1 else 0) + count_if P l
  end%nat.

(** [for (...) if (P(a[i])) memset(&a[i], 0, ...)] *)
Definition clear_if P (zero : A) l : list A :=
  (fun x => if P x then zero else x) <$> l.

Lemma find_idx_Some P l i :
  find_idx P l = Some i ->
  (exists x, l !! i = Some x /\ P x = true) /\
  (forall j x, (j < i)%nat -> l !! j = Some x -> P x = false).
Proof.
  revert i. induction l as [|y l IH]; intros i H; [done|].
  cbn in H. destruct (P y) eqn:Hy.
  { injection H as <-. split; [by exists y|]. intros j x Hj. lia. }
  destruct (find_idx P l) as [k|]; [|done]. injection H as <-.
  destruct (IH k eq_refl) as [Hx Hlt]. split; [done|].
  intros [|j] x Hj Hl; cbn in Hl; [congruence|]. apply (Hlt j); [lia|done].
Qed.

Lemma find_idx_None P l : find_idx P l = None -> forall x, x ∈ l -> P x = false.
Proof.
  induction l as [|y l IH]; intros H x Hx; [by apply elem_of_nil in Hx|].
  cbn in H. destruct (P y) eqn:Hy; [done|].
  destruct (find_idx P l); [done|].
  apply elem_of_cons in Hx as [->|Hx]; auto.
Qed.

Lemma find_idx_first P l i x :
  l !! i = Some x -> P x = true ->
  (forall j y, (j < i)%nat -> l !! j = Some y -> P y = false) -> find_idx P l = Some i.
Proof.
  intros Hi Hx Ho. destruct (find_idx P l) as [k|] eqn:E.
  - apply find_idx_Some in E as [(y & Hy & HP) Hlt]. f_equal.
    destruct (lt_eq_lt_dec k i) as [[Hki|Hki]|Hik]; [|done|].
    + by rewrite (Ho k y Hki Hy) in HP.
    + by rewrite (Hlt i x Hik Hi) in Hx.
  - rewrite (find_idx_None _ _ E x) in Hx; [done|]. by eapply list_elem_of_lookup_2.
Qed.
Lemma find_idx_is_Some P l x : x ∈ l -> P x = true -> is_Some (find_idx P l).
Proof.
  intros Hx HP. destruct (find_idx P l) eqn:E; [by eauto|].
  by rewrite (find_idx_None _ _ E x Hx) in HP.
Qed.

Lemma find_idx_lt P l i : find_idx P l = Some i -> (i < length l)%nat.
Proof. intros H. apply find_idx_Some in H as [(x & Hx & _) _]. by eapply lookup_lt_Some. Qed.

Lemma count_if_le P l : (count_if P l <= length l)%nat.
Proof. induction l as [|x l IH]; cbn; [lia|]. destruct (P x); lia. Qed.

Lemma count_if_app P l k : count_if P (l ++ k) = (count_if P l + count_if P k)%nat.
Proof. induction l as [|x l IH]; cbn; [done|]. rewrite IH. lia. Qed.

Lemma count_if_insert P l i x y :
  l !! i = Some x ->
  (count_if P (<[i:=y]> l) + (if P x then 1 else 0)
   = count_if P l + (if P y then 1 else 0))%nat.
Proof.
  revert i. induction l as [|z l IH]; intros [|i] H; simplify_eq/=; try done.
  - destruct (P x), (P y); lia.
  - specialize (IH i H). destruct (P x), (P y), (P z); lia.
Qed.

Lemma count_if_negb P l :
  (count_if P l + count_if (fun x => negb (P x)) l = length l)%nat.
Proof.
  induction l as [|x l IH]; [done|]. cbn [count_if length]. rewrite <- IH.
  destruct (P x); cbn; lia.
Qed.

Lemma count_if_mono P Q l :
  (forall x, P x = true -> Q x = true) -> (count_if P l <= count_if Q l)%nat.
Proof.
  intros H. induction l as [|x l IH]; cbn; [done|].
  destruct (P x) eqn:E; [rewrite (H x E)|destruct (Q x)]; lia.
Qed.

Lemma count_if_zero P l : (forall x, x ∈ l -> P x = false) -> count_if P l = 0%nat.
Proof.
  induction l as [|x l IH]; intros H; [done|]. cbn.
  rewrite (H x) by left. apply IH. intros y Hy. apply H. by right.
Qed.

Lemma count_if_pos P l x : x ∈ l -> P x = true -> (0 < count_if P l)%nat.
Proof.
  intros Hx HP. induction Hx as [|y z l _ IH]; cbn; [rewrite HP; lia|].
  specialize (IH HP). destruct (P y); lia.
Qed.

Lemma find_idx_None_count P l : find_idx P l = None <-> count_if P l = 0%nat.
Proof.
  split.
  - intros H. apply count_if_zero. by apply find_idx_None.
  - intros H. destruct (find_idx P l) eqn:E; [|done].
    apply find_idx_Some in E as [(x & Hx & HP) _].
    pose proof (count_if_pos P l x ltac:(by eapply list_elem_of_lookup_2) HP). lia.
Qed.

(** At most one: any two that are found are at the same place. *)
Lemma count_if_unique P l i j x y :
  (count_if P l <= 1)%nat -> l !! i = Some x -> l !! j = Some y ->
  P x = true -> P y = true -> i = j.
Proof.
  revert i j. induction l as [|z l IH]; intros [|i] [|j] Hc Hi Hj Hx Hy; simplify_eq/=.
  - done.
  - pose proof (count_if_pos P l y ltac:(by eapply list_elem_of_lookup_2) Hy).
    rewrite Hx in Hc. lia.
  - pose proof (count_if_pos P l x ltac:(by eapply list_elem_of_lookup_2) Hx).
    rewrite Hy in Hc. lia.
  - f_equal. apply IH; [|done..]. destruct (P z); lia.
Qed.

Lemma find_idx_ext P Q l : (forall x, P x = Q x) -> find_idx P l = find_idx Q l.
Proof. intros H. induction l as [|x l IH]; cbn; [done|]. by rewrite H, IH. Qed.

Lemma length_clear_if P z l : length (clear_if P z l) = length l.
Proof. apply length_fmap. Qed.

Lemma lookup_clear_if P z l i :
  clear_if P z l !! i = (fun x => if P x then z else x) <$> l !! i.
Proof. apply list_lookup_fmap. Qed.

Lemma count_if_clear P Q z l :
  Q z = false ->
  count_if Q (clear_if P z l) = count_if (fun x => Q x && negb (P x)) l.
Proof.
  intros Hz. induction l as [|x l IH]; [done|].
  change (clear_if P z (x :: l)) with ((if P x then z else x) :: clear_if P z l).
  cbn [count_if]. rewrite IH. destruct (P x), (Q x); cbn; rewrite ?Hz; done.
Qed.

Lemma count_if_clear_le P Q z l :
  Q z = false -> (count_if Q (clear_if P z l) <= count_if Q l)%nat.
Proof.
  intros Hz. rewrite count_if_clear by done. apply count_if_mono.
  intros x Hx. by apply andb_true_iff in Hx as [].
Qed.

Lemma list_alter_Some (f : A -> A) l i j y :
  alter f i l !! j = Some y ->
  (i = j /\ exists x, l !! i = Some x /\ y = f x) \/ (i <> j /\ l !! j = Some y).
Proof.
  rewrite list_lookup_alter. destruct (decide (i = j)) as [->|Hne]; [|by right].
  intros H. apply fmap_Some in H as (x & Hx & ->). left. eauto.
Qed.

Lemma alter_insert (f : A -> A) l i x : l !! i = Some x -> alter f i l = <[i := f x]> l.
Proof.
  revert i. induction l as [|z l IH]; intros [|i] H; simplify_eq/=; [done|].
  f_equal. by apply IH.
Qed.

Lemma alter_const_insert (y : A) l i : alter (fun _ => y) i l = <[i := y]> l.
Proof.
  revert i. induction l as [|x l IH]; intros [|i]; [done..|]. cbn. f_equal. apply IH.
Qed.

Lemma Forall_insert_slot (I : A -> Prop) l i x :
  Forall I l -> I x -> Forall I (<[i:=x]> l).
Proof. intros. by apply Forall_insert. Qed.

Lemma Forall_clear_if (I : A -> Prop) P z l :
  Forall I l -> I z -> Forall I (clear_if P z l).
Proof.
  intros H Hz. apply Forall_fmap. induction H as [|x l Hx Hl IH]; constructor; [|done].
  cbn. by destruct (P x).
Qed.
End Arrays.

#[export] Hint Resolve Forall_insert_slot Forall_clear_if : core.
Create Rewrite HintDb len.
#[export] Hint Rewrite @length_clear_if @length_insert @length_alter @length_fmap
  @length_replicate @length_app @length_take @length_drop : len.

(** Split boolean conjunctions and disjunctions of guards into hypotheses. *)
Ltac bools :=
  repeat match goal with
  | H : _ && _ = true |- _ => apply andb_true_iff in H as [? ?]
  | H : _ || _ = false |- _ => apply orb_false_iff in H as [? ?]
  | H : negb _ = true |- _ => apply negb_true_iff in H
  | H : negb _ = false |- _ => apply negb_false_iff in H
  | H : (_ =? _)%Z = true |- _ => apply Z.eqb_eq in H
  | H : (_ =? _)%Z = false |- _ => apply Z.eqb_neq in H
  | H : (_ <? _)%Z = true |- _ => apply Z.ltb_lt in H
  | H : (_ <? _)%Z = false |- _ => apply Z.ltb_ge in H
  | H : (_ <=? _)%Z = true |- _ => apply Z.leb_le in H
  | H : (_ <=? _)%Z = false |- _ => apply Z.leb_gt in H
  end.

(** Case analysis on the first guard of the goal. *)
Ltac split_if :=
  match goal with
  | |- context [if ?b then _ else _] => destruct b eqn:?
  end.

(** ** Hoare triples for the state monad *)

Definition triple {S A : Type} (P : S -> Prop) (m : ST S A) (Q : A -> S -> Prop) : Prop :=
  forall s, P s -> Q (m s).1 (m s).2.

Section Triple.
Context {S : Type}.
Implicit Types P : S -> Prop.

Lemma triple_conseq {A} P P' (m : ST S A) (Q Q' : A -> S -> Prop) :
  triple P' m Q' -> (forall s, P s -> P' s) -> (forall a s, Q' a s -> Q a s) -> triple P m Q.
Proof. intros H HP HQ s Hs. by apply HQ, H, HP. Qed.

Lemma triple_pre {A} P P' (m : ST S A) Q :
  triple P' m Q -> (forall s, P s -> P' s) -> triple P m Q.
Proof. intros H HP s Hs. by apply H, HP. Qed.

Lemma triple_ret {A} (a : A) (Q : A -> S -> Prop) : triple (Q a) (mret a) Q.
Proof. by intros s. Qed.

Lemma triple_gets {A} (f : S -> A) P : triple P (gets f) (fun a s => P s /\ a = f s).
Proof. by intros s. Qed.

Lemma triple_modify (f : S -> S) P Q :
  (forall s, P s -> Q (f s)) -> triple P (modify f) (fun _ => Q).
Proof. intros H s. apply H. Qed.

Lemma triple_bind {A B} P (R : A -> S -> Prop) (m : ST S A) (k : A -> ST S B) Q :
  triple P m R -> (forall a, triple (R a) (k a) Q) -> triple P (m ≫= k) Q.
Proof. intros Hm Hk s Hs. rewrite bind_eq. by apply Hk, Hm. Qed.

Lemma triple_seq {B} P R (m : ST S unit) (k : ST S B) Q :
  triple P m (fun _ => R) -> triple R k Q -> triple P (m ;; k) Q.
Proof. intros Hm Hk. by apply (triple_bind P (fun _ => R)). Qed.

Lemma triple_when P Q (b : bool) (m : ST S unit) :
  (b = true -> triple P m (fun _ => Q)) -> (b = false -> forall s, P s -> Q s) ->
  triple P (when b m) (fun _ => Q).
Proof. destruct b; intros H1 H2; [by apply H1|]. intros s Hs. by apply H2. Qed.

Lemma triple_and {A} P (m : ST S A) (Q Q' : A -> S -> Prop) :
  triple P m Q -> triple P m Q' -> triple P m (fun a s => Q a s /\ Q' a s).
Proof. intros H H' s Hs. split; [by apply H|by apply H']. Qed.

(** A step inside a relation the assertion is closed under. *)
Lemma triple_stable {A} (T : relation S) P (m : ST S A) :
  stable T m -> (forall s s', T s s' -> P s -> P s') -> triple P m (fun _ => P).
Proof. intros Hm HP s Hs. by apply (HP s), Hs. Qed.

Lemma triple_keeps {A} P (m : ST S A) : triple P m (fun _ => P) <-> stable (keeps P) m.
Proof. split; intros H s Hs; by apply H. Qed.
End Triple.
