(* ===== verification/Words.v ===== *)
(** * Machine integers and bytes

    The fixed-width unsigned integers of C as [Z] with the wrap-around written
    out, the [(int32_t)] view used for wrapping comparisons, and the
    little-endian (packed structs on the ESP32, KeeLink) and big-endian
    (Fabric identifiers) byte encodings; C strings and the decimal form of a number. *)

From S2P Require Import Prelude.
#[local] Open Scope Z_scope.

Definition u8 (z : Z) : Z := z mod 256.
Definition u16 (z : Z) : Z := z mod 65536.
Definition u32 (z : Z) : Z := z mod 4294967296.
Definition u64 (z : Z) : Z := z mod 18446744073709551616.
Definition i32 (z : Z) : Z := (z + 2147483648) mod 4294967296 - 2147483648.
Definition i64 (z : Z) : Z :=
  (z + 9223372036854775808) mod 18446744073709551616 - 9223372036854775808.

Definition UINT32_MAX : Z := 4294967295.
Definition UINT16_MAX : Z := 65535.

Definition is_u8 (z : Z) : Prop := 0 <= z < 256.
Definition is_u16 (z : Z) : Prop := 0 <= z < 65536.
Definition is_u32 (z : Z) : Prop := 0 <= z < 4294967296.
Definition is_u64 (z : Z) : Prop := 0 <= z < 18446744073709551616.

(** [x & mask] as a condition, and [x |= flag]. *)
Definition has_flag (x mask : Z) : bool := negb (Z.land x mask =? 0).

Ltac words :=
  unfold u8, u16, u32, u64, i32, i64, is_u8, is_u16, is_u32, is_u64,
    UINT32_MAX, UINT16_MAX in *;
  Z.div_mod_to_equations; lia.

Lemma u8_is z : is_u8 (u8 z). Proof. words. Qed.
Lemma u16_is z : is_u16 (u16 z). Proof. words. Qed.
Lemma u32_is z : is_u32 (u32 z). Proof. words. Qed.
Lemma u64_is z : is_u64 (u64 z). Proof. words. Qed.
Lemma u8_id z : is_u8 z -> u8 z = z. Proof. intros. words. Qed.
Lemma u16_id z : is_u16 z -> u16 z = z. Proof. intros. words. Qed.
Lemma u32_id z : is_u32 z -> u32 z = z. Proof. intros. words. Qed.
Lemma u64_id z : is_u64 z -> u64 z = z. Proof. intros. words. Qed.
#[export] Hint Resolve u8_is u16_is u32_is u64_is : core.
Create Rewrite HintDb word.
#[export] Hint Rewrite u8_id u16_id u32_id u64_id using (assumption || words) : word.

Lemma u32_add_l a b : u32 (u32 a + b) = u32 (a + b).
Proof. unfold u32. by rewrite Zplus_mod_idemp_l. Qed.
Lemma u32_sub_l a b : u32 (u32 a - b) = u32 (a - b).
Proof. unfold u32. by rewrite Zminus_mod_idemp_l. Qed.
Lemma u32_sub_r a b : u32 (a - u32 b) = u32 (a - b).
Proof. unfold u32. by rewrite Zminus_mod_idemp_r. Qed.

(** ** Bytes *)

Abbreviation bytes := (list Z) (only parsing).
Definition are_bytes (bs : bytes) : Prop := Forall is_u8 bs.
Definition mac_addr (m : bytes) : Prop := length m = 6%nat /\ are_bytes m.

Definition bytes_eqb (a b : bytes) : bool := bool_decide (a = b).
Lemma bytes_eqb_true a b : bytes_eqb a b = true <-> a = b.
Proof. apply bool_decide_eq_true. Qed.
Lemma bytes_eqb_refl a : bytes_eqb a a = true.
Proof. by apply bytes_eqb_true. Qed.

(** Deciding that a literal is made of bytes. *)
Definition bytes_check (bs : bytes) : bool := forallb (fun b => (0 <=? b) && (b <? 256)) bs.
Lemma bytes_check_ok bs : bytes_check bs = true -> are_bytes bs.
Proof.
  unfold bytes_check, are_bytes. rewrite forallb_forall. intros H. apply List.Forall_forall.
  intros b Hb. specialize (H b Hb). apply andb_true_iff in H as [H1 H2].
  apply Z.leb_le in H1. apply Z.ltb_lt in H2. done.
Qed.
Ltac literal_bytes := apply bytes_check_ok; vm_compute; reflexivity.

Fixpoint le_bytes (n : nat) (z : Z) : bytes :=
  match n with
  | O => []
  | S n => u8 z :: le_bytes n (z / 256)
  end.

Fixpoint le_val (bs : bytes) : Z :=
  match bs with
  | [] => 0
  | b :: bs => b + 256 * le_val bs
  end.

Lemma length_le_bytes n z : length (le_bytes n z) = n.
Proof. revert z. induction n as [|n IH]; intros z; cbn; [done|]. by rewrite IH. Qed.
#[export] Hint Rewrite length_le_bytes : len.

Lemma le_bytes_are n z : are_bytes (le_bytes n z).
Proof.
  revert z. induction n as [|n IH]; intros z; cbn; constructor; [apply u8_is|apply IH].
Qed.

Lemma le_val_bytes n z : 0 <= z < 256 ^ Z.of_nat n -> le_val (le_bytes n z) = z.
Proof.
  revert z. induction n as [|n IH]; intros z Hz; cbn [le_bytes le_val].
  { change (256 ^ Z.of_nat 0) with 1 in Hz. lia. }
  rewrite Nat2Z.inj_succ, Z.pow_succ_r in Hz by lia.
  rewrite IH by (split; [apply Z.div_pos; lia|apply Z.div_lt_upper_bound; lia]).
  words.
Qed.

Lemma le_val_bytes_1 z : is_u8 z -> le_val (le_bytes 1 z) = z.
Proof. intros. apply le_val_bytes. change (256 ^ Z.of_nat 1) with 256. words. Qed.
Lemma le_val_bytes_2 z : is_u16 z -> le_val (le_bytes 2 z) = z.
Proof. intros. apply le_val_bytes. change (256 ^ Z.of_nat 2) with 65536. words. Qed.
Lemma le_val_bytes_4 z : is_u32 z -> le_val (le_bytes 4 z) = z.
Proof. intros. apply le_val_bytes. change (256 ^ Z.of_nat 4) with 4294967296. words. Qed.
Lemma le_val_bytes_8 z : is_u64 z -> le_val (le_bytes 8 z) = z.
Proof. intros. apply le_val_bytes. change (256 ^ Z.of_nat 8) with 18446744073709551616. words. Qed.

Lemma le_bytes_val bs : are_bytes bs -> le_bytes (length bs) (le_val bs) = bs.
Proof.
  unfold are_bytes. induction 1 as [|b bs Hb _ IH]; [done|].
  cbn [length le_val le_bytes]. f_equal; [words|].
  replace ((b + 256 * le_val bs) / 256) with (le_val bs); [done|]. words.
Qed.

Lemma le_val_range bs : are_bytes bs -> 0 <= le_val bs < 256 ^ Z.of_nat (length bs).
Proof.
  unfold are_bytes. induction 1 as [|b bs Hb _ IH]; [done|].
  cbn [length le_val]. rewrite Nat2Z.inj_succ, Z.pow_succ_r by lia.
  unfold is_u8 in Hb. lia.
Qed.

(** Reading a member of a packed struct at its offset. *)
Definition slice (off n : nat) (bs : bytes) : bytes := take n (drop off bs).
Definition get_u8 (bs : bytes) (off : nat) : Z := nth off bs 0.
Definition get_le (n : nat) (bs : bytes) (off : nat) : Z := le_val (slice off n bs).

Lemma get_le_2 bs off : get_le 2 bs off = le_val (slice off 2 bs). Proof. done. Qed.

Lemma slice_app_r (a b : bytes) off n :
  (length a <= off)%nat -> slice off n (a ++ b) = slice (off - length a) n b.
Proof. intros H. unfold slice. by rewrite drop_app_ge. Qed.

Lemma slice_app_l (a b : bytes) n : length a = n -> slice 0 n (a ++ b) = a.
Proof. intros <-. unfold slice. rewrite drop_0. apply take_app_length. Qed.

Lemma slice_all (a : bytes) n : length a = n -> slice 0 n a = a.
Proof. intros <-. unfold slice. rewrite drop_0. apply firstn_all. Qed.

Lemma are_bytes_slice off n bs : are_bytes bs -> are_bytes (slice off n bs).
Proof. intros. unfold slice, are_bytes. by apply Forall_take, Forall_drop. Qed.

Lemma get_le_bytes n bs off :
  are_bytes bs -> (off + n <= length bs)%nat -> le_bytes n (get_le n bs off) = slice off n bs.
Proof.
  intros Hb Hl. unfold get_le.
  replace n with (length (slice off n bs)) at 1
    by (unfold slice; rewrite length_take, length_drop; lia).
  by apply le_bytes_val, are_bytes_slice.
Qed.

(** What is read from bytes is in range, even beyond their end. *)
Lemma get_le_range n bs off : are_bytes bs -> 0 <= get_le n bs off < 256 ^ Z.of_nat n.
Proof.
  intros Hb. unfold get_le. pose proof (le_val_range _ (are_bytes_slice off n bs Hb)) as H.
  split; [apply H|]. eapply Z.lt_le_trans; [apply H|].
  apply Z.pow_le_mono_r; [lia|]. unfold slice. rewrite length_take. lia.
Qed.
Lemma get_le_u8 bs off : are_bytes bs -> is_u8 (get_le 1 bs off).
Proof. apply (get_le_range 1). Qed.
Lemma get_le_u32 bs off : are_bytes bs -> is_u32 (get_le 4 bs off).
Proof. apply (get_le_range 4). Qed.

Lemma slice_join off n m bs :
  slice off n bs ++ slice (off + n) m bs = slice off (n + m) bs.
Proof. unfold slice. by rewrite <- drop_drop, take_take_drop. Qed.

(** Adjacent slices at literal offsets. *)
Ltac join_slices bs :=
  repeat match goal with
  | |- context [slice ?o ?n bs ++ slice ?o' ?m bs] =>
      let k := eval vm_compute in (n + m)%nat in
      replace (slice o n bs ++ slice o' m bs) with (slice o k bs)
        by exact (eq_sym (slice_join o n m bs))
  end.

(** A field read back from the encoding of a struct. *)
Ltac le_field :=
  first
    [ reflexivity
    | match goal with
      | |- _ = ?z =>
          first
            [ transitivity (le_val (le_bytes 1 z)); [reflexivity|by apply le_val_bytes_1]
            | transitivity (le_val (le_bytes 2 z)); [reflexivity|by apply le_val_bytes_2]
            | transitivity (le_val (le_bytes 4 z)); [reflexivity|by apply le_val_bytes_4]
            | transitivity (le_val (le_bytes 8 z)); [reflexivity|by apply le_val_bytes_8] ]
      end ].

(** Overwriting part of a buffer: [memcpy(data + off, bs, len)]. *)
Definition splice (off : nat) (bs data : bytes) : bytes :=
  take off data ++ bs ++ drop (off + length bs) data.

Lemma length_splice off bs data :
  (off + length bs <= length data)%nat -> length (splice off bs data) = length data.
Proof. intros H. unfold splice. rewrite !length_app, length_take, length_drop. lia. Qed.

Lemma lookup_splice off bs data k :
  (off + length bs <= length data)%nat ->
  splice off bs data !! k =
  if decide (off <= k < off + length bs)%nat then bs !! (k - off)%nat else data !! k.
Proof.
  intros H. unfold splice. destruct (decide (k < off)%nat) as [Hk|Hk].
  - rewrite lookup_app_l by (rewrite length_take; lia). rewrite lookup_take_lt by done.
    rewrite decide_False by lia. done.
  - rewrite lookup_app_r by (rewrite length_take; lia). rewrite length_take, Nat.min_l by lia.
    case_decide.
    + rewrite lookup_app_l by lia. done.
    + rewrite lookup_app_r by lia. rewrite lookup_drop. f_equal. lia.
Qed.

(** *** Big-endian 64-bit words (Fabric identifiers, NVS operation ids) *)

Definition load_be (bs : bytes) : Z := fold_left (fun r b => r * 256 + b) bs 0.
Definition store_be (n : nat) (z : Z) : bytes := reverse (le_bytes n z).

Lemma load_be_rev bs : load_be (reverse bs) = le_val bs.
Proof.
  unfold load_be.
  induction bs as [|b bs IH]; [done|].
  rewrite reverse_cons, fold_left_app. cbn. rewrite IH. lia.
Qed.

(** ** C strings *)

From Stdlib Require Ascii String.

Definition text (s : String.string) : bytes :=
  map (fun a => Z.of_nat (Ascii.nat_of_ascii a)) (String.list_ascii_of_string s).

(** The characters before the terminator, or all of them ([strnlen]). *)
Fixpoint cstr (bs : bytes) : bytes :=
  match bs with
  | [] => []
  | b :: bs => if b =? 0 then [] else b :: cstr bs
  end.

(** [strncpy(dst, src, size - 1)] into a zeroed array of [size] characters. *)
Definition copy_text (size : nat) (src : bytes) : bytes := take (size - 1) src.

(** The same with the padding: all the bytes of the array. *)
Definition text_array (n : nat) (text : bytes) : bytes :=
  copy_text n text ++ replicate (n - length (copy_text n text)) 0.

(** [snprintf(dst, size, ...)], given the text it formats. *)
Definition snprintf (size : nat) (s : bytes) : bytes := take (size - 1) s.

(** The conversions [%u] and [%lu] of a 32-bit number. *)
Fixpoint decimal_digits (fuel : nat) (z : Z) : bytes :=
  match fuel with
  | O => []
  | S fuel => (if z <? 10 then [] else decimal_digits fuel (z / 10)) ++ [48 + z mod 10]
  end.
Definition decimal (z : Z) : bytes := decimal_digits 10 z.

Lemma length_text_array n s : (0 < n)%nat -> length (text_array n s) = n.
Proof.
  intros H. unfold text_array. rewrite length_app, length_replicate.
  unfold copy_text. rewrite length_take. lia.
Qed.

Lemma text_array_bytes n s : are_bytes s -> are_bytes (text_array n s).
Proof.
  intros H. unfold text_array, copy_text, are_bytes. apply Forall_app. split.
  - by apply Forall_take.
  - apply Forall_replicate. done.
Qed.

Lemma cstr_app_zeros s n :
  Forall (fun b => b <> 0) s -> cstr (s ++ replicate n 0) = s.
Proof.
  induction 1 as [|b s Hb _ IH]; cbn; [by destruct n|].
  rewrite (proj2 (Z.eqb_neq b 0) Hb). by rewrite IH.
Qed.

(** A string that fits comes back from the array it was copied to. *)
Lemma cstr_text_array n s :
  (length s < n)%nat -> Forall (fun b => b <> 0) s -> cstr (text_array n s) = s.
Proof.
  intros Hl Hs. unfold text_array, copy_text. rewrite take_ge by lia. by apply cstr_app_zeros.
Qed.
