(* ===== verification/Esp.v ===== *)
(** * ESP-IDF result codes

    [esp_err_t] as an inductive type: the named codes the sources compare with
    or return, and [ESP_ERR_CODE] for any other value a callee may give. *)

From S2P Require Import Prelude.

Inductive esp_err_t :=
  | ESP_OK
  | ESP_FAIL
  | ESP_ERR_NO_MEM
  | ESP_ERR_INVALID_ARG
  | ESP_ERR_INVALID_STATE
  | ESP_ERR_INVALID_SIZE
  | ESP_ERR_NOT_FOUND
  | ESP_ERR_NOT_SUPPORTED
  | ESP_ERR_TIMEOUT
  | ESP_ERR_INVALID_RESPONSE
  | ESP_ERR_INVALID_CRC
  | ESP_ERR_INVALID_VERSION
  | ESP_ERR_NOT_FINISHED
  | ESP_ERR_NOT_ALLOWED
  | ESP_ERR_NVS_NOT_FOUND
  | ESP_ERR_NVS_INVALID_LENGTH
  | ESP_ERR_CODE (code : Z).

#[export] Instance esp_err_eq_dec : EqDecision esp_err_t.
Proof. solve_decision. Defined.

Definition err_eqb (a b : esp_err_t) : bool := bool_decide (a = b).

Lemma err_eqb_true a b : err_eqb a b = true <-> a = b.
Proof. apply bool_decide_eq_true. Qed.
Lemma err_eqb_false a b : err_eqb a b = false <-> a <> b.
Proof. apply bool_decide_eq_false. Qed.

(** [esp_err_t err = f(); if (err == ESP_OK) err = g(); ...] *)
Definition and_then {S : Type} (m k : ST S esp_err_t) : ST S esp_err_t :=
  err ← m; if err_eqb err ESP_OK then k else mret err.
