(* ===== verification/Rtos.v ===== *)
(** * FreeRTOS and the application around a component

    The calls the tasks of the firmware make, and what a component needs to know
    of them: that they leave the part of the world it cares about alone. *)

From S2P Require Import Prelude.
From S2P Require Import Words.
From S2P Require Import Esp.
#[local] Open Scope Z_scope.

(** A mutex, a queue or a task that could not be created, and a mutex that was
    not obtained in time, are [false]; the time-out is in milliseconds.
    [esp_app_project] is the project name of the running image, [None] without a
    description. *)
Class Rtos (W : Type) := {
  xTaskGetTickCount : ST W Z;
  portTICK_PERIOD_MS : Z;
  pdMS_TO_TICKS : Z -> Z;
  mutex_create : ST W bool;
  mutex_take : Z -> ST W bool;
  queue_create : ST W bool;
  task_create : ST W bool;
  esp_err_to_name : esp_err_t -> list Z;
  esp_app_project : option (list Z) }.

(** [(uint32_t)(xTaskGetTickCount() * portTICK_PERIOD_MS)] *)
Definition ticks_ms {W : Type} {R : Rtos W} : ST W Z :=
  tick ← xTaskGetTickCount; mret (u32 (tick * portTICK_PERIOD_MS)).

(** The transport of the firmware: the node's own address, and a packet on its
    way to an address. *)
Class MeshTransport (W : Type) := {
  keemash_mesh_get_local_mac : ST W (list Z);
  keemash_mesh_transport_send : list Z -> list Z -> ST W esp_err_t }.

(** [portMAX_DELAY] as a time-out. *)
Definition portMAX_DELAY : Z := 4294967295.

Class RtosLaws (W : Type) (T : relation W) (R : Rtos W) := {
  tick_keeps : stable T xTaskGetTickCount;
  mutex_create_keeps : stable T mutex_create;
  mutex_take_keeps : forall ms, stable T (mutex_take ms);
  queue_create_keeps : stable T queue_create;
  task_create_keeps : stable T task_create }.

(** A call of the environment from a component with state [X]. *)
Definition io {X W A : Type} (m : ST W A) : ST (X * W) A := fun '(x, w) =>
  let '(a, w) := m w in (a, (x, w)).

(** Moves that leave the component alone and move the world along [T]. *)
Definition outside {X W : Type} (T : relation W) : relation (X * W) := fun s s' =>
  s'.1 = s.1 /\ T s.2 s'.2.

#[export] Instance outside_preorder {X W : Type} (T : relation W) `{!PreOrder T} :
  PreOrder (@outside X W T).
Proof.
  split; [intros s; split; reflexivity|].
  intros a b c [H1 H2] [H1' H2']. split; [congruence|by transitivity b.2].
Qed.

Lemma io_stable {X W A : Type} (T : relation W) (m : ST W A) :
  stable T m -> stable (@outside X W T) (io m).
Proof. intros H [x w]. unfold io. specialize (H w). by destruct (m w). Qed.

Lemma io_run {X W A : Type} (m : ST W A) (x : X) w : io m (x, w) = ((m w).1, (x, (m w).2)).
Proof. unfold io. by destruct (m w). Qed.

(** The laws are found as instances, so they are applied rather than resolved. *)
#[export] Hint Extern 1 (stable _ xTaskGetTickCount) => apply tick_keeps : stable.
#[export] Hint Extern 1 (stable _ mutex_create) => apply mutex_create_keeps : stable.
#[export] Hint Extern 1 (stable _ (mutex_take _)) => apply mutex_take_keeps : stable.
#[export] Hint Extern 1 (stable _ queue_create) => apply queue_create_keeps : stable.
#[export] Hint Extern 1 (stable _ task_create) => apply task_create_keeps : stable.

(** Symbolic execution of a program up to its next call of the environment. *)
Ltac exec :=
  cbv beta iota zeta delta [mbind ST_bind mret ST_ret io modify gets get_st when fst snd negb].
