(* ===== verification/MeshProto.v ===== *)
(** * The mesh wire format (include/keemash_mesh_proto.h)

    The packet constants, the packed structs of the reliable V2 layer with
    their byte layouts, and the payload helpers of keemash_mesh_core.c that
    only depend on the layout: the CONTROL payload size, the optional 128-bit
    operation identity behind the text, and the SENSOR snapshot validator.

    The structs are [packed] and the target is little-endian, so a struct is
    the concatenation of its members; reading a member is reading bytes at its
    offset.  Every struct has an [encode]/[decode] pair and a round trip. *)

From S2P Require Import Prelude.
From S2P Require Import Words.
#[local] Open Scope Z_scope.

Definition MESH_PKT_MAGIC : Z := 0xA5.
Definition MESH_PKT_VERSION : Z := 1.
Definition MESH_PKT_VERSION_V2 : Z := 2.
Definition MESH_V2_TYPE_RELIABLE_HELLO : Z := 56.
Definition MESH_V2_TYPE_RELIABLE_HELLO_ACK : Z := 57.
Definition MESH_V2_TYPE_RELIABLE_DATA : Z := 58.
Definition MESH_V2_TYPE_RELIABLE_ACK : Z := 59.
Definition MESH_V2_TYPE_RELIABLE_NACK : Z := 60.
Definition MESH_V2_TYPE_RELIABLE_LOST : Z := 61.
Definition MESH_V2_PACKET_MAX : Z := 224.
Definition MESH_V2_PAYLOAD_MAX : Z := 192.
Definition MESH_V2_CAP_RELIABLE_E2E : Z := 0x8.
Definition MESH_V2_CAP_SACK : Z := 0x10.
Definition MESH_V2_CAP_FRAGMENT : Z := 0x20.
Definition MESH_V2_CAP_TYPED_CONTROL : Z := 0x40.
Definition MESH_V2_CAP_TYPED_MEMORY : Z := 0x80.
Definition MESH_V2_CAP_OTA : Z := 0x100.
Definition MESH_V2_CAP_TYPED_TIME : Z := 0x200.
Definition MESH_V2_RELIABLE_PROFILE_VERSION : Z := 1.
Definition MESH_V2_RELIABLE_WINDOW : Z := 32.
Definition MESH_V2_RELIABLE_MAX_FRAGMENTS : Z := 16.
Definition MESH_V2_RELIABLE_INNER_MAX : Z := 152.
Definition MESH_V2_RELIABLE_FLAG_REPLAY : Z := 0x1.
Definition MESH_V2_RELIABLE_FLAG_FRAGMENT : Z := 0x2.
Definition MESH_V2_RELIABLE_FLAG_URGENT : Z := 0x4.
Definition MESH_V2_RELIABLE_FLAG_LATEST : Z := 0x8.
Definition MESH_V2_LOST_REASON_OVERFLOW : Z := 1.
Definition MESH_V2_LOST_REASON_SESSION_RESET : Z := 2.
Definition MESH_V2_LOST_REASON_RETRY_EXHAUSTED : Z := 3.
Definition MESH_V2_LOST_REASON_FRAGMENT_TIMEOUT : Z := 4.
Definition MESH_V2_LOST_REASON_ROUTE_TIMEOUT : Z := 5.
Definition MESH_V2_LOST_FLAG_RECEIVER_DROP : Z := 0x1.
Definition MESH_V2_CONTROL_TEXT_MAX : Z := 128.
Definition MESH_V2_CONTROL_FLAG_OPERATION_ID : Z := 0x1.
Definition MESH_V2_TUNNEL_CHANNEL_TIME : Z := 8.
Definition MESH_V2_TUNNEL_CHANNEL_MAX : Z := 9.
Definition MESH_V2_SENSOR_MAX_ENTRIES : Z := 12.
Definition MESH_V2_SENSOR_METRIC_CO2_PPM : Z := 1.
Definition MESH_V2_SENSOR_METRIC_HEART_RATE_BPM : Z := 5.
Definition MESH_V2_SENSOR_STATUS_MASK : Z := 0x0f.

Definition mac_zero_addr : bytes := [0; 0; 0; 0; 0; 0].

(** ** [mesh_v2_hdr_t] *)

Record mesh_v2_hdr_t := {
  h_magic : Z; h_version : Z; h_type : Z; h_flags : Z;
  h_session_id : Z; h_seq : Z; h_ack_seq : Z; h_payload_len : Z;
  h_src_mac : bytes; h_crc16 : Z }.

#[export] Instance eta_hdr : Eta mesh_v2_hdr_t := fun h =>
  Build_mesh_v2_hdr_t (h_magic h) (h_version h) (h_type h) (h_flags h)
    (h_session_id h) (h_seq h) (h_ack_seq h) (h_payload_len h) (h_src_mac h) (h_crc16 h).

Definition sizeof_hdr : nat := 26.

Definition encode_hdr (h : mesh_v2_hdr_t) : bytes :=
  le_bytes 1 (h_magic h) ++ le_bytes 1 (h_version h) ++ le_bytes 1 (h_type h) ++
  le_bytes 1 (h_flags h) ++ le_bytes 4 (h_session_id h) ++ le_bytes 4 (h_seq h) ++
  le_bytes 4 (h_ack_seq h) ++ le_bytes 2 (h_payload_len h) ++ h_src_mac h ++
  le_bytes 2 (h_crc16 h).

Definition decode_hdr (bs : bytes) : mesh_v2_hdr_t :=
  {| h_magic := get_le 1 bs 0; h_version := get_le 1 bs 1; h_type := get_le 1 bs 2;
     h_flags := get_le 1 bs 3; h_session_id := get_le 4 bs 4; h_seq := get_le 4 bs 8;
     h_ack_seq := get_le 4 bs 12; h_payload_len := get_le 2 bs 16;
     h_src_mac := slice 18 6 bs; h_crc16 := get_le 2 bs 24 |}.

Definition hdr_ok (h : mesh_v2_hdr_t) : Prop :=
  is_u8 (h_magic h) /\ is_u8 (h_version h) /\ is_u8 (h_type h) /\ is_u8 (h_flags h) /\
  is_u32 (h_session_id h) /\ is_u32 (h_seq h) /\ is_u32 (h_ack_seq h) /\
  is_u16 (h_payload_len h) /\ mac_addr (h_src_mac h) /\ is_u16 (h_crc16 h).

(** ** [mesh_v2_reliable_hdr_t] *)

Record mesh_v2_reliable_hdr_t := {
  rh_channel_id : Z; rh_flags : Z; rh_priority : Z; rh_fragment_count : Z;
  rh_payload_len : Z; rh_fragment_index : Z; rh_stream_id : Z; rh_seq : Z;
  rh_tx_ms : Z; rh_root_session_id : Z; rh_node_session_id : Z;
  rh_origin_mac : bytes; rh_target_mac : bytes }.

#[export] Instance eta_rh : Eta mesh_v2_reliable_hdr_t := fun r =>
  Build_mesh_v2_reliable_hdr_t (rh_channel_id r) (rh_flags r) (rh_priority r)
    (rh_fragment_count r) (rh_payload_len r) (rh_fragment_index r) (rh_stream_id r)
    (rh_seq r) (rh_tx_ms r) (rh_root_session_id r) (rh_node_session_id r)
    (rh_origin_mac r) (rh_target_mac r).

Definition sizeof_rh : nat := 40.

Definition encode_rh (r : mesh_v2_reliable_hdr_t) : bytes :=
  le_bytes 1 (rh_channel_id r) ++ le_bytes 1 (rh_flags r) ++ le_bytes 1 (rh_priority r) ++
  le_bytes 1 (rh_fragment_count r) ++ le_bytes 2 (rh_payload_len r) ++
  le_bytes 2 (rh_fragment_index r) ++ le_bytes 4 (rh_stream_id r) ++
  le_bytes 4 (rh_seq r) ++ le_bytes 4 (rh_tx_ms r) ++ le_bytes 4 (rh_root_session_id r) ++
  le_bytes 4 (rh_node_session_id r) ++ rh_origin_mac r ++ rh_target_mac r.

Definition decode_rh (bs : bytes) : mesh_v2_reliable_hdr_t :=
  {| rh_channel_id := get_le 1 bs 0; rh_flags := get_le 1 bs 1;
     rh_priority := get_le 1 bs 2; rh_fragment_count := get_le 1 bs 3;
     rh_payload_len := get_le 2 bs 4; rh_fragment_index := get_le 2 bs 6;
     rh_stream_id := get_le 4 bs 8; rh_seq := get_le 4 bs 12; rh_tx_ms := get_le 4 bs 16;
     rh_root_session_id := get_le 4 bs 20; rh_node_session_id := get_le 4 bs 24;
     rh_origin_mac := slice 28 6 bs; rh_target_mac := slice 34 6 bs |}.

Definition rh_ok (r : mesh_v2_reliable_hdr_t) : Prop :=
  is_u8 (rh_channel_id r) /\ is_u8 (rh_flags r) /\ is_u8 (rh_priority r) /\
  is_u8 (rh_fragment_count r) /\ is_u16 (rh_payload_len r) /\
  is_u16 (rh_fragment_index r) /\ is_u32 (rh_stream_id r) /\ is_u32 (rh_seq r) /\
  is_u32 (rh_tx_ms r) /\ is_u32 (rh_root_session_id r) /\ is_u32 (rh_node_session_id r) /\
  mac_addr (rh_origin_mac r) /\ mac_addr (rh_target_mac r).

(** ** HELLO, HELLO_ACK, ACK/NACK and LOST payloads *)

Record mesh_v2_reliable_hello_payload_t := {
  hello_tag : bytes; hello_uptime_s : Z; hello_profile_version : Z; hello_mtu : Z;
  hello_tx_slots : Z; hello_reorder_window : Z; hello_capabilities : Z;
  hello_node_session_id : Z; hello_root_session_seen : Z }.

Definition sizeof_hello : nat := 40.

Definition encode_hello (p : mesh_v2_reliable_hello_payload_t) : bytes :=
  hello_tag p ++ le_bytes 4 (hello_uptime_s p) ++ le_bytes 2 (hello_profile_version p) ++
  le_bytes 2 (hello_mtu p) ++ le_bytes 2 (hello_tx_slots p) ++
  le_bytes 2 (hello_reorder_window p) ++ le_bytes 4 (hello_capabilities p) ++
  le_bytes 4 (hello_node_session_id p) ++ le_bytes 4 (hello_root_session_seen p).

Definition decode_hello (bs : bytes) : mesh_v2_reliable_hello_payload_t :=
  {| hello_tag := slice 0 16 bs; hello_uptime_s := get_le 4 bs 16;
     hello_profile_version := get_le 2 bs 20; hello_mtu := get_le 2 bs 22;
     hello_tx_slots := get_le 2 bs 24; hello_reorder_window := get_le 2 bs 26;
     hello_capabilities := get_le 4 bs 28; hello_node_session_id := get_le 4 bs 32;
     hello_root_session_seen := get_le 4 bs 36 |}.

Definition hello_ok (p : mesh_v2_reliable_hello_payload_t) : Prop :=
  (length (hello_tag p) = 16%nat /\ are_bytes (hello_tag p)) /\
  is_u32 (hello_uptime_s p) /\ is_u16 (hello_profile_version p) /\ is_u16 (hello_mtu p) /\
  is_u16 (hello_tx_slots p) /\ is_u16 (hello_reorder_window p) /\
  is_u32 (hello_capabilities p) /\ is_u32 (hello_node_session_id p) /\
  is_u32 (hello_root_session_seen p).

Record mesh_v2_reliable_hello_ack_payload_t := {
  ha_profile_version : Z; ha_mtu : Z; ha_capabilities : Z; ha_root_session_id : Z;
  ha_node_session_id : Z; ha_reset_link : Z }.

Definition sizeof_hello_ack : nat := 20.

Definition encode_hello_ack (p : mesh_v2_reliable_hello_ack_payload_t) : bytes :=
  le_bytes 2 (ha_profile_version p) ++ le_bytes 2 (ha_mtu p) ++
  le_bytes 4 (ha_capabilities p) ++ le_bytes 4 (ha_root_session_id p) ++
  le_bytes 4 (ha_node_session_id p) ++ le_bytes 1 (ha_reset_link p) ++ [0; 0; 0].

Definition decode_hello_ack (bs : bytes) : mesh_v2_reliable_hello_ack_payload_t :=
  {| ha_profile_version := get_le 2 bs 0; ha_mtu := get_le 2 bs 2;
     ha_capabilities := get_le 4 bs 4; ha_root_session_id := get_le 4 bs 8;
     ha_node_session_id := get_le 4 bs 12; ha_reset_link := get_le 1 bs 16 |}.

Definition hello_ack_ok (p : mesh_v2_reliable_hello_ack_payload_t) : Prop :=
  is_u16 (ha_profile_version p) /\ is_u16 (ha_mtu p) /\ is_u32 (ha_capabilities p) /\
  is_u32 (ha_root_session_id p) /\ is_u32 (ha_node_session_id p) /\ is_u8 (ha_reset_link p).

Record mesh_v2_reliable_ack_payload_t := {
  ack_channel_id : Z; ack_flags : Z; ack_reason : Z; ack_rsv : Z;
  ack_root_session_id : Z; ack_node_session_id : Z; ack_ack_seq : Z;
  ack_sack_bitmap : Z; ack_nack_seq : Z; ack_echo_tx_ms : Z;
  ack_origin_mac : bytes; ack_target_mac : bytes }.

Definition sizeof_ack : nat := 40.

Definition encode_ack (p : mesh_v2_reliable_ack_payload_t) : bytes :=
  le_bytes 1 (ack_channel_id p) ++ le_bytes 1 (ack_flags p) ++ le_bytes 1 (ack_reason p) ++
  le_bytes 1 (ack_rsv p) ++ le_bytes 4 (ack_root_session_id p) ++
  le_bytes 4 (ack_node_session_id p) ++ le_bytes 4 (ack_ack_seq p) ++
  le_bytes 4 (ack_sack_bitmap p) ++ le_bytes 4 (ack_nack_seq p) ++
  le_bytes 4 (ack_echo_tx_ms p) ++ ack_origin_mac p ++ ack_target_mac p.

Definition decode_ack (bs : bytes) : mesh_v2_reliable_ack_payload_t :=
  {| ack_channel_id := get_le 1 bs 0; ack_flags := get_le 1 bs 1;
     ack_reason := get_le 1 bs 2; ack_rsv := get_le 1 bs 3;
     ack_root_session_id := get_le 4 bs 4; ack_node_session_id := get_le 4 bs 8;
     ack_ack_seq := get_le 4 bs 12; ack_sack_bitmap := get_le 4 bs 16;
     ack_nack_seq := get_le 4 bs 20; ack_echo_tx_ms := get_le 4 bs 24;
     ack_origin_mac := slice 28 6 bs; ack_target_mac := slice 34 6 bs |}.

Definition ack_ok (p : mesh_v2_reliable_ack_payload_t) : Prop :=
  is_u8 (ack_channel_id p) /\ is_u8 (ack_flags p) /\ is_u8 (ack_reason p) /\
  is_u8 (ack_rsv p) /\ is_u32 (ack_root_session_id p) /\ is_u32 (ack_node_session_id p) /\
  is_u32 (ack_ack_seq p) /\ is_u32 (ack_sack_bitmap p) /\ is_u32 (ack_nack_seq p) /\
  is_u32 (ack_echo_tx_ms p) /\ mac_addr (ack_origin_mac p) /\ mac_addr (ack_target_mac p).

Record mesh_v2_reliable_lost_payload_t := {
  lost_channel_id : Z; lost_reason : Z; lost_rsv : Z; lost_root_session_id : Z;
  lost_node_session_id : Z; lost_seq_first : Z; lost_seq_last : Z;
  lost_origin_mac : bytes; lost_target_mac : bytes }.

Definition sizeof_lost : nat := 32.

Definition encode_lost (p : mesh_v2_reliable_lost_payload_t) : bytes :=
  le_bytes 1 (lost_channel_id p) ++ le_bytes 1 (lost_reason p) ++ le_bytes 2 (lost_rsv p) ++
  le_bytes 4 (lost_root_session_id p) ++ le_bytes 4 (lost_node_session_id p) ++
  le_bytes 4 (lost_seq_first p) ++ le_bytes 4 (lost_seq_last p) ++
  lost_origin_mac p ++ lost_target_mac p.

Definition decode_lost (bs : bytes) : mesh_v2_reliable_lost_payload_t :=
  {| lost_channel_id := get_le 1 bs 0; lost_reason := get_le 1 bs 1;
     lost_rsv := get_le 2 bs 2; lost_root_session_id := get_le 4 bs 4;
     lost_node_session_id := get_le 4 bs 8; lost_seq_first := get_le 4 bs 12;
     lost_seq_last := get_le 4 bs 16;
     lost_origin_mac := slice 20 6 bs; lost_target_mac := slice 26 6 bs |}.

Definition lost_ok (p : mesh_v2_reliable_lost_payload_t) : Prop :=
  is_u8 (lost_channel_id p) /\ is_u8 (lost_reason p) /\ is_u16 (lost_rsv p) /\
  is_u32 (lost_root_session_id p) /\ is_u32 (lost_node_session_id p) /\
  is_u32 (lost_seq_first p) /\ is_u32 (lost_seq_last p) /\
  mac_addr (lost_origin_mac p) /\ mac_addr (lost_target_mac p).

(** ** CONTROL payload: text and optional operation identity *)

(** offsetof(mesh_v2_control_payload_t, text) *)
Definition control_text_offset : Z := 8.
Definition sizeof_operation_id : Z := 16.

Record mesh_v2_operation_id_t := { op_high : Z; op_low : Z }.

(** A size of 0 is the code's "does not fit". *)
Definition keemash_mesh_control_payload_size (text_len : Z) (has_operation_id : bool) : Z :=
  if MESH_V2_CONTROL_TEXT_MAX <? text_len then 0
  else control_text_offset + text_len + (if has_operation_id then sizeof_operation_id else 0).

Definition control_text_len (payload : bytes) : Z := get_u8 payload 2.
Definition control_rsv (payload : bytes) : Z := get_u8 payload 3.

Definition keemash_mesh_control_get_operation_id (payload : bytes)
  : option mesh_v2_operation_id_t :=
  let payload_len := Z.of_nat (length payload) in
  if payload_len <? control_text_offset then None
  else if negb (has_flag (control_rsv payload) MESH_V2_CONTROL_FLAG_OPERATION_ID)
       || (MESH_V2_CONTROL_TEXT_MAX <? control_text_len payload) then None
  else
    let base := keemash_mesh_control_payload_size (control_text_len payload) false in
    if (base =? 0) || (payload_len <? base + sizeof_operation_id) then None
    else
      let id := {| op_high := get_le 8 payload (Z.to_nat base);
                   op_low := get_le 8 payload (Z.to_nat base + 8) |} in
      if negb (op_high id =? 0) || negb (op_low id =? 0) then Some id else None.

(** The sender's side of the same layout (node [rel_send_control], root
    [mesh_v2_root_send_command_operation]): header, text, then the identity. *)
Definition control_payload (kind status command_id : Z) (text : bytes)
  (operation_id : option mesh_v2_operation_id_t) : bytes :=
  [kind; status; Z.of_nat (length text);
   match operation_id with Some _ => MESH_V2_CONTROL_FLAG_OPERATION_ID | None => 0 end] ++
  le_bytes 4 command_id ++ text ++
  match operation_id with
  | Some id => le_bytes 8 (op_high id) ++ le_bytes 8 (op_low id)
  | None => []
  end.

(** ** SENSOR snapshot *)

Record mesh_v2_sensor_entry_t := {
  se_metric_id : Z; se_status : Z; se_scale10 : Z; se_value : Z }.

Record mesh_v2_sensor_snapshot_payload_t := {
  ss_generation : Z; ss_sample_uptime_ms : Z; ss_request_id : Z; ss_flags : Z;
  ss_count : Z; ss_rsv : Z;
  ss_entries : list mesh_v2_sensor_entry_t  (* MESH_V2_SENSOR_MAX_ENTRIES of them *) }.

Definition sizeof_sensor_snapshot : Z := 16 + 8 * MESH_V2_SENSOR_MAX_ENTRIES.

Definition sensor_entry_valid (e : mesh_v2_sensor_entry_t) : bool :=
  negb ((se_metric_id e <? MESH_V2_SENSOR_METRIC_CO2_PPM)
        || (MESH_V2_SENSOR_METRIC_HEART_RATE_BPM <? se_metric_id e)
        || negb (Z.land (se_status e) (Z.lnot MESH_V2_SENSOR_STATUS_MASK) =? 0)
        || (se_scale10 e <? -9) || (9 <? se_scale10 e)).

Definition keemash_mesh_sensor_snapshot_valid
  (snapshot : mesh_v2_sensor_snapshot_payload_t) (payload_len : Z) : bool :=
  if negb (payload_len =? sizeof_sensor_snapshot)
     || (MESH_V2_SENSOR_MAX_ENTRIES <? ss_count snapshot) then false
  else forallb sensor_entry_valid (take (Z.to_nat (ss_count snapshot)) (ss_entries snapshot)).

(** ** Round trips *)

Lemma list6 (m : bytes) :
  length m = 6%nat -> exists a b c d e f, m = [a; b; c; d; e; f].
Proof.
  intros H. do 6 (destruct m as [|? m]; [done|]). destruct m; [|done]. by repeat eexists.
Qed.

Ltac explode_macs :=
  repeat match goal with
  | H : mac_addr ?m |- _ =>
      let Hl := fresh in let Hb := fresh in
      destruct H as [Hl Hb];
      apply list6 in Hl as (? & ? & ? & ? & ? & ? & ->)
  end.

Lemma decode_encode_hdr h rest : hdr_ok h -> decode_hdr (encode_hdr h ++ rest) = h.
Proof.
  destruct h as [a b c d e f g i m k]; unfold hdr_ok; cbn.
  intros (?&?&?&?&?&?&?&?&?&?). explode_macs.
  unfold decode_hdr, encode_hdr; cbn [h_magic h_version h_type h_flags h_session_id h_seq
    h_ack_seq h_payload_len h_src_mac h_crc16]. f_equal; le_field.
Qed.

Lemma decode_encode_rh r rest : rh_ok r -> decode_rh (encode_rh r ++ rest) = r.
Proof.
  destruct r; unfold rh_ok; cbn. intros (?&?&?&?&?&?&?&?&?&?&?&?&?). explode_macs.
  unfold decode_rh, encode_rh; cbn [rh_channel_id rh_flags rh_priority rh_fragment_count
    rh_payload_len rh_fragment_index rh_stream_id rh_seq rh_tx_ms rh_root_session_id
    rh_node_session_id rh_origin_mac rh_target_mac]. f_equal; le_field.
Qed.

Lemma decode_encode_ack p rest : ack_ok p -> decode_ack (encode_ack p ++ rest) = p.
Proof.
  destruct p; unfold ack_ok; cbn. intros (?&?&?&?&?&?&?&?&?&?&?&?). explode_macs.
  unfold decode_ack, encode_ack; cbn [ack_channel_id ack_flags ack_reason ack_rsv
    ack_root_session_id ack_node_session_id ack_ack_seq ack_sack_bitmap ack_nack_seq
    ack_echo_tx_ms ack_origin_mac ack_target_mac]. f_equal; le_field.
Qed.

Lemma decode_encode_lost p rest : lost_ok p -> decode_lost (encode_lost p ++ rest) = p.
Proof.
  destruct p; unfold lost_ok; cbn. intros (?&?&?&?&?&?&?&?&?). explode_macs.
  unfold decode_lost, encode_lost; cbn [lost_channel_id lost_reason lost_rsv
    lost_root_session_id lost_node_session_id lost_seq_first lost_seq_last lost_origin_mac
    lost_target_mac]. f_equal; le_field.
Qed.

Lemma decode_encode_hello_ack p rest :
  hello_ack_ok p -> decode_hello_ack (encode_hello_ack p ++ rest) = p.
Proof.
  destruct p; unfold hello_ack_ok; cbn. intros (?&?&?&?&?&?).
  unfold decode_hello_ack, encode_hello_ack; cbn [ha_profile_version ha_mtu
    ha_capabilities ha_root_session_id ha_node_session_id ha_reset_link].
  f_equal; le_field.
Qed.

Lemma decode_encode_hello p rest : hello_ok p -> decode_hello (encode_hello p ++ rest) = p.
Proof.
  destruct p as [tag]; unfold hello_ok; cbn. intros ([Ht _]&?&?&?&?&?&?&?&?).
  do 16 (destruct tag as [|? tag]; [done|]). destruct tag; [|done].
  unfold decode_hello, encode_hello; cbn [hello_tag hello_uptime_s hello_profile_version
    hello_mtu hello_tx_slots hello_reorder_window hello_capabilities hello_node_session_id
    hello_root_session_seen]. f_equal; le_field.
Qed.

Lemma length_encode_hdr h : length (h_src_mac h) = 6%nat -> length (encode_hdr h) = sizeof_hdr.
Proof. intros H. unfold encode_hdr. autorewrite with len. by rewrite H. Qed.
Lemma length_encode_rh r :
  length (rh_origin_mac r) = 6%nat -> length (rh_target_mac r) = 6%nat ->
  length (encode_rh r) = sizeof_rh.
Proof. intros H1 H2. unfold encode_rh. autorewrite with len. by rewrite H1, H2. Qed.
Lemma length_encode_ack p :
  length (ack_origin_mac p) = 6%nat -> length (ack_target_mac p) = 6%nat ->
  length (encode_ack p) = sizeof_ack.
Proof. intros H1 H2. unfold encode_ack. autorewrite with len. by rewrite H1, H2. Qed.
Lemma length_encode_lost p :
  length (lost_origin_mac p) = 6%nat -> length (lost_target_mac p) = 6%nat ->
  length (encode_lost p) = sizeof_lost.
Proof. intros H1 H2. unfold encode_lost. autorewrite with len. by rewrite H1, H2. Qed.
Lemma length_encode_hello p : length (hello_tag p) = 16%nat -> length (encode_hello p) = sizeof_hello.
Proof. intros H. unfold encode_hello. autorewrite with len. by rewrite H. Qed.
Lemma length_encode_hello_ack p : length (encode_hello_ack p) = sizeof_hello_ack.
Proof. unfold encode_hello_ack. by autorewrite with len. Qed.

(** ** Operation identity and SENSOR properties *)

Lemma le_val_bytes_8_app z rest : is_u64 z -> le_val (slice 0 8 (le_bytes 8 z ++ rest)) = z.
Proof. intros. rewrite slice_app_l by done. by apply le_val_bytes_8. Qed.

Lemma length_control_payload kind status cid text op :
  length (control_payload kind status cid text op) =
  (8 + length text + match op with Some _ => 16 | None => 0 end)%nat.
Proof. unfold control_payload. destruct op; cbn; autorewrite with len; cbn; lia. Qed.

(** [keemash_mesh_control_payload_size] is the number of bytes the sender lays
    out, for every text that fits. *)
Lemma control_payload_size_exact kind status cid text op :
  Z.of_nat (length text) <= MESH_V2_CONTROL_TEXT_MAX ->
  keemash_mesh_control_payload_size (Z.of_nat (length text))
    (match op with Some _ => true | None => false end)
  = Z.of_nat (length (control_payload kind status cid text op)).
Proof.
  intros H. rewrite length_control_payload. unfold keemash_mesh_control_payload_size.
  rewrite (proj2 (Z.ltb_ge _ _) H). unfold control_text_offset, sizeof_operation_id.
  destruct op; lia.
Qed.

Lemma control_op_id_slice kind status command_id text op :
  is_u64 (op_high op) -> is_u64 (op_low op) ->
  let p := control_payload kind status command_id text (Some op) in
  get_le 8 p (8 + length text) = op_high op /\
  get_le 8 p (8 + length text + 8) = op_low op.
Proof.
  intros Hh Hl p. unfold get_le.
  set (pre := [kind; status; Z.of_nat (length text); MESH_V2_CONTROL_FLAG_OPERATION_ID]
              ++ le_bytes 4 command_id ++ text).
  assert (Hp : p = pre ++ le_bytes 8 (op_high op) ++ le_bytes 8 (op_low op)).
  { unfold p, control_payload, pre. by rewrite <- !app_assoc. }
  assert (Hlen : length pre = (8 + length text)%nat).
  { unfold pre. by autorewrite with len. }
  rewrite Hp, !(slice_app_r pre) by lia. rewrite Hlen.
  rewrite Nat.sub_diag, Nat.add_comm, Nat.add_sub.
  split; [by apply le_val_bytes_8_app|].
  rewrite slice_app_r by (by rewrite length_le_bytes).
  rewrite length_le_bytes. rewrite slice_all by apply length_le_bytes.
  by apply le_val_bytes_8.
Qed.
