(* ===== verification/MeshProtoV1.v ===== *)
(** * The V1 packets and the OTA payloads (include/keemash_mesh_proto.h)

    The packed structs of the legacy packets (node announcement, log line, log
    control, OTA) and the V2 OTA payloads, with their byte layouts.  As in
    MeshProto a struct is the concatenation of its members; a character array is
    its bytes, padding included. *)

From S2P Require Import Prelude.
From S2P Require Import Words.
#[local] Open Scope Z_scope.

Definition MESH_LOG_TYPE_LINE : Z := 3.
Definition MESH_LOG_TYPE_NODEINFO : Z := 4.
Definition MESH_LOG_TYPE_CTRL : Z := 5.
Definition MESH_OTA_TYPE_BEGIN : Z := 6.
Definition MESH_OTA_TYPE_DATA : Z := 7.
Definition MESH_OTA_TYPE_END : Z := 8.
Definition MESH_OTA_TYPE_ABORT : Z := 9.
Definition MESH_OTA_TYPE_STATUS : Z := 10.
Definition MESH_OTA_CHUNK_MAX : Z := 192.
Definition MESH_OTA_OP_BEGIN : Z := 1.
Definition MESH_OTA_OP_DATA : Z := 2.
Definition MESH_OTA_OP_END : Z := 3.
Definition MESH_OTA_OP_ABORT : Z := 4.
Definition MESH_OTA_STATUS_OK : Z := 0.
Definition MESH_OTA_STATUS_ERROR : Z := 1.
Definition MESH_OTA_STATUS_BUSY : Z := 2.
Definition MESH_V2_OTA_OP_PREPARE : Z := 1.
Definition MESH_V2_OTA_OP_DATA : Z := 2.
Definition MESH_V2_OTA_OP_COMMIT : Z := 3.
Definition MESH_V2_OTA_OP_ABORT : Z := 4.
Definition MESH_V2_OTA_OP_STATUS : Z := 5.
Definition MESH_V2_OTA_STATUS_OK : Z := 0.
Definition MESH_V2_OTA_STATUS_ERROR : Z := 1.
Definition MESH_V2_OTA_STATUS_BUSY : Z := 2.
Definition MESH_V2_OTA_CHUNK_MAX : Z := 1024.

(** ** Layouts *)

Definition layout (parts : list bytes) : bytes := concat parts.
Arguments layout : simpl never.

(** A member of a struct laid out as consecutive parts. *)
Lemma slice_member (parts : list bytes) rest i p off n :
  parts !! i = Some p -> n = length p -> off = length (layout (take i parts)) ->
  slice off n (layout parts ++ rest) = p.
Proof.
  unfold layout. intros Hi -> ->. rewrite <- (take_drop_middle parts i p Hi) at 2.
  rewrite concat_app, <- app_assoc. rewrite slice_app_r by lia. rewrite Nat.sub_diag.
  cbn [concat]. rewrite <- app_assoc. by apply slice_app_l.
Qed.

Lemma length_layout_nil : length (layout []) = 0%nat.
Proof. done. Qed.
Lemma length_layout_cons a l : length (layout (a :: l)) = (length a + length (layout l))%nat.
Proof. apply length_app. Qed.
#[export] Hint Rewrite length_layout_nil length_layout_cons : len.

(** The length of a prefix of the parts, with the array lengths in the context. *)
Ltac part_length :=
  cbn [take]; autorewrite with len;
  repeat match goal with H : length ?x = _ |- context [length ?x] => rewrite H end;
  reflexivity.

Ltac member_at i :=
  eapply (slice_member _ _ i); [reflexivity|symmetry; part_length|symmetry; part_length].

Ltac member :=
  first [member_at 0%nat | member_at 1%nat | member_at 2%nat | member_at 3%nat
        |member_at 4%nat | member_at 5%nat | member_at 6%nat | member_at 7%nat
        |member_at 8%nat | member_at 9%nat | member_at 10%nat | member_at 11%nat].

(** A number read back from the encoding of a struct. *)
Ltac number :=
  unfold get_le;
  match goal with
  | |- le_val (slice _ ?n _) = ?z =>
      transitivity (le_val (le_bytes n z)); [f_equal; member|];
      first [by apply le_val_bytes_1 | by apply le_val_bytes_2 | by apply le_val_bytes_4]
  end.

Ltac struct_roundtrip := f_equal; first [number | member].

(** ** [mesh_pkt_hdr_t] *)

Record mesh_pkt_hdr_t := {
  ph_magic : Z; ph_version : Z; ph_type : Z; ph_reserved : Z; ph_counter : Z;
  ph_src_mac : bytes }.

Definition sizeof_pkt_hdr : nat := 14.

Definition encode_pkt_hdr (h : mesh_pkt_hdr_t) : bytes :=
  layout [le_bytes 1 (ph_magic h); le_bytes 1 (ph_version h); le_bytes 1 (ph_type h);
          le_bytes 1 (ph_reserved h); le_bytes 4 (ph_counter h); ph_src_mac h].

Definition decode_pkt_hdr (bs : bytes) : mesh_pkt_hdr_t :=
  {| ph_magic := get_le 1 bs 0; ph_version := get_le 1 bs 1; ph_type := get_le 1 bs 2;
     ph_reserved := get_le 1 bs 3; ph_counter := get_le 4 bs 4; ph_src_mac := slice 8 6 bs |}.

Definition pkt_hdr_ok (h : mesh_pkt_hdr_t) : Prop :=
  is_u8 (ph_magic h) /\ is_u8 (ph_version h) /\ is_u8 (ph_type h) /\ is_u8 (ph_reserved h) /\
  is_u32 (ph_counter h) /\ mac_addr (ph_src_mac h).

Lemma decode_encode_pkt_hdr h rest :
  pkt_hdr_ok h -> decode_pkt_hdr (encode_pkt_hdr h ++ rest) = h.
Proof.
  destruct h. intros (?&?&?&?&?&[? _]). cbn in *.
  unfold decode_pkt_hdr, encode_pkt_hdr. cbn [ph_magic ph_version ph_type ph_reserved
    ph_counter ph_src_mac]. struct_roundtrip.
Qed.

Lemma length_encode_pkt_hdr h :
  length (ph_src_mac h) = 6%nat -> length (encode_pkt_hdr h) = sizeof_pkt_hdr.
Proof. intros H. unfold encode_pkt_hdr. autorewrite with len. by rewrite H. Qed.

(** ** Log packets *)

Record mesh_nodeinfo_v2_packet_t := {
  ni_h : mesh_pkt_hdr_t; ni_tag : bytes; ni_uptime_s : Z }.

Definition encode_nodeinfo (p : mesh_nodeinfo_v2_packet_t) : bytes :=
  layout [encode_pkt_hdr (ni_h p); ni_tag p; le_bytes 4 (ni_uptime_s p)].

Record mesh_log_line_packet_t := { ll_h : mesh_pkt_hdr_t; ll_tag : bytes; ll_line : bytes }.

Definition encode_log_line (p : mesh_log_line_packet_t) : bytes :=
  layout [encode_pkt_hdr (ll_h p); ll_tag p; ll_line p].

Record mesh_log_ctrl_packet_t := { lc_h : mesh_pkt_hdr_t; lc_enable : Z }.

Definition sizeof_log_ctrl : nat := 18.

Definition encode_log_ctrl (p : mesh_log_ctrl_packet_t) : bytes :=
  layout [encode_pkt_hdr (lc_h p); le_bytes 1 (lc_enable p); [0; 0; 0]].

Definition decode_log_ctrl (bs : bytes) : mesh_log_ctrl_packet_t :=
  {| lc_h := decode_pkt_hdr bs; lc_enable := get_le 1 bs 14 |}.

(** ** OTA v1 packets *)

Record mesh_ota_begin_packet_t := {
  ob_seq : Z; ob_chunk_size : Z; ob_image_size : Z; ob_project_name : bytes;
  ob_version : bytes }.

Definition sizeof_ota_begin : nat := 86.

Definition decode_ota_begin (bs : bytes) : mesh_ota_begin_packet_t :=
  {| ob_seq := get_le 2 bs 14; ob_chunk_size := get_le 2 bs 16;
     ob_image_size := get_le 4 bs 18; ob_project_name := slice 22 32 bs;
     ob_version := slice 54 32 bs |}.

Definition encode_ota_begin (h : mesh_pkt_hdr_t) (p : mesh_ota_begin_packet_t) : bytes :=
  layout [encode_pkt_hdr h; le_bytes 2 (ob_seq p); le_bytes 2 (ob_chunk_size p);
          le_bytes 4 (ob_image_size p); ob_project_name p; ob_version p].

(** [data] is everything after the header: [len] of its bytes count. *)
Record mesh_ota_data_packet_t := { od_seq : Z; od_len : Z; od_offset : Z; od_data : bytes }.

Definition offsetof_ota_data : nat := 22.

Definition decode_ota_data (bs : bytes) : mesh_ota_data_packet_t :=
  {| od_seq := get_le 2 bs 14; od_len := get_le 2 bs 16; od_offset := get_le 4 bs 18;
     od_data := drop 22 bs |}.

Definition encode_ota_data (h : mesh_pkt_hdr_t) (p : mesh_ota_data_packet_t) : bytes :=
  layout [encode_pkt_hdr h; le_bytes 2 (od_seq p); le_bytes 2 (od_len p);
          le_bytes 4 (od_offset p); od_data p].

Record mesh_ota_end_packet_t := { oe_seq : Z; oe_image_size : Z }.

Definition sizeof_ota_end : nat := 22.

Definition decode_ota_end (bs : bytes) : mesh_ota_end_packet_t :=
  {| oe_seq := get_le 2 bs 14; oe_image_size := get_le 4 bs 18 |}.

Definition encode_ota_end (h : mesh_pkt_hdr_t) (p : mesh_ota_end_packet_t) : bytes :=
  layout [encode_pkt_hdr h; le_bytes 2 (oe_seq p); [0; 0]; le_bytes 4 (oe_image_size p)].

Record mesh_ota_abort_packet_t := { oa_seq : Z; oa_reason : bytes }.

Definition sizeof_ota_abort : nat := 66.

Definition decode_ota_abort (bs : bytes) : mesh_ota_abort_packet_t :=
  {| oa_seq := get_le 2 bs 14; oa_reason := slice 18 48 bs |}.

(** [mesh_ota_status_v2_packet_t], with the members of its [base]. *)
Record mesh_ota_status_v2_packet_t := {
  os_h : mesh_pkt_hdr_t; os_op : Z; os_code : Z; os_seq : Z; os_offset : Z; os_total : Z;
  os_message : bytes; os_running_label : bytes; os_update_label : bytes;
  os_running_size : Z; os_update_size : Z }.

Definition encode_ota_status (p : mesh_ota_status_v2_packet_t) : bytes :=
  layout [encode_pkt_hdr (os_h p); le_bytes 1 (os_op p); le_bytes 1 (os_code p);
          le_bytes 2 (os_seq p); le_bytes 4 (os_offset p); le_bytes 4 (os_total p);
          os_message p; os_running_label p; os_update_label p;
          le_bytes 4 (os_running_size p); le_bytes 4 (os_update_size p)].

Definition decode_ota_status (bs : bytes) : mesh_ota_status_v2_packet_t :=
  {| os_h := decode_pkt_hdr bs; os_op := get_le 1 bs 14; os_code := get_le 1 bs 15;
     os_seq := get_le 2 bs 16; os_offset := get_le 4 bs 18; os_total := get_le 4 bs 22;
     os_message := slice 26 64 bs; os_running_label := slice 90 8 bs;
     os_update_label := slice 98 8 bs; os_running_size := get_le 4 bs 106;
     os_update_size := get_le 4 bs 110 |}.

(** ** OTA v2 payloads *)

Record mesh_v2_ota_common_payload_t := {
  vc_op : Z; vc_status : Z; vc_rsv : Z; vc_op_id : Z; vc_image_size : Z; vc_offset : Z;
  vc_len : Z; vc_project_name : bytes; vc_version : bytes; vc_sha256 : bytes;
  vc_message : bytes }.

Definition sizeof_v2_common : nat := 180.

Definition encode_v2_common (c : mesh_v2_ota_common_payload_t) : bytes :=
  layout [le_bytes 1 (vc_op c); le_bytes 1 (vc_status c); le_bytes 2 (vc_rsv c);
          le_bytes 4 (vc_op_id c); le_bytes 4 (vc_image_size c); le_bytes 4 (vc_offset c);
          le_bytes 4 (vc_len c); vc_project_name c; vc_version c; vc_sha256 c; vc_message c].

Definition decode_v2_common (bs : bytes) : mesh_v2_ota_common_payload_t :=
  {| vc_op := get_le 1 bs 0; vc_status := get_le 1 bs 1; vc_rsv := get_le 2 bs 2;
     vc_op_id := get_le 4 bs 4; vc_image_size := get_le 4 bs 8; vc_offset := get_le 4 bs 12;
     vc_len := get_le 4 bs 16; vc_project_name := slice 20 32 bs; vc_version := slice 52 32 bs;
     vc_sha256 := slice 84 32 bs; vc_message := slice 116 64 bs |}.

Definition v2_common_ok (c : mesh_v2_ota_common_payload_t) : Prop :=
  is_u8 (vc_op c) /\ is_u8 (vc_status c) /\ is_u16 (vc_rsv c) /\ is_u32 (vc_op_id c) /\
  is_u32 (vc_image_size c) /\ is_u32 (vc_offset c) /\ is_u32 (vc_len c) /\
  length (vc_project_name c) = 32%nat /\ length (vc_version c) = 32%nat /\
  length (vc_sha256 c) = 32%nat /\ length (vc_message c) = 64%nat.

Lemma decode_encode_v2_common c rest :
  v2_common_ok c -> decode_v2_common (encode_v2_common c ++ rest) = c.
Proof.
  destruct c. intros (?&?&?&?&?&?&?&?&?&?&?). cbn in *.
  unfold decode_v2_common, encode_v2_common. cbn [vc_op vc_status vc_rsv vc_op_id vc_image_size
    vc_offset vc_len vc_project_name vc_version vc_sha256 vc_message]. struct_roundtrip.
Qed.

Lemma length_encode_v2_common c : v2_common_ok c -> length (encode_v2_common c) = sizeof_v2_common.
Proof.
  intros (_&_&_&_&_&_&_&H1&H2&H3&H4). unfold encode_v2_common.
  autorewrite with len. by rewrite H1, H2, H3, H4.
Qed.

(** The bytes of [data] that arrived. *)
Definition v2_data (bs : bytes) : bytes := drop sizeof_v2_common bs.

(** [mesh_v2_ota_data_payload_t] with all of [data]. *)
Definition sizeof_v2_data : nat := 1204.

Record mesh_v2_ota_status_payload_t := {
  vs_c : mesh_v2_ota_common_payload_t; vs_running_label : bytes; vs_update_label : bytes;
  vs_running_size : Z; vs_update_size : Z }.
