(* ===== verification/MeshProtoV2.v ===== *)
(** * The V2 payloads of the node and root facades (include/keemash_mesh_proto.h)

    The packed structs the facades exchange besides the reliable layer's own: HELLO,
    the acknowledgements of the legacy V2 path, the compatibility tunnel, and the
    node reports (node info, log lines, tasks, topology, memory).  As in MeshProto a
    struct is the concatenation of its members; a character array is its bytes. *)

From S2P Require Import Prelude.
From S2P Require Import Words.
From S2P Require Import MeshProto.
From S2P Require Import MeshProtoV1.
#[local] Open Scope Z_scope.

Definition MESH_V2_TYPE_HELLO : Z := 32.
Definition MESH_V2_TYPE_ACK : Z := 33.
Definition MESH_V2_TYPE_NACK : Z := 34.
Definition MESH_V2_TYPE_NODEINFO : Z := 35.
Definition MESH_V2_TYPE_LOG_LINE : Z := 36.
Definition MESH_V2_TYPE_LOST : Z := 37.
Definition MESH_V2_TYPE_PING : Z := 44.
Definition MESH_V2_TYPE_PONG : Z := 45.
Definition MESH_V2_TYPE_TUNNEL_DATA : Z := 52.
Definition MESH_V2_TYPE_TUNNEL_ACK : Z := 53.
Definition MESH_V2_TYPE_TUNNEL_NACK : Z := 54.
Definition MESH_V2_TYPE_TUNNEL_LOST : Z := 55.
Definition MESH_V2_FLAG_REPLAY : Z := 0x01.
Definition MESH_V2_TAG_MAX : nat := 16.
Definition MESH_V2_LOG_LINE_MAX : nat := 176.
Definition MESH_V2_REPLAY_RING_SIZE : Z := 32.
Definition MESH_V2_CAP_TUNNEL : Z := 0x1.
Definition MESH_V2_CAP_MESH_RELAY_ELIGIBLE : Z := 0x2.
Definition MESH_V2_CAP_TOPOLOGY : Z := 0x4.
Definition MESH_V2_CAP_TYPED_SENSOR : Z := 0x400.
Definition MESH_V2_CAP_ACTIVE_PING : Z := 0x800.
Definition MESH_V2_CAP_OPERATION_ID : Z := 0x1000.
Definition MESH_V2_CAP_OTA_V3 : Z := 0x2000.
Definition MESH_V2_CONTROL_COMMAND : Z := 1.
Definition MESH_V2_CONTROL_RESULT : Z := 2.
Definition MESH_V2_CONTROL_EVENT : Z := 3.
Definition MESH_V2_CONTROL_STATUS_OK : Z := 0.
Definition MESH_V2_CONTROL_STATUS_UNSUPPORTED : Z := 1.
Definition MESH_V2_TUNNEL_CHANNEL_NODEINFO : Z := 1.
Definition MESH_V2_TUNNEL_CHANNEL_LOG : Z := 2.
Definition MESH_V2_TUNNEL_CHANNEL_CONTROL : Z := 3.
Definition MESH_V2_TUNNEL_CHANNEL_TASK : Z := 4.
Definition MESH_V2_TUNNEL_CHANNEL_MEMORY : Z := 5.
Definition MESH_V2_TUNNEL_CHANNEL_TOPOLOGY : Z := 6.
Definition MESH_V2_TUNNEL_CHANNEL_OTA : Z := 7.
Definition MESH_V2_TUNNEL_CHANNEL_SENSOR : Z := 9.
Definition MESH_V2_TUNNEL_REPLAY_RING_SIZE : Z := 8.
Definition MESH_V2_TUNNEL_INNER_MAX : Z := 156.
Definition MESH_V2_TUNNEL_LOG_LINE_MAX : nat := 128.
Definition MESH_V2_TASK_NAME_MAX : nat := 16.
Definition MESH_V2_TASK_SNAPSHOT_MAX_ENTRIES : nat := 4.
Definition MESH_V2_TUNNEL_FLAG_REPLAY : Z := 0x01.
Definition MESH_V2_TUNNEL_FLAG_E2E_ACK : Z := 0x02.
Definition MESH_V2_TUNNEL_FLAG_HOP_ACK : Z := 0x04.
Definition MESH_V2_TUNNEL_TTL_DEFAULT : Z := 8.
Definition MESH_V2_TASK_SNAPSHOT_FLAG_LAST : Z := 0x01.
Definition MESH_V2_TOPO_DIAG_HAS_EXT : Z := 0x0001.
Definition MESH_V2_TOPO_DIAG_RECENT_REBOOT : Z := 0x0002.

(** The array of a string laid out with [strncpy(dst, src, n)], whose source may
    fill it. *)
Definition full_array (n : nat) (s : bytes) : bytes :=
  take n s ++ replicate (n - length (take n s)) 0.

Lemma length_full_array n s : length (full_array n s) = n.
Proof. unfold full_array. rewrite length_app, length_replicate, length_take. lia. Qed.

(** ** HELLO and the legacy V2 acknowledgements *)

Record mesh_v2_hello_payload_t := {
  hl_tag : bytes; hl_uptime_s : Z; hl_mtu : Z; hl_ring_size : Z; hl_capabilities : Z }.

Definition sizeof_v2_hello : nat := 28.

Definition encode_v2_hello (p : mesh_v2_hello_payload_t) : bytes :=
  layout [hl_tag p; le_bytes 4 (hl_uptime_s p); le_bytes 2 (hl_mtu p);
          le_bytes 2 (hl_ring_size p); le_bytes 4 (hl_capabilities p)].

Definition decode_v2_hello (bs : bytes) : mesh_v2_hello_payload_t :=
  {| hl_tag := slice 0 16 bs; hl_uptime_s := get_le 4 bs 16; hl_mtu := get_le 2 bs 20;
     hl_ring_size := get_le 2 bs 22; hl_capabilities := get_le 4 bs 24 |}.

Definition v2_hello_ok (p : mesh_v2_hello_payload_t) : Prop :=
  length (hl_tag p) = 16%nat /\ is_u32 (hl_uptime_s p) /\ is_u16 (hl_mtu p) /\
  is_u16 (hl_ring_size p) /\ is_u32 (hl_capabilities p).

(** [mesh_v2_nack_payload_t] and [mesh_v2_lost_payload_t]. *)
Definition sizeof_missing_seq : nat := 4.
Definition encode_missing_seq (missing_seq : Z) : bytes := le_bytes 4 missing_seq.
Definition decode_missing_seq (bs : bytes) : Z := get_le 4 bs 0.

Record mesh_v2_ping_payload_t := { pg_ping_id : Z; pg_root_session_id : Z }.

Definition sizeof_ping : nat := 8.

Definition encode_ping (p : mesh_v2_ping_payload_t) : bytes :=
  layout [le_bytes 4 (pg_ping_id p); le_bytes 4 (pg_root_session_id p)].

Definition decode_ping (bs : bytes) : mesh_v2_ping_payload_t :=
  {| pg_ping_id := get_le 4 bs 0; pg_root_session_id := get_le 4 bs 4 |}.

(** ** The compatibility tunnel *)

Record mesh_v2_tunnel_hdr_t := {
  tu_channel_id : Z; tu_flags : Z; tu_ttl : Z; tu_fragment_count : Z; tu_payload_len : Z;
  tu_fragment_index : Z; tu_stream_id : Z; tu_seq : Z; tu_ack_seq : Z; tu_sack_bitmap : Z;
  tu_origin_mac : bytes; tu_target_mac : bytes }.

#[export] Instance eta_tunnel_hdr : Eta mesh_v2_tunnel_hdr_t := fun t =>
  Build_mesh_v2_tunnel_hdr_t (tu_channel_id t) (tu_flags t) (tu_ttl t) (tu_fragment_count t)
    (tu_payload_len t) (tu_fragment_index t) (tu_stream_id t) (tu_seq t) (tu_ack_seq t)
    (tu_sack_bitmap t) (tu_origin_mac t) (tu_target_mac t).

Definition sizeof_tunnel_hdr : nat := 36.

Definition encode_tunnel_hdr (t : mesh_v2_tunnel_hdr_t) : bytes :=
  layout [le_bytes 1 (tu_channel_id t); le_bytes 1 (tu_flags t); le_bytes 1 (tu_ttl t);
          le_bytes 1 (tu_fragment_count t); le_bytes 2 (tu_payload_len t);
          le_bytes 2 (tu_fragment_index t); le_bytes 4 (tu_stream_id t);
          le_bytes 4 (tu_seq t); le_bytes 4 (tu_ack_seq t); le_bytes 4 (tu_sack_bitmap t);
          tu_origin_mac t; tu_target_mac t].

Definition decode_tunnel_hdr (bs : bytes) : mesh_v2_tunnel_hdr_t :=
  {| tu_channel_id := get_le 1 bs 0; tu_flags := get_le 1 bs 1; tu_ttl := get_le 1 bs 2;
     tu_fragment_count := get_le 1 bs 3; tu_payload_len := get_le 2 bs 4;
     tu_fragment_index := get_le 2 bs 6; tu_stream_id := get_le 4 bs 8;
     tu_seq := get_le 4 bs 12; tu_ack_seq := get_le 4 bs 16; tu_sack_bitmap := get_le 4 bs 20;
     tu_origin_mac := slice 24 6 bs; tu_target_mac := slice 30 6 bs |}.

Definition tunnel_hdr_ok (t : mesh_v2_tunnel_hdr_t) : Prop :=
  is_u8 (tu_channel_id t) /\ is_u8 (tu_flags t) /\ is_u8 (tu_ttl t) /\
  is_u8 (tu_fragment_count t) /\ is_u16 (tu_payload_len t) /\ is_u16 (tu_fragment_index t) /\
  is_u32 (tu_stream_id t) /\ is_u32 (tu_seq t) /\ is_u32 (tu_ack_seq t) /\
  is_u32 (tu_sack_bitmap t) /\ mac_addr (tu_origin_mac t) /\ mac_addr (tu_target_mac t).

Record mesh_v2_tunnel_ack_payload_t := {
  ta_channel_id : Z; ta_flags : Z; ta_seq : Z; ta_ack_seq : Z; ta_sack_bitmap : Z;
  ta_origin_mac : bytes; ta_target_mac : bytes }.

Definition sizeof_tunnel_ack : nat := 28.

Definition encode_tunnel_ack (p : mesh_v2_tunnel_ack_payload_t) : bytes :=
  layout [le_bytes 1 (ta_channel_id p); le_bytes 1 (ta_flags p); [0; 0]; le_bytes 4 (ta_seq p);
          le_bytes 4 (ta_ack_seq p); le_bytes 4 (ta_sack_bitmap p); ta_origin_mac p;
          ta_target_mac p].

Definition decode_tunnel_ack (bs : bytes) : mesh_v2_tunnel_ack_payload_t :=
  {| ta_channel_id := get_le 1 bs 0; ta_flags := get_le 1 bs 1; ta_seq := get_le 4 bs 4;
     ta_ack_seq := get_le 4 bs 8; ta_sack_bitmap := get_le 4 bs 12;
     ta_origin_mac := slice 16 6 bs; ta_target_mac := slice 22 6 bs |}.

(** [mesh_v2_tunnel_nack_payload_t] and [mesh_v2_tunnel_lost_payload_t]. *)
Record mesh_v2_tunnel_nack_payload_t := {
  tk_channel_id : Z; tk_missing_seq : Z; tk_origin_mac : bytes; tk_target_mac : bytes }.

Definition sizeof_tunnel_nack : nat := 20.

Definition encode_tunnel_nack (p : mesh_v2_tunnel_nack_payload_t) : bytes :=
  layout [le_bytes 1 (tk_channel_id p); [0; 0; 0]; le_bytes 4 (tk_missing_seq p);
          tk_origin_mac p; tk_target_mac p].

Definition decode_tunnel_nack (bs : bytes) : mesh_v2_tunnel_nack_payload_t :=
  {| tk_channel_id := get_le 1 bs 0; tk_missing_seq := get_le 4 bs 4;
     tk_origin_mac := slice 8 6 bs; tk_target_mac := slice 14 6 bs |}.

(** [mesh_v2_nodeinfo_payload_t] and [mesh_v2_tunnel_nodeinfo_payload_t]. *)
Record mesh_v2_tunnel_nodeinfo_payload_t := { tn_tag : bytes; tn_uptime_s : Z }.

Definition sizeof_tunnel_nodeinfo : nat := 20.

Definition encode_tunnel_nodeinfo (p : mesh_v2_tunnel_nodeinfo_payload_t) : bytes :=
  layout [tn_tag p; le_bytes 4 (tn_uptime_s p)].

Definition decode_tunnel_nodeinfo (bs : bytes) : mesh_v2_tunnel_nodeinfo_payload_t :=
  {| tn_tag := slice 0 16 bs; tn_uptime_s := get_le 4 bs 16 |}.

(** [mesh_v2_tunnel_log_payload_t], and [mesh_v2_log_line_payload_t] with its longer
    line. *)
Record mesh_v2_tunnel_log_payload_t := { tl_tag : bytes; tl_line : bytes }.

Definition sizeof_tunnel_log : nat := 144.
Definition sizeof_v2_log_line : nat := 192.

Definition encode_tunnel_log (p : mesh_v2_tunnel_log_payload_t) : bytes :=
  layout [tl_tag p; tl_line p].

Definition decode_tunnel_log (line_max : nat) (bs : bytes) : mesh_v2_tunnel_log_payload_t :=
  {| tl_tag := slice 0 16 bs; tl_line := slice 16 line_max bs |}.

(** [enable] of [mesh_v2_tunnel_log_ctrl_payload_t]. *)
Definition sizeof_tunnel_log_ctrl : nat := 4.
Definition encode_tunnel_log_ctrl (enable : Z) : bytes := layout [le_bytes 1 enable; [0; 0; 0]].
Definition decode_tunnel_log_ctrl (bs : bytes) : Z := get_le 1 bs 0.

Record mesh_v2_task_request_payload_t := { tq_request_id : Z; tq_detail : Z }.

Definition sizeof_task_request : nat := 8.

Definition encode_task_request (p : mesh_v2_task_request_payload_t) : bytes :=
  layout [le_bytes 4 (tq_request_id p); le_bytes 1 (tq_detail p); [0; 0; 0]].

Definition decode_task_request (bs : bytes) : mesh_v2_task_request_payload_t :=
  {| tq_request_id := get_le 4 bs 0; tq_detail := get_le 1 bs 4 |}.

(** ** Task snapshots *)

Record mesh_v2_task_entry_t := {
  te_name : bytes; te_priority : Z; te_free_words : Z; te_cpu_x10 : Z }.

Definition sizeof_task_entry : nat := 28.

Definition encode_task_entry (e : mesh_v2_task_entry_t) : bytes :=
  layout [te_name e; le_bytes 4 (te_priority e); le_bytes 4 (te_free_words e);
          le_bytes 2 (te_cpu_x10 e); [0; 0]].

(** [sn_tasks] are the first [task_count] entries; the others stay zero. *)
Record mesh_v2_task_snapshot_payload_t := {
  sn_tag : bytes; sn_request_id : Z; sn_updated_ms : Z; sn_uptime_s : Z; sn_cpu_load_x10 : Z;
  sn_slot_count : Z; sn_task_total : Z; sn_task_index : Z; sn_flags : Z; sn_cpu_valid : Z;
  sn_tasks : list mesh_v2_task_entry_t }.

Definition sizeof_task_snapshot : nat := 156.

Definition encode_task_snapshot (p : mesh_v2_task_snapshot_payload_t) : bytes :=
  layout [sn_tag p; le_bytes 4 (sn_request_id p); le_bytes 4 (sn_updated_ms p);
          le_bytes 4 (sn_uptime_s p); le_bytes 4 (sn_cpu_load_x10 p);
          le_bytes 2 (sn_slot_count p); le_bytes 2 (sn_task_total p);
          le_bytes 2 (sn_task_index p); le_bytes 1 (Z.of_nat (length (sn_tasks p)));
          le_bytes 1 (sn_flags p); le_bytes 1 (sn_cpu_valid p); [0; 0; 0];
          concat (encode_task_entry <$> sn_tasks p);
          replicate ((MESH_V2_TASK_SNAPSHOT_MAX_ENTRIES - length (sn_tasks p))
                     * sizeof_task_entry) 0].

(** ** Topology: the four versions share their prefix *)

Record mesh_v2_topology_payload_t := {
  to_tag : bytes; to_uptime_s : Z; to_parent_mac : bytes; to_root_mac : bytes; to_layer : Z;
  to_max_layer : Z; to_parent_rssi : Z; to_child_count : Z; to_capabilities : Z;
  to_gap_count : Z; to_lost_count : Z; to_replay_count : Z; to_v1_ok_age_ms : Z;
  to_v2_ack_age_ms : Z; to_last_send_err : Z; to_recovery_phase : Z;
  to_log_stream_enabled : Z; to_diag_flags : Z }.

Definition sizeof_topology : nat := 71.

(** [flags] stays zero. *)
Definition encode_topology (p : mesh_v2_topology_payload_t) : bytes :=
  layout [to_tag p; le_bytes 4 (to_uptime_s p); to_parent_mac p; to_root_mac p;
          le_bytes 2 (to_layer p); le_bytes 2 (to_max_layer p); le_bytes 1 (to_parent_rssi p);
          le_bytes 1 (to_child_count p); [0]; le_bytes 4 (to_capabilities p);
          le_bytes 4 (to_gap_count p); le_bytes 4 (to_lost_count p);
          le_bytes 4 (to_replay_count p); le_bytes 4 (to_v1_ok_age_ms p);
          le_bytes 4 (to_v2_ack_age_ms p); le_bytes 4 (to_last_send_err p);
          le_bytes 1 (to_recovery_phase p); le_bytes 1 (to_log_stream_enabled p);
          le_bytes 2 (to_diag_flags p)].

Record mesh_v2_topology_v2_payload_t := {
  t2_base : mesh_v2_topology_payload_t; t2_ota_running_label : bytes;
  t2_ota_update_label : bytes; t2_ota_running_size : Z; t2_ota_update_size : Z }.

Definition encode_topology_v2 (p : mesh_v2_topology_v2_payload_t) : bytes :=
  layout [encode_topology (t2_base p); t2_ota_running_label p; t2_ota_update_label p;
          le_bytes 4 (t2_ota_running_size p); le_bytes 4 (t2_ota_update_size p)].

Record mesh_v2_topology_v3_payload_t := {
  t3_v2 : mesh_v2_topology_v2_payload_t; t3_boot_seq : Z; t3_last_recovery_action_ms : Z;
  t3_last_mesh_send_err : Z; t3_reset_reason : Z; t3_parent_disconnect_count : Z;
  t3_no_parent_count : Z; t3_rootless_count : Z; t3_soft_reconnect_count : Z;
  t3_mesh_restart_count : Z; t3_last_parent_disconnect_reason : Z;
  t3_last_recovery_reason : Z; t3_ack_stale_count : Z; t3_tx_without_ack_count : Z }.

Definition encode_topology_v3 (p : mesh_v2_topology_v3_payload_t) : bytes :=
  layout [encode_topology_v2 (t3_v2 p); le_bytes 4 (t3_boot_seq p);
          le_bytes 4 (t3_last_recovery_action_ms p); le_bytes 4 (t3_last_mesh_send_err p);
          le_bytes 2 (t3_reset_reason p); le_bytes 2 (t3_parent_disconnect_count p);
          le_bytes 2 (t3_no_parent_count p); le_bytes 2 (t3_rootless_count p);
          le_bytes 2 (t3_soft_reconnect_count p); le_bytes 2 (t3_mesh_restart_count p);
          le_bytes 1 (t3_last_parent_disconnect_reason p);
          le_bytes 1 (t3_last_recovery_reason p); le_bytes 4 (t3_ack_stale_count p);
          le_bytes 4 (t3_tx_without_ack_count p); [0; 0]].

Record mesh_v2_topology_v4_payload_t := {
  t4_v3 : mesh_v2_topology_v3_payload_t; t4_self_ap_mac : bytes }.

Definition sizeof_topology_v4 : nat := 139.

Definition encode_topology_v4 (p : mesh_v2_topology_v4_payload_t) : bytes :=
  layout [encode_topology_v3 (t4_v3 p); t4_self_ap_mac p; [0; 0]].

(** ** Memory *)

Record mesh_v2_memory_payload_t := {
  mm_tag : bytes; mm_uptime_s : Z; mm_heap_free : Z; mm_heap_min_free : Z; mm_heap_total : Z;
  mm_internal_free : Z; mm_internal_min_free : Z; mm_internal_total : Z; mm_psram_free : Z;
  mm_psram_min_free : Z; mm_psram_total : Z; mm_psram_expected : Z; mm_flash_chip : Z;
  mm_app_used : Z; mm_app_slot : Z; mm_nvs_used : Z; mm_nvs_free : Z; mm_nvs_available : Z;
  mm_nvs_total : Z; mm_psram_enabled : Z }.

Definition sizeof_memory : nat := 92.

Definition encode_memory (p : mesh_v2_memory_payload_t) : bytes :=
  layout (mm_tag p ::
    (le_bytes 4 <$> [mm_uptime_s p; mm_heap_free p; mm_heap_min_free p; mm_heap_total p;
       mm_internal_free p; mm_internal_min_free p; mm_internal_total p; mm_psram_free p;
       mm_psram_min_free p; mm_psram_total p; mm_psram_expected p; mm_flash_chip p;
       mm_app_used p; mm_app_slot p; mm_nvs_used p; mm_nvs_free p; mm_nvs_available p;
       mm_nvs_total p]) ++ [le_bytes 1 (mm_psram_enabled p); [0; 0; 0]]).

(** ** SENSOR snapshots on the wire *)

Definition encode_sensor_entry (e : mesh_v2_sensor_entry_t) : bytes :=
  layout [le_bytes 2 (se_metric_id e); le_bytes 1 (se_status e); le_bytes 1 (se_scale10 e);
          le_bytes 4 (se_value e)].

Definition encode_sensor_snapshot (s : mesh_v2_sensor_snapshot_payload_t) : bytes :=
  layout [le_bytes 4 (ss_generation s); le_bytes 4 (ss_sample_uptime_ms s);
          le_bytes 4 (ss_request_id s); le_bytes 2 (ss_flags s); le_bytes 1 (ss_count s);
          le_bytes 1 (ss_rsv s); concat (encode_sensor_entry <$> ss_entries s)].

Definition i8 (z : Z) : Z := (z + 128) mod 256 - 128.

Definition decode_sensor_entry (bs : bytes) : mesh_v2_sensor_entry_t :=
  {| se_metric_id := get_le 2 bs 0; se_status := get_le 1 bs 2;
     se_scale10 := i8 (get_le 1 bs 3); se_value := i32 (get_le 4 bs 4) |}.

Definition decode_sensor_snapshot (bs : bytes) : mesh_v2_sensor_snapshot_payload_t :=
  {| ss_generation := get_le 4 bs 0; ss_sample_uptime_ms := get_le 4 bs 4;
     ss_request_id := get_le 4 bs 8; ss_flags := get_le 2 bs 12; ss_count := get_le 1 bs 14;
     ss_rsv := get_le 1 bs 15;
     ss_entries := (fun i => decode_sensor_entry (drop (16 + 8 * i) bs)) <$> seq 0 12 |}.

(** [mesh_v2_time_payload_t] *)
Record mesh_v2_time_payload_t := { tp_epoch_sec : Z; tp_generation : Z; tp_source_uptime_s : Z }.

Definition sizeof_time : nat := 16.

Definition encode_time (p : mesh_v2_time_payload_t) : bytes :=
  layout [le_bytes 8 (tp_epoch_sec p); le_bytes 4 (tp_generation p);
          le_bytes 4 (tp_source_uptime_s p)].

Definition encode_v2_status (p : mesh_v2_ota_status_payload_t) : bytes :=
  layout [encode_v2_common (vs_c p); vs_running_label p; vs_update_label p;
          le_bytes 4 (vs_running_size p); le_bytes 4 (vs_update_size p)].

Definition sizeof_v2_status : nat := 204.

(** ** Round trips *)

Lemma decode_encode_tunnel_hdr t rest :
  tunnel_hdr_ok t -> decode_tunnel_hdr (encode_tunnel_hdr t ++ rest) = t.
Proof.
  destruct t. intros (?&?&?&?&?&?&?&?&?&?&[? _]&[? _]). cbn in *.
  unfold decode_tunnel_hdr, encode_tunnel_hdr. cbn [tu_channel_id tu_flags tu_ttl
    tu_fragment_count tu_payload_len tu_fragment_index tu_stream_id tu_seq tu_ack_seq
    tu_sack_bitmap tu_origin_mac tu_target_mac]. struct_roundtrip.
Qed.

Lemma length_encode_tunnel_hdr t :
  length (tu_origin_mac t) = 6%nat -> length (tu_target_mac t) = 6%nat ->
  length (encode_tunnel_hdr t) = sizeof_tunnel_hdr.
Proof. intros H1 H2. unfold encode_tunnel_hdr. autorewrite with len. by rewrite H1, H2. Qed.

Lemma decode_encode_tunnel_nack p rest :
  is_u8 (tk_channel_id p) -> is_u32 (tk_missing_seq p) ->
  length (tk_origin_mac p) = 6%nat -> length (tk_target_mac p) = 6%nat ->
  decode_tunnel_nack (encode_tunnel_nack p ++ rest) = p.
Proof.
  destruct p. intros. cbn in *. unfold decode_tunnel_nack, encode_tunnel_nack.
  cbn [tk_channel_id tk_missing_seq tk_origin_mac tk_target_mac]. struct_roundtrip.
Qed.

Lemma length_encode_tunnel_nack p :
  length (tk_origin_mac p) = 6%nat -> length (tk_target_mac p) = 6%nat ->
  length (encode_tunnel_nack p) = sizeof_tunnel_nack.
Proof. intros H1 H2. unfold encode_tunnel_nack. autorewrite with len. by rewrite H1, H2. Qed.

Lemma decode_encode_v2_hello p rest :
  v2_hello_ok p -> decode_v2_hello (encode_v2_hello p ++ rest) = p.
Proof.
  destruct p. intros (?&?&?&?&?). cbn in *. unfold decode_v2_hello, encode_v2_hello.
  cbn [hl_tag hl_uptime_s hl_mtu hl_ring_size hl_capabilities]. struct_roundtrip.
Qed.

Lemma decode_encode_ping p rest :
  is_u32 (pg_ping_id p) -> is_u32 (pg_root_session_id p) ->
  decode_ping (encode_ping p ++ rest) = p.
Proof.
  destruct p. intros. cbn in *. unfold decode_ping, encode_ping.
  cbn [pg_ping_id pg_root_session_id]. struct_roundtrip.
Qed.

Lemma decode_encode_task_request p rest :
  is_u32 (tq_request_id p) -> is_u8 (tq_detail p) ->
  decode_task_request (encode_task_request p ++ rest) = p.
Proof.
  destruct p. intros. cbn in *. unfold decode_task_request, encode_task_request.
  cbn [tq_request_id tq_detail]. struct_roundtrip.
Qed.
