(* ===== verification/LogStream.v ===== *)
(** * The node's log stream (keemash_mesh_log_stream.c)

    Log lines are captured from the [vprintf] hook into a queue that a worker task
    empties towards the root, one line at a time and until each is accepted; lines
    that find the queue full are counted and reported later.  Packets go out as V2
    payloads of the node facade, and as V1 packets only until the lossless
    protocol has been negotiated.  Every function is one step; a text is a C
    string. *)

From Stdlib Require String.
From S2P Require Import Prelude.
From S2P Require Import Words.
From S2P Require Import Esp.
From S2P Require Import Rtos.
From S2P Require Import MeshProto.
From S2P Require Import MeshProtoV1.
#[local] Open Scope Z_scope.

Module LogText.
Import Stdlib.Strings.String.
#[local] Open Scope string_scope.

Definition node : bytes := text "node".
Definition no_time : bytes := text "[no-time] ".
Definition dropped : bytes := text "W (0) mesh_log: capture queue dropped ".
Definition lines : bytes := text " lines".
Definition stream : bytes := text "I (0) mesh_log: remote log stream ".
Definition ready : bytes := text "ready".
Definition disabled : bytes := text "disabled".
End LogText.

(** What is around the stream: the build's configuration, the wall clock
    ([log_clock] is the time of [localtime_r] and [strftime] in the format of
    [build_time_prefix], [None] when there is none), the microseconds since boot,
    the sink that was there before, and the node facade. *)
Class LogEnv (W : Type) := {
  #[global] log_rtos :: Rtos W;
  #[global] log_transport :: MeshTransport W;
  CONFIG_KEEMASH_LOG_CAPTURE_QUEUE_LEN : nat;
  CONFIG_KEEMASH_LOG_CAPTURE_LINE_MAX : nat;
  CONFIG_KEEMASH_NODE_V2_LOG_ENABLE : bool;
  CONFIG_KEEMASH_V1_PRENEGOTIATION_ENABLE : bool;
  log_clock : ST W (option bytes);
  log_timer_us : ST W Z;
  log_delay_ms : Z -> ST W unit;
  prev_vprintf : bytes -> ST W Z;
  mesh_v2_node_send_nodeinfo : ST W esp_err_t;
  mesh_v2_node_send_log_line : bytes -> ST W esp_err_t;
  mesh_v2_node_send_topology : ST W esp_err_t;
  mesh_v2_node_lossless_negotiated : ST W bool;
  mesh_v2_node_kick_root : ST W unit }.

Record keemash_mesh_log_stream_stats_t := {
  ls_captured : Z; ls_delivered : Z; ls_capture_overflow : Z; ls_pending : Z;
  ls_high_watermark : Z }.

#[export] Instance eta_log_stats : Eta keemash_mesh_log_stream_stats_t := fun s =>
  Build_keemash_mesh_log_stream_stats_t (ls_captured s) (ls_delivered s)
    (ls_capture_overflow s) (ls_pending s) (ls_high_watermark s).

Definition log_stats_zero : keemash_mesh_log_stream_stats_t :=
  {| ls_captured := 0; ls_delivered := 0; ls_capture_overflow := 0; ls_pending := 0;
     ls_high_watermark := 0 |}.

(** The static variables of the file, and the [item] the worker holds between two
    receives; a task handle is whether it is not NULL. *)
Record log_stream := {
  l_inited : bool; l_stream_enabled : bool; l_mesh_connected : bool; l_tag : bytes;
  l_cnt : Z; l_nodeinfo_task : bool; l_nodeinfo_burst_task : bool; l_worker_task : bool;
  l_queue : option (list bytes); l_item : option bytes; l_last_send_err : esp_err_t;
  l_last_tx_ok_ms : Z; l_stats : keemash_mesh_log_stream_stats_t; l_reported_overflow : Z }.

#[export] Instance eta_log_stream : Eta log_stream := fun l =>
  Build_log_stream (l_inited l) (l_stream_enabled l) (l_mesh_connected l) (l_tag l) (l_cnt l)
    (l_nodeinfo_task l) (l_nodeinfo_burst_task l) (l_worker_task l) (l_queue l) (l_item l)
    (l_last_send_err l) (l_last_tx_ok_ms l) (l_stats l) (l_reported_overflow l).

Definition log_stream_boot : log_stream :=
  {| l_inited := false; l_stream_enabled := false; l_mesh_connected := false;
     l_tag := LogText.node; l_cnt := 0; l_nodeinfo_task := false;
     l_nodeinfo_burst_task := false; l_worker_task := false; l_queue := None; l_item := None;
     l_last_send_err := ESP_OK; l_last_tx_ok_ms := 0; l_stats := log_stats_zero;
     l_reported_overflow := 0 |}.

Section Stream.
Context {W : Type} {Env : LogEnv W}.

Abbreviation LS := (ST (log_stream * W)).

Definition get_log : LS log_stream := gets fst.
Definition mod_log (f : log_stream -> log_stream) : LS unit :=
  modify (fun '(l, w) => (f l, w)).

Definition build_time_prefix (out_sz : nat) : LS bytes :=
  now ← io log_clock;
  mret (snprintf out_sz (default LogText.no_time now)).

(** ** Sending *)

Definition record_send_result (err : esp_err_t) : LS unit :=
  now ← io ticks_ms;
  mod_log (fun l => l <| l_last_send_err := err |>) ;;
  when (err_eqb err ESP_OK) (mod_log (fun l => l <| l_last_tx_ok_ms := now |>)).

(** [record_send_result(err); return err;] *)
Definition recorded (err : esp_err_t) : LS esp_err_t := record_send_result err ;; mret err.

(** The time of the last warning only limits what is printed. *)
Definition keemash_mesh_log_stream_send_bin_to_root (packet : bytes) : LS esp_err_t :=
  if (length packet =? 0)%nat then mret ESP_ERR_INVALID_ARG
  else
    _ ← io ticks_ms;
    l ← get_log;
    if negb (l_mesh_connected l) then recorded ESP_ERR_INVALID_STATE
    else
      err ← io (keemash_mesh_transport_send mac_zero_addr packet);
      recorded err.

Definition keemash_mesh_log_stream_transport_ready : LS bool :=
  l ← get_log; mret (l_mesh_connected l).

(** The header of a V1 packet, with the counter moved on. *)
Definition v1_header (type : Z) : LS mesh_pkt_hdr_t :=
  mod_log (fun l => l <| l_cnt := u32 (l_cnt l + 1) |>) ;;
  l ← get_log;
  mac ← io keemash_mesh_get_local_mac;
  mret {| ph_magic := MESH_PKT_MAGIC; ph_version := MESH_PKT_VERSION; ph_type := type;
          ph_reserved := 0; ph_counter := l_cnt l; ph_src_mac := mac |}.

Definition send_v1 (packet : bytes) : LS esp_err_t :=
  err ← io (keemash_mesh_transport_send mac_zero_addr packet);
  recorded err.

(** Whether a V1 packet may follow a failed V2 send. *)
Definition v2_only : LS bool :=
  negotiated ← io mesh_v2_node_lossless_negotiated;
  mret (negotiated || negb CONFIG_KEEMASH_V1_PRENEGOTIATION_ENABLE).

Definition send_nodeinfo_to_root : LS esp_err_t :=
  l ← get_log;
  if negb (l_mesh_connected l) then recorded ESP_ERR_INVALID_STATE
  else
    v2_err ← io mesh_v2_node_send_nodeinfo;
    if err_eqb v2_err ESP_OK then recorded ESP_OK
    else
      only ← v2_only;
      if (only : bool) then recorded v2_err
      else
        h ← v1_header MESH_LOG_TYPE_NODEINFO;
        l ← get_log;
        us ← io log_timer_us;
        send_v1 (encode_nodeinfo
          {| ni_h := h; ni_tag := text_array 16 (l_tag l); ni_uptime_s := u32 (us / 1000000) |}).

Definition send_v1_line (line : bytes) : LS esp_err_t :=
  h ← v1_header MESH_LOG_TYPE_LINE;
  l ← get_log;
  send_v1 (encode_log_line
    {| ll_h := h; ll_tag := text_array 16 (l_tag l); ll_line := text_array 192 line |}).

Definition send_logline_to_root (line : bytes) : LS esp_err_t :=
  l ← get_log;
  if negb (l_mesh_connected l) then recorded ESP_ERR_INVALID_STATE
  else if CONFIG_KEEMASH_NODE_V2_LOG_ENABLE then
    v2_err ← io (mesh_v2_node_send_log_line line);
    if err_eqb v2_err ESP_OK then recorded ESP_OK
    else
      only ← v2_only;
      if (only : bool) then recorded v2_err else send_v1_line line
  else io mesh_v2_node_kick_root ;; send_v1_line line.

(** ** The worker *)

Definition mod_stats (f : keemash_mesh_log_stream_stats_t -> keemash_mesh_log_stream_stats_t)
  : LS unit := mod_log (fun l => l <| l_stats ::= f |>).

Definition waiting_lines (l : log_stream) : Z := Z.of_nat (length (default [] (l_queue l))).

(** The line that reports [count] lost ones. *)
Definition overflow_summary (count : Z) : LS bytes :=
  tprefix ← build_time_prefix 40;
  mret (snprintf CONFIG_KEEMASH_LOG_CAPTURE_LINE_MAX
          (tprefix ++ LogText.dropped ++ decimal count ++ LogText.lines)).

(** After an accepted line. *)
Definition line_delivered : LS unit :=
  l ← get_log;
  let pending := waiting_lines l in
  mod_stats (fun s => s <| ls_delivered := u32 (ls_delivered s + 1) |>) ;;
  mod_stats (fun s => s <| ls_pending := pending |>) ;;
  let overflow := ls_capture_overflow (l_stats l) in
  if overflow =? l_reported_overflow l then mret tt
  else
    summary ← overflow_summary (u32 (overflow - l_reported_overflow l));
    err ← send_logline_to_root summary;
    when (err_eqb err ESP_OK) (mod_log (fun l => l <| l_reported_overflow := overflow |>)).

(** One step of the worker: it receives a line when it holds none, and otherwise
    sends the one it holds, waiting a quarter of a second when that fails.  Returns
    the line that has been accepted. *)
Definition log_worker_task : LS (option bytes) :=
  l ← get_log;
  match l_item l, l_queue l with
  | Some line, _ =>
      err ← send_logline_to_root line;
      if negb (err_eqb err ESP_OK) then io (log_delay_ms 250) ;; mret None
      else
        mod_log (fun l => l <| l_item := None |>) ;;
        line_delivered ;;
        mret (Some line)
  | None, Some (line :: queue) =>
      mod_log (fun l => l <| l_queue := Some queue |>) ;;
      mod_log (fun l => l <| l_item := Some line |>) ;;
      mret None
  | None, _ => mret None
  end.

(** ** Capturing *)

(** The buffer: the prefix, and after it what [vsnprintf] makes of [txt]. *)
Definition capture_item (tprefix txt : bytes) : bytes :=
  let prefix := take (CONFIG_KEEMASH_LOG_CAPTURE_LINE_MAX - 1) tprefix in
  prefix ++ snprintf (CONFIG_KEEMASH_LOG_CAPTURE_LINE_MAX - length prefix) txt.

(** Returns the line when it was queued. *)
Definition capture_log_line (txt : bytes) : LS (option bytes) :=
  l ← get_log;
  match l_queue l with
  | None => mret None
  | Some queue =>
      tprefix ← build_time_prefix 40;
      let item := capture_item tprefix txt in
      if (length queue <? CONFIG_KEEMASH_LOG_CAPTURE_QUEUE_LEN)%nat then
        mod_log (fun l => l <| l_queue := Some (queue ++ [item]) |>) ;;
        l ← get_log;
        let pending := waiting_lines l in
        mod_stats (fun s => s <| ls_captured := u32 (ls_captured s + 1) |>) ;;
        mod_stats (fun s => s <| ls_pending := pending |>) ;;
        mod_stats (fun s => if ls_high_watermark s <? pending
                            then s <| ls_high_watermark := pending |> else s) ;;
        mret (Some item)
      else
        mod_stats (fun s => s <| ls_capture_overflow := u32 (ls_capture_overflow s + 1) |>) ;;
        mret None
  end.

(** [txt] is what the format and its arguments print; [by_worker] is whether the
    caller is the worker task.  Returns the previous sink's result and the line
    that was captured. *)
Definition mesh_log_vprintf (by_worker : bool) (txt : bytes) : LS (Z * option bytes) :=
  ret ← io (prev_vprintf txt);
  l ← get_log;
  if negb (l_stream_enabled l) || by_worker then mret (ret, None)
  else
    line ← capture_log_line txt;
    mret (ret, line).

(** ** Beacons *)

Definition send_stream_status_to_root (enabled : bool) : LS unit :=
  tprefix ← build_time_prefix 40;
  _ ← send_logline_to_root (snprintf 96 (tprefix ++ LogText.stream ++
        if enabled then LogText.ready else LogText.disabled));
  mret tt.

(** One round of the heartbeat, after its delay. *)
Definition nodeinfo_heartbeat_task : LS unit :=
  _ ← send_nodeinfo_to_root;
  _ ← io mesh_v2_node_send_topology;
  mret tt.

Definition nodeinfo_burst_task : LS unit :=
  for_each (seq 0 3) (fun _ =>
    _ ← send_nodeinfo_to_root;
    _ ← io mesh_v2_node_send_topology;
    io (log_delay_ms 350)) ;;
  mod_log (fun l => l <| l_nodeinfo_burst_task := false |>).

Definition keemash_mesh_log_stream_kick_nodeinfo_burst : LS unit :=
  l ← get_log;
  if l_nodeinfo_burst_task l || negb (l_mesh_connected l) then mret tt
  else
    mod_log (fun l => l <| l_nodeinfo_burst_task := true |>) ;;
    ok ← io task_create;
    if (ok : bool) then mret tt
    else
      mod_log (fun l => l <| l_nodeinfo_burst_task := false |>) ;;
      _ ← send_nodeinfo_to_root;
      mret tt.

(** ** Entry points *)

Definition init_queue_and_worker : LS esp_err_t :=
  l ← get_log;
  queue_ok ← match l_queue l with
             | Some _ => mret true
             | None =>
                 ok ← io queue_create;
                 when ok (mod_log (fun l => l <| l_queue := Some [] |>)) ;;
                 mret (ok : bool)
             end;
  if negb queue_ok then mret ESP_ERR_NO_MEM
  else
    worker_ok ← (if l_worker_task l then mret true
                 else
                   ok ← io task_create;
                   when ok (mod_log (fun l => l <| l_worker_task := true |>)) ;;
                   mret (ok : bool));
    if negb worker_ok then mod_log (fun l => l <| l_queue := None |>) ;; mret ESP_ERR_NO_MEM
    else mod_log (fun l => l <| l_inited := true |>) ;; mret ESP_OK.

(** [tag] is [None] for NULL. *)
Definition keemash_mesh_log_stream_init (tag : option bytes) : LS esp_err_t :=
  l ← get_log;
  if l_inited l then mret ESP_OK
  else
    match tag with
    | Some (c :: s) => mod_log (fun l => l <| l_tag := copy_text 16 (c :: s) |>)
    | _ => mret tt
    end ;;
    l ← get_log;
    if l_nodeinfo_task l then init_queue_and_worker
    else
      ok ← io task_create;
      if (ok : bool) then
        mod_log (fun l => l <| l_nodeinfo_task := true |>) ;; init_queue_and_worker
      else mret ESP_ERR_NO_MEM.

Definition keemash_mesh_log_stream_on_mesh_connected : LS unit :=
  mod_log (fun l => l <| l_mesh_connected := true |>) ;;
  _ ← send_nodeinfo_to_root;
  keemash_mesh_log_stream_kick_nodeinfo_burst.

Definition keemash_mesh_log_stream_on_mesh_disconnected : LS unit :=
  mod_log (fun l => l <| l_mesh_connected := false |>) ;;
  mod_log (fun l => l <| l_stream_enabled := false |>) ;;
  mod_log (fun l => l <| l_last_tx_ok_ms := 0 |>).

Definition keemash_mesh_log_stream_send_nodeinfo_now : LS esp_err_t := send_nodeinfo_to_root.

Definition keemash_mesh_log_stream_last_send_err : LS esp_err_t :=
  l ← get_log; mret (l_last_send_err l).

Definition keemash_mesh_log_stream_tx_accepted_age_ms : LS Z :=
  l ← get_log;
  if l_last_tx_ok_ms l =? 0 then mret UINT32_MAX
  else now ← io ticks_ms; mret (u32 (now - l_last_tx_ok_ms l)).

Definition keemash_mesh_log_stream_tx_accepted_fresh (max_age_ms : Z) : LS bool :=
  age ← keemash_mesh_log_stream_tx_accepted_age_ms; mret (age <=? max_age_ms).

Definition keemash_mesh_log_stream_clear_tx_accepted : LS unit :=
  mod_log (fun l => l <| l_last_tx_ok_ms := 0 |>).

Definition keemash_mesh_log_stream_enabled : LS bool :=
  l ← get_log; mret (l_stream_enabled l).

Definition keemash_mesh_log_stream_stats : LS keemash_mesh_log_stream_stats_t :=
  l ← get_log; mret (l_stats l).

Definition keemash_mesh_log_stream_handle_v1_ctrl (pkt : bytes) : LS esp_err_t :=
  if (length pkt <? sizeof_log_ctrl)%nat then mret ESP_ERR_INVALID_SIZE
  else
    let p := decode_log_ctrl pkt in
    if negb (ph_magic (lc_h p) =? MESH_PKT_MAGIC) ||
       negb (ph_version (lc_h p) =? MESH_PKT_VERSION) then mret ESP_ERR_INVALID_ARG
    else if negb (ph_type (lc_h p) =? MESH_LOG_TYPE_CTRL) then mret ESP_ERR_INVALID_ARG
    else
      let enable := negb (lc_enable p =? 0) in
      mod_log (fun l => l <| l_stream_enabled := enable |>) ;;
      when enable (_ ← send_nodeinfo_to_root; send_stream_status_to_root true) ;;
      mret ESP_OK.

End Stream.
