(* ===== verification/LogProps.v ===== *)
(** * The log stream: what it guarantees

    Captured lines leave the node in order, none twice and none lost once it is in
    the queue; the counters tell how many there were; and a queue whose lines are
    accepted is emptied.  A node whose lines are all accepted is an instance. *)

From S2P Require Import Prelude.
From S2P Require Import Words.
From S2P Require Import Esp.
From S2P Require Import Rtos.
From S2P Require Import MeshProto.
From S2P Require Import MeshProtoV1.
From S2P Require Import LogStream.
#[local] Open Scope Z_scope.

Section Props.
Context {W : Type} {Env : LogEnv W}.

Abbreviation state := (log_stream * W)%type.

(** ** What sending leaves alone *)

Definition calm (s s' : state) : Prop :=
  l_queue s'.1 = l_queue s.1 /\ l_item s'.1 = l_item s.1 /\ l_stats s'.1 = l_stats s.1 /\
  l_inited s'.1 = l_inited s.1 /\ l_worker_task s'.1 = l_worker_task s.1 /\
  l_mesh_connected s'.1 = l_mesh_connected s.1.

#[export] Instance calm_preorder : PreOrder calm.
Proof. split; [done|]. unfold calm. intros a b c. intuition congruence. Qed.

Lemma io_calm {A : Type} (m : ST W A) : stable calm (io m).
Proof. intros [l w]. unfold io. by destruct (m w). Qed.

#[local] Hint Resolve io_calm : stable.
#[local] Hint Extern 1 (stable calm get_log) => (by intros [? ?]) : stable.
#[local] Hint Extern 2 (stable calm (mod_log _)) => (by intros [? ?]) : stable.

Lemma record_calm e : stable calm (record_send_result e).
Proof. unfold record_send_result. stable_auto. Qed.
#[local] Hint Resolve record_calm : stable.
Lemma recorded_calm e : stable calm (recorded e).
Proof. unfold recorded. stable_auto. Qed.
#[local] Hint Resolve recorded_calm : stable.
Lemma prefix_calm n : stable calm (build_time_prefix n).
Proof. unfold build_time_prefix. stable_auto. Qed.
#[local] Hint Extern 1 (stable calm (build_time_prefix _)) => apply prefix_calm : stable.
Lemma header_calm type : stable calm (v1_header type).
Proof. unfold v1_header. stable_auto. Qed.
Lemma v1_calm packet : stable calm (send_v1 packet).
Proof. unfold send_v1. stable_auto. Qed.
#[local] Hint Resolve header_calm v1_calm : stable.
Lemma nodeinfo_calm : stable calm send_nodeinfo_to_root.
Proof. unfold send_nodeinfo_to_root, v2_only. stable_auto. Qed.
Lemma line_calm line : stable calm (send_logline_to_root line).
Proof. unfold send_logline_to_root, send_v1_line, v2_only. stable_auto. Qed.
#[local] Hint Resolve nodeinfo_calm line_calm : stable.
Lemma status_calm b : stable calm (send_stream_status_to_root b).
Proof. unfold send_stream_status_to_root. stable_auto. Qed.
#[local] Hint Resolve status_calm : stable.
Lemma bin_calm p : stable calm (keemash_mesh_log_stream_send_bin_to_root p).
Proof. unfold keemash_mesh_log_stream_send_bin_to_root. stable_auto. Qed.
Lemma heartbeat_calm : stable calm nodeinfo_heartbeat_task.
Proof. unfold nodeinfo_heartbeat_task. stable_auto. Qed.
Lemma burst_calm : stable calm nodeinfo_burst_task.
Proof. unfold nodeinfo_burst_task. stable_auto. Qed.
Lemma kick_calm : stable calm keemash_mesh_log_stream_kick_nodeinfo_burst.
Proof. unfold keemash_mesh_log_stream_kick_nodeinfo_burst. stable_auto. Qed.
#[local] Hint Resolve kick_calm : stable.
Lemma ctrl_calm p : stable calm (keemash_mesh_log_stream_handle_v1_ctrl p).
Proof. unfold keemash_mesh_log_stream_handle_v1_ctrl. stable_auto. Qed.

(** ** Histories *)

(** What can happen around the stream: the hook is installed and the worker runs
    once the stream is initialised. *)
Inductive log_event :=
  | ev_init (tag : option bytes)
  | ev_vprintf (by_worker : bool) (txt : bytes)
  | ev_worker
  | ev_heartbeat
  | ev_burst
  | ev_kick
  | ev_connected
  | ev_disconnected
  | ev_ctrl (pkt : bytes)
  | ev_bin (packet : bytes)
  | ev_nodeinfo
  | ev_clear.

Abbreviation LS := (ST (log_stream * W)).

(** The line an event has put into the queue, and the line it has seen accepted. *)
Definition quietly {A : Type} (m : LS A) : LS (option bytes * option bytes) :=
  _ ← m; mret (None, None).

Definition log_handle (e : log_event) : LS (option bytes * option bytes) :=
  match e with
  | ev_init tag => quietly (keemash_mesh_log_stream_init tag)
  | ev_vprintf by_worker txt =>
      l ← get_log;
      if l_inited l then '(_, c) ← mesh_log_vprintf by_worker txt; mret (c, None)
      else mret (None, None)
  | ev_worker =>
      l ← get_log;
      if l_worker_task l then a ← log_worker_task; mret (None, a) else mret (None, None)
  | ev_heartbeat => quietly nodeinfo_heartbeat_task
  | ev_burst => quietly nodeinfo_burst_task
  | ev_kick => quietly keemash_mesh_log_stream_kick_nodeinfo_burst
  | ev_connected => quietly keemash_mesh_log_stream_on_mesh_connected
  | ev_disconnected => quietly keemash_mesh_log_stream_on_mesh_disconnected
  | ev_ctrl pkt => quietly (keemash_mesh_log_stream_handle_v1_ctrl pkt)
  | ev_bin packet => quietly (keemash_mesh_log_stream_send_bin_to_root packet)
  | ev_nodeinfo => quietly keemash_mesh_log_stream_send_nodeinfo_now
  | ev_clear => quietly keemash_mesh_log_stream_clear_tx_accepted
  end.

(** The captured and the accepted lines of a history, in order. *)
Fixpoint log_run (es : list log_event) (s : state) : list bytes * list bytes * state :=
  match es with
  | [] => ([], [], s)
  | e :: es =>
      let '((c, a), s1) := log_handle e s in
      let '(cs, acc, s2) := log_run es s1 in
      (option_list c ++ cs, option_list a ++ acc, s2)
  end.

(** ** The invariant *)

Definition held_lines (l : log_stream) : list bytes :=
  option_list (l_item l) ++ default [] (l_queue l).

Record lines_ok (captured accepted : list bytes) (l : log_stream) : Prop := {
  lo_order : captured = accepted ++ held_lines l;
  lo_captured : ls_captured (l_stats l) = u32 (Z.of_nat (length captured));
  lo_delivered : ls_delivered (l_stats l) = u32 (Z.of_nat (length accepted));
  lo_watermark : (waiting_lines l <= ls_high_watermark (l_stats l)
                  <= Z.of_nat CONFIG_KEEMASH_LOG_CAPTURE_QUEUE_LEN)%Z;
  lo_worker : l_worker_task l = l_inited l;
  lo_ready : l_inited l = true -> is_Some (l_queue l);
  lo_idle : l_inited l = false -> held_lines l = [] }.

Definition same_lines (s s' : state) : Prop :=
  l_queue s'.1 = l_queue s.1 /\ l_item s'.1 = l_item s.1 /\ l_stats s'.1 = l_stats s.1 /\
  l_inited s'.1 = l_inited s.1 /\ l_worker_task s'.1 = l_worker_task s.1.

#[export] Instance same_lines_preorder : PreOrder same_lines.
Proof. split; [done|]. unfold same_lines. intros a b c. intuition congruence. Qed.

Lemma calm_same s s' : calm s s' -> same_lines s s'.
Proof. unfold calm, same_lines. intuition. Qed.

Lemma calm_stable {A : Type} (m : LS A) : stable calm m -> stable same_lines m.
Proof. intros H s. by apply calm_same. Qed.

Lemma lines_same cs acc s s' : same_lines s s' -> lines_ok cs acc s.1 -> lines_ok cs acc s'.1.
Proof.
  intros (H1 & H2 & H3 & H4 & H5) [].
  split; unfold held_lines, waiting_lines in *; rewrite ?H1, ?H2, ?H3, ?H4, ?H5; done.
Qed.

Lemma boot_lines : lines_ok [] [] log_stream_boot.
Proof. split; try done. unfold waiting_lines. cbn. lia. Qed.

(** *** Capturing *)

Lemma capture_lines cs acc txt l w :
  lines_ok cs acc l -> l_inited l = true ->
  let '(c, (l', w')) := capture_log_line txt (l, w) in
  lines_ok (cs ++ option_list c) acc l'.
Proof.
  intros [] Hi. unfold capture_log_line. rewrite bind_eq. cbn [get_log gets fst snd].
  destruct (lo_ready0 Hi) as [q Hq]. rewrite Hq. rewrite bind_eq.
  pose proof (prefix_calm 40 (l, w)) as Hc.
  destruct (build_time_prefix 40 (l, w)) as [p [l1 w1]]. cbn [fst snd] in *.
  apply calm_same in Hc. destruct Hc as (H1 & H2 & H3 & H4 & H5). cbn [fst snd] in *.
  unfold held_lines, waiting_lines in *. rewrite Hq in *. cbn [default from_option id] in *.
  destruct (length q <? CONFIG_KEEMASH_LOG_CAPTURE_QUEUE_LEN)%nat eqn:El.
  - apply Nat.ltb_lt in El. unfold mod_stats, mod_log, get_log. exec.
    destruct l1 as [? ? ? ? ? ? ? ? ? ? ? ? st ?]. cbn in H1, H2, H3, H4, H5. subst.
    split; unfold held_lines, waiting_lines; cbn; try done.
    + by rewrite !app_assoc.
    + rewrite lo_captured0, !length_app. unfold u32. rewrite Zplus_mod_idemp_l.
      case_match; cbn; f_equal; lia.
    + by case_match.
    + rewrite !length_app. cbn. case_match; cbn; bools; lia.
    + congruence.
  - unfold mod_stats, mod_log. exec. rewrite app_nil_r.
    destruct l1 as [? ? ? ? ? ? ? ? ? ? ? ? st ?]. cbn in H1, H2, H3, H4, H5. subst.
    split; unfold held_lines, waiting_lines; cbn; done.
Qed.

Lemma vprintf_lines cs acc by_worker txt l w :
  lines_ok cs acc l -> l_inited l = true ->
  let '((_, c), (l', w')) := mesh_log_vprintf by_worker txt (l, w) in
  lines_ok (cs ++ option_list c) acc l'.
Proof.
  intros Hl Hi. unfold mesh_log_vprintf. rewrite bind_eq, io_run. cbn [fst snd].
  rewrite bind_eq. cbn [get_log gets fst snd].
  destruct (_ || _); [rewrite ret_eq; cbn; by rewrite app_nil_r|].
  pose proof (capture_lines cs acc txt l (prev_vprintf txt w).2 Hl Hi) as H.
  rewrite bind_eq. by destruct (capture_log_line txt _) as [c [l' w']].
Qed.

(** *** The worker *)

Definition counted (s s' : state) : Prop :=
  l_queue s'.1 = l_queue s.1 /\ l_item s'.1 = l_item s.1 /\ l_inited s'.1 = l_inited s.1 /\
  l_worker_task s'.1 = l_worker_task s.1 /\
  ls_captured (l_stats s'.1) = ls_captured (l_stats s.1) /\
  ls_high_watermark (l_stats s'.1) = ls_high_watermark (l_stats s.1) /\
  ls_delivered (l_stats s'.1) = u32 (ls_delivered (l_stats s.1) + 1).

Lemma delivered_counted s : counted s (line_delivered s).2.
Proof.
  destruct s as [l w]. unfold line_delivered, mod_stats. rewrite bind_eq.
  cbn [get_log gets fst snd]. rewrite !bind_eq. cbn [mod_log modify fst snd].
  set (l1 := (l <| l_stats ::= _ |>) <| l_stats ::= _ |>).
  assert (H1 : counted (l, w) (l1, w)) by done.
  destruct (_ =? _); [exact H1|].
  match goal with |- context [?m (l1, w)] => assert (H2 : calm (l1, w) (m (l1, w)).2) end.
  { unfold overflow_summary.
    match goal with |- calm _ (?m _).2 => assert (Hs : stable calm m) end; [|apply Hs].
    stable_auto. }
  destruct H1 as (A1 & A2 & A3 & A4 & A5 & A6 & A7).
  apply calm_same in H2. destruct H2 as (B1 & B2 & B3 & B4 & B5).
  unfold counted. rewrite B1, B2, B3, B4, B5. done.
Qed.

Lemma worker_lines cs acc l w :
  lines_ok cs acc l -> l_worker_task l = true ->
  let '(a, (l', w')) := log_worker_task (l, w) in
  lines_ok cs (acc ++ option_list a) l'.
Proof.
  intros Hl Hw. pose proof Hl as []. unfold log_worker_task. rewrite bind_eq.
  cbn [get_log gets fst snd]. destruct (l_item l) as [line|] eqn:Ei.
  - rewrite bind_eq. pose proof (line_calm line (l, w)) as Hc. apply calm_same in Hc.
    apply (lines_same cs acc) in Hc; [|done]. 
    destruct (send_logline_to_root line (l, w)) as [e [l1 w1]] eqn:Es. cbn [fst snd] in *.
    destruct (negb (err_eqb e ESP_OK)).
    { rewrite bind_eq, io_run, ret_eq. cbn [fst snd]. by rewrite app_nil_r. }
    pose proof (line_calm line (l, w)) as Hd. rewrite Es in Hd.
    destruct Hd as (D1 & D2 & D3 & D4 & D5 & _). cbn [fst snd] in *.
    rewrite bind_eq. cbn [mod_log modify fst snd]. rewrite bind_eq, ret_eq.
    pose proof (delivered_counted (l1 <| l_item := None |>, w1)) as Hk.
    destruct (line_delivered _) as [u [l2 w2]]. cbn [fst snd] in *.
    destruct Hk as (K1 & K2 & K3 & K4 & K5 & K6 & K7). cbn in K1, K2, K3, K4, K5, K6, K7.
    split; unfold held_lines, waiting_lines in *; rewrite ?K1, ?K2, ?K3, ?K4, ?K5, ?K6, ?K7,
      ?D1, ?D2, ?D3, ?D4, ?D5; try done; cbn [option_list].
    + rewrite lo_order0, Ei. by rewrite <- app_assoc.
    + rewrite lo_delivered0, length_app. unfold u32. rewrite Zplus_mod_idemp_l. f_equal. cbn. lia.
    + intros Hn. congruence.
  - destruct (l_queue l) as [[|line queue]|] eqn:Eq; try (rewrite ret_eq; cbn; by rewrite app_nil_r).
    rewrite !bind_eq, ret_eq. cbn [mod_log modify fst snd]. rewrite app_nil_r.
    unfold held_lines, waiting_lines in *. rewrite Ei, Eq in *. cbn in *.
    split; unfold held_lines, waiting_lines; cbn; try done. lia.
Qed.

(** *** Initialisation and the rest *)

Lemma init_queue_lines cs acc l w :
  lines_ok cs acc l -> lines_ok cs acc (init_queue_and_worker (l, w)).2.1.
Proof.
  intros []. unfold held_lines, waiting_lines in *.
  unfold init_queue_and_worker, get_log, mod_log. exec.
  destruct (l_queue l) as [q|] eqn:Eq; exec.
  2: destruct (queue_create w) as [[|] w1]; exec; cbn [l_worker_task]; cbn.
  all: try (destruct (l_worker_task l) eqn:Ew; exec; cbn).
  all: try (match goal with |- context [task_create ?x] => destruct (task_create x) as [[|] w2] end;
            exec; cbn).
  all: split; unfold held_lines, waiting_lines in *; cbn; try rewrite Eq in *; cbn in *; eauto;
       try congruence; try lia.
  all: pose proof (lo_idle0 ltac:(congruence)) as Hn; apply app_eq_nil in Hn as [Hn ->].
  all: by rewrite ?Hn in *; rewrite ?app_nil_r in *.
Qed.

Lemma init_lines cs acc tag s :
  lines_ok cs acc s.1 -> lines_ok cs acc (keemash_mesh_log_stream_init tag s).2.1.
Proof.
  intros Hl. unfold keemash_mesh_log_stream_init. rewrite bind_eq. cbn [get_log gets fst snd].
  destruct (l_inited s.1) eqn:Ei; [done|]. rewrite bind_eq.
  match goal with |- context [(?m s).2] => assert (Hc : same_lines s (m s).2) end.
  { destruct tag as [[|c t]|]; destruct s; done. }
  match goal with |- context [(?m s).2] => destruct (m s) as [[] [l w]] end. cbn [fst snd] in *.
  apply (lines_same cs acc) in Hc; [|done]. cbn [fst snd] in Hc.
  rewrite bind_eq. cbn [get_log gets fst snd].
  destruct (l_nodeinfo_task l); [by apply init_queue_lines|].
  rewrite bind_eq, io_run. cbn [fst snd]. destruct (task_create w).1; [|done].
  rewrite bind_eq. cbn [mod_log modify fst snd]. apply init_queue_lines.
  destruct Hc. by split.
Qed.

Lemma quiet_lines {A : Type} (m : LS A) cs acc s :
  stable same_lines m -> lines_ok cs acc s.1 ->
  lines_ok (cs ++ option_list (quietly m s).1.1) (acc ++ option_list (quietly m s).1.2)
    (quietly m s).2.1.
Proof.
  intros Hm Hl. unfold quietly. rewrite bind_eq, ret_eq. cbn [fst snd option_list].
  rewrite !app_nil_r. eapply lines_same; [apply Hm|done].
Qed.

#[local] Hint Extern 2 (stable same_lines (mod_log _)) => (by intros [? ?]) : stable.

Lemma connected_lines : stable same_lines keemash_mesh_log_stream_on_mesh_connected.
Proof.
  unfold keemash_mesh_log_stream_on_mesh_connected.
  pose proof (calm_stable _ nodeinfo_calm). pose proof (calm_stable _ kick_calm). stable_auto.
Qed.

Lemma disconnected_lines : stable same_lines keemash_mesh_log_stream_on_mesh_disconnected.
Proof. unfold keemash_mesh_log_stream_on_mesh_disconnected. stable_auto. Qed.

Lemma handle_lines e cs acc s :
  lines_ok cs acc s.1 ->
  lines_ok (cs ++ option_list (log_handle e s).1.1) (acc ++ option_list (log_handle e s).1.2)
    (log_handle e s).2.1.
Proof.
  intros Hl. destruct e; cbn [log_handle];
    try (apply quiet_lines; [|done];
         first [apply calm_stable, heartbeat_calm | apply calm_stable, burst_calm
               |apply calm_stable, kick_calm | apply connected_lines | apply disconnected_lines
               |apply calm_stable, ctrl_calm | apply calm_stable, bin_calm
               |apply calm_stable, nodeinfo_calm | by intros [? ?]]).
  - unfold quietly. rewrite bind_eq, ret_eq. cbn [fst snd option_list]. rewrite !app_nil_r.
    by apply init_lines.
  - rewrite bind_eq. cbn [get_log gets fst snd].
    destruct (l_inited s.1) eqn:Ei; [|cbn; by rewrite !app_nil_r].
    destruct s as [l w]. pose proof (vprintf_lines cs acc by_worker txt l w Hl Ei) as H.
    rewrite bind_eq. destruct (mesh_log_vprintf by_worker txt (l, w)) as [[r c] [l' w']].
    cbn [fst snd option_list]. rewrite ret_eq. cbn [fst snd option_list]. by rewrite app_nil_r.
  - rewrite bind_eq. cbn [get_log gets fst snd].
    destruct (l_worker_task s.1) eqn:Ei; [|cbn; by rewrite !app_nil_r].
    destruct s as [l w]. pose proof (worker_lines cs acc l w Hl Ei) as H.
    rewrite bind_eq. destruct (log_worker_task (l, w)) as [a [l' w']].
    rewrite ret_eq. cbn [fst snd option_list]. by rewrite app_nil_r.
Qed.

Lemma run_lines es cs acc s :
  lines_ok cs acc s.1 ->
  let '(cs', acc', s') := log_run es s in lines_ok (cs ++ cs') (acc ++ acc') s'.1.
Proof.
  revert cs acc s. induction es as [|e es IH]; intros cs acc s Hl; cbn [log_run].
  - by rewrite !app_nil_r.
  - pose proof (handle_lines e cs acc s Hl) as H1.
    destruct (log_handle e s) as [[c a] s1]. cbn [fst snd] in H1. specialize (IH _ _ _ H1).
    destruct (log_run es s1) as [[cs' acc'] s']. by rewrite !app_assoc.
Qed.

(** C39: log lines leave the node in order.  After any history since the boot,
    the lines that were captured are exactly the lines the root has accepted, then
    the one the worker holds, then those in the queue; so none is lost, repeated
    or overtaken once it is captured.  The counters are their numbers modulo
    2^32, and the queue never exceeds the high-water mark or its length. *)
Theorem log_lines_in_order es w :
  let '(captured, accepted, s) := log_run es (log_stream_boot, w) in
  captured = accepted ++ option_list (l_item s.1) ++ default [] (l_queue s.1) /\
  ls_captured (l_stats s.1) = u32 (Z.of_nat (length captured)) /\
  ls_delivered (l_stats s.1) = u32 (Z.of_nat (length accepted)) /\
  waiting_lines s.1 <= ls_high_watermark (l_stats s.1)
    <= Z.of_nat CONFIG_KEEMASH_LOG_CAPTURE_QUEUE_LEN.
Proof.
  pose proof (run_lines es [] [] (log_stream_boot, w) boot_lines) as H.
  destruct (log_run es _) as [[cs acc] s]. by destruct H.
Qed.

(** ** Progress *)

(** Steps of the worker, and the lines accepted in them. *)
Fixpoint worker_steps (n : nat) (s : state) : list bytes * state :=
  match n with
  | O => ([], s)
  | S n =>
      let '(a, s1) := log_worker_task s in
      let '(acc, s2) := worker_steps n s1 in
      (option_list a ++ acc, s2)
  end.

Definition link (s s' : state) : Prop := l_mesh_connected s'.1 = l_mesh_connected s.1.
#[local] Instance link_preorder : PreOrder link.
Proof. split; [done|]. unfold link. intros a b c. congruence. Qed.

Lemma calm_link {A : Type} (m : LS A) : stable calm m -> stable link m.
Proof. intros H s. apply H. Qed.

Lemma delivered_link : stable link line_delivered.
Proof.
  unfold line_delivered, overflow_summary, mod_stats.
  pose proof (fun line => calm_link _ (line_calm line)).
  pose proof (calm_link _ (prefix_calm 40)) as Hp. stable_auto; by intros [? ?].
Qed.

(** The root accepts every line while the node is connected. *)
Definition lines_accepted : Prop :=
  forall line s, l_mesh_connected s.1 = true -> (send_logline_to_root line s).1 = ESP_OK.

Lemma send_step line l w :
  lines_accepted -> l_mesh_connected l = true -> l_item l = Some line ->
  exists l' w', log_worker_task (l, w) = (Some line, (l', w')) /\ l_item l' = None /\
    l_queue l' = l_queue l /\ l_mesh_connected l' = true.
Proof.
  intros Hacc Hm Hi. unfold log_worker_task. rewrite bind_eq. cbn [get_log gets fst snd].
  rewrite Hi, bind_eq, (Hacc line (l, w) Hm). change (negb (err_eqb ESP_OK ESP_OK)) with false.
  pose proof (line_calm line (l, w)) as Hc. destruct (send_logline_to_root line (l, w)) as [e [l1 w1]].
  destruct Hc as (C1 & _ & _ & _ & _ & C6). cbn [fst snd] in *. cbv iota.
  rewrite bind_eq. cbn [mod_log modify fst snd]. rewrite bind_eq, ret_eq.
  set (l2 := l1 <| l_item := None |>). pose proof (delivered_counted (l2, w1)) as Hk.
  pose proof (delivered_link (l2, w1)) as Hl.
  destruct (line_delivered (l2, w1)) as [u [l3 w3]]. unfold link in Hl. cbn [fst snd] in *.
  destruct Hk as (K1 & K2 & _). cbn [fst snd] in *. exists l3, w3. split; [done|].
  split; [by rewrite K2|]. split; [rewrite K1; exact C1|]. rewrite Hl. transitivity (l_mesh_connected l); [exact C6|done].
Qed.

Lemma take_step line queue l w :
  l_item l = None -> l_queue l = Some (line :: queue) ->
  log_worker_task (l, w) =
    (None, (l <| l_queue := Some queue |> <| l_item := Some line |>, w)).
Proof.
  intros Hi Hq. unfold log_worker_task. rewrite bind_eq. cbn [get_log gets fst snd].
  by rewrite Hi, Hq.
Qed.

Lemma drain_queue q l w :
  lines_accepted -> l_mesh_connected l = true -> l_item l = None -> l_queue l = Some q ->
  exists s', worker_steps (2 * length q) (l, w) = (q, s') /\ held_lines s'.1 = [].
Proof.
  intros Hacc. revert l w. induction q as [|line q IH]; intros l w Hm Hi Hq.
  - exists (l, w). split; [done|]. unfold held_lines. cbn. by rewrite Hi, Hq.
  - replace (2 * length (line :: q))%nat with (S (S (2 * length q)))%nat by (cbn; lia).
    cbn [worker_steps]. rewrite (take_step line q) by done.
    destruct (send_step line (l <| l_queue := Some q |> <| l_item := Some line |>) w Hacc)
      as (l' & w' & -> & H1 & H2 & H3); [done|done|].
    destruct (IH l' w' H3 H1 H2) as (s' & -> & Hs). by exists s'.
Qed.

(** C40: a connected worker empties its queue.  When the root accepts lines,
    twice as many steps of the worker as there are lines in the queue, and one more
    if it holds a line, deliver all of them, in order, and leave nothing. *)
Theorem queue_drains q l w :
  lines_accepted -> l_mesh_connected l = true -> l_queue l = Some q ->
  exists s', worker_steps (length (option_list (l_item l)) + 2 * length q) (l, w)
             = (held_lines l, s') /\
    held_lines s'.1 = [].
Proof.
  intros Hacc Hm Hq. unfold held_lines. rewrite Hq. cbn [default from_option id].
  destruct (l_item l) as [line|] eqn:Ei.
  - change (length (option_list (Some line)) + 2 * length q)%nat with (S (2 * length q)).
    cbn [worker_steps].
    destruct (send_step line l w Hacc Hm Ei) as (l' & w' & -> & H1 & H2 & H3).
    destruct (drain_queue q l' w' Hacc H3 H1 (eq_trans H2 Hq)) as (s' & Hs & Hh).
    exists s'. by rewrite Hs.
  - by apply drain_queue.
Qed.

End Props.

(** ** Witnesses *)

Definition quiet_log : LogEnv unit := {|
  log_rtos := {|
    xTaskGetTickCount := fun w => (5, w); portTICK_PERIOD_MS := 1; pdMS_TO_TICKS := fun ms => ms;
    mutex_create := fun w => (true, w); mutex_take := fun _ w => (true, w);
    queue_create := fun w => (true, w); task_create := fun w => (true, w);
    esp_err_to_name := fun _ => [69]; esp_app_project := None |};
  log_transport := {| keemash_mesh_get_local_mac := fun w => ([1; 2; 3; 4; 5; 6], w);
                      keemash_mesh_transport_send := fun _ _ w => (ESP_OK, w) |};
  CONFIG_KEEMASH_LOG_CAPTURE_QUEUE_LEN := 32; CONFIG_KEEMASH_LOG_CAPTURE_LINE_MAX := 256;
  CONFIG_KEEMASH_NODE_V2_LOG_ENABLE := true; CONFIG_KEEMASH_V1_PRENEGOTIATION_ENABLE := true;
  log_clock := fun w => (None, w); log_timer_us := fun w => (7000000, w);
  log_delay_ms := fun _ w => (tt, w); prev_vprintf := fun txt w => (Z.of_nat (length txt), w);
  mesh_v2_node_send_nodeinfo := fun w => (ESP_OK, w);
  mesh_v2_node_send_log_line := fun _ w => (ESP_OK, w);
  mesh_v2_node_send_topology := fun w => (ESP_OK, w);
  mesh_v2_node_lossless_negotiated := fun w => (true, w);
  mesh_v2_node_kick_root := fun w => (tt, w) |}.
#[local] Existing Instance quiet_log.

Definition busy_stream : log_stream :=
  log_stream_boot <| l_mesh_connected := true |> <| l_item := Some [65] |>
    <| l_queue := Some [[66]; [67]] |>.

Lemma quiet_accepts : lines_accepted.
Proof.
  intros line [l w] Hm. cbn in Hm. unfold send_logline_to_root. rewrite bind_eq.
  cbn [get_log gets fst snd]. by rewrite Hm.
Qed.

Example queue_drains_witness :
  exists s', worker_steps 5 (busy_stream, tt) = ([[65]; [66]; [67]], s') /\
    held_lines s'.1 = [].
Proof.
  exact (queue_drains [[66]; [67]] busy_stream tt quiet_accepts eq_refl eq_refl).
Defined.
