(* ===== verification/LogTime.v ===== *)
(** * Time stamps on the console (keemash_log_time_vprintf.c)

    The sink that prefixes log lines with the local time: after the tag of an
    ESP-IDF line, before any other line, and not at all while the clock is not
    set. *)

From S2P Require Import Prelude.
From S2P Require Import Words.
From S2P Require Import Esp.
#[local] Open Scope Z_scope.

(** The static variables; [s_enabled] starts set. *)
Record log_time := { s_started : bool; s_enabled : bool }.
#[export] Instance eta_log_time : Eta log_time := fun t => Build_log_time (s_started t) (s_enabled t).
Definition log_time_boot : log_time := {| s_started := false; s_enabled := true |}.

(** The broken-down local time: the year, and the text of
    [strftime("%Y-%m-%d %H:%M:%S")], empty when it does not fit. *)
Record local_tm := { tm_year : Z; tm_text : bytes }.

Definition local_time_string (out_size : nat) (local : option local_tm) : option bytes :=
  if (out_size <? 20)%nat then None
  else
    match local with
    | None => None
    | Some tm =>
        if tm_year tm <? 2020 - 1900 then None
        else if (length (tm_text tm) =? 0)%nat || (out_size <=? length (tm_text tm))%nat then None
        else Some (tm_text tm)
    end.

(** The letters E, W, I, D and V, and a space. *)
Definition is_idf_log_line (line : bytes) : bool :=
  match line with
  | c :: s :: _ =>
      (s =? 32) && ((c =? 69) || (c =? 87) || (c =? 73) || (c =? 68) || (c =? 86))
  | _ => false
  end.

(** [strchr(original, ')')]: the index. *)
Definition closing_paren (original : bytes) : option nat := find_idx (fun c => c =? 41) original.

(** The text that is printed; [original] is what [vsnprintf] leaves. *)
Definition stamp_line (timestamp : option bytes) (original : bytes) : bytes :=
  match timestamp with
  | None => original
  | Some ts =>
      if is_idf_log_line original then
        match closing_paren original with
        | Some i =>
            if nth (S i) original 0 =? 32
            then take (i + 2) original ++ [91] ++ ts ++ [93; 32] ++ drop (i + 2) original
            else original ++ [32; 91] ++ ts ++ [93]
        | None => original ++ [32; 91] ++ ts ++ [93]
        end
      else [91] ++ ts ++ [93; 32] ++ original
  end.

(** What goes to [stdout], and the result. *)
Definition timestamp_vprintf (t : log_time) (local : option local_tm) (txt : bytes)
  : bytes * Z :=
  let original := snprintf 256 txt in
  let timestamp := if s_enabled t then local_time_string 32 local else None in
  let output := snprintf 320 (stamp_line timestamp original) in
  (output, Z.of_nat (length output)).

Definition keemash_log_time_vprintf_start (t : log_time) : esp_err_t * log_time :=
  if s_started t then (ESP_OK, t) else (ESP_OK, t <| s_started := true |>).

Definition keemash_log_time_vprintf_enable (enabled : bool) (t : log_time) : log_time :=
  t <| s_enabled := enabled |>.

(** ** A stamped line *)

(** Stamping loses nothing.  Whatever is printed, at most 255 characters of
    it are kept, and they appear unchanged and in order around a single bracketed
    time; the 320 characters of the output buffer are always enough, and without a
    valid time the text is printed as it is. *)
Theorem stamp_keeps_text t local txt :
  let original := snprintf 256 txt in
  let '(output, n) := timestamp_vprintf t local txt in
  n = Z.of_nat (length output) /\ (length output <= 319)%nat /\
  (output = original \/
   exists ts before after,
     s_enabled t = true /\ local_time_string 32 local = Some ts /\ (length ts < 32)%nat /\
     original = before ++ after /\
     (output = before ++ [32; 91] ++ ts ++ [93] ++ after \/
      output = before ++ [91] ++ ts ++ [93; 32] ++ after)).
Proof.
  intros original. unfold timestamp_vprintf. fold original.
  assert (Ho : (length original <= 255)%nat)
    by (unfold original, snprintf; rewrite length_take; lia).
  assert (Hplain : snprintf 320 original = original) by (unfold snprintf; apply take_ge; lia).
  assert (Hts : forall ts, local_time_string 32 local = Some ts -> (length ts < 32)%nat).
  { intros ts H. unfold local_time_string in H. change (32 <? 20)%nat with false in H. cbv iota in H.
    destruct local as [tm|]; [|done]. destruct (tm_year tm <? _); [done|].
    destruct (_ || _) eqn:E; [done|]. injection H as <-. apply orb_false_iff in E as [_ E].
    apply Nat.leb_gt in E. exact E. }
  destruct (s_enabled t); [|cbn [stamp_line]; rewrite Hplain; split; [done|]; split; [lia|by left]].
  destruct (local_time_string 32 local) as [ts|] eqn:El;
    [|cbn [stamp_line]; rewrite Hplain; split; [done|]; split; [lia|by left]].
  specialize (Hts ts eq_refl). clear Hplain.
  assert (Hfits : forall l, (length l = length original + length ts + 3)%nat ->
            snprintf 320 l = l /\ (length l <= 319)%nat).
  { intros l Hl. split; [unfold snprintf; apply take_ge; lia|lia]. }
  assert (Hend : forall o before after, original = before ++ after ->
            o = before ++ [32; 91] ++ ts ++ [93] ++ after \/
            o = before ++ [91] ++ ts ++ [93; 32] ++ after ->
            Z.of_nat (length (snprintf 320 o)) = Z.of_nat (length (snprintf 320 o)) /\
            (length (snprintf 320 o) <= 319)%nat /\
            (snprintf 320 o = original \/
             exists ts0 before after, true = true /\ Some ts = Some ts0 /\ (length ts0 < 32)%nat /\
               original = before ++ after /\
               (snprintf 320 o = before ++ [32; 91] ++ ts0 ++ [93] ++ after \/
                snprintf 320 o = before ++ [91] ++ ts0 ++ [93; 32] ++ after))).
  { intros o before after Heq Hor.
    assert (Hl : (length o = length original + length ts + 3)%nat).
    { destruct Hor as [-> | ->]; rewrite Heq, !length_app; cbn; lia. }
    destruct (Hfits o Hl) as [-> Hle]. split; [done|]. split; [done|]. right.
    exists ts, before, after. done. }
  unfold stamp_line. destruct (is_idf_log_line original).
  - destruct (closing_paren original) as [i|].
    + destruct (_ =? 32).
      * apply (Hend _ (take (i + 2) original) (drop (i + 2) original));
          [by rewrite take_drop|by right].
      * apply (Hend _ original []); [by rewrite app_nil_r|by left].
    + apply (Hend _ original []); [by rewrite app_nil_r|by left].
  - apply (Hend _ [] original); [done|by right].
Qed.

(** The stamp of an ESP-IDF line comes after its level and time. *)
Example stamp_idf :
  stamp_line (Some [50]) [73; 32; 40; 55; 41; 32; 120] = [73; 32; 40; 55; 41; 32; 91; 50; 93; 32; 120].
Proof. reflexivity. Qed.
