(* ===== verification/MeshWire.v ===== *)
(** * Packets on the wire: sequence numbers, CRC and validation

    [seq_before], [seq_after], [seq_in_range], [crc16_update], [packet_crc] and
    [packet_valid] of keemash_mesh_core.c.  keemash_mesh_root.c and
    keemash_mesh_node.c carry textual copies of the CRC. *)

From S2P Require Import Prelude.
From S2P Require Import Words.
From S2P Require Import MeshProto.
#[local] Open Scope Z_scope.

(** ** Wrapping 32-bit sequence numbers *)

Definition seq_before (a b : Z) : bool := i32 (u32 (a - b)) <? 0.
Definition seq_after (a b : Z) : bool := seq_before b a.
Definition seq_in_range (seq first last : Z) : bool :=
  u32 (seq - first) <=? u32 (last - first).

Definition mac_eq (a b : bytes) : bool := bytes_eqb a b.
Definition mac_zero (m : bytes) : bool := mac_eq m mac_zero_addr.

(** ** CRC-16/CCITT *)

Definition crc16_bit (crc : Z) : Z :=
  if has_flag crc 0x8000 then u16 (Z.lxor (Z.shiftl crc 1) 0x1021)
  else u16 (Z.shiftl crc 1).

Definition crc16_byte (crc b : Z) : Z :=
  Nat.iter 8 crc16_bit (Z.lxor crc (u16 (Z.shiftl b 8))).

Fixpoint crc16_update (crc : Z) (data : bytes) : Z :=
  match data with
  | [] => crc
  | b :: data => crc16_update (crc16_byte crc b) data
  end.

Definition packet_crc (h : mesh_v2_hdr_t) (payload : bytes) : Z :=
  let copy := h <| h_crc16 := 0 |> in
  let crc := crc16_update 0xFFFF (encode_hdr copy) in
  crc16_update crc (take (Z.to_nat (h_payload_len h)) payload).

(** [packet_valid]: the header and the payload on success. *)
Definition packet_valid (packet : bytes) : option (mesh_v2_hdr_t * bytes) :=
  let packet_len := Z.of_nat (length packet) in
  if packet_len <? Z.of_nat sizeof_hdr then None
  else
    let h := decode_hdr packet in
    if negb (h_magic h =? MESH_PKT_MAGIC) || negb (h_version h =? MESH_PKT_VERSION_V2)
       || (MESH_V2_PAYLOAD_MAX <? h_payload_len h)
       || negb (packet_len =? Z.of_nat sizeof_hdr + h_payload_len h) then None
    else
      let payload := drop sizeof_hdr packet in
      if negb (packet_crc h payload =? h_crc16 h) then None else Some (h, payload).

(** The header and the packet [send_packet] lays out: CRC last. *)
Definition build_hdr (type session_id : Z) (src payload : bytes) : mesh_v2_hdr_t :=
  let h := {| h_magic := MESH_PKT_MAGIC; h_version := MESH_PKT_VERSION_V2; h_type := type;
              h_flags := 0; h_session_id := session_id; h_seq := 0; h_ack_seq := 0;
              h_payload_len := u16 (Z.of_nat (length payload)); h_src_mac := src;
              h_crc16 := 0 |} in
  h <| h_crc16 := packet_crc h payload |>.

Definition build_packet (type session_id : Z) (src payload : bytes) : bytes :=
  encode_hdr (build_hdr type session_id src payload) ++ payload.

(** ** Sequence number facts *)

Lemma seq_before_irrefl a : seq_before a a = false.
Proof. unfold seq_before. apply Z.ltb_ge. rewrite Z.sub_diag. by vm_compute. Qed.

Lemma seq_before_offset a d :
  is_u32 a -> 0 < d < 2147483648 -> seq_before a (u32 (a + d)) = true.
Proof. intros Ha Hd. unfold seq_before. apply Z.ltb_lt. words. Qed.

Lemma seq_before_asym a b :
  is_u32 a -> is_u32 b -> u32 (a - b) <> 2147483648 ->
  seq_before a b = true -> seq_before b a = false.
Proof. unfold seq_before. intros Ha Hb Hn H. bools. apply Z.ltb_ge. words. Qed.

Lemma seq_trichotomy a b :
  is_u32 a -> is_u32 b -> a <> b -> seq_before a b = true \/ seq_before b a = true.
Proof.
  unfold seq_before. intros Ha Hb Hn.
  destruct (_ <? 0) eqn:E; [by left|right]. bools. apply Z.ltb_lt. words.
Qed.

(** Inside a window of 2^31 consecutive numbers starting at [base], wrapping
    comparison is comparison of the distances from [base]. *)
Lemma seq_before_window base a b :
  is_u32 base -> is_u32 a -> is_u32 b ->
  u32 (a - base) < 2147483648 -> u32 (b - base) < 2147483648 ->
  seq_before a b = (u32 (a - base) <? u32 (b - base)).
Proof.
  unfold seq_before. intros Hc Ha Hb H1 H2.
  apply eq_true_iff_eq. rewrite !Z.ltb_lt. words.
Qed.

Lemma seq_in_range_iff seq first last :
  is_u32 seq -> is_u32 first -> is_u32 last ->
  seq_in_range seq first last = true <->
  exists k, 0 <= k <= u32 (last - first) /\ seq = u32 (first + k).
Proof.
  intros Hs Hf Hl. unfold seq_in_range. rewrite Z.leb_le. split.
  - intros H. exists (u32 (seq - first)). split; [words|]. words.
  - intros (k & Hk & ->). words.
Qed.

(** ** CRC facts: linearity, invertibility, burst detection *)

Lemma has_flag_pow2 x n : 0 <= n -> has_flag x (2 ^ n) = Z.testbit x n.
Proof.
  intros Hn. unfold has_flag. destruct (Z.testbit x n) eqn:E.
  - apply negb_true_iff, Z.eqb_neq. intros H.
    assert (Z.testbit (Z.land x (2 ^ n)) n = true) as C.
    { by rewrite Z.land_spec, E, Z.pow2_bits_true. }
    rewrite H, Z.bits_0 in C. done.
  - apply negb_false_iff, Z.eqb_eq. apply Z.bits_inj'. intros i Hi.
    rewrite Z.land_spec, Z.bits_0, Z.pow2_bits_eqb by lia.
    destruct (Z.eqb_spec n i) as [->|]; [by rewrite E|apply andb_false_r].
Qed.

Lemma u16_land z : u16 z = Z.land z (Z.ones 16).
Proof. unfold u16. rewrite Z.land_ones by lia. done. Qed.

Lemma u16_lxor a b : u16 (Z.lxor a b) = Z.lxor (u16 a) (u16 b).
Proof.
  rewrite !u16_land. apply Z.bits_inj'. intros i Hi.
  rewrite !Z.land_spec, !Z.lxor_spec, !Z.land_spec.
  destruct (Z.testbit a i), (Z.testbit b i), (Z.testbit (Z.ones 16) i); done.
Qed.

Lemma lxor_u16 a b : is_u16 a -> is_u16 b -> is_u16 (Z.lxor a b).
Proof. intros. rewrite <- (u16_id a), <- (u16_id b), <- u16_lxor by done. apply u16_is. Qed.

Lemma crc16_bit_alt crc :
  crc16_bit crc = Z.lxor (u16 (Z.shiftl crc 1)) (if Z.testbit crc 15 then 0x1021 else 0).
Proof.
  unfold crc16_bit. change 0x8000 with (2 ^ 15). rewrite has_flag_pow2 by lia.
  destruct (Z.testbit crc 15); [by rewrite u16_lxor|by rewrite Z.lxor_0_r].
Qed.

Lemma crc16_bit_is crc : is_u16 (crc16_bit crc).
Proof. unfold crc16_bit. destruct has_flag; apply u16_is. Qed.

Lemma lxor_swap4 a b c d :
  Z.lxor (Z.lxor a b) (Z.lxor c d) = Z.lxor (Z.lxor a c) (Z.lxor b d).
Proof.
  rewrite !Z.lxor_assoc. f_equal. rewrite <- !Z.lxor_assoc. f_equal. apply Z.lxor_comm.
Qed.

Lemma crc16_bit_lxor a b : crc16_bit (Z.lxor a b) = Z.lxor (crc16_bit a) (crc16_bit b).
Proof.
  rewrite !crc16_bit_alt, Z.shiftl_lxor, u16_lxor, Z.lxor_spec, lxor_swap4. f_equal.
  destruct (Z.testbit a 15), (Z.testbit b 15); reflexivity.
Qed.

(** One bit step back: the low bit of the CRC tells which branch was taken. *)
Definition crc16_unbit (crc : Z) : Z :=
  if Z.testbit crc 0 then Z.lor 0x8000 (Z.shiftr (Z.lxor crc 0x1021) 1)
  else Z.shiftr crc 1.

Definition bytes_forall (P : Z -> bool) : bool := forallb P (seqZ 0 256).

Lemma bytes_forall_spec P x : bytes_forall P = true -> is_u8 x -> P x = true.
Proof.
  unfold bytes_forall. intros H Hx. rewrite forallb_forall in H.
  apply H, list_elem_of_In, elem_of_seqZ. exact Hx.
Qed.

Definition unbit_ok (hi lo : Z) : bool :=
  crc16_unbit (crc16_bit (hi * 256 + lo)) =? hi * 256 + lo.

Lemma unbit_ok_all : bytes_forall (fun hi => bytes_forall (unbit_ok hi)) = true.
Proof. vm_compute. reflexivity. Qed.

Lemma crc16_unbit_bit crc : is_u16 crc -> crc16_unbit (crc16_bit crc) = crc.
Proof.
  intros H.
  assert (Hhi : is_u8 (crc / 256)) by words. assert (Hlo : is_u8 (crc mod 256)) by words.
  pose proof (bytes_forall_spec (unbit_ok (crc / 256)) _
    (bytes_forall_spec (fun hi => bytes_forall (unbit_ok hi)) _ unbit_ok_all Hhi) Hlo) as C.
  unfold unbit_ok in C. apply Z.eqb_eq in C.
  replace (crc / 256 * 256 + crc mod 256) with crc in C by words. exact C.
Qed.

Lemma crc16_bit_inj a b : is_u16 a -> is_u16 b -> crc16_bit a = crc16_bit b -> a = b.
Proof. intros Ha Hb H. by rewrite <- (crc16_unbit_bit a), H, crc16_unbit_bit. Qed.

Lemma crc16_iter_is n c : is_u16 c -> is_u16 (Nat.iter n crc16_bit c).
Proof. destruct n; [done|intros; apply crc16_bit_is]. Qed.

Lemma crc16_iter_inj n a b :
  is_u16 a -> is_u16 b -> Nat.iter n crc16_bit a = Nat.iter n crc16_bit b -> a = b.
Proof.
  intros Ha Hb. induction n as [|n IH]; [done|]. cbn. intros H.
  apply IH, crc16_bit_inj; [by apply crc16_iter_is..|done].
Qed.

Lemma crc16_iter_lxor n a b :
  Nat.iter n crc16_bit (Z.lxor a b)
  = Z.lxor (Nat.iter n crc16_bit a) (Nat.iter n crc16_bit b).
Proof. induction n as [|n IH]; [done|]. by rewrite !Nat.iter_succ, IH, crc16_bit_lxor. Qed.

Lemma lxor_cancel_l a b c : Z.lxor a b = Z.lxor a c -> b = c.
Proof.
  intros H. rewrite <- (Z.lxor_0_l b), <- (Z.lxor_0_l c), <- (Z.lxor_nilpotent a).
  by rewrite !Z.lxor_assoc, H.
Qed.

Lemma shiftl8 b : is_u8 b -> u16 (Z.shiftl b 8) = b * 256.
Proof. intros H. rewrite Z.shiftl_mul_pow2 by lia. change (2 ^ 8) with 256. words. Qed.

Lemma crc16_update_cons c x data :
  crc16_update c (x :: data) = crc16_update (crc16_byte c x) data.
Proof. done. Qed.

Lemma crc16_byte_is c b : is_u16 (crc16_byte c b).
Proof. apply crc16_bit_is. Qed.

Lemma crc16_byte_inj_state a b x :
  is_u16 a -> is_u16 b -> crc16_byte a x = crc16_byte b x -> a = b.
Proof.
  intros Ha Hb H. apply crc16_iter_inj in H; [|apply lxor_u16; auto..].
  rewrite !(Z.lxor_comm _ (u16 _)) in H. by apply lxor_cancel_l in H.
Qed.

Lemma crc16_update_is c data : is_u16 c -> is_u16 (crc16_update c data).
Proof.
  revert c. induction data as [|x data IH]; intros c Hc; [done|].
  apply IH, crc16_byte_is.
Qed.

Lemma crc16_update_inj_state a b data :
  is_u16 a -> is_u16 b -> crc16_update a data = crc16_update b data -> a = b.
Proof.
  revert a b. induction data as [|x data IH]; intros a b Ha Hb H; [done|].
  rewrite !crc16_update_cons in H. apply IH in H; [|apply crc16_byte_is..].
  exact (crc16_byte_inj_state a b x Ha Hb H).
Qed.

Lemma crc16_update_app c d1 d2 :
  crc16_update c (d1 ++ d2) = crc16_update (crc16_update c d1) d2.
Proof. revert c. induction d1 as [|x d1 IH]; intros c; [done|]. apply IH. Qed.

(** The CRC of one byte leaves no byte-sized trace in the high half alone. *)
Lemma crc16_low_byte d :
  0 < d < 256 -> Nat.iter 8 crc16_bit (d * 256) mod 256 <> 0.
Proof.
  intros H.
  assert (forallb (fun x => negb (Nat.iter 8 crc16_bit (x * 256) mod 256 =? 0))
            (seqZ 1 255) = true) as C by (vm_compute; reflexivity).
  rewrite forallb_forall in C.
  specialize (C d). rewrite <- list_elem_of_In, elem_of_seqZ in C.
  specialize (C ltac:(lia)). by bools.
Qed.

Lemma lxor_mul256_mod a b : Z.lxor a b mod 256 = Z.lxor (a mod 256) (b mod 256).
Proof.
  change 256 with (2 ^ 8). rewrite <- !Z.land_ones by lia.
  apply Z.bits_inj'. intros i Hi. rewrite !Z.land_spec, !Z.lxor_spec, !Z.land_spec.
  destruct (Z.testbit a i), (Z.testbit b i), (Z.testbit (Z.ones 8) i); done.
Qed.

Lemma lxor_mul256 a b : Z.lxor (a * 256) (b * 256) = Z.lxor a b * 256.
Proof.
  change 256 with (2 ^ 8). rewrite <- !Z.shiftl_mul_pow2 by lia. by rewrite Z.shiftl_lxor.
Qed.

Lemma lxor_u8 a b : is_u8 a -> is_u8 b -> is_u8 (Z.lxor a b).
Proof.
  intros Ha Hb. rewrite <- (Z.mod_small a 256), <- (Z.mod_small b 256) by done.
  rewrite <- lxor_mul256_mod. apply Z.mod_pos_bound. lia.
Qed.

Lemma crc16_byte_alt c b :
  is_u8 b -> crc16_byte c b = Nat.iter 8 crc16_bit (Z.lxor c (b * 256)).
Proof. intros H. unfold crc16_byte. by rewrite shiftl8. Qed.

Lemma crc16_byte_diff c x x' :
  is_u8 x -> is_u8 x' ->
  Z.lxor (crc16_byte c x) (crc16_byte c x') = Nat.iter 8 crc16_bit (Z.lxor x x' * 256).
Proof.
  intros Hx Hx'. rewrite !crc16_byte_alt, <- crc16_iter_lxor by done. f_equal.
  by rewrite lxor_swap4, Z.lxor_nilpotent, Z.lxor_0_l, lxor_mul256.
Qed.

Lemma lxor_eq_diff a b c d : Z.lxor a b = Z.lxor c d -> Z.lxor a c = Z.lxor b d.
Proof.
  intros H. apply Z.bits_inj'. intros i _.
  pose proof (f_equal (fun z => Z.testbit z i) H) as Hi; cbn beta in Hi.
  rewrite !Z.lxor_spec in *.
  destruct (Z.testbit a i), (Z.testbit b i), (Z.testbit c i), (Z.testbit d i); done.
Qed.

(** Two bytes are a burst of at most 16 bits; the CRC separates them. *)
Lemma crc16_two_bytes c x y x' y' :
  is_u16 c -> is_u8 x -> is_u8 y -> is_u8 x' -> is_u8 y' ->
  crc16_byte (crc16_byte c x) y = crc16_byte (crc16_byte c x') y' ->
  x = x' /\ y = y'.
Proof.
  intros Hc Hx Hy Hx' Hy' H.
  rewrite (crc16_byte_alt _ y), (crc16_byte_alt _ y') in H by done.
  apply crc16_iter_inj in H; cycle 1.
  { rewrite <- shiftl8 by done. apply lxor_u16; [apply crc16_byte_is|auto]. }
  { rewrite <- shiftl8 by done. apply lxor_u16; [apply crc16_byte_is|auto]. }
  assert (Hx0 : Z.lxor x x' = 0).
  { destruct (decide (Z.lxor x x' = 0)) as [|Hne]; [done|exfalso].
    apply (crc16_low_byte (Z.lxor x x')).
    - pose proof (lxor_u8 x x' Hx Hx') as Hr. unfold is_u8 in Hr. lia.
    - rewrite <- (crc16_byte_diff c) by done. apply lxor_eq_diff in H.
      rewrite H, lxor_mul256. apply Z.mod_mul. lia. }
  apply Z.lxor_eq in Hx0 as <-. split; [done|].
  apply lxor_cancel_l in H. lia.
Qed.

Lemma crc16_burst c pre x y x' y' post :
  is_u16 c -> is_u8 x -> is_u8 y -> is_u8 x' -> is_u8 y' ->
  crc16_update c (pre ++ x :: y :: post) = crc16_update c (pre ++ x' :: y' :: post) ->
  x = x' /\ y = y'.
Proof.
  intros Hc Hx Hy Hx' Hy' H. rewrite !crc16_update_app, !crc16_update_cons in H.
  apply crc16_update_inj_state in H; [|apply crc16_byte_is..].
  eapply crc16_two_bytes; [by apply crc16_update_is|..]; done.
Qed.

(** ** The packet CRC as a function of the bytes on the wire *)

(** What the CRC covers: the packet with its CRC field read as zero. *)
Definition crc_covered (bs : bytes) : bytes := take 24 bs ++ [0; 0] ++ drop 26 bs.

Lemma encode_decode_hdr bs k :
  are_bytes bs -> (26 <= length bs)%nat ->
  encode_hdr ((decode_hdr bs) <| h_crc16 := k |>) = take 24 bs ++ le_bytes 2 k.
Proof.
  intros Hb Hl. unfold encode_hdr, decode_hdr.
  cbn [set_field setter h_magic h_version h_type h_flags h_session_id h_seq h_ack_seq
       h_payload_len h_src_mac h_crc16].
  rewrite !get_le_bytes by (done || lia).
  rewrite !app_assoc. f_equal.
  rewrite (slice_join 0 1 1), (slice_join 0 2 1), (slice_join 0 3 1), (slice_join 0 4 4),
    (slice_join 0 8 4), (slice_join 0 12 4), (slice_join 0 16 2), (slice_join 0 18 6).
  unfold slice. by rewrite drop_0.
Qed.

Lemma packet_valid_crc bs h payload :
  are_bytes bs -> packet_valid bs = Some (h, payload) ->
  (26 <= length bs)%nat /\ h = decode_hdr bs /\ payload = drop 26 bs /\
  h_magic h = MESH_PKT_MAGIC /\ h_version h = MESH_PKT_VERSION_V2 /\
  h_payload_len h = Z.of_nat (length payload) /\
  h_payload_len h <= MESH_V2_PAYLOAD_MAX /\
  crc16_update 0xFFFF (crc_covered bs) = h_crc16 h.
Proof.
  intros Hb. unfold packet_valid, sizeof_hdr. cbn zeta.
  destruct (_ <? _) eqn:El; [done|]. destruct (_ || _) eqn:Eo; [done|].
  destruct (negb (packet_crc _ _ =? _)) eqn:Ec; [done|]. intros [= <- <-].
  bools. rewrite length_drop. repeat (split; [lia || done|]).
  rewrite <- Ec. unfold packet_crc, crc_covered.
  rewrite encode_decode_hdr by (done || lia).
  rewrite <- crc16_update_app, <- app_assoc.
  rewrite (take_ge (drop 26 bs)); [done|]. rewrite length_drop. lia.
Qed.

(** *** Layout of a packet of the sender *)

Definition build_ok (type session_id : Z) (src payload : bytes) : Prop :=
  is_u8 type /\ is_u32 session_id /\ mac_addr src /\ are_bytes payload /\
  Z.of_nat (length payload) <= MESH_V2_PAYLOAD_MAX.

Lemma packet_crc_is h payload : is_u16 (packet_crc h payload).
Proof. apply crc16_update_is, crc16_update_is. words. Qed.

Lemma build_hdr_ok type session_id src payload :
  build_ok type session_id src payload -> hdr_ok (build_hdr type session_id src payload).
Proof.
  intros (Ht & Hs & Hm & Hp & Hl). unfold build_hdr, hdr_ok.
  cbn [set_field setter h_magic h_version h_type h_flags h_session_id h_seq h_ack_seq
       h_payload_len h_src_mac h_crc16].
  repeat split; try (unfold MESH_PKT_MAGIC, MESH_PKT_VERSION_V2; lia);
    try apply Ht; try apply Hs; try apply Hm; try apply packet_crc_is; try apply u16_is.
Qed.

Lemma packet_valid_built type session_id src payload :
  build_ok type session_id src payload ->
  packet_valid (build_packet type session_id src payload)
  = Some (build_hdr type session_id src payload, payload).
Proof.
  intros Hok. pose proof (build_hdr_ok _ _ _ _ Hok) as Hh.
  destruct Hok as (Ht & Hs & Hm & Hp & Hl). unfold MESH_V2_PAYLOAD_MAX in Hl.
  unfold build_packet.
  set (h := build_hdr type session_id src payload) in *.
  assert (Hlen : length (encode_hdr h) = sizeof_hdr)
    by (apply length_encode_hdr, Hm).
  assert (Hpl : h_payload_len h = Z.of_nat (length payload)) by (cbn; words).
  unfold packet_valid. rewrite decode_encode_hdr by done.
  rewrite drop_app_length' by done. autorewrite with len. rewrite Hlen, Hpl.
  rewrite (proj2 (Z.ltb_ge _ _)) by lia.
  rewrite (proj2 (Z.ltb_ge MESH_V2_PAYLOAD_MAX _)) by (unfold MESH_V2_PAYLOAD_MAX; lia).
  rewrite Nat2Z.inj_add.
  change (h_magic h) with MESH_PKT_MAGIC. change (h_version h) with MESH_PKT_VERSION_V2.
  by rewrite !Z.eqb_refl.
Qed.

(** Every packet the sender lays out is accepted by the receiver's
    validator, which gives back the header and the payload that were sent. *)
Theorem packet_valid_build type session_id src payload :
  build_ok type session_id src payload ->
  packet_valid (build_packet type session_id src payload)
  = Some (build_hdr type session_id src payload, payload).
Proof. apply packet_valid_built. Qed.

Lemma crc_covered_header pre x y post :
  (length pre + 2 <= 24)%nat ->
  crc_covered (pre ++ x :: y :: post)
  = pre ++ x :: y :: take (22 - length pre) post ++ [0; 0] ++ drop (24 - length pre) post.
Proof.
  intros H. unfold crc_covered. rewrite take_app_ge, drop_app_ge by lia.
  replace (24 - length pre)%nat with (S (S (22 - length pre))) by lia.
  replace (26 - length pre)%nat with (S (S (24 - length pre))) by lia.
  cbn [firstn skipn]. replace (S (S (22 - length pre))) with (24 - length pre)%nat by lia.
  by rewrite <- app_assoc.
Qed.

Lemma crc_covered_payload pre x y post :
  (26 <= length pre)%nat ->
  crc_covered (pre ++ x :: y :: post)
  = (take 24 pre ++ [0; 0] ++ drop 26 pre) ++ x :: y :: post.
Proof.
  intros H. unfold crc_covered. rewrite take_app_le, drop_app_le by lia.
  by rewrite <- !app_assoc.
Qed.

Lemma get_le_crc_header pre x y x' y' post :
  (length pre + 2 <= 24)%nat ->
  get_le 2 (pre ++ x :: y :: post) 24 = get_le 2 (pre ++ x' :: y' :: post) 24.
Proof.
  intros H. unfold get_le. rewrite !slice_app_r by lia.
  replace (24 - length pre)%nat with (2 + (22 - length pre))%nat by lia. done.
Qed.

Lemma get_le_crc_payload pre x y x' y' post :
  (26 <= length pre)%nat ->
  get_le 2 (pre ++ x :: y :: post) 24 = get_le 2 (pre ++ x' :: y' :: post) 24.
Proof.
  intros H. unfold get_le, slice. rewrite !drop_app_le by lia.
  rewrite !take_app_le by (rewrite length_drop; lia). done.
Qed.

Definition sample_mac : bytes := [2; 0; 0; 0; 0; 1].
Definition sample_payload : bytes := [1; 2; 3].

Example packet_valid_build_witness :
  packet_valid (build_packet 58 7 sample_mac sample_payload)
  = Some (build_hdr 58 7 sample_mac sample_payload, sample_payload).
Proof.
  apply packet_valid_build. unfold build_ok, mac_addr, are_bytes, sample_mac, sample_payload.
  repeat split; try (vm_compute; congruence); repeat constructor; vm_compute; congruence.
Defined.

(** C16: corrupting any two adjacent bytes of a valid packet outside its CRC
    field (a burst of up to 16 bits) is always detected. *)
Theorem packet_burst_detected pre x y x' y' post :
  are_bytes (pre ++ x :: y :: post) -> is_u8 x' -> is_u8 y' ->
  (length pre + 2 <= 24 \/ 26 <= length pre)%nat ->
  (x, y) <> (x', y') ->
  packet_valid (pre ++ x :: y :: post) <> None ->
  packet_valid (pre ++ x' :: y' :: post) = None.
Proof.
  intros Hb Hx' Hy' Hpos Hne Hv.
  destruct (packet_valid (pre ++ x :: y :: post)) as [[h p]|] eqn:E; [clear Hv|done].
  destruct (packet_valid (pre ++ x' :: y' :: post)) as [[h' p']|] eqn:E'; [exfalso|done].
  assert (are_bytes pre /\ is_u8 x /\ is_u8 y /\ are_bytes post) as (Hpre & Hx & Hy & Hpost).
  { unfold are_bytes in Hb. rewrite Forall_app, !Forall_cons_iff in Hb. tauto. }
  assert (Hb' : are_bytes (pre ++ x' :: y' :: post)).
  { unfold are_bytes. rewrite Forall_app, !Forall_cons_iff. auto. }
  apply packet_valid_crc in E as (_ & -> & _ & _ & _ & _ & _ & E); [|done].
  apply packet_valid_crc in E' as (_ & -> & _ & _ & _ & _ & _ & E'); [|done].
  cbn [decode_hdr h_crc16] in E, E'. apply Hne.
  assert (x = x' /\ y = y') as [-> ->]; [|done].
  destruct Hpos as [Hpos|Hpos].
  - rewrite (get_le_crc_header pre x y x' y') in E by done. rewrite <- E' in E.
    rewrite !crc_covered_header in E by done. apply crc16_burst in E; auto. words.
  - rewrite (get_le_crc_payload pre x y x' y') in E by done. rewrite <- E' in E.
    rewrite !crc_covered_payload in E by done. apply crc16_burst in E; auto. words.
Qed.

Example packet_burst_detected_witness :
  packet_valid (take 26 (build_packet 58 7 sample_mac sample_payload) ++ [9; 9; 3]) = None.
Proof.
  apply (packet_burst_detected (take 26 (build_packet 58 7 sample_mac sample_payload))
           1 2 9 9 [3]).
  - vm_compute. repeat constructor; congruence.
  - vm_compute. split; congruence.
  - vm_compute. split; congruence.
  - right. vm_compute. lia.
  - congruence.
  - vm_compute. congruence.
Defined.
