(* ===== verification/RelState.v ===== *)
(** * The reliable layer's state (keemash_mesh_core.c)

    The slots, the per-peer state and the context of the reliability core, the
    environment it runs in (clock, random numbers and the three callbacks of
    the configuration), and the functions that search and count the slots.

    A C pointer to an element of one of the context's arrays is its index.  A
    callback may re-enter the library, so the callbacks act on the whole
    state: the context and the rest of the world [W]. *)

From S2P Require Import Prelude.
From S2P Require Import Words.
From S2P Require Import Esp.
From S2P Require Import MeshProto.
From S2P Require Import MeshWire.
#[local] Open Scope Z_scope.

Definition KM_CHANNEL_COUNT : Z := MESH_V2_TUNNEL_CHANNEL_MAX + 1.
Definition KM_PACKET_MAX : Z := MESH_V2_PACKET_MAX.
Definition KM_MESSAGE_MAX : Z := MESH_V2_RELIABLE_INNER_MAX * MESH_V2_RELIABLE_MAX_FRAGMENTS.
Definition KM_PENDING_LOST_RANGES : nat := 8.
Definition KEEMASH_REL_PRIORITY_LOG : Z := 0.
Definition KEEMASH_REL_PRIORITY_NORMAL : Z := 1.
Definition KEEMASH_REL_PRIORITY_HIGH : Z := 2.
Definition KEEMASH_REL_PRIORITY_OTA : Z := 3.
Definition KEEMASH_REL_PRIORITY_CONTROL : Z := 4.

Record keemash_rel_config_t := {
  c_root_role : bool; c_local_mac : bytes;
  c_max_peers : nat; c_tx_slots : nat; c_rx_slots : nat; c_reassembly_slots : nat;
  c_reserved_control_slots : nat; c_per_peer_tx_slots : nat; c_per_peer_rx_slots : nat;
  c_per_peer_reassembly_slots : nat; c_per_peer_control_reserve : nat;
  c_route_grace_ms : Z; c_stale_peer_ms : Z; c_initial_rto_ms : Z; c_min_rto_ms : Z;
  c_max_rto_ms : Z; c_fragment_timeout_ms : Z; c_max_retries : Z;
  c_fault_drop_data_every : Z; c_fault_drop_ack_every : Z; c_fault_drop_nack_every : Z;
  c_fault_duplicate_every : Z; c_fault_delay_every : Z; c_fault_delay_ms : Z;
  c_fault_reorder_every : Z; c_fault_overflow_every : Z;
  (* whether the callback pointers are set *)
  c_send : bool; c_deliver : bool; c_event : bool }.

#[export] Instance eta_cfg : Eta keemash_rel_config_t := fun c =>
  Build_keemash_rel_config_t (c_root_role c) (c_local_mac c) (c_max_peers c) (c_tx_slots c)
    (c_rx_slots c) (c_reassembly_slots c) (c_reserved_control_slots c)
    (c_per_peer_tx_slots c) (c_per_peer_rx_slots c) (c_per_peer_reassembly_slots c)
    (c_per_peer_control_reserve c) (c_route_grace_ms c) (c_stale_peer_ms c)
    (c_initial_rto_ms c) (c_min_rto_ms c) (c_max_rto_ms c) (c_fragment_timeout_ms c)
    (c_max_retries c) (c_fault_drop_data_every c) (c_fault_drop_ack_every c)
    (c_fault_drop_nack_every c) (c_fault_duplicate_every c) (c_fault_delay_every c)
    (c_fault_delay_ms c) (c_fault_reorder_every c) (c_fault_overflow_every c)
    (c_send c) (c_deliver c) (c_event c).

(** [tx_slot_t]; [t_bytes] holds the first [len] bytes of the buffer. *)
Record tx_slot_t := {
  t_used : bool; t_peer : bytes; t_channel : Z; t_priority : Z; t_seq : Z;
  t_stream_id : Z; t_first_sent_ms : Z; t_last_sent_ms : Z; t_retries : Z;
  t_bytes : bytes }.

#[export] Instance eta_tx : Eta tx_slot_t := fun t =>
  Build_tx_slot_t (t_used t) (t_peer t) (t_channel t) (t_priority t) (t_seq t)
    (t_stream_id t) (t_first_sent_ms t) (t_last_sent_ms t) (t_retries t) (t_bytes t).

Definition tx_zero : tx_slot_t :=
  {| t_used := false; t_peer := mac_zero_addr; t_channel := 0; t_priority := 0; t_seq := 0;
     t_stream_id := 0; t_first_sent_ms := 0; t_last_sent_ms := 0; t_retries := 0;
     t_bytes := [] |}.

Definition t_len (t : tx_slot_t) : Z := Z.of_nat (length (t_bytes t)).

(** [rx_slot_t]; [payload_len] is the length of [r_payload]. *)
Record rx_slot_t := {
  r_used : bool; r_peer : bytes; r_channel : Z; r_seq : Z;
  r_hdr : mesh_v2_reliable_hdr_t; r_payload : bytes }.

#[export] Instance eta_rx : Eta rx_slot_t := fun r =>
  Build_rx_slot_t (r_used r) (r_peer r) (r_channel r) (r_seq r) (r_hdr r) (r_payload r).

Definition rh_zero : mesh_v2_reliable_hdr_t :=
  {| rh_channel_id := 0; rh_flags := 0; rh_priority := 0; rh_fragment_count := 0;
     rh_payload_len := 0; rh_fragment_index := 0; rh_stream_id := 0; rh_seq := 0;
     rh_tx_ms := 0; rh_root_session_id := 0; rh_node_session_id := 0;
     rh_origin_mac := mac_zero_addr; rh_target_mac := mac_zero_addr |}.

Definition rx_zero : rx_slot_t :=
  {| r_used := false; r_peer := mac_zero_addr; r_channel := 0; r_seq := 0;
     r_hdr := rh_zero; r_payload := [] |}.

Record reassembly_slot_t := {
  a_used : bool; a_peer : bytes; a_channel : Z; a_stream_id : Z; a_first_seq : Z;
  a_last_ms : Z; a_fragment_len : list Z; a_received_mask : Z; a_fragment_count : Z;
  a_data : bytes }.

#[export] Instance eta_reasm : Eta reassembly_slot_t := fun a =>
  Build_reassembly_slot_t (a_used a) (a_peer a) (a_channel a) (a_stream_id a)
    (a_first_seq a) (a_last_ms a) (a_fragment_len a) (a_received_mask a)
    (a_fragment_count a) (a_data a).

Definition reasm_zero : reassembly_slot_t :=
  {| a_used := false; a_peer := mac_zero_addr; a_channel := 0; a_stream_id := 0;
     a_first_seq := 0; a_last_ms := 0; a_fragment_len := replicate 16 0;
     a_received_mask := 0; a_fragment_count := 0;
     a_data := replicate (Z.to_nat KM_MESSAGE_MAX) 0 |}.

Record pending_lost_range_t := {
  l_used : bool; l_channel : Z; l_first : Z; l_last : Z }.

#[export] Instance eta_lost : Eta pending_lost_range_t := fun l =>
  Build_pending_lost_range_t (l_used l) (l_channel l) (l_first l) (l_last l).

Definition lost_zero : pending_lost_range_t :=
  {| l_used := false; l_channel := 0; l_first := 0; l_last := 0 |}.

Record peer_state_t := {
  p_used : bool; p_mac : bytes; p_remote_mac : bytes; p_ready : bool; p_route_up : bool;
  p_route_down_since_ms : Z; p_last_route_change_ms : Z; p_capabilities : Z;
  p_root_session_id : Z; p_node_session_id : Z; p_next_seq : list Z;
  p_expected_seq : list Z; p_pending_lost : list pending_lost_range_t;
  p_last_ack_ms : Z; p_last_rx_ms : Z; p_rto_ms : Z; p_srtt_ms : Z; p_rttvar_ms : Z;
  p_retry_count : Z; p_overflow_count : Z; p_replay_count : Z; p_lost_count : Z;
  p_lost_reason : Z }.

#[export] Instance eta_peer : Eta peer_state_t := fun p =>
  Build_peer_state_t (p_used p) (p_mac p) (p_remote_mac p) (p_ready p) (p_route_up p)
    (p_route_down_since_ms p) (p_last_route_change_ms p) (p_capabilities p)
    (p_root_session_id p) (p_node_session_id p) (p_next_seq p) (p_expected_seq p)
    (p_pending_lost p) (p_last_ack_ms p) (p_last_rx_ms p) (p_rto_ms p) (p_srtt_ms p)
    (p_rttvar_ms p) (p_retry_count p) (p_overflow_count p) (p_replay_count p)
    (p_lost_count p) (p_lost_reason p).

Definition peer_zero : peer_state_t :=
  {| p_used := false; p_mac := mac_zero_addr; p_remote_mac := mac_zero_addr;
     p_ready := false; p_route_up := false; p_route_down_since_ms := 0;
     p_last_route_change_ms := 0; p_capabilities := 0; p_root_session_id := 0;
     p_node_session_id := 0; p_next_seq := replicate (Z.to_nat KM_CHANNEL_COUNT) 0;
     p_expected_seq := replicate (Z.to_nat KM_CHANNEL_COUNT) 0;
     p_pending_lost := replicate KM_PENDING_LOST_RANGES lost_zero;
     p_last_ack_ms := 0; p_last_rx_ms := 0; p_rto_ms := 0; p_srtt_ms := 0;
     p_rttvar_ms := 0; p_retry_count := 0; p_overflow_count := 0; p_replay_count := 0;
     p_lost_count := 0; p_lost_reason := 0 |}.

Record keemash_rel_ctx_t := {
  cfg : keemash_rel_config_t; local_session : Z; next_stream_id : Z;
  peers : list peer_state_t; tx : list tx_slot_t; rx : list rx_slot_t;
  reassembly : list reassembly_slot_t;
  data_counter : Z; ack_counter : Z; nack_counter : Z; duplicate_counter : Z;
  delay_counter : Z; reorder_counter : Z; overflow_counter : Z;
  poll_peer_cursor : nat;
  held_valid : bool; held_dst : bytes; held_packet : bytes;
  delayed_valid : bool; delayed_dst : bytes; delayed_due_ms : Z; delayed_packet : bytes }.

#[export] Instance eta_ctx : Eta keemash_rel_ctx_t := fun c =>
  Build_keemash_rel_ctx_t (cfg c) (local_session c) (next_stream_id c) (peers c) (tx c)
    (rx c) (reassembly c) (data_counter c) (ack_counter c) (nack_counter c)
    (duplicate_counter c) (delay_counter c) (reorder_counter c) (overflow_counter c)
    (poll_peer_cursor c) (held_valid c) (held_dst c) (held_packet c) (delayed_valid c)
    (delayed_dst c) (delayed_due_ms c) (delayed_packet c).

(** ** The environment *)

Class Env (W : Type) := {
  esp_timer_get_time : ST W Z;
  esp_random : ST W Z;
  cb_send : bytes -> bytes -> ST (keemash_rel_ctx_t * W) esp_err_t;
  cb_deliver : bytes -> Z -> bytes -> Z -> ST (keemash_rel_ctx_t * W) unit;
  cb_event : bytes -> Z -> Z -> Z -> Z -> ST (keemash_rel_ctx_t * W) unit }.

Abbreviation Rel W := (ST (keemash_rel_ctx_t * W)).

(** Reading and writing the context. *)
Definition get_ctx {W} : Rel W keemash_rel_ctx_t := gets fst.
Definition mod_ctx {W} (f : keemash_rel_ctx_t -> keemash_rel_ctx_t) : Rel W unit :=
  modify (fun s => (f s.1, s.2)).
Definition lift_world {W A} (m : ST W A) : Rel W A :=
  fun s => let '(a, w) := m s.2 in (a, (s.1, w)).

Definition now_ms {W} `{!Env W} : Rel W Z :=
  t ← lift_world esp_timer_get_time; mret (u32 (t / 1000)).

Definition new_session_id {W} `{!Env W} : Rel W Z :=
  id ← lift_world esp_random; mret (if id =? 0 then 1 else id).

(** [ctx->peers[p]], [ctx->tx[i]], ... *)
Definition peer_at (c : keemash_rel_ctx_t) (p : nat) : peer_state_t := nth p (peers c) peer_zero.
Definition tx_at (c : keemash_rel_ctx_t) (i : nat) : tx_slot_t := nth i (tx c) tx_zero.
Definition rx_at (c : keemash_rel_ctx_t) (i : nat) : rx_slot_t := nth i (rx c) rx_zero.
Definition reasm_at (c : keemash_rel_ctx_t) (i : nat) : reassembly_slot_t :=
  nth i (reassembly c) reasm_zero.

Definition set_peer (p : nat) (f : peer_state_t -> peer_state_t) (c : keemash_rel_ctx_t) :=
  c <| peers ::= alter f p |>.
Definition set_tx (i : nat) (f : tx_slot_t -> tx_slot_t) (c : keemash_rel_ctx_t) :=
  c <| tx ::= alter f i |>.
Definition set_rx (i : nat) (f : rx_slot_t -> rx_slot_t) (c : keemash_rel_ctx_t) :=
  c <| rx ::= alter f i |>.
Definition set_reasm (i : nat) (f : reassembly_slot_t -> reassembly_slot_t)
  (c : keemash_rel_ctx_t) := c <| reassembly ::= alter f i |>.

Definition mod_peer {W} p f : Rel W unit := mod_ctx (set_peer p f).
Definition mod_tx {W} i f : Rel W unit := mod_ctx (set_tx i f).
Definition mod_rx {W} i f : Rel W unit := mod_ctx (set_rx i f).
Definition mod_reasm {W} i f : Rel W unit := mod_ctx (set_reasm i f).

(** Per-channel arrays of a peer: [a[ch]] and [a[ch] = v]. *)
Definition ch_get (a : list Z) (ch : Z) : Z := nth (Z.to_nat ch) a 0.
Definition ch_set (ch v : Z) (a : list Z) : list Z := <[Z.to_nat ch := v]> a.
Definition channels : list Z := seqZ 1 (KM_CHANNEL_COUNT - 1).

Definition next_of (c : keemash_rel_ctx_t) (p : nat) (ch : Z) : Z :=
  ch_get (p_next_seq (peer_at c p)) ch.
Definition expected_of (c : keemash_rel_ctx_t) (p : nat) (ch : Z) : Z :=
  ch_get (p_expected_seq (peer_at c p)) ch.
Definition set_next {W} (p : nat) (ch v : Z) : Rel W unit :=
  mod_peer p (fun s => s <| p_next_seq ::= ch_set ch v |>).
Definition set_expected {W} (p : nat) (ch v : Z) : Rel W unit :=
  mod_peer p (fun s => s <| p_expected_seq ::= ch_set ch v |>).

(** ** Searching and counting *)

Definition tx_of (mac : bytes) (t : tx_slot_t) : bool := t_used t && mac_eq (t_peer t) mac.
Definition rx_of (mac : bytes) (r : rx_slot_t) : bool := r_used r && mac_eq (r_peer r) mac.
Definition reasm_of (mac : bytes) (a : reassembly_slot_t) : bool :=
  a_used a && mac_eq (a_peer a) mac.

Definition peer_send_mac (c : keemash_rel_ctx_t) (p : nat) : bytes :=
  if c_root_role (cfg c) then p_mac (peer_at c p) else p_remote_mac (peer_at c p).

Definition tx_unacked (c : keemash_rel_ctx_t) (p : nat) : nat :=
  count_if (tx_of (p_mac (peer_at c p))) (tx c).
Definition channel_unacked (c : keemash_rel_ctx_t) (p : nat) (ch : Z) : nat :=
  count_if (fun t => t_used t && (t_channel t =? ch) && mac_eq (t_peer t) (p_mac (peer_at c p)))
    (tx c).
Definition reassembly_depth (c : keemash_rel_ctx_t) (p : nat) : nat :=
  count_if (reasm_of (p_mac (peer_at c p))) (reassembly c).
Definition rx_depth (c : keemash_rel_ctx_t) (p : nat) : nat :=
  count_if (rx_of (p_mac (peer_at c p))) (rx c).

Definition tx_free (c : keemash_rel_ctx_t) : nat := count_if (fun t => negb (t_used t)) (tx c).

(** The part of the peer's limit a priority may use. *)
Definition tx_limit (c : keemash_rel_ctx_t) (priority : Z) : nat :=
  if priority <? KEEMASH_REL_PRIORITY_CONTROL then
    (c_per_peer_tx_slots (cfg c) - c_per_peer_control_reserve (cfg c))%nat
  else c_per_peer_tx_slots (cfg c).

Definition tx_alloc (c : keemash_rel_ctx_t) (p : nat) (priority : Z) : option nat :=
  let peer_used := tx_unacked c p in
  let peer_limit := c_per_peer_tx_slots (cfg c) in
  let non_control_limit := (peer_limit - c_per_peer_control_reserve (cfg c))%nat in
  if (priority <? KEEMASH_REL_PRIORITY_CONTROL) && (non_control_limit <=? peer_used)%nat
     || (priority =? KEEMASH_REL_PRIORITY_CONTROL) && (peer_limit <=? peer_used)%nat
  then None
  else if (priority <? KEEMASH_REL_PRIORITY_CONTROL)
          && (tx_free c <=? c_reserved_control_slots (cfg c))%nat then None
  else find_idx (fun t => negb (t_used t)) (tx c).

Definition tx_available (c : keemash_rel_ctx_t) (p : nat) (priority : Z) : nat :=
  let free_count := tx_free c in
  let low := priority <? KEEMASH_REL_PRIORITY_CONTROL in
  if low && (free_count <=? c_reserved_control_slots (cfg c))%nat then 0%nat
  else
    let free_count :=
      if low then (free_count - c_reserved_control_slots (cfg c))%nat else free_count in
    let peer_free := (tx_limit c priority - tx_unacked c p)%nat in
    if (peer_free <? free_count)%nat then peer_free else free_count.

Definition tx_is (mac : bytes) (ch seq : Z) (t : tx_slot_t) : bool :=
  t_used t && (t_channel t =? ch) && (t_seq t =? seq) && mac_eq (t_peer t) mac.
Definition rx_is (mac : bytes) (ch seq : Z) (r : rx_slot_t) : bool :=
  r_used r && (r_channel r =? ch) && (r_seq r =? seq) && mac_eq (r_peer r) mac.

Definition tx_find (c : keemash_rel_ctx_t) (p : nat) (ch seq : Z) : option nat :=
  find_idx (tx_is (p_mac (peer_at c p)) ch seq) (tx c).
Definition rx_find (c : keemash_rel_ctx_t) (p : nat) (ch seq : Z) : option nat :=
  find_idx (rx_is (p_mac (peer_at c p)) ch seq) (rx c).
Definition rx_alloc (c : keemash_rel_ctx_t) (p : nat) : option nat :=
  if (c_per_peer_rx_slots (cfg c) <=? rx_depth c p)%nat then None
  else find_idx (fun r => negb (r_used r)) (rx c).

Definition is_some {A} (o : option A) : bool := match o with Some _ => true | None => false end.

Definition sack_bitmap (c : keemash_rel_ctx_t) (p : nat) (ch : Z) : Z :=
  let ack := u32 (expected_of c p ch - 1) in
  fold_left (fun bitmap bit =>
      if is_some (rx_find c p ch (u32 (ack + 1 + bit)))
      then Z.lor bitmap (Z.shiftl 1 bit) else bitmap)
    (seqZ 0 MESH_V2_RELIABLE_WINDOW) 0.

Section Find.
Context {W : Type} `{!Env W}.

(** [mac] is [None] when the caller passes NULL, which only the node role
    does (the root role dereferences the pointer). *)
Definition peer_key (c : keemash_rel_ctx_t) (mac : option bytes) : bytes :=
  if c_root_role (cfg c) then default mac_zero_addr mac else mac_zero_addr.

Definition remote_of (mac : option bytes) : option bytes :=
  match mac with
  | Some m => if mac_zero m then None else Some m
  | None => None
  end.

Definition peer_lookup (c : keemash_rel_ctx_t) (key : bytes) : option nat :=
  find_idx (fun p => p_used p && mac_eq (p_mac p) key) (peers c).

Definition new_peer (c : keemash_rel_ctx_t) (key : bytes) (mac : option bytes) (now : Z)
  : peer_state_t :=
  peer_zero <| p_used := true |> <| p_mac := key |>
    <| p_remote_mac := default mac_zero_addr (remote_of mac) |>
    <| p_rto_ms := c_initial_rto_ms (cfg c) |>
    <| p_last_route_change_ms := now |>
    <| p_next_seq ::= fun a => fold_left (fun a ch => ch_set ch 1 a) channels a |>
    <| p_expected_seq ::= fun a => fold_left (fun a ch => ch_set ch 1 a) channels a |>.

Definition peer_find (mac : option bytes) (create : bool) : Rel W (option nat) :=
  c ← get_ctx;
  match peer_lookup c (peer_key c mac) with
  | Some i =>
      match (if c_root_role (cfg c) then None else remote_of mac) with
      | Some m => mod_peer i (fun p => p <| p_remote_mac := m |>);; mret (Some i)
      | None => mret (Some i)
      end
  | None =>
      if negb create then mret None
      else match find_idx (fun p => negb (p_used p)) (peers c) with
           | Some i =>
               now ← now_ms;
               mod_peer i (fun _ => new_peer c (peer_key c mac) mac now);;
               mret (Some i)
           | None => mret None
           end
  end.

Definition reassembly_find (p : nat) (rh : mesh_v2_reliable_hdr_t) (create : bool)
  : Rel W (option nat) :=
  c ← get_ctx;
  let mac := p_mac (peer_at c p) in
  let first_seq := u32 (rh_seq rh - rh_fragment_index rh) in
  match find_idx (fun a => a_used a && (a_channel a =? rh_channel_id rh)
                           && (a_stream_id a =? rh_stream_id rh) && mac_eq (a_peer a) mac)
          (reassembly c) with
  | Some i =>
      let a := reasm_at c i in
      if negb (a_fragment_count a =? rh_fragment_count rh)
         || negb (a_first_seq a =? first_seq) then mret None
      else mret (Some i)
  | None =>
      if negb create then mret None
      else if (c_per_peer_reassembly_slots (cfg c) <=? reassembly_depth c p)%nat
      then mret None
      else match find_idx (fun a => negb (a_used a)) (reassembly c) with
           | Some i =>
               now ← now_ms;
               mod_reasm i (fun _ =>
                 reasm_zero <| a_used := true |> <| a_peer := mac |>
                   <| a_channel := rh_channel_id rh |> <| a_stream_id := rh_stream_id rh |>
                   <| a_fragment_count := rh_fragment_count rh |>
                   <| a_first_seq := first_seq |> <| a_last_ms := now |>);;
               mret (Some i)
           | None => mret None
           end
  end.
End Find.
