(* ===== verification/RelCore.v ===== *)
(** * The reliable layer's operations (keemash_mesh_core.c)

    Transmission with fault injection, loss accounting, in-order consumption
    and reassembly, acknowledgements and the round-trip estimator: what the packet
    handlers, the poll and the other entry points of RelOps are made of.

    [consume_contiguous], [deliver_fragment] and [receiver_drop_range] call
    each other; the recursion is on a number of rounds that
    [consume_measure] bounds (RelConsume.v proves that it is enough). *)

From S2P Require Import Prelude.
From S2P Require Import Words.
From S2P Require Import Esp.
From S2P Require Import MeshProto.
From S2P Require Import MeshWire.
From S2P Require Import RelState.
#[local] Open Scope Z_scope.

(** First, last and number of the transmit slots of one channel, as the first
    loop of [clear_peer_buffers] collects them. *)
Definition span_add (s : Z * Z * Z) (seq : Z) : Z * Z * Z :=
  let '(first, last, count) := s in
  (if (count =? 0) || seq_before seq first then seq else first,
   if (count =? 0) || seq_after seq last then seq else last,
   count + 1).
Definition tx_span (mac : bytes) (ch : Z) (ts : list tx_slot_t) : Z * Z * Z :=
  fold_left (fun s t => if tx_of mac t && (t_channel t =? ch) then span_add s (t_seq t) else s)
    ts (0, 0, 0).

Definition set_all_seq (v : Z) (a : list Z) : list Z :=
  fold_left (fun a ch => ch_set ch v a) channels a.

(** *** Pending lost ranges ([pending_lost_add]) *)

Definition ranges_join (first last first' last' : Z) : bool :=
  seq_in_range first first' last' || seq_in_range last first' last'
  || seq_in_range first' first last || seq_in_range last' first last
  || (u32 (last' + 1) =? first) || (u32 (last + 1) =? first').

Definition range_widen (r : pending_lost_range_t) (first last : Z) : pending_lost_range_t :=
  let r := if seq_before first (l_first r) then r <| l_first := first |> else r in
  if seq_after last (l_last r) then r <| l_last := last |> else r.

Definition range_candidate (ch first last : Z) (r : pending_lost_range_t) : bool :=
  l_used r && (l_channel r =? ch) && ranges_join first last (l_first r) (l_last r).

(** The inner loop over [j]: ranges of the channel that now touch range [i]
    are absorbed into it. *)
Definition absorb_one (ch : Z) (i : nat) (rs : list pending_lost_range_t) (j : nat)
  : list pending_lost_range_t :=
  let range := nth i rs lost_zero in
  let other := nth j rs lost_zero in
  if (j =? i)%nat || negb (l_used other) || negb (l_channel other =? ch) then rs
  else if negb (ranges_join (l_first other) (l_last other) (l_first range) (l_last range))
  then rs
  else <[j := lost_zero]> (<[i := range_widen range (l_first other) (l_last other)]> rs).

Definition absorb_all (ch : Z) (i : nat) (rs : list pending_lost_range_t) :=
  fold_left (absorb_one ch i) (seq 0 KM_PENDING_LOST_RANGES) rs.

(** The loop over [pass]: it stops at the first pass that merges nothing. *)
Fixpoint pending_merge (passes : nat) (ch first last : Z) (rs : list pending_lost_range_t)
  : Z * Z * list pending_lost_range_t :=
  match passes with
  | O => (first, last, rs)
  | S passes =>
      match find_idx (range_candidate ch first last) rs with
      | None => (first, last, rs)
      | Some i =>
          let rs := absorb_all ch i
                      (alter (fun r => range_widen r first last) i rs) in
          let range := nth i rs lost_zero in
          pending_merge passes ch (l_first range) (l_last range) rs
      end
  end.

(** The new table, or [None] when the range could not be recorded (the table
    may still have been merged, which the second component gives). *)
Definition pending_lost_add (ch first last : Z) (rs : list pending_lost_range_t)
  : bool * list pending_lost_range_t :=
  let '(first, last, rs) := pending_merge KM_PENDING_LOST_RANGES ch first last rs in
  if existsb (fun r => l_used r && (l_channel r =? ch)
                       && seq_in_range first (l_first r) (l_last r)
                       && seq_in_range last (l_first r) (l_last r)) rs
  then (true, rs)
  else match find_idx (fun r => negb (l_used r)) rs with
       | Some i =>
           (true, <[i := {| l_used := true; l_channel := ch; l_first := first;
                            l_last := last |}]> rs)
       | None => (false, rs)
       end.

Definition is_lost_slot (ch seq : Z) (r : pending_lost_range_t) : bool :=
  l_used r && (l_channel r =? ch) && seq_in_range seq (l_first r) (l_last r).

(** *** Round-trip time ([update_rto]) *)

Definition update_rto (c : keemash_rel_config_t) (sample : Z) (p : peer_state_t)
  : peer_state_t :=
  if (sample =? 0) || (60000 <? sample) then p
  else
    let p :=
      if p_srtt_ms p =? 0 then p <| p_srtt_ms := sample |> <| p_rttvar_ms := sample / 2 |>
      else
        let diff := if sample <? p_srtt_ms p then p_srtt_ms p - sample
                    else sample - p_srtt_ms p in
        p <| p_rttvar_ms := u32 (u32 (3 * p_rttvar_ms p) + diff) / 4 |>
          <| p_srtt_ms := u32 (u32 (7 * p_srtt_ms p) + sample) / 8 |> in
    let rto := u32 (p_srtt_ms p + u32 (4 * p_rttvar_ms p)) in
    let rto := if rto <? c_min_rto_ms c then c_min_rto_ms c else rto in
    let rto := if c_max_rto_ms c <? rto then c_max_rto_ms c else rto in
    p <| p_rto_ms := rto |>.

(** Whether an acknowledgement covers sequence number [seq]. *)
Definition ack_accepts (ack : mesh_v2_reliable_ack_payload_t) (seq : Z) : bool :=
  negb (seq_after seq (ack_ack_seq ack))
  || (let delta := u32 (seq - ack_ack_seq ack - 1) in
      if delta <? 32 then has_flag (ack_sack_bitmap ack) (Z.shiftl 1 delta) else false).

Section Ops.
Context {W : Type} `{!Env W}.

Definition flush_delayed_packet (now : Z) : Rel W unit :=
  c ← get_ctx;
  if negb (delayed_valid c) || (i32 (u32 (now - delayed_due_ms c)) <? 0) then mret tt
  else
    _ ← cb_send (delayed_dst c) (delayed_packet c);
    mod_ctx (fun c => c <| delayed_valid := false |> <| delayed_packet := [] |>).

Definition notify_event (p : nat) (ch reason first last : Z) : Rel W unit :=
  c ← get_ctx;
  when (c_event (cfg c)) (cb_event (peer_send_mac c p) ch reason first last).

Definition divides (every counter : Z) : bool :=
  negb (every =? 0) && (counter mod every =? 0).

(** The drop faults: count the packet, and tell whether it is dropped. *)
Definition drop_fault (type : Z) : Rel W bool :=
  c ← get_ctx;
  if type =? MESH_V2_TYPE_RELIABLE_DATA then
    let n := u32 (data_counter c + 1) in
    mod_ctx (fun c => c <| data_counter := n |>);;
    mret (divides (c_fault_drop_data_every (cfg c)) n)
  else if type =? MESH_V2_TYPE_RELIABLE_ACK then
    let n := u32 (ack_counter c + 1) in
    mod_ctx (fun c => c <| ack_counter := n |>);;
    mret (divides (c_fault_drop_ack_every (cfg c)) n)
  else if type =? MESH_V2_TYPE_RELIABLE_NACK then
    let n := u32 (nack_counter c + 1) in
    mod_ctx (fun c => c <| nack_counter := n |>);;
    mret (divides (c_fault_drop_nack_every (cfg c)) n)
  else mret false.

(** The arguments [dst] and [packet] of [raw_send] are pointers, and the callback
    may come back into the layer before the call ends: the destination is the
    caller's address or the address kept in a peer, the packet is a buffer of
    the caller or the first [len] bytes of a transmit slot. They are read when
    they are used: a slot that an acknowledgement cleared in between holds
    zeros. *)
Inductive mac_ref :=
  | Mac_at (mac : bytes)
  | Peer_mac (p : nat).
Inductive packet_ref :=
  | Local_packet (packet : bytes)
  | Tx_bytes (i len : nat).
Definition read_mac (c : keemash_rel_ctx_t) (dst : mac_ref) : bytes :=
  match dst with Mac_at mac => mac | Peer_mac p => peer_send_mac c p end.
Definition read_packet (c : keemash_rel_ctx_t) (packet : packet_ref) : bytes :=
  match packet with
  | Local_packet packet => packet
  | Tx_bytes i len => take len (t_bytes (tx_at c i) ++ replicate len 0)
  end.
Definition packet_ref_len (packet : packet_ref) : nat :=
  match packet with Local_packet packet => length packet | Tx_bytes _ len => len end.
Definition send_ref (dst : mac_ref) (packet : packet_ref) : Rel W esp_err_t :=
  c ← get_ctx; cb_send (read_mac c dst) (read_packet c packet).

(** The delay fault: [true] when the packet was parked. *)
Definition delay_fault (now type : Z) (dst : mac_ref) (packet : packet_ref) : Rel W bool :=
  c ← get_ctx;
  if (type =? MESH_V2_TYPE_RELIABLE_DATA) && negb (c_fault_delay_every (cfg c) =? 0) then
    let n := u32 (delay_counter c + 1) in
    mod_ctx (fun c => c <| delay_counter := n |>);;
    if (n mod c_fault_delay_every (cfg c) =? 0) && negb (delayed_valid c)
       && (Z.of_nat (packet_ref_len packet) <=? KM_PACKET_MAX)
    then
      mod_ctx (fun c => c <| delayed_valid := true |> <| delayed_dst := read_mac c dst |>
        <| delayed_due_ms := u32 (now + (if c_fault_delay_ms (cfg c) =? 0 then 250
                                         else c_fault_delay_ms (cfg c))) |>
        <| delayed_packet := read_packet c packet |>);;
      mret true
    else mret false
  else mret false.

(** The reorder fault: [true] when the packet was held back. *)
Definition reorder_fault (type : Z) (dst : mac_ref) (packet : packet_ref) : Rel W bool :=
  c ← get_ctx;
  if (type =? MESH_V2_TYPE_RELIABLE_DATA) && negb (c_fault_reorder_every (cfg c) =? 0) then
    let n := u32 (reorder_counter c + 1) in
    mod_ctx (fun c => c <| reorder_counter := n |>);;
    if (n mod c_fault_reorder_every (cfg c) =? 0) && negb (held_valid c)
       && (Z.of_nat (packet_ref_len packet) <=? KM_PACKET_MAX)
    then
      mod_ctx (fun c => c <| held_valid := true |> <| held_dst := read_mac c dst |>
        <| held_packet := read_packet c packet |>);;
      mret true
    else mret false
  else mret false.

(** The duplicate fault after the packet was sent: [dst] and [packet] are read
    again. *)
Definition duplicate_fault (type : Z) (dst : mac_ref) (packet : packet_ref) : Rel W unit :=
  c ← get_ctx;
  when ((type =? MESH_V2_TYPE_RELIABLE_DATA) && negb (c_fault_duplicate_every (cfg c) =? 0))
    (let n := u32 (duplicate_counter c + 1) in
     mod_ctx (fun c => c <| duplicate_counter := n |>);;
     when (n mod c_fault_duplicate_every (cfg c) =? 0)
       (_ ← send_ref dst packet; mret tt)).

Definition release_held : Rel W unit :=
  c ← get_ctx;
  when (held_valid c)
    (_ ← cb_send (held_dst c) (held_packet c);
     mod_ctx (fun c => c <| held_valid := false |>)).

Definition raw_send (dst : mac_ref) (packet : packet_ref) (type : Z) : Rel W esp_err_t :=
  c ← get_ctx;
  if negb (c_send (cfg c)) then mret ESP_ERR_INVALID_STATE
  else
    now ← now_ms;
    flush_delayed_packet now;;
    dropped ← drop_fault type;
    if (dropped : bool) then mret ESP_OK
    else
      delayed ← delay_fault now type dst packet;
      if (delayed : bool) then mret ESP_OK
      else
        held ← reorder_fault type dst packet;
        if (held : bool) then mret ESP_OK
        else
          err ← send_ref dst packet;
          release_held;;
          duplicate_fault type dst packet;;
          mret err.

Definition send_packet (dst : mac_ref) (type session_id : Z) (payload : bytes)
  : Rel W esp_err_t :=
  c ← get_ctx;
  if MESH_V2_PAYLOAD_MAX <? Z.of_nat (length payload) then mret ESP_ERR_INVALID_SIZE
  else raw_send dst
         (Local_packet (build_packet type session_id (c_local_mac (cfg c)) payload)) type.

Definition record_lost (p : nat) (ch reason first last count : Z) : Rel W unit :=
  mod_peer p (fun s => s <| p_lost_reason := reason |>
    <| p_lost_count := u32 (p_lost_count s + (if count =? 0 then 1 else count)) |>);;
  notify_event p ch reason first last.

Definition drop_held_for (mac : bytes) (c : keemash_rel_ctx_t) : keemash_rel_ctx_t :=
  let c := if held_valid c && mac_eq (held_dst c) mac
           then c <| held_valid := false |> <| held_packet := [] |> else c in
  if delayed_valid c && mac_eq (delayed_dst c) mac
  then c <| delayed_valid := false |> <| delayed_packet := [] |> else c.

Definition clear_rx_slot (p : nat) (reason : Z) (i : nat) : Rel W unit :=
  c ← get_ctx;
  when (rx_of (p_mac (peer_at c p)) (rx_at c i))
    (record_lost p (r_channel (rx_at c i)) reason (r_seq (rx_at c i)) (r_seq (rx_at c i)) 1;;
     mod_rx i (fun _ => rx_zero)).

Definition reasm_last (a : reassembly_slot_t) : Z :=
  u32 (a_first_seq a + a_fragment_count a - 1).

Definition clear_reasm_slot (p : nat) (reason : Z) (i : nat) : Rel W unit :=
  c ← get_ctx;
  let a := reasm_at c i in
  when (reasm_of (p_mac (peer_at c p)) a)
    (record_lost p (a_channel a) reason (a_first_seq a) (reasm_last a) (a_fragment_count a);;
     mod_reasm i (fun _ => reasm_zero)).

Definition peer_restart (s : peer_state_t) : peer_state_t :=
  s <| p_next_seq ::= set_all_seq 1 |> <| p_expected_seq ::= set_all_seq 1 |>
    <| p_pending_lost := replicate KM_PENDING_LOST_RANGES lost_zero |>
    <| p_ready := false |>.

Definition clear_peer_buffers (p : nat) (reason : Z) : Rel W unit :=
  c ← get_ctx;
  mod_ctx (drop_held_for (peer_send_mac c p));;
  let mac := p_mac (peer_at c p) in
  let spans := (fun ch => (ch, tx_span mac ch (tx c))) <$> channels in
  mod_ctx (fun c => c <| tx ::= clear_if (tx_of mac) tx_zero |>);;
  for_each (seq 0 (c_rx_slots (cfg c))) (clear_rx_slot p reason);;
  for_each (seq 0 (c_reassembly_slots (cfg c))) (clear_reasm_slot p reason);;
  mod_peer p peer_restart;;
  for_each spans (fun '(ch, (first, last, count)) =>
    when (negb (count =? 0)) (record_lost p ch reason first last count)).

Definition send_ack (p : nat) (rh : mesh_v2_reliable_hdr_t) (nack : bool)
  : Rel W esp_err_t :=
  c ← get_ctx;
  let ch := rh_channel_id rh in
  let ack :=
    {| ack_channel_id := ch; ack_flags := 0; ack_reason := 0; ack_rsv := 0;
       ack_root_session_id := p_root_session_id (peer_at c p);
       ack_node_session_id := p_node_session_id (peer_at c p);
       ack_ack_seq := u32 (expected_of c p ch - 1);
       ack_sack_bitmap := sack_bitmap c p ch;
       ack_nack_seq := if nack then expected_of c p ch else 0;
       ack_echo_tx_ms := rh_tx_ms rh;
       ack_origin_mac := rh_origin_mac rh; ack_target_mac := rh_target_mac rh |} in
  send_packet (Peer_mac p)
    (if nack then MESH_V2_TYPE_RELIABLE_NACK else MESH_V2_TYPE_RELIABLE_ACK)
    (local_session c) (encode_ack ack).

Definition send_lost_packet (p : nat) (ch reason flags first last : Z) : Rel W esp_err_t :=
  c ← get_ctx;
  let lost :=
    {| lost_channel_id := ch; lost_reason := reason; lost_rsv := flags;
       lost_root_session_id := p_root_session_id (peer_at c p);
       lost_node_session_id := p_node_session_id (peer_at c p);
       lost_seq_first := first; lost_seq_last := last;
       lost_origin_mac := c_local_mac (cfg c);
       lost_target_mac := peer_send_mac c p |} in
  send_packet (Peer_mac p) MESH_V2_TYPE_RELIABLE_LOST (local_session c)
    (encode_lost lost).

Definition lost_span (first last : Z) : Z := u32 (u32 (last - first) + 1).

Definition send_lost (p : nat) (ch reason first last : Z) : Rel W esp_err_t :=
  record_lost p ch reason first last (lost_span first last);;
  send_lost_packet p ch reason 0 first last.

(** *** In-order consumption and reassembly *)

Definition reasm_complete (n : Z) : Z := u16 (Z.shiftl 1 n - 1).

(** Storing a fragment in its slot. *)
Definition store_fragment (rh : mesh_v2_reliable_hdr_t) (payload : bytes) (now : Z)
  (a : reassembly_slot_t) : reassembly_slot_t :=
  let i := rh_fragment_index rh in
  a <| a_data ::= splice (Z.to_nat (i * MESH_V2_RELIABLE_INNER_MAX))
                    (take (Z.to_nat (rh_payload_len rh)) payload) |>
    <| a_fragment_len ::= <[Z.to_nat i := rh_payload_len rh]> |>
    <| a_received_mask ::= fun m => Z.lor m (u16 (Z.shiftl 1 i)) |>
    <| a_last_ms := now |>.

Definition reasm_total (a : reassembly_slot_t) : Z :=
  fold_left Z.add (take (Z.to_nat (a_fragment_count a)) (a_fragment_len a)) 0.

Definition deliver (p : nat) (ch : Z) (payload : bytes) (stream_id : Z) : Rel W unit :=
  c ← get_ctx;
  when (c_deliver (cfg c)) (cb_deliver (peer_send_mac c p) ch payload stream_id).

Definition drop_rx_in (mac : bytes) (ch first last : Z) (r : rx_slot_t) : bool :=
  r_used r && (r_channel r =? ch) && mac_eq (r_peer r) mac
  && seq_in_range (r_seq r) first last.

Definition drop_reasm_in (mac : bytes) (ch first last : Z) (a : reassembly_slot_t) : bool :=
  a_used a && (a_channel a =? ch) && mac_eq (a_peer a) mac
  && (seq_in_range (a_first_seq a) first last || seq_in_range (reasm_last a) first last
      || seq_in_range first (a_first_seq a) (reasm_last a)).

(** [receiver_drop_range], the recursive call as a parameter. *)
Definition receiver_drop_range_with (consume : nat -> Z -> Rel W unit)
  (p : nat) (ch reason first last : Z) : Rel W unit :=
  c ← get_ctx;
  let mac := p_mac (peer_at c p) in
  mod_ctx (fun c => c <| rx ::= clear_if (drop_rx_in mac ch first last) rx_zero |>
    <| reassembly ::= clear_if (drop_reasm_in mac ch first last) reasm_zero |>);;
  record_lost p ch reason first last (lost_span first last);;
  c ← get_ctx;
  let notify :=
    _ ← send_lost_packet p ch reason MESH_V2_LOST_FLAG_RECEIVER_DROP first last; mret tt in
  let expected := expected_of c p ch in
  if seq_in_range expected first last then
    set_expected p ch (u32 (last + 1));;
    consume p ch;;
    notify
  else if seq_before expected first then
    let '(added, ranges) := pending_lost_add ch first last (p_pending_lost (peer_at c p)) in
    mod_peer p (fun s => s <| p_pending_lost := ranges |>);;
    if added then notify else clear_peer_buffers p MESH_V2_LOST_REASON_OVERFLOW
  else notify.

Definition deliver_fragment_with (consume : nat -> Z -> Rel W unit)
  (p : nat) (rh : mesh_v2_reliable_hdr_t) (payload : bytes) : Rel W unit :=
  let ch := rh_channel_id rh in
  let count := rh_fragment_count rh in
  let index := rh_fragment_index rh in
  if count <=? 1 then
    deliver p ch (take (Z.to_nat (rh_payload_len rh)) payload) (rh_stream_id rh)
  else if (MESH_V2_RELIABLE_MAX_FRAGMENTS <? count) || (count <=? index) then mret tt
  else
    found ← reassembly_find p rh true;
    match found with
    | None =>
        mod_peer p (fun s => s <| p_overflow_count ::= fun n => u32 (n + 1) |>);;
        let first := u32 (rh_seq rh - index) in
        let last := u32 (first + count - 1) in
        receiver_drop_range_with consume p ch MESH_V2_LOST_REASON_OVERFLOW first last
    | Some i =>
        now ← now_ms;
        mod_reasm i (store_fragment rh payload now);;
        c ← get_ctx;
        let a := reasm_at c i in
        if negb (a_received_mask a =? reasm_complete count) then mret tt
        else
          deliver p (a_channel a) (take (Z.to_nat (reasm_total a)) (a_data a))
            (a_stream_id a);;
          mod_reasm i (fun _ => reasm_zero)
    end.

Fixpoint consume_contiguous_n (rounds : nat) (p : nat) (ch : Z) : Rel W unit :=
  match rounds with
  | O => mret tt
  | S rounds =>
      c ← get_ctx;
      let s := peer_at c p in
      let expected := expected_of c p ch in
      match find_idx (is_lost_slot ch expected) (p_pending_lost s) with
      | Some i =>
          let range := nth i (p_pending_lost s) lost_zero in
          set_expected p ch (u32 (l_last range + 1));;
          mod_peer p (fun s => s <| p_pending_lost ::= <[i := lost_zero]> |>);;
          consume_contiguous_n rounds p ch
      | None =>
          match rx_find c p ch expected with
          | None => mret tt
          | Some i =>
              let slot := rx_at c i in
              mod_rx i (fun _ => rx_zero);;
              set_expected p ch (u32 (expected + 1));;
              deliver_fragment_with (consume_contiguous_n rounds) p (r_hdr slot)
                (r_payload slot);;
              consume_contiguous_n rounds p ch
          end
      end
  end.

(** An upper bound on the rounds left: a round frees a lost range or a
    receive slot, and a dropped fragment may add one lost range. *)
Definition consume_measure (c : keemash_rel_ctx_t) (p : nat) : nat :=
  2 * count_if r_used (rx c) + count_if l_used (p_pending_lost (peer_at c p)).

Definition consume_contiguous (p : nat) (ch : Z) : Rel W unit :=
  c ← get_ctx; consume_contiguous_n (S (consume_measure c p)) p ch.
Definition receiver_drop_range := receiver_drop_range_with consume_contiguous.
Definition deliver_fragment := deliver_fragment_with consume_contiguous.

(** *** Acknowledgement and retransmission *)

Definition ack_slot (p : nat) (ack : mesh_v2_reliable_ack_payload_t) (now : Z) (i : nat)
  : Rel W unit :=
  c ← get_ctx;
  let t := tx_at c i in
  when (t_used t && (t_channel t =? ack_channel_id ack)
        && mac_eq (t_peer t) (p_mac (peer_at c p)) && ack_accepts ack (t_seq t))
    (when ((t_retries t =? 0) && negb (t_first_sent_ms t =? 0))
       (mod_peer p (update_rto (cfg c) (u32 (now - t_first_sent_ms t))));;
     mod_tx i (fun _ => tx_zero)).

Definition ack_slots (p : nat) (ack : mesh_v2_reliable_ack_payload_t) : Rel W unit :=
  now ← now_ms;
  c ← get_ctx;
  for_each (seq 0 (c_tx_slots (cfg c))) (ack_slot p ack now);;
  mod_peer p (fun s => s <| p_last_ack_ms := now |>).

(** The packet of a slot with the replay flag, a new time stamp and CRC. *)
Definition replay_bytes (now : Z) (bs : bytes) : bytes :=
  let h := decode_hdr bs in
  let rh := decode_rh (drop sizeof_hdr bs) in
  let rh := rh <| rh_flags ::= fun f => Z.lor f MESH_V2_RELIABLE_FLAG_REPLAY |>
               <| rh_tx_ms := now |> in
  let payload := encode_rh rh ++ drop (sizeof_hdr + sizeof_rh) bs in
  let h := h <| h_crc16 := packet_crc h payload |> in
  encode_hdr h ++ payload.

Definition retransmit_slot (p i : nat) : Rel W esp_err_t :=
  now ← now_ms;
  mod_tx i (fun t => t <| t_bytes ::= replay_bytes now |> <| t_last_sent_ms := now |>
    <| t_retries ::= fun n => u8 (n + 1) |>);;
  mod_peer p (fun s => s <| p_retry_count ::= fun n => u32 (n + 1) |>
    <| p_replay_count ::= fun n => u32 (n + 1) |>);;
  c ← get_ctx;
  raw_send (Peer_mac p) (Tx_bytes i (length (t_bytes (tx_at c i)))) MESH_V2_TYPE_RELIABLE_DATA.
End Ops.
