(* ===== verification/RelOps.v ===== *)
(** * The reliable layer's entry points (keemash_mesh_core.c)

    Initialisation, the HELLO handshake, submission, the receive dispatcher
    with its handlers, the periodic poll and the remaining public functions.
    The context pointer is never NULL here; [None] stands for a NULL peer MAC. *)

From S2P Require Import Prelude.
From S2P Require Import Words.
From S2P Require Import Esp.
From S2P Require Import MeshProto.
From S2P Require Import MeshWire.
From S2P Require Import RelState.
From S2P Require Import RelCore.
#[local] Open Scope Z_scope.

Definition required_caps : Z :=
  Z.lor (Z.lor MESH_V2_CAP_RELIABLE_E2E MESH_V2_CAP_SACK) MESH_V2_CAP_FRAGMENT.

Definition root_caps : Z :=
  fold_left Z.lor [MESH_V2_CAP_TYPED_CONTROL; MESH_V2_CAP_TYPED_MEMORY; MESH_V2_CAP_OTA;
                   MESH_V2_CAP_TYPED_TIME] required_caps.

(** [strncpy(hello.tag, tag, sizeof(hello.tag) - 1)] into a zeroed array. *)
Definition pad_tag (tag : option bytes) : bytes :=
  let t := take 15 (default [] tag) in t ++ replicate (16 - length t) 0.

Inductive keemash_rel_submit_state_t :=
  | KEEMASH_REL_SUBMIT_REJECTED
  | KEEMASH_REL_SUBMIT_ACCEPTED_QUEUED.

Record keemash_rel_submit_info_t := {
  si_state : keemash_rel_submit_state_t; si_initial_transport_err : esp_err_t;
  si_stream_id : Z }.

Definition info_zero : keemash_rel_submit_info_t :=
  {| si_state := KEEMASH_REL_SUBMIT_REJECTED; si_initial_transport_err := ESP_OK;
     si_stream_id := 0 |}.

Record keemash_rel_stats_t := {
  st_seen : bool; st_ready : bool; st_root_session_id : Z; st_node_session_id : Z;
  st_tx_unacked : nat; st_reorder_depth : nat; st_rto_ms : Z; st_retry_count : Z;
  st_ack_age_ms : Z; st_rtt_ms : Z; st_overflow_count : Z; st_replay_count : Z;
  st_lost_count : Z; st_lost_reason : Z; st_route_up : bool; st_route_down_age_ms : Z;
  st_last_rx_age_ms : Z; st_capabilities : Z }.

(** ** Initialisation *)

Definition normalize_config (c : keemash_rel_config_t) : keemash_rel_config_t :=
  let limit v n := if (v =? 0)%nat || (n <? v)%nat then n else v in
  let c := c <| c_per_peer_tx_slots ::= fun v => limit v (c_tx_slots c) |> in
  let c := c <| c_per_peer_rx_slots ::= fun v => limit v (c_rx_slots c) |> in
  let c := c <| c_per_peer_reassembly_slots ::= fun v => limit v (c_reassembly_slots c) |> in
  let c := if (c_per_peer_tx_slots c <=? c_per_peer_control_reserve c)%nat
           then c <| c_per_peer_control_reserve :=
                       if (1 <? c_per_peer_tx_slots c)%nat then 1%nat else 0%nat |>
           else c in
  let c := if c_route_grace_ms c =? 0 then c <| c_route_grace_ms := 90000 |> else c in
  if c_stale_peer_ms c =? 0 then c <| c_stale_peer_ms := 300000 |> else c.

Definition config_valid (c : keemash_rel_config_t) : bool :=
  c_send c && negb (c_max_peers c =? 0)%nat && negb (c_tx_slots c =? 0)%nat
  && negb (c_rx_slots c =? 0)%nat && negb (c_reassembly_slots c =? 0)%nat.

Definition ctx_init (c : keemash_rel_config_t) (session stream : Z) : keemash_rel_ctx_t :=
  {| cfg := c; local_session := session; next_stream_id := stream;
     peers := replicate (c_max_peers c) peer_zero; tx := replicate (c_tx_slots c) tx_zero;
     rx := replicate (c_rx_slots c) rx_zero;
     reassembly := replicate (c_reassembly_slots c) reasm_zero;
     data_counter := 0; ack_counter := 0; nack_counter := 0; duplicate_counter := 0;
     delay_counter := 0; reorder_counter := 0; overflow_counter := 0;
     poll_peer_cursor := 0; held_valid := false; held_dst := mac_zero_addr;
     held_packet := []; delayed_valid := false; delayed_dst := mac_zero_addr;
     delayed_due_ms := 0; delayed_packet := [] |}.

Section Api.
Context {W : Type} `{!Env W}.

(** [ctx_ok] and [arrays_ok] tell whether the context and its four arrays
    could be allocated. *)
Definition keemash_rel_init (ctx_ok arrays_ok : bool) (config : keemash_rel_config_t)
  : ST W (esp_err_t * option keemash_rel_ctx_t) :=
  if negb (config_valid config) then mret (ESP_ERR_INVALID_ARG, None)
  else if negb ctx_ok then mret (ESP_ERR_NO_MEM, None)
  else
    let random := (id ← esp_random; mret (if id =? 0 then 1 else id)) in
    session ← random;
    stream ← random;
    if negb arrays_ok then mret (ESP_ERR_NO_MEM, None)
    else mret (ESP_OK, Some (ctx_init (normalize_config config) session stream)).

Definition keemash_rel_local_session : Rel W Z := c ← get_ctx; mret (local_session c).

Definition hello_of (c : keemash_rel_ctx_t) (p : nat) (tag : option bytes)
  (uptime_s capabilities : Z) : mesh_v2_reliable_hello_payload_t :=
  {| hello_tag := pad_tag tag; hello_uptime_s := uptime_s;
     hello_profile_version := MESH_V2_RELIABLE_PROFILE_VERSION;
     hello_mtu := MESH_V2_PACKET_MAX; hello_tx_slots := Z.of_nat (c_tx_slots (cfg c));
     hello_reorder_window := MESH_V2_RELIABLE_WINDOW;
     hello_capabilities := Z.lor capabilities required_caps;
     hello_node_session_id := local_session c;
     hello_root_session_seen := p_root_session_id (peer_at c p) |}.

Definition keemash_rel_send_hello (peer_mac tag : option bytes) (uptime_s capabilities : Z)
  : Rel W esp_err_t :=
  c ← get_ctx;
  if c_root_role (cfg c) then mret ESP_ERR_INVALID_STATE
  else
    found ← peer_find peer_mac true;
    match found with
    | None => mret ESP_ERR_NO_MEM
    | Some p =>
        c ← get_ctx;
        send_packet (Peer_mac p) MESH_V2_TYPE_RELIABLE_HELLO (local_session c)
          (encode_hello (hello_of c p tag uptime_s capabilities))
    end.

(** *** Submission *)

Definition fragments_of (payload_len : Z) : Z :=
  u8 ((payload_len + MESH_V2_RELIABLE_INNER_MAX - 1) / MESH_V2_RELIABLE_INNER_MAX).

Definition data_flags (fragments priority channel : Z) : Z :=
  let f := if 1 <? fragments then MESH_V2_RELIABLE_FLAG_FRAGMENT else 0 in
  let f := if priority =? KEEMASH_REL_PRIORITY_CONTROL
           then Z.lor f MESH_V2_RELIABLE_FLAG_URGENT else f in
  if channel =? MESH_V2_TUNNEL_CHANNEL_TIME then Z.lor f MESH_V2_RELIABLE_FLAG_LATEST else f.

Definition chunk_of (payload : bytes) (i : Z) : bytes :=
  slice (Z.to_nat (i * MESH_V2_RELIABLE_INNER_MAX))
    (Z.to_nat MESH_V2_RELIABLE_INNER_MAX) payload.

Definition data_hdr (c : keemash_rel_ctx_t) (p : nat) (ch priority seq stream_id : Z)
  (fragments i now : Z) (payload : bytes) : mesh_v2_reliable_hdr_t :=
  {| rh_channel_id := ch; rh_flags := data_flags fragments priority ch;
     rh_priority := priority; rh_fragment_count := fragments;
     rh_payload_len := Z.of_nat (length (chunk_of payload i)); rh_fragment_index := i;
     rh_stream_id := stream_id; rh_seq := seq; rh_tx_ms := now;
     rh_root_session_id := p_root_session_id (peer_at c p);
     rh_node_session_id := p_node_session_id (peer_at c p);
     rh_origin_mac := c_local_mac (cfg c); rh_target_mac := peer_send_mac c p |}.

(** The transmit slot holding fragment [i]. *)
Definition data_slot (c : keemash_rel_ctx_t) (p : nat) (ch priority seq stream_id : Z)
  (fragments i now : Z) (payload : bytes) : tx_slot_t :=
  {| t_used := true; t_peer := p_mac (peer_at c p); t_channel := ch; t_priority := priority;
     t_seq := seq; t_stream_id := stream_id; t_first_sent_ms := now;
     t_last_sent_ms := now; t_retries := 0;
     t_bytes := build_packet MESH_V2_TYPE_RELIABLE_DATA (local_session c)
                  (c_local_mac (cfg c))
                  (encode_rh (data_hdr c p ch priority seq stream_id fragments i now payload)
                   ++ chunk_of payload i) |}.

Definition count_overflow (p : nat) : Rel W unit :=
  mod_peer p (fun s => s <| p_overflow_count ::= fun n => u32 (n + 1) |>).

(** Filling the slots of a message; [None] when a slot was missing and the
    message was given up. *)
Fixpoint submit_slots (p : nat) (ch priority stream_id fragments first_seq : Z)
  (payload : bytes) (idxs : list Z) (slots : list nat) : Rel W (option (list nat)) :=
  match idxs with
  | [] => mret (Some slots)
  | i :: idxs =>
      c ← get_ctx;
      let seq := next_of c p ch in
      set_next p ch (u32 (seq + 1));;
      match tx_alloc c p priority with
      | None =>
          for_each slots (fun j => mod_tx j (fun _ => tx_zero));;
          let last_seq := u32 (first_seq + fragments - 1) in
          set_next p ch (u32 (last_seq + 1));;
          count_overflow p;;
          _ ← send_lost p ch MESH_V2_LOST_REASON_OVERFLOW first_seq last_seq;
          mret None
      | Some j =>
          now ← now_ms;
          mod_tx j (fun _ => data_slot c p ch priority seq stream_id fragments i now payload);;
          submit_slots p ch priority stream_id fragments first_seq payload idxs (slots ++ [j])
      end
  end.

(** The first transmission of the slots; the first transport error wins. *)
Fixpoint submit_send (p : nat) (slots : list nat) (first_err : esp_err_t)
  : Rel W esp_err_t :=
  match slots with
  | [] => mret first_err
  | j :: slots =>
      c ← get_ctx;
      err ← raw_send (Peer_mac p) (Tx_bytes j (length (t_bytes (tx_at c j))))
              MESH_V2_TYPE_RELIABLE_DATA;
      submit_send p slots
        (if negb (err_eqb err ESP_OK) && err_eqb first_err ESP_OK then err else first_err)
  end.

Definition take_stream_id : Rel W Z :=
  let next := (c ← get_ctx;
               mod_ctx (fun c => c <| next_stream_id ::= fun n => u32 (n + 1) |>);;
               mret (next_stream_id c)) in
  id ← next; if id =? 0 then next else mret id.

Definition forced_overflow : Rel W bool :=
  c ← get_ctx;
  if c_fault_overflow_every (cfg c) =? 0 then mret false
  else
    let n := u32 (overflow_counter c + 1) in
    mod_ctx (fun c => c <| overflow_counter := n |>);;
    mret (n mod c_fault_overflow_every (cfg c) =? 0).

Definition keemash_rel_submit (peer_mac : option bytes) (ch : Z) (payload : bytes)
  (priority : Z) : Rel W (esp_err_t * keemash_rel_submit_info_t) :=
  let payload_len := Z.of_nat (length payload) in
  if (payload_len =? 0) || (ch =? 0) || (KM_CHANNEL_COUNT <=? ch)
     || (KM_MESSAGE_MAX <? payload_len) then mret (ESP_ERR_INVALID_ARG, info_zero)
  else
    found ← peer_find peer_mac false;
    c ← get_ctx;
    match found with
    | None => mret (ESP_ERR_INVALID_STATE, info_zero)
    | Some p =>
        if negb (p_ready (peer_at c p)) then mret (ESP_ERR_INVALID_STATE, info_zero)
        else
          let fragments := fragments_of payload_len in
          if (fragments =? 0) || (MESH_V2_RELIABLE_MAX_FRAGMENTS <? fragments)
          then mret (ESP_ERR_INVALID_SIZE, info_zero)
          else
            let first_seq := next_of c p ch in
            stream_id ← take_stream_id;
            forced ← forced_overflow;
            c ← get_ctx;
            if (forced : bool) || (Z.of_nat (tx_available c p priority) <? fragments) then
              let last_seq := u32 (first_seq + fragments - 1) in
              set_next p ch (u32 (next_of c p ch + fragments));;
              count_overflow p;;
              _ ← send_lost p ch MESH_V2_LOST_REASON_OVERFLOW first_seq last_seq;
              mret (ESP_ERR_NO_MEM, info_zero)
            else
              filled ← submit_slots p ch priority stream_id fragments first_seq payload
                         (seqZ 0 fragments) [];
              match filled with
              | None => mret (ESP_ERR_NO_MEM, info_zero)
              | Some slots =>
                  c ← get_ctx;
                  first_err ← (if p_route_up (peer_at c p) then submit_send p slots ESP_OK
                               else mret ESP_ERR_INVALID_STATE);
                  mret (ESP_OK, {| si_state := KEEMASH_REL_SUBMIT_ACCEPTED_QUEUED;
                                   si_initial_transport_err := first_err;
                                   si_stream_id := stream_id |})
              end
    end.

Definition keemash_rel_send (peer_mac : option bytes) (ch : Z) (payload : bytes)
  (priority : Z) : Rel W esp_err_t :=
  r ← keemash_rel_submit peer_mac ch payload priority; mret r.1.

(** *** Handlers *)

Definition route_alive (now : Z) (s : peer_state_t) : peer_state_t :=
  s <| p_route_up := true |> <| p_route_down_since_ms := 0 |>
    <| p_last_route_change_ms := now |>.

Definition handle_hello (from : bytes) (hello : mesh_v2_reliable_hello_payload_t)
  : Rel W esp_err_t :=
  c ← get_ctx;
  if negb (c_root_role (cfg c))
     || negb (hello_profile_version hello =? MESH_V2_RELIABLE_PROFILE_VERSION)
  then mret ESP_ERR_NOT_SUPPORTED
  else if negb (Z.land (hello_capabilities hello) required_caps =? required_caps)
          || (hello_mtu hello <? Z.of_nat (sizeof_hdr + sizeof_rh + 1))
          || (hello_reorder_window hello <? MESH_V2_RELIABLE_WINDOW)
  then mret ESP_ERR_NOT_SUPPORTED
  else
    found ← peer_find (Some from) true;
    match found with
    | None => mret ESP_ERR_NO_MEM
    | Some p =>
        c ← get_ctx;
        let reset := negb (p_node_session_id (peer_at c p) =? hello_node_session_id hello)
                     || negb (hello_root_session_seen hello =? local_session c) in
        when reset (clear_peer_buffers p MESH_V2_LOST_REASON_SESSION_RESET);;
        now ← now_ms;
        mod_ctx (fun c => set_peer p (fun s =>
          (route_alive now
            (s <| p_root_session_id := local_session c |>
               <| p_node_session_id := hello_node_session_id hello |>
               <| p_capabilities := hello_capabilities hello |>))
            <| p_ready := true |>) c);;
        c ← get_ctx;
        let ack := {| ha_profile_version := MESH_V2_RELIABLE_PROFILE_VERSION;
                      ha_mtu := MESH_V2_PACKET_MAX; ha_capabilities := root_caps;
                      ha_root_session_id := local_session c;
                      ha_node_session_id := hello_node_session_id hello;
                      ha_reset_link := if reset then 1 else 0 |} in
        send_packet (Mac_at from) MESH_V2_TYPE_RELIABLE_HELLO_ACK (local_session c)
          (encode_hello_ack ack)
    end.

Definition handle_hello_ack (from : bytes) (ack : mesh_v2_reliable_hello_ack_payload_t)
  : Rel W esp_err_t :=
  c ← get_ctx;
  if c_root_role (cfg c)
     || negb (ha_profile_version ack =? MESH_V2_RELIABLE_PROFILE_VERSION)
     || negb (ha_node_session_id ack =? local_session c)
     || negb (Z.land (ha_capabilities ack) required_caps =? required_caps)
  then mret ESP_ERR_INVALID_STATE
  else
    found ← peer_find (Some from) true;
    match found with
    | None => mret ESP_ERR_NO_MEM
    | Some p =>
        c ← get_ctx;
        let s := peer_at c p in
        let same_binding := p_ready s && (p_root_session_id s =? ha_root_session_id ack)
                            && (p_node_session_id s =? ha_node_session_id ack) in
        let session_changed :=
          negb (p_root_session_id s =? 0)
            && negb (p_root_session_id s =? ha_root_session_id ack)
          || negb (p_node_session_id s =? 0)
            && negb (p_node_session_id s =? ha_node_session_id ack) in
        when (session_changed || negb (ha_reset_link ack =? 0) && negb same_binding)
          (clear_peer_buffers p MESH_V2_LOST_REASON_SESSION_RESET);;
        now ← now_ms;
        now' ← now_ms;
        mod_ctx (fun c => set_peer p (fun s =>
          (route_alive now
            (s <| p_root_session_id := ha_root_session_id ack |>
               <| p_node_session_id := local_session c |>
               <| p_capabilities := ha_capabilities ack |>))
            <| p_ready := true |> <| p_last_ack_ms := now' |>) c);;
        mret ESP_OK
    end.

Definition data_rejected (c : keemash_rel_ctx_t) (from : bytes)
  (rh : mesh_v2_reliable_hdr_t) (payload_space : Z) : bool :=
  (rh_channel_id rh =? 0) || (KM_CHANNEL_COUNT <=? rh_channel_id rh)
  || (payload_space <? rh_payload_len rh)
  || (MESH_V2_RELIABLE_INNER_MAX <? rh_payload_len rh)
  || (rh_fragment_count rh =? 0)
  || (MESH_V2_RELIABLE_MAX_FRAGMENTS <? rh_fragment_count rh)
  || (rh_fragment_count rh <=? rh_fragment_index rh)
  || (1 <? rh_fragment_count rh)
     && negb (has_flag (rh_flags rh) MESH_V2_RELIABLE_FLAG_FRAGMENT)
  || negb (mac_eq (rh_origin_mac rh) from)
  || negb (mac_eq (rh_target_mac rh) (c_local_mac (cfg c))).

(** The session both ends agreed on. *)
Definition session_bound (s : peer_state_t) (root node : Z) : bool :=
  p_ready s && (p_root_session_id s =? root) && (p_node_session_id s =? node).

(** LATEST semantics of the TIME channel: a newer sample overtakes whatever
    is buffered before it. *)
Definition overtake (p : nat) (ch rseq : Z) : Rel W unit :=
  mod_ctx (fun c => c <| rx ::= clear_if (fun r => r_used r && (r_channel r =? ch)
                            && mac_eq (r_peer r) (p_mac (peer_at c p))) rx_zero |>);;
  mod_peer p (fun s => s <| p_pending_lost ::=
                clear_if (fun l => l_used l && (l_channel l =? ch)) lost_zero |>);;
  set_expected p ch rseq.

(** Past the guards: classify the sequence number and acknowledge. *)
Definition accept_data (p : nat) (rh : mesh_v2_reliable_hdr_t) (payload : bytes)
  (expected : Z) : Rel W esp_err_t :=
  let ch := rh_channel_id rh in
  if seq_before (rh_seq rh) expected then send_ack p rh false
  else if rh_seq rh =? expected then
    c ← get_ctx;
    set_expected p ch (u32 (expected_of c p ch + 1));;
    deliver_fragment p rh payload;;
    consume_contiguous p ch;;
    send_ack p rh false
  else if MESH_V2_RELIABLE_WINDOW <=? u32 (rh_seq rh - expected) then send_ack p rh true
  else
    c ← get_ctx;
    match rx_find c p ch (rh_seq rh) with
    | Some _ => send_ack p rh true
    | None =>
        match rx_alloc c p with
        | None =>
            count_overflow p;;
            receiver_drop_range p ch MESH_V2_LOST_REASON_OVERFLOW (rh_seq rh) (rh_seq rh);;
            mret ESP_ERR_NO_MEM
        | Some i =>
            mod_rx i (fun _ =>
              {| r_used := true; r_peer := p_mac (peer_at c p); r_channel := ch;
                 r_seq := rh_seq rh; r_hdr := rh;
                 r_payload := take (Z.to_nat (rh_payload_len rh)) payload |});;
            send_ack p rh true
        end
    end.

Definition handle_data (from : bytes) (rh : mesh_v2_reliable_hdr_t) (payload : bytes)
  : Rel W esp_err_t :=
  c ← get_ctx;
  if data_rejected c from rh (Z.of_nat (length payload)) then mret ESP_ERR_INVALID_ARG
  else
    found ← peer_find (Some from) false;
    c ← get_ctx;
    match found with
    | None => mret ESP_ERR_INVALID_STATE
    | Some p =>
        if negb (session_bound (peer_at c p) (rh_root_session_id rh) (rh_node_session_id rh))
        then mret ESP_ERR_INVALID_STATE
        else
          let ch := rh_channel_id rh in
          now ← now_ms;
          mod_peer p (fun s => s <| p_route_up := true |> <| p_route_down_since_ms := 0 |>
            <| p_last_rx_ms := now |>
            <| p_replay_count ::= fun n =>
                 if has_flag (rh_flags rh) MESH_V2_RELIABLE_FLAG_REPLAY
                 then u32 (n + 1) else n |>);;
          let expected := expected_of c p ch in
          if has_flag (rh_flags rh) MESH_V2_RELIABLE_FLAG_LATEST then
            if negb (ch =? MESH_V2_TUNNEL_CHANNEL_TIME)
               || negb (rh_fragment_count rh =? 1) then mret ESP_ERR_INVALID_ARG
            else if seq_before expected (rh_seq rh) then
              overtake p ch (rh_seq rh);;
              accept_data p rh payload (rh_seq rh)
            else accept_data p rh payload expected
          else accept_data p rh payload expected
    end.

Definition handle_ack_packet (from : bytes) (ack : mesh_v2_reliable_ack_payload_t)
  (nack : bool) : Rel W esp_err_t :=
  found ← peer_find (Some from) false;
  c ← get_ctx;
  match found with
  | None => mret ESP_ERR_INVALID_STATE
  | Some p =>
      if negb (session_bound (peer_at c p) (ack_root_session_id ack) (ack_node_session_id ack))
         || (ack_channel_id ack =? 0) || (KM_CHANNEL_COUNT <=? ack_channel_id ack)
         || negb (mac_eq (ack_origin_mac ack) (c_local_mac (cfg c)))
         || negb (mac_eq (ack_target_mac ack) from) then mret ESP_ERR_INVALID_STATE
      else
        mod_peer p (fun s => s <| p_route_up := true |> <| p_route_down_since_ms := 0 |>);;
        ack_slots p ack;;
        if nack && negb (ack_nack_seq ack =? 0) then
          c ← get_ctx;
          match tx_find c p (ack_channel_id ack) (ack_nack_seq ack) with
          | Some i => retransmit_slot p i
          | None => send_lost p (ack_channel_id ack) MESH_V2_LOST_REASON_OVERFLOW
                      (ack_nack_seq ack) (ack_nack_seq ack)
          end
        else mret ESP_OK
  end.

Definition drop_tx_in (mac : bytes) (ch first last : Z) (t : tx_slot_t) : bool :=
  t_used t && (t_channel t =? ch) && mac_eq (t_peer t) mac
  && seq_in_range (t_seq t) first last.

Definition handle_lost_packet (from : bytes) (lost : mesh_v2_reliable_lost_payload_t)
  : Rel W esp_err_t :=
  found ← peer_find (Some from) false;
  c ← get_ctx;
  match found with
  | None => mret ESP_ERR_INVALID_STATE
  | Some p =>
      let ch := lost_channel_id lost in
      let first := lost_seq_first lost in
      let last := lost_seq_last lost in
      if negb (session_bound (peer_at c p) (lost_root_session_id lost)
                 (lost_node_session_id lost))
         || (ch =? 0) || (KM_CHANNEL_COUNT <=? ch)
         || negb (mac_eq (lost_origin_mac lost) from)
         || negb (mac_eq (lost_target_mac lost) (c_local_mac (cfg c)))
      then mret ESP_ERR_INVALID_STATE
      else
        let record := record_lost p ch (lost_reason lost) first last (lost_span first last) in
        let expected := expected_of c p ch in
        if has_flag (lost_rsv lost) MESH_V2_LOST_FLAG_RECEIVER_DROP then
          mod_ctx (fun c => c <| tx ::= clear_if (drop_tx_in (p_mac (peer_at c p)) ch
                                                    first last) tx_zero |>);;
          record;;
          mret ESP_OK
        else if seq_in_range expected first last then
          set_expected p ch (u32 (last + 1));;
          consume_contiguous p ch;;
          record;;
          mret ESP_OK
        else if seq_before expected first then
          let '(added, ranges) :=
            pending_lost_add ch first last (p_pending_lost (peer_at c p)) in
          mod_peer p (fun s => s <| p_pending_lost := ranges |>);;
          if added then record;; mret ESP_OK
          else clear_peer_buffers p MESH_V2_LOST_REASON_OVERFLOW;; mret ESP_ERR_NO_MEM
        else record;; mret ESP_OK
  end.

Definition keemash_rel_handle_rx (from packet : bytes) : Rel W esp_err_t :=
  match packet_valid packet with
  | None => mret ESP_ERR_INVALID_CRC
  | Some (h, payload) =>
      let short n := h_payload_len h <? Z.of_nat n in
      let type := h_type h in
      if negb (mac_eq (h_src_mac h) from) then mret ESP_ERR_INVALID_ARG
      else if type =? MESH_V2_TYPE_RELIABLE_HELLO then
        if short sizeof_hello then mret ESP_ERR_INVALID_SIZE
        else handle_hello from (decode_hello payload)
      else if type =? MESH_V2_TYPE_RELIABLE_HELLO_ACK then
        if short sizeof_hello_ack then mret ESP_ERR_INVALID_SIZE
        else handle_hello_ack from (decode_hello_ack payload)
      else if type =? MESH_V2_TYPE_RELIABLE_DATA then
        if short sizeof_rh then mret ESP_ERR_INVALID_SIZE
        else handle_data from (decode_rh payload) (drop sizeof_rh payload)
      else if (type =? MESH_V2_TYPE_RELIABLE_ACK) || (type =? MESH_V2_TYPE_RELIABLE_NACK) then
        if short sizeof_ack then mret ESP_ERR_INVALID_SIZE
        else handle_ack_packet from (decode_ack payload) (type =? MESH_V2_TYPE_RELIABLE_NACK)
      else if type =? MESH_V2_TYPE_RELIABLE_LOST then
        if short sizeof_lost then mret ESP_ERR_INVALID_SIZE
        else handle_lost_packet from (decode_lost payload)
      else mret ESP_ERR_NOT_SUPPORTED
  end.

(** *** Periodic poll *)

Definition route_expired (c : keemash_rel_ctx_t) (now : Z) (s : peer_state_t) : bool :=
  p_used s && p_ready s && negb (p_route_up s) && negb (p_route_down_since_ms s =? 0)
  && (c_route_grace_ms (cfg c) <=? u32 (now - p_route_down_since_ms s)).

Definition poll_route (now : Z) (i : nat) : Rel W unit :=
  c ← get_ctx;
  when (route_expired c now (peer_at c i))
    (clear_peer_buffers i MESH_V2_LOST_REASON_ROUTE_TIMEOUT).

(** The first slot of the peer and priority whose timeout has passed. *)
Definition tx_due (c : keemash_rel_ctx_t) (p : nat) (priority now : Z) : option nat :=
  let s := peer_at c p in
  find_idx (fun t => t_used t && (t_priority t =? priority) && mac_eq (t_peer t) (p_mac s)
                     && (p_rto_ms s <=? u32 (now - t_last_sent_ms t))) (tx c).

(** One (priority, peer) step; [Some tt] leaves both loops. *)
Definition poll_tx (now : Z) (step : Z * nat) : Rel W (option unit) :=
  let '(priority, k) := step in
  c ← get_ctx;
  let p := ((poll_peer_cursor c + k) mod c_max_peers (cfg c))%nat in
  let s := peer_at c p in
  if negb (p_used s && p_ready s && p_route_up s) then mret None
  else
    match tx_due c p priority now with
    | None => mret None
    | Some i =>
        let t := tx_at c i in
        if c_max_retries (cfg c) <=? t_retries t then
          _ ← send_lost_packet p (t_channel t) MESH_V2_LOST_REASON_RETRY_EXHAUSTED 0
                (t_seq t) (t_seq t);
          clear_peer_buffers p MESH_V2_LOST_REASON_RETRY_EXHAUSTED;;
          c ← get_ctx;
          mod_peer p (fun s => if c_root_role (cfg c) then s <| p_node_session_id := 0 |>
                               else s <| p_root_session_id := 0 |>);;
          mret (Some tt)
        else
          _ ← retransmit_slot p i;
          mret None
    end.

Definition poll_steps (max_peers : nat) : list (Z * nat) :=
  priority ← [4; 3; 2; 1; 0]; k ← seq 0 max_peers; [(priority, k)].

Definition poll_reasm (now : Z) (i : nat) : Rel W unit :=
  c ← get_ctx;
  let a := reasm_at c i in
  when (a_used a && (c_fragment_timeout_ms (cfg c) <=? u32 (now - a_last_ms a)))
    (found ← peer_find (Some (a_peer a)) false;
     match found with
     | None => mret tt
     | Some p =>
         record_lost p (a_channel a) MESH_V2_LOST_REASON_FRAGMENT_TIMEOUT
           (a_first_seq a) (reasm_last a) (a_fragment_count a);;
         _ ← send_lost_packet p (a_channel a) MESH_V2_LOST_REASON_FRAGMENT_TIMEOUT
               MESH_V2_LOST_FLAG_RECEIVER_DROP (a_first_seq a) (reasm_last a);
         mret tt
     end;;
     mod_reasm i (fun _ => reasm_zero)).

Definition keemash_rel_poll : Rel W unit :=
  now ← now_ms;
  flush_delayed_packet now;;
  c ← get_ctx;
  for_each (seq 0 (c_max_peers (cfg c))) (poll_route now);;
  _ ← for_until (poll_steps (c_max_peers (cfg c))) (poll_tx now) (mret tt);
  mod_ctx (fun c => c <| poll_peer_cursor ::=
             fun n => ((n + 1) mod c_max_peers (cfg c))%nat |>);;
  for_each (seq 0 (c_reassembly_slots (cfg c))) (poll_reasm now).

(** *** The other public functions *)

(** [peer_find(ctx, mac, false)] and a continuation for the peer found. *)
Definition with_peer {A} (peer_mac : option bytes) (none : A) (k : nat -> Rel W A)
  : Rel W A :=
  found ← peer_find peer_mac false;
  match found with None => mret none | Some p => k p end.

Definition channel_valid (ch : Z) : bool := negb (ch =? 0) && (ch <? KM_CHANNEL_COUNT).

Definition keemash_rel_reset_peer (peer_mac : option bytes) (reason : Z) : Rel W unit :=
  with_peer peer_mac tt (fun p => clear_peer_buffers p reason).

Definition keemash_rel_peer_ready (peer_mac : option bytes) : Rel W bool :=
  with_peer peer_mac false (fun p => c ← get_ctx; mret (p_ready (peer_at c p))).

Definition age (now since none : Z) : Z := if since =? 0 then none else u32 (now - since).

Definition keemash_rel_stats (peer_mac : option bytes) : Rel W (option keemash_rel_stats_t) :=
  with_peer peer_mac None (fun p =>
    now ← now_ms;
    c ← get_ctx;
    let s := peer_at c p in
    mret (Some
      {| st_seen := true; st_ready := p_ready s; st_root_session_id := p_root_session_id s;
         st_node_session_id := p_node_session_id s; st_tx_unacked := tx_unacked c p;
         st_reorder_depth := rx_depth c p; st_rto_ms := p_rto_ms s;
         st_retry_count := p_retry_count s;
         st_ack_age_ms := age now (p_last_ack_ms s) UINT32_MAX;
         st_rtt_ms := p_srtt_ms s; st_overflow_count := p_overflow_count s;
         st_replay_count := p_replay_count s; st_lost_count := p_lost_count s;
         st_lost_reason := p_lost_reason s; st_route_up := p_route_up s;
         st_route_down_age_ms := age now (p_route_down_since_ms s) 0;
         st_last_rx_age_ms := age now (p_last_rx_ms s) UINT32_MAX;
         st_capabilities := p_capabilities s |})).

Definition keemash_rel_channel_unacked (peer_mac : option bytes) (ch : Z) : Rel W nat :=
  if negb (channel_valid ch) then mret 0%nat
  else with_peer peer_mac 0%nat (fun p => c ← get_ctx; mret (channel_unacked c p ch)).

Definition tx_on (mac : bytes) (ch : Z) (t : tx_slot_t) : bool :=
  t_used t && (t_channel t =? ch) && mac_eq (t_peer t) mac.

Definition keemash_rel_supersede_channel (peer_mac : option bytes) (ch : Z) : Rel W nat :=
  if negb (is_some peer_mac) || negb (channel_valid ch) then mret 0%nat
  else with_peer peer_mac 0%nat (fun p =>
    c ← get_ctx;
    let mac := p_mac (peer_at c p) in
    mod_ctx (fun c => c <| tx ::= clear_if (tx_on mac ch) tx_zero |>);;
    mret (count_if (tx_on mac ch) (tx c))).

Definition keemash_rel_peer_route (peer_mac : option bytes) (route_up : bool)
  : Rel W esp_err_t :=
  found ← peer_find peer_mac route_up;
  c ← get_ctx;
  match found with
  | None => mret (if route_up then ESP_ERR_NO_MEM else ESP_ERR_NOT_FOUND)
  | Some p =>
      if Bool.eqb (p_route_up (peer_at c p)) route_up then mret ESP_OK
      else
        now ← now_ms;
        mod_peer p (fun s => s <| p_route_up := route_up |>
          <| p_last_route_change_ms := now |>
          <| p_route_down_since_ms := if route_up then 0 else now |>);;
        when route_up
          (mod_ctx (fun c => c <| tx ::= fmap (fun t =>
             if tx_of (p_mac (peer_at c p)) t then t <| t_last_sent_ms := 0 |> else t) |>));;
        mret ESP_OK
  end.

Definition keemash_rel_remove_peer (peer_mac : option bytes) : Rel W esp_err_t :=
  with_peer peer_mac ESP_ERR_NOT_FOUND (fun p =>
    c ← get_ctx;
    if negb (tx_unacked c p =? 0)%nat || negb (rx_depth c p =? 0)%nat
       || negb (reassembly_depth c p =? 0)%nat then mret ESP_ERR_INVALID_STATE
    else mod_peer p (fun _ => peer_zero);; mret ESP_OK).

Definition keemash_rel_peer_capabilities (peer_mac : option bytes) : Rel W Z :=
  with_peer peer_mac 0 (fun p => c ← get_ctx; mret (p_capabilities (peer_at c p))).

(** *** The debug entry points *)

Definition with_ready_peer (peer_mac : option bytes) (ch : Z) (k : nat -> Rel W esp_err_t)
  : Rel W esp_err_t :=
  if negb (channel_valid ch) then mret ESP_ERR_INVALID_ARG
  else with_peer peer_mac ESP_ERR_INVALID_STATE (fun p =>
    c ← get_ctx;
    if negb (p_ready (peer_at c p)) then mret ESP_ERR_INVALID_STATE else k p).

Definition keemash_rel_debug_force_next_seq (peer_mac : option bytes) (ch next_seq : Z)
  : Rel W esp_err_t :=
  with_ready_peer peer_mac ch (fun p =>
    set_next p ch (if next_seq =? 0 then 1 else next_seq);; mret ESP_OK).

Definition keemash_rel_debug_force_expected_seq (peer_mac : option bytes) (ch seq : Z)
  : Rel W esp_err_t :=
  with_ready_peer peer_mac ch (fun p => set_expected p ch seq;; mret ESP_OK).

Definition debug_reset_one (i : nat) : Rel W unit :=
  c ← get_ctx;
  when (p_used (peer_at c i))
    (clear_peer_buffers i MESH_V2_LOST_REASON_SESSION_RESET;;
     mod_ctx (fun c => set_peer i (fun s =>
       if c_root_role (cfg c)
       then s <| p_root_session_id := local_session c |> <| p_node_session_id := 0 |>
       else s <| p_root_session_id := 0 |> <| p_node_session_id := local_session c |>) c)).

Definition keemash_rel_debug_reset_local_session : Rel W esp_err_t :=
  session ← new_session_id;
  mod_ctx (fun c => c <| local_session := session |> <| held_valid := false |>
                      <| delayed_valid := false |>);;
  c ← get_ctx;
  for_each (seq 0 (c_max_peers (cfg c))) debug_reset_one;;
  mret ESP_OK.

Definition keemash_rel_debug_force_fragment_timeout (peer_mac : option bytes) (ch : Z)
  : Rel W esp_err_t :=
  with_ready_peer peer_mac ch (fun p =>
    c ← get_ctx;
    match find_idx (fun a => negb (a_used a)) (reassembly c) with
    | None => mret ESP_ERR_NO_MEM
    | Some i =>
        stream_id ← take_stream_id;
        now ← now_ms;
        mod_reasm i (fun _ =>
          reasm_zero <| a_used := true |> <| a_peer := p_mac (peer_at c p) |>
            <| a_channel := ch |> <| a_stream_id := stream_id |>
            <| a_first_seq := expected_of c p ch |> <| a_fragment_count := 2 |>
            <| a_fragment_len ::= <[0%nat := 1]> |> <| a_received_mask := 1 |>
            <| a_data ::= <[0%nat := 0xA5]> |>
            <| a_last_ms := u32 (now - c_fragment_timeout_ms (cfg c) - 1) |>);;
        mret ESP_OK
    end).

Definition keemash_rel_debug_force_retry_exhausted (peer_mac : option bytes) (ch : Z)
  : Rel W esp_err_t :=
  with_ready_peer peer_mac ch (fun p =>
    c ← get_ctx;
    match tx_alloc c p KEEMASH_REL_PRIORITY_CONTROL with
    | None => mret ESP_ERR_NO_MEM
    | Some j =>
        let seq := next_of c p ch in
        set_next p ch (u32 (seq + 1));;
        stream_id ← take_stream_id;
        now ← now_ms;
        let rh :=
          {| rh_channel_id := ch; rh_flags := MESH_V2_RELIABLE_FLAG_URGENT;
             rh_priority := KEEMASH_REL_PRIORITY_CONTROL; rh_fragment_count := 1;
             rh_payload_len := 1; rh_fragment_index := 0; rh_stream_id := stream_id;
             rh_seq := seq; rh_tx_ms := now;
             rh_root_session_id := p_root_session_id (peer_at c p);
             rh_node_session_id := p_node_session_id (peer_at c p);
             rh_origin_mac := c_local_mac (cfg c);
             rh_target_mac := peer_send_mac c p |} in
        mod_tx j (fun _ =>
          {| t_used := true; t_peer := p_mac (peer_at c p); t_channel := ch;
             t_priority := KEEMASH_REL_PRIORITY_CONTROL; t_seq := seq;
             t_stream_id := stream_id; t_first_sent_ms := now;
             t_last_sent_ms := u32 (now - p_rto_ms (peer_at c p) - 1);
             t_retries := c_max_retries (cfg c);
             t_bytes := build_packet MESH_V2_TYPE_RELIABLE_DATA (local_session c)
                          (c_local_mac (cfg c)) (encode_rh rh ++ [0x5A]) |});;
        mret ESP_OK
    end).
End Api.
