(* ===== verification/RelEnv.v ===== *)
(** * A recording environment for the reliable layer

    The concrete environment used by the witnesses and by the statements about
    what is delivered: the clock stands still inside a call, random numbers
    come from a counter, and every callback appends to a log. *)

From S2P Require Import Prelude.
From S2P Require Import Words.
From S2P Require Import Esp.
From S2P Require Import MeshProto.
From S2P Require Import MeshWire.
From S2P Require Import RelState.
#[local] Open Scope Z_scope.

Inductive rel_event :=
  | Sent (dst packet : bytes)
  | Delivered (mac : bytes) (ch : Z) (payload : bytes) (stream_id : Z)
  | Lost (mac : bytes) (ch reason first last : Z).

Record world := { w_clock_us : Z; w_random : Z; w_send_err : esp_err_t; w_log : list rel_event }.

#[export] Instance eta_world : Eta world := fun w =>
  Build_world (w_clock_us w) (w_random w) (w_send_err w) (w_log w).

Definition log_event {C} (e : rel_event) : ST (C * world) unit :=
  modify (fun s => (s.1, s.2 <| w_log ::= fun l => l ++ [e] |>)).

#[export] Instance log_env : Env world := {|
  esp_timer_get_time := gets w_clock_us;
  esp_random := fun w => (w_random w, w <| w_random ::= fun n => u32 (n + 1) |>);
  cb_send := fun dst packet => log_event (Sent dst packet);; gets (fun s => w_send_err s.2);
  cb_deliver := fun mac ch payload stream_id => log_event (Delivered mac ch payload stream_id);
  cb_event := fun mac ch reason first last => log_event (Lost mac ch reason first last) |}.

(** The deliveries of one channel, in order. *)
Definition delivery (ch : Z) (e : rel_event) : option (bytes * Z) :=
  match e with
  | Delivered _ ch' payload stream_id => if ch' =? ch then Some (payload, stream_id) else None
  | _ => None
  end.
Definition deliveries (ch : Z) (log : list rel_event) : list (bytes * Z) :=
  omap (delivery ch) log.

Lemma deliveries_app ch a b : deliveries ch (a ++ b) = deliveries ch a ++ deliveries ch b.
Proof.
  unfold deliveries. induction a as [|e a IH]; [done|]. cbn.
  destruct (delivery ch e); cbn; by rewrite IH.
Qed.

Definition world_at (clock_us random : Z) : world :=
  {| w_clock_us := clock_us; w_random := random; w_send_err := ESP_OK; w_log := [] |}.

(** A small configuration, as the self-test of the sources uses it. *)
Definition sample_config (root : bool) (mac : bytes) : keemash_rel_config_t :=
  {| c_root_role := root; c_local_mac := mac; c_max_peers := if root then 2%nat else 1%nat;
     c_tx_slots := 32; c_rx_slots := 32; c_reassembly_slots := 4;
     c_reserved_control_slots := 4; c_per_peer_tx_slots := 0; c_per_peer_rx_slots := 0;
     c_per_peer_reassembly_slots := 0; c_per_peer_control_reserve := 0;
     c_route_grace_ms := 0; c_stale_peer_ms := 0; c_initial_rto_ms := 500;
     c_min_rto_ms := 250; c_max_rto_ms := 2000; c_fragment_timeout_ms := 1000;
     c_max_retries := 5; c_fault_drop_data_every := 0; c_fault_drop_ack_every := 0;
     c_fault_drop_nack_every := 0; c_fault_duplicate_every := 0; c_fault_delay_every := 0;
     c_fault_delay_ms := 0; c_fault_reorder_every := 0; c_fault_overflow_every := 0;
     c_send := true; c_deliver := true; c_event := true |}.
Definition root_mac : bytes := [2; 0; 0; 0; 0; 1].
Definition node_mac : bytes := [2; 0; 0; 0; 0; 2].
