(* ===== verification/RelQuiet.v ===== *)
(** * Transmissions and loss records, for any frame condition

    Sending a packet, reporting a loss and giving up a peer's buffers only
    touch counters, the fault-injection buffers and the slots they free.
    [Quiet R] lists these primitive updates; for every preorder [R] with an
    instance (the invariant, the consumption measure, the frame of in-order
    delivery) the lemmas below give the composed operations. *)

From S2P Require Import Prelude.
From S2P Require Import Words.
From S2P Require Import Esp.
From S2P Require Import MeshProto.
From S2P Require Import MeshWire.
From S2P Require Import RelState.
From S2P Require Import RelCore.
From S2P Require Import RelOps.
#[local] Open Scope Z_scope.

(** The members of a peer other than its statistics and times. *)
Definition peer_core (s : peer_state_t) :=
  (p_used s, p_mac s, p_ready s, p_next_seq s, p_expected_seq s, p_pending_lost s,
   p_srtt_ms s, p_rttvar_ms s).
Definition ctx_core (c : keemash_rel_ctx_t) := (cfg c, peers c, tx c, rx c, reassembly c).

Class Quiet {W} `{!Env W} (R : relation (keemash_rel_ctx_t * W)) : Prop := {
  quiet_pre :: PreOrder R;
  quiet_send : forall dst packet, stable R (cb_send dst packet);
  quiet_event : forall mac ch reason first last, stable R (cb_event mac ch reason first last);
  quiet_now : stable R now_ms;
  quiet_same : forall f, (forall c, ctx_core (f c) = ctx_core c) -> stable R (mod_ctx f);
  quiet_stats : forall p f, (forall s, peer_core (f s) = peer_core s) -> stable R (mod_peer p f);
  quiet_clear_tx : forall P, stable R (mod_ctx (fun c => c <| tx ::= clear_if P tx_zero |>));
  quiet_zero_tx : forall i, stable R (mod_tx i (fun _ => tx_zero));
  quiet_zero_rx : forall i, stable R (mod_rx i (fun _ => rx_zero));
  quiet_zero_reasm : forall i, stable R (mod_reasm i (fun _ => reasm_zero));
  quiet_restart : forall p, stable R (mod_peer p peer_restart) }.

#[export] Hint Resolve quiet_send quiet_event quiet_now quiet_clear_tx quiet_zero_tx
  quiet_zero_rx quiet_zero_reasm quiet_restart : stable.
#[export] Hint Extern 4 (stable _ (mod_ctx _)) =>
  refine (quiet_same _ _); intros ?; reflexivity : stable.
#[export] Hint Extern 4 (stable _ (mod_peer _ _)) =>
  refine (quiet_stats _ _ _); intros ?; reflexivity : stable.

#[export] Hint Extern 0 (Quiet _) => typeclasses eauto : stable.

(** Walk through a program, the state updates left to the hints. *)
Ltac quiet_step :=
  lazymatch goal with
  | |- stable _ ?m => first
      [ solve [eauto 3 with stable nocore]
      | lazymatch m with
        | get_ctx => refine (stable_gets _ _)
        | _ => stable_step
        end ]
  end.
Ltac quiet_go := repeat quiet_step.

Section Quiet.
Context {W : Type} `{!Env W} (R : relation (keemash_rel_ctx_t * W)) `{!Quiet R}.

Lemma quiet_flush now : stable R (flush_delayed_packet now).
Proof. unfold flush_delayed_packet. quiet_go. Qed.
Lemma quiet_notify p ch r f l : stable R (notify_event p ch r f l).
Proof. unfold notify_event. quiet_go. Qed.
Lemma quiet_drop_fault t : stable R (drop_fault t).
Proof. unfold drop_fault. quiet_go. Qed.
Lemma quiet_delay_fault n t d k : stable R (delay_fault n t d k).
Proof. unfold delay_fault. quiet_go. Qed.
Lemma quiet_reorder_fault t d k : stable R (reorder_fault t d k).
Proof. unfold reorder_fault. quiet_go. Qed.
Lemma quiet_send_ref d k : stable R (send_ref d k).
Proof. unfold send_ref. quiet_go. Qed.
Hint Resolve quiet_send_ref : stable.
Lemma quiet_duplicate_fault t d k : stable R (duplicate_fault t d k).
Proof. unfold duplicate_fault. quiet_go. Qed.
Lemma quiet_release_held : stable R release_held.
Proof. unfold release_held. quiet_go. Qed.
Hint Resolve quiet_flush quiet_notify quiet_drop_fault quiet_delay_fault
  quiet_reorder_fault quiet_duplicate_fault quiet_release_held : stable.

Lemma quiet_raw_send d k t : stable R (raw_send d k t).
Proof. unfold raw_send. quiet_go. Qed.
Hint Resolve quiet_raw_send : stable.
Lemma quiet_send_packet d t i k : stable R (send_packet d t i k).
Proof. unfold send_packet. quiet_go. Qed.
Lemma quiet_record_lost p ch r f l n : stable R (record_lost p ch r f l n).
Proof. unfold record_lost. quiet_go. Qed.
Hint Resolve quiet_send_packet quiet_record_lost : stable.

Lemma quiet_clear_rx_slot p r i : stable R (clear_rx_slot p r i).
Proof. unfold clear_rx_slot. quiet_go. Qed.
Lemma quiet_clear_reasm_slot p r i : stable R (clear_reasm_slot p r i).
Proof. unfold clear_reasm_slot. quiet_go. Qed.
Lemma quiet_drop_held mac : stable R (mod_ctx (drop_held_for mac)).
Proof.
  refine (quiet_same _ _). intros c. unfold drop_held_for. by repeat split_if.
Qed.
Hint Resolve quiet_clear_rx_slot quiet_clear_reasm_slot quiet_drop_held : stable.
Lemma quiet_clear_peer_buffers p r : stable R (clear_peer_buffers p r).
Proof. unfold clear_peer_buffers. quiet_go. Qed.
Lemma quiet_send_ack p rh n : stable R (send_ack p rh n).
Proof. unfold send_ack. quiet_go. Qed.
Lemma quiet_send_lost_packet p ch r fl f l : stable R (send_lost_packet p ch r fl f l).
Proof. unfold send_lost_packet. quiet_go. Qed.
Hint Resolve quiet_clear_peer_buffers quiet_send_ack quiet_send_lost_packet : stable.
Lemma quiet_send_lost p ch r f l : stable R (send_lost p ch r f l).
Proof. unfold send_lost. quiet_go. Qed.
Lemma quiet_count_overflow p : stable R (count_overflow p).
Proof. unfold count_overflow. quiet_go. Qed.
End Quiet.

#[export] Hint Resolve quiet_send_ref quiet_flush quiet_notify quiet_drop_fault quiet_delay_fault
  quiet_reorder_fault quiet_duplicate_fault quiet_release_held quiet_raw_send
  quiet_send_packet quiet_record_lost quiet_clear_rx_slot quiet_clear_reasm_slot
  quiet_drop_held quiet_clear_peer_buffers quiet_send_ack quiet_send_lost_packet
  quiet_send_lost quiet_count_overflow : stable.
