(* ===== verification/RelInv.v ===== *)
(** * The invariant of the reliable layer

    [ctx_wf]: the arrays have the configured sizes, no two peers share a MAC,
    every peer stays within its transmit, receive and reassembly limits, low
    priority traffic leaves the control reservation free, the receive buffer
    never holds a sequence number twice, and the round-trip estimator stays in
    the range where its 32-bit arithmetic is exact.

    [pres m]: running [m] keeps the invariant.  The callbacks are assumed to
    keep it ([CbKeeps]); the entry points do, so a callback that re-enters the
    library through them meets the assumption. *)

From S2P Require Import Prelude.
From S2P Require Import Words.
From S2P Require Import Esp.
From S2P Require Import MeshProto.
From S2P Require Import MeshWire.
From S2P Require Import RelState.
From S2P Require Import RelCore.
From S2P Require Import RelOps.
From S2P Require Import RelEnv.
From S2P Require Import RelQuiet.
#[local] Open Scope Z_scope.

Record peer_wf (p : peer_state_t) : Prop := {
  pw_next : length (p_next_seq p) = 10%nat;
  pw_expected : length (p_expected_seq p) = 10%nat;
  pw_lost : length (p_pending_lost p) = KM_PENDING_LOST_RANGES;
  pw_srtt : 0 <= p_srtt_ms p <= 60000;
  pw_rttvar : 0 <= p_rttvar_ms p <= 60000 }.

(** The members of a peer the invariant mentions. *)
Definition wf_core (s : peer_state_t) :=
  (p_used s, p_mac s, p_next_seq s, p_expected_seq s, p_pending_lost s, p_srtt_ms s,
   p_rttvar_ms s).

Definition tx_low (t : tx_slot_t) : bool :=
  t_used t && (t_priority t <? KEEMASH_REL_PRIORITY_CONTROL).
Definition tx_low_of (mac : bytes) (t : tx_slot_t) : bool :=
  tx_of mac t && (t_priority t <? KEEMASH_REL_PRIORITY_CONTROL).

Definition peers_distinct (ps : list peer_state_t) : Prop :=
  forall i j p q, ps !! i = Some p -> ps !! j = Some q -> p_used p = true -> p_used q = true ->
  p_mac p = p_mac q -> i = j.

Record ctx_wf (c : keemash_rel_ctx_t) : Prop := {
  wf_peers_len : length (peers c) = c_max_peers (cfg c);
  wf_tx_len : length (tx c) = c_tx_slots (cfg c);
  wf_rx_len : length (rx c) = c_rx_slots (cfg c);
  wf_reasm_len : length (reassembly c) = c_reassembly_slots (cfg c);
  wf_peers : Forall peer_wf (peers c);
  wf_distinct : peers_distinct (peers c);
  wf_tx : forall mac, (count_if (tx_of mac) (tx c) <= c_per_peer_tx_slots (cfg c))%nat;
  wf_tx_low : forall mac, (count_if (tx_low_of mac) (tx c)
    <= c_per_peer_tx_slots (cfg c) - c_per_peer_control_reserve (cfg c))%nat;
  wf_tx_reserve : (count_if tx_low (tx c)
    <= c_tx_slots (cfg c) - c_reserved_control_slots (cfg c))%nat;
  wf_rx : forall mac, (count_if (rx_of mac) (rx c) <= c_per_peer_rx_slots (cfg c))%nat;
  wf_rx_once : forall mac ch seq, (count_if (rx_is mac ch seq) (rx c) <= 1)%nat;
  wf_reasm : forall mac,
    (count_if (reasm_of mac) (reassembly c) <= c_per_peer_reassembly_slots (cfg c))%nat }.

(** ** Slot arrays that only lose slots *)

Definition tx_le (t t' : tx_slot_t) : Prop :=
  t_used t' = false \/
  (t_used t' = t_used t /\ t_peer t' = t_peer t /\ t_priority t' = t_priority t).
Definition rx_le (r r' : rx_slot_t) : Prop := r_used r' = false \/ r' = r.
Definition reasm_le (a a' : reassembly_slot_t) : Prop :=
  a_used a' = false \/ (a_used a' = a_used a /\ a_peer a' = a_peer a).

Lemma count_if_Forall2 {A} (P : A -> bool) (R : A -> A -> Prop) l k :
  (forall x y, R x y -> P y = true -> P x = true) ->
  Forall2 R l k -> (count_if P k <= count_if P l)%nat.
Proof.
  intros H. induction 1 as [|x y l k Hxy _ IH]; cbn; [lia|].
  destruct (P y) eqn:E; [rewrite (H x y Hxy E)|destruct (P x)]; lia.
Qed.

Lemma Forall2_clear_if {A} (R : A -> A -> Prop) (P : A -> bool) z l :
  (forall x, R x x) -> (forall x, R x z) -> Forall2 R l (clear_if P z l).
Proof.
  intros Hr Hz. unfold clear_if. induction l as [|x l IH]; constructor; [|done].
  by destruct (P x).
Qed.

Lemma Forall2_alter {A} (R : A -> A -> Prop) f i (l : list A) :
  (forall x, R x x) -> (forall x, R x (f x)) -> Forall2 R l (alter f i l).
Proof.
  intros Hr Hf. revert i. induction l as [|x l IH]; intros [|i]; constructor; auto.
  clear IH. induction l; constructor; auto.
Qed.

Lemma Forall2_fmap_self {A} (R : A -> A -> Prop) (f : A -> A) l :
  (forall x, R x (f x)) -> Forall2 R l (f <$> l).
Proof. intros H. induction l; constructor; auto. Qed.

Lemma tx_le_refl t : tx_le t t. Proof. right. done. Qed.
Lemma tx_le_zero t : tx_le t tx_zero. Proof. by left. Qed.
Lemma rx_le_refl r : rx_le r r. Proof. by right. Qed.
Lemma rx_le_zero r : rx_le r rx_zero. Proof. by left. Qed.
Lemma reasm_le_refl a : reasm_le a a. Proof. right. done. Qed.
Lemma reasm_le_zero a : reasm_le a reasm_zero. Proof. by left. Qed.
#[export] Hint Resolve tx_le_refl tx_le_zero rx_le_refl rx_le_zero reasm_le_refl
  reasm_le_zero : core.

(** ** Preservation by the primitive updates *)

Lemma wf_same c c' :
  cfg c' = cfg c -> peers c' = peers c -> tx c' = tx c -> rx c' = rx c ->
  reassembly c' = reassembly c -> ctx_wf c -> ctx_wf c'.
Proof. intros E1 E2 E3 E4 E5 []. split; rewrite ?E1, ?E2, ?E3, ?E4, ?E5; done. Qed.

Lemma wf_tx_shrink c ts : Forall2 tx_le (tx c) ts -> ctx_wf c -> ctx_wf (c <| tx := ts |>).
Proof.
  intros H Hwf.
  assert (Hle : forall P : tx_slot_t -> bool,
    (forall x y, tx_le x y -> P y = true -> P x = true) ->
    (count_if P ts <= count_if P (tx c))%nat) by (intros; by eapply count_if_Forall2).
  destruct Hwf. split; cbn; try done.
  - by rewrite <- (Forall2_length H).
  - intros mac. etrans; [apply Hle|done].
    intros x y [E|(E1 & E2 & E3)]; unfold tx_of; [by rewrite E|congruence].
  - intros mac. etrans; [apply Hle|done].
    intros x y [E|(E1 & E2 & E3)]; unfold tx_low_of, tx_of; [by rewrite E|congruence].
  - etrans; [apply Hle|done].
    intros x y [E|(E1 & E2 & E3)]; unfold tx_low; [by rewrite E|congruence].
Qed.

Lemma wf_rx_shrink c rs : Forall2 rx_le (rx c) rs -> ctx_wf c -> ctx_wf (c <| rx := rs |>).
Proof.
  intros H Hwf.
  assert (Hle : forall P : rx_slot_t -> bool, (forall y, P y = true -> r_used y = true) ->
    (count_if P rs <= count_if P (rx c))%nat).
  { intros P HP. eapply count_if_Forall2; [|done]. intros x y [E| ->] Hy; [|done].
    apply HP in Hy. congruence. }
  destruct Hwf. split; cbn; try done.
  - by rewrite <- (Forall2_length H).
  - intros mac. etrans; [apply Hle|done]. unfold rx_of. intros y Hy. by bools.
  - intros mac ch seq. etrans; [apply Hle|done]. unfold rx_is. intros y Hy. by bools.
Qed.

Lemma wf_reasm_shrink c l :
  Forall2 reasm_le (reassembly c) l -> ctx_wf c -> ctx_wf (c <| reassembly := l |>).
Proof.
  intros H Hwf. destruct Hwf. split; cbn; try done.
  - by rewrite <- (Forall2_length H).
  - intros mac. etrans; [eapply count_if_Forall2; [|exact H]|done].
    intros x y [E|(E1 & E2)]; unfold reasm_of; [by rewrite E|congruence].
Qed.

Lemma wf_set_peer c p f :
  (forall s, peer_wf s -> peer_wf (f s)) ->
  (forall s, p_used (f s) = true -> p_used s = true /\ p_mac (f s) = p_mac s) ->
  ctx_wf c -> ctx_wf (set_peer p f c).
Proof.
  intros Hf Hu []. split; cbn; try done.
  - by rewrite length_alter.
  - unfold setter. apply Forall_alter; [done|]. auto.
  - intros i j x y Hi Hj.
    apply list_alter_Some in Hi as [(-> & x' & Hx & ->)|(Hne & Hx)];
    apply list_alter_Some in Hj as [(-> & y' & Hy & ->)|(Hne' & Hy)];
      intros Hux Huy Hm; try done.
    + apply Hu in Hux as [Hux Hmx]. rewrite Hmx in Hm.
      by eapply wf_distinct0.
    + apply Hu in Huy as [Huy Hmy]. rewrite Hmy in Hm. by eapply wf_distinct0.
    + by eapply wf_distinct0.
Qed.

(** Filling a free slot. *)
Lemma count_if_alter_const {A} (P : A -> bool) l i x y :
  l !! i = Some x -> P x = false ->
  count_if P (alter (fun _ => y) i l) = (count_if P l + if P y then 1 else 0)%nat.
Proof.
  intros Hi HP. rewrite alter_const_insert.
  pose proof (count_if_insert P l i x y Hi) as H. rewrite HP in H. lia.
Qed.

Lemma nth_alter_const {A} (l : list A) i y d :
  (i < length l)%nat -> nth i (alter (fun _ => y) i l) d = y.
Proof.
  intros H. rewrite nth_lookup, list_lookup_alter_eq.
  destruct (lookup_lt_is_Some_2 l i H) as [x ->]. done.
Qed.

Lemma count_if_add_le {A} (P : A -> bool) l i x y n :
  l !! i = Some x -> P x = false -> (count_if P l <= n)%nat ->
  (P y = true -> (count_if P l < n)%nat) ->
  (count_if P (alter (fun _ => y) i l) <= n)%nat.
Proof.
  intros Hi HP Hn Hy. rewrite (count_if_alter_const P l i x y Hi HP).
  destruct (P y); [specialize (Hy eq_refl)|]; lia.
Qed.

Lemma tx_free_used c : (tx_free c + count_if t_used (tx c) = length (tx c))%nat.
Proof. unfold tx_free. rewrite Nat.add_comm. apply count_if_negb. Qed.

Lemma tx_alloc_spec c p priority i :
  tx_alloc c p priority = Some i ->
  (exists t, tx c !! i = Some t /\ t_used t = false) /\
  (priority < KEEMASH_REL_PRIORITY_CONTROL ->
     (tx_unacked c p < c_per_peer_tx_slots (cfg c) - c_per_peer_control_reserve (cfg c))%nat /\
     (c_reserved_control_slots (cfg c) < tx_free c)%nat) /\
  (priority = KEEMASH_REL_PRIORITY_CONTROL ->
     (tx_unacked c p < c_per_peer_tx_slots (cfg c))%nat).
Proof.
  unfold tx_alloc. repeat split_if; try done. intros Hi.
  apply find_idx_Some in Hi as [(t & Ht & Hu) _]. bools.
  split; [by exists t; bools|].
  rewrite andb_false_iff, !Nat.leb_gt, !Z.ltb_ge, Z.eqb_neq in *. split; intros; lia.
Qed.

Lemma count_low_of_le mac l : (count_if (tx_low_of mac) l <= count_if (tx_of mac) l)%nat.
Proof. apply count_if_mono. unfold tx_low_of. intros. by bools. Qed.
Lemma count_low_le l : (count_if tx_low l <= count_if t_used l)%nat.
Proof. apply count_if_mono. unfold tx_low. intros. by bools. Qed.

(** Above CONTROL [tx_alloc] has no limit of the peer; [tx_available], which
    [keemash_rel_submit] asks first, has. *)
Definition room (c : keemash_rel_ctx_t) (p : nat) (priority : Z) (n : nat) : Prop :=
  KEEMASH_REL_PRIORITY_CONTROL < priority ->
  (tx_unacked c p + n <= c_per_peer_tx_slots (cfg c))%nat.

Lemma wf_tx_fill c p priority i t :
  tx_alloc c p priority = Some i -> room c p priority 1 ->
  t_peer t = p_mac (peer_at c p) -> t_priority t = priority ->
  ctx_wf c -> ctx_wf (set_tx i (fun _ => t) c).
Proof.
  intros Hi Hp Hm Hpr Hwf. apply tx_alloc_spec in Hi as ((x & Hx & Hu) & Hlow & Hctl).
  assert (Hx0 : forall mac, tx_of mac x = false) by (intros; unfold tx_of; by rewrite Hu).
  assert (Hof : forall mac, tx_of mac t = true ->
    count_if (tx_of mac) (tx c) = tx_unacked c p).
  { unfold tx_of at 1, mac_eq. intros mac H. bools. apply bytes_eqb_true in H0. subst mac.
    unfold tx_unacked. by rewrite Hm. }
  pose proof (tx_free_used c). pose proof (count_low_le (tx c)).
  unfold KEEMASH_REL_PRIORITY_CONTROL in *.
  destruct Hwf. split; cbn; try done.
  - by rewrite length_alter.
  - intros mac. eapply count_if_add_le; [done|by auto|done|]. intros H1. rewrite Hof by done.
    destruct (decide (priority < 4)); [destruct Hlow; [done|lia]|].
    destruct (decide (priority = 4)); [apply Hctl; lia|].
    unfold room, KEEMASH_REL_PRIORITY_CONTROL in Hp. lia.
  - intros mac. eapply count_if_add_le; [done|unfold tx_low_of; by rewrite Hx0|done|].
    unfold tx_low_of at 1, KEEMASH_REL_PRIORITY_CONTROL. intros H1. bools.
    pose proof (count_low_of_le mac (tx c)). rewrite Hof in * by done. lia.
  - eapply count_if_add_le; [done|unfold tx_low; by rewrite Hu|done|].
    unfold tx_low at 1, KEEMASH_REL_PRIORITY_CONTROL. intros H1. bools. lia.
Qed.

Lemma tx_unacked_fill c p i t :
  (tx_unacked (set_tx i (fun _ => t) c) p <= S (tx_unacked c p))%nat.
Proof.
  unfold tx_unacked, set_tx. cbn. unfold setter, peer_at. cbn.
  change (nth p (peers c) peer_zero) with (peer_at c p). rewrite alter_const_insert. destruct (tx c !! i) as [x|] eqn:E.
  - pose proof (count_if_insert (tx_of (p_mac (peer_at c p))) (tx c) i x t E).
    destruct (tx_of _ t), (tx_of _ x); lia.
  - rewrite list_insert_ge by (by apply lookup_ge_None). lia.
Qed.

Lemma wf_rx_fill c p i r :
  rx_alloc c p = Some i -> rx_find c p (r_channel r) (r_seq r) = None ->
  r_peer r = p_mac (peer_at c p) -> ctx_wf c -> ctx_wf (set_rx i (fun _ => r) c).
Proof.
  unfold rx_alloc. destruct (_ <=? _)%nat eqn:E; [done|]. apply Nat.leb_gt in E.
  intros Hi Hn Hm Hwf. apply find_idx_Some in Hi as [(x & Hx & Hu) _]. bools.
  destruct Hwf. split; cbn; try done.
  - by rewrite length_alter.
  - intros mac. eapply count_if_add_le; [done|unfold rx_of; by rewrite Hu|done|].
    unfold rx_of at 1, mac_eq. intros H1. bools. apply bytes_eqb_true in H0. subst mac.
    rewrite Hm. exact E.
  - intros mac ch seq. eapply count_if_add_le; [done|unfold rx_is; by rewrite Hu|done|].
    unfold rx_is at 1, mac_eq. intros H1. bools. apply bytes_eqb_true in H0. subst.
    rewrite Hm. apply find_idx_None_count in Hn. lia.
Qed.

Lemma wf_reasm_fill c p i a :
  find_idx (fun a => negb (a_used a)) (reassembly c) = Some i ->
  (reassembly_depth c p < c_per_peer_reassembly_slots (cfg c))%nat ->
  a_peer a = p_mac (peer_at c p) -> ctx_wf c -> ctx_wf (set_reasm i (fun _ => a) c).
Proof.
  intros Hi Hd Hm Hwf. apply find_idx_Some in Hi as [(x & Hx & Hu) _]. bools.
  destruct Hwf. split; cbn; try done.
  - by rewrite length_alter.
  - intros mac. eapply count_if_add_le; [done|unfold reasm_of; by rewrite Hu|done|].
    unfold reasm_of at 1, mac_eq. intros H1. bools. apply bytes_eqb_true in H0. subst mac.
    rewrite Hm. exact Hd.
Qed.

Lemma length_fold_ch_set v chs a :
  length (fold_left (fun a ch => ch_set ch v a) chs a) = length a.
Proof.
  revert a. induction chs as [|ch chs IH]; intros a; [done|]. cbn. rewrite IH.
  unfold ch_set. by rewrite length_insert.
Qed.
#[export] Hint Rewrite length_fold_ch_set : len.

Lemma peer_zero_wf : peer_wf peer_zero.
Proof. split; cbn; try done; lia. Qed.

Lemma new_peer_wf c key mac now : peer_wf (new_peer c key mac now).
Proof. split; cbn; unfold setter; try rewrite length_fold_ch_set; try done; lia. Qed.

Lemma wf_new_peer c key mac now i :
  peer_lookup c key = None -> find_idx (fun p => negb (p_used p)) (peers c) = Some i ->
  ctx_wf c -> ctx_wf (set_peer i (fun _ => new_peer c key mac now) c).
Proof.
  intros Hn Hi Hwf. pose proof (find_idx_None _ _ Hn) as Hno. cbn beta in Hno.
  destruct Hwf. split; cbn; try done.
  - by rewrite length_alter.
  - apply Forall_alter; [done|]. intros. apply new_peer_wf.
  - assert (Hkey : forall j y, peers c !! j = Some y -> p_used y = true -> p_mac y = key -> False).
    { intros j y Hy Hu Hm. specialize (Hno y ltac:(by eapply list_elem_of_lookup_2)).
      rewrite Hu, Hm in Hno. unfold mac_eq in Hno. rewrite bytes_eqb_refl in Hno. done. }
    intros j k x y Hj Hk.
    apply list_alter_Some in Hj as [(-> & x' & Hx & ->)|(Hne & Hx)];
    apply list_alter_Some in Hk as [(-> & y' & Hy & ->)|(Hne' & Hy)];
      intros Hux Huy Hm; try done.
    + exfalso. eapply (Hkey k y); eauto.
    + exfalso. eapply (Hkey j x); eauto.
    + by eapply wf_distinct0.
Qed.

(** ** Every operation keeps the invariant *)

Definition wf_state {W} (s : keemash_rel_ctx_t * W) : Prop := ctx_wf s.1.
Abbreviation pres m := (stable (keeps wf_state) m).

Class CbKeeps (W : Type) `{!Env W} : Prop := {
  cb_send_pres : forall dst packet, pres (cb_send dst packet);
  cb_deliver_pres : forall mac ch payload stream, pres (cb_deliver mac ch payload stream);
  cb_event_pres : forall mac ch reason first last, pres (cb_event mac ch reason first last) }.

#[export] Hint Resolve cb_send_pres cb_deliver_pres cb_event_pres : stable.

(** A statement of a program, the state it starts in being known to be
    well-formed. *)
Ltac pres_step :=
  lazymatch goal with
  | |- stable _ get_ctx => refine (stable_gets _ _)
  | |- stable _ (mod_ctx _) => refine (stable_modify _ _ _); intros ?s ?Hwf; unfold wf_state in *; cbn [fst]
  | |- stable _ (mod_peer _ _) => unfold mod_peer
  | |- stable _ (mod_tx _ _) => unfold mod_tx
  | |- stable _ (mod_rx _ _) => unfold mod_rx
  | |- stable _ (mod_reasm _ _) => unfold mod_reasm
  | _ => stable_step
  end.
Ltac pres_auto := repeat (pres_step || solve [eauto with stable nocore]).

Section Pres.
Context {W : Type} `{!Env W, !CbKeeps W}.

Lemma pres_lift {A} (m : ST W A) : pres (lift_world m).
Proof. intros s H. unfold lift_world, wf_state in *. by destruct (m s.2). Qed.
Lemma now_ms_pres : pres (now_ms (W := W)).
Proof. unfold now_ms. pres_auto. apply pres_lift. Qed.
Lemma new_session_id_pres : pres (new_session_id (W := W)).
Proof. unfold new_session_id. pres_auto. apply pres_lift. Qed.

Lemma set_next_pres p ch v : pres (set_next (W := W) p ch v).
Proof.
  unfold set_next. pres_auto. apply wf_set_peer; [|done|done].
  intros x []. split; cbn; try done. unfold setter, ch_set. by rewrite length_insert.
Qed.
Lemma set_expected_pres p ch v : pres (set_expected (W := W) p ch v).
Proof.
  unfold set_expected. pres_auto. apply wf_set_peer; [|done|done].
  intros x []. split; cbn; try done. unfold setter, ch_set. by rewrite length_insert.
Qed.

(** Assigning members of a peer that the invariant does not mention. *)
Lemma wf_peer_misc c p f :
  (forall s, wf_core (f s) = wf_core s) -> ctx_wf c -> ctx_wf (set_peer p f c).
Proof.
  intros H. apply wf_set_peer.
  - intros s []. specialize (H s). unfold wf_core in H.
    injection H as E1 E2 E3 E4 E5 E6 E7. split; congruence.
  - intros s Hu. specialize (H s). unfold wf_core in H. injection H as E1 E2 _.
    split; congruence.
Qed.
Lemma clear_tx_pres P : pres (mod_ctx (W := W) (fun c => c <| tx ::= clear_if P tx_zero |>)).
Proof.
  pres_auto. apply (wf_tx_shrink s.1); [|done]. by apply Forall2_clear_if.
Qed.
Lemma clear_rx_pres P : pres (mod_ctx (W := W) (fun c => c <| rx ::= clear_if (P c) rx_zero |>)).
Proof.
  pres_auto. apply (wf_rx_shrink s.1); [|done]. by apply Forall2_clear_if.
Qed.
Lemma zero_tx_pres i : pres (mod_tx (W := W) i (fun _ => tx_zero)).
Proof. pres_auto. apply (wf_tx_shrink s.1); [|done]. by apply Forall2_alter. Qed.
Lemma zero_rx_pres i : pres (mod_rx (W := W) i (fun _ => rx_zero)).
Proof. pres_auto. apply (wf_rx_shrink s.1); [|done]. by apply Forall2_alter. Qed.
Lemma zero_reasm_pres i : pres (mod_reasm (W := W) i (fun _ => reasm_zero)).
Proof. pres_auto. apply (wf_reasm_shrink s.1); [|done]. by apply Forall2_alter. Qed.
End Pres.

#[export] Instance wf_quiet {W} `{!Env W, !CbKeeps W} : Quiet (keeps (@wf_state W)).
Proof.
  split; try typeclasses eauto; eauto with stable.
  - apply now_ms_pres.
  - intros f H s Hs. specialize (H s.1). unfold ctx_core in H. injection H as ?????.
    by apply (wf_same s.1).
  - intros p f H. pres_auto. apply wf_peer_misc; [|done]. intros x. specialize (H x).
    unfold peer_core in H. unfold wf_core. congruence.
  - apply clear_tx_pres.
  - apply zero_tx_pres.
  - apply zero_rx_pres.
  - apply zero_reasm_pres.
  - intros p. pres_auto. apply wf_set_peer; [|done|done].
    intros x []. split; cbn; unfold setter, set_all_seq;
      try rewrite length_fold_ch_set; done.
Qed.

#[export] Hint Resolve pres_lift new_session_id_pres set_next_pres
  set_expected_pres clear_rx_pres : stable.

Section PresCore.
Context {W : Type} `{!Env W, !CbKeeps W}.

Lemma deliver_pres p ch k i : pres (deliver (W := W) p ch k i).
Proof. unfold deliver. quiet_go. Qed.
Hint Resolve deliver_pres : stable.

(** The table of lost ranges keeps its size. *)
Lemma length_absorb_one ch i rs j : length (absorb_one ch i rs j) = length rs.
Proof. unfold absorb_one. cbn zeta. repeat split_if; by autorewrite with len. Qed.
Lemma length_absorb_all ch i rs : length (absorb_all ch i rs) = length rs.
Proof.
  unfold absorb_all. revert rs. induction (seq 0 _) as [|j js IH]; intros rs; [done|].
  cbn. by rewrite IH, length_absorb_one.
Qed.
Lemma length_pending_merge n ch f l rs : length (pending_merge n ch f l rs).2 = length rs.
Proof.
  revert f l rs. induction n as [|n IH]; intros f l rs; [done|]. cbn [pending_merge].
  destruct (find_idx _ rs); [|done]. cbn zeta. rewrite IH, length_absorb_all.
  by autorewrite with len.
Qed.
Lemma length_pending_lost_add ch f l rs : length (pending_lost_add ch f l rs).2 = length rs.
Proof.
  unfold pending_lost_add. pose proof (length_pending_merge KM_PENDING_LOST_RANGES ch f l rs) as H.
  destruct (pending_merge _ ch f l rs) as [[f' l'] rs']. cbn in H.
  repeat split_if; [done|]. destruct (find_idx _ rs'); cbn; [|done].
  by rewrite length_insert.
Qed.

(** The state an operation sees is the one the context was read from. *)
Lemma pres_get_ctx {A} (k : keemash_rel_ctx_t -> Rel W A) :
  (forall s, wf_state s -> wf_state (k s.1 s).2) -> pres (get_ctx ≫= k).
Proof. intros H s Hs. by apply H. Qed.
Lemma at_mod_ctx {A} f (k : Rel W A) (s : keemash_rel_ctx_t * W) :
  ctx_wf (f s.1) -> pres k -> wf_state ((mod_ctx f;; k) s).2.
Proof. intros Hf Hk. apply (Hk (f s.1, s.2)). exact Hf. Qed.
Lemma at_mod_ctx' {A} f (k : Rel W A) (s : keemash_rel_ctx_t * W) :
  wf_state (k (f s.1, s.2)).2 -> wf_state ((mod_ctx f;; k) s).2.
Proof. done. Qed.
Lemma at_bind {A B} (m : Rel W A) (k : A -> Rel W B) s :
  wf_state s -> pres m -> (forall a, pres (k a)) -> wf_state ((m ≫= k) s).2.
Proof. intros Hs Hm Hk. rewrite bind_eq. apply Hk, Hm, Hs. Qed.

Lemma at_now_ms {A} (k : Z -> Rel W A) (s : keemash_rel_ctx_t * W) :
  (forall now w, wf_state (k now (s.1, w)).2) -> wf_state ((now_ms ≫= k) s).2.
Proof.
  intros H. rewrite bind_eq. unfold now_ms. rewrite bind_eq. unfold lift_world.
  destruct (esp_timer_get_time s.2) as [t w]. apply H.
Qed.

Lemma peer_at_wf c p : ctx_wf c -> peer_wf (peer_at c p).
Proof.
  intros Hwf. unfold peer_at. rewrite nth_lookup.
  destruct (peers c !! p) eqn:E; [|apply peer_zero_wf].
  exact (Forall_lookup_1 _ _ _ _ (wf_peers _ Hwf) E).
Qed.

Lemma set_pending_wf c p rs :
  length rs = KM_PENDING_LOST_RANGES -> ctx_wf c ->
  ctx_wf (set_peer p (fun s => s <| p_pending_lost := rs |>) c).
Proof. intros Hl Hc. apply wf_set_peer; [|done|done]. intros x []. by split. Qed.

Lemma receiver_drop_with_pres consume p ch r f l :
  (forall p ch, pres (consume p ch)) ->
  pres (receiver_drop_range_with (W := W) consume p ch r f l).
Proof.
  intros Hc. unfold receiver_drop_range_with.
  refine (stable_bind _ _ _ _ _); [refine (stable_gets _ _)|intros c].
  refine (stable_bind _ _ _ _ _).
  { pres_auto. apply (wf_reasm_shrink (s.1 <| rx ::= clear_if (drop_rx_in (p_mac (peer_at c p)) ch f l) rx_zero |>)).
    - by apply Forall2_clear_if.
    - apply (wf_rx_shrink s.1); [by apply Forall2_clear_if|done]. }
  intros _. refine (stable_bind _ _ _ _ _); [eauto with stable|intros _].
  apply pres_get_ctx. intros s Hs.
  destruct (seq_in_range _ _ _).
  { apply at_bind; [done|eauto with stable|intros _; quiet_go]. }
  destruct (seq_before _ _).
  - destruct (pending_lost_add _ _ _ _) as [added rs] eqn:E.
    apply at_mod_ctx.
    + apply set_pending_wf; [|done].
      pose proof (length_pending_lost_add ch f l (p_pending_lost (peer_at s.1 p))) as H.
      rewrite E in H. cbn in H. rewrite H. by apply peer_at_wf.
    + quiet_go.
  - apply at_bind; [done|eauto with stable|intros _; quiet_go].
Qed.
End PresCore.

#[export] Hint Resolve deliver_pres receiver_drop_with_pres : stable.

Section PresReceive.
Context {W : Type} `{!Env W, !CbKeeps W}.

Lemma reassembly_find_pres p rh b : pres (reassembly_find (W := W) p rh b).
Proof.
  unfold reassembly_find. apply pres_get_ctx. intros s Hs.
  destruct (find_idx _ _); [by split_if|]. destruct (negb b); [done|].
  destruct (_ <=? _)%nat eqn:E; [done|]. apply Nat.leb_gt in E.
  destruct (find_idx (fun a => negb (a_used a)) _) as [i|] eqn:Ei; [|done].
  apply at_now_ms. intros now w. apply at_mod_ctx; [|quiet_go].
  by eapply wf_reasm_fill.
Qed.

Lemma store_fragment_pres i rh payload now :
  pres (mod_reasm (W := W) i (store_fragment rh payload now)).
Proof.
  pres_auto. apply (wf_reasm_shrink s.1); [|done]. apply Forall2_alter; [done|].
  intros a. by right.
Qed.
Hint Resolve reassembly_find_pres store_fragment_pres : stable.

Lemma deliver_fragment_with_pres consume p rh payload :
  (forall p ch, pres (consume p ch)) ->
  pres (deliver_fragment_with (W := W) consume p rh payload).
Proof. intros Hc. unfold deliver_fragment_with. quiet_go. Qed.
Hint Resolve deliver_fragment_with_pres : stable.

Lemma clear_pending_pres p i :
  pres (mod_peer (W := W) p (fun s => s <| p_pending_lost ::= <[i := lost_zero]> |>)).
Proof.
  pres_auto. apply wf_set_peer; [|done|done].
  intros x []. split; cbn; try done. unfold setter. by rewrite length_insert.
Qed.
Lemma clear_pending_if_pres p P :
  pres (mod_peer (W := W) p (fun s => s <| p_pending_lost ::= clear_if P lost_zero |>)).
Proof.
  pres_auto. apply wf_set_peer; [|done|done].
  intros x []. split; cbn; try done. unfold setter. by rewrite length_clear_if.
Qed.
Hint Resolve clear_pending_pres clear_pending_if_pres : stable.

Lemma consume_n_pres n p ch : pres (consume_contiguous_n (W := W) n p ch).
Proof.
  revert p ch. induction n as [|n IH]; intros p ch; cbn [consume_contiguous_n]; quiet_go.
Qed.
Hint Resolve consume_n_pres : stable.
Lemma consume_pres p ch : pres (consume_contiguous (W := W) p ch).
Proof. unfold consume_contiguous. quiet_go. Qed.
Hint Resolve consume_pres : stable.
Lemma receiver_drop_pres p ch r f l : pres (receiver_drop_range (W := W) p ch r f l).
Proof. unfold receiver_drop_range. quiet_go. Qed.
Lemma deliver_fragment_pres p rh k : pres (deliver_fragment (W := W) p rh k).
Proof. unfold deliver_fragment. quiet_go. Qed.
Hint Resolve receiver_drop_pres deliver_fragment_pres : stable.

(** The estimator's arithmetic stays below 2^32 and its values below the
    60000 ms cap on a sample. *)
Lemma update_rto_wf c sample p : 0 <= sample -> peer_wf p -> peer_wf (update_rto c sample p).
Proof.
  intros Hs Hp. unfold update_rto. destruct (_ || _) eqn:E; [done|]. bools.
  destruct Hp. split; cbn; try (destruct (p_srtt_ms p =? 0); cbn; done).
  - destruct (p_srtt_ms p =? 0) eqn:E0; cbn; [lia|]. words.
  - destruct (p_srtt_ms p =? 0) eqn:E0; cbn; [words|]. split_if; words.
Qed.
Lemma update_rto_pres p c sample :
  0 <= sample -> pres (mod_peer (W := W) p (update_rto c sample)).
Proof.
  intros Hs. pres_auto. apply wf_set_peer; [|..|done].
  - intros x. by apply update_rto_wf.
  - intros x. unfold update_rto. repeat split_if; cbn; done.
Qed.

Lemma ack_slot_pres p ack now i : pres (ack_slot (W := W) p ack now i).
Proof.
  unfold ack_slot. quiet_go. apply update_rto_pres. apply u32_is.
Qed.
Hint Resolve ack_slot_pres : stable.
Lemma ack_slots_pres p ack : pres (ack_slots (W := W) p ack).
Proof. unfold ack_slots. quiet_go. Qed.
Lemma replay_slot_pres i now :
  pres (mod_tx (W := W) i (fun t => t <| t_bytes ::= replay_bytes now |>
    <| t_last_sent_ms := now |> <| t_retries ::= fun n => u8 (n + 1) |>)).
Proof.
  pres_auto. apply (wf_tx_shrink s.1); [|done]. apply Forall2_alter; [done|].
  intros t. by right.
Qed.
Hint Resolve ack_slots_pres replay_slot_pres : stable.
Lemma retransmit_pres p i : pres (retransmit_slot (W := W) p i).
Proof. unfold retransmit_slot. quiet_go. Qed.
End PresReceive.

#[export] Hint Resolve reassembly_find_pres store_fragment_pres deliver_fragment_with_pres
  clear_pending_pres clear_pending_if_pres consume_n_pres consume_pres receiver_drop_pres
  deliver_fragment_pres ack_slot_pres ack_slots_pres replay_slot_pres retransmit_pres : stable.

Section PresOps2.
Context {W : Type} `{!Env W, !CbKeeps W}.

Lemma peer_find_pres mac b : pres (peer_find (W := W) mac b).
Proof.
  unfold peer_find. apply pres_get_ctx. intros s Hs.
  destruct (peer_lookup _ _) eqn:El.
  { destruct (if c_root_role (cfg s.1) then _ else _); [|done].
    apply at_bind; [done|eauto with stable|intros _; quiet_go]. }
  destruct (negb b); [done|]. destruct (find_idx _ (peers s.1)) eqn:Ei; [|done].
  apply at_now_ms. intros now w. apply at_mod_ctx; [|quiet_go]. by apply wf_new_peer.
Qed.
Hint Resolve peer_find_pres : stable.

Lemma send_hello_pres mac tag u caps : pres (keemash_rel_send_hello (W := W) mac tag u caps).
Proof. unfold keemash_rel_send_hello. quiet_go. Qed.

Lemma submit_slots_wf p ch priority stream fr first payload idxs slots s :
  wf_state s -> room s.1 p priority (length idxs) ->
  wf_state (submit_slots (W := W) p ch priority stream fr first payload idxs slots s).2.
Proof.
  revert slots s. induction idxs as [|i idxs IH]; intros slots s Hs Hroom;
    cbn [submit_slots]; [done|].
  rewrite bind_eq. cbn [fst snd get_ctx gets]. apply at_mod_ctx'.
  match goal with |- context [set_peer p ?f s.1] => set (c' := set_peer p f s.1) end.
  assert (Hc : ctx_wf c').
  { apply wf_set_peer; [|done|done]. intros x []. split; cbn; try done.
    unfold setter, ch_set. by rewrite length_insert. }
  destruct (tx_alloc s.1 p priority) as [j|] eqn:Ej.
  - assert (Hmac : p_mac (peer_at c' p) = p_mac (peer_at s.1 p)).
    { unfold c', peer_at. cbn. unfold setter. rewrite !nth_lookup, list_lookup_alter_eq.
      by destruct (peers s.1 !! p). }
    assert (Hun : tx_unacked c' p = tx_unacked s.1 p) by (unfold tx_unacked; by rewrite Hmac).
    apply at_now_ms. intros now w. apply at_mod_ctx'. apply IH; cbn [fst].
    + apply (wf_tx_fill _ p priority); try done.
      * rewrite <- Ej. unfold tx_alloc. by rewrite Hun.
      * intros Hp. specialize (Hroom Hp). cbn [length] in Hroom. rewrite Hun.
        change (cfg c') with (cfg s.1). lia.
    + intros Hp. specialize (Hroom Hp). cbn [length] in Hroom.
      match goal with |- context [set_tx j (fun _ => ?t) c'] =>
        pose proof (tx_unacked_fill c' p j t) end.
      change (cfg (set_tx j _ c')) with (cfg s.1). lia.
  - apply at_bind; [done|quiet_go|intros _; quiet_go].
Qed.

Lemma tx_available_room c p priority fragments :
  ctx_wf c -> fragments <= Z.of_nat (tx_available c p priority) ->
  room c p priority (Z.to_nat fragments).
Proof.
  intros Hwf Hf Hp. pose proof (wf_tx _ Hwf (p_mac (peer_at c p))) as Hle.
  change (tx_unacked c p <= c_per_peer_tx_slots (cfg c))%nat in Hle.
  unfold tx_available, tx_limit in Hf.
  replace (priority <? KEEMASH_REL_PRIORITY_CONTROL) with false in Hf by (symmetry; lia).
  cbn [andb] in Hf. destruct (Nat.ltb_spec (c_per_peer_tx_slots (cfg c) - tx_unacked c p) (tx_free c)); lia.
Qed.
Lemma submit_send_pres p slots e : pres (submit_send (W := W) p slots e).
Proof.
  revert e. induction slots as [|j slots IH]; intros e; cbn [submit_send]; quiet_go.
Qed.
Lemma take_stream_id_pres : pres (take_stream_id (W := W)).
Proof. unfold take_stream_id. quiet_go. Qed.
Lemma forced_overflow_pres : pres (forced_overflow (W := W)).
Proof. unfold forced_overflow. quiet_go. Qed.
Hint Resolve submit_send_pres take_stream_id_pres forced_overflow_pres : stable.

Lemma submit_pres mac ch payload priority :
  pres (keemash_rel_submit (W := W) mac ch payload priority).
Proof.
  unfold keemash_rel_submit. cbn zeta.
  lazymatch goal with |- stable _ (if ?b then _ else _) => destruct b end; [quiet_go|].
  refine (stable_bind _ _ _ _ _); [eauto with stable|intros fd].
  refine (stable_bind _ _ _ _ _); [refine (stable_gets _ _)|intros c].
  destruct fd as [p|]; [|quiet_go].
  do 2 (lazymatch goal with |- stable _ (if ?b then _ else _) => destruct b end; [quiet_go|]).
  refine (stable_bind _ _ _ _ _); [eauto with stable|intros stream].
  refine (stable_bind _ _ _ _ _); [eauto with stable|intros forced].
  apply pres_get_ctx. intros s Hs.
  destruct (forced || _) eqn:E.
  - refine ((_ : stable (keeps wf_state) _) s Hs). quiet_go.
  - rewrite orb_false_iff, Z.ltb_ge in E. destruct E as [_ E]. rewrite bind_eq.
    match goal with |- context [submit_slots ?p ?ch ?pr ?st ?fr ?fi ?pl ?ix ?sl s] =>
      pose proof (submit_slots_wf p ch pr st fr fi pl ix sl s Hs) as H;
      destruct (submit_slots p ch pr st fr fi pl ix sl s) as [filled s'] end.
    cbn [fst snd] in *.
    assert (Hs' : wf_state s').
    { apply H. unfold seqZ. rewrite length_fmap, length_seq. by apply tx_available_room. }
    destruct filled as [slots|]; [|done]. refine ((_ : stable (keeps wf_state) _) s' Hs'). quiet_go.
Qed.

Lemma handle_hello_pres from h : pres (handle_hello (W := W) from h).
Proof. unfold handle_hello. quiet_go. pres_auto. by apply wf_peer_misc. Qed.
Lemma handle_hello_ack_pres from a : pres (handle_hello_ack (W := W) from a).
Proof. unfold handle_hello_ack. quiet_go. pres_auto. by apply wf_peer_misc. Qed.

Lemma overtake_pres p ch s : pres (overtake (W := W) p ch s).
Proof.
  unfold overtake. refine (stable_bind _ _ _ _ _); [|intros _; quiet_go].
  apply (clear_rx_pres (fun c r => r_used r && (r_channel r =? ch)
           && mac_eq (r_peer r) (p_mac (peer_at c p)))).
Qed.
Lemma accept_data_pres p rh payload e : pres (accept_data (W := W) p rh payload e).
Proof.
  unfold accept_data. destruct (seq_before _ _); [eauto with stable|].
  destruct (_ =? _); [quiet_go|]. destruct (_ <=? _); [eauto with stable|].
  apply pres_get_ctx. intros s Hs.
  destruct (rx_find _ _ _ _) eqn:Ef; [by apply (quiet_send_ack (keeps wf_state))|].
  destruct (rx_alloc _ _) as [i|] eqn:Ei.
  - apply at_mod_ctx; [|eauto with stable]. by eapply wf_rx_fill.
  - apply at_bind; [done|eauto with stable|intros _; quiet_go].
Qed.
Hint Resolve overtake_pres accept_data_pres : stable.
Lemma touch_rx_pres p now (flag : bool) :
  pres (mod_peer (W := W) p (fun s => s <| p_route_up := true |>
    <| p_route_down_since_ms := 0 |> <| p_last_rx_ms := now |>
    <| p_replay_count ::= fun n => if flag then u32 (n + 1) else n |>)).
Proof. refine (quiet_stats _ _ _). intros x. by destruct flag. Qed.
Hint Resolve touch_rx_pres : stable.
Lemma handle_data_pres from rh payload : pres (handle_data (W := W) from rh payload).
Proof. unfold handle_data. quiet_go. Qed.
Lemma handle_ack_pres from a n : pres (handle_ack_packet (W := W) from a n).
Proof. unfold handle_ack_packet. quiet_go. Qed.
Lemma handle_lost_pres from l : pres (handle_lost_packet (W := W) from l).
Proof.
  unfold handle_lost_packet. refine (stable_bind _ _ _ _ _); [eauto with stable|intros fd].
  apply pres_get_ctx. intros s Hs. destruct fd as [p|]; [|done]. cbn zeta.
  destruct (_ || _); [done|].
  destruct (has_flag _ _).
  { apply at_bind; [done| |intros _; quiet_go]. pres_auto.
    apply (wf_tx_shrink s0.1); [|done]. by apply Forall2_clear_if. }
  destruct (seq_in_range _ _ _).
  { apply at_bind; [done|eauto with stable|intros _; quiet_go]. }
  destruct (seq_before _ _).
  - destruct (pending_lost_add _ _ _ _) as [added rs] eqn:E. apply at_mod_ctx.
    + apply set_pending_wf; [|done].
      pose proof (length_pending_lost_add (lost_channel_id l) (lost_seq_first l)
        (lost_seq_last l) (p_pending_lost (peer_at s.1 p))) as H.
      rewrite E in H. cbn in H. rewrite H. by apply peer_at_wf.
    + quiet_go.
  - apply at_bind; [done|eauto with stable|intros _; quiet_go].
Qed.
Hint Resolve handle_hello_pres handle_hello_ack_pres handle_data_pres handle_ack_pres
  handle_lost_pres : stable.
Lemma handle_rx_pres from packet : pres (keemash_rel_handle_rx (W := W) from packet).
Proof. unfold keemash_rel_handle_rx. cbn zeta. quiet_go. Qed.

Lemma poll_route_pres now i : pres (poll_route (W := W) now i).
Proof. unfold poll_route. quiet_go. Qed.
Lemma forget_session_pres p (root : bool) :
  pres (mod_peer (W := W) p (fun s => if root then s <| p_node_session_id := 0 |>
                               else s <| p_root_session_id := 0 |>)).
Proof. refine (quiet_stats _ _ _). intros x. by destruct root. Qed.
Hint Resolve poll_route_pres forget_session_pres : stable.
Lemma poll_tx_pres now st : pres (poll_tx (W := W) now st).
Proof. unfold poll_tx. quiet_go. Qed.
Lemma poll_reasm_pres now i : pres (poll_reasm (W := W) now i).
Proof. unfold poll_reasm. quiet_go. Qed.
Hint Resolve poll_tx_pres poll_reasm_pres : stable.
Lemma poll_pres : pres (keemash_rel_poll (W := W)).
Proof. unfold keemash_rel_poll. quiet_go. Qed.

Lemma supersede_pres mac ch : pres (keemash_rel_supersede_channel (W := W) mac ch).
Proof. unfold keemash_rel_supersede_channel, with_peer. quiet_go. Qed.
Lemma reset_peer_pres mac r : pres (keemash_rel_reset_peer (W := W) mac r).
Proof. unfold keemash_rel_reset_peer, with_peer. quiet_go. Qed.
Lemma peer_route_pres mac b : pres (keemash_rel_peer_route (W := W) mac b).
Proof.
  unfold keemash_rel_peer_route. quiet_go. pres_auto.
  apply (wf_tx_shrink s.1); [|done]. apply Forall2_fmap_self. intros t.
  split_if; [by right|done].
Qed.
Lemma remove_peer_pres mac : pres (keemash_rel_remove_peer (W := W) mac).
Proof.
  unfold keemash_rel_remove_peer, with_peer. quiet_go. pres_auto.
  apply wf_set_peer; [|done|done]. intros. apply peer_zero_wf.
Qed.

Lemma peer_ready_pres mac : pres (keemash_rel_peer_ready (W := W) mac).
Proof. unfold keemash_rel_peer_ready, with_peer. quiet_go. Qed.
Lemma stats_pres mac : pres (keemash_rel_stats (W := W) mac).
Proof. unfold keemash_rel_stats, with_peer. quiet_go. Qed.
Lemma channel_unacked_pres mac ch : pres (keemash_rel_channel_unacked (W := W) mac ch).
Proof. unfold keemash_rel_channel_unacked, with_peer. quiet_go. Qed.
Lemma capabilities_pres mac : pres (keemash_rel_peer_capabilities (W := W) mac).
Proof. unfold keemash_rel_peer_capabilities, with_peer. quiet_go. Qed.

Lemma with_ready_peer_pres mac ch k :
  (forall p, pres (k p)) -> pres (with_ready_peer (W := W) mac ch k).
Proof. intros H. unfold with_ready_peer, with_peer. quiet_go. Qed.
Lemma force_next_pres mac ch v : pres (keemash_rel_debug_force_next_seq (W := W) mac ch v).
Proof. apply with_ready_peer_pres. intros p. quiet_go. Qed.
Lemma force_expected_pres mac ch v :
  pres (keemash_rel_debug_force_expected_seq (W := W) mac ch v).
Proof. apply with_ready_peer_pres. intros p. quiet_go. Qed.

Lemma debug_reset_one_pres i : pres (debug_reset_one (W := W) i).
Proof.
  unfold debug_reset_one. quiet_go. pres_auto. apply wf_peer_misc; [|done].
  intros x. by destruct (c_root_role (cfg s.1)).
Qed.
Hint Resolve debug_reset_one_pres : stable.
Lemma reset_session_pres : pres (keemash_rel_debug_reset_local_session (W := W)).
Proof. unfold keemash_rel_debug_reset_local_session. quiet_go. Qed.

Lemma at_take_stream_id {A} (k : Z -> Rel W A) (s : keemash_rel_ctx_t * W) :
  (forall id n, wf_state (k id (s.1 <| next_stream_id := n |>, s.2)).2) ->
  wf_state ((take_stream_id ≫= k) s).2.
Proof.
  intros H. rewrite bind_eq. unfold take_stream_id. rewrite !bind_eq. cbn.
  split_if; cbn; apply H.
Qed.

(** A slot is taken for a CONTROL packet, and nothing else is taken before it is
    filled. *)
Lemma retry_exhausted_pres mac ch :
  pres (keemash_rel_debug_force_retry_exhausted (W := W) mac ch).
Proof.
  apply with_ready_peer_pres. intros p. apply pres_get_ctx. intros s Hs.
  destruct (tx_alloc s.1 p KEEMASH_REL_PRIORITY_CONTROL) as [j|] eqn:Ej; [|done].
  apply at_mod_ctx'. apply at_take_stream_id. intros id n. cbn [fst snd].
  apply at_now_ms. intros now w. apply at_mod_ctx; [|quiet_go]. cbn [fst].
  match goal with |- context [set_peer p ?f s.1] => set (c' := set_peer p f s.1) end.
  assert (Hc : ctx_wf (c' <| next_stream_id := n |>)).
  { apply (wf_same c'); try done. apply wf_set_peer; [|done|done].
    intros x []. split; cbn; try done. unfold setter, ch_set. by rewrite length_insert. }
  assert (Hmac : p_mac (peer_at c' p) = p_mac (peer_at s.1 p)).
  { unfold c', peer_at. cbn. unfold setter. rewrite !nth_lookup, list_lookup_alter_eq.
    by destruct (peers s.1 !! p). }
  apply (wf_tx_fill _ p KEEMASH_REL_PRIORITY_CONTROL); try done.
  - rewrite <- Ej. unfold tx_alloc, tx_unacked, tx_free. cbn -[peer_at]. by rewrite <- Hmac.
Qed.
End PresOps2.

(** ** Reachability *)

Inductive rel_call :=
  | Call_hello (mac tag : option bytes) (uptime_s capabilities : Z)
  | Call_submit (mac : option bytes) (ch : Z) (payload : bytes) (priority : Z)
  | Call_rx (from packet : bytes)
  | Call_poll
  | Call_reset (mac : option bytes) (reason : Z)
  | Call_supersede (mac : option bytes) (ch : Z)
  | Call_route (mac : option bytes) (route_up : bool)
  | Call_remove (mac : option bytes)
  | Call_peer_ready (mac : option bytes)
  | Call_stats (mac : option bytes)
  | Call_channel_unacked (mac : option bytes) (ch : Z)
  | Call_capabilities (mac : option bytes)
  | Call_force_next_seq (mac : option bytes) (ch next_seq : Z)
  | Call_force_expected_seq (mac : option bytes) (ch expected_seq : Z)
  | Call_reset_local_session
  | Call_force_fragment_timeout (mac : option bytes) (ch : Z)
  | Call_force_retry_exhausted (mac : option bytes) (ch : Z).

Definition discard {S A} (m : ST S A) : ST S unit := _ ← m; mret tt.

Definition run_call {W} `{!Env W} (call : rel_call) : Rel W unit :=
  match call with
  | Call_hello mac tag up caps => discard (keemash_rel_send_hello mac tag up caps)
  | Call_submit mac ch payload priority => discard (keemash_rel_submit mac ch payload priority)
  | Call_rx from packet => discard (keemash_rel_handle_rx from packet)
  | Call_poll => keemash_rel_poll
  | Call_reset mac reason => keemash_rel_reset_peer mac reason
  | Call_supersede mac ch => discard (keemash_rel_supersede_channel mac ch)
  | Call_route mac up => discard (keemash_rel_peer_route mac up)
  | Call_remove mac => discard (keemash_rel_remove_peer mac)
  | Call_peer_ready mac => discard (keemash_rel_peer_ready mac)
  | Call_stats mac => discard (keemash_rel_stats mac)
  | Call_channel_unacked mac ch => discard (keemash_rel_channel_unacked mac ch)
  | Call_capabilities mac => discard (keemash_rel_peer_capabilities mac)
  | Call_force_next_seq mac ch v => discard (keemash_rel_debug_force_next_seq mac ch v)
  | Call_force_expected_seq mac ch v => discard (keemash_rel_debug_force_expected_seq mac ch v)
  | Call_reset_local_session => discard keemash_rel_debug_reset_local_session
  | Call_force_fragment_timeout mac ch =>
      discard (keemash_rel_debug_force_fragment_timeout mac ch)
  | Call_force_retry_exhausted mac ch =>
      discard (keemash_rel_debug_force_retry_exhausted mac ch)
  end.

(** The calls the invariant is about: all but
    [keemash_rel_debug_force_fragment_timeout] ([fragment_timeout_over_share] below). *)
Definition call_ok (call : rel_call) : Prop :=
  match call with
  | Call_force_fragment_timeout _ _ => False
  | _ => True
  end.

(** The states of a context: initialised, then any sequence of calls; between
    two calls the world moves on its own. *)
Inductive reachable {W} `{!Env W} : keemash_rel_ctx_t * W -> Prop :=
  | reach_init config w w' c :
      keemash_rel_init true true config w = (ESP_OK, Some c, w') -> reachable (c, w')
  | reach_call s call : reachable s -> call_ok call -> reachable (run_call call s).2
  | reach_world c w w' : reachable (c, w) -> reachable (c, w').

Lemma count_if_replicate {A} (P : A -> bool) n x : P x = false -> count_if P (replicate n x) = 0%nat.
Proof.
  intros H. induction n as [|n IH]; [done|]. cbn. by rewrite H, IH.
Qed.

Lemma ctx_init_wf c session stream : ctx_wf (ctx_init c session stream).
Proof.
  split; cbn; try (by rewrite length_replicate);
    try (intros; rewrite count_if_replicate; [lia|done]).
  - apply Forall_replicate, peer_zero_wf.
  - intros i j p q Hi _ Hu. apply lookup_replicate in Hi as [-> _]. done.
Qed.

Lemma init_ctx_wf {W} `{!Env W} ctx_ok arrays_ok config w e c w' :
  keemash_rel_init ctx_ok arrays_ok config w = (e, Some c, w') -> ctx_wf c.
Proof.
  unfold keemash_rel_init. destruct (config_valid config); [|done]. destruct ctx_ok; [|done].
  cbn. unfold mbind, ST_bind, mret, ST_ret. destruct (esp_random w) as [i w1].
  destruct (esp_random w1) as [j w2]. destruct arrays_ok; [|done]. cbn.
  intros H. injection H as _ <- _. apply ctx_init_wf.
Qed.

Lemma run_call_pres {W} `{!Env W, !CbKeeps W} call : call_ok call -> pres (run_call (W := W) call).
Proof.
  destruct call; cbn; intros H; try done; unfold discard;
    first [apply poll_pres|apply reset_peer_pres|
      refine (stable_bind _ _ _ _ _); [|intros ?; refine (stable_ret _ _)]];
    auto using submit_pres, send_hello_pres, handle_rx_pres, supersede_pres, peer_route_pres,
      remove_peer_pres, peer_ready_pres, stats_pres, channel_unacked_pres, capabilities_pres,
      force_next_pres, force_expected_pres, reset_session_pres, retry_exhausted_pres.
Qed.

(** C2: in every state that the calls of the header other than
    [keemash_rel_debug_force_fragment_timeout] can reach, no peer exceeds its
    transmit, receive or reassembly share, low-priority traffic leaves the control reservation
    untouched, peers are distinct, no sequence number is buffered twice and
    the round-trip estimator is in range. *)
Theorem reachable_ctx_wf {W} `{!Env W, !CbKeeps W} s : reachable s -> ctx_wf s.1.
Proof.
  induction 1 as [config w w' c H|s call _ IH Hc|c w w' _ IH]; cbn [fst] in *.
  - by eapply init_ctx_wf.
  - by apply run_call_pres.
  - done.
Qed.

#[export] Instance log_env_keeps : CbKeeps world.
Proof. split; intros; exact (fun s H => H). Qed.

Definition sample_ctx (root : bool) : keemash_rel_ctx_t :=
  ctx_init (normalize_config (sample_config root (if root then root_mac else node_mac))) 11 12.

Example reachable_ctx_wf_witness :
  ctx_wf (run_call (Call_submit None 1 [1; 2; 3] 0)
            (run_call (Call_route None true) (sample_ctx false, world_at 0 13)).2).2.1.
Proof.
  apply reachable_ctx_wf. repeat (apply reach_call; [|vm_compute; congruence || done]).
  - apply reach_init with (config := sample_config false node_mac) (w := world_at 0 11).
    vm_compute. reflexivity.
Defined.

(** The exception is needed: the fragment that the debug call forges takes a slot without
    looking at the share of the peer, here one slot. *)
Definition tight_ctx : keemash_rel_ctx_t :=
  set_peer 0 (fun s => s <| p_used := true |> <| p_ready := true |>)
    (ctx_init (normalize_config ((sample_config false node_mac)
       <| c_per_peer_reassembly_slots := 1%nat |>)) 11 12).

Example fragment_timeout_over_share :
  let c := (for_each (replicate 2 (Call_force_fragment_timeout None 1)) run_call
              (tight_ctx, world_at 0 13)).2.1 in
  (count_if (reasm_of mac_zero_addr) (reassembly c) = 2 /\
   c_per_peer_reassembly_slots (cfg c) = 1)%nat.
Proof. vm_compute. done. Qed.
