(* ===== verification/RelFrame.v ===== *)
(** * The reliable layer touches the world through its environment only

    [along T]: the context moves freely, the rest of the world moves along [T].  When
    the clock, the random numbers and the three callbacks do, so does every entry
    point of the core; a facade uses this to know which of its own variables a call
    of the core leaves alone. *)

From S2P Require Import Prelude.
From S2P Require Import Words.
From S2P Require Import MeshProto.
From S2P Require Import MeshWire.
From S2P Require Import RelState.
From S2P Require Import RelCore.
From S2P Require Import RelOps.
From S2P Require Import RelQuiet.
#[local] Open Scope Z_scope.

Definition along {W : Type} (T : relation W) : relation (keemash_rel_ctx_t * W) :=
  fun s s' => T s.2 s'.2.

#[export] Instance along_preorder {W : Type} (T : relation W) `{!PreOrder T} :
  PreOrder (along T).
Proof.
  split; [intros s; unfold along; reflexivity|].
  intros a b c. unfold along. intros H1 H2. by transitivity b.2.
Qed.

(** The sending half: all a routine without deliveries needs. *)
Class CbAlong (W : Type) `{!Env W} (T : relation W) : Prop := {
  along_pre :: PreOrder T;
  timer_along : stable T esp_timer_get_time;
  random_along : stable T esp_random;
  send_along : forall dst packet, stable (along T) (cb_send dst packet);
  event_along : forall mac ch reason first last,
    stable (along T) (cb_event mac ch reason first last) }.

Class CbDeliverAlong (W : Type) `{!Env W} (T : relation W) : Prop := {
  deliver_cb_along : forall mac ch payload stream,
    stable (along T) (cb_deliver mac ch payload stream) }.

Lemma lift_along {W A : Type} (T : relation W) (m : ST W A) :
  stable T m -> stable (along T) (lift_world m).
Proof. intros H s. unfold lift_world, along. specialize (H s.2). by destruct (m s.2). Qed.

Lemma mod_ctx_along {W : Type} (T : relation W) `{!PreOrder T} f : stable (along T) (mod_ctx f).
Proof. intros s. unfold along. cbn. reflexivity. Qed.

#[export] Instance along_quiet {W : Type} `{!Env W} (T : relation W) `{!CbAlong W T} :
  Quiet (along T).
Proof.
  split.
  - apply _.
  - apply send_along.
  - apply event_along.
  - unfold now_ms. apply stable_bind; [apply _|by apply lift_along, timer_along|].
    intros t. apply stable_ret, _.
  - intros f _. apply mod_ctx_along, _.
  - intros p f _. apply mod_ctx_along, _.
  - intros P. apply mod_ctx_along, _.
  - intros i. apply mod_ctx_along, _.
  - intros i. apply mod_ctx_along, _.
  - intros i. apply mod_ctx_along, _.
  - intros p. apply mod_ctx_along, _.
Qed.

#[export] Hint Extern 1 (stable (along _) (mod_ctx _)) => apply mod_ctx_along, _ : stable.
#[export] Hint Extern 1 (stable (along _) (mod_peer _ _)) => apply mod_ctx_along, _ : stable.
#[export] Hint Extern 1 (stable (along _) (mod_tx _ _)) => apply mod_ctx_along, _ : stable.
#[export] Hint Extern 1 (stable (along _) (mod_rx _ _)) => apply mod_ctx_along, _ : stable.
#[export] Hint Extern 1 (stable (along _) (mod_reasm _ _)) => apply mod_ctx_along, _ : stable.
#[export] Hint Extern 1 (stable (along _) (set_next _ _ _)) => apply mod_ctx_along, _ : stable.
#[export] Hint Extern 1 (stable (along _) (set_expected _ _ _)) => apply mod_ctx_along, _ : stable.

Section Sending.
Context {W : Type} `{!Env W} (T : relation W) `{!CbAlong W T}.

Lemma now_along : stable (along T) now_ms.
Proof. apply quiet_now. Qed.
Lemma new_session_along : stable (along T) new_session_id.
Proof.
  unfold new_session_id. apply stable_bind; [apply _|by apply lift_along, random_along|].
  intros i. apply stable_ret, _.
Qed.
Hint Resolve now_along new_session_along : stable.

Lemma peer_find_along mac b : stable (along T) (peer_find mac b).
Proof. unfold peer_find. quiet_go. Qed.
Hint Resolve peer_find_along : stable.
Lemma with_peer_along {A} mac (none : A) k :
  (forall p, stable (along T) (k p)) -> stable (along T) (with_peer mac none k).
Proof. intros H. unfold with_peer. quiet_go. Qed.

Lemma peer_ready_along mac : stable (along T) (keemash_rel_peer_ready mac).
Proof. unfold keemash_rel_peer_ready. apply with_peer_along. intros p. quiet_go. Qed.
Lemma stats_along mac : stable (along T) (keemash_rel_stats mac).
Proof. unfold keemash_rel_stats. apply with_peer_along. intros p. quiet_go. Qed.
Lemma unacked_along mac ch : stable (along T) (keemash_rel_channel_unacked mac ch).
Proof.
  unfold keemash_rel_channel_unacked. split_if; [quiet_go|].
  apply with_peer_along. intros p. quiet_go.
Qed.
Lemma capabilities_along mac : stable (along T) (keemash_rel_peer_capabilities mac).
Proof. unfold keemash_rel_peer_capabilities. apply with_peer_along. intros p. quiet_go. Qed.
Lemma supersede_along mac ch : stable (along T) (keemash_rel_supersede_channel mac ch).
Proof.
  unfold keemash_rel_supersede_channel. split_if; [quiet_go|].
  apply with_peer_along. intros p. quiet_go.
Qed.
Lemma remove_along mac : stable (along T) (keemash_rel_remove_peer mac).
Proof. unfold keemash_rel_remove_peer. apply with_peer_along. intros p. quiet_go. Qed.
Lemma local_session_along : stable (along T) keemash_rel_local_session.
Proof. unfold keemash_rel_local_session. quiet_go. Qed.
Lemma peer_route_along mac b : stable (along T) (keemash_rel_peer_route mac b).
Proof. unfold keemash_rel_peer_route. quiet_go. Qed.
Lemma send_hello_along mac tag u caps : stable (along T) (keemash_rel_send_hello mac tag u caps).
Proof. unfold keemash_rel_send_hello. quiet_go. Qed.

Lemma submit_slots_along p ch priority stream fr first payload idxs slots :
  stable (along T) (submit_slots p ch priority stream fr first payload idxs slots).
Proof.
  revert slots. induction idxs as [|i idxs IH]; intros slots; cbn [submit_slots]; quiet_go.
Qed.
Lemma submit_send_along p slots e : stable (along T) (submit_send p slots e).
Proof.
  revert e. induction slots as [|j slots IH]; intros e; cbn [submit_send]; quiet_go.
Qed.
Lemma take_stream_id_along : stable (along T) take_stream_id.
Proof. unfold take_stream_id. quiet_go. Qed.
Lemma forced_overflow_along : stable (along T) forced_overflow.
Proof. unfold forced_overflow. quiet_go. Qed.
Hint Resolve submit_slots_along submit_send_along take_stream_id_along forced_overflow_along
  : stable.
Lemma submit_along mac ch payload priority :
  stable (along T) (keemash_rel_submit mac ch payload priority).
Proof. unfold keemash_rel_submit. quiet_go. Qed.
Hint Resolve submit_along : stable.
Lemma send_along' mac ch payload priority :
  stable (along T) (keemash_rel_send mac ch payload priority).
Proof. unfold keemash_rel_send. quiet_go. Qed.
End Sending.

#[export] Hint Resolve now_along new_session_along peer_find_along peer_ready_along
  stats_along unacked_along capabilities_along supersede_along remove_along
  local_session_along peer_route_along send_hello_along submit_along send_along' : stable.

Section Receiving.
Context {W : Type} `{!Env W} (T : relation W) `{!CbAlong W T, !CbDeliverAlong W T}.

Lemma deliver_along p ch k i : stable (along T) (deliver p ch k i).
Proof. unfold deliver. quiet_go. apply deliver_cb_along. Qed.
Hint Resolve deliver_along : stable.
Lemma receiver_drop_with_along consume p ch r f l :
  (forall p ch, stable (along T) (consume p ch)) ->
  stable (along T) (receiver_drop_range_with consume p ch r f l).
Proof. intros Hc. unfold receiver_drop_range_with. quiet_go. Qed.
Lemma reassembly_find_along p rh b : stable (along T) (reassembly_find p rh b).
Proof. unfold reassembly_find. quiet_go. Qed.
Hint Resolve receiver_drop_with_along reassembly_find_along : stable.
Lemma deliver_fragment_with_along consume p rh payload :
  (forall p ch, stable (along T) (consume p ch)) ->
  stable (along T) (deliver_fragment_with consume p rh payload).
Proof. intros Hc. unfold deliver_fragment_with. quiet_go. Qed.
Hint Resolve deliver_fragment_with_along : stable.
Lemma consume_n_along n p ch : stable (along T) (consume_contiguous_n n p ch).
Proof.
  revert p ch. induction n as [|n IH]; intros p ch; cbn [consume_contiguous_n]; quiet_go.
Qed.
Hint Resolve consume_n_along : stable.
Lemma consume_along p ch : stable (along T) (consume_contiguous p ch).
Proof. unfold consume_contiguous. quiet_go. Qed.
Hint Resolve consume_along : stable.
Lemma receiver_drop_along p ch r f l : stable (along T) (receiver_drop_range p ch r f l).
Proof. unfold receiver_drop_range. quiet_go. Qed.
Lemma deliver_fragment_along p rh k : stable (along T) (deliver_fragment p rh k).
Proof. unfold deliver_fragment. quiet_go. Qed.
Hint Resolve receiver_drop_along deliver_fragment_along : stable.

Lemma handle_hello_along from h : stable (along T) (handle_hello from h).
Proof. unfold handle_hello. quiet_go. Qed.
Lemma handle_hello_ack_along from a : stable (along T) (handle_hello_ack from a).
Proof. unfold handle_hello_ack. quiet_go. Qed.
Lemma overtake_along p ch s : stable (along T) (overtake p ch s).
Proof. unfold overtake. quiet_go. Qed.
Hint Resolve overtake_along : stable.
Lemma accept_data_along p rh payload e : stable (along T) (accept_data p rh payload e).
Proof. unfold accept_data. quiet_go. Qed.
Hint Resolve accept_data_along : stable.
Lemma handle_data_along from rh payload : stable (along T) (handle_data from rh payload).
Proof. unfold handle_data. quiet_go. Qed.
Lemma ack_slots_along p ack : stable (along T) (ack_slots p ack).
Proof. unfold ack_slots, ack_slot. quiet_go. Qed.
Lemma retransmit_along p i : stable (along T) (retransmit_slot p i).
Proof. unfold retransmit_slot. quiet_go. Qed.
Hint Resolve ack_slots_along retransmit_along : stable.
Lemma handle_ack_packet_along from a n : stable (along T) (handle_ack_packet from a n).
Proof. unfold handle_ack_packet. quiet_go. Qed.
Lemma handle_lost_packet_along from l : stable (along T) (handle_lost_packet from l).
Proof. unfold handle_lost_packet. quiet_go. Qed.
Hint Resolve handle_hello_along handle_hello_ack_along handle_data_along
  handle_ack_packet_along handle_lost_packet_along : stable.
Lemma handle_rx_along from packet : stable (along T) (keemash_rel_handle_rx from packet).
Proof. unfold keemash_rel_handle_rx. cbn zeta. quiet_go. Qed.

Lemma poll_route_along now i : stable (along T) (poll_route now i).
Proof. unfold poll_route. quiet_go. Qed.
Lemma poll_tx_along now st : stable (along T) (poll_tx now st).
Proof. unfold poll_tx. quiet_go. Qed.
Lemma poll_reasm_along now i : stable (along T) (poll_reasm now i).
Proof. unfold poll_reasm. quiet_go. Qed.
Hint Resolve poll_route_along poll_tx_along poll_reasm_along : stable.
Lemma poll_along : stable (along T) keemash_rel_poll.
Proof. unfold keemash_rel_poll. quiet_go. Qed.

Lemma with_ready_peer_along mac ch k :
  (forall p, stable (along T) (k p)) -> stable (along T) (with_ready_peer mac ch k).
Proof.
  intros H. unfold with_ready_peer. split_if; [quiet_go|].
  apply with_peer_along; [apply _|]. intros p. quiet_go.
Qed.
Lemma force_next_along mac ch v : stable (along T) (keemash_rel_debug_force_next_seq mac ch v).
Proof. apply with_ready_peer_along. intros p. quiet_go. Qed.
Lemma force_expected_along mac ch v :
  stable (along T) (keemash_rel_debug_force_expected_seq mac ch v).
Proof. apply with_ready_peer_along. intros p. quiet_go. Qed.
Lemma debug_reset_one_along i : stable (along T) (debug_reset_one i).
Proof. unfold debug_reset_one. quiet_go. Qed.
Hint Resolve debug_reset_one_along : stable.
Lemma reset_session_along : stable (along T) keemash_rel_debug_reset_local_session.
Proof. unfold keemash_rel_debug_reset_local_session. quiet_go. Qed.
Lemma fragment_timeout_along mac ch :
  stable (along T) (keemash_rel_debug_force_fragment_timeout mac ch).
Proof.
  apply with_ready_peer_along. intros p. pose proof (take_stream_id_along T). cbv zeta. quiet_go.
Qed.
Lemma retry_exhausted_along mac ch :
  stable (along T) (keemash_rel_debug_force_retry_exhausted mac ch).
Proof.
  apply with_ready_peer_along. intros p. pose proof (take_stream_id_along T). cbv zeta. quiet_go.
Qed.
End Receiving.
