(* ===== verification/RelConsume.v ===== *)
(** * Termination of in-order consumption

    [consume_contiguous], [deliver_fragment] and [receiver_drop_range] call
    each other in the sources without an evident bound.  [consume_measure]
    decreases in every round: a round frees a lost range or a receive slot,
    and only a fragment taken from a receive slot can add a lost range.  The
    number of rounds the model allows is therefore always enough. *)

From S2P Require Import Prelude.
From S2P Require Import Words.
From S2P Require Import Esp.
From S2P Require Import MeshProto.
From S2P Require Import MeshWire.
From S2P Require Import RelState.
From S2P Require Import RelCore.
From S2P Require Import RelOps.
From S2P Require Import RelEnv.
From S2P Require Import RelQuiet.
From S2P Require Import RelInv.
#[local] Open Scope Z_scope.

(** [shrinks p]: the measure of peer [p] does not grow. *)
Definition shrinks {W} (p : nat) : relation (keemash_rel_ctx_t * W) :=
  fun s s' => (consume_measure s'.1 p <= consume_measure s.1 p)%nat.
#[export] Instance shrinks_preorder {W} p : PreOrder (@shrinks W p).
Proof. split; [intros s; red; lia|intros x y z; unfold shrinks; lia]. Qed.

(** The callbacks do not buffer packets behind the library's back. *)
Class CbShrinks (W : Type) `{!Env W} (p : nat) : Prop := {
  cb_send_shrinks : forall dst packet, stable (shrinks p) (cb_send dst packet);
  cb_deliver_shrinks : forall mac ch payload stream,
    stable (shrinks p) (cb_deliver mac ch payload stream);
  cb_event_shrinks : forall mac ch reason first last,
    stable (shrinks p) (cb_event mac ch reason first last) }.

#[export] Hint Resolve cb_send_shrinks cb_deliver_shrinks cb_event_shrinks : stable.

Definition lost_used (c : keemash_rel_ctx_t) (p : nat) : nat :=
  count_if l_used (p_pending_lost (peer_at c p)).

Lemma measure_eq c p : consume_measure c p = (2 * count_if r_used (rx c) + lost_used c p)%nat.
Proof. done. Qed.

Lemma lost_used_set_peer c p q f :
  (forall s, count_if l_used (p_pending_lost (f s)) <= count_if l_used (p_pending_lost s))%nat ->
  (lost_used (set_peer q f c) p <= lost_used c p)%nat.
Proof.
  intros H. unfold lost_used, peer_at, set_peer. cbn. unfold setter.
  rewrite !nth_lookup, list_lookup_alter. destruct (decide (q = p)) as [->|]; [|done].
  destruct (peers c !! p); cbn; [apply H|done].
Qed.

Section Shrinks.
Context {W : Type} `{!Env W} (p : nat) `{!CbShrinks W p}.

Lemma shrinks_same f :
  (forall c, rx (f c) = rx c /\ peers (f c) = peers c) ->
  stable (shrinks p) (mod_ctx (W := W) f).
Proof.
  intros H s. destruct (H s.1) as [E1 E2]. unfold shrinks. rewrite !measure_eq.
  unfold lost_used, peer_at. cbn. by rewrite E1, E2.
Qed.
Lemma shrinks_mod_peer q f :
  (forall s, count_if l_used (p_pending_lost (f s)) <= count_if l_used (p_pending_lost s))%nat ->
  stable (shrinks p) (mod_peer (W := W) q f).
Proof.
  intros H s. unfold shrinks. rewrite !measure_eq.
  pose proof (lost_used_set_peer s.1 p q f H) as Hl.
  change (rx (mod_peer q f s).2.1) with (rx s.1).
  change ((mod_peer q f s).2.1) with (set_peer q f s.1). lia.
Qed.
Lemma shrinks_zero_rx i : stable (shrinks p) (mod_rx (W := W) i (fun _ => rx_zero)).
Proof.
  intros s. unfold shrinks. rewrite !measure_eq. unfold lost_used, peer_at. cbn.
  unfold setter.
  assert (count_if r_used (alter (fun _ => rx_zero) i (rx s.1)) <= count_if r_used (rx s.1))%nat.
  { eapply count_if_Forall2; [|by apply (Forall2_alter rx_le)].
    intros x y [E| ->]; [by rewrite E|done]. }
  lia.
Qed.

#[export] Instance shrinks_quiet : Quiet (@shrinks W p).
Proof.
  split; try typeclasses eauto; eauto with stable.
  - intros s. unfold now_ms. rewrite bind_eq. unfold lift_world.
    unfold shrinks. by destruct (esp_timer_get_time s.2).
  - intros f H. apply shrinks_same. intros c. specialize (H c). unfold ctx_core in H.
    by injection H as ?????.
  - intros q f H. apply shrinks_mod_peer. intros s. specialize (H s). unfold peer_core in H.
    injection H as ????? E ??. by rewrite E.
  - intros P. by apply shrinks_same.
  - intros i. by apply shrinks_same.
  - apply shrinks_zero_rx.
  - intros i. by apply shrinks_same.
  - intros q. apply shrinks_mod_peer. intros s. unfold peer_restart. cbn.
    unfold KM_PENDING_LOST_RANGES. lia.
Qed.

Lemma shrinks_deliver q ch k i : stable (shrinks p) (deliver (W := W) q ch k i).
Proof. unfold deliver. quiet_go. Qed.
Lemma shrinks_mod_reasm i f : stable (shrinks p) (mod_reasm (W := W) i f).
Proof. by apply shrinks_same. Qed.
Hint Resolve shrinks_mod_reasm : stable.
Lemma shrinks_reassembly_find q rh b : stable (shrinks p) (reassembly_find (W := W) q rh b).
Proof. unfold reassembly_find. quiet_go. Qed.
Lemma shrinks_set_expected q ch v : stable (shrinks p) (set_expected (W := W) q ch v).
Proof. unfold set_expected. by apply shrinks_mod_peer. Qed.
End Shrinks.

#[export] Hint Resolve shrinks_deliver shrinks_mod_reasm shrinks_reassembly_find
  shrinks_set_expected : stable.

(** ** Recording a lost range takes at most one entry *)

Definition lost_count_le (rs rs' : list pending_lost_range_t) : Prop :=
  (count_if l_used rs' <= count_if l_used rs)%nat.

Lemma l_used_widen r f l : l_used (range_widen r f l) = l_used r.
Proof. unfold range_widen. by repeat split_if. Qed.

Lemma count_lost_alter rs i f :
  (forall r, l_used (f r) = true -> l_used r = true) ->
  (count_if l_used (alter f i rs) <= count_if l_used rs)%nat.
Proof.
  intros H. eapply count_if_Forall2; [|apply (Forall2_alter (fun r r' => l_used r' = true -> l_used r = true))];
    auto.
Qed.

Lemma count_lost_insert rs i r :
  (l_used r = true -> l_used (nth i rs lost_zero) = true) ->
  (count_if l_used (<[i := r]> rs) <= count_if l_used rs)%nat.
Proof.
  intros H. destruct (rs !! i) as [x|] eqn:E.
  - pose proof (count_if_insert l_used rs i x r E). rewrite (nth_lookup_Some _ _ _ _ E) in H.
    destruct (l_used r); [rewrite (H eq_refl) in *|]; destruct (l_used x); lia.
  - rewrite list_insert_ge; [done|]. by apply lookup_ge_None.
Qed.

Lemma absorb_one_count ch i rs j :
  (count_if l_used (absorb_one ch i rs j) <= count_if l_used rs)%nat.
Proof.
  unfold absorb_one. cbn zeta. repeat split_if; try done.
  etrans; [apply count_lost_insert; done|]. apply count_lost_insert. by rewrite l_used_widen.
Qed.

Lemma absorb_all_count ch i rs : (count_if l_used (absorb_all ch i rs) <= count_if l_used rs)%nat.
Proof.
  unfold absorb_all. revert rs. induction (seq 0 _) as [|j js IH]; intros rs; [done|].
  cbn [fold_left]. etrans; [apply IH|apply absorb_one_count].
Qed.

Lemma pending_merge_count n ch f l rs :
  (count_if l_used (pending_merge n ch f l rs).2 <= count_if l_used rs)%nat.
Proof.
  revert f l rs. induction n as [|n IH]; intros f l rs; [done|]. cbn [pending_merge].
  destruct (find_idx _ rs) as [i|]; [|done]. cbn zeta. etrans; [apply IH|].
  etrans; [apply absorb_all_count|]. apply count_lost_alter. intros r.
  by rewrite l_used_widen.
Qed.

Lemma pending_lost_add_count ch f l rs :
  (count_if l_used (pending_lost_add ch f l rs).2 <= S (count_if l_used rs))%nat.
Proof.
  unfold pending_lost_add.
  pose proof (pending_merge_count KM_PENDING_LOST_RANGES ch f l rs) as H.
  destruct (pending_merge _ ch f l rs) as [[f' l'] rs']. cbn [snd] in H.
  split_if; cbn [snd]; [lia|]. destruct (find_idx _ rs') as [i|] eqn:E; cbn [snd]; [|lia].
  apply find_idx_Some in E as [(x & Hx & Hu) _]. bools.
  match goal with |- context [<[i := ?r]> rs'] =>
    pose proof (count_if_insert l_used rs' i x r Hx) as Hc end.
  rewrite Hu in Hc. cbn in Hc. lia.
Qed.

(** ** Fuel independence *)

Section Fuel.
Context {W : Type} `{!Env W} (p : nat) `{!CbShrinks W p}.
Abbreviation consumer := (nat -> Z -> Rel W unit).
Abbreviation mu s := (consume_measure s.1 p).

(** Two consumers that agree, without growing the measure, below a bound. *)
Definition agree_below (k : nat) (f g : consumer) : Prop :=
  forall ch s, (mu s <= k)%nat -> f p ch s = g p ch s /\ (mu (f p ch s).2 <= mu s)%nat.

Lemma agree_below_le k k' f g : (k' <= k)%nat -> agree_below k f g -> agree_below k' f g.
Proof. intros Hk H ch s Hs. apply H. lia. Qed.

Lemma bind_shrinks {A B} (m : Rel W A) (k : A -> Rel W B) s n :
  stable (shrinks p) m -> (forall s', (mu s' <= mu s)%nat -> (mu (k (m s).1 s').2 <= n)%nat) ->
  (mu ((m ≫= k) s).2 <= n)%nat.
Proof. intros Hm Hk. rewrite bind_eq. apply Hk. apply Hm. Qed.

Lemma shrinks_le {A} (m : Rel W A) s n :
  stable (shrinks p) m -> (mu s <= n)%nat -> (mu (m s).2 <= n)%nat.
Proof. intros Hm Hs. etrans; [apply Hm|done]. Qed.

(** What [receiver_drop_range] does after the buffers were cleared. *)
Definition drop_tail (consume : consumer) (ch reason first last : Z) : Rel W unit :=
  c ← get_ctx;
  let notify :=
    _ ← send_lost_packet p ch reason MESH_V2_LOST_FLAG_RECEIVER_DROP first last; mret tt in
  let expected := expected_of c p ch in
  if seq_in_range expected first last then
    set_expected p ch (u32 (last + 1));; consume p ch;; notify
  else if seq_before expected first then
    let '(added, ranges) := pending_lost_add ch first last (p_pending_lost (peer_at c p)) in
    mod_peer p (fun s => s <| p_pending_lost := ranges |>);;
    if added then notify else clear_peer_buffers p MESH_V2_LOST_REASON_OVERFLOW
  else notify.

Definition drop_head (ch reason first last : Z) : Rel W unit :=
  c ← get_ctx;
  let mac := p_mac (peer_at c p) in
  mod_ctx (fun c => c <| rx ::= clear_if (drop_rx_in mac ch first last) rx_zero |>
    <| reassembly ::= clear_if (drop_reasm_in mac ch first last) reasm_zero |>);;
  record_lost p ch reason first last (lost_span first last).

Lemma receiver_drop_split consume ch reason first last s :
  receiver_drop_range_with consume p ch reason first last s
  = (drop_head ch reason first last;; drop_tail consume ch reason first last) s.
Proof. unfold drop_head. rewrite !bind_assoc. reflexivity. Qed.

Lemma drop_head_shrinks ch reason first last : stable (shrinks p) (drop_head ch reason first last).
Proof.
  unfold drop_head. refine (stable_bind _ _ _ _ _); [refine (stable_gets _ _)|intros c].
  refine (stable_bind _ _ _ _ _); [|intros _; eauto with stable].
  intros s. unfold shrinks. rewrite !measure_eq. unfold lost_used, peer_at. cbn.
  unfold setter.
  pose proof (count_if_clear_le (drop_rx_in (p_mac (peer_at c p)) ch first last) r_used
    rx_zero (rx s.1) eq_refl) as H. unfold peer_at in H. lia.
Qed.

Lemma set_pending_measure (s : keemash_rel_ctx_t * W) ch first last :
  (mu (mod_peer p (fun x => x <| p_pending_lost :=
        (pending_lost_add ch first last (p_pending_lost (peer_at s.1 p))).2 |>) s).2
   <= S (mu s))%nat.
Proof.
  rewrite !measure_eq. unfold mod_peer, mod_ctx, modify. cbn [fst snd].
  unfold lost_used, set_peer, peer_at. cbn. unfold setter.
  rewrite !nth_lookup, list_lookup_alter_eq.
  destruct (peers s.1 !! p) as [x|]; cbn; [|lia].
  pose proof (pending_lost_add_count ch first last (p_pending_lost x)). lia.
Qed.

Lemma drop_tail_agree k f g ch reason first last s :
  agree_below k f g -> (mu s <= k)%nat ->
  drop_tail f ch reason first last s = drop_tail g ch reason first last s /\
  (mu (drop_tail f ch reason first last s).2 <= S (mu s))%nat.
Proof.
  intros Hfg Hs. unfold drop_tail. rewrite !bind_eq. cbn [get_ctx gets fst snd].
  destruct (seq_in_range _ _ _).
  { rewrite !bind_eq. cbn [set_expected].
    set (s1 := (set_expected p ch (u32 (last + 1)) s).2).
    assert (H1 : (mu s1 <= mu s)%nat) by apply (shrinks_set_expected p p ch (u32 (last + 1)) s).
    assert (H2 : (mu s1 <= k)%nat) by lia.
    destruct (Hfg ch s1 H2) as [Eq Hle]. rewrite <- Eq. split; [done|].
    set (s2 := (f p ch s1).2) in *.
    apply (shrinks_le (mret tt)); [quiet_go|]. apply shrinks_le; [eauto with stable|lia]. }
  destruct (seq_before _ _).
  - pose proof (set_pending_measure s ch first last) as Hm.
    destruct (pending_lost_add _ _ _ _) as [added rs]. cbn [snd] in Hm.
    split; [done|]. rewrite bind_eq. apply shrinks_le; [quiet_go|exact Hm].
  - split; [done|]. apply shrinks_le; [quiet_go|lia].
Qed.

Lemma receiver_drop_agree k f g ch reason first last s :
  agree_below k f g -> (mu s <= k)%nat ->
  receiver_drop_range_with f p ch reason first last s
    = receiver_drop_range_with g p ch reason first last s /\
  (mu (receiver_drop_range_with f p ch reason first last s).2 <= S (mu s))%nat.
Proof.
  intros Hfg Hs. rewrite !receiver_drop_split, !bind_eq.
  pose proof (drop_head_shrinks ch reason first last s) as Hh. unfold shrinks in Hh.
  destruct (drop_tail_agree k f g ch reason first last (drop_head ch reason first last s).2)
    as [E Hle]; [done|lia|]. split; [exact E|]. lia.
Qed.

Lemma deliver_fragment_agree k f g rh payload s :
  agree_below k f g -> (mu s <= k)%nat ->
  deliver_fragment_with f p rh payload s = deliver_fragment_with g p rh payload s /\
  (mu (deliver_fragment_with f p rh payload s).2 <= S (mu s))%nat.
Proof.
  intros Hfg Hs. unfold deliver_fragment_with.
  destruct (_ <=? 1).
  { split; [done|]. apply shrinks_le; [quiet_go|lia]. }
  destruct (_ || _); [split; [done|cbn; lia]|]. rewrite !bind_eq.
  pose proof (shrinks_reassembly_find p p rh true s) as Hf. unfold shrinks in Hf.
  destruct (reassembly_find p rh true s) as [[i|] s1]; cbn [fst snd] in *.
  - split; [done|]. apply shrinks_le; [quiet_go|lia].
  - rewrite !bind_eq.
    set (s2 := (mod_peer p _ s1).2).
    assert (H2 : (mu s2 <= mu s1)%nat) by (apply shrinks_mod_peer; done).
    destruct (receiver_drop_agree k f g (rh_channel_id rh) MESH_V2_LOST_REASON_OVERFLOW
      (u32 (rh_seq rh - rh_fragment_index rh))
      (u32 (u32 (rh_seq rh - rh_fragment_index rh) + rh_fragment_count rh - 1)) s2)
      as [E Hle]; [done|lia|]. split; [exact E|]. lia.
Qed.

(** One round of the loop: skip a lost range, take a slot, or stop. *)
Definition skip_range (ch : Z) (i : nat) (c : keemash_rel_ctx_t) : keemash_rel_ctx_t :=
  let range := nth i (p_pending_lost (peer_at c p)) lost_zero in
  set_peer p (fun s => s <| p_pending_lost ::= <[i := lost_zero]> |>)
    (set_peer p (fun s => s <| p_expected_seq ::= ch_set ch (u32 (l_last range + 1)) |>) c).
Definition take_slot (ch : Z) (i : nat) (c : keemash_rel_ctx_t) : keemash_rel_ctx_t :=
  set_peer p (fun s => s <| p_expected_seq ::= ch_set ch (u32 (expected_of c p ch + 1)) |>)
    (set_rx i (fun _ => rx_zero) c).
Definition next_lost (ch : Z) (c : keemash_rel_ctx_t) : option nat :=
  find_idx (is_lost_slot ch (expected_of c p ch)) (p_pending_lost (peer_at c p)).
Definition next_slot (ch : Z) (c : keemash_rel_ctx_t) : option nat :=
  rx_find c p ch (expected_of c p ch).

Lemma consume_n_S n ch s :
  consume_contiguous_n (S n) p ch s =
  match next_lost ch s.1 with
  | Some i => consume_contiguous_n n p ch (skip_range ch i s.1, s.2)
  | None =>
      match next_slot ch s.1 with
      | None => (tt, s)
      | Some i =>
          consume_contiguous_n n p ch
            (deliver_fragment_with (consume_contiguous_n n) p (r_hdr (rx_at s.1 i))
               (r_payload (rx_at s.1 i)) (take_slot ch i s.1, s.2)).2
      end
  end.
Proof.
  cbn [consume_contiguous_n]. rewrite bind_eq. cbn [get_ctx gets fst snd].
  fold (next_lost ch s.1). destruct (next_lost ch s.1); [done|].
  fold (next_slot ch s.1). destruct (next_slot ch s.1) as [i|]; [|done].
  rewrite !bind_eq. reflexivity.
Qed.

Lemma skip_range_measure ch i c :
  next_lost ch c = Some i ->
  (S (consume_measure (skip_range ch i c) p) <= consume_measure c p)%nat.
Proof.
  unfold next_lost. intros Hi. apply find_idx_Some in Hi as [(x & Hx & Hu) _].
  unfold is_lost_slot in Hu. bools. rewrite !measure_eq.
  change (rx (skip_range ch i c)) with (rx c).
  enough (S (lost_used (skip_range ch i c) p) <= lost_used c p)%nat by lia.
  unfold lost_used, skip_range, peer_at, set_peer in *. cbn. unfold setter.
  rewrite !nth_lookup, !list_lookup_alter_eq in *.
  destruct (peers c !! p) as [y|]; cbn in *.
  - unfold setter. pose proof (count_if_insert l_used _ i x lost_zero Hx) as Hc.
    rewrite H in Hc. cbn in Hc. lia.
  - destruct i as [|[|[|[|[|[|[|[|i]]]]]]]]; cbn in Hx; simplify_eq; done.
Qed.

Lemma take_slot_measure ch i c :
  next_slot ch c = Some i ->
  (S (S (consume_measure (take_slot ch i c) p)) <= consume_measure c p)%nat.
Proof.
  unfold next_slot, rx_find. intros Hi. apply find_idx_Some in Hi as [(x & Hx & Hu) _].
  unfold rx_is in Hu. bools. rewrite !measure_eq.
  assert (Hl : (lost_used (take_slot ch i c) p <= lost_used c p)%nat).
  { unfold take_slot. etrans; [by apply lost_used_set_peer|done]. }
  enough (S (count_if r_used (rx (take_slot ch i c))) <= count_if r_used (rx c))%nat by lia.
  unfold take_slot. cbn. unfold setter.
  rewrite alter_const_insert.
  pose proof (count_if_insert r_used (rx c) i x rx_zero Hx) as Hc.
  rewrite H in Hc. cbn in Hc. lia.
Qed.

Lemma consume_fuel n n' :
  forall ch s, (mu s < n)%nat -> (mu s < n')%nat ->
  consume_contiguous_n n p ch s = consume_contiguous_n n' p ch s /\
  (mu (consume_contiguous_n n p ch s).2 <= mu s)%nat.
Proof.
  revert n'. induction n as [|n IH]; intros n' ch s Hn Hn'; [lia|].
  destruct n' as [|n']; [lia|]. rewrite !consume_n_S.
  destruct (next_lost ch s.1) as [i|] eqn:El.
  { pose proof (skip_range_measure ch i s.1 El) as Hm.
    destruct (IH n' ch (skip_range ch i s.1, s.2)) as [E Hle]; cbn [fst]; [lia..|].
    split; [exact E|]. cbn [fst] in Hle. lia. }
  destruct (next_slot ch s.1) as [i|] eqn:Es; [|split; [done|cbn; lia]].
  pose proof (take_slot_measure ch i s.1 Es) as Hm.
  set (s1 := (take_slot ch i s.1, s.2)) in *.
  change (take_slot ch i s.1) with s1.1 in Hm.
  assert (Hag : agree_below (mu s1) (consume_contiguous_n n) (consume_contiguous_n n')).
  { intros ch' s' Hs'. apply IH; lia. }
  destruct (deliver_fragment_agree (mu s1) _ _ (r_hdr (rx_at s.1 i)) (r_payload (rx_at s.1 i))
    s1 Hag) as [E Hle]; [lia|].
  rewrite <- E. set (s2 := (deliver_fragment_with _ p _ _ s1).2) in *.
  destruct (IH n' ch s2) as [E' Hle']; [lia..|]. split; [exact E'|]. lia.
Qed.

Lemma consume_enough n ch s :
  (mu s < n)%nat -> consume_contiguous_n n p ch s = consume_contiguous p ch s.
Proof.
  intros H. unfold consume_contiguous. rewrite bind_eq. cbn [get_ctx gets fst snd].
  apply consume_fuel; lia.
Qed.

Lemma consume_shrinks ch : stable (shrinks p) (consume_contiguous p ch).
Proof.
  intros s. unfold shrinks. rewrite <- (consume_enough (S (mu s))) by lia.
  apply (consume_fuel _ (S (mu s))); lia.
Qed.

Lemma deliver_fragment_enough n rh payload s :
  (mu s < n)%nat ->
  deliver_fragment_with (consume_contiguous_n n) p rh payload s
  = deliver_fragment p rh payload s.
Proof.
  intros Hn. unfold deliver_fragment. apply (deliver_fragment_agree (mu s)); [|done].
  intros ch s' Hs'. rewrite consume_enough by lia. split; [done|]. apply consume_shrinks.
Qed.

Lemma deliver_fragment_measure rh payload s :
  (mu (deliver_fragment p rh payload s).2 <= S (mu s))%nat.
Proof.
  rewrite <- (deliver_fragment_enough (S (mu s))) by lia.
  apply (deliver_fragment_agree (mu s) _ (consume_contiguous_n (S (mu s)))); [|done].
  intros ch s' Hs'. split; [done|]. apply (consume_fuel _ (S (mu s))); lia.
Qed.

(** The loop of the sources, unrolled once. *)
Lemma consume_unroll ch s :
  consume_contiguous p ch s =
  match next_lost ch s.1 with
  | Some i => consume_contiguous p ch (skip_range ch i s.1, s.2)
  | None =>
      match next_slot ch s.1 with
      | None => (tt, s)
      | Some i =>
          consume_contiguous p ch
            (deliver_fragment p (r_hdr (rx_at s.1 i)) (r_payload (rx_at s.1 i))
               (take_slot ch i s.1, s.2)).2
      end
  end.
Proof.
  rewrite <- (consume_enough (S (S (mu s)))) by lia. rewrite consume_n_S.
  destruct (next_lost ch s.1) as [i|] eqn:El.
  { pose proof (skip_range_measure ch i s.1 El). apply consume_enough. cbn [fst]. lia. }
  destruct (next_slot ch s.1) as [i|] eqn:Es; [|done].
  pose proof (take_slot_measure ch i s.1 Es) as Hm.
  rewrite deliver_fragment_enough by (cbn [fst]; lia). apply consume_enough.
  pose proof (deliver_fragment_measure (r_hdr (rx_at s.1 i)) (r_payload (rx_at s.1 i))
    (take_slot ch i s.1, s.2)). cbn [fst] in *. lia.
Qed.
End Fuel.

(** ** Properties *)

(** In-order consumption terminates and leaves nothing to consume: when
    it returns, the expected number is neither in a recorded lost range nor in
    the receive buffer. *)
Theorem consume_contiguous_done {W} `{!Env W} (p : nat) `{!CbShrinks W p} ch s :
  let s' := (consume_contiguous p ch s).2 in
  next_lost p ch s'.1 = None /\ next_slot p ch s'.1 = None.
Proof.
  cbn zeta. remember (consume_measure s.1 p) as n eqn:Hn.
  revert s Hn. induction n as [n IH] using lt_wf_ind. intros s ->.
  rewrite (consume_unroll p).
  destruct (next_lost p ch s.1) as [i|] eqn:El.
  { eapply IH; [|done]. by apply (skip_range_measure p ch i s.1). }
  destruct (next_slot p ch s.1) as [i|] eqn:Es; [|by split].
  eapply IH; [|done].
  pose proof (take_slot_measure p ch i s.1 Es).
  pose proof (deliver_fragment_measure (W := W) p (r_hdr (rx_at s.1 i)) (r_payload (rx_at s.1 i))
    (take_slot p ch i s.1, s.2)). cbn [fst] in *. lia.
Qed.

(** The loop of [consume_contiguous] unrolled: a lost range is skipped
    before a buffered packet is taken, and every packet taken is delivered. *)
Theorem consume_contiguous_unroll {W} `{!Env W} (p : nat) `{!CbShrinks W p} ch s :
  consume_contiguous p ch s =
  match next_lost p ch s.1 with
  | Some i => consume_contiguous p ch (skip_range p ch i s.1, s.2)
  | None =>
      match next_slot p ch s.1 with
      | None => (tt, s)
      | Some i =>
          consume_contiguous p ch
            (deliver_fragment p (r_hdr (rx_at s.1 i)) (r_payload (rx_at s.1 i))
               (take_slot p ch i s.1, s.2)).2
      end
  end.
Proof. exact (consume_unroll p ch s). Qed.

#[export] Instance log_env_shrinks p : CbShrinks world p.
Proof. split; intros; intros s; red; reflexivity. Qed.

(** A node context with one buffered packet that is next in order. *)
Definition buffered_ctx : keemash_rel_ctx_t :=
  (run_call (Call_route (Some root_mac) true) (sample_ctx false, world_at 0 13)).2.1
    <| rx := [ {| r_used := true; r_peer := mac_zero_addr; r_channel := 3; r_seq := 1;
                  r_hdr := rh_zero <| rh_channel_id := 3 |> <| rh_fragment_count := 1 |>
                             <| rh_payload_len := 2 |> <| rh_seq := 1 |>;
                  r_payload := [7; 8] |} ] |>.

Example consume_contiguous_done_witness :
  let s' := (consume_contiguous 0 3 (buffered_ctx, world_at 0 1)).2 in
  (next_lost 0 3 s'.1 = None /\ next_slot 0 3 s'.1 = None) /\
  deliveries 3 (w_log s'.2) = [([7; 8], 0)] /\ expected_of s'.1 0 3 = 2.
Proof.
  split; [exact (consume_contiguous_done 0 3 (buffered_ctx, world_at 0 1))|].
  vm_compute. split; reflexivity.
Defined.

Example consume_contiguous_unroll_witness :
  next_lost 0 3 buffered_ctx = None /\ next_slot 0 3 buffered_ctx = Some 0%nat /\
  consume_contiguous 0 3 (buffered_ctx, world_at 0 1) =
  match next_lost 0 3 buffered_ctx with
  | Some i => consume_contiguous 0 3 (skip_range 0 3 i buffered_ctx, world_at 0 1)
  | None =>
      match next_slot 0 3 buffered_ctx with
      | None => (tt, (buffered_ctx, world_at 0 1))
      | Some i =>
          consume_contiguous 0 3
            (deliver_fragment 0 (r_hdr (rx_at buffered_ctx i)) (r_payload (rx_at buffered_ctx i))
               (take_slot 0 3 i buffered_ctx, world_at 0 1)).2
      end
  end.
Proof.
  split; [vm_compute; reflexivity|]. split; [vm_compute; reflexivity|].
  exact (consume_contiguous_unroll 0 3 (buffered_ctx, world_at 0 1)).
Defined.
