(* ===== verification/RelLost.v ===== *)
(** * The table of lost ranges

    [pending_lost_add] merges a lost range with the ranges it overlaps or
    touches.  As sets of sequence numbers of each channel, the new table is the
    old one with the range added; nothing is forgotten and nothing is invented.

    Wrapping comparison is a linear order only inside half of the number
    space, so the ranges are taken in a window of 2^31 - 1 numbers from a
    [base]; the receiver's window is 32 numbers from its expected one. *)

From S2P Require Import Prelude.
From S2P Require Import Words.
From S2P Require Import Esp.
From S2P Require Import MeshProto.
From S2P Require Import MeshWire.
From S2P Require Import RelState.
From S2P Require Import RelCore.
#[local] Open Scope Z_scope.

Section Window.
Context (base : Z) (Hbase : is_u32 base).

(** Distance from the base of the window. *)
Definition off (q : Z) : Z := u32 (q - base).
Definition inside (q : Z) : Prop := is_u32 q /\ off q < 2147483647.

Lemma before_off a b : inside a -> inside b -> seq_before a b = (off a <? off b).
Proof.
  intros [Ha Hao] [Hb Hbo]. unfold off in *. apply seq_before_window; [done..|lia|lia].
Qed.
Lemma off_nonneg q : 0 <= off q. Proof. unfold off. words. Qed.
Lemma off_inj a b : inside a -> inside b -> off a = off b -> a = b.
Proof. unfold inside, off. intros [? ?] [? ?] Heq. words. Qed.

Lemma in_range_off q f l :
  inside q -> inside f -> inside l -> off f <= off l ->
  seq_in_range q f l = (off f <=? off q) && (off q <=? off l).
Proof.
  unfold inside, off, seq_in_range. intros [Hq Hqo] [Hf Hfo] [Hl Hlo] Hle.
  apply eq_true_iff_eq. rewrite andb_true_iff, !Z.leb_le. words.
Qed.

Lemma succ_off l f : inside l -> inside f -> (u32 (l + 1) =? f) = (off l + 1 =? off f).
Proof.
  unfold inside, off. intros [Hl Hlo] [Hf Hfo]. apply eq_true_iff_eq. rewrite !Z.eqb_eq. words.
Qed.

Definition span_ok (f l : Z) : Prop := inside f /\ inside l /\ off f <= off l.

(** Two spans join when they overlap or touch. *)
Lemma join_spec f l f' l' :
  span_ok f l -> span_ok f' l' ->
  ranges_join f l f' l' = true <-> off f <= off l' + 1 /\ off f' <= off l + 1.
Proof.
  intros (Hf & Hl & Hle) (Hf' & Hl' & Hle'). unfold ranges_join.
  rewrite !(in_range_off _ f' l'), !(in_range_off _ f l), !succ_off by done.
  rewrite !orb_true_iff, !andb_true_iff, !Z.leb_le, !Z.eqb_eq.
  split; [intuition lia|]. intros [H1 H2].
  destruct (decide (off f' <= off f)); [destruct (decide (off f <= off l'));
    [left; left; left; left; left; lia|left; right; lia]|].
  destruct (decide (off f' <= off l)); [left; left; left; right; lia|right; lia].
Qed.

Definition range_ok (r : pending_lost_range_t) : Prop :=
  l_used r = true -> span_ok (l_first r) (l_last r).

Lemma widen_spec r f l :
  span_ok (l_first r) (l_last r) -> span_ok f l ->
  let r' := range_widen r f l in
  l_used r' = l_used r /\ l_channel r' = l_channel r /\
  off (l_first r') = Z.min (off (l_first r)) (off f) /\
  off (l_last r') = Z.max (off (l_last r)) (off l) /\
  span_ok (l_first r') (l_last r').
Proof.
  intros (Hrf & Hrl & Hr) (Hf & Hl & Hle). cbn zeta. unfold range_widen, seq_after.
  rewrite (before_off f (l_first r)) by done.
  destruct (off f <? off (l_first r)) eqn:E1; cbn [l_last set_field setter];
    rewrite (before_off (l_last r) l) by done;
    destruct (off (l_last r) <? off l) eqn:E2; cbn; bools;
    (split; [done|]); (split; [done|]); unfold span_ok; repeat split; try apply Hf;
    try apply Hl; try apply Hrf; try apply Hrl; lia.
Qed.

(** The sequence numbers of channel [ch] the table records as lost. *)
Definition covers (rs : list pending_lost_range_t) (ch q : Z) : Prop :=
  exists r, r ∈ rs /\ l_used r = true /\ l_channel r = ch /\
    off (l_first r) <= off q <= off (l_last r).
Definition in_span (f l q : Z) : Prop := off f <= off q <= off l.

Definition covers_one (r : pending_lost_range_t) (ch q : Z) : Prop :=
  l_used r = true /\ l_channel r = ch /\ in_span (l_first r) (l_last r) q.

Lemma covers_insert rs i r ch q :
  (i < length rs)%nat ->
  covers (<[i := r]> rs) ch q <->
  covers_one r ch q \/ exists j x, rs !! j = Some x /\ j <> i /\ covers_one x ch q.
Proof.
  intros Hi. unfold covers, covers_one. split.
  - intros (x & Hx & Hc). apply list_elem_of_lookup_1 in Hx as [j Hx].
    destruct (decide (j = i)) as [->|Hne].
    + rewrite list_lookup_insert_eq in Hx by done. injection Hx as <-. by left.
    + rewrite list_lookup_insert_ne in Hx by done. right. exists j, x. auto.
  - intros [Hc|(j & x & Hx & Hne & Hc)].
    + exists r. split; [|done]. apply (list_elem_of_lookup_2 _ i).
      by apply list_lookup_insert_eq.
    + exists x. split; [|done]. apply (list_elem_of_lookup_2 _ j).
      by rewrite list_lookup_insert_ne.
Qed.

Lemma covers_lookup rs i r ch q :
  rs !! i = Some r ->
  covers rs ch q <->
  covers_one r ch q \/ exists j x, rs !! j = Some x /\ j <> i /\ covers_one x ch q.
Proof.
  intros Hi. rewrite <- (list_insert_id rs i r Hi) at 1.
  apply covers_insert. by eapply lookup_lt_Some.
Qed.

Definition table_ok (rs : list pending_lost_range_t) : Prop := Forall range_ok rs.

Lemma table_ok_insert rs i r : table_ok rs -> range_ok r -> table_ok (<[i := r]> rs).
Proof. intros. by apply Forall_insert. Qed.

Lemma zero_ok : range_ok lost_zero. Proof. done. Qed.

Lemma zero_covers ch q : ~ covers_one lost_zero ch q. Proof. by intros [? _]. Qed.

(** Range [i] is in use on channel [ch]. *)
Definition live (rs : list pending_lost_range_t) (ch : Z) (i : nat) : Prop :=
  exists r, rs !! i = Some r /\ l_used r = true /\ l_channel r = ch.

Lemma widen_covers r f l ch q :
  l_used r = true -> l_channel r = ch -> span_ok (l_first r) (l_last r) -> span_ok f l ->
  ranges_join f l (l_first r) (l_last r) = true ->
  covers_one (range_widen r f l) ch q <-> covers_one r ch q \/ in_span f l q.
Proof.
  intros Hu Hc Hr Hf Hj. apply join_spec in Hj; [|done..].
  destruct (widen_spec r f l Hr Hf) as (E1 & E2 & E3 & E4 & _).
  unfold covers_one, in_span. rewrite E1, E2, E3, E4, Hu, Hc.
  destruct Hr as (_ & _ & Hr), Hf as (_ & _ & Hf). intuition lia.
Qed.

Lemma absorb_one_covers ch i rs j ch' q :
  table_ok rs -> live rs ch i ->
  table_ok (absorb_one ch i rs j) /\ live (absorb_one ch i rs j) ch i /\
  (covers (absorb_one ch i rs j) ch' q <-> covers rs ch' q).
Proof.
  intros Hok (r & Hr & Hu & Hc). unfold absorb_one. cbn zeta.
  assert (Hi : (i < length rs)%nat) by by eapply lookup_lt_Some.
  rewrite (nth_lookup_Some _ _ lost_zero _ Hr).
  destruct (_ || _) eqn:E1; [split; [done|]; split; [by exists r|done]|].
  destruct (negb (ranges_join _ _ _ _)) eqn:E2; [split; [done|]; split; [by exists r|done]|].
  bools. apply Nat.eqb_neq in H. set (o := nth j rs lost_zero) in *.
  assert (Hj : rs !! j = Some o).
  { unfold o in *. rewrite nth_lookup in *. destruct (rs !! j); [done|]. cbn in *. done. }
  assert (Hor : range_ok o) by by eapply (Forall_lookup_1 _ _ _ _ Hok).
  assert (Hrr : range_ok r) by by eapply (Forall_lookup_1 _ _ _ _ Hok).
  specialize (Hor H1). specialize (Hrr Hu).
  set (r' := range_widen r (l_first o) (l_last o)).
  destruct (widen_spec r (l_first o) (l_last o) Hrr Hor) as (W1 & W2 & _ & _ & W5).
  fold r' in W1, W2, W5.
  split; [|split].
  - apply table_ok_insert; [|apply zero_ok]. apply table_ok_insert; [done|]. by intros _.
  - exists r'. rewrite list_lookup_insert_ne, list_lookup_insert_eq by (done || congruence).
    rewrite W1, W2. done.
  - rewrite covers_insert by (by rewrite length_insert; eapply lookup_lt_Some).
    assert (Hw : covers_one r' ch' q <-> covers_one r ch' q \/ covers_one o ch' q).
    { destruct (decide (ch' = ch)) as [->|Hne].
      - unfold r'. rewrite (widen_covers r _ _ ch q) by done.
        unfold covers_one at 3. rewrite H1, H0. tauto.
      - unfold covers_one. rewrite W1, W2, Hc, H0. intuition congruence. }
    split.
    + intros [Hz|(k & x & Hk & Hne & Hx)]; [by apply zero_covers in Hz|].
      destruct (decide (k = i)) as [->|Hki].
      * rewrite list_lookup_insert_eq in Hk by done. injection Hk as <-.
        apply Hw in Hx as [Hx|Hx]; [exists r|exists o]; (split; [by eapply list_elem_of_lookup_2|exact Hx]).
      * rewrite list_lookup_insert_ne in Hk by done. exists x.
        split; [by eapply list_elem_of_lookup_2|exact Hx].
    + intros (x & Hx & Hcov). apply list_elem_of_lookup_1 in Hx as [k Hx]. right.
      destruct (decide (k = i)) as [->|Hki].
      { exists i, r'. rewrite list_lookup_insert_eq by done. split; [done|]. split; [done|].
        apply Hw. left. rewrite Hr in Hx. injection Hx as ->. exact Hcov. }
      destruct (decide (k = j)) as [->|Hkj].
      { exists i, r'. rewrite list_lookup_insert_eq by done. split; [done|]. split; [done|].
        apply Hw. right. rewrite Hj in Hx. injection Hx as ->. exact Hcov. }
      exists k, x. rewrite list_lookup_insert_ne by done. done.
Qed.

Lemma absorb_all_covers ch i rs ch' q :
  table_ok rs -> live rs ch i ->
  table_ok (absorb_all ch i rs) /\ live (absorb_all ch i rs) ch i /\
  (covers (absorb_all ch i rs) ch' q <-> covers rs ch' q).
Proof.
  unfold absorb_all. revert rs. induction (seq 0 _) as [|j js IH]; intros rs Hok Hl; [done|].
  cbn [fold_left]. destruct (absorb_one_covers ch i rs j ch' q Hok Hl) as (H1 & H2 & H3).
  destruct (IH _ H1 H2) as (H4 & H5 & H6). split; [done|]. split; [done|]. by rewrite H6.
Qed.

Lemma merge_covers n ch f l rs ch' q :
  table_ok rs -> span_ok f l ->
  let '(f', l', rs') := pending_merge n ch f l rs in
  table_ok rs' /\ span_ok f' l' /\
  (covers rs' ch' q \/ (ch' = ch /\ in_span f' l' q) <->
   covers rs ch' q \/ (ch' = ch /\ in_span f l q)).
Proof.
  revert f l rs. induction n as [|n IH]; intros f l rs Hok Hs; [done|]. cbn [pending_merge].
  destruct (find_idx _ rs) as [i|] eqn:Ei; [|done]. cbn zeta.
  apply find_idx_Some in Ei as [(r & Hr & Hc) _]. unfold range_candidate in Hc. bools.
  assert (Hrr : span_ok (l_first r) (l_last r)) by by apply (Forall_lookup_1 _ _ _ _ Hok Hr).
  destruct (widen_spec r f l Hrr Hs) as (W1 & W2 & _ & _ & W5).
  set (r' := range_widen r f l) in *.
  assert (Halt : alter (fun r => range_widen r f l) i rs = <[i := r']> rs).
  { apply list_eq. intros k. rewrite list_lookup_alter.
    destruct (decide (i = k)) as [<-|]; [|by rewrite list_lookup_insert_ne].
    rewrite list_lookup_insert_eq by (by eapply lookup_lt_Some). by rewrite Hr. }
  rewrite Halt. set (rs1 := <[i := r']> rs).
  assert (Hi : (i < length rs)%nat) by by eapply lookup_lt_Some.
  assert (Hok1 : table_ok rs1) by (apply table_ok_insert; [done|by intros _]).
  assert (Hl1 : live rs1 ch i).
  { exists r'. unfold rs1. rewrite list_lookup_insert_eq, W1, W2 by done. done. }
  assert (Hcov1 : covers rs1 ch' q <-> covers rs ch' q \/ (ch' = ch /\ in_span f l q)).
  { unfold rs1. rewrite covers_insert, (covers_lookup rs i r) by done.
    destruct (decide (ch' = ch)) as [->|Hne].
    - unfold r'. rewrite (widen_covers r f l ch q) by done. tauto.
    - unfold covers_one at 1 3. rewrite W1, W2, H1. intuition congruence. }
  destruct (absorb_all_covers ch i rs1 ch' q Hok1 Hl1) as (Hok2 & (x & Hx & Hux & Hcx) & Hcov2).
  set (rs2 := absorb_all ch i rs1) in *.
  rewrite (nth_lookup_Some _ _ lost_zero _ Hx).
  assert (Hxs : span_ok (l_first x) (l_last x)) by by apply (Forall_lookup_1 _ _ _ _ Hok2 Hx).
  specialize (IH (l_first x) (l_last x) rs2 Hok2 Hxs).
  destruct (pending_merge n ch _ _ rs2) as [[f' l'] rs'].
  destruct IH as (I1 & I2 & I4). split; [done|]. split; [done|].
  rewrite I4, Hcov2, Hcov1. split; [|tauto].
  intros [H3|[-> H3]]; [done|]. apply Hcov1, Hcov2. exists x.
  split; [by eapply list_elem_of_lookup_2|]. done.
Qed.
End Window.

Lemma pending_add_spec base ch f l rs rs' ch' q :
  is_u32 base -> table_ok base rs -> span_ok base f l ->
  pending_lost_add ch f l rs = (true, rs') ->
  table_ok base rs' /\
  (covers base rs' ch' q <-> covers base rs ch' q \/ (ch' = ch /\ in_span base f l q)).
Proof.
  intros Hb Hok Hs. unfold pending_lost_add.
  pose proof (merge_covers base Hb KM_PENDING_LOST_RANGES ch f l rs ch' q Hok Hs) as H.
  destruct (pending_merge _ ch f l rs) as [[f' l'] rs1]. destruct H as (H1 & H2 & H3).
  destruct (existsb _ rs1) eqn:Ee.
  - intros [= <-]. split; [done|]. rewrite <- H3. split; [by left|].
    intros [Hc|[-> Hc]]; [done|]. apply existsb_exists in Ee as (r & Hr & He). bools.
    apply list_elem_of_In, list_elem_of_lookup_1 in Hr as [k Hr].
    assert (Hrr : range_ok base r) by by apply (Forall_lookup_1 _ _ _ _ H1 Hr).
    destruct H2 as (F1 & F2 & F3). specialize (Hrr H). pose proof Hrr as (G1 & G2 & G3).
    rewrite (in_range_off base) in H0, H4 by done. bools. unfold in_span in Hc.
    exists r. split; [by eapply list_elem_of_lookup_2|]. split; [done|]. split; [done|]. lia.
  - destruct (find_idx _ rs1) as [i|] eqn:Ei; [|done]. intros [= <-].
    apply find_idx_Some in Ei as [(x & Hx & Hu) _]. bools.
    split; [by apply table_ok_insert; [|intros _]|].
    rewrite covers_insert by (by eapply lookup_lt_Some). rewrite <- H3, (covers_lookup _ rs1 i x) by done.
    unfold covers_one at 1 3. cbn [l_used l_channel l_first l_last]. rewrite Hu.
    intuition congruence.
Qed.

(** C25: recording a lost range adds exactly its sequence numbers, on its
    channel, to what the table records: merging with overlapping and adjacent
    ranges neither forgets a number nor invents one. *)
Theorem pending_lost_add_exact base ch f l rs rs' :
  is_u32 base -> table_ok base rs -> span_ok base f l ->
  pending_lost_add ch f l rs = (true, rs') ->
  table_ok base rs' /\
  forall ch' q, covers base rs' ch' q <-> covers base rs ch' q \/ (ch' = ch /\ in_span base f l q).
Proof.
  intros Hb Hok Hs E. split; [|intros ch' q];
    [apply (pending_add_spec base ch f l rs rs' 0 0)|apply (pending_add_spec base ch f l)]; done.
Qed.

(** Two ranges of channel 3 around the wrap of the sequence number, one of
    channel 4; the new range joins the first two. *)
Definition sample_ranges : list pending_lost_range_t :=
  [ {| l_used := true; l_channel := 3; l_first := 4294967290; l_last := 4294967293 |};
    {| l_used := true; l_channel := 4; l_first := 0; l_last := 1 |};
    {| l_used := true; l_channel := 3; l_first := 2; l_last := 5 |};
    lost_zero; lost_zero; lost_zero; lost_zero; lost_zero ].

Example pending_lost_add_exact_witness :
  pending_lost_add 3 4294967294 1 sample_ranges
  = (true, <[2%nat := lost_zero]> (<[0%nat :=
      {| l_used := true; l_channel := 3; l_first := 4294967290; l_last := 5 |}]> sample_ranges)) /\
  covers 4294967280 (pending_lost_add 3 4294967294 1 sample_ranges).2 3 0.
Proof.
  assert (Hs : span_ok 4294967280 4294967294 1)
    by (unfold span_ok, inside, off; vm_compute; repeat split; congruence).
  split; [vm_compute; reflexivity|].
  apply (pending_lost_add_exact 4294967280 3 4294967294 1 sample_ranges).
  - vm_compute. split; congruence.
  - repeat (apply List.Forall_cons; [intros H; try (vm_compute in H; congruence);
      unfold span_ok, inside, off; vm_compute; repeat split; congruence|]). apply List.Forall_nil.
  - exact Hs.
  - vm_compute. reflexivity.
  - right. split; [done|]. unfold in_span, off. vm_compute. split; congruence.
Defined.
