(* ===== verification/RelOrder.v ===== *)
(** * In-order, at-most-once delivery

    What the receiver promises to its client, stated without the receiver's
    data structures: whatever arrives of the first [N] numbers of a session (DATA of
    single-fragment messages in any order, with any duplication, and LOST announcements of
    ranges of them, or of what the receiver itself has to drop),
    the messages handed to the deliver callback are messages of the sender at strictly
    increasing positions of the sender's sequence.

    [msg] and [stream] are the sender's messages and stream identifiers by
    sequence number; position [k] carries sequence number [e0 + k] modulo 2^32.  [N] is
    below 2^31, the reach of the wrapping comparison: [wrapping_loss_redelivers] shows
    what a LOST announcement of more numbers does. *)

From Stdlib Require Import Sorted.
From S2P Require Import Prelude.
From S2P Require Import Words.
From S2P Require Import Esp.
From S2P Require Import MeshProto.
From S2P Require Import MeshWire.
From S2P Require Import RelState.
From S2P Require Import RelCore.
From S2P Require Import RelOps.
From S2P Require Import RelEnv.
From S2P Require Import RelQuiet.
From S2P Require Import RelInv.
From S2P Require Import RelConsume.
From S2P Require Import RelLost.
#[local] Open Scope Z_scope.

(** ** The frame: what acknowledgements, loss records and resets leave alone *)

Definition peer_id (q : peer_state_t) : bool * bytes := (p_used q, p_mac q).
Definition idents (c : keemash_rel_ctx_t) : list (bool * bytes) := peer_id <$> peers c.

Record frame (p : nat) (ch : Z) (s s' : keemash_rel_ctx_t * world) : Prop := {
  fr_cfg : cfg s'.1 = cfg s.1;
  fr_ids : idents s'.1 = idents s.1;
  fr_len : length (p_expected_seq (peer_at s'.1 p)) = length (p_expected_seq (peer_at s.1 p));
  fr_ready : p_ready (peer_at s'.1 p) = true ->
    p_ready (peer_at s.1 p) = true /\
    p_expected_seq (peer_at s'.1 p) = p_expected_seq (peer_at s.1 p);
  fr_rx : Forall2 rx_le (rx s.1) (rx s'.1);
  fr_lost : forall r, r ∈ p_pending_lost (peer_at s'.1 p) -> l_used r = true ->
    r ∈ p_pending_lost (peer_at s.1 p);
  fr_log : deliveries ch (w_log s'.2) = deliveries ch (w_log s.2) }.

Lemma rx_le_trans a b c : rx_le a b -> rx_le b c -> rx_le a c.
Proof. intros [H| ->]; [|done]. intros [H'| ->]; by left. Qed.

Lemma Forall2_same (l : list rx_slot_t) : Forall2 rx_le l l.
Proof. induction l; constructor; auto. Qed.

#[export] Instance frame_preorder p ch : PreOrder (frame p ch).
Proof.
  split.
  - intros s. split; try done. apply Forall2_same.
  - intros x y z [] []. split; try congruence.
    + intros H. destruct (fr_ready1 H) as [H1 H2]. destruct (fr_ready0 H1). split; congruence.
    + revert fr_rx0 fr_rx1. generalize (rx x.1) (rx y.1) (rx z.1). intros a b c Hab.
      revert c. induction Hab; intros c' Hc; inversion Hc; subst; constructor; eauto using rx_le_trans.
    + intros r Hr Hu. by apply fr_lost0, Hu; apply fr_lost1.
Qed.

Lemma nth_alter {A} (f : A -> A) l i j d :
  (i < length l)%nat \/ f d = d ->
  nth j (alter f i l) d = if decide (i = j) then f (nth j l d) else nth j l d.
Proof.
  intros H. rewrite !nth_lookup, list_lookup_alter. destruct (decide (i = j)) as [<-|]; [|done].
  destruct (l !! i) eqn:E; [done|]. cbn. apply lookup_ge_None in E. destruct H; [lia|done].
Qed.

Lemma peer_at_alter c p q f :
  peer_at (set_peer q f c) p = peer_at c p \/
  (q = p /\ (p < length (peers c))%nat /\ peer_at (set_peer q f c) p = f (peer_at c p)).
Proof.
  unfold peer_at, set_peer. cbn. unfold setter.
  destruct (decide (q < length (peers c))%nat) as [Hq|Hq].
  - rewrite nth_alter by auto. destruct (decide (q = p)) as [->|]; [right|left]; done.
  - left. rewrite !nth_lookup, list_lookup_alter. destruct (decide (q = p)) as [->|]; [|done].
    by rewrite (proj2 (lookup_ge_None _ _)) by lia.
Qed.

Lemma idents_set_peer c q f :
  (forall x, peer_id (f x) = peer_id x) -> idents (set_peer q f c) = idents c.
Proof.
  intros H. unfold idents, set_peer. cbn. unfold setter.
  apply list_eq. intros i. rewrite !list_lookup_fmap, list_lookup_alter.
  destruct (decide (q = i)) as [->|]; [|done]. destruct (peers c !! i); cbn; [|done].
  by rewrite H.
Qed.

Section Frame.
Context (p : nat) (ch : Z).

Lemma frame_same f :
  (forall c, cfg (f c) = cfg c /\ peers (f c) = peers c /\ rx (f c) = rx c) ->
  stable (frame p ch) (mod_ctx f).
Proof.
  intros H s. destruct (H s.1) as (E1 & E2 & E3).
  split; cbn; unfold idents, peer_at; rewrite ?E1, ?E2, ?E3; try done.
  by apply Forall2_same.
Qed.
Lemma frame_mod_peer q f :
  (forall x, peer_id (f x) = peer_id x /\
     length (p_expected_seq (f x)) = length (p_expected_seq x) /\
     (p_ready (f x) = true -> p_ready x = true /\ p_expected_seq (f x) = p_expected_seq x) /\
     (forall r, r ∈ p_pending_lost (f x) -> l_used r = true -> r ∈ p_pending_lost x)) ->
  stable (frame p ch) (mod_peer q f).
Proof.
  intros H s. change (mod_peer q f s).2 with (set_peer q f s.1, s.2).
  split; cbn [fst snd]; try done.
  - apply idents_set_peer. intros x. apply H.
  - destruct (peer_at_alter s.1 p q f) as [->|(_ & _ & ->)]; [done|]. apply H.
  - destruct (peer_at_alter s.1 p q f) as [->|(_ & _ & ->)]; [done|]. apply H.
  - by apply Forall2_same.
  - destruct (peer_at_alter s.1 p q f) as [->|(_ & _ & ->)]; [done|]. apply H.
Qed.
Lemma frame_zero_rx i : stable (frame p ch) (mod_rx i (fun _ => rx_zero)).
Proof. intros s. split; try done. cbn. by apply Forall2_alter. Qed.
Lemma frame_clear_rx P :
  stable (frame p ch) (mod_ctx (fun c => c <| rx ::= clear_if (P c) rx_zero |>)).
Proof. intros s. split; try done. cbn. by apply Forall2_clear_if. Qed.
Lemma frame_now : stable (frame p ch) (now_ms (W := world)).
Proof. intros s. destruct s. cbn. reflexivity. Qed.
Lemma frame_send d k : stable (frame p ch) (cb_send d k).
Proof.
  intros s. split; try done.
  - apply Forall2_same.
  - change (w_log (cb_send d k s).2.2) with (w_log s.2 ++ [Sent d k]).
    by rewrite deliveries_app, app_nil_r.
Qed.
Lemma frame_event m c r f l : stable (frame p ch) (cb_event m c r f l).
Proof.
  intros s. split; try done.
  - apply Forall2_same.
  - change (w_log (cb_event m c r f l s).2.2) with (w_log s.2 ++ [Lost m c r f l]).
    by rewrite deliveries_app, app_nil_r.
Qed.

#[export] Instance frame_quiet : Quiet (frame p ch).
Proof.
  split; try typeclasses eauto.
  - apply frame_send.
  - intros. apply frame_event.
  - apply frame_now.
  - intros f H. apply frame_same. intros c. specialize (H c). unfold ctx_core in H.
    injection H as ?????. done.
  - intros q f H. apply frame_mod_peer. intros x. specialize (H x). unfold peer_core in H.
    injection H as ????????. unfold peer_id. repeat split; congruence.
  - intros P. by apply frame_same.
  - intros i. by apply frame_same.
  - apply frame_zero_rx.
  - intros i. by apply frame_same.
  - intros q. apply frame_mod_peer. intros x. unfold peer_restart, set_all_seq. cbn.
    unfold setter. rewrite length_fold_ch_set. repeat split; try done.
    intros r Hr Hu. change (r ∈ replicate 8 lost_zero) in Hr.
    by apply elem_of_replicate in Hr as [-> _].
Qed.
End Frame.

#[export] Hint Resolve frame_clear_rx : stable.

(** ** The promise *)

Section Order.
Context (p : nat) (ch : Z) (e0 N : Z) (msg : Z -> bytes) (stream : Z -> Z).

Definition position_content (k : Z) : bytes * Z := (msg (u32 (e0 + k)), stream (u32 (e0 + k))).

(** A sequence number of the first [N]: the position of number [q] is [off e0 q]. *)
Definition sent (q : Z) : Prop := is_u32 q /\ off e0 q < N.

(** A DATA header and payload that carry the sender's message of their
    sequence number, in one fragment. *)
Definition genuine (rh : mesh_v2_reliable_hdr_t) (payload : bytes) : Prop :=
  rh_fragment_count rh = 1 /\ rh_channel_id rh = ch /\ sent (rh_seq rh) /\
  take (Z.to_nat (rh_payload_len rh)) payload = msg (rh_seq rh) /\
  rh_stream_id rh = stream (rh_seq rh).

Definition buffered_genuine (c : keemash_rel_ctx_t) : Prop :=
  forall r, r ∈ rx c -> r_used r = true -> r_channel r = ch ->
  r_peer r = p_mac (peer_at c p) ->
  genuine (r_hdr r) (r_payload r) /\ rh_seq (r_hdr r) = r_seq r.

(** The deliveries so far are at the increasing positions [ks], all below
    position [d]. *)
Definition delivered_at (log : list rel_event) (d : Z) (ks : list Z) : Prop :=
  deliveries ch log = position_content <$> ks /\
  StronglySorted Z.lt ks /\ Forall (fun k => 0 <= k < d) ks.

(** A range of sent numbers. *)
Definition sent_range (first last : Z) : Prop := span_ok e0 first last /\ sent last.
Definition lost_sent (rs : list pending_lost_range_t) : Prop :=
  forall r, r ∈ rs -> l_used r = true -> sent_range (l_first r) (l_last r).

Record in_order (s : keemash_rel_ctx_t * world) : Prop := {
  io_index : (p < length (peers s.1))%nat;
  io_expected_len : length (p_expected_seq (peer_at s.1 p)) = 10%nat;
  io_delivered : exists d ks, 0 <= d <= N /\ delivered_at (w_log s.2) d ks /\
    (p_ready (peer_at s.1 p) = true -> expected_of s.1 p ch = u32 (e0 + d));
  io_buffered : buffered_genuine s.1;
  io_lost : lost_sent (p_pending_lost (peer_at s.1 p)) }.

Lemma idents_mac c c' : idents c' = idents c -> p_mac (peer_at c' p) = p_mac (peer_at c p).
Proof.
  intros H. unfold peer_at. rewrite !nth_lookup.
  pose proof (f_equal (fun l => l !! p) H) as Hp. unfold idents in Hp; cbn beta in Hp.
  rewrite !list_lookup_fmap in Hp. unfold peer_id in Hp.
  destruct (peers c' !! p), (peers c !! p); cbn in *; congruence.
Qed.
Lemma idents_length c c' : idents c' = idents c -> length (peers c') = length (peers c).
Proof.
  intros H. apply (f_equal length) in H. unfold idents in H. by rewrite !length_fmap in H.
Qed.

Lemma buffered_shrink c c' :
  idents c' = idents c -> Forall2 rx_le (rx c) (rx c') ->
  buffered_genuine c -> buffered_genuine c'.
Proof.
  intros Hi Hle H r Hr Hu Hc Hp. rewrite (idents_mac _ _ Hi) in Hp.
  apply list_elem_of_lookup_1 in Hr as [i Hr].
  destruct (Forall2_lookup_r _ _ _ _ _ Hle Hr) as (r0 & Hr0 & [E| ->]); [congruence|].
  apply H; try done. by eapply list_elem_of_lookup_2.
Qed.

Lemma in_order_frame s s' : frame p ch s s' -> in_order s -> in_order s'.
Proof.
  intros [] []. split.
  - by rewrite (idents_length _ _ fr_ids0).
  - congruence.
  - destruct io_delivered0 as (d & ks & Hd & (Hl & Hs & Hk) & He). exists d, ks.
    split; [done|]. split; [by split; [rewrite fr_log0|]|].
    intros Hr. destruct (fr_ready0 Hr) as [Hr' E]. unfold expected_of. rewrite E. by apply He.
  - by eapply buffered_shrink.
  - intros r Hr Hu. apply io_lost0; [by apply fr_lost0|done].
Qed.

Lemma frame_in_order {A} (m : Rel world A) s :
  stable (frame p ch) m -> in_order s -> in_order (m s).2.
Proof. intros Hm. apply in_order_frame, Hm. Qed.

Context (Hch : 1 <= ch < KM_CHANNEL_COUNT) (He0 : is_u32 e0) (HN : 0 <= N <= 2147483646).

Lemma sent_inside q : sent q -> inside e0 q.
Proof. intros [Hq Hlt]. split; [done|lia]. Qed.
Lemma off_position d : 0 <= d <= N -> off e0 (u32 (e0 + d)) = d.
Proof. unfold off. words. Qed.
Lemma position_inside d : 0 <= d <= N -> inside e0 (u32 (e0 + d)).
Proof. intros Hd. split; [words|]. rewrite off_position by done. lia. Qed.
Lemma off_of q : is_u32 q -> u32 (e0 + off e0 q) = q.
Proof. unfold off. words. Qed.

(** Merging a sent range into a table of sent ranges. *)
Lemma pending_add_sent first last rs :
  lost_sent rs -> sent_range first last -> lost_sent (pending_lost_add ch first last rs).2.
Proof.
  intros Hrs [Hs Hl]. unfold pending_lost_add.
  assert (Hok : table_ok e0 rs).
  { apply List.Forall_forall. intros r Hr Hu. apply Hrs; [by apply list_elem_of_In|done]. }
  assert (Hc : forall c q, covers e0 rs c q -> off e0 q < N).
  { intros c q (r & Hr & Hu & _ & Hq). destruct (Hrs r Hr Hu) as [_ [_ ?]]. lia. }
  pose proof (fun c q => merge_covers e0 He0 KM_PENDING_LOST_RANGES ch first last rs c q Hok Hs) as H.
  destruct (pending_merge _ ch first last rs) as [[f' l'] rs'].
  destruct (H ch l') as (Hok' & Hs' & _).
  assert (Hb : forall c q, covers e0 rs' c q \/ (c = ch /\ in_span e0 f' l' q) -> off e0 q < N).
  { intros c q Hq. apply (H c q) in Hq as [Hq|[_ Hq]]; [by eapply Hc|].
    unfold in_span in Hq. destruct Hl. lia. }
  assert (Hl' : sent_range f' l').
  { split; [done|]. destruct Hs' as (Hf1 & Hl1 & Hle). split; [apply Hl1|].
    apply (Hb ch). right. unfold in_span. lia. }
  assert (Hrs' : lost_sent rs').
  { intros r Hr Hu. 
    pose proof (proj1 (List.Forall_forall _ _) Hok' r ltac:(by apply list_elem_of_In) Hu) as Hr'.
    split; [done|].
    destruct Hr' as (Hf1 & Hl1 & Hle). split; [apply Hl1|].
    apply (Hb (l_channel r)). left. exists r. repeat split; try done; lia. }
  clear - Hrs' Hl'. split_if; [done|]. destruct (find_idx _ rs'); [|done].
  intros r Hr Hu. apply list_elem_of_lookup_1 in Hr as [j Hj].
  apply list_lookup_insert_Some in Hj as [(_ & <- & _)|(_ & Hj)]; [done|].
  apply Hrs'; [by eapply list_elem_of_lookup_2|done].
Qed.

(** Assigning the expected number of the channel. *)
Lemma expected_set c v :
  (p < length (peers c))%nat -> length (p_expected_seq (peer_at c p)) = 10%nat ->
  expected_of (set_peer p (fun s => s <| p_expected_seq ::= ch_set ch v |>) c) p ch = v.
Proof.
  intros Hp Hl. unfold expected_of. unfold KM_CHANNEL_COUNT, MESH_V2_TUNNEL_CHANNEL_MAX in Hch.
  destruct (peer_at_alter c p p (fun s => s <| p_expected_seq ::= ch_set ch v |>))
    as [E|(_ & _ & E)].
  - unfold peer_at, set_peer in E. cbn in E. unfold setter in E.
    rewrite nth_alter in E by auto. rewrite decide_True in E by done.
    unfold peer_at at 1. unfold set_peer. cbn. unfold setter.
    rewrite nth_alter by auto. rewrite decide_True by done. cbn. unfold setter, ch_get, ch_set.
    apply nth_lookup_Some. apply list_lookup_insert_eq. unfold peer_at in Hl. lia.
  - rewrite E. cbn. unfold setter, ch_get, ch_set.
    apply nth_lookup_Some. apply list_lookup_insert_eq. lia.
Qed.

(** The receiver moves on to position [d'] without delivering. *)
Lemma in_order_advance s v d' :
  in_order s ->
  (forall d, 0 <= d <= N -> p_ready (peer_at s.1 p) = true ->
     expected_of s.1 p ch = u32 (e0 + d) -> d <= d' d <= N /\ v = u32 (e0 + d' d)) ->
  in_order (set_peer p (fun s => s <| p_expected_seq ::= ch_set ch v |>) s.1, s.2).
Proof.
  intros [] H. set (c' := set_peer p _ s.1).
  assert (Hids : idents c' = idents s.1) by by apply idents_set_peer.
  assert (Hrd : p_ready (peer_at c' p) = p_ready (peer_at s.1 p)).
  { unfold c'. by destruct (peer_at_alter s.1 p p (fun s => s <| p_expected_seq ::= ch_set ch v |>))
      as [->|(_ & _ & ->)]. }
  split; cbn [fst snd].
  - by rewrite (idents_length _ _ Hids).
  - unfold c'. destruct (peer_at_alter s.1 p p (fun s => s <| p_expected_seq ::= ch_set ch v |>))
      as [->|(_ & _ & ->)]; [done|]. cbn. unfold setter, ch_set. by rewrite length_insert.
  - destruct io_delivered0 as (d & ks & Hd & Hdel & He).
    destruct (p_ready (peer_at s.1 p)) eqn:Er.
    + destruct (H d Hd eq_refl (He eq_refl)) as [Hle Hv].
      exists (d' d), ks. split; [lia|]. destruct Hdel as (Hl & Hs & Hk).
      split; [split; [done|]; split; [done|]|].
      * eapply List.Forall_impl; [|exact Hk]. cbn. lia.
      * intros _. unfold c'. by rewrite expected_set.
    + exists d, ks. split; [done|]. split; [done|]. rewrite Hrd. done.
  - eapply buffered_shrink; [exact Hids|apply Forall2_same|done].
  - unfold c'. by destruct (peer_at_alter s.1 p p (fun s => s <| p_expected_seq ::= ch_set ch v |>))
      as [->|(_ & _ & ->)].
Qed.

Definition is_ready (s : keemash_rel_ctx_t * world) : Prop := p_ready (peer_at s.1 p) = true.
Definition moved (v : Z) (s : keemash_rel_ctx_t * world) : keemash_rel_ctx_t * world :=
  (set_peer p (fun s => s <| p_expected_seq ::= ch_set ch v |>) s.1, s.2).

Lemma set_expected_moved v s : (set_expected p ch v s).2 = moved v s.
Proof. done. Qed.
Lemma moved_ready v s : is_ready (moved v s) <-> is_ready s.
Proof.
  unfold is_ready, moved. cbn [fst].
  by destruct (peer_at_alter s.1 p p (fun s => s <| p_expected_seq ::= ch_set ch v |>))
    as [->|(_ & _ & ->)].
Qed.

Lemma in_order_next s :
  in_order s -> sent (expected_of s.1 p ch) ->
  in_order (moved (u32 (expected_of s.1 p ch + 1)) s).
Proof.
  intros Hio [_ Ho]. apply (in_order_advance _ _ (fun d => d + 1)); [done|].
  intros d Hd _ He. rewrite He, off_position in Ho by done. split; [lia|]. rewrite He. words.
Qed.

(** A message handed over at the expected position. *)
Lemma in_order_push s mac :
  in_order s -> is_ready s -> sent (expected_of s.1 p ch) ->
  let q := expected_of s.1 p ch in
  in_order (set_peer p (fun s => s <| p_expected_seq ::= ch_set ch (u32 (q + 1)) |>) s.1,
            s.2 <| w_log ::= fun l => l ++ [Delivered mac ch (msg q) (stream q)] |>).
Proof.
  intros Hio Hr Hsent q.
  assert (Hadv : in_order (moved (u32 (q + 1)) s)) by by apply in_order_next.
  destruct Hadv as [Ha1 Ha2 _ Ha4 Ha5].
  destruct Hio as [Hi1 Hi2 (d & ks & Hd & (Hl & Hs & Hk) & He) _ _].
  split; try done. cbn [fst snd].
  assert (d < N) by (destruct Hsent as [_ Ho]; rewrite He, off_position in Ho by done; lia).
  exists (d + 1), (ks ++ [d]). split; [lia|]. split; [split; [|split]|].
  - unfold upd_field, setter. cbn [w_log]. rewrite deliveries_app, Hl, fmap_app. f_equal.
    cbn. rewrite Z.eqb_refl. unfold position_content, q. by rewrite He.
  - clear - Hs Hk. induction Hs as [|k ks Hs IH Hlt]; [repeat constructor|].
    inversion Hk as [|? ? Hk0 Hk1]; subst. constructor; [by apply IH|].
    apply Forall_app; split; [done|]. repeat constructor. lia.
  - apply Forall_app; split; [|repeat constructor; lia].
    eapply List.Forall_impl; [|exact Hk]. cbn. lia.
  - intros _. rewrite expected_set by done. unfold q. rewrite He by done. words.
Qed.

Lemma deliver_single s rh payload :
  genuine rh payload ->
  (deliver_fragment p rh payload s).2 =
  if c_deliver (cfg s.1)
  then (s.1, s.2 <| w_log ::= fun l => l ++ [Delivered (peer_send_mac s.1 p) ch
                                 (msg (rh_seq rh)) (stream (rh_seq rh))] |>)
  else s.
Proof.
  intros (H1 & H2 & _ & H3 & H4). unfold deliver_fragment, deliver_fragment_with, deliver.
  rewrite H1, H2, H3, H4. cbn [Z.leb Z.compare Pos.compare Pos.compare_cont].
  rewrite bind_eq. cbn [get_ctx gets fst snd]. unfold when.
  by destruct (c_deliver (cfg s.1)).
Qed.

(** Delivering the packet with the expected number. *)
Lemma in_order_deliver s rh payload :
  in_order s -> is_ready s -> genuine rh payload -> rh_seq rh = expected_of s.1 p ch ->
  let s' := (deliver_fragment p rh payload (moved (u32 (rh_seq rh + 1)) s)).2 in
  in_order s' /\ is_ready s'.
Proof.
  intros Hio Hr Hg Hq. cbn zeta. rewrite deliver_single by done. rewrite Hq.
  pose proof (proj2 (moved_ready (u32 (expected_of s.1 p ch + 1)) s) Hr) as Hr'.
  assert (Hsent : sent (expected_of s.1 p ch)) by (rewrite <- Hq; apply Hg).
  destruct (c_deliver _); (split; [|exact Hr']).
  - exact (in_order_push s _ Hio Hr Hsent).
  - by apply in_order_next.
Qed.

Lemma skip_moved i (s : keemash_rel_ctx_t * world) :
  (skip_range p ch i s.1, s.2)
  = (mod_peer p (fun s => s <| p_pending_lost ::= <[i := lost_zero]> |>)
       (moved (u32 (l_last (nth i (p_pending_lost (peer_at s.1 p)) lost_zero) + 1)) s)).2.
Proof. done. Qed.

Lemma frame_pending i s :
  frame p ch s (mod_peer p (fun s => s <| p_pending_lost ::= <[i := lost_zero]> |>) s).2.
Proof.
  apply frame_mod_peer. intros x. repeat split; try done. cbn. unfold setter. intros r Hr Hu.
  apply list_elem_of_lookup_1 in Hr as [j Hj].
  apply list_lookup_insert_Some in Hj as [(_ & <- & _)|(_ & Hj)]; [done|].
  by eapply list_elem_of_lookup_2.
Qed.

(** Skipping a range of sent numbers that contains the expected one. *)
Lemma in_order_skip s first last :
  in_order s -> is_ready s -> sent_range first last ->
  seq_in_range (expected_of s.1 p ch) first last = true ->
  in_order (moved (u32 (last + 1)) s) /\ is_ready (moved (u32 (last + 1)) s).
Proof.
  intros Hio Hr [(Hf & Hl & Hle) [Hlu Hlo]] Hin. split; [|by apply moved_ready].
  apply (in_order_advance _ _ (fun _ => off e0 last + 1)); [done|].
  intros d Hd _ He. rewrite He in Hin.
  rewrite (in_range_off e0) in Hin by (done || by apply position_inside).
  rewrite off_position in Hin by done. bools. split; [lia|].
  rewrite <- (off_of last Hlu) at 1. words.
Qed.

Lemma frame_ready s s' :
  frame p ch s s' -> p_ready (peer_at s'.1 p) = p_ready (peer_at s.1 p) ->
  is_ready s -> is_ready s'.
Proof. unfold is_ready. intros _ ->. done. Qed.

Lemma take_moved i (s : keemash_rel_ctx_t * world) :
  (take_slot p ch i s.1, s.2)
  = moved (u32 (expected_of s.1 p ch + 1)) (mod_rx i (fun _ => rx_zero) s).2.
Proof. done. Qed.

Lemma next_slot_genuine s i :
  in_order s -> next_slot p ch s.1 = Some i ->
  genuine (r_hdr (rx_at s.1 i)) (r_payload (rx_at s.1 i)) /\
  rh_seq (r_hdr (rx_at s.1 i)) = expected_of s.1 p ch.
Proof.
  intros Hio Hi. unfold next_slot, rx_find in Hi.
  apply find_idx_Some in Hi as [(r & Hr & Hm) _]. unfold rx_is, mac_eq in Hm. bools.
  apply bytes_eqb_true in H0.
  assert (rx_at s.1 i = r) as -> by (unfold rx_at; by apply nth_lookup_Some).
  destruct (io_buffered s Hio r) as [Hg Hs]; auto; [by eapply list_elem_of_lookup_2|].
  split; [done|]. by rewrite Hs.
Qed.

Lemma next_lost_sent s i :
  in_order s -> next_lost p ch s.1 = Some i ->
  let r := nth i (p_pending_lost (peer_at s.1 p)) lost_zero in
  sent_range (l_first r) (l_last r) /\
  seq_in_range (expected_of s.1 p ch) (l_first r) (l_last r) = true.
Proof.
  intros Hio Hi. unfold next_lost in Hi. apply find_idx_Some in Hi as [(r & Hr & Hm) _].
  unfold is_lost_slot in Hm. bools. rewrite (nth_lookup_Some _ _ lost_zero _ Hr).
  split; [|done]. apply (io_lost s Hio); [by eapply list_elem_of_lookup_2|done].
Qed.

Lemma consume_in_order s :
  in_order s -> is_ready s -> in_order (consume_contiguous p ch s).2.
Proof.
  remember (consume_measure s.1 p) as n eqn:Hn. revert s Hn.
  induction n as [n IH] using lt_wf_ind. intros s -> Hio Hr.
  rewrite (consume_unroll p). destruct (next_lost p ch s.1) as [i|] eqn:El.
  { eapply IH; [by apply (skip_range_measure p ch i s.1)|done|..].
    - rewrite skip_moved. eapply in_order_frame; [apply frame_pending|].
      destruct (next_lost_sent s i Hio El) as [Hsr Hin]. by eapply in_order_skip.
    - rewrite skip_moved. unfold is_ready. unfold moved. cbn [fst snd].
      apply (moved_ready (u32 (l_last (nth i (p_pending_lost (peer_at s.1 p)) lost_zero) + 1))) in Hr.
      unfold is_ready, moved in Hr. cbn [fst] in Hr.
      match goal with |- p_ready (peer_at (mod_peer ?q ?f ?x).2.1 _) = _ =>
        change ((mod_peer q f x).2.1) with (set_peer q f x.1);
        destruct (peer_at_alter x.1 p q f) as [->|(_ & _ & ->)] end; exact Hr. }
  destruct (next_slot p ch s.1) as [i|] eqn:Es; [|done].
  destruct (next_slot_genuine s i Hio Es) as [Hg Hq]. rewrite take_moved, <- Hq.
  set (s1 := (mod_rx i (fun _ => rx_zero) s).2).
  assert (Hf : frame p ch s s1) by apply frame_zero_rx.
  destruct (in_order_deliver s1 (r_hdr (rx_at s.1 i)) (r_payload (rx_at s.1 i))) as [Hio' Hr'].
  { by eapply in_order_frame. } { exact Hr. } { done. } { exact Hq. }
  eapply IH; [|done|exact Hio'|exact Hr'].
  pose proof (take_slot_measure p ch i s.1 Es) as Hm.
  pose proof (deliver_fragment_measure (W := world) p (r_hdr (rx_at s.1 i))
    (r_payload (rx_at s.1 i)) (take_slot p ch i s.1, s.2)) as Hd.
  rewrite take_moved, <- Hq in Hd. cbn [fst] in Hd.
  change (take_slot p ch i s.1) with (moved (u32 (expected_of s.1 p ch + 1)) s1).1 in Hm.
  rewrite <- Hq in Hm. fold s1 in Hd. lia.
Qed.

(** Updates that keep the peer's readiness and expected numbers. *)
Definition steady (s s' : keemash_rel_ctx_t * world) : Prop :=
  frame p ch s s' /\ p_ready (peer_at s'.1 p) = p_ready (peer_at s.1 p).

Lemma steady_in_order s s' :
  steady s s' -> in_order s -> is_ready s ->
  in_order s' /\ is_ready s' /\ expected_of s'.1 p ch = expected_of s.1 p ch.
Proof.
  intros [Hf Hr] Hio Hs. unfold is_ready in *. rewrite Hr.
  split; [by eapply in_order_frame|]. split; [done|].
  unfold expected_of. by rewrite (proj2 (fr_ready _ _ _ _ Hf ltac:(by rewrite Hr))).
Qed.

Lemma steady_peer q f s :
  (forall x, peer_core (f x) = peer_core x) -> steady s (mod_peer q f s).2.
Proof.
  intros H. split; [by apply (quiet_stats (R := frame p ch))|].
  change ((mod_peer q f s).2.1) with (set_peer q f s.1).
  destruct (peer_at_alter s.1 p q f) as [->|(_ & _ & ->)]; [done|].
  specialize (H (peer_at s.1 p)). unfold peer_core in H. congruence.
Qed.
Lemma steady_trans s1 s2 s3 : steady s1 s2 -> steady s2 s3 -> steady s1 s3.
Proof. intros [H1 E1] [H2 E2]. split; [by etransitivity|congruence]. Qed.

Lemma steady_record_lost q c r f l n s : steady s (record_lost q c r f l n s).2.
Proof.
  unfold record_lost. rewrite bind_eq.
  match goal with |- context [mod_peer q ?f s] => set (s1 := (mod_peer q f s).2) end.
  apply (steady_trans _ s1).
  - by apply steady_peer.
  - split; [apply (quiet_notify (frame p ch))|].
    unfold notify_event. rewrite bind_eq. cbn [get_ctx gets fst snd]. unfold when.
    by destruct (c_event (cfg s1.1)).
Qed.

Lemma steady_drop_head reason first last s : steady s (drop_head p ch reason first last s).2.
Proof.
  unfold drop_head. rewrite bind_eq. cbn [get_ctx gets fst snd]. rewrite bind_eq.
  match goal with |- context [mod_ctx ?f s] => set (s1 := (mod_ctx f s).2) end.
  apply (steady_trans _ s1); [|apply steady_record_lost].
  split; [|done]. split; try done. by apply Forall2_clear_if.
Qed.

(** Recording a range as lost. *)
Lemma in_order_pending s first last :
  in_order s -> sent_range first last ->
  in_order (mod_peer p (fun x => x <| p_pending_lost :=
    (pending_lost_add ch first last (p_pending_lost (peer_at s.1 p))).2 |>) s).2.
Proof.
  intros Hio Hs.
  pose proof (pending_add_sent first last _ (io_lost s Hio) Hs) as Hadd.
  revert Hadd. generalize (pending_lost_add ch first last (p_pending_lost (peer_at s.1 p))).2.
  intros rs Hadd. destruct Hio as [H1 H2 H3 H4 H5].
  match goal with |- context [mod_peer p ?f s] =>
    change ((mod_peer p f s).2) with (set_peer p f s.1, s.2);
    pose proof (idents_set_peer s.1 p f ltac:(done)) as Hids;
    assert (E : exists rs', peer_at (set_peer p f s.1) p = (peer_at s.1 p) <| p_pending_lost := rs' |>
      /\ lost_sent rs') end.
  { destruct (peer_at_alter s.1 p p (fun x => x <| p_pending_lost := rs |>)) as [->|(_ & _ & ->)];
      [|by exists rs]. exists (p_pending_lost (peer_at s.1 p)).
    split; [by destruct (peer_at s.1 p)|done]. }
  destruct E as (rs' & E & Hrs').
  split; cbn [fst snd]; unfold expected_of; rewrite ?E; try done.
  - by rewrite (idents_length _ _ Hids).
  - eapply buffered_shrink; [exact Hids|apply Forall2_same|done].
Qed.

Lemma receiver_drop_in_order reason first last s :
  in_order s -> is_ready s -> sent_range first last ->
  in_order (receiver_drop_range p ch reason first last s).2.
Proof.
  intros Hio Hr Hsr. unfold receiver_drop_range. rewrite receiver_drop_split, bind_eq.
  destruct (steady_in_order _ _ (steady_drop_head reason first last s) Hio Hr) as (Hio1 & Hr1 & _).
  set (s1 := (drop_head p ch reason first last s).2) in *. clearbody s1. clear s Hio Hr.
  unfold drop_tail. rewrite bind_eq. cbn [get_ctx gets fst snd].
  destruct (seq_in_range _ _ _) eqn:E.
  - destruct (in_order_skip s1 first last) as [Hio2 Hr2]; [done..|].
    rewrite bind_eq, set_expected_moved, bind_eq. apply frame_in_order.
    + quiet_go.
    + by apply consume_in_order.
  - destruct (seq_before _ _).
    + pose proof (in_order_pending s1 first last Hio1 Hsr) as Hp.
      destruct (pending_lost_add _ _ _ _) as [added rs]. rewrite bind_eq.
      apply frame_in_order; [quiet_go|exact Hp].
    + apply frame_in_order; [quiet_go|done].
Qed.

(** Buffering a genuine packet. *)
Lemma in_order_buffer s i rh payload :
  in_order s -> genuine rh payload ->
  in_order (mod_rx i (fun _ =>
    {| r_used := true; r_peer := p_mac (peer_at s.1 p); r_channel := ch;
       r_seq := rh_seq rh; r_hdr := rh;
       r_payload := take (Z.to_nat (rh_payload_len rh)) payload |}) s).2.
Proof.
  intros [H1 H2 H3 H4] Hg. split; try done. cbn [fst].
  intros r Hr Hu Hc Hp. cbn in Hr. unfold setter in Hr.
  apply list_elem_of_lookup_1 in Hr as [j Hr].
  apply list_alter_Some in Hr as [(_ & x & _ & ->)|(_ & Hr)].
  - cbn. split; [|done]. destruct Hg as (G1 & G2 & G3 & G4 & G5).
    repeat split; try done; try apply G3. by rewrite take_take, Nat.min_id.
  - apply H4; try done. by eapply list_elem_of_lookup_2.
Qed.

Lemma sent_single q : sent q -> sent_range q q.
Proof. intros Hq. split; [|done]. split; [by apply sent_inside|]. by split; [apply sent_inside|]. Qed.

Lemma accept_in_order s rh payload :
  in_order s -> is_ready s -> genuine rh payload ->
  in_order (accept_data p rh payload (expected_of s.1 p ch) s).2.
Proof.
  intros Hio Hr Hg. pose proof Hg as (_ & Hc & _). unfold accept_data. rewrite Hc.
  destruct (seq_before _ _); [apply frame_in_order; [quiet_go|done]|].
  destruct (rh_seq rh =? _) eqn:Eq.
  { bools. rewrite bind_eq. cbn [get_ctx gets fst snd]. rewrite bind_eq, set_expected_moved.
    rewrite bind_eq, <- Eq.
    destruct (in_order_deliver s rh payload Hio Hr Hg Eq) as [Hio1 Hr1]. rewrite bind_eq.
    apply frame_in_order; [quiet_go|]. by apply consume_in_order. }
  destruct (_ <=? _); [apply frame_in_order; [quiet_go|done]|].
  rewrite bind_eq. cbn [get_ctx gets fst snd].
  destruct (rx_find _ _ _ _); [apply frame_in_order; [quiet_go|done]|].
  destruct (rx_alloc _ _) as [i|]; rewrite bind_eq.
  - apply frame_in_order; [quiet_go|]. by apply in_order_buffer.
  - destruct (steady_in_order s (count_overflow p s).2) as (Hio1 & Hr1 & _); try done.
    { by apply steady_peer. }
    rewrite bind_eq. apply receiver_drop_in_order; [done..|]. apply sent_single, Hg.
Qed.

Lemma overtake_in_order s rseq :
  in_order s -> is_ready s -> sent rseq -> seq_before (expected_of s.1 p ch) rseq = true ->
  let s' := (overtake p ch rseq s).2 in
  in_order s' /\ is_ready s' /\ expected_of s'.1 p ch = rseq.
Proof.
  intros Hio Hr Hq Hbefore. cbn zeta. unfold overtake. rewrite bind_eq.
  match goal with |- context [mod_ctx ?f s] => set (s1 := (mod_ctx f s).2) end.
  assert (H1 : steady s s1).
  { split; [|done]. apply (frame_clear_rx p ch (fun c r => r_used r && (r_channel r =? ch)
      && mac_eq (r_peer r) (p_mac (peer_at c p)))). }
  rewrite bind_eq.
  match goal with |- context [mod_peer p ?f s1] => set (s2 := (mod_peer p f s1).2) end.
  assert (H2 : steady s1 s2).
  { split.
    { apply frame_mod_peer. intros x. repeat split; try done. cbn. unfold setter, clear_if.
      intros r Hr0 Hu. apply list_elem_of_fmap in Hr0 as (y & -> & Hy).
      by destruct (l_used y && (l_channel y =? ch)). }
    unfold s2.
    match goal with |- context [mod_peer ?q ?f s1] =>
      change ((mod_peer q f s1).2.1) with (set_peer q f s1.1);
      destruct (peer_at_alter s1.1 p q f) as [->|(_ & _ & ->)] end; done. }
  destruct (steady_in_order s s2 (steady_trans _ _ _ H1 H2) Hio Hr) as (Hio2 & Hr2 & E2).
  rewrite set_expected_moved. split; [|split].
  - apply (in_order_advance _ _ (fun _ => off e0 rseq)); [done|].
    intros d Hd _ He. rewrite <- E2, He, (before_off e0) in Hbefore
      by (done || by apply position_inside || by apply sent_inside).
    rewrite off_position in Hbefore by done. bools. destruct Hq as [Hqu Hqo].
    split; [lia|]. by rewrite off_of.
  - by apply moved_ready.
  - destruct Hio2. by apply expected_set.
Qed.

(** *** The peer stays where it is *)

Definition same_ids (s s' : keemash_rel_ctx_t * world) : Prop :=
  cfg s'.1 = cfg s.1 /\ idents s'.1 = idents s.1.

#[local] Instance same_ids_quiet : Quiet same_ids.
Proof.
  split; try (intros; intros s; split; reflexivity).
  - split; [done|]. intros x y z [] []. split; congruence.
  - intros f H s. specialize (H s.1). unfold ctx_core in H. injection H as ?????.
    split; [done|]. unfold idents. cbn. congruence.
  - intros q f H s. split; [done|]. apply idents_set_peer. intros x. specialize (H x).
    unfold peer_core in H. injection H as ????????. unfold peer_id. congruence.
  - intros q s. split; [done|]. by apply idents_set_peer.
Qed.

Lemma same_mod_peer q f :
  (forall x, peer_id (f x) = peer_id x) -> stable same_ids (mod_peer q f).
Proof. intros H s. split; [done|]. by apply idents_set_peer. Qed.
Lemma same_mod_rx i f : stable same_ids (mod_rx i f).
Proof. intros s. done. Qed.
Lemma same_mod_reasm i f : stable same_ids (mod_reasm i f).
Proof. intros s. done. Qed.
Lemma same_deliver m c k i : stable same_ids (cb_deliver m c k i).
Proof. intros s. done. Qed.
Lemma same_set_expected q c v : stable same_ids (set_expected q c v).
Proof. by apply same_mod_peer. Qed.
#[local] Hint Resolve same_mod_rx same_mod_reasm same_deliver same_set_expected : stable.
#[local] Hint Extern 5 (stable same_ids (mod_peer _ _)) =>
  apply same_mod_peer; intros ?; reflexivity : stable.
#[local] Hint Extern 5 (stable same_ids (mod_ctx _)) =>
  intros ?; split; reflexivity : stable.

Lemma same_consume q c : stable same_ids (consume_contiguous q c).
Proof.
  unfold consume_contiguous. refine (stable_bind _ _ _ _ _); [quiet_go|intros c0].
  generalize (S (consume_measure c0 q)) as n. intros n. revert q c. induction n as [|n IH]; intros q c; cbn [consume_contiguous_n].
  - quiet_go.
  - unfold deliver_fragment_with, receiver_drop_range_with, deliver, reassembly_find.
    quiet_go.
Qed.
#[local] Hint Resolve same_consume : stable.
Lemma same_deliver_fragment q rh k : stable same_ids (deliver_fragment q rh k).
Proof.
  unfold deliver_fragment, deliver_fragment_with, receiver_drop_range_with, deliver,
    reassembly_find. quiet_go.
Qed.
Lemma same_receiver_drop q c r f l : stable same_ids (receiver_drop_range q c r f l).
Proof. unfold receiver_drop_range, receiver_drop_range_with. quiet_go. Qed.
#[local] Hint Resolve same_deliver_fragment same_receiver_drop : stable.
Lemma same_accept q rh k e : stable same_ids (accept_data q rh k e).
Proof. unfold accept_data. quiet_go. Qed.
#[local] Hint Resolve same_accept : stable.

Lemma same_overtake q c r : stable same_ids (overtake q c r).
Proof. unfold overtake. quiet_go. Qed.
#[local] Hint Resolve same_overtake : stable.

(** The packets come from the peer in slot [p]. *)
Definition bound (from : bytes) (s : keemash_rel_ctx_t * world) : Prop :=
  peer_lookup s.1 (peer_key s.1 (Some from)) = Some p.

Lemma lookup_idents (c c' : keemash_rel_ctx_t) key :
  idents c' = idents c -> peer_lookup c' key = peer_lookup c key.
Proof.
  unfold idents, peer_lookup. generalize (peers c') (peers c). intros l'.
  induction l' as [|x l' IH]; intros [|y l] H; try done. cbn in H. injection H as Hu Hm H.
  cbn. by rewrite Hu, Hm, (IH l).
Qed.
Lemma bound_same from s s' : same_ids s s' -> bound from s -> bound from s'.
Proof.
  intros [Hc Hi] H. unfold bound, peer_key in *. rewrite Hc.
  by rewrite (lookup_idents s.1 s'.1).
Qed.

Lemma find_bound from s :
  bound from s ->
  let r := peer_find (Some from) false s in
  r.1 = Some p /\ frame p ch s r.2 /\ same_ids s r.2.
Proof.
  intros H. unfold peer_find. rewrite bind_eq. cbn [get_ctx gets fst snd].
  unfold bound in H. rewrite H.
  destruct (if c_root_role (cfg s.1) then _ else _) as [m|].
  2: { split; [done|]. split; [exact (reflexivity s)|done]. }
  rewrite bind_eq. split; [done|]. split; [by apply frame_mod_peer|by apply same_mod_peer].
Qed.

Definition promise (from : bytes) (s : keemash_rel_ctx_t * world) : Prop :=
  in_order s /\ bound from s.

Lemma promise_step {A} from (m : Rel world A) s :
  stable same_ids m -> bound from s -> in_order (m s).2 -> promise from (m s).2.
Proof. intros Hm Hb Hio. split; [done|]. by eapply bound_same; [apply Hm|]. Qed.

Lemma promise_quiet {A} from (m : Rel world A) s :
  stable same_ids m -> stable (frame p ch) m -> promise from s -> promise from (m s).2.
Proof.
  intros Hm Hf [Hio Hb]. apply promise_step; [done..|]. by apply frame_in_order.
Qed.

Lemma accept_promise from s rh payload e :
  promise from s -> is_ready s -> genuine rh payload -> e = expected_of s.1 p ch ->
  promise from (accept_data p rh payload e s).2.
Proof.
  intros [Hio Hb] Hr Hg ->. apply promise_step; [eauto with stable|done|].
  by apply accept_in_order.
Qed.

Definition touch (now : Z) (replay : bool) (s : peer_state_t) : peer_state_t :=
  s <| p_route_up := true |> <| p_route_down_since_ms := 0 |> <| p_last_rx_ms := now |>
    <| p_replay_count ::= fun n => if replay then u32 (n + 1) else n |>.

Lemma handle_data_promise from rh payload s :
  promise from s -> genuine rh payload -> promise from (handle_data from rh payload s).2.
Proof.
  intros [Hio Hb] Hg. pose proof Hg as (_ & Hc & Hu & _).
  unfold handle_data. rewrite bind_eq. cbn [get_ctx gets fst snd].
  destruct (data_rejected _ _ _ _); [done|]. rewrite bind_eq.
  destruct (find_bound from s Hb) as (E & Hf & Hs). rewrite E.
  set (s1 := (peer_find (Some from) false s).2) in *.
  pose proof (in_order_frame _ _ Hf Hio) as Hio1. pose proof (bound_same _ _ _ Hs Hb) as Hb1.
  clearbody s1. clear s E Hf Hs Hio Hb. rewrite bind_eq. cbn [get_ctx gets fst snd].
  destruct (negb (session_bound _ _ _)) eqn:Er; [done|]. bools.
  unfold session_bound in Er. bools. rewrite Hc. rewrite bind_eq.
  set (now := (now_ms s1).1). set (s1' := (now_ms s1).2).
  assert (s1' = s1) as -> by (destruct s1 as [c w]; reflexivity).
  rewrite bind_eq.
  fold (touch now (has_flag (rh_flags rh) MESH_V2_RELIABLE_FLAG_REPLAY)).
  set (s2 := (mod_peer p (touch now _) s1).2).
  assert (Ht : forall x b, peer_core (touch now b x) = peer_core x) by by intros x [].
  destruct (steady_in_order s1 s2) as (Hio2 & Hr2 & He2);
    [apply steady_peer; intros x; apply Ht|done|done|].
  assert (Hb2 : bound from s2).
  { eapply bound_same; [|exact Hb1]. apply same_mod_peer. by intros x. }
  clearbody s2.
  destruct (has_flag _ MESH_V2_RELIABLE_FLAG_LATEST).
  - destruct (_ || _); [done|]. destruct (seq_before _ _) eqn:Eb.
    + rewrite bind_eq. rewrite <- He2 in Eb.
      destruct (overtake_in_order s2 (rh_seq rh)) as (Hio3 & Hr3 & He3); [done..|].
      apply accept_promise; try done. split; [done|].
      eapply bound_same; [apply same_overtake|done].
    + by apply accept_promise.
  - by apply accept_promise.
Qed.

(** A LOST packet of the channel: the receiver's request to give up packets sent to it,
    or the announcement of a range of sent numbers. *)
Definition lost_ok (lost : mesh_v2_reliable_lost_payload_t) : Prop :=
  lost_channel_id lost = ch /\
  (has_flag (lost_rsv lost) MESH_V2_LOST_FLAG_RECEIVER_DROP = false ->
   sent_range (lost_seq_first lost) (lost_seq_last lost)).

Lemma handle_lost_promise from lost s :
  promise from s -> lost_ok lost ->
  promise from (handle_lost_packet from lost s).2.
Proof.
  intros [Hio Hb] [Hl Hsr]. unfold handle_lost_packet. rewrite bind_eq.
  destruct (find_bound from s Hb) as (E & Hf & Hs). rewrite E.
  set (s1 := (peer_find (Some from) false s).2) in *.
  pose proof (in_order_frame _ _ Hf Hio) as Hio1. pose proof (bound_same _ _ _ Hs Hb) as Hb1.
  clearbody s1. clear s E Hf Hs Hio Hb. rewrite bind_eq. cbn [get_ctx gets fst snd].
  cbn zeta. rewrite Hl.
  destruct (_ || _) eqn:Er; [done|].
  assert (Hr : is_ready s1).
  { bools. unfold session_bound in *. by bools. }
  set (record := record_lost p ch _ _ _ _).
  assert (Hrec : forall s, promise from s -> promise from (record s).2).
  { intros s. apply promise_quiet; unfold record; eauto with stable. }
  assert (Htail : forall s, promise from s -> promise from ((record;; mret ESP_OK) s).2).
  { intros s Hp. rewrite bind_eq. by apply Hrec. }
  clearbody record.
  destruct (has_flag _ _); [clear Hsr|specialize (Hsr eq_refl)].
  { rewrite bind_eq. apply Htail. apply promise_quiet; [|by apply frame_same|done].
    intros x. done. }
  destruct (seq_in_range _ _ _) eqn:Ei.
  { destruct (in_order_skip s1 (lost_seq_first lost) (lost_seq_last lost)) as [Hio2 Hr2];
      [done..|].
    rewrite bind_eq, set_expected_moved, bind_eq. apply Htail.
    apply promise_step; [apply same_consume| |by apply consume_in_order].
    eapply bound_same; [|exact Hb1]. apply (same_set_expected p ch _ s1). }
  destruct (seq_before _ _); [|by apply Htail].
  pose proof (in_order_pending s1 _ _ Hio1 Hsr) as Hp.
  destruct (pending_lost_add _ _ _ _) as [added rs]. cbn [snd] in Hp. rewrite bind_eq.
  match goal with |- context [mod_peer p ?f s1] => set (s2 := (mod_peer p f s1).2) in * end.
  assert (Hp2 : promise from s2).
  { apply promise_step; [by apply same_mod_peer|done|exact Hp]. }
  destruct added; [by apply Htail|]. rewrite bind_eq.
  apply (promise_quiet from (clear_peer_buffers p _)); [eauto with stable..|done].
Qed.

(** What may arrive from the peer. *)
Inductive arrival :=
  | Arrive_data (rh : mesh_v2_reliable_hdr_t) (payload : bytes)
  | Arrive_lost (lost : mesh_v2_reliable_lost_payload_t).

Definition arrival_ok (a : arrival) : Prop :=
  match a with
  | Arrive_data rh payload => genuine rh payload
  | Arrive_lost lost => lost_ok lost
  end.

Definition arrive (from : bytes) (a : arrival) : Rel world unit :=
  match a with
  | Arrive_data rh payload => discard (handle_data from rh payload)
  | Arrive_lost lost => discard (handle_lost_packet from lost)
  end.

Lemma arrive_promise from a s :
  arrival_ok a -> promise from s -> promise from (arrive from a s).2.
Proof.
  intros Ha Hp. destruct a; cbn in *; unfold discard; rewrite bind_eq;
    [by apply handle_data_promise|by apply handle_lost_promise].
Qed.

(** A receiver at the start of a session: nothing buffered, recorded as lost or
    delivered, [e0] expected. *)
Definition session_start (from : bytes) (s : keemash_rel_ctx_t * world) : Prop :=
  bound from s /\ (p < length (peers s.1))%nat /\
  length (p_expected_seq (peer_at s.1 p)) = 10%nat /\
  expected_of s.1 p ch = e0 /\ deliveries ch (w_log s.2) = [] /\
  (forall r, r ∈ rx s.1 -> r_used r = false) /\
  (forall r, r ∈ p_pending_lost (peer_at s.1 p) -> l_used r = false).

Lemma session_start_promise from s : session_start from s -> promise from s.
Proof.
  intros (Hb & Hp & Hl & He & Hd & Hr & Hlost). split; [|done]. split; try done.
  - exists 0, []. split; [lia|]. split; [split; [by rewrite Hd|split; constructor]|].
    intros _. rewrite Z.add_0_r. by rewrite u32_id.
  - intros r Hin Hu. by rewrite (Hr r Hin) in Hu.
  - intros r Hin Hu. by rewrite (Hlost r Hin) in Hu.
Qed.

Lemma arrivals_promise from arrivals s :
  session_start from s -> Forall arrival_ok arrivals ->
  promise from (for_each arrivals (arrive from) s).2.
Proof.
  intros Hs Ha. apply session_start_promise in Hs. revert s Hs.
  induction Ha as [|a arrivals Ha _ IH]; intros s Hs; [done|].
  cbn [for_each]. rewrite bind_eq. apply IH. by apply arrive_promise.
Qed.
End Order.

(** C1: of the first [N] sequence numbers of a session, [N] below 2^31 - 1, single-fragment
    DATA packets and LOST announcements of ranges of them arrive on a channel in any order and any number of
    times each. The client is handed the sender's messages at strictly increasing
    positions below [N]: in order, and each message at most once. *)
Theorem delivery_in_order p ch e0 N msg stream from arrivals (s : keemash_rel_ctx_t * world) :
  1 <= ch < KM_CHANNEL_COUNT -> is_u32 e0 -> 0 <= N < 2147483647 ->
  session_start p ch e0 from s -> Forall (arrival_ok ch e0 N msg stream) arrivals ->
  exists ks, StronglySorted Z.lt ks /\ Forall (fun k => 0 <= k < N) ks /\
    deliveries ch (w_log (for_each arrivals (arrive from) s).2.2)
    = (fun k => (msg (u32 (e0 + k)), stream (u32 (e0 + k)))) <$> ks.
Proof.
  intros Hch He0 HN Hs Ha. assert (HN' : 0 <= N <= 2147483646) by lia.
  destruct (arrivals_promise p ch e0 N msg stream Hch He0 HN' from arrivals s Hs Ha)
    as [[_ _ H _ _] _].
  destruct H as (d & ks & Hd & (Hl & Hk & Hb) & _). exists ks.
  split; [done|]. split; [|done]. eapply List.Forall_impl; [|exact Hb]. cbn. lia.
Qed.

(** *** A concrete session *)

Definition hello_ack_77 : mesh_v2_reliable_hello_ack_payload_t :=
  {| ha_profile_version := 1; ha_mtu := 224; ha_capabilities := root_caps;
     ha_root_session_id := 77; ha_node_session_id := 11; ha_reset_link := 1 |}.
Definition ready_node : keemash_rel_ctx_t * world :=
  (handle_hello_ack root_mac hello_ack_77 (sample_ctx false, world_at 0 13)).2.

Definition sample_msg (q : Z) : bytes := [u8 q; 9].
Definition sample_data (q : Z) : arrival :=
  Arrive_data
    {| rh_channel_id := 3; rh_flags := 0; rh_priority := 1; rh_fragment_count := 1;
       rh_payload_len := 2; rh_fragment_index := 0; rh_stream_id := q + 100; rh_seq := q;
       rh_tx_ms := 5; rh_root_session_id := 77; rh_node_session_id := 11;
       rh_origin_mac := root_mac; rh_target_mac := node_mac |} (sample_msg q).
Definition sample_lost (first last : Z) : arrival :=
  Arrive_lost
    {| lost_channel_id := 3; lost_reason := 1; lost_rsv := 0; lost_root_session_id := 77;
       lost_node_session_id := 11; lost_seq_first := first; lost_seq_last := last;
       lost_origin_mac := root_mac; lost_target_mac := node_mac |}.

Lemma all_free {A} (used : A -> bool) (l : list A) :
  forallb (fun x => negb (used x)) l = true -> forall x, x ∈ l -> used x = false.
Proof.
  intros H x Hx. rewrite forallb_forall in H. apply negb_true_iff, H, list_elem_of_In, Hx.
Qed.

(** 3, 1, 1 again, 5, the loss of 4, then 2: delivered are 1, 2, 3, 5. *)
Definition sample_arrivals : list arrival :=
  [sample_data 3; sample_data 1; sample_data 1; sample_data 5; sample_lost 4 4; sample_data 2].

Example delivery_in_order_witness :
  (exists ks, StronglySorted Z.lt ks /\ Forall (fun k => 0 <= k < 6) ks /\
    deliveries 3 (w_log (for_each sample_arrivals (arrive root_mac) ready_node).2.2)
    = (fun k => (sample_msg (u32 (1 + k)), u32 (1 + k) + 100)) <$> ks) /\
  deliveries 3 (w_log (for_each sample_arrivals (arrive root_mac) ready_node).2.2)
  = [([1; 9], 101); ([2; 9], 102); ([3; 9], 103); ([5; 9], 105)].
Proof.
  split; [|vm_compute; reflexivity].
  apply (delivery_in_order 0 3 1 6 sample_msg (fun q => q + 100) root_mac sample_arrivals ready_node).
  - vm_compute. split; congruence.
  - vm_compute. split; congruence.
  - lia.
  - repeat split; try (vm_compute; reflexivity || lia).
    + apply all_free. vm_compute. reflexivity.
    + apply all_free. vm_compute. reflexivity.
  - repeat constructor; vm_compute; congruence.
Defined.

(** The bound matters. A LOST announcement of 2 up to 0, all numbers but 1, is taken at its
    word: the receiver expects 1 again and delivers it again. *)
Example wrapping_loss_redelivers :
  deliveries 3 (w_log (for_each [sample_data 1; sample_lost 2 0; sample_data 1; sample_lost 2 0;
    sample_data 1] (arrive root_mac) ready_node).2.2) = replicate 3 ([1; 9], 101).
Proof. vm_compute. reflexivity. Qed.

(** ** A receive slot that is never freed

    A packet that found no receive slot is recorded as lost and the sender is
    told to give it up.  When that notice is lost too, the sender retransmits;
    [handle_data] does not compare the packet with the recorded lost ranges and
    buffers it, and [consume_contiguous] later skips the range without freeing
    the slot. *)

Definition two_slot_node : keemash_rel_ctx_t * world :=
  (handle_hello_ack root_mac hello_ack_77
     (ctx_init (normalize_config ((sample_config false node_mac) <| c_rx_slots := 2%nat |>)) 11 12,
      world_at 0 13)).2.

Definition data_on (ch q : Z) : arrival :=
  match sample_data q with
  | Arrive_data rh payload => Arrive_data (rh <| rh_channel_id := ch |>) payload
  | a => a
  end.

(** Channel 1 fills both slots (2, 3); channel 3 loses 2; channel 1 drains;
    2 of channel 3 is retransmitted, then 1 of channel 3 arrives. *)
Definition leak_arrivals : list arrival :=
  [data_on 1 2; data_on 1 3; data_on 3 2; data_on 1 1; data_on 3 2; data_on 3 1].
Definition leak_state : keemash_rel_ctx_t * world :=
  (for_each leak_arrivals (arrive root_mac) two_slot_node).2.

(** After every packet of both channels has been consumed or skipped, a
    receive slot still holds the skipped packet, no arrival can free it, and
    the idle peer cannot be removed. *)
Theorem stale_receive_slot :
  expected_of leak_state.1 0 1 = 4 /\ expected_of leak_state.1 0 3 = 3 /\
  next_slot 0 3 leak_state.1 = None /\ next_lost 0 3 leak_state.1 = None /\
  tx_unacked leak_state.1 0 = 0%nat /\ rx_depth leak_state.1 0 = 1%nat /\
  rx_find leak_state.1 0 3 2 <> None /\
  rx (arrive root_mac (data_on 3 2) leak_state).2.1 = rx leak_state.1 /\
  (keemash_rel_remove_peer (Some root_mac) leak_state).1 = ESP_ERR_INVALID_STATE.
Proof. vm_compute. repeat split; congruence. Qed.
