(* ===== verification/RelReasm.v ===== *)
(** * Fragmentation and reassembly

    A message is cut into fragments by [keemash_rel_submit] and put together by
    [deliver_fragment].  Whatever the order in which the fragments arrive, and
    however often, the slot is complete exactly when every fragment has been
    stored, and then it holds the message. *)

From S2P Require Import Prelude.
From S2P Require Import Words.
From S2P Require Import Esp.
From S2P Require Import MeshProto.
From S2P Require Import MeshWire.
From S2P Require Import RelState.
From S2P Require Import RelCore.
From S2P Require Import RelOps.
#[local] Open Scope Z_scope.

(** The bits of the received mask. *)
Lemma mask_store m i j :
  0 <= i < 16 -> 0 <= j -> Z.testbit (Z.lor m (u16 (Z.shiftl 1 i))) j = Z.testbit m j || (i =? j).
Proof.
  intros Hi Hj. rewrite Z.lor_spec. f_equal.
  assert (u16 (Z.shiftl 1 i) = 2 ^ i) as ->.
  { rewrite Z.shiftl_1_l. unfold u16. apply Z.mod_small.
    split; [lia|]. change 65536 with (2 ^ 16). apply Z.pow_lt_mono_r; lia. }
  apply Z.pow2_bits_eqb. lia.
Qed.

Lemma complete_bits n j :
  1 <= n <= 16 -> 0 <= j -> Z.testbit (reasm_complete n) j = (j <? n).
Proof.
  intros Hn Hj. unfold reasm_complete, u16. rewrite Z.shiftl_1_l.
  rewrite Z.mod_small.
  - rewrite Z.sub_1_r, <- Z.ones_equiv. apply Z.testbit_ones_nonneg; lia.
  - pose proof (Z.pow_le_mono_r 2 n 16 ltac:(lia) ltac:(lia)).
    pose proof (Z.pow_pos_nonneg 2 n ltac:(lia) ltac:(lia)). change (2 ^ 16) with 65536 in *. lia.
Qed.

Section Reassembly.
Context (payload : bytes) (n : Z) (hdr : Z -> mesh_v2_reliable_hdr_t).
Context (Hlen : 0 < Z.of_nat (length payload) <= KM_MESSAGE_MAX)
        (Hn : n = fragments_of (Z.of_nat (length payload)))
        (Hindex : forall i, rh_fragment_index (hdr i) = i)
        (Hplen : forall i, rh_payload_len (hdr i) = Z.of_nat (length (chunk_of payload i))).

Lemma n_range : 1 <= n <= 16 /\ 152 * n - 151 <= Z.of_nat (length payload) <= 152 * n.
Proof.
  unfold KM_MESSAGE_MAX, MESH_V2_RELIABLE_MAX_FRAGMENTS, MESH_V2_RELIABLE_INNER_MAX in Hlen.
  rewrite Hn. unfold fragments_of, MESH_V2_RELIABLE_INNER_MAX. words.
Qed.

Lemma chunk_length i : 0 <= i < n ->
  Z.of_nat (length (chunk_of payload i)) = Z.min 152 (Z.of_nat (length payload) - i * 152).
Proof.
  intros Hi. pose proof n_range. unfold chunk_of, slice, MESH_V2_RELIABLE_INNER_MAX.
  rewrite length_take, length_drop. lia.
Qed.

Lemma chunk_lookup i k :
  0 <= i -> (k < length (chunk_of payload i))%nat ->
  chunk_of payload i !! k = payload !! (Z.to_nat (i * 152) + k)%nat.
Proof.
  unfold chunk_of, slice, MESH_V2_RELIABLE_INNER_MAX. intros Hi Hk.
  rewrite length_take in Hk. rewrite lookup_take_lt by lia. by rewrite lookup_drop.
Qed.

(** What a slot holds once the fragments in [got] have been stored. *)
Record holds (got : list Z) (a : reassembly_slot_t) : Prop := {
  ho_count : a_fragment_count a = n;
  ho_nonneg : 0 <= a_received_mask a;
  ho_mask : forall j, 0 <= j -> Z.testbit (a_received_mask a) j = bool_decide (j ∈ got);
  ho_len : length (a_fragment_len a) = 16%nat;
  ho_lens : forall i, i ∈ got -> a_fragment_len a !! Z.to_nat i = Some (rh_payload_len (hdr i));
  ho_data : length (a_data a) = Z.to_nat KM_MESSAGE_MAX;
  ho_bytes : forall i k, i ∈ got -> (k < length (chunk_of payload i))%nat ->
    a_data a !! (Z.to_nat (i * 152) + k)%nat = payload !! (Z.to_nat (i * 152) + k)%nat }.

Lemma store_holds got a i now :
  0 <= i < n -> (forall j, j ∈ got -> 0 <= j < n) -> holds got a ->
  holds (i :: got) (store_fragment (hdr i) (chunk_of payload i) now a).
Proof.
  intros Hi Hdone []. pose proof n_range. pose proof (chunk_length i Hi).
  unfold store_fragment. rewrite Hindex, Hplen, Nat2Z.id, firstn_all.
  unfold MESH_V2_RELIABLE_INNER_MAX, KM_MESSAGE_MAX, MESH_V2_RELIABLE_MAX_FRAGMENTS,
    MESH_V2_RELIABLE_INNER_MAX in *.
  split; cbn; unfold setter.
  - done.
  - apply Z.lor_nonneg. split; [done|]. apply u16_is.
  - intros j Hj. rewrite mask_store, ho_mask0 by lia.
    rewrite (bool_decide_ext (j ∈ i :: got) (j = i \/ j ∈ got)) by apply elem_of_cons.
    rewrite bool_decide_or, orb_comm. f_equal.
    destruct (Z.eqb_spec i j) as [->|Hne]; symmetry; [by apply bool_decide_eq_true|].
    apply bool_decide_eq_false. congruence.
  - by rewrite length_insert.
  - intros j Hj. apply elem_of_cons in Hj as [->|Hj].
    + rewrite list_lookup_insert_eq by lia. by rewrite Hplen.
    + destruct (decide (j = i)) as [->|Hne].
      * rewrite list_lookup_insert_eq by lia. by rewrite Hplen.
      * rewrite list_lookup_insert_ne by (specialize (Hdone j Hj); lia). by apply ho_lens0.
  - rewrite length_splice by lia. done.
  - intros j k Hj Hk. rewrite lookup_splice by lia.
    assert (Hj0 : 0 <= j < n) by (apply elem_of_cons in Hj as [->|Hj]; auto).
    pose proof (chunk_length j Hj0).
    case_decide as Hin.
    + assert (j = i) as -> by lia.
      replace (Z.to_nat (i * 152) + k - Z.to_nat (i * 152))%nat with k by lia.
      apply chunk_lookup; lia.
    + apply elem_of_cons in Hj as [->|Hj]; [lia|]. by apply ho_bytes0.
Qed.

Definition store_all (order : list Z) (nows : Z -> Z) (a : reassembly_slot_t) :=
  fold_left (fun a i => store_fragment (hdr i) (chunk_of payload i) (nows i) a) order a.

Lemma store_all_holds order nows got a :
  (forall i, i ∈ order -> 0 <= i < n) -> (forall j, j ∈ got -> 0 <= j < n) ->
  holds got a -> holds (reverse order ++ got) (store_all order nows a).
Proof.
  revert got a. induction order as [|i order IH]; intros got a Ho Hd Ha; [done|].
  rewrite reverse_cons, <- app_assoc. cbn. apply IH.
  - intros j Hj. apply Ho. by right.
  - intros j Hj. apply elem_of_cons in Hj as [->|Hj]; [apply Ho; by left|by apply Hd].
  - apply store_holds; [apply Ho; by left|done|done].
Qed.

Lemma sum_lens_from a (m : nat) (start : Z) :
  (forall i, 0 <= i < n -> a_fragment_len a !! Z.to_nat i = Some (rh_payload_len (hdr i))) ->
  (Z.of_nat m <= n) ->
  fold_left Z.add (take m (a_fragment_len a)) start
  = start + Z.min (Z.of_nat (length payload)) (152 * Z.of_nat m).
Proof.
  intros Hl. pose proof n_range. revert start.
  induction m as [|m IH]; intros start Hm.
  { change (start = start + Z.min (Z.of_nat (length payload)) 0). lia. }
  rewrite (take_S_r _ _ (rh_payload_len (hdr (Z.of_nat m)))).
  2: { rewrite <- (Hl (Z.of_nat m)) by lia. f_equal. lia. }
  rewrite fold_left_app, IH by lia. cbn. rewrite Hplen, chunk_length by lia.
  pose proof n_range. lia.
Qed.

Lemma holds_all got a :
  (forall i, 0 <= i < n -> i ∈ got) -> holds got a ->
  take (Z.to_nat (reasm_total a)) (a_data a) = payload.
Proof.
  intros Hall []. pose proof n_range as [Hn1 Hn2].
  assert (Ht : reasm_total a = Z.of_nat (length payload)).
  { unfold reasm_total. rewrite ho_count0, (sum_lens_from a); [lia|..|lia].
    intros i Hi. apply ho_lens0. by apply Hall. }
  rewrite Ht, Nat2Z.id. apply list_eq. intros k.
  unfold KM_MESSAGE_MAX, MESH_V2_RELIABLE_INNER_MAX, MESH_V2_RELIABLE_MAX_FRAGMENTS in *.
  destruct (decide (k < length payload)%nat) as [Hk|Hk].
  - rewrite lookup_take_lt by done.
    set (i := Z.of_nat k / 152). assert (Hi : 0 <= i < n) by (unfold i; Z.div_mod_to_equations; lia).
    pose proof (chunk_length i Hi) as Hc.
    specialize (ho_bytes0 i (k - Z.to_nat (i * 152))%nat (Hall i Hi)).
    replace (Z.to_nat (i * 152) + (k - Z.to_nat (i * 152)))%nat with k in ho_bytes0
      by (unfold i; Z.div_mod_to_equations; lia).
    apply ho_bytes0. unfold i in *. Z.div_mod_to_equations; lia.
  - rewrite lookup_take_ge by lia. symmetry. apply lookup_ge_None. lia.
Qed.

Lemma holds_complete got a :
  (forall j, j ∈ got -> 0 <= j < n) -> holds got a ->
  a_received_mask a = reasm_complete n <-> (forall i, 0 <= i < n -> i ∈ got).
Proof.
  intros Hd []. pose proof n_range as [Hn1 _]. split.
  - intros Hm i Hi. specialize (ho_mask0 i ltac:(lia)). rewrite Hm, complete_bits in ho_mask0 by lia.
    symmetry in ho_mask0. rewrite (proj2 (Z.ltb_lt i n)) in ho_mask0 by lia.
    by apply bool_decide_eq_true in ho_mask0.
  - intros Hall. apply Z.bits_inj'. intros j Hj. rewrite ho_mask0, complete_bits by lia.
    destruct (Z.ltb_spec j n); [by apply bool_decide_eq_true, Hall|].
    apply bool_decide_eq_false. intros Hin. apply Hd in Hin. lia.
Qed.
End Reassembly.

(** A slot as [reassembly_find] creates it. *)
Definition fresh_slot (n : Z) (a : reassembly_slot_t) : Prop :=
  a_fragment_count a = n /\ a_received_mask a = 0 /\ a_fragment_len a = replicate 16 0 /\
  a_data a = replicate (Z.to_nat KM_MESSAGE_MAX) 0.

Lemma fresh_holds payload n hdr a : fresh_slot n a -> holds payload n hdr [] a.
Proof.
  intros (H1 & H2 & H3 & H4). split; rewrite ?H1, ?H2, ?H3, ?H4; try done.
  - intros j _. rewrite Z.bits_0. symmetry. apply bool_decide_eq_false. apply not_elem_of_nil.
  - intros i Hi. by apply elem_of_nil in Hi.
  - intros i k Hi. by apply elem_of_nil in Hi.
Qed.

(** C5: fragments stored in any order and with any duplication: the slot is
    complete exactly when each of the message's fragments has arrived, and the
    bytes then handed to the client are the message. *)
Theorem reassembly_any_order payload hdr order nows a :
  0 < Z.of_nat (length payload) <= KM_MESSAGE_MAX ->
  let n := fragments_of (Z.of_nat (length payload)) in
  (forall i, rh_fragment_index (hdr i) = i) ->
  (forall i, rh_payload_len (hdr i) = Z.of_nat (length (chunk_of payload i))) ->
  (forall i, i ∈ order -> 0 <= i < n) -> fresh_slot n a ->
  let a' := store_all payload hdr order nows a in
  (a_received_mask a' = reasm_complete n <-> (forall i, 0 <= i < n -> i ∈ order)) /\
  (a_received_mask a' = reasm_complete n ->
   take (Z.to_nat (reasm_total a')) (a_data a') = payload).
Proof.
  intros Hlen n Hi Hp Ho Ha a'.
  assert (Hh : holds payload n hdr (reverse order ++ []) a').
  { apply store_all_holds; try done; [by intros j Hj; apply elem_of_nil in Hj|].
    by apply fresh_holds. }
  rewrite app_nil_r in Hh.
  assert (Hr : forall j, j ∈ reverse order -> 0 <= j < n).
  { intros j Hj. apply Ho. by apply elem_of_reverse. }
  pose proof (holds_complete payload n hdr Hlen eq_refl (reverse order) a' Hr Hh) as Hc.
  setoid_rewrite elem_of_reverse in Hc. split; [done|].
  intros Hm. eapply holds_all; try done. intros i Hin. apply elem_of_reverse. by apply Hc.
Qed.

Definition sample_message : bytes := (fun i => Z.of_nat i mod 256) <$> seq 0 400.
Definition sample_hdr (i : Z) : mesh_v2_reliable_hdr_t :=
  rh_zero <| rh_fragment_count := 3 |> <| rh_fragment_index := i |>
          <| rh_payload_len := Z.of_nat (length (chunk_of sample_message i)) |>.
Definition sample_slot : reassembly_slot_t :=
  reasm_zero <| a_used := true |> <| a_fragment_count := 3 |>.

Example reassembly_any_order_witness :
  let a' := store_all sample_message sample_hdr [2; 0; 2; 1] (fun _ => 5) sample_slot in
  take (Z.to_nat (reasm_total a')) (a_data a') = sample_message.
Proof.
  apply (reassembly_any_order sample_message sample_hdr [2; 0; 2; 1] (fun _ => 5) sample_slot).
  - vm_compute. split; congruence.
  - done.
  - done.
  - intros i Hi. repeat (apply elem_of_cons in Hi as [->|Hi]; [vm_compute; split; congruence|]).
    by apply elem_of_nil in Hi.
  - repeat split; vm_compute; reflexivity.
  - vm_compute. reflexivity.
Defined.
