(* ===== verification/RelProps.v ===== *)
(** * Properties of the reliable layer's operations

    Transmit reservations, submission, acknowledgement, the round-trip
    estimator, the handshake and authentication of what is received. *)

From S2P Require Import Prelude.
From S2P Require Import Words.
From S2P Require Import Esp.
From S2P Require Import MeshProto.
From S2P Require Import MeshWire.
From S2P Require Import RelState.
From S2P Require Import RelCore.
From S2P Require Import RelOps.
From S2P Require Import RelEnv.
From S2P Require Import RelQuiet.
From S2P Require Import RelInv.
#[local] Open Scope Z_scope.

(** ** Transmit slots *)

Definition tx_high (t : tx_slot_t) : bool :=
  t_used t && negb (t_priority t <? KEEMASH_REL_PRIORITY_CONTROL).
Definition tx_high_of (mac : bytes) (t : tx_slot_t) : bool :=
  tx_of mac t && negb (t_priority t <? KEEMASH_REL_PRIORITY_CONTROL).

Lemma count_if_split {A} (P Q : A -> bool) l :
  count_if P l = (count_if (fun x => P x && Q x) l + count_if (fun x => P x && negb (Q x)) l)%nat.
Proof.
  induction l as [|x l IH]; [done|]. cbn [count_if]. rewrite IH.
  destruct (P x), (Q x); cbn; lia.
Qed.

(** C29: low-priority traffic cannot starve control traffic: while the control
    messages in flight fit the reservations (the global one and the peer's),
    a control message finds a transmit slot. *)
Theorem control_slot_reserved (c : keemash_rel_ctx_t) p :
  ctx_wf c ->
  (c_reserved_control_slots (cfg c) <= c_tx_slots (cfg c))%nat ->
  (c_per_peer_control_reserve (cfg c) <= c_per_peer_tx_slots (cfg c))%nat ->
  (count_if tx_high (tx c) < c_reserved_control_slots (cfg c))%nat ->
  (count_if (tx_high_of (p_mac (peer_at c p))) (tx c) < c_per_peer_control_reserve (cfg c))%nat ->
  is_Some (tx_alloc c p KEEMASH_REL_PRIORITY_CONTROL).
Proof.
  intros Hwf Hr Hp Hh Hhp. unfold tx_alloc. rewrite Z.ltb_irrefl, Z.eqb_refl. cbn [andb orb].
  pose proof (wf_tx_low c Hwf (p_mac (peer_at c p))) as Hl.
  pose proof (wf_tx_reserve c Hwf) as Hlow. pose proof (wf_tx_len c Hwf) as Hlen.
  assert (Hs : count_if (tx_of (p_mac (peer_at c p))) (tx c)
    = (count_if (tx_low_of (p_mac (peer_at c p))) (tx c)
       + count_if (tx_high_of (p_mac (peer_at c p))) (tx c))%nat) by apply count_if_split.
  assert (Hu : count_if t_used (tx c) = (count_if tx_low (tx c) + count_if tx_high (tx c))%nat)
    by apply count_if_split.
  destruct (_ <=? _)%nat eqn:E.
  { apply Nat.leb_le in E. unfold tx_unacked in E. lia. }
  destruct (find_idx _ (tx c)) as [i|] eqn:Ei; [by eexists|].
  apply find_idx_None_count in Ei. pose proof (tx_free_used c) as Hf. unfold tx_free in Hf. lia.
Qed.

(** What [tx_available] counts can really be allocated. *)
Lemma tx_available_alloc c p priority :
  (0 < tx_available c p priority)%nat -> is_Some (tx_alloc c p priority).
Proof.
  unfold tx_available, tx_alloc, tx_limit, KEEMASH_REL_PRIORITY_CONTROL. intros H.
  destruct (priority <? 4) eqn:Ep; cbn [andb orb] in *.
  - destruct (_ <=? _)%nat eqn:E1; [lia|]. apply Nat.leb_gt in E1.
    assert ((priority =? 4) = false) as -> by (bools; apply Z.eqb_neq; lia). cbn [andb orb].
    destruct (_ <? _)%nat eqn:E2.
    + destruct (_ <=? tx_unacked c p)%nat eqn:E3; [apply Nat.leb_le in E3; lia|]. cbn.
      destruct (find_idx _ _) eqn:Ei; [by eexists|]. apply find_idx_None_count in Ei.
      unfold tx_free in *. lia.
    + apply Nat.ltb_ge in E2.
      destruct (_ <=? tx_unacked c p)%nat eqn:E3; [apply Nat.leb_le in E3; lia|]. cbn.
      destruct (find_idx _ _) eqn:Ei; [by eexists|]. apply find_idx_None_count in Ei.
      unfold tx_free in *. lia.
  - destruct (_ <? _)%nat eqn:E2; [apply Nat.ltb_lt in E2|apply Nat.ltb_ge in E2].
    + destruct (_ <=? tx_unacked c p)%nat eqn:E3; [apply Nat.leb_le in E3; lia|].
      rewrite andb_false_r. destruct (find_idx _ _) eqn:Ei; [by eexists|].
      apply find_idx_None_count in Ei. unfold tx_free in *. lia.
    + destruct (_ <=? tx_unacked c p)%nat eqn:E3; [apply Nat.leb_le in E3; lia|].
      rewrite andb_false_r. destruct (find_idx _ _) eqn:Ei; [by eexists|].
      apply find_idx_None_count in Ei. unfold tx_free in *. lia.
Qed.

(** Filling one slot uses up one unit of [tx_available]. *)
Lemma tx_available_fill c p priority i t :
  tx_alloc c p priority = Some i -> t_used t = true -> t_peer t = p_mac (peer_at c p) ->
  (tx_available c p priority <= S (tx_available (set_tx i (fun _ => t) c) p priority))%nat.
Proof.
  intros Hi Hu Hm. apply tx_alloc_spec in Hi as ((x & Hx & Hux) & _).
  assert (Hf : tx_free c = S (tx_free (set_tx i (fun _ => t) c))).
  { unfold tx_free, set_tx. cbn. unfold setter. rewrite alter_const_insert.
    pose proof (count_if_insert (fun t => negb (t_used t)) (tx c) i x t Hx) as H.
    cbn beta in H. rewrite Hux, Hu in H. cbn in H. lia. }
  assert (Hn : tx_unacked (set_tx i (fun _ => t) c) p = S (tx_unacked c p)).
  { unfold tx_unacked, set_tx. cbn. unfold setter, peer_at. cbn. rewrite alter_const_insert.
    pose proof (count_if_insert (tx_of (p_mac (nth p (peers c) peer_zero))) (tx c) i x t Hx) as H.
    unfold peer_at in Hm.
    assert (tx_of (p_mac (nth p (peers c) peer_zero)) x = false) as E1
      by (unfold tx_of; by rewrite Hux).
    assert (tx_of (p_mac (nth p (peers c) peer_zero)) t = true) as E2
      by (unfold tx_of, mac_eq; by rewrite Hu, Hm, bytes_eqb_refl).
    rewrite E1, E2 in H. lia. }
  set (c' := set_tx i _ c) in *.
  assert (Hc : cfg c' = cfg c) by done.
  assert (Hl : tx_limit c' priority = tx_limit c priority) by done.
  unfold tx_available. rewrite Hf, Hn, Hl, Hc. clearbody c'.
  destruct (priority <? _); cbn [andb]; repeat split_if;
    rewrite ?Nat.leb_le, ?Nat.leb_gt, ?Nat.ltb_lt, ?Nat.ltb_ge in *; lia.
Qed.

(** ** Submission *)

(** The part of the context a slot's packet is built from. *)
Definition same_peer (p : nat) (c c' : keemash_rel_ctx_t) : Prop :=
  cfg c' = cfg c /\ local_session c' = local_session c /\
  p_mac (peer_at c' p) = p_mac (peer_at c p) /\
  p_remote_mac (peer_at c' p) = p_remote_mac (peer_at c p) /\
  p_root_session_id (peer_at c' p) = p_root_session_id (peer_at c p) /\
  p_node_session_id (peer_at c' p) = p_node_session_id (peer_at c p).

Lemma same_peer_slot p c c' ch prio seq stream fr i now payload :
  same_peer p c c' ->
  data_slot c' p ch prio seq stream fr i now payload
  = data_slot c p ch prio seq stream fr i now payload.
Proof.
  intros (E1 & E2 & E3 & E4 & E5 & E6). unfold data_slot, data_hdr, peer_send_mac.
  by rewrite E1, E2, E3, E4, E5, E6.
Qed.

Lemma same_peer_trans p a b c : same_peer p a b -> same_peer p b c -> same_peer p a c.
Proof. unfold same_peer. intuition congruence. Qed.

Section Submit.
Context {W : Type} `{!Env W}.
Context (p : nat) (ch priority stream fragments first : Z) (payload : bytes).
Context (Hch : 1 <= ch < KM_CHANNEL_COUNT).

Definition bump_next (v : Z) (c : keemash_rel_ctx_t) : keemash_rel_ctx_t :=
  set_peer p (fun s => s <| p_next_seq ::= ch_set ch v |>) c.

Lemma peer_at_bump v c :
  (p < length (peers c))%nat ->
  peer_at (bump_next v c) p = (peer_at c p) <| p_next_seq ::= ch_set ch v |>.
Proof.
  intros H. unfold peer_at, bump_next, set_peer. cbn. unfold setter.
  rewrite !nth_lookup, list_lookup_alter_eq.
  by destruct (lookup_lt_is_Some_2 _ _ H) as [x ->].
Qed.

(** Filling slot [j] with fragment [i]. *)
Definition fill (j : nat) (i now : Z) (c : keemash_rel_ctx_t) : keemash_rel_ctx_t :=
  let seq := next_of c p ch in
  set_tx j (fun _ => data_slot c p ch priority seq stream fragments i now payload)
    (bump_next (u32 (seq + 1)) c).

Lemma fill_facts j i now c :
  length (p_next_seq (peer_at c p)) = 10%nat -> (p < length (peers c))%nat ->
  tx_alloc c p priority = Some j ->
  let c' := fill j i now c in
  same_peer p c c' /\ next_of c' p ch = u32 (next_of c p ch + 1) /\
  (p < length (peers c'))%nat /\ length (p_next_seq (peer_at c' p)) = 10%nat /\
  tx c' = <[j := data_slot c p ch priority (next_of c p ch) stream fragments i now payload]> (tx c) /\
  (tx_available c p priority <= S (tx_available c' p priority))%nat.
Proof.
  intros Hlen Hp Hj. cbn zeta.
  assert (Hpeer : peer_at (fill j i now c) p
    = (peer_at c p) <| p_next_seq ::= ch_set ch (u32 (next_of c p ch + 1)) |>)
    by exact (peer_at_bump _ c Hp).
  unfold KM_CHANNEL_COUNT, MESH_V2_TUNNEL_CHANNEL_MAX in Hch.
  split; [unfold same_peer; by rewrite Hpeer|]. split.
  { unfold next_of at 1. rewrite Hpeer. cbn. unfold setter, ch_get, ch_set.
    apply nth_lookup_Some, list_lookup_insert_eq. lia. }
  split; [cbn; unfold setter; by rewrite length_alter|]. split.
  { rewrite Hpeer. cbn. unfold setter, ch_set. by rewrite length_insert. }
  split.
  { unfold fill. cbn. unfold setter. apply alter_const_insert. }
  assert (Hb : p_mac (peer_at (bump_next (u32 (next_of c p ch + 1)) c) p) = p_mac (peer_at c p))
    by by rewrite peer_at_bump.
  assert (Ha : forall x y, tx_available (bump_next (u32 (next_of c p ch + 1)) c) p x = y <->
                           tx_available c p x = y).
  { intros x y. unfold tx_available, tx_unacked. by rewrite Hb. }
  rewrite <- (proj2 (Ha priority _) eq_refl).
  apply tx_available_fill; [|done|by rewrite Hb].
  unfold tx_alloc, tx_unacked in *. by rewrite Hb.
Qed.

Lemma submit_slots_S i idxs slots s :
  submit_slots p ch priority stream fragments first payload (i :: idxs) slots s =
  match tx_alloc s.1 p priority with
  | None => submit_slots p ch priority stream fragments first payload (i :: idxs) slots s
  | Some j =>
      let '(now, w) := now_ms s in
      submit_slots p ch priority stream fragments first payload idxs (slots ++ [j])
        (fill j i now s.1, w.2)
  end.
Proof.
  destruct (tx_alloc s.1 p priority) as [j|] eqn:Ej; [|done].
  cbn [submit_slots]. rewrite bind_eq. cbn [get_ctx gets fst snd]. rewrite Ej.
  rewrite !bind_eq. unfold now_ms, lift_world, set_next, mod_peer, mod_ctx, modify.
  rewrite !bind_eq. cbn [fst snd]. by destruct (esp_timer_get_time s.2).
Qed.

(** A message for which [tx_available] has room always gets its slots: one
    per fragment, with consecutive sequence numbers, and no slot in use is
    touched. *)
Lemma submit_slots_ok n i slots s :
  (p < length (peers s.1))%nat -> length (p_next_seq (peer_at s.1 p)) = 10%nat ->
  is_u32 (next_of s.1 p ch) -> (n <= tx_available s.1 p priority)%nat ->
  exists js s',
    submit_slots p ch priority stream fragments first payload (seqZ i (Z.of_nat n)) slots s
      = (Some (slots ++ js), s') /\
    length js = n /\ next_of s'.1 p ch = u32 (next_of s.1 p ch + Z.of_nat n) /\
    (forall k j, js !! k = Some j -> exists now, tx s'.1 !! j =
       Some (data_slot s.1 p ch priority (u32 (next_of s.1 p ch + Z.of_nat k)) stream
               fragments (i + Z.of_nat k) now payload)) /\
    (forall j t, tx s.1 !! j = Some t -> t_used t = true -> tx s'.1 !! j = Some t).
Proof.
  revert i slots s. induction n as [|n IH]; intros i slots s Hp Hlen Hu Hn.
  { exists [], s. rewrite app_nil_r, Z.add_0_r, u32_id by done. done. }
  rewrite Nat2Z.inj_succ, seqZ_cons by lia. rewrite submit_slots_S.
  destruct (tx_available_alloc s.1 p priority) as [j Hj]; [lia|]. rewrite Hj.
  destruct (now_ms s) as [now w].
  destruct (fill_facts j i now s.1 Hlen Hp Hj) as (Hs & Hnx & Hp' & Hlen' & Htx & Hav).
  set (c1 := fill j i now s.1) in *.
  destruct (IH (Z.succ i) (slots ++ [j]) (c1, w.2)) as (js & s' & E & Hl & Hnx' & Hjs & Hold);
    cbn [fst]; [done|done|rewrite Hnx; apply u32_is|lia|].
  rewrite Z.pred_succ. exists (j :: js), s'. cbn [fst] in *.
  pose proof (proj1 (tx_alloc_spec _ _ _ _ Hj)) as (x & Hx & Hux).
  assert (Hj1 : tx c1 !! j = Some (data_slot s.1 p ch priority (next_of s.1 p ch) stream
                                     fragments i now payload)).
  { rewrite Htx. apply list_lookup_insert_eq. by eapply lookup_lt_Some. }
  split; [by rewrite E, <- app_assoc|]. split; [cbn; lia|]. split.
  { rewrite Hnx', Hnx, u32_add_l. f_equal. lia. }
  split.
  - intros [|k] j' Hk; cbn in Hk.
    + injection Hk as <-. exists now. rewrite !Z.add_0_r, u32_id by done. by apply Hold.
    + destruct (Hjs k j' Hk) as [now' Hj']. exists now'. rewrite Hj'.
      rewrite (same_peer_slot p s.1 c1) by done. rewrite Hnx, u32_add_l. do 2 f_equal; [f_equal|]; lia.
  - intros j' t Hj' Ht. apply Hold; [|done]. rewrite Htx.
    rewrite list_lookup_insert_ne; [done|]. intros ->. congruence.
Qed.
End Submit.

(** A message accepted by [tx_available] never hits the roll-back path:
    each fragment gets a slot of its own holding that fragment's packet, the
    sequence numbers are consecutive and slots in use are left alone. *)
Theorem submit_slots_filled {W} `{!Env W} p ch priority stream first payload n slots
  (s : keemash_rel_ctx_t * W) :
  1 <= ch < KM_CHANNEL_COUNT -> (p < length (peers s.1))%nat ->
  length (p_next_seq (peer_at s.1 p)) = 10%nat -> is_u32 (next_of s.1 p ch) ->
  (n <= tx_available s.1 p priority)%nat ->
  exists js s',
    submit_slots p ch priority stream (Z.of_nat n) first payload (seqZ 0 (Z.of_nat n)) slots s
      = (Some (slots ++ js), s') /\
    length js = n /\ next_of s'.1 p ch = u32 (next_of s.1 p ch + Z.of_nat n) /\
    (forall k j, js !! k = Some j -> exists now, tx s'.1 !! j =
       Some (data_slot s.1 p ch priority (u32 (next_of s.1 p ch + Z.of_nat k)) stream
               (Z.of_nat n) (Z.of_nat k) now payload)) /\
    (forall j t, tx s.1 !! j = Some t -> t_used t = true -> tx s'.1 !! j = Some t).
Proof. intros Hch. exact (submit_slots_ok p ch priority stream _ first payload Hch n 0 slots s). Qed.

(** The fragments of a message: between 1 and 16 of them, none empty or
    longer than 152 bytes, and joined in order they are the message. *)
Theorem fragments_cover payload :
  0 < Z.of_nat (length payload) <= KM_MESSAGE_MAX ->
  let n := fragments_of (Z.of_nat (length payload)) in
  1 <= n <= MESH_V2_RELIABLE_MAX_FRAGMENTS /\
  (forall i, 0 <= i < n -> (0 < length (chunk_of payload i) <= 152)%nat) /\
  concat (chunk_of payload <$> seqZ 0 n) = payload.
Proof.
  unfold KM_MESSAGE_MAX, fragments_of, MESH_V2_RELIABLE_MAX_FRAGMENTS, MESH_V2_RELIABLE_INNER_MAX.
  intros H. cbn zeta. remember (Z.of_nat (length payload)) as l eqn:El.
  assert (Hn : u8 ((l + 152 - 1) / 152) = (l + 152 - 1) / 152) by words.
  rewrite Hn. remember ((l + 152 - 1) / 152) as n eqn:En.
  assert (Hb : 152 * n - 151 <= l <= 152 * n) by (Z.div_mod_to_equations; lia).
  split; [lia|]. split.
  - intros i Hi. unfold chunk_of, slice, MESH_V2_RELIABLE_INNER_MAX.
    rewrite length_take, length_drop. lia.
  - unfold seqZ. rewrite <- list_fmap_compose.
    rewrite (list_fmap_ext _ (fun k => take 152 (drop (152 * k) payload))).
    2: { intros k x _. unfold compose, chunk_of, slice, MESH_V2_RELIABLE_INNER_MAX.
         do 2 f_equal; lia. }
    apply concat_chunks. lia.
Qed.

(** ** The round-trip estimator *)

(** The retransmission timeout stays within the configured bounds, the
    smoothed values stay within the 60 s cap on samples, and no 32-bit
    operation of the estimator wraps. *)
Theorem update_rto_bounds c sample s :
  is_u32 sample -> 0 <= p_srtt_ms s <= 60000 -> 0 <= p_rttvar_ms s <= 60000 ->
  is_u32 (c_min_rto_ms c) -> c_min_rto_ms c <= c_max_rto_ms c -> is_u32 (c_max_rto_ms c) ->
  let s' := update_rto c sample s in
  (s' = s \/ c_min_rto_ms c <= p_rto_ms s' <= c_max_rto_ms c) /\
  0 <= p_srtt_ms s' <= 60000 /\ 0 <= p_rttvar_ms s' <= 60000 /\
  (p_srtt_ms s <> 0 -> 1 <= sample <= 60000 ->
   p_srtt_ms s' = (7 * p_srtt_ms s + sample) / 8 /\
   p_rttvar_ms s' = (3 * p_rttvar_ms s + Z.abs (p_srtt_ms s - sample)) / 4).
Proof.
  intros Hs H1 H2 Hmin Hle Hmax. cbn zeta.
  assert (Hrng : 0 <= p_srtt_ms (update_rto c sample s) <= 60000 /\
                 0 <= p_rttvar_ms (update_rto c sample s) <= 60000).
  { unfold update_rto. destruct (_ || _) eqn:E; [done|]. bools.
    destruct (p_srtt_ms s =? 0) eqn:E0; cbn; [words|]. split_if; words. }
  split; [|split; [apply Hrng|split; [apply Hrng|]]].
  - unfold update_rto. destruct (_ || _); [by left|right]. cbn zeta.
    set (s1 := if p_srtt_ms s =? 0 then _ else _). cbn.
    set (r := u32 _). destruct (r <? c_min_rto_ms c) eqn:E1; bools;
      split_if; bools; lia.
  - intros Hne Hsm. unfold update_rto.
    destruct (_ || _) eqn:E; [exfalso; rewrite orb_true_iff in E; destruct E; bools; lia|].
    destruct (p_srtt_ms s =? 0) eqn:E0; [bools; lia|]. cbn. split; [words|].
    destruct (sample <? p_srtt_ms s) eqn:E2; bools.
    + rewrite Z.abs_eq by lia. words.
    + rewrite Z.abs_neq by lia. rewrite (Z.opp_sub_distr). words.
Qed.

(** ** From the transmit slot to the receiver's handler *)

Definition slot_fields_ok (c : keemash_rel_ctx_t) (p : nat) (priority seq stream now : Z)
  (payload : bytes) : Prop :=
  is_u8 priority /\ is_u32 seq /\ is_u32 stream /\ is_u32 now /\ is_u32 (local_session c) /\
  is_u32 (p_root_session_id (peer_at c p)) /\ is_u32 (p_node_session_id (peer_at c p)) /\
  mac_addr (c_local_mac (cfg c)) /\ mac_addr (peer_send_mac c p) /\ are_bytes payload.

Lemma encode_rh_bytes r : rh_ok r -> are_bytes (encode_rh r).
Proof.
  intros (_&_&_&_&_&_&_&_&_&_&_&Ho&Ht). unfold encode_rh, are_bytes.
  rewrite !Forall_app. repeat split; try apply le_bytes_are; [apply Ho|apply Ht].
Qed.

Lemma data_flags_u8 fr prio ch : is_u8 (data_flags fr prio ch).
Proof.
  unfold data_flags. destruct (1 <? fr), (prio =? _), (ch =? _); vm_compute; split; congruence.
Qed.

Lemma data_hdr_ok c p ch prio seq stream fr i now payload :
  1 <= ch < KM_CHANNEL_COUNT -> 1 <= fr <= 16 -> 0 <= i < fr ->
  slot_fields_ok c p prio seq stream now payload ->
  rh_ok (data_hdr c p ch prio seq stream fr i now payload).
Proof.
  unfold KM_CHANNEL_COUNT, MESH_V2_TUNNEL_CHANNEL_MAX.
  intros Hch Hfr Hi (H1 & H2 & H3 & H4 & H5 & H6 & H7 & H8 & H9 & H10).
  pose proof (data_flags_u8 fr prio ch) as Hf.
  assert (Hl : (length (chunk_of payload i) <= 152)%nat).
  { unfold chunk_of, slice, MESH_V2_RELIABLE_INNER_MAX. rewrite length_take. lia. }
  unfold rh_ok, data_hdr. cbn. destruct H8, H9. repeat split; try done; words.
Qed.

(** The packet in a transmit slot reaches the receiver's DATA handler as
    the header and the fragment that were submitted. *)
Theorem data_packet_received {W} `{!Env W} c p ch prio seq stream fr i now payload :
  1 <= ch < KM_CHANNEL_COUNT -> 1 <= fr <= 16 -> 0 <= i < fr ->
  slot_fields_ok c p prio seq stream now payload ->
  keemash_rel_handle_rx (W := W) (c_local_mac (cfg c))
    (t_bytes (data_slot c p ch prio seq stream fr i now payload))
  = handle_data (c_local_mac (cfg c)) (data_hdr c p ch prio seq stream fr i now payload)
      (chunk_of payload i).
Proof.
  intros Hch Hfr Hi Hok. pose proof (data_hdr_ok c p ch prio seq stream fr i now payload Hch Hfr Hi Hok) as Hrh.
  destruct Hok as (H1 & H2 & H3 & H4 & H5 & H6 & H7 & H8 & H9 & H10).
  set (rh := data_hdr c p ch prio seq stream fr i now payload) in *.
  assert (Hlen : length (encode_rh rh) = 40%nat).
  { apply length_encode_rh; [apply H8|apply H9]. }
  assert (Hl : (length (chunk_of payload i) <= 152)%nat).
  { unfold chunk_of, slice, MESH_V2_RELIABLE_INNER_MAX. rewrite length_take. lia. }
  unfold keemash_rel_handle_rx, data_slot. cbn [t_bytes]. fold rh.
  rewrite packet_valid_built.
  2: { split; [vm_compute; split; congruence|]. split; [done|]. split; [done|]. split.
       - apply Forall_app. split; [by apply encode_rh_bytes|]. by apply are_bytes_slice.
       - rewrite length_app, Hlen. unfold MESH_V2_PAYLOAD_MAX. lia. }
  cbn [build_hdr set_field setter h_type h_payload_len h_src_mac].
  unfold mac_eq. rewrite bytes_eqb_refl. cbn [negb].
  replace (u16 (Z.of_nat (length (encode_rh rh ++ chunk_of payload i)))
    <? Z.of_nat sizeof_rh) with false.
  2: { symmetry. apply Z.ltb_ge. rewrite length_app, Hlen. unfold sizeof_rh. words. }
  cbn -[handle_data decode_rh encode_rh drop sizeof_rh].
  rewrite decode_encode_rh by done. by rewrite drop_app_length' by done.
Qed.

(** ** Acknowledgement *)

Definition ack_frees (mac : bytes) (ack : mesh_v2_reliable_ack_payload_t) (t : tx_slot_t) : bool :=
  t_used t && (t_channel t =? ack_channel_id ack) && mac_eq (t_peer t) mac
  && ack_accepts ack (t_seq t).

Lemma update_rto_mac c sample s : p_mac (update_rto c sample s) = p_mac s.
Proof. unfold update_rto. by repeat split_if. Qed.

Section Ack.
Context {W : Type} `{!Env W} (p : nat) (ack : mesh_v2_reliable_ack_payload_t).

Lemma set_peer_mac f (c : keemash_rel_ctx_t) q :
  (forall s, p_mac (f s) = p_mac s) -> p_mac (peer_at (set_peer p f c) q) = p_mac (peer_at c q).
Proof.
  intros H. unfold peer_at, set_peer. cbn. unfold setter.
  rewrite !nth_lookup, list_lookup_alter. destruct (decide (p = q)) as [->|]; [|done].
  destruct (peers c !! q); [apply H|done].
Qed.

(** One iteration of the loop: slot [i] is freed exactly when covered. *)
Lemma ack_slot_tx now i (s : keemash_rel_ctx_t * W) :
  let s' := (ack_slot p ack now i s).2 in
  tx s'.1 = alter (fun t => if ack_frees (p_mac (peer_at s.1 p)) ack t then tx_zero else t) i (tx s.1) /\
  p_mac (peer_at s'.1 p) = p_mac (peer_at s.1 p) /\ cfg s'.1 = cfg s.1 /\
  rx s'.1 = rx s.1 /\ reassembly s'.1 = reassembly s.1.
Proof.
  cbn zeta. unfold ack_slot. rewrite bind_eq. cbn [get_ctx gets fst snd].
  fold (ack_frees (p_mac (peer_at s.1 p)) ack (tx_at s.1 i)).
  assert (Halt : forall b, ack_frees (p_mac (peer_at s.1 p)) ack (tx_at s.1 i) = b ->
    alter (fun t => if ack_frees (p_mac (peer_at s.1 p)) ack t then tx_zero else t) i (tx s.1)
    = if b then alter (fun _ => tx_zero) i (tx s.1) else tx s.1).
  { intros b Hb. apply list_eq. intros j. rewrite list_lookup_alter.
    destruct (decide (i = j)) as [<-|Hne].
    - destruct (tx s.1 !! i) as [t|] eqn:Et.
      + assert (tx_at s.1 i = t) as Ht by (by apply nth_lookup_Some). rewrite Ht in Hb.
        destruct b; rewrite ?list_lookup_alter_eq, Et; cbn; by rewrite Hb.
      + destruct b; rewrite ?list_lookup_alter_eq; by rewrite Et.
    - destruct b; [by rewrite list_lookup_alter_ne|done]. }
  destruct (ack_frees (p_mac (peer_at s.1 p)) ack (tx_at s.1 i)) eqn:Ef;
    rewrite (Halt _ eq_refl); [|done].
  cbn [when]. rewrite bind_eq. unfold when. destruct (_ && _).
  - split; [done|]. split; [|done].
    apply (set_peer_mac (update_rto _ _) s.1 p). apply update_rto_mac.
  - done.
Qed.

Lemma alter_prefix {A} (f : A -> A) (l : list A) (n : nat) :
  (n < length l)%nat ->
  alter f n ((f <$> take n l) ++ drop n l) = (f <$> take (S n) l) ++ drop (S n) l.
Proof.
  revert n. induction l as [|x l IH]; intros [|n] H; cbn in H; try lia; [done|].
  cbn. f_equal. apply IH. lia.
Qed.

Lemma ack_loop_tx now n (s : keemash_rel_ctx_t * W) :
  (n <= length (tx s.1))%nat ->
  let f := fun t => if ack_frees (p_mac (peer_at s.1 p)) ack t then tx_zero else t in
  let s' := (for_each (seq 0 n) (ack_slot p ack now) s).2 in
  tx s'.1 = (f <$> take n (tx s.1)) ++ drop n (tx s.1) /\
  p_mac (peer_at s'.1 p) = p_mac (peer_at s.1 p) /\ cfg s'.1 = cfg s.1 /\
  rx s'.1 = rx s.1 /\ reassembly s'.1 = reassembly s.1.
Proof.
  cbn zeta. induction n as [|n IH]; intros Hn; [done|].
  rewrite seq_S, for_each_app. cbn [plus for_each].
  destruct (IH ltac:(lia)) as (E1 & E2 & E3 & E4 & E5).
  set (s1 := (for_each (seq 0 n) (ack_slot p ack now) s).2) in *.
  rewrite bind_eq. cbn [snd mret ST_ret].
  destruct (ack_slot_tx now n s1) as (F1 & F2 & F3 & F4 & F5).
  rewrite F1, F2, F3, F4, F5, E1, E2, E3, E4, E5. split; [|done].
  by apply alter_prefix.
Qed.
End Ack.

(** An acknowledgement frees exactly the slots it covers (the channel's
    slots of that peer up to the cumulative number or flagged in the SACK
    bitmap); every other slot and the receive side are untouched. *)
Theorem ack_slots_exact {W} `{!Env W} p ack (s : keemash_rel_ctx_t * W) :
  length (tx s.1) = c_tx_slots (cfg s.1) ->
  let s' := (ack_slots p ack s).2 in
  tx s'.1 = clear_if (ack_frees (p_mac (peer_at s.1 p)) ack) tx_zero (tx s.1) /\
  rx s'.1 = rx s.1 /\ reassembly s'.1 = reassembly s.1 /\ cfg s'.1 = cfg s.1.
Proof.
  intros Hl. cbn zeta. unfold ack_slots. rewrite bind_eq.
  assert (Hn : (now_ms s).2.1 = s.1).
  { unfold now_ms. rewrite bind_eq. unfold lift_world. by destruct (esp_timer_get_time s.2). }
  set (s0 := (now_ms s).2) in *. set (now := (now_ms s).1). rewrite bind_eq.
  cbn [get_ctx gets fst snd]. rewrite bind_eq. rewrite <- Hn in *.
  destruct (ack_loop_tx p ack now (c_tx_slots (cfg s0.1)) s0 ltac:(lia)) as (E1 & _ & E3 & E4 & E5).
  set (s1 := (for_each _ _ s0).2) in *.
  change (tx s1.1 = clear_if (ack_frees (p_mac (peer_at s0.1 p)) ack) tx_zero (tx s0.1) /\
    rx s1.1 = rx s0.1 /\ reassembly s1.1 = reassembly s0.1 /\ cfg s1.1 = cfg s0.1).
  rewrite E1, E3, E4, E5, <- Hl, take_ge, drop_ge, app_nil_r by lia. done.
Qed.

(** ** Authentication and sessions *)

(** The peers without their addresses, statistics and times. *)
Definition peer_states (c : keemash_rel_ctx_t) := peer_core <$> peers c.

(** Nothing that carries messages has changed. *)
Definition nothing_accepted (c c' : keemash_rel_ctx_t) : Prop :=
  tx c' = tx c /\ rx c' = rx c /\ reassembly c' = reassembly c /\ peer_states c' = peer_states c.

Lemma peer_find_quiet {W} `{!Env W} mac (s : keemash_rel_ctx_t * W) :
  let r := peer_find mac false s in
  nothing_accepted s.1 r.2.1 /\ r.1 = peer_lookup s.1 (peer_key s.1 mac) /\
  (forall p, peer_core (peer_at r.2.1 p) = peer_core (peer_at s.1 p)).
Proof.
  cbn zeta. unfold peer_find. rewrite bind_eq. cbn [get_ctx gets fst snd].
  destruct (peer_lookup _ _) as [i|] eqn:E; [|done].
  destruct (if c_root_role (cfg s.1) then _ else _) as [m|]; [|done].
  rewrite bind_eq. split; [|split; [done|]].
  - unfold nothing_accepted, peer_states. do 3 (split; [done|]).
    cbn. unfold setter. apply list_eq. intros j. rewrite !list_lookup_fmap, list_lookup_alter.
    destruct (decide (i = j)) as [->|]; [|done]. by destruct (peers s.1 !! j).
  - intros q. cbn. unfold peer_at, set_peer. cbn. unfold setter.
    rewrite !nth_lookup, list_lookup_alter. destruct (decide (i = q)) as [->|]; [|done].
    by destruct (peers s.1 !! q).
Qed.

Lemma peer_find_sessions {W} `{!Env W} mac (s : keemash_rel_ctx_t * W) q root node :
  session_bound (peer_at (peer_find mac false s).2.1 q) root node
  = session_bound (peer_at s.1 q) root node.
Proof.
  unfold peer_find. rewrite bind_eq. cbn [get_ctx gets fst snd].
  destruct (peer_lookup _ _) as [i|] eqn:E; [|done].
  destruct (if c_root_role (cfg s.1) then _ else _) as [m|]; [|done].
  rewrite bind_eq. cbn. unfold peer_at, set_peer. cbn. unfold setter.
  rewrite !nth_lookup, list_lookup_alter. destruct (decide (i = q)) as [->|]; [|done].
  by destruct (peers s.1 !! q).
Qed.

(** No peer of that address is bound to the two session identifiers. *)
Definition not_bound (c : keemash_rel_ctx_t) (from : bytes) (root node : Z) : Prop :=
  forall p, peer_lookup c (peer_key c (Some from)) = Some p ->
  session_bound (peer_at c p) root node = false.

(** DATA, ACK, NACK and LOST packets of another session (a stale one, or
    a peer that has not completed the handshake) are refused and change no
    slot, no sequence number and no session. *)
Theorem stale_session_refused {W} `{!Env W} from rh payload ack nack lost
  (s : keemash_rel_ctx_t * W) :
  (not_bound s.1 from (rh_root_session_id rh) (rh_node_session_id rh) ->
   let r := handle_data from rh payload s in
   r.1 <> ESP_OK /\ nothing_accepted s.1 r.2.1) /\
  (not_bound s.1 from (ack_root_session_id ack) (ack_node_session_id ack) ->
   let r := handle_ack_packet from ack nack s in
   r.1 = ESP_ERR_INVALID_STATE /\ nothing_accepted s.1 r.2.1) /\
  (not_bound s.1 from (lost_root_session_id lost) (lost_node_session_id lost) ->
   let r := handle_lost_packet from lost s in
   r.1 = ESP_ERR_INVALID_STATE /\ nothing_accepted s.1 r.2.1).
Proof.
  destruct (peer_find_quiet (Some from) s) as (Hq & Hf & _).
  split; [|split]; intros Hb; cbn zeta.
  - unfold handle_data. rewrite bind_eq. cbn [get_ctx gets fst snd].
    destruct (data_rejected _ _ _ _); [done|]. rewrite !bind_eq. cbn [get_ctx gets fst snd].
    rewrite Hf. destruct (peer_lookup _ _) as [p|] eqn:E; [|done].
    rewrite peer_find_sessions, (Hb p E). done.
  - unfold handle_ack_packet. rewrite !bind_eq. cbn [get_ctx gets fst snd].
    rewrite Hf. destruct (peer_lookup _ _) as [p|] eqn:E; [|done].
    rewrite peer_find_sessions, (Hb p E). done.
  - unfold handle_lost_packet. rewrite !bind_eq. cbn [get_ctx gets fst snd].
    rewrite Hf. destruct (peer_lookup _ _) as [p|] eqn:E; [|done].
    cbn zeta. rewrite peer_find_sessions, (Hb p E). done.
Qed.

(** The receive entry point takes nothing from a packet that fails
    validation or whose header names another source than the transport's. *)
Theorem forged_packet_refused {W} `{!Env W} from packet (s : keemash_rel_ctx_t * W) :
  (packet_valid packet = None -> keemash_rel_handle_rx from packet s = (ESP_ERR_INVALID_CRC, s)) /\
  (forall h payload, packet_valid packet = Some (h, payload) -> h_src_mac h <> from ->
   keemash_rel_handle_rx from packet s = (ESP_ERR_INVALID_ARG, s)).
Proof.
  unfold keemash_rel_handle_rx. split; [by intros ->|]. intros h payload -> Hne.
  assert (mac_eq (h_src_mac h) from = false) as ->; [|done].
  unfold mac_eq, bytes_eqb. by apply bool_decide_eq_false.
Qed.

(** A repeated HELLO_ACK for the binding already installed is
    idempotent: it succeeds and no queued frame, sequence number or buffered
    packet is lost, even when it asks for a link reset. *)
Theorem hello_ack_idempotent {W} `{!Env W} from ack p (s : keemash_rel_ctx_t * W) :
  c_root_role (cfg s.1) = false ->
  ha_profile_version ack = MESH_V2_RELIABLE_PROFILE_VERSION ->
  Z.land (ha_capabilities ack) required_caps = required_caps ->
  ha_node_session_id ack = local_session s.1 ->
  peer_lookup s.1 (peer_key s.1 (Some from)) = Some p ->
  session_bound (peer_at s.1 p) (ha_root_session_id ack) (ha_node_session_id ack) = true ->
  let r := handle_hello_ack from ack s in
  r.1 = ESP_OK /\ nothing_accepted s.1 r.2.1.
Proof.
  intros Hrole Hv Hcaps Hn Hp Hb. cbn zeta. unfold handle_hello_ack. rewrite bind_eq.
  cbn [get_ctx gets fst snd]. rewrite Hrole, Hv, Hcaps, Hn, !Z.eqb_refl. cbn [negb orb].
  (* the peer exists, so the creating search behaves as the plain one *)
  assert (Hfind : peer_find (Some from) true s = peer_find (Some from) false s).
  { unfold peer_find. rewrite !bind_eq. cbn [get_ctx gets fst snd]. by rewrite Hp. }
  rewrite bind_eq, Hfind. destruct (peer_find_quiet (Some from) s) as (Hq & Hf & _).
  rewrite Hf, Hp. set (s1 := (peer_find (Some from) false s).2) in *.
  assert (Hb1 : session_bound (peer_at s1.1 p) (ha_root_session_id ack)
                  (ha_node_session_id ack) = true) by (unfold s1; by rewrite peer_find_sessions).
  clearbody s1. rewrite bind_eq. cbn [get_ctx gets fst snd]. cbn zeta.
  rewrite Hn in Hb1. unfold session_bound in Hb1. bools.
  rewrite H, H0, H1, !Z.eqb_refl. cbn [negb andb]. rewrite !andb_false_r. cbn [orb when].
  rewrite !bind_eq. split; [done|]. cbn [fst snd mret ST_ret].
  assert (Hnow : forall s2 : keemash_rel_ctx_t * W, (now_ms s2).2.1 = s2.1).
  { intros s2. unfold now_ms. rewrite bind_eq. unfold lift_world.
    by destruct (esp_timer_get_time s2.2). }
  unfold mod_ctx, modify. cbn [fst snd]. rewrite !Hnow.
  destruct Hq as (Q1 & Q2 & Q3 & Q4). unfold nothing_accepted. cbn. unfold setter.
  rewrite Q1, Q2, Q3. do 3 (split; [done|]).
  rewrite <- Q4. unfold peer_states. cbn. unfold setter.
  apply list_eq. intros j. rewrite !list_lookup_fmap, list_lookup_alter.
  destruct (decide (p = j)) as [<-|]; [|done]. unfold peer_at in H. rewrite nth_lookup in H.
  destruct (peers s1.1 !! p) as [x|] eqn:Ex; [|done]. cbn in *. unfold peer_core. cbn.
  by rewrite H.
Qed.

(** ** Witnesses *)

Definition reserve_ctx : keemash_rel_ctx_t :=
  ctx_init (normalize_config ((sample_config true root_mac)
    <| c_per_peer_tx_slots := 16%nat |> <| c_per_peer_control_reserve := 2%nat |>)) 11 12.

Example control_slot_reserved_witness : is_Some (tx_alloc reserve_ctx 0 4).
Proof.
  apply (control_slot_reserved reserve_ctx 0); [apply ctx_init_wf|vm_compute; lia..].
Defined.

(** A node whose handshake with the root (session 77) is complete. *)
Definition bound_node : keemash_rel_ctx_t * world :=
  (handle_hello_ack root_mac
     {| ha_profile_version := 1; ha_mtu := 224; ha_capabilities := root_caps;
        ha_root_session_id := 77; ha_node_session_id := 11; ha_reset_link := 1 |}
     (sample_ctx false, world_at 5000 13)).2.

Example submit_slots_filled_witness :
  exists js s', submit_slots 0 3 1 9 (Z.of_nat 2) 1 (replicate 200 7) (seqZ 0 (Z.of_nat 2)) []
                  bound_node = (Some ([] ++ js), s') /\ length js = 2%nat.
Proof.
  destruct (submit_slots_filled 0 3 1 9 1 (replicate 200 7) 2 [] bound_node) as (js & s' & E & L & _).
  - vm_compute. split; congruence.
  - vm_compute. lia.
  - vm_compute. reflexivity.
  - vm_compute. split; congruence.
  - vm_compute. lia.
  - exists js, s'. split; [exact E|exact L].
Defined.

Example fragments_cover_witness :
  concat (chunk_of (replicate 200 7) <$> seqZ 0 (fragments_of 200)) = replicate 200 7.
Proof. apply (fragments_cover (replicate 200 7)). vm_compute. split; congruence. Defined.

Example update_rto_bounds_witness :
  let s' := update_rto (sample_config false node_mac) 100 peer_zero in
  (s' = peer_zero \/ 250 <= p_rto_ms s' <= 2000) /\ p_rto_ms s' = 300.
Proof.
  split; [|vm_compute; reflexivity].
  apply (update_rto_bounds (sample_config false node_mac) 100 peer_zero);
    vm_compute; try split; congruence.
Defined.

Example data_packet_received_witness :
  keemash_rel_handle_rx (W := world) node_mac
    (t_bytes (data_slot bound_node.1 0 3 1 5 9 1 0 17 [1; 2; 3]))
  = handle_data node_mac (data_hdr bound_node.1 0 3 1 5 9 1 0 17 [1; 2; 3])
      (chunk_of [1; 2; 3] 0).
Proof.
  apply (data_packet_received bound_node.1 0 3 1 5 9 1 0 17 [1; 2; 3]).
  - vm_compute. split; congruence.
  - lia.
  - lia.
  - unfold slot_fields_ok, mac_addr, are_bytes. vm_compute.
    repeat split; try congruence; repeat constructor; congruence.
Defined.

Definition sample_ack : mesh_v2_reliable_ack_payload_t :=
  {| ack_channel_id := 3; ack_flags := 0; ack_reason := 0; ack_rsv := 0;
     ack_root_session_id := 77; ack_node_session_id := 11; ack_ack_seq := 1;
     ack_sack_bitmap := 2; ack_nack_seq := 0; ack_echo_tx_ms := 0;
     ack_origin_mac := node_mac; ack_target_mac := root_mac |}.

(** Three packets queued on channel 3. *)
Definition queued_node : keemash_rel_ctx_t * world :=
  (keemash_rel_submit (Some root_mac) 3 (replicate 400 7) 1 bound_node).2.

Example ack_slots_exact_witness :
  tx (ack_slots 0 sample_ack queued_node).2.1
  = clear_if (ack_frees (p_mac (peer_at queued_node.1 0)) sample_ack) tx_zero (tx queued_node.1) /\
  tx_unacked queued_node.1 0 = 3%nat /\
  tx_unacked (ack_slots 0 sample_ack queued_node).2.1 0 = 1%nat.
Proof.
  assert (Hl : length (tx queued_node.1) = c_tx_slots (cfg queued_node.1))
    by (vm_compute; reflexivity).
  split; [|vm_compute; split; reflexivity].
  exact (proj1 (ack_slots_exact 0 sample_ack queued_node Hl)).
Defined.

Definition stale_lost : mesh_v2_reliable_lost_payload_t :=
  {| lost_channel_id := 3; lost_reason := 1; lost_rsv := 0; lost_root_session_id := 76;
     lost_node_session_id := 11; lost_seq_first := 1; lost_seq_last := 4;
     lost_origin_mac := root_mac; lost_target_mac := node_mac |}.

Example stale_session_refused_witness :
  (handle_lost_packet root_mac stale_lost bound_node).1 = ESP_ERR_INVALID_STATE.
Proof.
  assert (Hb : not_bound bound_node.1 root_mac (lost_root_session_id stale_lost)
                 (lost_node_session_id stale_lost)).
  { intros p Hp. vm_compute in Hp. injection Hp as <-. vm_compute. reflexivity. }
  exact (proj1 (proj2 (proj2 (stale_session_refused root_mac rh_zero [] sample_ack false
    stale_lost bound_node)) Hb)).
Defined.

Example forged_packet_refused_witness :
  keemash_rel_handle_rx node_mac (build_packet 58 77 root_mac [1; 2; 3]) bound_node
  = (ESP_ERR_INVALID_ARG, bound_node).
Proof.
  assert (Hv : packet_valid (build_packet 58 77 root_mac [1; 2; 3])
               = Some (build_hdr 58 77 root_mac [1; 2; 3], [1; 2; 3])) by (vm_compute; reflexivity).
  assert (Hs : h_src_mac (build_hdr 58 77 root_mac [1; 2; 3]) <> node_mac)
    by (vm_compute; congruence).
  exact (proj2 (forged_packet_refused node_mac (build_packet 58 77 root_mac [1; 2; 3]) bound_node)
    _ _ Hv Hs).
Defined.

Definition repeated_ack : mesh_v2_reliable_hello_ack_payload_t :=
  {| ha_profile_version := 1; ha_mtu := 224; ha_capabilities := root_caps;
     ha_root_session_id := 77; ha_node_session_id := 11; ha_reset_link := 1 |}.

Example hello_ack_idempotent_witness :
  let r := handle_hello_ack root_mac repeated_ack queued_node in
  r.1 = ESP_OK /\ nothing_accepted queued_node.1 r.2.1.
Proof.
  assert (H1 : c_root_role (cfg queued_node.1) = false) by (vm_compute; reflexivity).
  assert (H2 : ha_profile_version repeated_ack = MESH_V2_RELIABLE_PROFILE_VERSION) by reflexivity.
  assert (H3 : Z.land (ha_capabilities repeated_ack) required_caps = required_caps)
    by (vm_compute; reflexivity).
  assert (H4 : ha_node_session_id repeated_ack = local_session queued_node.1)
    by (vm_compute; reflexivity).
  assert (H5 : peer_lookup queued_node.1 (peer_key queued_node.1 (Some root_mac)) = Some 0%nat)
    by (vm_compute; reflexivity).
  assert (H6 : session_bound (peer_at queued_node.1 0) (ha_root_session_id repeated_ack)
                 (ha_node_session_id repeated_ack) = true) by (vm_compute; reflexivity).
  exact (hello_ack_idempotent root_mac repeated_ack 0 queued_node H1 H2 H3 H4 H5 H6).
Defined.
