(* ===== verification/RelSelftest.v ===== *)
(** * The self-test of the reliable core (keemash_mesh_core.c, from debug_send_cb on)

    Two endpoints in one process: the send callback of each hands the packet to the
    other's [keemash_rel_handle_rx] at once, so a call nests into the other context and
    back into the one that is still sending.  The state is seen from one endpoint: its
    context, then a [link] with the other's context, both endpoints and the board.
    [turn] changes the sides.  [depth] bounds the nesting; reaching it is recorded.

    A transmission reads the packet where it lies, at the moment it is made (RelCore,
    [packet_ref]): the duplicate of a packet that the nested acknowledgement has cleared is
    sent as zeros.  The reception itself works on the bytes it was called with; in the C
    program they are still the sender's, and a nested LOST packet with the receiver-drop
    flag may clear them before the handler has read the header for the last time. *)

From S2P Require Import Prelude.
From S2P Require Import Words.
From S2P Require Import Esp.
From S2P Require Import MeshProto.
From S2P Require Import MeshProtoV2.
From S2P Require Import MeshWire.
From S2P Require Import RelState.
From S2P Require Import RelCore.
From S2P Require Import RelOps.
#[local] Open Scope Z_scope.

Module SelftestText.
Import Stdlib.Strings.String.
#[local] Open Scope string_scope.
Definition hello_tag : bytes := text "dbg".
Definition command : bytes := text "@dbg".
Definition slash : bytes := text "/".
Definition passed : bytes := text " lossless selftests passed".
End SelftestText.

(** ** The endpoints *)

Class Board (B : Type) := {
  board_timer_us : ST B Z;
  board_random : ST B Z;
  (** whether the context and its arrays can be allocated *)
  board_calloc : ST B (bool * bool) }.

Record debug_endpoint_t := {
  ep_mac : bytes; ep_delivered : list Z; ep_lost_events : Z; ep_spoof_from_once : bool }.

#[export] Instance eta_endpoint : Eta debug_endpoint_t := fun e =>
  Build_debug_endpoint_t (ep_mac e) (ep_delivered e) (ep_lost_events e) (ep_spoof_from_once e).

Record link (B : Type) := {
  l_peer : keemash_rel_ctx_t; l_ep : debug_endpoint_t; l_peer_ep : debug_endpoint_t;
  l_deep : bool; l_board : B }.

Arguments l_peer {B} _.
Arguments l_ep {B} _.
Arguments l_peer_ep {B} _.
Arguments l_deep {B} _.
Arguments l_board {B} _.
Arguments Build_link {B} _ _ _ _ _.

#[export] Instance eta_link {B : Type} : Eta (link B) := fun l =>
  Build_link (l_peer l) (l_ep l) (l_peer_ep l) (l_deep l) (l_board l).

Definition side (B : Type) : Type := keemash_rel_ctx_t * link B.

(** The same state seen from the other endpoint. *)
Definition turn {B : Type} (s : side B) : side B :=
  (l_peer s.2, {| l_peer := s.1; l_ep := l_peer_ep s.2; l_peer_ep := l_ep s.2;
                  l_deep := l_deep s.2; l_board := l_board s.2 |}).

Section Endpoint.
Context {B : Type} {BD : Board B}.

(** [from[5] ^= 0x5A] *)
Definition spoofed (mac : bytes) : bytes := alter (fun b => Z.lxor b 0x5A) 5%nat mac.

(** [debug_send_cb], given the reception of the other endpoint. *)
Definition debug_send_cb (handle_rx : bytes -> bytes -> Rel (link B) esp_err_t)
  (dst packet : bytes) : Rel (link B) esp_err_t := fun '(c, l) =>
  let ep := l_ep l in
  let from := if ep_spoof_from_once ep then spoofed (ep_mac ep) else ep_mac ep in
  let '(err, s) := handle_rx from packet
                     (turn (c, l <| l_ep := ep <| ep_spoof_from_once := false |> |>)) in
  (err, turn s).

Definition debug_deliver_cb (peer : bytes) (channel : Z) (payload : bytes) (stream_id : Z)
  : Rel (link B) unit :=
  when (channel <? KM_CHANNEL_COUNT)
    (modify (fun s => (s.1, s.2 <| l_ep ::= fun e =>
       e <| ep_delivered ::= alter (fun n => u32 (n + 1)) (Z.to_nat channel) |> |>))).

Definition debug_event_cb (peer : bytes) (channel reason first last : Z)
  : Rel (link B) unit :=
  modify (fun s => (s.1, s.2 <| l_ep ::= fun e =>
    e <| ep_lost_events ::= fun n => u32 (n + 1) |> |>)).

(** Deeper than modelled. *)
Definition too_deep (from packet : bytes) : Rel (link B) esp_err_t :=
  modify (fun s => (s.1, s.2 <| l_deep := true |>));; mret ESP_ERR_INVALID_STATE.

Definition on_board {A : Type} (m : ST B A) : ST (link B) A := fun l =>
  let '(a, b) := m (l_board l) in (a, l <| l_board := b |>).

(** The environment of an endpoint's context. *)
Fixpoint debug_env (depth : nat) : Env (link B) := {|
  esp_timer_get_time := on_board board_timer_us;
  esp_random := on_board board_random;
  cb_send := debug_send_cb
    (match depth with
     | O => too_deep
     | S depth => @keemash_rel_handle_rx _ (debug_env depth)
     end);
  cb_deliver := debug_deliver_cb;
  cb_event := debug_event_cb |}.

(** An endpoint without the other one. *)
Definition alone_env : Env B := {|
  esp_timer_get_time := board_timer_us; esp_random := board_random;
  cb_send := fun _ _ => mret ESP_ERR_INVALID_STATE;
  cb_deliver := fun _ _ _ _ => mret tt; cb_event := fun _ _ _ _ _ => mret tt |}.
End Endpoint.

Definition debug_root_mac : bytes := [0x02; 0; 0; 0; 0; 0x01].
Definition debug_node_mac : bytes := [0x02; 0; 0; 0; 0; 0x02].
Definition root_peer : option bytes := Some mac_zero_addr.
Definition node_peer : option bytes := Some debug_node_mac.

Definition endpoint_zero (mac : bytes) : debug_endpoint_t :=
  {| ep_mac := mac; ep_delivered := replicate (Z.to_nat KM_CHANNEL_COUNT) 0;
     ep_lost_events := 0; ep_spoof_from_once := false |}.

Definition debug_fill_config (root_role : bool) (mac : bytes) : keemash_rel_config_t :=
  {| c_root_role := root_role; c_local_mac := mac;
     c_max_peers := if root_role then 2%nat else 1%nat; c_tx_slots := 32; c_rx_slots := 32;
     c_reassembly_slots := 4; c_reserved_control_slots := 4; c_per_peer_tx_slots := 0;
     c_per_peer_rx_slots := 0; c_per_peer_reassembly_slots := 0;
     c_per_peer_control_reserve := 0; c_route_grace_ms := 0; c_stale_peer_ms := 0;
     c_initial_rto_ms := 500; c_min_rto_ms := 250; c_max_rto_ms := 2000;
     c_fragment_timeout_ms := 1000; c_max_retries := 5; c_fault_drop_data_every := 0;
     c_fault_drop_ack_every := 0; c_fault_drop_nack_every := 0; c_fault_duplicate_every := 0;
     c_fault_delay_every := 0; c_fault_delay_ms := 0; c_fault_reorder_every := 0;
     c_fault_overflow_every := 0; c_send := true; c_deliver := true; c_event := true |}.

(** ** The result *)

Record keemash_rel_debug_result_t := {
  dr_pass : bool; dr_cases_run : Z; dr_cases_passed : Z; dr_failed_mask : Z;
  dr_lost_count : Z; dr_overflow_count : Z; dr_replay_count : Z; dr_retry_count : Z;
  dr_delivered_control : Z; dr_delivered_log : Z; dr_delivered_task : Z;
  dr_delivered_memory : Z; dr_stress_frames : Z; dr_session_reset_root_passes : Z;
  dr_session_reset_node_passes : Z; dr_final_data_passes : Z; dr_final_ack_passes : Z;
  dr_control_starvation_max_lag : Z; dr_max_tx_unacked : nat; dr_max_reorder_depth : nat;
  dr_message : bytes }.

#[export] Instance eta_debug_result : Eta keemash_rel_debug_result_t := fun r =>
  Build_keemash_rel_debug_result_t (dr_pass r) (dr_cases_run r) (dr_cases_passed r)
    (dr_failed_mask r) (dr_lost_count r) (dr_overflow_count r) (dr_replay_count r)
    (dr_retry_count r) (dr_delivered_control r) (dr_delivered_log r) (dr_delivered_task r)
    (dr_delivered_memory r) (dr_stress_frames r) (dr_session_reset_root_passes r)
    (dr_session_reset_node_passes r) (dr_final_data_passes r) (dr_final_ack_passes r)
    (dr_control_starvation_max_lag r) (dr_max_tx_unacked r) (dr_max_reorder_depth r)
    (dr_message r).

Definition debug_result_zero : keemash_rel_debug_result_t :=
  {| dr_pass := false; dr_cases_run := 0; dr_cases_passed := 0; dr_failed_mask := 0;
     dr_lost_count := 0; dr_overflow_count := 0; dr_replay_count := 0; dr_retry_count := 0;
     dr_delivered_control := 0; dr_delivered_log := 0; dr_delivered_task := 0;
     dr_delivered_memory := 0; dr_stress_frames := 0; dr_session_reset_root_passes := 0;
     dr_session_reset_node_passes := 0; dr_final_data_passes := 0; dr_final_ack_passes := 0;
     dr_control_starvation_max_lag := 0; dr_max_tx_unacked := 0; dr_max_reorder_depth := 0;
     dr_message := [] |}.

(** ** A test case *)

(** The result so far, and the pair of endpoints seen from the root. *)
Definition dstate (B : Type) : Type := keemash_rel_debug_result_t * side B.
Abbreviation Dbg B := (ST (dstate B)).

(** [a && b], evaluated from the left. *)
Definition and_then {S : Type} (m k : ST S bool) : ST S bool :=
  b ← m; if (b : bool) then k else mret false.
Infix "&&>" := and_then (at level 60, right associativity).

Section Tests.
Context {B : Type} {BD : Board B} (depth : nat).
#[local] Instance test_env : Env (link B) := debug_env depth.

Definition on_root {A : Type} (m : Rel (link B) A) : Dbg B A := fun '(o, s) =>
  let '(a, s) := m s in (a, (o, s)).
Definition on_node {A : Type} (m : Rel (link B) A) : Dbg B A := fun '(o, s) =>
  let '(a, s) := m (turn s) in (a, (o, turn s)).
Definition get_out : Dbg B keemash_rel_debug_result_t := gets fst.
Definition mod_out (f : keemash_rel_debug_result_t -> keemash_rel_debug_result_t)
  : Dbg B unit := modify (fun s => (f s.1, s.2)).
Definition mod_cfg (f : keemash_rel_config_t -> keemash_rel_config_t) : Rel (link B) unit :=
  mod_ctx (fun c => c <| cfg ::= f |>).
Definition ok {A : Type} (m : ST A esp_err_t) : ST A bool :=
  err ← m; mret (err_eqb err ESP_OK).

(** [root_ep->delivered[ch]], [node_ep->delivered[ch]] *)
Definition root_delivered (ch : Z) : Dbg B Z :=
  gets (fun s => nth (Z.to_nat ch) (ep_delivered (l_ep s.2.2)) 0).
Definition node_delivered (ch : Z) : Dbg B Z :=
  gets (fun s => nth (Z.to_nat ch) (ep_delivered (l_peer_ep s.2.2)) 0).
Definition root_has (ch n : Z) : Dbg B bool := d ← root_delivered ch; mret (d =? n).
Definition node_has (ch n : Z) : Dbg B bool := d ← node_delivered ch; mret (d =? n).

Definition root_stats : Dbg B (option keemash_rel_stats_t) :=
  on_root (keemash_rel_stats node_peer).
(** The node asks with the root's address. *)
Definition node_stats : Dbg B (option keemash_rel_stats_t) :=
  on_node (keemash_rel_stats (Some debug_root_mac)).
Definition stats_hold (m : Dbg B (option keemash_rel_stats_t))
  (P : keemash_rel_stats_t -> bool) : Dbg B bool :=
  st ← m; mret (from_option P false st).

Definition debug_init (config : keemash_rel_config_t)
  : ST B (esp_err_t * option keemash_rel_ctx_t) :=
  '(ctx_ok, arrays_ok) ← board_calloc;
  @keemash_rel_init _ alone_env ctx_ok arrays_ok config.

(** The contexts of the root and of the node. *)
Definition debug_make_pair
  : ST B (esp_err_t * option (keemash_rel_ctx_t * keemash_rel_ctx_t)) :=
  '(err, root) ← debug_init (debug_fill_config true debug_root_mac);
  match root with
  | None => mret (err, None)
  | Some r =>
      '(err, node) ← debug_init (debug_fill_config false debug_node_mac);
      mret (err, n ← node; Some (r, n))
  end.

Definition debug_handshake : Dbg B bool :=
  ok (on_node (keemash_rel_send_hello root_peer (Some SelftestText.hello_tag) 1
                 MESH_V2_CAP_TYPED_CONTROL)) &&>
  on_root (keemash_rel_peer_ready node_peer) &&>
  on_node (keemash_rel_peer_ready (Some debug_root_mac)).

Definition debug_control (command_id : Z) : bytes :=
  control_payload MESH_V2_CONTROL_COMMAND 0 command_id SelftestText.command None.
Definition debug_send_control (peer : option bytes) (command_id : Z)
  : Rel (link B) bool :=
  ok (keemash_rel_send peer MESH_V2_TUNNEL_CHANNEL_CONTROL (debug_control command_id)
        KEEMASH_REL_PRIORITY_CONTROL).

Definition debug_payload (channel priority value : Z) : bytes :=
  [channel; priority; 0; 0] ++ le_bytes 4 value ++ replicate 24 0.
Definition debug_send_payload (peer : option bytes) (channel priority value : Z)
  : Rel (link B) bool :=
  ok (keemash_rel_send peer channel (debug_payload channel priority value) priority).

Definition debug_force_tx_due : Rel (link B) unit :=
  now ← now_ms;
  c ← get_ctx;
  for_each (seq 0 (c_tx_slots (cfg c))) (fun i =>
    c ← get_ctx;
    when (t_used (tx_at c i))
      (found ← peer_find (Some (t_peer (tx_at c i))) false;
       c ← get_ctx;
       let rto := match found with
                  | Some p => if p_rto_ms (peer_at c p) =? 0 then c_initial_rto_ms (cfg c)
                              else p_rto_ms (peer_at c p)
                  | None => c_initial_rto_ms (cfg c)
                  end in
       mod_tx i (fun t => t <| t_last_sent_ms := u32 (now - rto - 1) |>))).

(** The largest depths seen. *)
Definition note_depths (st : option keemash_rel_stats_t) : Dbg B unit :=
  match st with
  | Some st => mod_out (fun o =>
      o <| dr_max_tx_unacked ::= Nat.max (st_tx_unacked st) |>
        <| dr_max_reorder_depth ::= Nat.max (st_reorder_depth st) |>)
  | None => mret tt
  end.

Definition stats_idle (st : keemash_rel_stats_t) : bool :=
  (st_tx_unacked st =? 0)%nat && (st_reorder_depth st =? 0)%nat.

Definition debug_pair_idle : Dbg B bool :=
  root_st ← root_stats;
  node_st ← node_stats;
  note_depths root_st;; note_depths node_st;;
  mret (match root_st, node_st with
        | Some r, Some n => stats_idle r && stats_idle n
        | _, _ => false
        end).

Definition debug_update_control_lag (sent_control delivered_control : Z) : Dbg B unit :=
  let lag := if delivered_control <? sent_control then sent_control - delivered_control else 0 in
  mod_out (fun o => o <| dr_control_starvation_max_lag ::=
    fun m => if m <? lag then lag else m |>).

Definition debug_pump_pair (loops : nat) (force_due : bool) : Dbg B bool :=
  for_until (seq 0 loops) (fun _ =>
      when force_due (on_root debug_force_tx_due;; on_node debug_force_tx_due);;
      on_root keemash_rel_poll;; on_node keemash_rel_poll;;
      on_root keemash_rel_poll;; on_node keemash_rel_poll;;
      idle ← debug_pair_idle;
      mret (if (idle : bool) then Some true else None))
    debug_pair_idle.

Definition flush_faults (now : Z) : Rel (link B) unit :=
  c ← get_ctx; flush_delayed_packet (u32 (now + c_fault_delay_ms (cfg c) + 1)).

Definition release_held_packet : Rel (link B) unit :=
  c ← get_ctx;
  when (held_valid c)
    (_ ← cb_send (held_dst c) (held_packet c);
     mod_ctx (fun c => c <| held_valid := false |>)).

Definition no_faults (k : keemash_rel_config_t) : keemash_rel_config_t :=
  k <| c_fault_drop_data_every := 0 |> <| c_fault_drop_ack_every := 0 |>
    <| c_fault_drop_nack_every := 0 |> <| c_fault_duplicate_every := 0 |>
    <| c_fault_delay_every := 0 |> <| c_fault_reorder_every := 0 |>
    <| c_fault_overflow_every := 0 |>.

Definition debug_clear_faults : Dbg B unit :=
  now ← on_root now_ms;
  on_root (flush_faults now);; on_node (flush_faults now);;
  on_root release_held_packet;; on_node release_held_packet;;
  on_root (mod_cfg no_faults);; on_node (mod_cfg no_faults).

Definition stats_clean (st : keemash_rel_stats_t) : bool :=
  (st_lost_count st =? 0) && (st_overflow_count st =? 0) && stats_idle st.

Definition debug_final_clean : Dbg B bool :=
  debug_pump_pair 128 true &&>
  (root_st ← root_stats;
   match root_st with
   | None => mret false
   | Some r => stats_hold node_stats (fun n => stats_clean r && stats_clean n)
   end).

Definition accum_stats (st : option keemash_rel_stats_t) : Dbg B unit :=
  match st with
  | Some s => mod_out (fun o =>
      o <| dr_lost_count ::= fun n => u32 (n + st_lost_count s) |>
        <| dr_overflow_count ::= fun n => u32 (n + st_overflow_count s) |>
        <| dr_replay_count ::= fun n => u32 (n + st_replay_count s) |>
        <| dr_retry_count ::= fun n => u32 (n + st_retry_count s) |>);;
      note_depths st
  | None => mret tt
  end.

Definition both_delivered (ch : Z) : Dbg B Z :=
  r ← root_delivered ch; n ← node_delivered ch; mret (u32 (r + n)).

Definition debug_accum_stats : Dbg B unit :=
  st ← root_stats; accum_stats st;;
  st ← node_stats; accum_stats st;;
  control ← both_delivered MESH_V2_TUNNEL_CHANNEL_CONTROL;
  log ← both_delivered MESH_V2_TUNNEL_CHANNEL_LOG;
  task ← both_delivered MESH_V2_TUNNEL_CHANNEL_TASK;
  memory ← both_delivered MESH_V2_TUNNEL_CHANNEL_MEMORY;
  mod_out (fun o =>
    o <| dr_delivered_control ::= fun n => u32 (n + control) |>
      <| dr_delivered_log ::= fun n => u32 (n + log) |>
      <| dr_delivered_task ::= fun n => u32 (n + task) |>
      <| dr_delivered_memory ::= fun n => u32 (n + memory) |>).

(** What every case does around its body: the pair is made before and freed after it.
    The flag tells whether a call of some case nested too deep. *)
Definition case_state : Type := keemash_rel_debug_result_t * (bool * B).

Definition with_pair (body : Dbg B bool) : ST case_state bool := fun '(out, (deep, b)) =>
  let '((_, made), b) := debug_make_pair b in
  match made with
  | None => (false, (out, (deep, b)))
  | Some (r, n) =>
      let link := {| l_peer := n; l_ep := endpoint_zero debug_root_mac;
                     l_peer_ep := endpoint_zero debug_node_mac; l_deep := deep; l_board := b |} in
      let '(pass, (out, (_, l))) :=
        (pass ← body; debug_accum_stats;; mret pass) (out, (r, link)) in
      (pass, (out, (l_deep l, l_board l)))
  end.

(** ** The cases *)

Definition debug_case_seq_wrap : Dbg B bool :=
  debug_handshake &&>
  ok (on_node (keemash_rel_debug_force_next_seq root_peer MESH_V2_TUNNEL_CHANNEL_CONTROL
                 0xFFFFFFFE)) &&>
  ok (on_root (keemash_rel_debug_force_expected_seq node_peer MESH_V2_TUNNEL_CHANNEL_CONTROL
                 0xFFFFFFFE)) &&>
  on_node (debug_send_control root_peer 1) &&>
  on_node (debug_send_control root_peer 2) &&>
  on_node (debug_send_control root_peer 3) &&>
  root_has MESH_V2_TUNNEL_CHANNEL_CONTROL 3 &&>
  stats_hold root_stats (fun st =>
    (st_lost_count st =? 0) && (st_reorder_depth st =? 0)%nat).

Definition duplicate_hello_ack (root_session node_session : Z)
  : mesh_v2_reliable_hello_ack_payload_t :=
  {| ha_profile_version := MESH_V2_RELIABLE_PROFILE_VERSION; ha_mtu := MESH_V2_PACKET_MAX;
     ha_capabilities := required_caps; ha_root_session_id := root_session;
     ha_node_session_id := node_session; ha_reset_link := 1 |}.

Definition one_unacked (st : keemash_rel_stats_t) : bool :=
  (st_tx_unacked st =? 1)%nat && (st_lost_count st =? 0).

Definition set_drop_acks (n : Z) : Rel (link B) unit :=
  mod_cfg (fun k => k <| c_fault_drop_ack_every := n |>).

(** A repeated HELLO_ACK that asks for a reset keeps the data queued after the first one. *)
Definition duplicate_ack_pass : Dbg B bool :=
  on_root (set_drop_acks 1);;
  queued ← on_node (debug_send_payload root_peer MESH_V2_TUNNEL_CHANNEL_NODEINFO
                      KEEMASH_REL_PRIORITY_NORMAL 0xD001);
  before ← stats_hold node_stats one_unacked;
  root_session ← on_root keemash_rel_local_session;
  node_session ← on_node keemash_rel_local_session;
  handled ← ok (on_node (handle_hello_ack debug_root_mac
                  (duplicate_hello_ack root_session node_session)));
  kept ← stats_hold node_stats one_unacked;
  on_root (set_drop_acks 0);;
  mret (queued && before && handled && kept) &&> debug_pump_pair 16 true.

(** A side loses its session with data unacknowledged, and the pair recovers:
    [here] and [there] run on that side and on the other one. *)
Definition session_reset_pass (here there : forall A, Rel (link B) A -> Dbg B A)
  (peer : option bytes) (first second : Z) : Dbg B bool :=
  old_session ← here _ keemash_rel_local_session;
  there _ (set_drop_acks 1);;
  had_unacked ← (here _ (debug_send_payload peer MESH_V2_TUNNEL_CHANNEL_CONTROL
                           KEEMASH_REL_PRIORITY_CONTROL first) &&>
                 (idle ← debug_pair_idle; mret (negb idle)));
  there _ (set_drop_acks 0);;
  _ ← here _ keemash_rel_debug_reset_local_session;
  mret had_unacked &&>
  (session ← here _ keemash_rel_local_session; mret (negb (session =? old_session))) &&>
  debug_handshake &&>
  here _ (debug_send_payload peer MESH_V2_TUNNEL_CHANNEL_CONTROL
            KEEMASH_REL_PRIORITY_CONTROL second) &&>
  debug_pump_pair 16 true.

Definition reset_noticed (st : keemash_rel_stats_t) : bool :=
  (st_lost_reason st =? MESH_V2_LOST_REASON_SESSION_RESET) && (0 <? st_lost_count st)
  && stats_idle st.

Definition debug_case_session_reset : Dbg B bool :=
  shaken ← debug_handshake;
  if negb shaken then mret false
  else
    duplicate ← duplicate_ack_pass;
    root_reset ← session_reset_pass (@on_root) (@on_node) node_peer 0xA100 0xA101;
    when root_reset (mod_out (fun o =>
      o <| dr_session_reset_root_passes ::= fun n => u32 (n + 1) |>));;
    node_reset ← session_reset_pass (@on_node) (@on_root) root_peer 0xB100 0xB101;
    when node_reset (mod_out (fun o =>
      o <| dr_session_reset_node_passes ::= fun n => u32 (n + 1) |>));;
    root_st ← root_stats;
    node_st ← (match root_st with Some _ => node_stats | None => mret None end);
    mret (duplicate && root_reset && node_reset
          && from_option reset_noticed false root_st && from_option reset_noticed false node_st).

Definition debug_case_fragment_timeout : Dbg B bool :=
  debug_handshake &&>
  ok (on_root (keemash_rel_debug_force_fragment_timeout node_peer MESH_V2_TUNNEL_CHANNEL_TASK))
  &&>
  (on_root keemash_rel_poll;;
   stats_hold root_stats (fun st =>
     (st_lost_reason st =? MESH_V2_LOST_REASON_FRAGMENT_TIMEOUT) && (0 <? st_lost_count st))).

Definition debug_case_retry_exhausted : Dbg B bool :=
  debug_handshake &&>
  ok (on_node (keemash_rel_debug_force_retry_exhausted root_peer MESH_V2_TUNNEL_CHANNEL_CONTROL))
  &&>
  (on_node keemash_rel_poll;;
   stats_hold node_stats (fun st =>
     negb (st_ready st) && (st_lost_reason st =? MESH_V2_LOST_REASON_RETRY_EXHAUSTED)
     && (0 <? st_lost_count st))).

(** Three fragments, of which one is dropped. *)
Definition final_data_payload : bytes :=
  (fun i => 0x40 + Z.land i 0x3F) <$> seqZ 0 (MESH_V2_RELIABLE_INNER_MAX * 2 + 17).

(** The pair settles, the log message arrived once, and the root saw a repetition. *)
Definition final_pass (sent : bool) : Dbg B bool :=
  mret sent &&> debug_final_clean &&> root_has MESH_V2_TUNNEL_CHANNEL_LOG 1 &&>
  stats_hold root_stats (fun st => 0 <? st_replay_count st).

Definition debug_case_final_data : Dbg B bool :=
  shaken ← debug_handshake;
  if negb shaken then mret false
  else
    on_node (mod_cfg (fun k => k <| c_fault_drop_data_every := 3 |>));;
    sent ← ok (on_node (keemash_rel_send root_peer MESH_V2_TUNNEL_CHANNEL_LOG
                          final_data_payload KEEMASH_REL_PRIORITY_LOG));
    on_node (mod_cfg (fun k => k <| c_fault_drop_data_every := 0 |>));;
    pass ← final_pass sent;
    when pass (mod_out (fun o => o <| dr_final_data_passes ::= fun n => u32 (n + 1) |>));;
    mret pass.

Definition debug_case_final_ack : Dbg B bool :=
  shaken ← debug_handshake;
  if negb shaken then mret false
  else
    on_root (set_drop_acks 1);;
    sent ← on_node (debug_send_payload root_peer MESH_V2_TUNNEL_CHANNEL_LOG
                      KEEMASH_REL_PRIORITY_LOG 0xFA11AC);
    on_root (set_drop_acks 0);;
    pass ← final_pass sent;
    when pass (mod_out (fun o => o <| dr_final_ack_passes ::= fun n => u32 (n + 1) |>));;
    mret pass.

Definition node_route (up : bool) : Dbg B bool :=
  ok (on_node (keemash_rel_peer_route root_peer up)).

Definition debug_case_route_resume : Dbg B bool :=
  debug_handshake &&> node_route false &&>
  on_node (debug_send_payload root_peer MESH_V2_TUNNEL_CHANNEL_CONTROL
             KEEMASH_REL_PRIORITY_CONTROL 0xA071E001) &&>
  stats_hold node_stats (fun st => (st_tx_unacked st =? 1)%nat) &&>
  root_has MESH_V2_TUNNEL_CHANNEL_CONTROL 0 &&>
  node_route true &&> debug_final_clean &&> root_has MESH_V2_TUNNEL_CHANNEL_CONTROL 1.

Definition debug_case_source_auth : Dbg B bool :=
  debug_handshake &&>
  (on_node (modify (fun s => (s.1, s.2 <| l_ep ::= fun e =>
     e <| ep_spoof_from_once := true |> |>)));;
   on_node (debug_send_payload root_peer MESH_V2_TUNNEL_CHANNEL_CONTROL
              KEEMASH_REL_PRIORITY_CONTROL 0x50F00001) &&>
   root_has MESH_V2_TUNNEL_CHANNEL_CONTROL 0 &&>
   node_route false &&> node_route true &&> debug_final_clean &&>
   root_has MESH_V2_TUNNEL_CHANNEL_CONTROL 1).

Definition debug_case_route_timeout : Dbg B bool :=
  debug_handshake &&> node_route false &&>
  on_node (debug_send_payload root_peer MESH_V2_TUNNEL_CHANNEL_CONTROL
             KEEMASH_REL_PRIORITY_CONTROL 0xA071DEAD) &&>
  (found ← on_node (peer_find root_peer false);
   match found with
   | None => mret false
   | Some p =>
       on_node (now ← now_ms;
                c ← get_ctx;
                mod_peer p (fun s => s <| p_route_down_since_ms :=
                  u32 (now - c_route_grace_ms (cfg c) - 1) |>));;
       on_node keemash_rel_poll;;
       stats_hold node_stats (fun st =>
         negb (st_ready st) && (st_lost_reason st =? MESH_V2_LOST_REASON_ROUTE_TIMEOUT)
         && (0 <? st_lost_count st))
   end).

Definition debug_case_time_latest : Dbg B bool :=
  debug_handshake &&> node_route false &&>
  on_node (debug_send_payload root_peer MESH_V2_TUNNEL_CHANNEL_TIME
             KEEMASH_REL_PRIORITY_NORMAL 1) &&>
  (removed ← on_node (keemash_rel_supersede_channel root_peer MESH_V2_TUNNEL_CHANNEL_TIME);
   mret (removed =? 1)%nat) &&>
  on_node (debug_send_payload root_peer MESH_V2_TUNNEL_CHANNEL_TIME
             KEEMASH_REL_PRIORITY_NORMAL 2) &&>
  node_route true &&> debug_final_clean &&> root_has MESH_V2_TUNNEL_CHANNEL_TIME 1.


Definition count_frame : Dbg B unit :=
  mod_out (fun o => o <| dr_stress_frames ::= fun n => u32 (n + 1) |>).

Definition stress_faults : Dbg B unit :=
  on_node (mod_cfg (fun k => k <| c_fault_drop_data_every := 37 |>
    <| c_fault_duplicate_every := 53 |> <| c_fault_reorder_every := 97 |>));;
  on_root (set_drop_acks 41).

(** [frames] is 10000 in the code. *)
Definition debug_case_log_stress (frames : Z) : Dbg B bool :=
  debug_handshake &&>
  (stress_faults;;
   for_until (seqZ 0 frames) (fun i =>
       sent ← ok (on_node (keemash_rel_send root_peer MESH_V2_TUNNEL_CHANNEL_LOG
                             (le_bytes 4 i ++ replicate 36 0) KEEMASH_REL_PRIORITY_LOG));
       if (sent : bool) then count_frame;; _ ← debug_pump_pair 4 true; mret None
       else mret (Some tt))
     (mret tt);;
   debug_clear_faults;;
   root_has MESH_V2_TUNNEL_CHANNEL_LOG frames &&>
   (o ← get_out; mret (frames <=? dr_stress_frames o)) &&>
   debug_final_clean).

(** The locals of [debug_case_parallel_channels]. *)
Record channel_counts := {
  expect_root_log : Z; expect_root_task : Z; expect_root_control : Z;
  expect_node_memory : Z; expect_node_control : Z;
  sent_root_control : Z; sent_node_control : Z }.

#[export] Instance eta_channel_counts : Eta channel_counts := fun k =>
  Build_channel_counts (expect_root_log k) (expect_root_task k) (expect_root_control k)
    (expect_node_memory k) (expect_node_control k) (sent_root_control k) (sent_node_control k).

Definition counts_zero : channel_counts := Build_channel_counts 0 0 0 0 0 0 0.

Abbreviation Par := (ST (channel_counts * dstate B)).

Definition dbg {A : Type} (m : Dbg B A) : Par A := fun '(k, s) =>
  let '(a, s) := m s in (a, (k, s)).
Definition mod_counts (f : channel_counts -> channel_counts) : Par unit :=
  modify (fun s => (f s.1, s.2)).

(** A message every [every] rounds; [false] leaves the loop. *)
Definition send_due (i every : Z) (send : Dbg B bool) (count : channel_counts -> channel_counts)
  : Par bool :=
  if i `mod` every =? 0 then
    sent ← dbg send;
    if (sent : bool) then mod_counts count;; dbg count_frame;; mret true else mret false
  else mret true.

Definition parallel_round (i : Z) : Par (option unit) :=
  sent ←
    (send_due i 1 (on_node (debug_send_payload root_peer MESH_V2_TUNNEL_CHANNEL_LOG
                              KEEMASH_REL_PRIORITY_LOG i))
       (fun k => k <| expect_root_log ::= Z.succ |>) &&>
     send_due i 4 (on_node (debug_send_payload root_peer MESH_V2_TUNNEL_CHANNEL_TASK
                              KEEMASH_REL_PRIORITY_HIGH i))
       (fun k => k <| expect_root_task ::= Z.succ |>) &&>
     send_due i 5 (on_root (debug_send_payload node_peer MESH_V2_TUNNEL_CHANNEL_MEMORY
                              KEEMASH_REL_PRIORITY_HIGH i))
       (fun k => k <| expect_node_memory ::= Z.succ |>) &&>
     send_due i 7 (on_root (debug_send_payload node_peer MESH_V2_TUNNEL_CHANNEL_CONTROL
                              KEEMASH_REL_PRIORITY_CONTROL i))
       (fun k => k <| expect_node_control ::= Z.succ |> <| sent_node_control ::= Z.succ |>) &&>
     send_due i 11 (on_node (debug_send_payload root_peer MESH_V2_TUNNEL_CHANNEL_CONTROL
                               KEEMASH_REL_PRIORITY_CONTROL i))
       (fun k => k <| expect_root_control ::= Z.succ |> <| sent_root_control ::= Z.succ |>));
  if (sent : bool) then
    _ ← dbg (debug_pump_pair 6 true);
    k ← gets fst;
    dbg (at_root ← root_delivered MESH_V2_TUNNEL_CHANNEL_CONTROL;
         debug_update_control_lag (sent_root_control k) at_root;;
         at_node ← node_delivered MESH_V2_TUNNEL_CHANNEL_CONTROL;
         debug_update_control_lag (sent_node_control k) at_node);;
    mret None
  else mret (Some tt).

Definition parallel_faults : Dbg B unit :=
  on_node (mod_cfg (fun k => k <| c_fault_drop_data_every := 29 |>
    <| c_fault_drop_ack_every := 17 |> <| c_fault_duplicate_every := 23 |>));;
  on_root (mod_cfg (fun k => k <| c_fault_drop_data_every := 31 |>
    <| c_fault_drop_ack_every := 19 |> <| c_fault_duplicate_every := 37 |>)).

(** [rounds] is 256 in the code. *)
Definition parallel_loop (rounds : Z) : Dbg B channel_counts := fun s =>
  let '(_, (k, s)) :=
    for_until (seqZ 0 rounds) parallel_round (mret tt) (counts_zero, s) in
  (k, s).

Definition debug_case_parallel_channels (rounds : Z) : Dbg B bool :=
  debug_handshake &&>
  (parallel_faults;;
   k ← parallel_loop rounds;
   debug_clear_faults;;
   mret (expect_root_log k =? rounds) &&>
   root_has MESH_V2_TUNNEL_CHANNEL_LOG (expect_root_log k) &&>
   root_has MESH_V2_TUNNEL_CHANNEL_TASK (expect_root_task k) &&>
   root_has MESH_V2_TUNNEL_CHANNEL_CONTROL (expect_root_control k) &&>
   node_has MESH_V2_TUNNEL_CHANNEL_MEMORY (expect_node_memory k) &&>
   node_has MESH_V2_TUNNEL_CHANNEL_CONTROL (expect_node_control k) &&>
   (o ← get_out; mret (dr_control_starvation_max_lag o <=? 2)) &&>
   debug_final_clean).

(** ** The entry point *)

(** [cases[]]: the bit of a case, and the case. *)
Definition selftest_cases : list (Z * Dbg B bool) :=
  [(0x001, debug_case_seq_wrap); (0x002, debug_case_session_reset);
   (0x004, debug_case_fragment_timeout); (0x008, debug_case_retry_exhausted);
   (0x010, debug_case_log_stress 10000); (0x020, debug_case_parallel_channels 256);
   (0x040, debug_case_final_data); (0x080, debug_case_final_ack);
   (0x100, debug_case_route_resume); (0x200, debug_case_source_auth);
   (0x400, debug_case_route_timeout); (0x800, debug_case_time_latest)].

Definition KEEMASH_REL_DEBUG_CASE_ALL : Z := 0xFFF.

Definition run_case (case_mask : Z) (case : Z * Dbg B bool) : ST case_state unit :=
  let count f : ST case_state unit := modify (fun s => (f s.1, s.2)) in
  if Z.land case_mask case.1 =? 0 then mret tt
  else
    count (fun o => o <| dr_cases_run ::= fun n => u32 (n + 1) |>);;
    pass ← with_pair case.2;
    if (pass : bool) then count (fun o => o <| dr_cases_passed ::= fun n => u32 (n + 1) |>)
    else count (fun o => o <| dr_failed_mask ::= Z.lor case.1 |>).

Definition selftest_verdict (o : keemash_rel_debug_result_t) : keemash_rel_debug_result_t :=
  o <| dr_pass := (0 <? dr_cases_run o) && (dr_failed_mask o =? 0) |>
    <| dr_message := snprintf 128
           (decimal (dr_cases_passed o) ++ SelftestText.slash ++ decimal (dr_cases_run o)
            ++ SelftestText.passed) |>.

(** [keemash_rel_debug_run_selftest] with a result to write to. *)
Definition keemash_rel_debug_run_selftest (case_mask : Z) : ST (bool * B)
  keemash_rel_debug_result_t := fun b =>
  let mask := if case_mask =? 0 then KEEMASH_REL_DEBUG_CASE_ALL else case_mask in
  let '(_, (out, b)) := for_each selftest_cases (run_case mask) (debug_result_zero, b) in
  (selftest_verdict out, b).
End Tests.
