(* ===== verification/RelSelftestProps.v ===== *)
(** * Two endpoints that call into each other (keemash_mesh_core.c)

    Both contexts stay well-formed whatever calls either side makes, although every
    packet is handled inside the call that sends it; the verdict of the self-test is the
    outcome of its cases; and the cases pass. *)

From S2P Require Import Prelude.
From S2P Require Import Words.
From S2P Require Import Esp.
From S2P Require Import MeshProto.
From S2P Require Import MeshWire.
From S2P Require Import RelState.
From S2P Require Import RelCore.
From S2P Require Import RelOps.
From S2P Require Import RelQuiet.
From S2P Require Import RelInv.
From S2P Require Import RelFrame.
From S2P Require Import RelSelftest.
#[local] Open Scope Z_scope.

(** ** Calls that nest *)

Section Pair.
Context {B : Type} {BD : Board B}.

Definition other_wf (l : link B) : Prop := ctx_wf (l_peer l).
Definition pair_wf (s : side B) : Prop := ctx_wf s.1 /\ ctx_wf (l_peer s.2).

Lemma turn_turn (s : side B) : turn (turn s) = s.
Proof. by destruct s as [c []]. Qed.

Lemma on_board_along {A : Type} (m : ST B A) : stable (keeps other_wf) (on_board m).
Proof. intros l H. unfold on_board. by destruct (m (l_board l)). Qed.

(** A packet sent from here is a reception there, seen from the other side. *)
Lemma send_cb_pres handle_rx dst packet :
  (forall from p, stable (along (keeps other_wf)) (handle_rx from p)) ->
  stable (keeps wf_state) (debug_send_cb (B := B) handle_rx dst packet).
Proof.
  intros Hrx [c l] H. unfold debug_send_cb.
  match goal with |- context [handle_rx ?f packet ?t] =>
    specialize (Hrx f packet t); destruct (handle_rx f packet t) as [e [c' l']] end.
  apply Hrx, H.
Qed.

Lemma send_cb_along handle_rx dst packet :
  (forall from p, stable (keeps wf_state) (handle_rx from p)) ->
  stable (along (keeps other_wf)) (debug_send_cb (B := B) handle_rx dst packet).
Proof.
  intros Hrx [c l] H. unfold debug_send_cb.
  match goal with |- context [handle_rx ?f packet ?t] =>
    specialize (Hrx f packet t); destruct (handle_rx f packet t) as [e [c' l']] end.
  apply Hrx, H.
Qed.

(** Whoever handles the packets of the other side: it keeps its own context, and leaves
    the other one well-formed. *)
Definition neighbourly (handle_rx : bytes -> bytes -> Rel (link B) esp_err_t) : Prop :=
  (forall from p, stable (keeps wf_state) (handle_rx from p)) /\
  (forall from p, stable (along (keeps other_wf)) (handle_rx from p)).

Definition debug_rx (depth : nat) : bytes -> bytes -> Rel (link B) esp_err_t :=
  match depth with
  | O => too_deep
  | S depth => @keemash_rel_handle_rx _ (debug_env depth)
  end.

Lemma debug_env_keeps depth :
  neighbourly (debug_rx depth) -> @CbKeeps (link B) (debug_env depth).
Proof.
  intros [_ Hrx]. split.
  - intros dst packet. destruct depth; apply send_cb_pres, Hrx.
  - intros mac ch payload stream. destruct depth; cbn; unfold debug_deliver_cb, when;
      destruct (ch <? KM_CHANNEL_COUNT); intros [c l] H; exact H.
  - intros mac ch reason first last. destruct depth; intros [c l] H; exact H.
Qed.

Lemma debug_env_along depth :
  neighbourly (debug_rx depth) ->
  @CbAlong (link B) (debug_env depth) (keeps other_wf) /\
  @CbDeliverAlong (link B) (debug_env depth) (keeps other_wf).
Proof.
  intros [Hrx _]. split; split.
  - apply _.
  - destruct depth; apply on_board_along.
  - destruct depth; apply on_board_along.
  - intros dst packet. destruct depth; apply send_cb_along, Hrx.
  - intros mac ch reason first last. destruct depth; intros [c l] H; exact H.
  - intros mac ch payload stream. destruct depth; cbn; unfold debug_deliver_cb, when;
      destruct (ch <? KM_CHANNEL_COUNT); intros [c l] H; exact H.
Qed.

Lemma debug_rx_neighbourly depth : neighbourly (debug_rx depth).
Proof.
  induction depth as [|depth IH]; [split; intros from p [c l] H; exact H|].
  pose proof (debug_env_keeps depth IH). destruct (debug_env_along depth IH).
  split; intros from p.
  - apply handle_rx_pres.
  - by apply handle_rx_along.
Qed.

#[export] Instance debug_keeps depth : @CbKeeps (link B) (debug_env depth).
Proof. apply debug_env_keeps, debug_rx_neighbourly. Qed.
#[export] Instance debug_along depth : @CbAlong (link B) (debug_env depth) (keeps other_wf).
Proof. apply debug_env_along, debug_rx_neighbourly. Qed.
#[export] Instance debug_deliver_along depth :
  @CbDeliverAlong (link B) (debug_env depth) (keeps other_wf).
Proof. apply debug_env_along, debug_rx_neighbourly. Qed.
End Pair.


(** ** What the two sides can do *)

Section Steps.
Context {B : Type} {BD : Board B} (depth : nat).
#[local] Instance steps_env : Env (link B) := debug_env depth.

Definition fresh_link (n : keemash_rel_ctx_t) (b : B) : link B :=
  {| l_peer := n; l_ep := endpoint_zero debug_root_mac;
     l_peer_ep := endpoint_zero debug_node_mac; l_deep := false; l_board := b |}.

(** The pair as made, any calls of either side, any faults switched on or off between
    two calls; the endpoints' own fields and the board change freely between calls. *)
Inductive pair_reachable : side B -> Prop :=
  | pair_made b b' r n :
      debug_make_pair b = ((ESP_OK, Some (r, n)), b') -> pair_reachable (r, fresh_link n b')
  | pair_call s call : pair_reachable s -> call_ok call -> pair_reachable (run_call call s).2
  | pair_turn s : pair_reachable s -> pair_reachable (turn s)
  | pair_faults c l k : pair_reachable (c, l) -> no_faults k = no_faults (cfg c) ->
      pair_reachable (c <| cfg := k |>, l)
  | pair_moves c l l' : pair_reachable (c, l) -> l_peer l' = l_peer l ->
      pair_reachable (c, l').

Lemma reset_peer_along {W : Type} `{!Env W} (T : relation W) `{!CbAlong W T} mac r :
  stable (along T) (keemash_rel_reset_peer mac r).
Proof. unfold keemash_rel_reset_peer. apply (with_peer_along T). intros p.
  apply quiet_clear_peer_buffers, _.
Qed.

Lemma run_call_along {W : Type} `{!Env W} (T : relation W) `{!CbAlong W T}
  `{!CbDeliverAlong W T} call : stable (along T) (run_call call).
Proof.
  destruct call; cbn; unfold discard;
    first [apply poll_along, _|apply reset_peer_along, _|
      apply stable_bind; [apply _| |intros ?; apply stable_ret, _];
      eauto using send_hello_along, submit_along, handle_rx_along, supersede_along,
        peer_route_along, remove_along, peer_ready_along, stats_along, unacked_along,
        capabilities_along, force_next_along, force_expected_along, reset_session_along,
        fragment_timeout_along, retry_exhausted_along].
Qed.

Lemma faults_wf c k : no_faults k = no_faults (cfg c) -> ctx_wf c -> ctx_wf (c <| cfg := k |>).
Proof.
  destruct c as [g]; destruct k, g; cbn. intros [=]. subst. intros []. by split.
Qed.

Lemma init_wf b e c b' config :
  debug_init config b = ((e, Some c), b') -> ctx_wf c.
Proof.
  unfold debug_init. rewrite bind_eq. destruct (board_calloc b) as [[ctx_ok arrays_ok] b1].
  exact (@init_ctx_wf _ alone_env ctx_ok arrays_ok config b1 e c b').
Qed.

Lemma make_pair_wf b b' r n :
  debug_make_pair b = ((ESP_OK, Some (r, n)), b') -> ctx_wf r /\ ctx_wf n.
Proof.
  unfold debug_make_pair. rewrite bind_eq.
  destruct (debug_init (debug_fill_config true debug_root_mac) b) as [[e [c|]] b1] eqn:Er; [|done].
  cbn. rewrite bind_eq.
  destruct (debug_init (debug_fill_config false debug_node_mac) b1) as [[e' [c'|]] b2] eqn:En;
    [|done].
  intros [=]. subst. split; by eapply init_wf.
Qed.

(** C31: both contexts of a pair are well-formed in every state that the two sides reach
    with the calls of the header other than [keemash_rel_debug_force_fragment_timeout],
    although a packet is handled inside the call that sends it. Each transmission reads
    the sender's buffer at that moment; a reception works on the bytes it was called
    with. *)
Theorem pair_contexts_wf s : pair_reachable s -> ctx_wf s.1 /\ ctx_wf (l_peer s.2).
Proof.
  induction 1 as [b b' r n H|s call _ [Hc Hl] Hk|s _ [Hc Hl]|c l k _ [Hc Hl] Hk|c l l' _ [Hc Hl] E].
  - by eapply make_pair_wf.
  - split; [by apply (run_call_pres call Hk s)|].
    by apply (run_call_along (keeps other_wf) call s).
  - done.
  - split; [by apply faults_wf|done].
  - split; [done|]. cbn. by rewrite E.
Qed.
End Steps.

(** ** A board that can be run *)

(** A clock that advances by a millisecond whenever it is read, and a generator. *)
Record demo_board := { db_us : Z; db_seed : Z }.

Definition db_timer : ST demo_board Z := fun b =>
  (db_us b, Build_demo_board (db_us b + 1000) (db_seed b)).
Definition db_random : ST demo_board Z := fun b =>
  (db_seed b, Build_demo_board (db_us b) (u32 (db_seed b * 1103515245 + 12345))).

#[export] Instance demo_board_ok : Board demo_board :=
  Build_Board _ db_timer db_random (mret (true, true)).

Definition board0 : demo_board := {| db_us := 1000000; db_seed := 77 |}.

Definition demo_pair : option (side demo_board) :=
  match debug_make_pair board0 with
  | ((_, Some (r, n)), b) => Some (r, fresh_link n b)
  | _ => None
  end.

Lemma demo_pair_reachable depth s : demo_pair = Some s -> pair_reachable depth s.
Proof.
  unfold demo_pair. destruct (debug_make_pair board0) as [[e [[r n]|]] b] eqn:E; [|done].
  intros [= <-]. apply pair_made with (b := board0).
  assert (H : (debug_make_pair board0).1.1 = ESP_OK) by (vm_compute; reflexivity).
  rewrite E in H. cbn in H. by subst.
Qed.

Lemma pair_node_call depth s call :
  pair_reachable depth s -> call_ok call ->
  pair_reachable depth (turn (@run_call _ (debug_env depth) call (turn s)).2).
Proof. intros H Hc. apply pair_turn, pair_call; [by apply pair_turn|done]. Qed.

(** The node says hello: the root answers inside that call. *)
Definition after_hello (s : side demo_board) : side demo_board :=
  turn (@run_call _ (debug_env 3) (Call_hello root_peer (Some SelftestText.hello_tag) 1 0)
          (turn s)).2.

Definition both_ready (s : side demo_board) : bool :=
  forallb (fun c => existsb p_ready (peers c)) [s.1; l_peer s.2].

Example pair_contexts_wf_witness :
  exists s, pair_reachable 3 s /\ both_ready s = true /\ ctx_wf s.1 /\ ctx_wf (l_peer s.2).
Proof.
  destruct demo_pair as [s|] eqn:E; [|vm_compute in E; discriminate E].
  assert (Hr : pair_reachable 3 (after_hello s)).
  { apply pair_node_call; [by apply demo_pair_reachable|exact I]. }
  exists (after_hello s). split; [exact Hr|]. split.
  - assert (H : (s ← demo_pair; Some (both_ready (after_hello s))) = Some true)
      by (vm_compute; reflexivity).
    rewrite E in H. cbn in H. injection H. trivial.
  - apply (pair_contexts_wf 3 _ Hr).
Defined.

(** ** The cases pass *)

Module PassedText.
Import Stdlib.Strings.String.
#[local] Open Scope string_scope.
Definition all_ten : bytes := text "10/10 lossless selftests passed".
End PassedText.

Definition outcome (o : keemash_rel_debug_result_t) : bool * Z * Z * Z * bytes :=
  (dr_pass o, dr_cases_run o, dr_cases_passed o, dr_failed_mask o, dr_message o).

(** The ten cases that finish in a bounded number of calls pass, and no
    packet is handled more than three calls deep. *)
Theorem debug_cases_pass :
  let '(o, (deep, _)) := keemash_rel_debug_run_selftest 3 0xFCF (false, board0) in
  (outcome o, dr_session_reset_root_passes o, dr_session_reset_node_passes o,
   dr_final_data_passes o, dr_final_ack_passes o, deep) =
  ((true, 10, 10, 0, PassedText.all_ten), 1, 1, 1, 1, false).
Proof. vm_compute. reflexivity. Qed.

(** The two stress cases, shortened. *)
Definition stressed (case : ST (dstate demo_board) bool) : bool * Z * bool :=
  let '(pass, (o, (deep, _))) := with_pair 3 case (debug_result_zero, (false, board0)) in
  (pass, dr_stress_frames o, deep).

Example stress_passes :
  stressed (debug_case_log_stress 3 48) = (true, 48, false) /\
  stressed (debug_case_parallel_channels 3 24) = (true, 42, false).
Proof. split; vm_compute; reflexivity. Qed.

(** ** The verdict

    The cases write what they measure into the result, and never the counters of the
    run; so the verdict is that every selected case passed. *)

Definition counters (o : keemash_rel_debug_result_t) : Z * Z * Z :=
  (dr_cases_run o, dr_cases_passed o, dr_failed_mask o).
Definition same_counters {S : Type} : relation (keemash_rel_debug_result_t * S) :=
  fun s s' => counters s'.1 = counters s.1.

#[export] Instance same_counters_preorder {S : Type} : PreOrder (@same_counters S).
Proof.
  split; [done|]. intros x y z H1 H2. unfold same_counters in *. by transitivity (counters y.1).
Qed.

(** Statements of a case, none of which touches the counters. *)
Create HintDb quiet_case discriminated.
#[export] Hint Constants Opaque : quiet_case.
#[export] Hint Variables Opaque : quiet_case.
Ltac case_step :=
  lazymatch goal with
  | |- stable _ (and_then _ _) => unfold and_then at 1
  | |- stable _ (ok _) => unfold ok
  | |- stable _ (mod_out _) => apply stable_modify; intros ?; reflexivity
  | |- stable _ (on_root _) => intros [? ?]; unfold on_root; case_match; reflexivity
  | |- stable _ (on_node _) => intros [? ?]; unfold on_node; case_match; reflexivity
  | |- stable _ get_out => apply (stable_gets _)
  | _ => stable_step
  end.
Ltac case_go := repeat (case_step || solve [eauto with quiet_case nocore]).

Section Verdict.
Context {B : Type} {BD : Board B} (depth : nat).
Abbreviation quiet m := (stable (@same_counters (side B)) m).

Lemma quiet_note st : quiet (note_depths st).
Proof. unfold note_depths. case_go. Qed.
Hint Resolve quiet_note : quiet_case.
Lemma quiet_idle : quiet (debug_pair_idle depth).
Proof. unfold debug_pair_idle, root_stats, node_stats. case_go. Qed.
Hint Resolve quiet_idle : quiet_case.
Lemma quiet_pump n b : quiet (debug_pump_pair depth n b).
Proof. unfold debug_pump_pair. case_go. Qed.
Hint Resolve quiet_pump : quiet_case.
Lemma quiet_hold who P : quiet who -> quiet (stats_hold who P).
Proof. intros H. unfold stats_hold. case_go. Qed.
Lemma quiet_root_stats : quiet (root_stats depth).
Proof. unfold root_stats. case_go. Qed.
Lemma quiet_node_stats : quiet (node_stats depth).
Proof. unfold node_stats. case_go. Qed.
Lemma quiet_root_has ch n : quiet (root_has ch n).
Proof. unfold root_has, root_delivered. case_go. Qed.
Lemma quiet_node_has ch n : quiet (node_has ch n).
Proof. unfold node_has, node_delivered. case_go. Qed.
Hint Resolve quiet_hold quiet_root_stats quiet_node_stats quiet_root_has quiet_node_has
  : quiet_case.
Lemma quiet_final : quiet (debug_final_clean depth).
Proof. unfold debug_final_clean. case_go. Qed.
Lemma quiet_handshake : quiet (debug_handshake depth).
Proof. unfold debug_handshake. case_go. Qed.
Lemma quiet_route up : quiet (node_route depth up).
Proof. unfold node_route. case_go. Qed.
Hint Resolve quiet_final quiet_handshake quiet_route : quiet_case.
Lemma quiet_pass sent : quiet (final_pass depth sent).
Proof. unfold final_pass. case_go. Qed.
Hint Resolve quiet_pass : quiet_case.
Lemma quiet_accum : quiet (debug_accum_stats depth).
Proof. unfold debug_accum_stats, accum_stats, both_delivered, root_delivered, node_delivered. case_go. Qed.
Lemma quiet_clear : quiet (debug_clear_faults depth).
Proof. unfold debug_clear_faults. case_go. Qed.
Lemma quiet_count : quiet count_frame.
Proof. unfold count_frame. case_go. Qed.
Hint Resolve quiet_accum quiet_clear quiet_count : quiet_case.

Lemma quiet_stress n : quiet (debug_case_log_stress depth n).
Proof. unfold debug_case_log_stress, stress_faults. case_go. Qed.

Definition same_par : relation (channel_counts * dstate B) := fun s s' => same_counters s.2 s'.2.
Instance same_par_preorder : PreOrder same_par.
Proof.
  split; [intros s; unfold same_par; reflexivity|].
  intros x y z H1 H2. unfold same_par in *. by transitivity y.2.
Qed.

Lemma par_dbg {A} (m : ST (dstate B) A) : quiet m -> stable same_par (dbg m).
Proof. intros H [k s]. unfold dbg. specialize (H s). by destruct (m s). Qed.

Lemma par_due i every send count :
  quiet send -> stable same_par (send_due i every send count).
Proof.
  intros H. unfold send_due, mod_counts.
  repeat first [case_step|apply par_dbg; solve [assumption|apply quiet_count]|
    apply stable_modify; intros ?; unfold same_par; reflexivity].
Qed.

Lemma quiet_lag sent at_peer : quiet (debug_update_control_lag sent at_peer).
Proof. unfold debug_update_control_lag. case_go. Qed.
Hint Resolve quiet_lag : quiet_case.

Lemma par_round i : stable same_par (parallel_round depth i).
Proof.
  unfold parallel_round, debug_send_payload, root_delivered, node_delivered.
  repeat first [apply par_due; solve [case_go]|apply par_dbg; solve [case_go]|case_step].
Qed.

Lemma quiet_parallel n : quiet (debug_case_parallel_channels depth n).
Proof.
  assert (quiet (parallel_loop depth n)).
  { intros s. unfold parallel_loop.
    pose proof (stable_for_until same_par (seqZ 0 n) (parallel_round depth) (mret tt) par_round
      (stable_ret _ _) (counts_zero, s)) as H.
    destruct (for_until _ _ _ _) as [u [k s']]. exact H. }
  unfold debug_case_parallel_channels, parallel_faults. case_go.
Qed.

Lemma quiet_reset_root p a b : quiet (session_reset_pass depth (@on_root B) (@on_node B) p a b).
Proof. unfold session_reset_pass. case_go. Qed.
Lemma quiet_reset_node p a b : quiet (session_reset_pass depth (@on_node B) (@on_root B) p a b).
Proof. unfold session_reset_pass. case_go. Qed.
Lemma quiet_duplicate : quiet (duplicate_ack_pass depth).
Proof. unfold duplicate_ack_pass. case_go. Qed.
Hint Resolve quiet_reset_root quiet_reset_node quiet_duplicate : quiet_case.

(** Every case leaves the counters of the run alone. *)
Lemma cases_quiet bit case : In (bit, case) (selftest_cases depth) -> quiet case.
Proof.
  intros H. repeat destruct H as [[= <- <-]|H]; try done;
    auto using quiet_stress, quiet_parallel;
    [unfold debug_case_seq_wrap|unfold debug_case_session_reset|unfold debug_case_fragment_timeout
    |unfold debug_case_retry_exhausted|unfold debug_case_final_data|unfold debug_case_final_ack
    |unfold debug_case_route_resume|unfold debug_case_source_auth|unfold debug_case_route_timeout
    |unfold debug_case_time_latest]; case_go.
Qed.

Definition selected (mask : Z) (cases : list (Z * ST (dstate B) bool)) : Z :=
  Z.of_nat (count_if (fun case => negb (Z.land mask case.1 =? 0)) cases).

(** What a case is: a pair of its own is made, the body runs on it and says whether it
    passes, and the statistics of the pair are added to the result; without a pair the
    case fails. *)
Inductive on_own_pair (body : ST (dstate B) bool) : @case_state B -> bool -> @case_state B -> Prop :=
  | no_pair out deep (b : B) e b' :
      debug_make_pair b = ((e, None), b') ->
      on_own_pair body (out, (deep, b)) false (out, (deep, b'))
  | own_pair out deep (b : B) e r n b' pass s o c l :
      debug_make_pair b = ((e, Some (r, n)), b') ->
      body (out, (r, (fresh_link n b') <| l_deep := deep |>)) = (pass, s) ->
      debug_accum_stats depth s = (tt, (o, (c, l))) ->
      on_own_pair body (out, (deep, b)) pass (o, (l_deep l, l_board l)).

Definition no_counters (o : keemash_rel_debug_result_t) : keemash_rel_debug_result_t :=
  o <| dr_cases_run := 0 |> <| dr_cases_passed := 0 |> <| dr_failed_mask := 0 |>.
(** The same state apart from the counters of the run. *)
Definition recounted (s s' : @case_state B) : Prop :=
  no_counters s'.1 = no_counters s.1 /\ s'.2 = s.2.

(** The selected cases one after the other, with the bit of each and whether it passed. *)
Inductive cases_ran (mask : Z)
  : list (Z * ST (dstate B) bool) -> @case_state B -> list (Z * bool) -> @case_state B -> Prop :=
  | ran_none s : cases_ran mask [] s [] s
  | ran_skip bit case cases s os s' :
      Z.land mask bit = 0 -> cases_ran mask cases s os s' ->
      cases_ran mask ((bit, case) :: cases) s os s'
  | ran_case bit case cases s s0 pass s1 s2 os s' :
      Z.land mask bit <> 0 -> recounted s s0 -> on_own_pair case s0 pass s1 ->
      recounted s1 s2 -> cases_ran mask cases s2 os s' ->
      cases_ran mask ((bit, case) :: cases) s ((bit, pass) :: os) s'.

Definition failed_bits (os : list (Z * bool)) : Z :=
  foldr (fun c m => if c.2 : bool then m else Z.lor c.1 m) 0 os.

(** What the outcomes [os] add to the counters. *)
Definition counted (os : list (Z * bool)) (o o' : keemash_rel_debug_result_t) : Prop :=
  dr_cases_run o' = dr_cases_run o + Z.of_nat (length os) /\
  dr_cases_passed o' = dr_cases_passed o + Z.of_nat (count_if snd os) /\
  dr_failed_mask o' = Z.lor (dr_failed_mask o) (failed_bits os).

Lemma failed_bits_nonneg os : Forall (fun c => 0 < c.1) os -> 0 <= failed_bits os.
Proof.
  induction 1 as [|[bit [|]] os H _ IH]; cbn in *; [done|done|]. apply Z.lor_nonneg. split; [lia|done].
Qed.
Lemma failed_bits_0 os :
  Forall (fun c => 0 < c.1) os -> failed_bits os = 0 <-> Forall (fun c => c.2 = true) os.
Proof.
  induction 1 as [|[bit [|]] os H _ IH]; cbn in *; [done| |].
  { rewrite Forall_cons_iff, IH. split; [by split|by intros [_ ?]]. }
  rewrite Z.lor_eq_0_iff, Forall_cons_iff. cbn. split; [lia|by intros [? _]].
Qed.

Lemma with_pair_own body s : on_own_pair body s (with_pair depth body s).1 (with_pair depth body s).2.
Proof.
  destruct s as [out [deep b]]. unfold with_pair.
  destruct (debug_make_pair b) as [[e [[r n]|]] b'] eqn:E; [|by eapply no_pair].
  rewrite bind_eq. change {| l_peer := n; l_ep := _; l_peer_ep := _; l_deep := deep; l_board := b' |}
    with ((fresh_link n b') <| l_deep := deep |>).
  destruct (body _) as [pass s] eqn:Eb. rewrite bind_eq.
  cbn [fst snd].
  destruct (debug_accum_stats depth s) as [[] [o [c l]]] eqn:Es. cbn. by eapply own_pair.
Qed.

Lemma with_pair_quiet body : quiet body -> stable same_counters (with_pair depth body).
Proof.
  intros H [out [deep b]]. unfold with_pair.
  destruct (debug_make_pair b) as [[e [[r n]|]] b']; [|reflexivity].
  match goal with |- context [(pass ← body; @?k pass) ?s] =>
    assert (Hq : quiet (pass ← body; k pass)) by case_go; specialize (Hq s);
    destruct ((pass ← body; k pass) s) as [pass [o [c l]]] end.
  exact Hq.
Qed.

Lemma run_case_ran mask bit case (s : @case_state B) :
  quiet case -> 0 < bit -> 0 <= dr_cases_run s.1 < 100 -> 0 <= dr_cases_passed s.1 < 100 ->
  (Z.land mask bit = 0 /\ (run_case depth mask (bit, case) s).2 = s) \/
  exists s0 pass s1, Z.land mask bit <> 0 /\ recounted s s0 /\ on_own_pair case s0 pass s1 /\
    recounted s1 (run_case depth mask (bit, case) s).2 /\
    counted [(bit, pass)] s.1 (run_case depth mask (bit, case) s).2.1.
Proof.
  intros Hq Hb Hr Hp. unfold run_case. cbn [fst snd].
  destruct (Z.eqb_spec (Z.land mask bit) 0) as [E|E]; [by left|right].
  set (s0 := (s.1 <| dr_cases_run ::= fun n => u32 (n + 1) |>, s.2) : @case_state B).
  exists s0, (with_pair depth case s0).1, (with_pair depth case s0).2.
  pose proof (with_pair_quiet case Hq s0) as H. pose proof (with_pair_own case s0) as Hw.
  revert H Hw. rewrite !bind_eq. cbn [modify fst snd].
  change (s.1 <| dr_cases_run ::= fun n => u32 (n + 1) |>, s.2) with s0.
  destruct (with_pair depth case s0) as [pass [o x]]. intros H Hw.
  unfold same_counters, counters in H. cbn in H, Hw. injection H as H1 H2 H3.
  split; [done|]. split; [by split|]. split; [done|].
  unfold counted. cbn. destruct pass; cbn; (split; [by split|]);
    rewrite H1, H2, H3, ?Z.lor_0_r; (split; [words|]); (split; [words|]); [done|apply Z.lor_comm].
Qed.

Lemma counted_cons c os o o1 o2 :
  counted [c] o o1 -> counted os o1 o2 -> counted (c :: os) o o2.
Proof.
  unfold counted. destruct c as [bit [|]]; cbn; intros (H1 & H2 & H3) (-> & -> & ->);
    rewrite H1, H2, H3, ?Z.lor_0_r, ?Z.lor_assoc; repeat split; lia.
Qed.

Lemma run_cases_ran mask cases (s : @case_state B) :
  (forall bit case, In (bit, case) cases -> quiet case /\ 0 < bit) ->
  0 <= dr_cases_run s.1 -> 0 <= dr_cases_passed s.1 <= dr_cases_run s.1 ->
  dr_cases_run s.1 + Z.of_nat (length cases) < 100 ->
  exists os, cases_ran mask cases s os (for_each cases (run_case depth mask) s).2 /\
    counted os s.1 (for_each cases (run_case depth mask) s).2.1 /\
    Z.of_nat (length os) = selected mask cases /\ Forall (fun c => 0 < c.1) os.
Proof.
  revert s. induction cases as [|[bit case] cases IH]; intros s Hc Hr Hp Hn.
  { exists []. unfold counted. cbn. rewrite Z.lor_0_r. repeat split; [constructor|lia..|constructor]. }
  cbn [length] in Hn.
  destruct (Hc bit case) as [Hq Hb]; [by left|].
  cbn [for_each]. rewrite bind_eq. unfold selected. cbn [count_if fst].
  assert (Hc' : forall b' c', In (b', c') cases -> quiet c' /\ 0 < b') by (intros; apply Hc; by right).
  destruct (run_case_ran mask bit case s Hq Hb) as [[E Hs]|(s0 & pass & s1 & E & H0 & Hw & H1 & Hk)];
    [lia|lia| |].
  - rewrite Hs, E. destruct (IH s Hc') as (os & Hran & Hcnt & Hlen & Hpos); [lia..|].
    exists os. repeat split; [by constructor|apply Hcnt|apply Hcnt|apply Hcnt|exact Hlen|done].
  - destruct (IH (run_case depth mask (bit, case) s).2 Hc') as (os & Hran & Hcnt & Hlen & Hpos).
    1-3: unfold counted in Hk; destruct pass; cbn in Hk; lia.
    exists ((bit, pass) :: os). split; [by eapply ran_case|].
    split; [by eapply counted_cons|]. split; [|by constructor].
    unfold selected in Hlen. cbn [length]. destruct (Z.eqb_spec (Z.land mask bit) 0); [done|].
    cbn. lia.
Qed.

(** C24: whatever the board does, the self-test runs the cases that [case_mask] selects
    (all twelve when it is 0), each on a pair of its own; it counts the cases and those
    whose body said that it passed, collects the bits of the others, and passes when it
    selected a case and every one of them passed. *)
Theorem selftest_verdict_exact case_mask s :
  let '(o, x) := keemash_rel_debug_run_selftest depth case_mask s in
  let mask := if case_mask =? 0 then KEEMASH_REL_DEBUG_CASE_ALL else case_mask in
  exists outcomes o',
    cases_ran mask (selftest_cases depth) (debug_result_zero, s) outcomes (o', x) /\
    no_counters o = (no_counters o') <| dr_pass := dr_pass o |> <| dr_message := dr_message o |> /\
    Z.of_nat (length outcomes) = selected mask (selftest_cases depth) /\
    dr_cases_run o = Z.of_nat (length outcomes) /\
    dr_cases_passed o = Z.of_nat (count_if snd outcomes) /\
    dr_failed_mask o = failed_bits outcomes /\
    (dr_pass o = true <-> outcomes <> [] /\ Forall (fun c => c.2 = true) outcomes).
Proof.
  unfold keemash_rel_debug_run_selftest.
  set (mask := if case_mask =? 0 then _ else _).
  destruct (run_cases_ran mask (selftest_cases depth) (debug_result_zero, s))
    as (os & Hran & Hcnt & Hlen & Hpos); [| cbn; lia.. |].
  { intros bit case H. split; [by eapply cases_quiet|].
    repeat destruct H as [[= <- _]|H]; done. }
  match goal with |- context [for_each ?cs ?g ?x] =>
    change (cases_ran mask (selftest_cases depth) (debug_result_zero, s) os
              (for_each cs g x).2) in Hran;
    change (counted os debug_result_zero (for_each cs g x).2.1) in Hcnt;
    destruct (for_each cs g x) as [u [o b]] end.
  exists os, o. destruct Hcnt as (Hr & Hp & Hm). cbn in Hr, Hp, Hm.
  repeat (split; [done|]).
  change (dr_pass (selftest_verdict o)) with ((0 <? dr_cases_run o) && (dr_failed_mask o =? 0)).
  rewrite Hr, Hm, andb_true_iff, Z.ltb_lt, Z.eqb_eq, (failed_bits_0 os Hpos).
  destruct os; cbn [length]; split; intros [H1 H2]; try done; split; try done; lia.
Qed.
End Verdict.
