(* ===== verification/Facade.v ===== *)
(** * What the node and the root facade share

    Both facades keep one reliable context behind a lock, put their own static
    variables next to it, and lend the core three callbacks.  A callback runs while
    the context is being worked on and may call the facade again, so the context is
    the first component of every state: [entered] turns a facade routine into the
    body of a callback, [on_rel] a routine of the core into a step of the facade.

    The core's sending routines never deliver: they run in an environment whose
    delivery callback does nothing, and [send_never_delivers] states that no other
    callback would change them. *)

From S2P Require Import Prelude.
From S2P Require Import Words.
From S2P Require Import Esp.
From S2P Require Import Rtos.
From S2P Require Import MeshProto.
From S2P Require Import MeshProtoV2.
From S2P Require Import MeshWire.
From S2P Require Import RelState.
From S2P Require Import RelCore.
From S2P Require Import RelOps.
#[local] Open Scope Z_scope.

(** The Kconfig values of the reliable profile. *)
Class RelKconfig := {
  CONFIG_KEEMASH_REL_ROUTE_GRACE_MS : Z;
  CONFIG_KEEMASH_REL_STALE_PEER_MS : Z;
  CONFIG_KEEMASH_REL_INITIAL_RTO_MS : Z;
  CONFIG_KEEMASH_REL_MIN_RTO_MS : Z;
  CONFIG_KEEMASH_REL_MAX_RTO_MS : Z;
  CONFIG_KEEMASH_REL_FRAGMENT_TIMEOUT_MS : Z;
  CONFIG_KEEMASH_REL_MAX_RETRIES : Z;
  CONFIG_KEEMASH_REL_FAULT_DROP_DATA_EVERY : Z;
  CONFIG_KEEMASH_REL_FAULT_DROP_ACK_EVERY : Z;
  CONFIG_KEEMASH_REL_FAULT_DROP_NACK_EVERY : Z;
  CONFIG_KEEMASH_REL_FAULT_DUPLICATE_EVERY : Z;
  CONFIG_KEEMASH_REL_FAULT_DELAY_EVERY : Z;
  CONFIG_KEEMASH_REL_FAULT_DELAY_MS : Z;
  CONFIG_KEEMASH_REL_FAULT_REORDER_EVERY : Z;
  CONFIG_KEEMASH_REL_FAULT_OVERFLOW_EVERY : Z }.

(** The system below a facade; [heap_ok] is whether an allocation succeeds. *)
Class FacadeEnv (U : Type) := {
  #[global] fac_rtos :: Rtos U;
  #[global] fac_transport :: MeshTransport U;
  fac_timer_us : ST U Z;
  fac_random : ST U Z;
  heap_ok : ST U bool }.

(** The lock and the task are whether they exist; [f_own] are the facade's own
    static variables. *)
Record facade (X : Type) := { f_lock : bool; f_task : bool; f_own : X }.
Arguments f_lock {X} _.
Arguments f_task {X} _.
Arguments f_own {X} _.
Arguments Build_facade {X} _ _ _.

#[export] Instance eta_facade {X : Type} : Eta (facade X) := fun f =>
  Build_facade (f_lock f) (f_task f) (f_own f).

(** [s_rel], the rest of the file's variables, and the world. *)
Definition fstate (X U : Type) : Type := option keemash_rel_ctx_t * (facade X * U).
Abbreviation Fac X U := (ST (fstate X U)).

Section Steps.
Context {X U : Type}.

Definition get_own : Fac X U X := gets (fun '(_, (f, _)) => f_own f).
Definition mod_own (g : X -> X) : Fac X U unit :=
  modify (fun '(r, (f, u)) => (r, (f <| f_own ::= g |>, u))).
Definition mod_fac (g : facade X -> facade X) : Fac X U unit :=
  modify (fun '(r, (f, u)) => (r, (g f, u))).
Definition set_rel (c : option keemash_rel_ctx_t) : Fac X U unit :=
  modify (fun '(_, w) => (c, w)).
Definition has_rel : Fac X U bool := gets (fun '(r, _) => is_some r).
Definition has_lock : Fac X U bool := gets (fun '(_, (f, _)) => f_lock f).

(** A call of the system. *)
Definition os {A : Type} (m : ST U A) : Fac X U A := fun '(r, (f, u)) =>
  let '(a, u) := m u in (a, (r, (f, u))).

(** A call of the core on the context, [null] without one. *)
Definition on_rel {A : Type} (null : A) (m : Rel (facade X * U) A) : Fac X U A := fun '(r, w) =>
  match r with
  | None => (null, (r, w))
  | Some c => let '(a, (c, w)) := m (c, w) in (a, (Some c, w))
  end.

(** A call that makes the context. *)
Definition below {A : Type} (m : ST (facade X * U) A) : Fac X U A := fun '(r, w) =>
  let '(a, w) := m w in (a, (r, w)).

(** A facade routine as the body of a callback. *)
Definition entered {A : Type} (m : Fac X U A) : Rel (facade X * U) A := fun '(c, w) =>
  let '(a, (r, w)) := m (Some c, w) in (a, (default c r, w)).
End Steps.

Section Facade.
Context {X U : Type} {FE : FacadeEnv U}.

(** The environment of the core: the send callback of the file, and the callbacks for
    a delivery and for a lost message. *)
Definition rel_env (send : bytes -> bytes -> Fac X U esp_err_t)
  (deliver : bytes -> Z -> bytes -> Z -> Fac X U unit)
  (event : bytes -> Z -> Z -> Z -> Z -> Fac X U unit) : Env (facade X * U) :=
  {| esp_timer_get_time := fun '(f, u) => let '(t, u) := fac_timer_us u in (t, (f, u));
     esp_random := fun '(f, u) => let '(n, u) := fac_random u in (n, (f, u));
     cb_send := fun dst packet => entered (send dst packet);
     cb_deliver := fun peer ch payload stream => entered (deliver peer ch payload stream);
     cb_event := fun peer ch reason first last => entered (event peer ch reason first last) |}.

Definition no_delivery : bytes -> Z -> bytes -> Z -> Fac X U unit := fun _ _ _ _ => mret tt.

(** [(uint32_t)(esp_timer_get_time() / 1000000ULL)] *)
Definition uptime_s : Fac X U Z := t ← os fac_timer_us; mret (u32 (t / 1000000)).

Definition ms_now : Fac X U Z := os ticks_ms.

Definition local_mac : Fac X U bytes := os keemash_mesh_get_local_mac.

(** [s_rel && s_rel_lock] *)
Definition have_rel : Fac X U bool := r ← has_rel; l ← has_lock; mret (r && l).

(** [s_rel && s_rel_lock && xSemaphoreTakeRecursive(s_rel_lock, ms) == pdTRUE] *)
Definition rel_taken (ms : Z) : Fac X U bool :=
  ok ← have_rel; if (ok : bool) then os (mutex_take ms) else mret false.

(** [if (!s_rel || !s_rel_lock) return ...; if (take(ms) != pdTRUE) return ...; body] *)
Definition with_rel (ms : Z) (body : Fac X U esp_err_t) : Fac X U esp_err_t :=
  ok ← have_rel;
  if negb ok then mret ESP_ERR_INVALID_STATE
  else
    taken ← os (mutex_take ms);
    if negb taken then mret ESP_ERR_TIMEOUT else body.

(** ** Packets of the V2 layer *)

Definition rel_profile_config (k : RelKconfig) (root : bool) (mac : bytes)
  (max_peers tx_slots rx_slots reassembly per_peer_tx per_peer_rx per_peer_reassembly
   per_peer_reserve : nat) : keemash_rel_config_t :=
  {| c_root_role := root; c_local_mac := mac; c_max_peers := max_peers;
     c_tx_slots := tx_slots; c_rx_slots := rx_slots; c_reassembly_slots := reassembly;
     c_reserved_control_slots := 8; c_per_peer_tx_slots := per_peer_tx;
     c_per_peer_rx_slots := per_peer_rx; c_per_peer_reassembly_slots := per_peer_reassembly;
     c_per_peer_control_reserve := per_peer_reserve;
     c_route_grace_ms := CONFIG_KEEMASH_REL_ROUTE_GRACE_MS;
     c_stale_peer_ms := CONFIG_KEEMASH_REL_STALE_PEER_MS;
     c_initial_rto_ms := CONFIG_KEEMASH_REL_INITIAL_RTO_MS;
     c_min_rto_ms := CONFIG_KEEMASH_REL_MIN_RTO_MS;
     c_max_rto_ms := CONFIG_KEEMASH_REL_MAX_RTO_MS;
     c_fragment_timeout_ms := CONFIG_KEEMASH_REL_FRAGMENT_TIMEOUT_MS;
     c_max_retries := CONFIG_KEEMASH_REL_MAX_RETRIES;
     c_fault_drop_data_every := CONFIG_KEEMASH_REL_FAULT_DROP_DATA_EVERY;
     c_fault_drop_ack_every := CONFIG_KEEMASH_REL_FAULT_DROP_ACK_EVERY;
     c_fault_drop_nack_every := CONFIG_KEEMASH_REL_FAULT_DROP_NACK_EVERY;
     c_fault_duplicate_every := CONFIG_KEEMASH_REL_FAULT_DUPLICATE_EVERY;
     c_fault_delay_every := CONFIG_KEEMASH_REL_FAULT_DELAY_EVERY;
     c_fault_delay_ms := CONFIG_KEEMASH_REL_FAULT_DELAY_MS;
     c_fault_reorder_every := CONFIG_KEEMASH_REL_FAULT_REORDER_EVERY;
     c_fault_overflow_every := CONFIG_KEEMASH_REL_FAULT_OVERFLOW_EVERY;
     c_send := true; c_deliver := true; c_event := true |}.

(** The start of the reliable layer, common to both facades: the lock, the context,
    and the polling task (whose failure frees the context again). *)
Definition start_reliable (config : bytes -> keemash_rel_config_t) (E : Env (facade X * U))
  : Fac X U esp_err_t :=
  started ← has_rel;
  if (started : bool) then mret ESP_OK
  else
    lock ← has_lock;
    made ← (if (lock : bool) then mret true else os mutex_create);
    if negb made then mret ESP_ERR_NO_MEM
    else
      mod_fac (fun f => f <| f_lock := true |>);;
      mac ← local_mac;
      ctx_ok ← os heap_ok;
      arrays_ok ← os heap_ok;
      '(err, c) ← below (@keemash_rel_init _ E ctx_ok arrays_ok (config mac));
      if negb (err_eqb err ESP_OK) then mret err
      else
        set_rel c;;
        task ← gets (fun '(_, (f, _)) => f_task f);
        made ← (if (task : bool) then mret true else os task_create);
        if negb made then set_rel None;; mret ESP_ERR_NO_MEM
        else mod_fac (fun f => f <| f_task := true |>);; mret ESP_OK.
End Facade.

(** *** A header and its payload, the CRC last *)

Definition v2_hdr (type flags session_id seq ack_seq : Z) (src payload : bytes)
  : mesh_v2_hdr_t :=
  {| h_magic := MESH_PKT_MAGIC; h_version := MESH_PKT_VERSION_V2; h_type := type;
     h_flags := flags; h_session_id := session_id; h_seq := seq; h_ack_seq := ack_seq;
     h_payload_len := u16 (Z.of_nat (length payload)); h_src_mac := src; h_crc16 := 0 |}.

Definition seal_hdr (h : mesh_v2_hdr_t) (payload : bytes) : mesh_v2_hdr_t :=
  h <| h_crc16 := packet_crc h payload |>.

Definition seal (h : mesh_v2_hdr_t) (payload : bytes) : bytes :=
  encode_hdr (seal_hdr h payload) ++ payload.

Definition v2_packet_ok (h : mesh_v2_hdr_t) (payload : bytes) : Prop :=
  hdr_ok h /\ h_magic h = MESH_PKT_MAGIC /\ h_version h = MESH_PKT_VERSION_V2 /\
  h_payload_len h = Z.of_nat (length payload) /\
  Z.of_nat (length payload) <= MESH_V2_PAYLOAD_MAX.

Lemma seal_hdr_ok h payload : hdr_ok h -> hdr_ok (seal_hdr h payload).
Proof.
  unfold hdr_ok, seal_hdr. destruct h; cbn. intros (?&?&?&?&?&?&?&?&?&_).
  pose proof (packet_crc_is {| h_magic := h_magic; h_version := h_version; h_type := h_type;
    h_flags := h_flags; h_session_id := h_session_id; h_seq := h_seq; h_ack_seq := h_ack_seq;
    h_payload_len := h_payload_len; h_src_mac := h_src_mac; h_crc16 := h_crc16 |} payload).
  tauto.
Qed.

(** [validate_packet], the same in both files. *)
Definition validate_packet (packet : bytes) : option (mesh_v2_hdr_t * bytes) :=
  let len := Z.of_nat (length packet) in
  if len <? Z.of_nat sizeof_hdr then None
  else
    let h := decode_hdr packet in
    if negb (h_magic h =? MESH_PKT_MAGIC) || negb (h_version h =? MESH_PKT_VERSION_V2) then None
    else if (MESH_V2_PAYLOAD_MAX <? h_payload_len h)
            || negb (len =? Z.of_nat sizeof_hdr + h_payload_len h)
            || (MESH_V2_PACKET_MAX <? len) then None
    else
      let payload := drop sizeof_hdr packet in
      if negb (packet_crc h payload =? h_crc16 h) then None else Some (h, payload).

(** The facade's own validator is the core's. *)
Lemma validate_packet_valid packet : validate_packet packet = packet_valid packet.
Proof.
  unfold validate_packet, packet_valid. destruct (_ <? Z.of_nat sizeof_hdr); [done|].
  cbv zeta. set (h := decode_hdr packet). clearbody h.
  destruct (_ || negb (h_version h =? _)); [done|]. cbn [orb].
  destruct (MESH_V2_PAYLOAD_MAX <? h_payload_len h) eqn:El; [done|]. cbn [orb].
  destruct (_ =? Z.of_nat sizeof_hdr + _) eqn:Ee; [|done]. cbn [orb negb].
  apply Z.eqb_eq in Ee. apply Z.ltb_ge in El.
  replace (MESH_V2_PACKET_MAX <? _) with false; [done|].
  symmetry. apply Z.ltb_ge. rewrite Ee. unfold MESH_V2_PACKET_MAX, MESH_V2_PAYLOAD_MAX in *.
  change (Z.of_nat sizeof_hdr) with 26. lia.
Qed.

(** A sealed packet is accepted, header and payload unchanged. *)
Lemma packet_valid_seal h payload :
  v2_packet_ok h payload -> packet_valid (seal h payload) = Some (seal_hdr h payload, payload).
Proof.
  intros (Hok & Hm & Hv & Hp & Hl). pose proof (seal_hdr_ok h payload Hok) as Hs.
  unfold seal. assert (Hlen : length (encode_hdr (seal_hdr h payload)) = sizeof_hdr).
  { apply length_encode_hdr. by destruct Hs as (_&_&_&_&_&_&_&_&[? _]&_). }
  unfold packet_valid. rewrite decode_encode_hdr by done.
  rewrite drop_app_length' by done. rewrite length_app, Hlen.
  change (h_magic (seal_hdr h payload)) with (h_magic h).
  change (h_version (seal_hdr h payload)) with (h_version h).
  change (h_payload_len (seal_hdr h payload)) with (h_payload_len h).
  rewrite Hm, Hv, Hp, (proj2 (Z.ltb_ge _ _)) by lia.
  rewrite (proj2 (Z.ltb_ge MESH_V2_PAYLOAD_MAX _)) by lia.
  rewrite Nat2Z.inj_add.
  change (packet_crc (seal_hdr h payload) payload) with (packet_crc h payload).
  change (h_crc16 (seal_hdr h payload)) with (packet_crc h payload).
  by rewrite !Z.eqb_refl.
Qed.

(** *** Texts *)

(** [copy_tag] of the node: the default when there is no tag. *)
Definition node_text : bytes := [110; 111; 100; 101].
Definition copy_tag (dst_sz : nat) (tag : bytes) : bytes :=
  take (dst_sz - 1) (match tag with [] => node_text | _ => tag end).

(** [copy_packet_text]: the string of an array that may lack a terminator. *)
Definition copy_packet_text (dst_sz : nat) (src : bytes) : bytes := take (dst_sz - 1) (cstr src).

(** The environments of two facades differ in the delivery callback only: nothing a
    sending routine of the core does depends on it. *)
Lemma send_never_delivers {X U : Type} {FE : FacadeEnv U} send
  (d d' : bytes -> Z -> bytes -> Z -> Fac X U unit) event mac ch payload priority :
  @keemash_rel_send _ (rel_env send d event) mac ch payload priority
  = @keemash_rel_send _ (rel_env send d' event) mac ch payload priority.
Proof. reflexivity. Qed.
