(* ===== verification/FacadeInv.v ===== *)
(** * Frames and invariants of a facade

    [own T]: the facade's variables move along [T]; the context and the world are
    free.  [fac_wf]: the context, when there is one, is well-formed, and a context
    comes with its lock.  Steps of the system, calls of the core and callbacks keep
    both, so an operation of a facade is checked by walking through its text. *)

From S2P Require Import Prelude.
From S2P Require Import Words.
From S2P Require Import Esp.
From S2P Require Import Rtos.
From S2P Require Import MeshProto.
From S2P Require Import MeshWire.
From S2P Require Import RelState.
From S2P Require Import RelOps.
From S2P Require Import RelInv.
From S2P Require Import RelFrame.
From S2P Require Import Facade.
#[local] Open Scope Z_scope.

Definition own {X U : Type} (T : relation (facade X)) : relation (fstate X U) :=
  fun s s' => T s.2.1 s'.2.1.

#[export] Instance own_preorder {X U : Type} (T : relation (facade X)) `{!PreOrder T} :
  PreOrder (@own X U T).
Proof.
  split; [intros s; unfold own; reflexivity|].
  intros a b c. unfold own. intros H1 H2. by transitivity b.2.1.
Qed.

(** ** Symbolic execution *)

Section Run.
Context {X U : Type}.
Implicit Types (r : option keemash_rel_ctx_t) (f : facade X) (u : U).

Lemma run_os {A B} (m : ST U A) (k : A -> Fac X U B) r f u :
  (os m ≫= k) (r, (f, u)) = k (m u).1 (r, (f, (m u).2)).
Proof. rewrite bind_eq. unfold os. by destruct (m u). Qed.
Lemma run_own {B} (k : X -> Fac X U B) r f u :
  (get_own ≫= k) (r, (f, u)) = k (f_own f) (r, (f, u)).
Proof. done. Qed.
Lemma run_mod {B} g (k : unit -> Fac X U B) r f u :
  (mod_own g ≫= k) (r, (f, u)) = k tt (r, (f <| f_own ::= g |>, u)).
Proof. done. Qed.
Lemma run_ret {A B} (a : A) (k : A -> Fac X U B) s : (mret a ≫= k) s = k a s.
Proof. done. Qed.
Lemma os_run {A} (m : ST U A) r f u : os (X := X) m (r, (f, u)) = ((m u).1, (r, (f, (m u).2))).
Proof. unfold os. by destruct (m u). Qed.
End Run.

(** ** Frames *)

Section Own.
Context {X U : Type} (T : relation (facade X)) `{!PreOrder T}.

Lemma os_own {A} (m : ST U A) : stable (@own X U T) (os m).
Proof. intros [r [f u]]. unfold os, own. destruct (m u). cbn. reflexivity. Qed.
Lemma get_own_own : stable (@own X U T) get_own.
Proof. intros s. unfold own. cbn. reflexivity. Qed.
Lemma has_rel_own : stable (@own X U T) has_rel.
Proof. intros s. unfold own. cbn. reflexivity. Qed.
Lemma has_lock_own : stable (@own X U T) has_lock.
Proof. intros s. unfold own. cbn. reflexivity. Qed.
Lemma set_rel_own c : stable (@own X U T) (set_rel c).
Proof. intros [r [f u]]. unfold own. cbn. reflexivity. Qed.
Lemma mod_own_own g :
  (forall f : facade X, T f (f <| f_own ::= g |>)) -> stable (@own X U T) (mod_own g).
Proof. intros H [r [f u]]. unfold own. cbn. apply H. Qed.
Lemma mod_fac_own g : (forall f, T f (g f)) -> stable (@own X U T) (mod_fac g).
Proof. intros H [r [f u]]. unfold own. cbn. apply H. Qed.

Lemma on_rel_own {A} (null : A) (m : Rel (facade X * U) A) :
  stable (along (fun w w' => T w.1 w'.1)) m -> stable (own T) (on_rel null m).
Proof.
  intros H [[c|] [f u]]; unfold on_rel, own; cbn; [|reflexivity].
  specialize (H (c, (f, u))). unfold along in H. cbn in H.
  by destruct (m (c, (f, u))) as [a [c' [f' u']]].
Qed.

Lemma entered_own {A} (m : Fac X U A) :
  stable (own T) m -> stable (along (fun w w' => T w.1 w'.1)) (entered m).
Proof.
  intros H [c [f u]]. unfold entered, along. specialize (H (Some c, (f, u))).
  unfold own in H. cbn in H. by destruct (m (Some c, (f, u))) as [a [r [f' u']]].
Qed.

#[global] Instance rel_env_along {FE : FacadeEnv U} send deliver event
  (Hsend : forall dst packet, stable (own T) (send dst packet))
  (Hevent : forall mac ch reason first last, stable (own T) (event mac ch reason first last)) :
  @CbAlong (facade X * U) (rel_env send deliver event) (fun w w' => T w.1 w'.1).
Proof.
  split.
  - split; [intros w; reflexivity|]. intros a b c. cbn. intros H1 H2. by transitivity b.1.
  - intros [f u]. cbn. destruct (fac_timer_us u). cbn. reflexivity.
  - intros [f u]. cbn. destruct (fac_random u). cbn. reflexivity.
  - intros dst packet. apply entered_own, Hsend.
  - intros mac ch reason first last. apply entered_own, Hevent.
Qed.

Lemma rel_env_deliver {FE : FacadeEnv U} send deliver event
  (Hdeliver : forall mac ch payload stream, stable (own T) (deliver mac ch payload stream)) :
  @CbDeliverAlong (facade X * U) (rel_env send deliver event) (fun w w' => T w.1 w'.1).
Proof. split. intros mac ch payload stream. apply entered_own, Hdeliver. Qed.

(** Making a context draws two random numbers. *)
Lemma init_own {FE : FacadeEnv U} send deliver event a b config :
  stable (own T) (below (@keemash_rel_init _ (rel_env send deliver event) a b config)).
Proof.
  intros [r [f u]]. unfold below, keemash_rel_init, own.
  destruct (config_valid config); [|cbn; reflexivity]. destruct a; [|cbn; reflexivity].
  unfold mbind, ST_bind, mret, ST_ret, esp_random, rel_env. cbn [negb].
  destruct (fac_random u) as [i u1]. destruct (fac_random u1) as [j u2].
  destruct b; cbn; reflexivity.
Qed.
End Own.

(** ** The reliable context *)

Definition fac_wf {X U : Type} (s : fstate X U) : Prop :=
  match s.1 with Some c => ctx_wf c | None => True end.

Section Wf.
Context {X U : Type}.

(** The facade's variables and the world do not matter. *)
Lemma gets_wf {A} (f : fstate X U -> A) : stable (keeps (@fac_wf X U)) (gets f).
Proof. intros s H. exact H. Qed.
Lemma os_wf {A} (m : ST U A) : stable (keeps (@fac_wf X U)) (os m).
Proof. intros [r [f u]] H. unfold os. by destruct (m u). Qed.
Lemma mod_own_wf g : stable (keeps (@fac_wf X U)) (mod_own g).
Proof. intros [r [f u]] H. exact H. Qed.
Lemma mod_fac_wf g : stable (keeps (@fac_wf X U)) (mod_fac g).
Proof. intros [r [f u]] H. exact H. Qed.

Lemma on_rel_wf {A} (null : A) (m : Rel (facade X * U) A) :
  pres m -> stable (keeps fac_wf) (on_rel null m).
Proof.
  intros H [[c|] w] Hs; unfold on_rel; [|done].
  specialize (H (c, w) Hs). by destruct (m (c, w)) as [a [c' w']].
Qed.

Lemma entered_pres {A} (m : Fac X U A) :
  stable (keeps fac_wf) m -> pres (entered m).
Proof.
  intros H [c w] Hc. unfold entered. specialize (H (Some c, w) Hc).
  by destruct (m (Some c, w)) as [a [[c'|] w']].
Qed.

(** Callbacks that keep the invariant make an environment the core's invariant
    theorem applies to. *)
#[global] Instance rel_env_keeps {FE : FacadeEnv U} send deliver event
  (Hsend : forall dst packet, stable (keeps (@fac_wf X U)) (send dst packet))
  (Hdeliver : forall mac ch payload stream,
     stable (keeps (@fac_wf X U)) (deliver mac ch payload stream))
  (Hevent : forall mac ch reason first last,
     stable (keeps (@fac_wf X U)) (event mac ch reason first last)) :
  @CbKeeps (facade X * U) (rel_env send deliver event).
Proof. split; intros; by apply entered_pres. Qed.

Lemma start_wf {FE : FacadeEnv U} config (E : Env (facade X * U)) :
  stable (keeps (@fac_wf X U)) (start_reliable config E).
Proof.
  unfold start_reliable.
  refine (stable_bind _ _ _ _ _); [apply gets_wf|intros [|]]; [by refine (stable_ret _ _)|].
  refine (stable_bind _ _ _ _ _); [apply gets_wf|intros lock].
  refine (stable_bind _ _ _ _ _);
    [destruct lock; [refine (stable_ret _ _)|apply os_wf]|intros [|]];
    [|by refine (stable_ret _ _)].
  refine (stable_bind _ _ _ _ _); [apply mod_fac_wf|intros _].
  refine (stable_bind _ _ _ _ _); [apply os_wf|intros mac].
  refine (stable_bind _ _ _ _ _); [apply os_wf|intros ctx_ok].
  refine (stable_bind _ _ _ _ _); [apply os_wf|intros arrays_ok].
  intros [r w] Hs. rewrite bind_eq. unfold below.
  destruct (@keemash_rel_init _ E _ _ _ w) as [[err c] w'] eqn:Ei. cbn [fst snd].
  destruct (negb (err_eqb err ESP_OK)) eqn:Eo; [exact Hs|].
  bools. apply err_eqb_true in Eo as ->.
  assert (Hc : fac_wf (c, w')).
  { destruct c as [c|]; [|done]. unfold keemash_rel_init in Ei.
    destruct (config_valid _); [|done]. destruct ctx_ok; [|done].
    unfold mbind, ST_bind, mret, ST_ret in Ei. cbn [negb] in Ei.
    destruct (esp_random w) as [i w1]. destruct (esp_random w1) as [j w2].
    destruct arrays_ok; [|done]. cbn in Ei. injection Ei as <- _. apply ctx_init_wf. }
  revert Hc. unfold set_rel, mod_fac, modify, gets, os, mbind, ST_bind, mret, ST_ret.
  destruct w' as [f u]. destruct (f_task f); cbn; [done|].
  destruct (task_create u) as [[|] u']; done.
Qed.
End Wf.

#[export] Hint Extern 1 (stable (keeps fac_wf) (gets _)) => apply gets_wf : stable.
#[export] Hint Extern 1 (stable (keeps fac_wf) get_own) => apply gets_wf : stable.
#[export] Hint Extern 1 (stable (keeps fac_wf) has_rel) => apply gets_wf : stable.
#[export] Hint Extern 1 (stable (keeps fac_wf) has_lock) => apply gets_wf : stable.
#[export] Hint Extern 1 (stable (keeps fac_wf) (os _)) => apply os_wf : stable.
#[export] Hint Extern 1 (stable (keeps fac_wf) (mod_own _)) => apply mod_own_wf : stable.
#[export] Hint Extern 1 (stable (keeps fac_wf) (mod_fac _)) => apply mod_fac_wf : stable.
#[export] Hint Extern 1 (stable (own _) (below _)) => apply init_own; apply _ : stable.
#[export] Hint Extern 1 (stable (own _) (os _)) => apply os_own; apply _ : stable.
#[export] Hint Extern 1 (stable (own _) get_own) => apply get_own_own; apply _ : stable.
#[export] Hint Extern 1 (stable (own _) has_rel) => apply has_rel_own; apply _ : stable.
#[export] Hint Extern 1 (stable (own _) has_lock) => apply has_lock_own; apply _ : stable.
#[export] Hint Extern 1 (stable (own _) (set_rel _)) => apply set_rel_own; apply _ : stable.
