(* ===== verification/NodeState.v ===== *)
(** * The node facade: state (keemash_mesh_node.c)

    The static variables of the file and the functions on them that need nothing
    else: the replay rings of the compatibility tunnel, the command cache, and the
    CPU load of a task sample.  Pointers to MAC addresses and packets are never NULL
    here; strings are their characters. *)

From S2P Require Import Prelude.
From S2P Require Import Words.
From S2P Require Import MeshProto.
From S2P Require Import MeshProtoV2.
From S2P Require Import MeshWire.
#[local] Open Scope Z_scope.

Definition MESH_V2_ACK_STALE_MS : Z := 30000.
Definition MESH_V2_HELLO_RETRY_MS : Z := 5000.
Definition MESH_V2_HELLO_HEARTBEAT_MS : Z := 15000.
Definition MESH_V2_SESSION_RESYNC_THROTTLE_MS : Z := 1000.
Definition TASK_CPU_SAMPLE_PERIOD_MS : Z := 1000.
Definition COMMAND_CACHE_SIZE : nat := 32.
Definition COMMAND_RESULT_MAX : nat := 48.

(** The build's configuration. *)
Class NodeConfig := {
  CONFIG_KEEMASH_V2_COMPAT_TUNNEL_ENABLE : bool;
  CONFIG_KEEMASH_OTA_V3_ENABLE : bool;
  TASK_SLOT_COUNT : nat;
  TASK_CPU_CORE_COUNT : Z;
  CONFIG_KEEMASH_NODE_PSRAM_EXPECTED_BYTES : Z }.

(** ** Replay rings

    [rp_bytes] are the first [len] bytes of the slot's buffer. *)

Record replay_slot_t := { rp_used : bool; rp_seq : Z; rp_bytes : bytes }.

Definition replay_zero : replay_slot_t := {| rp_used := false; rp_seq := 0; rp_bytes := [] |}.

Definition ring_index (size seq : Z) : nat := Z.to_nat (seq mod size).

Definition ring_store (size seq : Z) (packet : bytes) (ring : list replay_slot_t)
  : list replay_slot_t :=
  <[ring_index size seq := {| rp_used := true; rp_seq := seq; rp_bytes := packet |}]> ring.

(** [ring_ack_locked]: everything up to [ack_seq] was received. *)
Definition ring_ack (ack_seq : Z) (ring : list replay_slot_t) : list replay_slot_t :=
  clear_if (fun s => rp_used s && (rp_seq s <=? ack_seq)) replay_zero ring.

Definition ring_copy (size seq : Z) (ring : list replay_slot_t) : option bytes :=
  let s := nth (ring_index size seq) ring replay_zero in
  if negb (rp_used s) || negb (rp_seq s =? seq) then None else Some (rp_bytes s).

Record tunnel_tx_channel_t := { tt_next_seq : Z; tt_ring : list replay_slot_t }.

#[export] Instance eta_tunnel_tx : Eta tunnel_tx_channel_t := fun t =>
  Build_tunnel_tx_channel_t (tt_next_seq t) (tt_ring t).

Record tunnel_rx_channel_t := {
  tr_expected_seq : Z; tr_highest_seen_seq : Z; tr_last_ack_seq : Z }.

#[export] Instance eta_tunnel_rx : Eta tunnel_rx_channel_t := fun t =>
  Build_tunnel_rx_channel_t (tr_expected_seq t) (tr_highest_seen_seq t) (tr_last_ack_seq t).

Definition TUNNEL_CHANNELS : nat := 10.

(** The channels of a new session. *)
Definition tunnel_tx_fresh : tunnel_tx_channel_t :=
  {| tt_next_seq := 1;
     tt_ring := replicate (Z.to_nat MESH_V2_TUNNEL_REPLAY_RING_SIZE) replay_zero |}.
Definition tunnel_rx_fresh : tunnel_rx_channel_t :=
  {| tr_expected_seq := 1; tr_highest_seen_seq := 0; tr_last_ack_seq := 0 |}.

(** The static variables before the first session. *)
Definition tunnel_tx_zero : tunnel_tx_channel_t := tunnel_tx_fresh <| tt_next_seq := 0 |>.
Definition tunnel_rx_zero : tunnel_rx_channel_t :=
  {| tr_expected_seq := 0; tr_highest_seen_seq := 0; tr_last_ack_seq := 0 |}.

(** ** Command cache: an identity of [None] is the absent one *)

Record command_cache_t := {
  cc_used : bool; cc_command_id : Z; cc_operation_id : option mesh_v2_operation_id_t;
  cc_status : Z; cc_result : bytes }.

Definition command_cache_zero : command_cache_t :=
  {| cc_used := false; cc_command_id := 0; cc_operation_id := None; cc_status := 0;
     cc_result := [] |}.

Definition operation_id_eq (a b : mesh_v2_operation_id_t) : bool :=
  (op_high a =? op_high b) && (op_low a =? op_low b).

(** The identity of a command: its operation, or its number when it has none. *)
Definition command_matches (command_id : Z) (operation_id : option mesh_v2_operation_id_t)
  (c : command_cache_t) : bool :=
  cc_used c &&
  match operation_id, cc_operation_id c with
  | Some op, Some op' => operation_id_eq op' op
  | None, None => cc_command_id c =? command_id
  | _, _ => false
  end.

Definition command_cache_find (command_id : Z) (operation_id : option mesh_v2_operation_id_t)
  (cache : list command_cache_t) : option command_cache_t :=
  i ← find_idx (command_matches command_id operation_id) cache; cache !! i.

(** The slot filled by [command_cache_store]: a result of 47 characters at most. *)
Definition command_slot (command_id : Z) (operation_id : option mesh_v2_operation_id_t)
  (status : Z) (result : bytes) : command_cache_t :=
  {| cc_used := true; cc_command_id := command_id; cc_operation_id := operation_id;
     cc_status := status; cc_result := copy_text COMMAND_RESULT_MAX result |}.

(** ** Diagnostics and tasks *)

Record mesh_v2_node_diag_t := {
  dg_boot_seq : Z; dg_last_recovery_action_ms : Z; dg_last_mesh_send_err : Z;
  dg_ack_stale_count : Z; dg_tx_without_ack_count : Z; dg_reset_reason : Z;
  dg_parent_disconnect_count : Z; dg_no_parent_count : Z; dg_rootless_count : Z;
  dg_soft_reconnect_count : Z; dg_mesh_restart_count : Z; dg_diag_flags : Z;
  dg_last_parent_disconnect_reason : Z; dg_last_recovery_reason : Z }.

#[export] Instance eta_diag : Eta mesh_v2_node_diag_t := fun d =>
  Build_mesh_v2_node_diag_t (dg_boot_seq d) (dg_last_recovery_action_ms d)
    (dg_last_mesh_send_err d) (dg_ack_stale_count d) (dg_tx_without_ack_count d)
    (dg_reset_reason d) (dg_parent_disconnect_count d) (dg_no_parent_count d)
    (dg_rootless_count d) (dg_soft_reconnect_count d) (dg_mesh_restart_count d)
    (dg_diag_flags d) (dg_last_parent_disconnect_reason d) (dg_last_recovery_reason d).

Definition diag_zero : mesh_v2_node_diag_t :=
  {| dg_boot_seq := 0; dg_last_recovery_action_ms := 0; dg_last_mesh_send_err := 0;
     dg_ack_stale_count := 0; dg_tx_without_ack_count := 0; dg_reset_reason := 0;
     dg_parent_disconnect_count := 0; dg_no_parent_count := 0; dg_rootless_count := 0;
     dg_soft_reconnect_count := 0; dg_mesh_restart_count := 0; dg_diag_flags := 0;
     dg_last_parent_disconnect_reason := 0; dg_last_recovery_reason := 0 |}.

(** What [uxTaskGetSystemState] tells of a task; [[]] is also a NULL name. *)
Record TaskStatus_t := {
  xTaskNumber : Z; ulRunTimeCounter : Z; pcTaskName : bytes; uxCurrentPriority : Z;
  usStackHighWaterMark : Z }.

Inductive keemash_mesh_root_health_t :=
  | KEEMASH_MESH_ROOT_DISCONNECTED
  | KEEMASH_MESH_ROOT_NEGOTIATING
  | KEEMASH_MESH_ROOT_HEALTHY
  | KEEMASH_MESH_ROOT_RECOVERING.

(** ** CPU load

    A run time is in microseconds modulo 2^32; a load is in tenths of a percent. *)

Record task_cpu_baseline_entry_t := { bl_task_number : Z; bl_run_time : Z }.

Definition baseline_task_index (baseline : list task_cpu_baseline_entry_t) (task_number : Z)
  : option nat := find_idx (fun e => bl_task_number e =? task_number) baseline.

Definition scaled_x10 (part capacity : Z) : Z :=
  let scaled := (part * 1000 + capacity / 2) / capacity in
  if 1000 <? scaled then 1000 else scaled.

(** The run time of a task since the baseline, if it was there. *)
Definition run_delta (baseline : list task_cpu_baseline_entry_t) (t : TaskStatus_t)
  : option Z :=
  i ← baseline_task_index baseline (xTaskNumber t);
  e ← baseline !! i;
  Some (u32 (ulRunTimeCounter t - bl_run_time e)).

Definition IDLE : bytes := [73; 68; 76; 69].
Definition is_idle_name (name : bytes) : bool :=
  bytes_eqb name (IDLE ++ [48]) || bytes_eqb name (IDLE ++ [49]) || bytes_eqb name IDLE.

Record cpu_sample_t := {
  cs_valid : bool; cs_tasks : list TaskStatus_t; cs_load_x10 : Z; cs_cpu_x10 : list Z }.

Definition no_sample : cpu_sample_t :=
  {| cs_valid := false; cs_tasks := []; cs_load_x10 := 0; cs_cpu_x10 := [] |}.

(** The arithmetic of [task_cpu_sample]; -1 is "unknown". *)
Definition cpu_sample (cores : Z) (valid : bool) (baseline : list task_cpu_baseline_entry_t)
  (baseline_total total_time : Z) (tasks : list TaskStatus_t) : cpu_sample_t :=
  let capacity := u32 (total_time - baseline_total) * cores in
  let cpu_valid := valid && negb (length tasks =? 0)%nat && negb (capacity =? 0) in
  let delta t := if cpu_valid then run_delta baseline t else None in
  let idle := fold_left (fun acc t =>
    match delta t with
    | Some d => if is_idle_name (pcTaskName t) then acc + d else acc
    | None => acc
    end) tasks 0 in
  {| cs_valid := cpu_valid; cs_tasks := tasks;
     cs_load_x10 := if cpu_valid
                    then scaled_x10 (capacity - Z.min idle capacity) capacity else 0;
     cs_cpu_x10 := (fun t => match delta t with
                             | Some d => scaled_x10 d capacity
                             | None => -1
                             end) <$> tasks |}.

Definition baseline_of (tasks : list TaskStatus_t) : list task_cpu_baseline_entry_t :=
  (fun t => {| bl_task_number := xTaskNumber t; bl_run_time := ulRunTimeCounter t |}) <$> tasks.

(** ** The static variables *)

Record node_t := {
  s_ring : list replay_slot_t; s_tunnel_tx : list tunnel_tx_channel_t;
  s_tunnel_rx : list tunnel_rx_channel_t; s_tag : bytes; s_session_id : Z; s_next_seq : Z;
  s_inited : bool; s_root_ready : bool; s_lossless_negotiated : bool; s_mesh_route_up : bool;
  s_last_ack_ms : Z; s_last_hello_ms : Z; s_parent_mac : bytes; s_root_origin_mac : bytes;
  s_topology_root_mac : bytes; s_relay_eligible : bool; s_layer : Z; s_max_layer : Z;
  s_parent_rssi : Z; s_child_count : Z; s_recovery_phase : Z; s_tunnel_gap_count : Z;
  s_tunnel_lost_count : Z; s_tunnel_replay_count : Z; s_diag : mesh_v2_node_diag_t;
  s_rel_last_hello_ms : Z; s_hello_retry_count : Z; s_task_cpu_lock : bool;
  s_task_cpu_last_sample_ms : Z; s_task_cpu_baseline : list task_cpu_baseline_entry_t;
  s_task_cpu_baseline_total : Z; s_task_cpu_baseline_valid : bool;
  s_command_cache : list command_cache_t; s_command_cache_next : Z;
  s_debug_dedupe_action_count : Z; s_app_capabilities : Z }.

#[export] Instance eta_node : Eta node_t := fun n =>
  Build_node_t (s_ring n) (s_tunnel_tx n) (s_tunnel_rx n) (s_tag n) (s_session_id n)
    (s_next_seq n) (s_inited n) (s_root_ready n) (s_lossless_negotiated n) (s_mesh_route_up n)
    (s_last_ack_ms n) (s_last_hello_ms n) (s_parent_mac n) (s_root_origin_mac n)
    (s_topology_root_mac n) (s_relay_eligible n) (s_layer n) (s_max_layer n)
    (s_parent_rssi n) (s_child_count n) (s_recovery_phase n) (s_tunnel_gap_count n)
    (s_tunnel_lost_count n) (s_tunnel_replay_count n) (s_diag n) (s_rel_last_hello_ms n)
    (s_hello_retry_count n) (s_task_cpu_lock n) (s_task_cpu_last_sample_ms n)
    (s_task_cpu_baseline n) (s_task_cpu_baseline_total n) (s_task_cpu_baseline_valid n)
    (s_command_cache n) (s_command_cache_next n) (s_debug_dedupe_action_count n)
    (s_app_capabilities n).

Definition node_zero : node_t :=
  {| s_ring := replicate (Z.to_nat MESH_V2_REPLAY_RING_SIZE) replay_zero;
     s_tunnel_tx := replicate TUNNEL_CHANNELS tunnel_tx_zero;
     s_tunnel_rx := replicate TUNNEL_CHANNELS tunnel_rx_zero;
     s_tag := [110; 111; 100; 101]; s_session_id := 0; s_next_seq := 1; s_inited := false;
     s_root_ready := false; s_lossless_negotiated := false; s_mesh_route_up := false;
     s_last_ack_ms := 0; s_last_hello_ms := 0; s_parent_mac := mac_zero_addr;
     s_root_origin_mac := mac_zero_addr; s_topology_root_mac := mac_zero_addr;
     s_relay_eligible := false; s_layer := 0; s_max_layer := 0; s_parent_rssi := -127;
     s_child_count := 0; s_recovery_phase := 0; s_tunnel_gap_count := 0;
     s_tunnel_lost_count := 0; s_tunnel_replay_count := 0; s_diag := diag_zero;
     s_rel_last_hello_ms := 0; s_hello_retry_count := 0; s_task_cpu_lock := false;
     s_task_cpu_last_sample_ms := 0; s_task_cpu_baseline := [];
     s_task_cpu_baseline_total := 0; s_task_cpu_baseline_valid := false;
     s_command_cache := replicate COMMAND_CACHE_SIZE command_cache_zero;
     s_command_cache_next := 0; s_debug_dedupe_action_count := 0; s_app_capabilities := 0 |}.

Definition tunnel_tx_at (n : node_t) (channel : Z) : tunnel_tx_channel_t :=
  nth (Z.to_nat channel) (s_tunnel_tx n) tunnel_tx_zero.
Definition tunnel_rx_at (n : node_t) (channel : Z) : tunnel_rx_channel_t :=
  nth (Z.to_nat channel) (s_tunnel_rx n) tunnel_rx_zero.

Definition tunnel_channel_ok (channel : Z) : bool :=
  negb (channel =? 0) && (channel <=? MESH_V2_TUNNEL_CHANNEL_MAX).

(** [tunnel_ring_store_locked], [tunnel_ring_ack_locked], [tunnel_ring_copy_locked] *)
Definition tunnel_ring_store (channel seq : Z) (packet : bytes) (n : node_t) : node_t :=
  if negb (tunnel_channel_ok channel) then n
  else n <| s_tunnel_tx ::= alter (fun t =>
         t <| tt_ring ::= ring_store MESH_V2_TUNNEL_REPLAY_RING_SIZE seq packet |>)
         (Z.to_nat channel) |>.

Definition tunnel_ring_ack (channel ack_seq : Z) (n : node_t) : node_t :=
  if negb (tunnel_channel_ok channel) then n
  else n <| s_tunnel_tx ::= alter (fun t => t <| tt_ring ::= ring_ack ack_seq |>)
         (Z.to_nat channel) |>.

Definition tunnel_ring_copy (channel seq : Z) (n : node_t) : option bytes :=
  if negb (tunnel_channel_ok channel) then None
  else ring_copy MESH_V2_TUNNEL_REPLAY_RING_SIZE seq (tt_ring (tunnel_tx_at n channel)).

(** [new_session_locked], with the random number it drew. *)
Definition new_session (random : Z) (n : node_t) : node_t :=
  n <| s_session_id := if random =? 0 then 1 else random |> <| s_next_seq := 1 |>
    <| s_ring := replicate (Z.to_nat MESH_V2_REPLAY_RING_SIZE) replay_zero |>
    <| s_tunnel_tx := replicate TUNNEL_CHANNELS tunnel_tx_fresh |>
    <| s_tunnel_rx := replicate TUNNEL_CHANNELS tunnel_rx_fresh |>
    <| s_tunnel_gap_count := 0 |> <| s_tunnel_lost_count := 0 |>
    <| s_tunnel_replay_count := 0 |> <| s_root_ready := false |> <| s_last_ack_ms := 0 |>.

Definition command_cache_store (command_id : Z)
  (operation_id : option mesh_v2_operation_id_t) (status : Z) (result : bytes) (n : node_t)
  : node_t :=
  n <| s_command_cache ::=
         <[(Z.to_nat (s_command_cache_next n) mod COMMAND_CACHE_SIZE)%nat :=
             command_slot command_id operation_id status result]> |>
    <| s_command_cache_next := u8 (s_command_cache_next n + 1) |>.

Definition command_cache_clear (n : node_t) : node_t :=
  n <| s_command_cache := replicate COMMAND_CACHE_SIZE command_cache_zero |>
    <| s_command_cache_next := 0 |>.

Definition node_capabilities `{NodeConfig} (n : node_t) : Z :=
  let caps := fold_left Z.lor
    [MESH_V2_CAP_TYPED_CONTROL; MESH_V2_CAP_TYPED_MEMORY; MESH_V2_CAP_OTA;
     MESH_V2_CAP_TYPED_TIME; MESH_V2_CAP_ACTIVE_PING; MESH_V2_CAP_OPERATION_ID;
     s_app_capabilities n] MESH_V2_CAP_TOPOLOGY in
  let caps := if CONFIG_KEEMASH_V2_COMPAT_TUNNEL_ENABLE
              then Z.lor caps MESH_V2_CAP_TUNNEL else caps in
  if s_relay_eligible n then Z.lor caps MESH_V2_CAP_MESH_RELAY_ELIGIBLE else caps.

(** ** The receiving side of a tunnel channel

    What a packet with sequence number [seq] does: deliver it or not, and answer with
    an acknowledgement or a report of the missing number. *)

Inductive tunnel_answer :=
  | TunnelAck (ack_seq : Z)
  | TunnelNack (missing_seq : Z).

Record tunnel_verdict := { tv_deliver : bool; tv_answer : tunnel_answer; tv_gap : bool }.

Definition tunnel_receive (seq : Z) (rx : tunnel_rx_channel_t)
  : tunnel_verdict * tunnel_rx_channel_t :=
  let rx := if tr_highest_seen_seq rx <? seq then rx <| tr_highest_seen_seq := seq |> else rx in
  let expected := tr_expected_seq rx in
  if seq =? expected then
    let rx := rx <| tr_expected_seq := u32 (expected + 1) |> <| tr_last_ack_seq := seq |> in
    if tr_expected_seq rx <=? tr_highest_seen_seq rx
    then ({| tv_deliver := true; tv_answer := TunnelNack (tr_expected_seq rx); tv_gap := true |},
          rx)
    else ({| tv_deliver := true; tv_answer := TunnelAck seq; tv_gap := false |}, rx)
  else if seq <? expected then
    ({| tv_deliver := false; tv_answer := TunnelAck (u32 (expected - 1)); tv_gap := false |}, rx)
  else
    ({| tv_deliver := false; tv_answer := TunnelNack expected; tv_gap := true |}, rx).
