(* ===== verification/TicketQueue.v ===== *)
(** * Slot queues served by ticket

    The TX broker and the event outbox keep their packets in an array of slots
    that a worker task serves one at a time: it scans the array for the best
    waiting slot, marks it as being sent, and releases it after the send.  What
    the two queues share (the scan, the order in which a queue is emptied) is
    stated here once, against the interface [Ticketed]. *)

From S2P Require Import Prelude.
From Stdlib Require Import Sorted Permutation.
#[local] Open Scope Z_scope.

Class Ticketed (A : Type) := {
  q_used : A -> bool;
  q_sending : A -> bool;
  q_before : A -> A -> bool;    (* the scan prefers the first to the second *)
  q_mark : A -> A;              (* slot->sending = true *)
  q_release : A -> A            (* the slot after a completed send *) }.

Class TicketedLaws (A : Type) `{Ticketed A} := {
  mark_used a : q_used (q_mark a) = q_used a;
  mark_sending a : q_sending (q_mark a) = true;
  release_free a : q_used (q_release a) = false }.

Lemma StronglySorted_impl {A} (R R' : A -> A -> Prop) l :
  (forall x y, R x y -> R' x y) -> StronglySorted R l -> StronglySorted R' l.
Proof.
  intros HR. induction 1 as [|x l Hl IH Hx]; constructor; [done|].
  eapply List.Forall_impl; [|done]. auto.
Qed.

Section Queue.
Context {A : Type} `{Ticketed A}.

Definition waiting (x : A) : bool := q_used x && negb (q_sending x).

(** The scan, with the best candidate so far. *)
Fixpoint best_from (i : nat) (best : option (nat * A)) (l : list A) : option (nat * A) :=
  match l with
  | [] => best
  | x :: l =>
      best_from (S i)
        (if waiting x then
           match best with
           | None => Some (i, x)
           | Some (_, b) => if q_before x b then Some (i, x) else best
           end
         else best) l
  end.

(** The scan and [best->sending = true]. *)
Definition pick_next (slots : list A) : option nat * list A :=
  match best_from 0 None slots with
  | None => (None, slots)
  | Some (i, _) => (Some i, alter q_mark i slots)
  end.

Definition waiting_of (slots : list A) : list A := List.filter waiting slots.

(** Emptying a queue that nobody refills: the slots in the order served. *)
Fixpoint serve (fuel : nat) (slots : list A) : list A * list A :=
  match fuel with
  | O => ([], slots)
  | S fuel =>
      match best_from 0 None slots with
      | None => ([], slots)
      | Some (i, x) =>
          let '(served, rest) := serve fuel (<[i := q_release (q_mark x)]> slots) in
          (q_mark x :: served, rest)
      end
  end.

(** ** The scan *)

Definition ranked (rank : A -> Z) (l : list A) : Prop :=
  forall x y, x ∈ l -> y ∈ l -> waiting x = true -> waiting y = true ->
  q_before x y = (rank x <? rank y).

Lemma best_from_spec rank l :
  ranked rank l ->
  forall pre post best, l = pre ++ post ->
  match best with
  | None => forall y, y ∈ pre -> waiting y = false
  | Some (i, b) => l !! i = Some b /\ waiting b = true /\
      forall y, y ∈ pre -> waiting y = true -> rank b <= rank y
  end ->
  match best_from (length pre) best post with
  | None => forall y, y ∈ l -> waiting y = false
  | Some (i, b) => l !! i = Some b /\ waiting b = true /\
      forall y, y ∈ l -> waiting y = true -> rank b <= rank y
  end.
Proof.
  intros Hr pre post. revert pre. induction post as [|x post IH]; intros pre best Hl Hb.
  { rewrite app_nil_r in Hl. subst pre. exact Hb. }
  cbn [best_from]. specialize (IH (pre ++ [x])).
  assert (Hl' : l = (pre ++ [x]) ++ post) by by rewrite <- app_assoc.
  replace (S (length pre)) with (length (pre ++ [x])) by (rewrite length_app; cbn; lia).
  assert (Hx : l !! length pre = Some x).
  { rewrite Hl, lookup_app_r, Nat.sub_diag by lia. done. }
  assert (Hin : x ∈ l) by by eapply list_elem_of_lookup_2.
  apply IH; [done|]. clear IH.
  destruct (waiting x) eqn:Hw.
  - destruct best as [[i b]|].
    + destruct Hb as (Hi & Hwb & Hmin).
      rewrite (Hr x b Hin ltac:(by eapply list_elem_of_lookup_2) Hw Hwb).
      destruct (rank x <? rank b) eqn:E; bools.
      * split; [done|]. split; [done|]. intros y [Hy|Hy%list_elem_of_singleton]%elem_of_app Hwy.
        -- specialize (Hmin y Hy Hwy). lia.
        -- subst. lia.
      * split; [done|]. split; [done|].
        intros y [Hy|Hy%list_elem_of_singleton]%elem_of_app Hwy; [by apply Hmin|by subst].
    + split; [done|]. split; [done|].
      intros y [Hy|Hy%list_elem_of_singleton]%elem_of_app Hwy; [|subst; lia].
      by rewrite (Hb y Hy) in Hwy.
  - destruct best as [[i b]|].
    + destruct Hb as (Hi & Hwb & Hmin). split; [done|]. split; [done|].
      intros y [Hy|Hy%list_elem_of_singleton]%elem_of_app Hwy; [by apply Hmin|congruence].
    + intros y [Hy|Hy%list_elem_of_singleton]%elem_of_app; [by apply Hb|by subst].
Qed.

(** What the scan finds whatever the comparison does. *)
Lemma best_from_waiting l :
  forall pre post best, l = pre ++ post ->
  match best with
  | None => forall y, y ∈ pre -> waiting y = false
  | Some (i, b) => l !! i = Some b /\ waiting b = true
  end ->
  match best_from (length pre) best post with
  | None => forall y, y ∈ l -> waiting y = false
  | Some (i, b) => l !! i = Some b /\ waiting b = true
  end.
Proof.
  intros pre post. revert pre. induction post as [|x post IH]; intros pre best Hl Hb.
  { rewrite app_nil_r in Hl. subst pre. exact Hb. }
  cbn [best_from]. specialize (IH (pre ++ [x])).
  replace (S (length pre)) with (length (pre ++ [x])) by (rewrite length_app; cbn; lia).
  apply IH; [by rewrite <- app_assoc|]. clear IH.
  assert (Hx : l !! length pre = Some x).
  { rewrite Hl, lookup_app_r, Nat.sub_diag by lia. done. }
  destruct (waiting x) eqn:Hw, best as [[i b]|]; [by destruct (q_before x b)|done|done|].
  intros y [Hy|Hy%list_elem_of_singleton]%elem_of_app; [by apply Hb|by subst].
Qed.

Lemma best_Some l i x : best_from 0 None l = Some (i, x) -> l !! i = Some x /\ waiting x = true.
Proof.
  intros E. pose proof (best_from_waiting l [] l None eq_refl) as H1. cbn in H1.
  rewrite E in H1. apply H1. intros y Hy. by apply elem_of_nil in Hy.
Qed.

Lemma best_None l : best_from 0 None l = None -> forall y, y ∈ l -> waiting y = false.
Proof.
  intros E. pose proof (best_from_waiting l [] l None eq_refl) as H1. cbn in H1.
  rewrite E in H1. apply H1. intros y Hy. by apply elem_of_nil in Hy.
Qed.

Lemma best_min rank l i x :
  ranked rank l -> best_from 0 None l = Some (i, x) ->
  forall y, y ∈ l -> waiting y = true -> rank x <= rank y.
Proof.
  intros Hr E. pose proof (best_from_spec rank l Hr [] l None eq_refl) as H1. cbn in H1.
  rewrite E in H1. apply H1. intros y Hy. by apply elem_of_nil in Hy.
Qed.

(** ** Emptying the queue *)

Lemma waiting_of_In l x : x ∈ waiting_of l <-> x ∈ l /\ waiting x = true.
Proof.
  unfold waiting_of. rewrite !list_elem_of_In. apply filter_In.
Qed.

Lemma waiting_of_insert (l : list A) (i : nat) x y :
  l !! i = Some x -> waiting x = true -> waiting y = false ->
  waiting_of l ≡ₚ x :: waiting_of (<[i := y]> l).
Proof.
  unfold waiting_of. revert i. induction l as [|z l IH]; intros [|i] Hi Hx Hy; simplify_eq/=.
  - by rewrite Hx, Hy.
  - destruct (waiting z); [|by apply IH].
    rewrite (IH i Hi Hx Hy). apply perm_swap.
Qed.

Lemma waiting_insert_In (l : list A) (i : nat) x y :
  waiting y = false -> x ∈ <[i := y]> l -> waiting x = true -> x ∈ l.
Proof.
  intros Hy Hx Hw. apply list_elem_of_lookup in Hx as [j Hj].
  apply list_lookup_insert_Some in Hj as [(-> & <- & _)|[_ Hj]]; [congruence|].
  by eapply list_elem_of_lookup_2.
Qed.

Lemma ranked_insert rank (l : list A) (i : nat) y :
  waiting y = false -> ranked rank l -> ranked rank (<[i := y]> l).
Proof.
  intros Hy Hr a b Ha Hb Hwa Hwb.
  apply Hr; try done; by eapply waiting_insert_In.
Qed.

Context `{!TicketedLaws A}.

Lemma release_idle a : waiting (q_release a) = false.
Proof. unfold waiting. by rewrite release_free. Qed.

Lemma serve_perm fuel l :
  (length (waiting_of l) <= fuel)%nat ->
  (serve fuel l).1 ≡ₚ q_mark <$> waiting_of l /\
  (forall y, y ∈ (serve fuel l).2 -> waiting y = false) /\
  length (serve fuel l).2 = length l.
Proof.
  revert l. induction fuel as [|fuel IH]; intros l Hf; cbn [serve].
  { assert (Hn : waiting_of l = []) by (apply length_zero_iff_nil; lia).
    rewrite Hn. split; [done|]. split; [|done]. intros y Hy.
    destruct (waiting y) eqn:E; [|done].
    assert (y ∈ waiting_of l) as Hin by by apply waiting_of_In.
    rewrite Hn in Hin. by apply elem_of_nil in Hin. }
  destruct (best_from 0 None l) as [[i x]|] eqn:E.
  - pose proof (best_Some _ _ _ E) as [Hi Hx].
    set (l' := <[i := q_release (q_mark x)]> l).
    assert (Hp : waiting_of l ≡ₚ x :: waiting_of l').
    { apply waiting_of_insert; [done|done|apply release_idle]. }
    destruct (IH l') as (IH1 & IH2 & IH3).
    { apply Permutation_length in Hp. cbn in Hp. lia. }
    destruct (serve fuel l') as [served rest]. cbn [fst snd] in *.
    rewrite Hp. cbn [fmap list_fmap]. unfold l' in IH3. rewrite length_insert in IH3.
    by rewrite IH1.
  - cbn [fst snd]. split; [|split; [by apply best_None|done]].
    assert (Hn : waiting_of l = []); [|by rewrite Hn].
    destruct (waiting_of l) as [|y k] eqn:Ek; [done|].
    assert (Hy : y ∈ waiting_of l) by (rewrite Ek; left).
    apply waiting_of_In in Hy as [Hy Hw]. by rewrite (best_None _ E y Hy) in Hw.
Qed.

Lemma serve_rest fuel (l : list A) y :
  y ∈ (serve fuel l).2 -> y ∈ l \/ q_used y = false.
Proof.
  revert l. induction fuel as [|fuel IH]; intros l; cbn [serve]; [by left|].
  destruct (best_from 0 None l) as [[i x]|]; [|by left].
  specialize (IH (<[i := q_release (q_mark x)]> l)).
  destruct (serve fuel (<[i := q_release (q_mark x)]> l)) as [served rest]. cbn [snd] in *.
  intros Hy. destruct (IH Hy) as [Hin|Hu]; [|by right].
  apply list_elem_of_lookup in Hin as [j Hj].
  apply list_lookup_insert_Some in Hj as [(_ & <- & _)|[_ Hj]].
  - right. apply release_free.
  - left. by eapply list_elem_of_lookup_2.
Qed.

(** The queue is emptied in the order of [rank]. *)
Lemma serve_sorted rank fuel l :
  (forall a, rank (q_mark a) = rank a) -> ranked rank l ->
  StronglySorted (fun x y => rank x <= rank y) (serve fuel l).1 /\
  (forall z, z ∈ (serve fuel l).1 -> exists x, x ∈ l /\ waiting x = true /\ z = q_mark x).
Proof.
  intros Hm. revert l. induction fuel as [|fuel IH]; intros l Hr; cbn [serve].
  { split; [constructor|]. intros z Hz. by apply elem_of_nil in Hz. }
  destruct (best_from 0 None l) as [[i x]|] eqn:E; cbn [fst].
  2: { split; [constructor|]. intros z Hz. by apply elem_of_nil in Hz. }
  pose proof (best_Some _ _ _ E) as [Hi Hx].
  pose proof (release_idle (q_mark x)) as Hrel.
  destruct (IH (<[i := q_release (q_mark x)]> l)) as [IH1 IH2];
    [by apply ranked_insert|].
  destruct (serve fuel (<[i := q_release (q_mark x)]> l)) as [served rest]. cbn [fst] in *.
  assert (Hfrom : forall z, z ∈ served -> exists y, y ∈ l /\ waiting y = true /\ z = q_mark y).
  { intros z Hz. destruct (IH2 z Hz) as (y & Hy & Hw & ->). exists y.
    split; [|done]. by eapply waiting_insert_In. }
  split.
  - constructor; [done|]. apply Forall_forall. intros z Hz%list_elem_of_In.
    destruct (Hfrom z Hz) as (y & Hy & Hw & ->). rewrite !Hm.
    by eapply best_min.
  - intros z Hz. apply elem_of_cons in Hz as [->|Hz]; [|auto].
    exists x. split; [by eapply list_elem_of_lookup_2|done].
Qed.
End Queue.
