(* ===== verification/TxBroker.v ===== *)
(** * The TX broker (keemash_mesh_tx_broker.c)

    Any task submits packets; one worker task sends them, the highest priority
    first and in order of submission within a priority.  Each access to the
    shared state is a critical section of the broker's mutex, so one operation
    (or one of the two halves of the worker's round) is one function of the
    state; [lock] says whether [xSemaphoreTake] obtained the mutex in time.
    The transport [raw_send] is a parameter: it runs outside the mutex. *)

From S2P Require Import Prelude.
From S2P Require Import Words.
From S2P Require Import Esp.
From S2P Require Import MeshProto.
From S2P Require Import MeshWire.
From S2P Require Import RelState.
From S2P Require Import TicketQueue.
From Stdlib Require Import Sorted Permutation.
#[local] Open Scope Z_scope.

Record broker_slot_t := {
  b_used : bool; b_sending : bool; b_priority : Z; b_dst : bytes; b_ticket : Z;
  b_bytes : bytes }.

#[export] Instance eta_broker_slot : Eta broker_slot_t := fun t =>
  Build_broker_slot_t (b_used t) (b_sending t) (b_priority t) (b_dst t) (b_ticket t)
    (b_bytes t).

Definition slot_zero : broker_slot_t :=
  {| b_used := false; b_sending := false; b_priority := 0; b_dst := mac_zero_addr;
     b_ticket := 0; b_bytes := [] |}.

Record tx_broker_config_t := {
  bc_slots : nat; bc_control_reserved_slots : nat; bc_max_packet_size : nat;
  bc_raw_send : bool }.

Record tx_broker_stats_t := {
  bs_accepted : Z; bs_completed : Z; bs_rejected_full : Z; bs_rejected_reserved : Z;
  bs_rejected_size : Z; bs_transport_errors : Z; bs_pending : Z; bs_high_watermark : Z;
  bs_accepted_by_priority : list Z; bs_rejected_by_priority : list Z;
  bs_last_transport_err : esp_err_t }.

#[export] Instance eta_broker_stats : Eta tx_broker_stats_t := fun s =>
  Build_tx_broker_stats_t (bs_accepted s) (bs_completed s) (bs_rejected_full s)
    (bs_rejected_reserved s) (bs_rejected_size s) (bs_transport_errors s) (bs_pending s)
    (bs_high_watermark s) (bs_accepted_by_priority s) (bs_rejected_by_priority s)
    (bs_last_transport_err s).

Definition stats_zero : tx_broker_stats_t :=
  {| bs_accepted := 0; bs_completed := 0; bs_rejected_full := 0; bs_rejected_reserved := 0;
     bs_rejected_size := 0; bs_transport_errors := 0; bs_pending := 0;
     bs_high_watermark := 0; bs_accepted_by_priority := [0; 0; 0; 0];
     bs_rejected_by_priority := [0; 0; 0; 0]; bs_last_transport_err := ESP_OK |}.

Record keemash_mesh_tx_broker := {
  b_cfg : tx_broker_config_t; b_task : bool; b_slots : list broker_slot_t;
  b_next_ticket : Z; b_stopping : bool; b_stats : tx_broker_stats_t }.

#[export] Instance eta_broker : Eta keemash_mesh_tx_broker := fun b =>
  Build_keemash_mesh_tx_broker (b_cfg b) (b_task b) (b_slots b) (b_next_ticket b)
    (b_stopping b) (b_stats b).

Definition stats_priority_index (priority : Z) : nat :=
  if KEEMASH_REL_PRIORITY_CONTROL <=? priority then 3
  else if KEEMASH_REL_PRIORITY_HIGH <=? priority then 2
  else if KEEMASH_REL_PRIORITY_NORMAL <=? priority then 1 else 0.

(** ** The worker's choice *)

Definition broker_before (x best : broker_slot_t) : bool :=
  (b_priority best <? b_priority x)
  || (b_priority x =? b_priority best) && (i32 (u32 (b_ticket x - b_ticket best)) <? 0).

#[export] Instance broker_ticketed : Ticketed broker_slot_t := {|
  q_used := b_used; q_sending := b_sending; q_before := broker_before;
  q_mark := fun t => t <| b_sending := true |>;
  q_release := fun _ => slot_zero |}.

#[export] Instance broker_ticketed_laws : TicketedLaws broker_slot_t.
Proof. by split. Qed.

Definition pick_next_locked : ST keemash_mesh_tx_broker (option nat) := fun b =>
  let '(i, slots) := pick_next (b_slots b) in (i, b <| b_slots := slots |>).

(** ** The worker *)

Inductive worker_next := Exit | Wait | Served (i : nat).

(** The critical section before the send. *)
Definition broker_pick : ST keemash_mesh_tx_broker worker_next := fun b =>
  if b_stopping b then (Exit, b <| b_task := false |>)
  else let '(i, b) := pick_next_locked b in
       (match i with None => Wait | Some i => Served i end, b).

(** The critical section after it. *)
Definition broker_done (i : nat) (err : esp_err_t) (b : keemash_mesh_tx_broker)
  : keemash_mesh_tx_broker :=
  let b := b <| b_stats ::= fun s =>
    let s := s <| bs_completed ::= fun n => u32 (n + 1) |>
               <| bs_pending ::= fun n => u32 (n - 1) |>
               <| bs_last_transport_err := err |> in
    if err_eqb err ESP_OK then s
    else s <| bs_transport_errors ::= fun n => u32 (n + 1) |> |> in
  b <| b_slots ::= alter q_release i |>.

Definition slot_at (b : keemash_mesh_tx_broker) (i : nat) : broker_slot_t :=
  nth i (b_slots b) slot_zero.

Class Transport (W : Type) := raw_send : bytes -> bytes -> ST W esp_err_t.

Section Worker.
Context {W : Type} `{!Transport W}.

(** One round of the inner loop of [broker_task], undisturbed. *)
Definition broker_round : ST (keemash_mesh_tx_broker * W) worker_next := fun s =>
  let '(next, b) := broker_pick s.1 in
  match next with
  | Served i =>
      let '(err, w) := raw_send (b_dst (slot_at b i)) (b_bytes (slot_at b i)) s.2 in
      (next, (broker_done i err b, w))
  | _ => (next, (b, s.2))
  end.

(** The inner loop, until it waits for a notification or exits. *)
Fixpoint broker_loop (fuel : nat) : ST (keemash_mesh_tx_broker * W) worker_next :=
  match fuel with
  | O => mret (Served 0)
  | S fuel =>
      next ← broker_round;
      match next with Served _ => broker_loop fuel | _ => mret next end
  end.
End Worker.

(** ** Operations *)

Definition broker_config_valid (config : tx_broker_config_t) : bool :=
  bc_raw_send config && negb (bc_slots config =? 0)%nat
  && negb (bc_max_packet_size config =? 0)%nat
  && (bc_control_reserved_slots config <? bc_slots config)%nat.

(** [allocated]: the mutex, the slots and the storage were obtained; [started]:
    the worker task was created. *)
Definition keemash_mesh_tx_broker_init (config : tx_broker_config_t)
  (allocated started : bool) : esp_err_t * option keemash_mesh_tx_broker :=
  if negb (broker_config_valid config) then (ESP_ERR_INVALID_ARG, None)
  else if negb (allocated && started) then (ESP_ERR_NO_MEM, None)
  else (ESP_OK, Some {| b_cfg := config; b_task := true;
                        b_slots := replicate (bc_slots config) slot_zero;
                        b_next_ticket := 0; b_stopping := false; b_stats := stats_zero |}).

(** [exited]: the worker ended within the second that [deinit] waits.  [None]
    when the broker was freed. *)
Definition keemash_mesh_tx_broker_deinit (lock exited : bool) (b : keemash_mesh_tx_broker)
  : option keemash_mesh_tx_broker :=
  let b := if lock then b <| b_stopping := true |> else b in
  let b := if b_stopping b && exited then b <| b_task := false |> else b in
  if b_task b then Some b else None.

Definition reject (priority : Z) (b : keemash_mesh_tx_broker) : keemash_mesh_tx_broker :=
  b <| b_stats ::= fun s => s <| bs_rejected_by_priority ::=
         alter (fun n => u32 (n + 1)) (stats_priority_index priority) |> |>.

Definition free_slots (b : keemash_mesh_tx_broker) : nat :=
  count_if (fun t => negb (b_used t)) (b_slots b).

Definition count_accepted (priority : Z) (s : tx_broker_stats_t) : tx_broker_stats_t :=
  let s := s <| bs_accepted ::= fun n => u32 (n + 1) |>
             <| bs_accepted_by_priority ::=
                  alter (fun n => u32 (n + 1)) (stats_priority_index priority) |>
             <| bs_pending ::= fun n => u32 (n + 1) |> in
  if bs_high_watermark s <? bs_pending s
  then s <| bs_high_watermark := bs_pending s |> else s.

Definition keemash_mesh_tx_broker_submit (lock : bool) (dst : option bytes) (packet : bytes)
  (priority : Z) : ST keemash_mesh_tx_broker esp_err_t := fun b =>
  if (length packet =? 0)%nat then (ESP_ERR_INVALID_ARG, b)
  else if (bc_max_packet_size (b_cfg b) <? length packet)%nat then
    (ESP_ERR_INVALID_SIZE,
     if lock then b <| b_stats ::= fun s => s <| bs_rejected_size ::= fun n => u32 (n + 1) |> |>
     else b)
  else if negb lock then (ESP_ERR_TIMEOUT, b)
  else
    match find_idx (fun t => negb (b_used t)) (b_slots b) with
    | None =>
        (ESP_ERR_NO_MEM,
         reject priority (b <| b_stats ::= fun s => s <| bs_rejected_full ::= fun n => u32 (n + 1) |> |>))
    | Some i =>
        if (priority <? KEEMASH_REL_PRIORITY_CONTROL)
           && (free_slots b <=? bc_control_reserved_slots (b_cfg b))%nat then
          (ESP_ERR_NO_MEM,
           reject priority (b <| b_stats ::= fun s => s <| bs_rejected_reserved ::= fun n => u32 (n + 1) |> |>))
        else
          let ticket := u32 (b_next_ticket b + 1) in
          let slot := {| b_used := true; b_sending := false; b_priority := priority;
                         b_dst := default mac_zero_addr dst; b_ticket := ticket;
                         b_bytes := packet |} in
          (ESP_OK, b <| b_next_ticket := ticket |> <| b_slots ::= <[i := slot]> |>
                     <| b_stats ::= count_accepted priority |>)
    end.

Definition keemash_mesh_packet_priority (packet : bytes) : Z :=
  if (length packet <? sizeof_hdr)%nat then KEEMASH_REL_PRIORITY_NORMAL
  else
    let header := decode_hdr packet in
    if negb (h_magic header =? MESH_PKT_MAGIC) || negb (h_version header =? MESH_PKT_VERSION_V2)
    then KEEMASH_REL_PRIORITY_NORMAL
    else if negb (h_type header =? MESH_V2_TYPE_RELIABLE_DATA)
            || (h_payload_len header <? Z.of_nat sizeof_rh)
            || (length packet <? sizeof_hdr + sizeof_rh)%nat
    then KEEMASH_REL_PRIORITY_CONTROL
    else rh_priority (decode_rh (drop sizeof_hdr packet)).

Definition keemash_mesh_tx_broker_submit_auto (lock : bool) (dst : option bytes)
  (packet : bytes) : ST keemash_mesh_tx_broker esp_err_t :=
  keemash_mesh_tx_broker_submit lock dst packet (keemash_mesh_packet_priority packet).

Definition keemash_mesh_tx_broker_stats (lock : bool) (b : keemash_mesh_tx_broker)
  : tx_broker_stats_t := if lock then b_stats b else stats_zero.

(** ** The broker under concurrent use

    Submissions interleave with the two halves of the worker's round.  The
    lists are ghosts: what was accepted, and what the transport was given. *)

Inductive worker_pc := Idle | Picked (i : nat) | Sent (i : nat) (err : esp_err_t).

Record broker_sys := {
  s_broker : keemash_mesh_tx_broker; s_pc : worker_pc;
  s_accepted : list (bytes * bytes); s_sent : list (bytes * bytes) }.

Inductive broker_step : broker_sys -> broker_sys -> Prop :=
  | step_submit b b' pc acc sent lock dst packet priority err :
      keemash_mesh_tx_broker_submit lock dst packet priority b = (err, b') ->
      broker_step (Build_broker_sys b pc acc sent)
        (Build_broker_sys b' pc
           (if err_eqb err ESP_OK then acc ++ [(default mac_zero_addr dst, packet)] else acc) sent)
  | step_pick b b' acc sent i :
      broker_pick b = (Served i, b') ->
      broker_step (Build_broker_sys b Idle acc sent) (Build_broker_sys b' (Picked i) acc sent)
  | step_send b acc sent i err :
      broker_step (Build_broker_sys b (Picked i) acc sent)
        (Build_broker_sys b (Sent i err) acc
           (sent ++ [(b_dst (slot_at b i), b_bytes (slot_at b i))]))
  | step_done b acc sent i err :
      broker_step (Build_broker_sys b (Sent i err) acc sent)
        (Build_broker_sys (broker_done i err b) Idle acc sent)
  | step_wait b b' acc sent next :
      broker_pick b = (next, b') -> (next = Wait \/ next = Exit) ->
      broker_step (Build_broker_sys b Idle acc sent) (Build_broker_sys b' Idle acc sent)
  | step_stop b b' pc acc sent lock :
      keemash_mesh_tx_broker_deinit lock false b = Some b' ->
      broker_step (Build_broker_sys b pc acc sent) (Build_broker_sys b' pc acc sent).

Inductive broker_reachable : broker_sys -> Prop :=
  | broker_start config b :
      Z.of_nat (bc_slots config) <= UINT16_MAX ->
      keemash_mesh_tx_broker_init config true true = (ESP_OK, Some b) ->
      broker_reachable (Build_broker_sys b Idle [] [])
  | broker_next s s' : broker_reachable s -> broker_step s s' -> broker_reachable s'.

(** What the broker still owes the transport. *)
Definition owed_slots (b : keemash_mesh_tx_broker) (pc : worker_pc) : list broker_slot_t :=
  match pc with
  | Sent i _ => <[i := slot_zero]> (b_slots b)
  | _ => b_slots b
  end.
Definition owed (b : keemash_mesh_tx_broker) (pc : worker_pc) : list (bytes * bytes) :=
  (fun t => (b_dst t, b_bytes t)) <$> List.filter b_used (owed_slots b pc).

(** ** The invariant of the interleaved broker *)

Definition low_priority (t : broker_slot_t) : bool :=
  b_used t && (b_priority t <? KEEMASH_REL_PRIORITY_CONTROL).

Definition control_priority (t : broker_slot_t) : bool :=
  b_used t && (KEEMASH_REL_PRIORITY_CONTROL <=? b_priority t).

(** The slot the worker is busy with. *)
Definition pc_slot (pc : worker_pc) : option nat :=
  match pc with Idle => None | Picked i | Sent i _ => Some i end.

Definition used_count (b : keemash_mesh_tx_broker) : nat := count_if b_used (b_slots b).

(** Bookkeeping of one broker state. *)
Record broker_wf (b : keemash_mesh_tx_broker) : Prop := {
  wf_valid : broker_config_valid (b_cfg b) = true;
  wf_small : Z.of_nat (bc_slots (b_cfg b)) <= UINT16_MAX;
  wf_length : length (b_slots b) = bc_slots (b_cfg b);
  wf_pending : bs_pending (b_stats b) = Z.of_nat (used_count b);
  wf_accepted : bs_accepted (b_stats b)
                = u32 (bs_completed (b_stats b) + bs_pending (b_stats b));
  wf_high : bs_pending (b_stats b) <= bs_high_watermark (b_stats b)
            <= Z.of_nat (bc_slots (b_cfg b));
  wf_low : (count_if low_priority (b_slots b) + bc_control_reserved_slots (b_cfg b)
            <= bc_slots (b_cfg b))%nat }.

Record broker_inv (s : broker_sys) : Prop := {
  inv_wf : broker_wf (s_broker s);
  inv_worker : forall i, pc_slot (s_pc s) = Some i ->
    exists t, b_slots (s_broker s) !! i = Some t /\ b_used t = true /\ b_sending t = true;
  inv_sending : forall i t, b_slots (s_broker s) !! i = Some t -> b_sending t = true ->
    pc_slot (s_pc s) = Some i;
  inv_ledger : s_accepted s ≡ₚ s_sent s ++ owed (s_broker s) (s_pc s) }.

Lemma used_count_le b : broker_wf b -> (used_count b <= bc_slots (b_cfg b))%nat.
Proof. intros H. rewrite <- (wf_length b H). apply count_if_le. Qed.

Lemma used_free b : (used_count b + free_slots b = length (b_slots b))%nat.
Proof. apply count_if_negb. Qed.

(** Statistics aside, a state with the same slots and configuration. *)
Lemma wf_stats b b' :
  b_cfg b' = b_cfg b -> b_slots b' = b_slots b ->
  bs_accepted (b_stats b') = bs_accepted (b_stats b) ->
  bs_completed (b_stats b') = bs_completed (b_stats b) ->
  bs_pending (b_stats b') = bs_pending (b_stats b) ->
  bs_high_watermark (b_stats b') = bs_high_watermark (b_stats b) ->
  broker_wf b -> broker_wf b'.
Proof.
  intros Hc Hs Ha Hd Hp Hh [H1 H2 H3 H4 H5 H6 H7].
  split; unfold used_count in *; rewrite ?Hc, ?Hs, ?Ha, ?Hd, ?Hp, ?Hh; done.
Qed.

Inductive submit_result (dst : option bytes) (packet : bytes) (priority : Z)
  (b b' : keemash_mesh_tx_broker) : esp_err_t -> Prop :=
  | submit_refused err :
      err <> ESP_OK -> b_cfg b' = b_cfg b -> b_slots b' = b_slots b ->
      b_task b' = b_task b -> b_stopping b' = b_stopping b ->
      bs_accepted (b_stats b') = bs_accepted (b_stats b) ->
      bs_completed (b_stats b') = bs_completed (b_stats b) ->
      bs_pending (b_stats b') = bs_pending (b_stats b) ->
      bs_high_watermark (b_stats b') = bs_high_watermark (b_stats b) ->
      submit_result dst packet priority b b' err
  | submit_stored i old :
      b_slots b !! i = Some old -> b_used old = false ->
      (priority < KEEMASH_REL_PRIORITY_CONTROL ->
       (bc_control_reserved_slots (b_cfg b) < free_slots b)%nat) ->
      b' = b <| b_next_ticket := u32 (b_next_ticket b + 1) |>
             <| b_slots ::= <[i := {| b_used := true; b_sending := false;
                  b_priority := priority; b_dst := default mac_zero_addr dst;
                  b_ticket := u32 (b_next_ticket b + 1); b_bytes := packet |}]> |>
             <| b_stats ::= count_accepted priority |> ->
      submit_result dst packet priority b b' ESP_OK.

Lemma submit_cases lock dst packet priority b err b' :
  keemash_mesh_tx_broker_submit lock dst packet priority b = (err, b') ->
  submit_result dst packet priority b b' err.
Proof.
  unfold keemash_mesh_tx_broker_submit. intros H.
  destruct (_ =? 0)%nat; [injection H as <- <-; by constructor|].
  destruct (_ <? _)%nat; [injection H as <- <-; destruct lock; by constructor|].
  destruct lock; cbn [negb] in H; [|injection H as <- <-; by constructor].
  destruct (find_idx _ _) as [i|] eqn:E; [|injection H as <- <-; by constructor].
  apply find_idx_Some in E as [(old & Hi & Hu) _]. apply negb_true_iff in Hu.
  destruct (_ && _) eqn:Eg; injection H as <- <-; [by constructor|].
  eapply submit_stored; [done|done| |done]. intros Hlow.
  apply andb_false_iff in Eg as [Eg|Eg]; [bools; lia|]. by apply Nat.leb_gt in Eg.
Qed.

Lemma insert_unused (l : list broker_slot_t) i old x :
  l !! i = Some old -> b_used old = false ->
  List.filter b_used (<[i := x]> l)
  ≡ₚ (if b_used x then [x] else []) ++ List.filter b_used l.
Proof.
  revert i. induction l as [|z l IH]; intros [|i] Hi Hu; simplify_eq/=.
  - rewrite Hu. by destruct (b_used x).
  - destruct (b_used z); [|by apply IH]. rewrite (IH i Hi Hu).
    destruct (b_used x); cbn; [apply perm_swap|done].
Qed.

Lemma count_accepted_stats priority s :
  bs_accepted (count_accepted priority s) = u32 (bs_accepted s + 1) /\
  bs_completed (count_accepted priority s) = bs_completed s /\
  bs_pending (count_accepted priority s) = u32 (bs_pending s + 1) /\
  bs_high_watermark (count_accepted priority s)
  = Z.max (bs_high_watermark s) (u32 (bs_pending s + 1)).
Proof.
  unfold count_accepted. split_if; bools; cbn in *; repeat split; lia.
Qed.

Lemma submit_wf dst packet priority b b' err :
  submit_result dst packet priority b b' err -> broker_wf b -> broker_wf b'.
Proof.
  intros [e He Hc Hs _ _ Ha Hd Hp Hh|i old Hi Hu Hlow ->] Hwf; [by eapply wf_stats|].
  pose proof (used_count_le b Hwf). pose proof (used_free b) as Hfree.
  destruct Hwf as [H1 H2 H3 H4 H5 H6 H7]. unfold UINT16_MAX in *.
  destruct (count_accepted_stats priority (b_stats b)) as (E1 & E2 & E3 & E4).
  set (x := {| b_used := true; b_sending := _; b_priority := _; b_dst := _; b_ticket := _;
               b_bytes := _ |}) in *.
  pose proof (count_if_insert b_used (b_slots b) i old x Hi) as Hcu. rewrite Hu in Hcu.
  cbn [x b_used] in Hcu.
  pose proof (count_if_insert low_priority (b_slots b) i old x Hi) as Hcl.
  unfold low_priority in Hcl at 2 4. cbn [x b_used b_priority] in Hcl. rewrite Hu in Hcl.
  cbn [andb] in Hcl.
  assert (Hlt : (used_count b < bc_slots (b_cfg b))%nat).
  { unfold used_count, free_slots in *.
    assert (0 < count_if (fun t => negb (b_used t)) (b_slots b))%nat; [|lia].
    eapply count_if_pos; [by eapply list_elem_of_lookup_2|]. by rewrite Hu. }
  split; unfold used_count; cbn [set_field upd_field setter b_cfg b_slots b_stats];
    rewrite ?E1, ?E2, ?E3, ?E4, ?length_insert; unfold used_count in *; try done.
  - rewrite H4, u32_id by words. lia.
  - rewrite H5. words.
  - rewrite H4 in *. rewrite u32_id by words. lia.
  - destruct (priority <? KEEMASH_REL_PRIORITY_CONTROL) eqn:Ep; bools; [|lia].
    specialize (Hlow Ep). assert (count_if low_priority (b_slots b) <= count_if b_used (b_slots b))%nat.
    { apply count_if_mono. unfold low_priority. intros y Hy. by bools. }
    lia.
Qed.

Inductive pick_result (b b' : keemash_mesh_tx_broker) : worker_next -> Prop :=
  | pick_exit : b_stopping b = true -> b' = b <| b_task := false |> -> pick_result b b' Exit
  | pick_wait : b_stopping b = false ->
      (forall t, t ∈ b_slots b -> waiting t = false) -> b' = b -> pick_result b b' Wait
  | pick_slot i t : b_stopping b = false ->
      b_slots b !! i = Some t -> b_used t = true -> b_sending t = false ->
      b' = b <| b_slots ::= <[i := t <| b_sending := true |>]> |> ->
      pick_result b b' (Served i).

Lemma pick_cases b next b' : broker_pick b = (next, b') -> pick_result b b' next.
Proof.
  unfold broker_pick, pick_next_locked, pick_next. intros H.
  destruct (b_stopping b) eqn:Es; [injection H as <- <-; by constructor|].
  destruct (best_from 0 None (b_slots b)) as [[i t]|] eqn:E.
  - apply best_Some in E as [Hi Hw]. injection H as <- <-.
    unfold waiting in Hw. cbn in Hw. apply andb_true_iff in Hw as [Hu Hn].
    apply negb_true_iff in Hn. eapply pick_slot; [done..|].
    by rewrite (alter_insert _ _ _ _ Hi).
  - injection H as <- <-. destruct b. constructor; [done| |done]. by apply best_None.
Qed.

Lemma slots_mark_wf b i t t' :
  b_slots b !! i = Some t -> b_used t' = b_used t -> b_priority t' = b_priority t ->
  broker_wf b -> broker_wf (b <| b_slots ::= <[i := t']> |>).
Proof.
  intros Hi Hu Hp [H1 H2 H3 H4 H5 H6 H7].
  pose proof (count_if_insert b_used (b_slots b) i t t' Hi) as Hcu.
  pose proof (count_if_insert low_priority (b_slots b) i t t' Hi) as Hcl.
  unfold low_priority in Hcl at 2 4. rewrite Hu in Hcu. rewrite Hu, Hp in Hcl.
  split; unfold used_count in *; cbn; rewrite ?length_insert; try done;
    [rewrite H4|]; lia.
Qed.

Lemma done_stats i err b :
  b_cfg (broker_done i err b) = b_cfg b /\
  b_slots (broker_done i err b) = alter (fun _ => slot_zero) i (b_slots b) /\
  bs_accepted (b_stats (broker_done i err b)) = bs_accepted (b_stats b) /\
  bs_completed (b_stats (broker_done i err b)) = u32 (bs_completed (b_stats b) + 1) /\
  bs_pending (b_stats (broker_done i err b)) = u32 (bs_pending (b_stats b) - 1) /\
  bs_high_watermark (b_stats (broker_done i err b)) = bs_high_watermark (b_stats b).
Proof. unfold broker_done. cbn. by destruct (err_eqb err ESP_OK). Qed.

Lemma done_wf i t err b :
  b_slots b !! i = Some t -> b_used t = true -> broker_wf b -> broker_wf (broker_done i err b).
Proof.
  intros Hi Hu Hwf. destruct (done_stats i err b) as (Ec & Es & E1 & E2 & E3 & E4).
  pose proof (used_count_le b Hwf). destruct Hwf as [H1 H2 H3 H4 H5 H6 H7].
  pose proof (count_if_insert b_used (b_slots b) i t slot_zero Hi) as Hcu.
  pose proof (count_if_insert low_priority (b_slots b) i t slot_zero Hi) as Hcl.
  rewrite Hu in Hcu. cbn in Hcu, Hcl.
  rewrite alter_const_insert in Es. unfold UINT16_MAX in *.
  split; unfold used_count in *; rewrite ?Ec, ?Es, ?E1, ?E2, ?E3, ?E4, ?length_insert; try done.
  - rewrite H4, u32_id by words. lia.
  - rewrite H5. words.
  - rewrite H4 in *. rewrite u32_id by words. lia.
  - destruct (low_priority t); lia.
Qed.

Lemma filter_insert_same (l : list broker_slot_t) i t t' :
  l !! i = Some t -> b_used t = true -> b_used t' = true ->
  (b_dst t', b_bytes t') = (b_dst t, b_bytes t) ->
  (fun t => (b_dst t, b_bytes t)) <$> List.filter b_used (<[i := t']> l)
  = (fun t => (b_dst t, b_bytes t)) <$> List.filter b_used l.
Proof.
  revert i. induction l as [|z l IH]; intros [|i] Hi Hu Hu' He; try done; cbn in Hi; cbn.
  - injection Hi as ->. rewrite Hu, Hu'. cbn. f_equal. congruence.
  - specialize (IH i Hi Hu Hu' He). destruct (b_used z); cbn; [by f_equal|done].
Qed.

Lemma filter_release (l : list broker_slot_t) i t :
  l !! i = Some t -> b_used t = true ->
  List.filter b_used l ≡ₚ t :: List.filter b_used (<[i := slot_zero]> l).
Proof.
  revert i. induction l as [|z l IH]; intros [|i] Hi Hu; simplify_eq/=; [by rewrite Hu|].
  destruct (b_used z); [|by apply IH]. rewrite (IH i Hi Hu). apply perm_swap.
Qed.

Lemma slot_at_lookup b i t : b_slots b !! i = Some t -> slot_at b i = t.
Proof. intros H. unfold slot_at. by rewrite (nth_lookup_Some _ _ _ _ H). Qed.

(** Storing a packet in a free slot. *)
Lemma owed_store b b' pc dst packet i old (x : broker_slot_t) :
  b_slots b !! i = Some old -> b_used old = false ->
  b_slots b' = <[i := x]> (b_slots b) -> b_used x = true ->
  (b_dst x, b_bytes x) = (dst, packet) ->
  (forall k, pc_slot pc = Some k -> exists t, b_slots b !! k = Some t /\ b_used t = true) ->
  owed b' pc ≡ₚ (dst, packet) :: owed b pc.
Proof.
  intros Hi Hu Hs Hx He Hpc. unfold owed, owed_slots. rewrite Hs.
  assert (Hgo : forall l, l !! i = Some old ->
    (fun t => (b_dst t, b_bytes t)) <$> List.filter b_used (<[i := x]> l)
    ≡ₚ (dst, packet) :: ((fun t => (b_dst t, b_bytes t)) <$> List.filter b_used l)).
  { intros l Hl. rewrite (insert_unused l i old x Hl Hu), Hx. cbn. by rewrite <- He. }
  destruct pc as [|k|k e]; [by apply Hgo..|].
  assert (Hne : i <> k).
  { intros ->. destruct (Hpc k eq_refl) as (t & Ht & Htu). congruence. }
  rewrite list_insert_insert_ne by done. apply Hgo. by rewrite list_lookup_insert_ne.
Qed.

Lemma broker_submit_inv b b' pc acc sent dst packet priority err :
  submit_result dst packet priority b b' err ->
  broker_inv (Build_broker_sys b pc acc sent) ->
  broker_inv (Build_broker_sys b' pc
    (if err_eqb err ESP_OK then acc ++ [(default mac_zero_addr dst, packet)] else acc) sent).
Proof.
  intros Hr [Hwf Hw Hs Hl]. cbn [s_broker s_pc s_accepted s_sent] in *.
  assert (Hwf' : broker_wf b') by by eapply submit_wf.
  destruct Hr as [e He Hc Hsl _ _ _ _ _ _|i old Hi Hu _ Hb'].
  - rewrite (proj2 (err_eqb_false e ESP_OK) He).
    split; cbn [s_broker s_pc s_accepted s_sent]; rewrite ?Hsl; try done.
    rewrite Hl. unfold owed, owed_slots. by rewrite Hsl.
  - set (x := {| b_used := true; b_sending := _; b_priority := _; b_dst := _; b_ticket := _;
                 b_bytes := _ |}) in *.
    assert (Hsl : b_slots b' = <[i := x]> (b_slots b)) by by rewrite Hb'.
    split; cbn [s_broker s_pc s_accepted s_sent]; [done|..]; rewrite ?Hsl.
    + intros k Hk. destruct (Hw k Hk) as (t & Ht & Htu & Hts).
      exists t. rewrite list_lookup_insert_ne; [done|]. intros ->. congruence.
    + intros k t Ht Hts. apply list_lookup_insert_Some in Ht as [(-> & <- & _)|[_ Ht]];
        [done|by eapply Hs].
    + change (err_eqb ESP_OK ESP_OK) with true. cbv iota.
      rewrite (owed_store b b' pc (default mac_zero_addr dst) packet i old x);
        try done.
      * rewrite Hl. rewrite (Permutation_app_comm _ [_]). cbn. apply Permutation_middle.
      * intros k Hk. destruct (Hw k Hk) as (t & Ht & Htu & _). eauto.
Qed.

Lemma broker_step_inv s s' : broker_step s s' -> broker_inv s -> broker_inv s'.
Proof.
  intros [b b' pc acc sent lock dst packet priority err H|b b' acc sent i H|
    b acc sent i err|b acc sent i err|b b' acc sent next H Hn|b b' pc acc sent lock H] Hinv.
  - apply submit_cases in H. by eapply broker_submit_inv.
  - apply pick_cases in H. inversion H as [| |i' t Hst Hi Hu Hns Hb']; subst i'.
    destruct Hinv as [Hwf Hw Hs Hl]. cbn [s_broker s_pc s_accepted s_sent] in *.
    assert (Hsl : b_slots b' = <[i := t <| b_sending := true |>]> (b_slots b)) by by rewrite Hb'.
    split; cbn [s_broker s_pc s_accepted s_sent pc_slot].
    + subst b'. by eapply slots_mark_wf.
    + intros k [= <-]. exists (t <| b_sending := true |>). rewrite Hsl.
      rewrite list_lookup_insert_eq by by eapply lookup_lt_Some. done.
    + intros k u Hk Hku. rewrite Hsl in Hk.
      apply list_lookup_insert_Some in Hk as [(-> & _)|[_ Hk]]; [done|].
      by specialize (Hs k u Hk Hku).
    + rewrite Hl. unfold owed, owed_slots. rewrite Hsl.
      by rewrite (filter_insert_same _ i t).
  - destruct Hinv as [Hwf Hw Hs Hl]. cbn [s_broker s_pc s_accepted s_sent] in *.
    split; cbn [s_broker s_pc s_accepted s_sent]; [done..|].
    destruct (Hw i eq_refl) as (t & Hi & Hu & _).
    rewrite Hl. unfold owed, owed_slots. rewrite <- app_assoc.
    apply Permutation_app_head. rewrite (filter_release _ i t Hi Hu), (slot_at_lookup _ _ _ Hi).
    done.
  - destruct Hinv as [Hwf Hw Hs Hl]. cbn [s_broker s_pc s_accepted s_sent] in *.
    destruct (Hw i eq_refl) as (t & Hi & Hu & _).
    destruct (done_stats i err b) as (_ & Es & _). rewrite alter_const_insert in Es.
    split; cbn [s_broker s_pc s_accepted s_sent pc_slot].
    + by eapply done_wf.
    + done.
    + intros k u Hk Hku. rewrite Es in Hk.
      apply list_lookup_insert_Some in Hk as [(-> & <- & _)|[Hne Hk]]; [done|].
      specialize (Hs k u Hk Hku). by injection Hs.
    + rewrite Hl. unfold owed, owed_slots. by rewrite Es.
  - apply pick_cases in H. destruct H as [_ ->|_ _ ->|i t]; [|done|by destruct Hn].
    destruct Hinv as [Hwf Hw Hs Hl]. split; try done. destruct Hwf. by split.
  - unfold keemash_mesh_tx_broker_deinit in H. rewrite andb_false_r in H.
    assert (Hb' : b' = b \/ b' = b <| b_stopping := true |>).
    { destruct lock; cbn in H; destruct (b_task b); simplify_eq; auto. }
    destruct Hb' as [->| ->]; [done|].
    destruct Hinv as [Hwf Hw Hs Hl]. split; try done. destruct Hwf. by split.
Qed.

Lemma broker_reachable_inv s : broker_reachable s -> broker_inv s.
Proof.
  induction 1 as [config b Hn H|s s' _ IH Hs]; [|by eapply broker_step_inv].
  unfold keemash_mesh_tx_broker_init in H.
  destruct (broker_config_valid config) eqn:E; [|done]. injection H as <-.
  assert (Hz : forall P, P slot_zero = false ->
    count_if P (replicate (bc_slots config) slot_zero) = 0%nat).
  { intros P HP. apply count_if_zero. intros t Ht. by apply elem_of_replicate in Ht as [-> _]. }
  split; cbn [s_broker s_pc s_accepted s_sent b_slots pc_slot].
  - split; unfold used_count; cbn; rewrite ?length_replicate, ?Hz; try done.
    + lia.
    + unfold broker_config_valid in E. apply andb_true_iff in E as [_ E%Nat.ltb_lt]. lia.
  - done.
  - intros i t Ht. apply lookup_replicate in Ht as [-> _]. done.
  - unfold owed, owed_slots. cbn. clear. by induction (bc_slots config).
Qed.

(** ** The order of service *)

(** How many packets were accepted since the one in this slot. *)
Definition age (next : Z) (t : broker_slot_t) : Z := u32 (next - b_ticket t).

Definition broker_rank (next : Z) (t : broker_slot_t) : Z :=
  - (b_priority t * 4294967296 + age next t).

(** No packet waits for as long as 2^31 further submissions. *)
Definition tickets_in_window (b : keemash_mesh_tx_broker) : Prop :=
  forall t, t ∈ b_slots b -> b_used t = true -> age (b_next_ticket b) t < 2147483648.

Definition sent_before (next : Z) (x y : broker_slot_t) : Prop :=
  b_priority y < b_priority x \/ b_priority x = b_priority y /\ age next y <= age next x.

Lemma broker_ranked b :
  tickets_in_window b -> ranked (broker_rank (b_next_ticket b)) (b_slots b).
Proof.
  intros Hwin x y Hx Hy Hwx Hwy. unfold waiting in *. cbn in *.
  apply andb_true_iff in Hwx as [Hx1 _], Hwy as [Hy1 _].
  specialize (Hwin x Hx Hx1) as Hax. specialize (Hwin y Hy Hy1) as Hay.
  unfold broker_before, broker_rank, age in *.
  assert (Ht : (i32 (u32 (b_ticket x - b_ticket y)) <? 0)
               = (u32 (b_next_ticket b - b_ticket y) <? u32 (b_next_ticket b - b_ticket x))).
  { apply eq_true_iff_eq. rewrite !Z.ltb_lt.
    generalize (b_next_ticket b), (b_ticket x), (b_ticket y), Hax, Hay. clear. intros. words. }
  rewrite Ht. pose proof (u32_is (b_next_ticket b - b_ticket y)).
  pose proof (u32_is (b_next_ticket b - b_ticket x)). unfold is_u32 in *.
  apply eq_true_iff_eq. rewrite orb_true_iff, andb_true_iff, !Z.ltb_lt, Z.eqb_eq. nia.
Qed.

Section Loop.
Context {W : Type} `{!Transport W}.

Definition send_slot (w : W) (t : broker_slot_t) : W := (raw_send (b_dst t) (b_bytes t) w).2.

Lemma release_alter (l : list broker_slot_t) i t :
  l !! i = Some t ->
  alter (fun _ => slot_zero) i (alter q_mark i l) = <[i := slot_zero]> l.
Proof.
  revert i. induction l as [|z l IH]; intros [|i] H; simplify_eq/=; [done|].
  f_equal. by apply IH.
Qed.

Lemma broker_loop_serve fuel b w :
  b_stopping b = false -> (length (waiting_of (b_slots b)) < fuel)%nat ->
  exists b', broker_loop fuel (b, w)
    = (Wait, (b', fold_left send_slot (serve fuel (b_slots b)).1 w)) /\
  b_slots b' = (serve fuel (b_slots b)).2 /\
  bs_completed (b_stats b') =
    Nat.iter (length (serve fuel (b_slots b)).1) (fun n => u32 (n + 1)) (bs_completed (b_stats b)) /\
  bs_pending (b_stats b') =
    Nat.iter (length (serve fuel (b_slots b)).1) (fun n => u32 (n - 1)) (bs_pending (b_stats b)).
Proof.
  revert b w. induction fuel as [|fuel IH]; intros b w Hs Hf; [lia|].
  cbn [broker_loop serve]. rewrite bind_eq. unfold broker_round, broker_pick. cbn [fst snd].
  rewrite Hs. unfold pick_next_locked, pick_next.
  destruct (best_from 0 None (b_slots b)) as [[i t]|] eqn:E.
  2: { cbn. exists (b <| b_slots := b_slots b |>). by destruct b. }
  pose proof (best_Some _ _ _ E) as [Hi Hw].
  cbn [fst snd]. set (b1 := b <| b_slots := alter q_mark i (b_slots b) |>).
  assert (Hat : slot_at b1 i = q_mark t).
  { apply slot_at_lookup. unfold b1. cbn. by rewrite list_lookup_alter_eq, Hi. }
  rewrite Hat. destruct (raw_send (b_dst (q_mark t)) (b_bytes (q_mark t)) w) as [err w'] eqn:Er.
  cbn [fst snd]. destruct (done_stats i err b1) as (_ & Esl & _ & Ec & Ep & _).
  assert (Hsl : b_slots (broker_done i err b1) = <[i := slot_zero]> (b_slots b)).
  { rewrite Esl. unfold b1. cbn [set_field setter b_slots]. by eapply release_alter. }
  change (q_release (q_mark t)) with slot_zero.
  pose proof (waiting_of_insert (b_slots b) i t slot_zero Hi Hw eq_refl) as Hp.
  apply Permutation_length in Hp. cbn [length] in Hp.
  destruct (IH (broker_done i err b1) w') as (b' & H1 & H2 & H3 & H4).
  { unfold broker_done, b1. by destruct (err_eqb err ESP_OK). }
  { rewrite Hsl. lia. }
  rewrite Hsl in *.
  destruct (serve fuel (<[i := slot_zero]> (b_slots b))) as [served rest].
  cbn [fst snd length] in *. exists b'. split; [|split; [done|]].
  - rewrite H1. cbn [fold_left]. by replace (send_slot w (q_mark t)) with w' by
      (unfold send_slot; by rewrite Er).
  - rewrite H3, H4, Ec, Ep, !Nat.iter_succ_r. done.
Qed.

Lemma iter_dec n k :
  Nat.iter n (fun z => u32 (z - 1)) (u32 (Z.of_nat n + k)) = u32 k.
Proof.
  revert k. induction n as [|n IH]; intros k; [done|].
  rewrite Nat.iter_succ_r, u32_sub_l.
  replace (Z.of_nat (S n) + k - 1) with (Z.of_nat n + k) by lia. apply IH.
Qed.

(** A worker that nobody disturbs returns to waiting after sending every
    queued packet exactly once, the highest priority first and, within a
    priority, the oldest first; every slot is then free and none is pending. *)
Theorem broker_loop_order b w fuel :
  broker_wf b -> b_stopping b = false -> tickets_in_window b ->
  (forall t, t ∈ b_slots b -> b_sending t = false) ->
  (used_count b < fuel)%nat ->
  exists b' order,
    broker_loop fuel (b, w) = (Wait, (b', fold_left send_slot order w)) /\
    order ≡ₚ q_mark <$> List.filter b_used (b_slots b) /\
    StronglySorted (sent_before (b_next_ticket b)) order /\
    used_count b' = 0%nat /\ bs_pending (b_stats b') = 0.
Proof.
  intros Hwf Hs Hwin Hidle Hf.
  assert (Hwait : waiting_of (b_slots b) = List.filter b_used (b_slots b)).
  { apply filter_ext_in. intros t Ht%list_elem_of_In. unfold waiting. cbn.
    by rewrite (Hidle t Ht), andb_true_r. }
  assert (Hlen : length (List.filter b_used (b_slots b)) = used_count b).
  { unfold used_count. clear. induction (b_slots b) as [|t l IH]; [done|]. cbn.
    destruct (b_used t); cbn; by rewrite IH. }
  destruct (serve_perm fuel (b_slots b)) as (Hperm & Hrest & _); [rewrite Hwait; lia|].
  destruct (serve_sorted (broker_rank (b_next_ticket b)) fuel (b_slots b)) as [Hsort Hfrom];
    [done|by apply broker_ranked|].
  destruct (broker_loop_serve fuel b w Hs) as (b' & H1 & H2 & _ & H4);
    [rewrite Hwait; lia|].
  exists b', (serve fuel (b_slots b)).1. split; [done|]. split; [by rewrite Hperm, Hwait|].
  split; [|split].
  - revert Hsort. apply StronglySorted_impl. intros x y Hr.
    unfold sent_before, broker_rank in *.
    pose proof (u32_is (b_next_ticket b - b_ticket x)).
    pose proof (u32_is (b_next_ticket b - b_ticket y)). unfold age, is_u32 in *. nia.
  - unfold used_count. rewrite H2. apply count_if_zero. intros y Hy.
    specialize (Hrest y Hy). unfold waiting in Hrest. cbn in Hrest.
    apply serve_rest in Hy as [Hy|Hy]; [|done].
    by rewrite (Hidle y Hy), andb_true_r in Hrest.
  - rewrite H4. apply Permutation_length in Hperm. rewrite length_fmap, Hwait, Hlen in Hperm.
    rewrite Hperm, (wf_pending b Hwf).
    pose proof (iter_dec (used_count b) 0) as Hi. rewrite Z.add_0_r in Hi.
    pose proof (used_count_le b Hwf). pose proof (wf_small b Hwf). unfold UINT16_MAX in *.
    rewrite u32_id in Hi by words. exact Hi.
Qed.
End Loop.

(** ** What the broker promises *)

(** C6: whatever the interleaving of submissions and worker, every packet for
    which a submission returned ESP_OK has been handed to the transport exactly
    once with its own destination and bytes, or still waits in a slot. *)
Theorem broker_ledger s :
  broker_reachable s -> s_accepted s ≡ₚ s_sent s ++ owed (s_broker s) (s_pc s).
Proof. intros H. apply (inv_ledger s). by apply broker_reachable_inv. Qed.

(** In every reachable state the statistics are exact (pending counts the
    slots in use, accepted is completed plus pending, the high watermark lies
    between pending and the capacity) and traffic below CONTROL priority leaves
    the reserved slots free. *)
Theorem broker_books s : broker_reachable s -> broker_wf (s_broker s).
Proof. intros H. apply (inv_wf s). by apply broker_reachable_inv. Qed.

(** A CONTROL packet of valid size is accepted whenever fewer CONTROL
    packets are queued than slots are reserved for them, however much other
    traffic is queued. *)
Theorem broker_control_reserved s dst packet priority :
  broker_reachable s -> KEEMASH_REL_PRIORITY_CONTROL <= priority ->
  (0 < length packet <= bc_max_packet_size (b_cfg (s_broker s)))%nat ->
  (count_if control_priority (b_slots (s_broker s))
   < bc_control_reserved_slots (b_cfg (s_broker s)))%nat ->
  (keemash_mesh_tx_broker_submit true dst packet priority (s_broker s)).1 = ESP_OK.
Proof.
  intros Hr Hp [Hl0 Hl] Hc. apply broker_reachable_inv in Hr as [[_ _ Hlen _ _ _ Hlow] _ _ _].
  set (b := s_broker s) in *. unfold keemash_mesh_tx_broker_submit.
  replace (length packet =? 0)%nat with false by (symmetry; apply Nat.eqb_neq; lia).
  replace (bc_max_packet_size (b_cfg b) <? length packet)%nat with false
    by (symmetry; apply Nat.ltb_ge; lia).
  cbn [negb]. replace (priority <? KEEMASH_REL_PRIORITY_CONTROL) with false
    by (symmetry; apply Z.ltb_ge; lia).
  destruct (find_idx _ _) eqn:E; [done|].
  apply find_idx_None_count in E. exfalso.
  assert (Hsplit : (count_if low_priority (b_slots b)
    + count_if control_priority (b_slots b)
    + count_if (fun t => negb (b_used t)) (b_slots b) = length (b_slots b))%nat); [|lia].
  clear. induction (b_slots b) as [|t l IH]; [done|]. cbn [count_if length]. rewrite <- IH.
  unfold low_priority, control_priority. rewrite Z.ltb_antisym.
  destruct (b_used t), (KEEMASH_REL_PRIORITY_CONTROL <=? b_priority t); cbn; lia.
Qed.

(** The classifier reads the priority a sender put into a DATA packet, and
    gives every other packet of the reliable protocol CONTROL priority. *)
Theorem packet_priority_built type session_id src payload r chunk :
  build_ok type session_id src payload ->
  (type <> MESH_V2_TYPE_RELIABLE_DATA ->
   keemash_mesh_packet_priority (build_packet type session_id src payload)
   = KEEMASH_REL_PRIORITY_CONTROL) /\
  (type = MESH_V2_TYPE_RELIABLE_DATA -> rh_ok r -> payload = encode_rh r ++ chunk ->
   keemash_mesh_packet_priority (build_packet type session_id src payload) = rh_priority r).
Proof.
  intros Hok. pose proof (build_hdr_ok _ _ _ _ Hok) as Hh.
  destruct Hok as (_ & _ & [Hm _] & _ & Hl). unfold MESH_V2_PAYLOAD_MAX in Hl.
  unfold keemash_mesh_packet_priority, build_packet.
  rewrite decode_encode_hdr by done.
  assert (He : length (encode_hdr (build_hdr type session_id src payload)) = sizeof_hdr).
  { apply length_encode_hdr, Hm. }
  rewrite length_app, He.
  replace (sizeof_hdr + length payload <? sizeof_hdr)%nat with false
    by (symmetry; apply Nat.ltb_ge; lia).
  cbn [build_hdr set_field setter h_magic h_version h_type h_payload_len].
  rewrite !Z.eqb_refl. cbn [negb orb]. split.
  - intros Ht. by rewrite (proj2 (Z.eqb_neq _ _) Ht).
  - intros -> Hr ->. rewrite Z.eqb_refl. cbn [negb orb].
    assert (Hrl : length (encode_rh r) = sizeof_rh).
    { destruct Hr as (_&_&_&_&_&_&_&_&_&_&_&[H1 _]&[H2 _]). by apply length_encode_rh. }
    rewrite length_app, Hrl in *.
    replace (u16 (Z.of_nat (sizeof_rh + length chunk)) <? Z.of_nat sizeof_rh) with false.
    2: { symmetry. apply Z.ltb_ge. unfold sizeof_rh in *. words. }
    replace (sizeof_hdr + (sizeof_rh + length chunk) <? sizeof_hdr + sizeof_rh)%nat with false
      by (symmetry; apply Nat.ltb_ge; lia).
    cbn [orb]. rewrite <- He at 1. rewrite drop_app_length. by rewrite decode_encode_rh.
Qed.

(** ** Witnesses *)

Definition sample_broker_config : tx_broker_config_t :=
  {| bc_slots := 4; bc_control_reserved_slots := 1; bc_max_packet_size := 64;
     bc_raw_send := true |}.

Definition fresh_broker : keemash_mesh_tx_broker :=
  default {| b_cfg := sample_broker_config; b_task := false; b_slots := []; b_next_ticket := 0;
             b_stopping := false; b_stats := stats_zero |}
    (keemash_mesh_tx_broker_init sample_broker_config true true).2.

Definition submit1 : ST keemash_mesh_tx_broker esp_err_t :=
  keemash_mesh_tx_broker_submit true (Some [2; 0; 0; 0; 0; 1]) [1; 2; 3] 2.
Definition submit2 : ST keemash_mesh_tx_broker esp_err_t :=
  keemash_mesh_tx_broker_submit true None [4; 5] 3.
Definition two_queued : keemash_mesh_tx_broker := (submit2 (submit1 fresh_broker).2).2.
Definition first_picked : keemash_mesh_tx_broker := (broker_pick two_queued).2.

(** Two packets accepted, the more urgent one picked and given to the transport. *)
Definition sample_sys : broker_sys :=
  Build_broker_sys first_picked (Sent 1 ESP_OK)
    [([2; 0; 0; 0; 0; 1], [1; 2; 3]); (mac_zero_addr, [4; 5])]
    [(mac_zero_addr, [4; 5])].

Lemma sample_sys_reachable : broker_reachable sample_sys.
Proof.
  assert (H0 : broker_reachable (Build_broker_sys fresh_broker Idle [] [])).
  { apply (broker_start sample_broker_config); [vm_compute; congruence|reflexivity]. }
  assert (H1 : broker_reachable (Build_broker_sys (submit1 fresh_broker).2 Idle
    [([2; 0; 0; 0; 0; 1], [1; 2; 3])] [])).
  { apply (broker_next _ _ H0). exact (step_submit fresh_broker (submit1 fresh_broker).2 Idle
      [] [] true (Some [2; 0; 0; 0; 0; 1]) [1; 2; 3] 2 ESP_OK eq_refl). }
  assert (H2 : broker_reachable (Build_broker_sys two_queued Idle
    [([2; 0; 0; 0; 0; 1], [1; 2; 3]); (mac_zero_addr, [4; 5])] [])).
  { apply (broker_next _ _ H1). exact (step_submit (submit1 fresh_broker).2 two_queued Idle
      [([2; 0; 0; 0; 0; 1], [1; 2; 3])] [] true None [4; 5] 3 ESP_OK eq_refl). }
  assert (H3 : broker_reachable (Build_broker_sys first_picked (Picked 1)
    [([2; 0; 0; 0; 0; 1], [1; 2; 3]); (mac_zero_addr, [4; 5])] [])).
  { eapply broker_next; [exact H2|]. apply step_pick. reflexivity. }
  eapply broker_next; [exact H3|]. apply step_send.
Qed.

Example broker_ledger_witness :
  s_accepted sample_sys ≡ₚ s_sent sample_sys ++ owed (s_broker sample_sys) (s_pc sample_sys).
Proof. exact (broker_ledger sample_sys sample_sys_reachable). Defined.

Example broker_books_witness : broker_wf first_picked.
Proof. exact (broker_books sample_sys sample_sys_reachable). Defined.

Example broker_control_reserved_witness :
  (keemash_mesh_tx_broker_submit true None [7] 4 (s_broker sample_sys)).1 = ESP_OK.
Proof.
  apply (broker_control_reserved sample_sys None [7] 4 sample_sys_reachable);
    vm_compute; split || idtac; (congruence || lia).
Defined.

#[local] Instance sample_transport : Transport (list (bytes * bytes)) :=
  fun dst packet log => (ESP_OK, log ++ [(dst, packet)]).

Example broker_loop_order_witness :
  exists b' order,
    broker_loop 3 (two_queued, []) = (Wait, (b', fold_left send_slot order [])) /\
    order ≡ₚ q_mark <$> List.filter b_used (b_slots two_queued) /\
    StronglySorted (sent_before (b_next_ticket two_queued)) order /\
    used_count b' = 0%nat /\ bs_pending (b_stats b') = 0.
Proof.
  assert (Hwf : broker_wf two_queued).
  { split; vm_compute; try done; try lia. }
  apply (broker_loop_order two_queued [] 3 Hwf eq_refl).
  - intros t Ht. vm_compute in Ht.
    repeat (apply elem_of_cons in Ht as [->|Ht]; [vm_compute; congruence|]).
    by apply elem_of_nil in Ht.
  - intros t Ht. vm_compute in Ht.
    repeat (apply elem_of_cons in Ht as [->|Ht]; [reflexivity|]).
    by apply elem_of_nil in Ht.
  - vm_compute. lia.
Defined.

Definition sample_rh : mesh_v2_reliable_hdr_t :=
  {| rh_channel_id := 1; rh_flags := 0; rh_priority := 3; rh_fragment_count := 1;
     rh_payload_len := 2; rh_fragment_index := 0; rh_stream_id := 1; rh_seq := 1;
     rh_tx_ms := 5; rh_root_session_id := 6; rh_node_session_id := 7;
     rh_origin_mac := [2; 0; 0; 0; 0; 1]; rh_target_mac := [2; 0; 0; 0; 0; 2] |}.

Example packet_priority_built_witness :
  keemash_mesh_packet_priority
    (build_packet MESH_V2_TYPE_RELIABLE_DATA 9 [2; 0; 0; 0; 0; 1] (encode_rh sample_rh ++ [8; 9])) = 3.
Proof.
  refine (proj2 (packet_priority_built MESH_V2_TYPE_RELIABLE_DATA 9 [2; 0; 0; 0; 0; 1]
    (encode_rh sample_rh ++ [8; 9]) sample_rh [8; 9] _) eq_refl _ eq_refl).
  - unfold build_ok, mac_addr, are_bytes. vm_compute.
    split_and!; repeat constructor; congruence.
  - unfold rh_ok, mac_addr, are_bytes. vm_compute.
    split_and!; repeat constructor; congruence.
Defined.
