(* ===== verification/EventOutbox.v ===== *)
(** * The event outbox (keemash_mesh_event_outbox.c)

    Text events wait in slots until the worker's send callback accepts them: a
    failed send leaves the event queued for another try.  A keyed enqueue may
    overwrite a waiting event with the same key, a group is queued whole or not
    at all.  As for the TX broker, one function is one critical section; [lock]
    says whether the mutex was obtained.  A C string is the list of its
    characters without the terminator. *)

From S2P Require Import Prelude.
From S2P Require Import Words.
From S2P Require Import Esp.
From S2P Require Import TicketQueue.
From stdpp Require Import sorting.
From Stdlib Require Import Sorted Permutation.
#[local] Open Scope Z_scope.

Definition EVENT_KEY_MAX : nat := 16.

Record event_slot_t := {
  e_used : bool; e_sending : bool; e_ticket : Z; e_key : bytes; e_text : bytes }.

#[export] Instance eta_event_slot : Eta event_slot_t := fun t =>
  Build_event_slot_t (e_used t) (e_sending t) (e_ticket t) (e_key t) (e_text t).

(** [memset] of a slot that keeps the pointer to its text buffer. *)
Definition event_clear (t : event_slot_t) : event_slot_t :=
  {| e_used := false; e_sending := false; e_ticket := 0; e_key := []; e_text := e_text t |}.

Definition event_zero : event_slot_t :=
  {| e_used := false; e_sending := false; e_ticket := 0; e_key := []; e_text := [] |}.

Record event_outbox_config_t := {
  oc_slots : nat; oc_text_size : nat; oc_retry_ms : Z; oc_send : bool }.

#[export] Instance eta_outbox_config : Eta event_outbox_config_t := fun c =>
  Build_event_outbox_config_t (oc_slots c) (oc_text_size c) (oc_retry_ms c) (oc_send c).

Record event_outbox_stats_t := {
  os_accepted : Z; os_delivered : Z; os_coalesced : Z; os_overflow : Z; os_send_errors : Z;
  os_pending : Z; os_high_watermark : Z; os_last_send_err : esp_err_t }.

#[export] Instance eta_outbox_stats : Eta event_outbox_stats_t := fun s =>
  Build_event_outbox_stats_t (os_accepted s) (os_delivered s) (os_coalesced s)
    (os_overflow s) (os_send_errors s) (os_pending s) (os_high_watermark s)
    (os_last_send_err s).

Definition outbox_stats_zero : event_outbox_stats_t :=
  {| os_accepted := 0; os_delivered := 0; os_coalesced := 0; os_overflow := 0;
     os_send_errors := 0; os_pending := 0; os_high_watermark := 0;
     os_last_send_err := ESP_OK |}.

Record keemash_mesh_event_outbox := {
  o_cfg : event_outbox_config_t; o_task : bool; o_slots : list event_slot_t;
  o_next_ticket : Z; o_stopping : bool; o_stats : event_outbox_stats_t }.

#[export] Instance eta_outbox : Eta keemash_mesh_event_outbox := fun b =>
  Build_keemash_mesh_event_outbox (o_cfg b) (o_task b) (o_slots b) (o_next_ticket b)
    (o_stopping b) (o_stats b).

(** ** The worker *)

Definition event_before (x best : event_slot_t) : bool :=
  i32 (u32 (e_ticket x - e_ticket best)) <? 0.

#[export] Instance event_ticketed : Ticketed event_slot_t := {|
  q_used := e_used; q_sending := e_sending; q_before := event_before;
  q_mark := fun t => t <| e_sending := true |>;
  q_release := event_clear |}.

#[export] Instance event_ticketed_laws : TicketedLaws event_slot_t.
Proof. by split. Qed.

Definition oldest_locked : ST keemash_mesh_event_outbox (option nat) := fun b =>
  let '(i, slots) := pick_next (o_slots b) in (i, b <| o_slots := slots |>).

Definition free_locked (b : keemash_mesh_event_outbox) : option nat :=
  find_idx (fun t => negb (e_used t)) (o_slots b).

Definition update_high_watermark_locked (b : keemash_mesh_event_outbox)
  : keemash_mesh_event_outbox :=
  if os_high_watermark (o_stats b) <? os_pending (o_stats b)
  then b <| o_stats ::= fun s => s <| os_high_watermark := os_pending s |> |> else b.

Inductive event_next := Exit | Wait | Retry | Served (i : nat).

Definition event_pick : ST keemash_mesh_event_outbox event_next := fun b =>
  if o_stopping b then (Exit, b <| o_task := false |>)
  else let '(i, b) := oldest_locked b in
       (match i with None => Wait | Some i => Served i end, b).

Definition event_done (i : nat) (err : esp_err_t) (b : keemash_mesh_event_outbox)
  : keemash_mesh_event_outbox :=
  let b := b <| o_stats ::= fun s => s <| os_last_send_err := err |> |> in
  if err_eqb err ESP_OK then
    b <| o_slots ::= alter event_clear i |>
      <| o_stats ::= fun s => s <| os_delivered ::= fun n => u32 (n + 1) |>
                                <| os_pending ::= fun n => u32 (n - 1) |> |>
  else
    b <| o_slots ::= alter (fun t => t <| e_sending := false |>) i |>
      <| o_stats ::= fun s => s <| os_send_errors ::= fun n => u32 (n + 1) |> |>.

Definition event_at (b : keemash_mesh_event_outbox) (i : nat) : event_slot_t :=
  nth i (o_slots b) event_zero.

Class EventSink (W : Type) := send_event : bytes -> ST W esp_err_t.

Section Worker.
Context {W : Type} `{!EventSink W}.

(** One round of the inner loop of [event_worker], undisturbed. *)
Definition event_round : ST (keemash_mesh_event_outbox * W) event_next := fun s =>
  let '(next, b) := event_pick s.1 in
  match next with
  | Served i =>
      let '(err, w) := send_event (e_text (event_at b i)) s.2 in
      (if err_eqb err ESP_OK then next else Retry, (event_done i err b, w))
  | _ => (next, (b, s.2))
  end.

(** The inner loop, until it waits, pauses after an error, or exits. *)
Fixpoint event_loop (fuel : nat) : ST (keemash_mesh_event_outbox * W) event_next :=
  match fuel with
  | O => mret (Served 0)
  | S fuel =>
      next ← event_round;
      match next with Served _ => event_loop fuel | _ => mret next end
  end.
End Worker.

(** ** Operations *)

Definition outbox_config_valid (config : event_outbox_config_t) : bool :=
  oc_send config && negb (oc_slots config =? 0)%nat && negb (oc_text_size config <? 2)%nat.

Definition keemash_mesh_event_outbox_init (config : event_outbox_config_t)
  (allocated started : bool) : esp_err_t * option keemash_mesh_event_outbox :=
  if negb (outbox_config_valid config) then (ESP_ERR_INVALID_ARG, None)
  else if negb (allocated && started) then (ESP_ERR_NO_MEM, None)
  else
    let config := if oc_retry_ms config =? 0 then config <| oc_retry_ms := 250 |> else config in
    (ESP_OK, Some {| o_cfg := config; o_task := true;
                     o_slots := replicate (oc_slots config) event_zero; o_next_ticket := 0;
                     o_stopping := false; o_stats := outbox_stats_zero |}).

Definition keemash_mesh_event_outbox_deinit (lock exited : bool)
  (b : keemash_mesh_event_outbox) : option keemash_mesh_event_outbox :=
  let b := if lock then b <| o_stopping := true |> else b in
  let b := if o_stopping b && exited then b <| o_task := false |> else b in
  if o_task b then Some b else None.

(** [strncmp(a, b, sizeof(slot->key)) == 0] *)
Definition key_eq (a b : bytes) : bool :=
  bytes_eqb (take EVENT_KEY_MAX a) (take EVENT_KEY_MAX b).

(** [text[0]] is a character and the text fits its buffer. *)
Definition text_fits (b : keemash_mesh_event_outbox) (text : bytes) : bool :=
  (length text <? oc_text_size (o_cfg b))%nat.

Definition keyed_slot (key : bytes) (t : event_slot_t) : bool :=
  e_used t && negb (e_sending t) && key_eq (e_key t) key.

(** Filling the free slot [i]. *)
Definition fill_slot (i : nat) (key text : bytes) (b : keemash_mesh_event_outbox)
  : keemash_mesh_event_outbox :=
  let ticket := u32 (o_next_ticket b + 1) in
  b <| o_next_ticket := ticket |>
    <| o_slots ::= <[i := {| e_used := true; e_sending := false; e_ticket := ticket;
                             e_key := take (EVENT_KEY_MAX - 1) key; e_text := text |}]> |>
    <| o_stats ::= fun s => s <| os_accepted ::= fun n => u32 (n + 1) |>
                              <| os_pending ::= fun n => u32 (n + 1) |> |>.

Definition overflow (b : keemash_mesh_event_outbox) : keemash_mesh_event_outbox :=
  b <| o_stats ::= fun s => s <| os_overflow ::= fun n => u32 (n + 1) |> |>.

(** [replace_key] is [[]] when NULL or empty. *)
Definition keemash_mesh_event_outbox_enqueue (lock : bool) (replace_key text : bytes)
  : ST keemash_mesh_event_outbox esp_err_t := fun b =>
  if (length text =? 0)%nat then (ESP_ERR_INVALID_ARG, b)
  else if negb (text_fits b text) then (ESP_ERR_INVALID_SIZE, b)
  else if negb lock then (ESP_ERR_TIMEOUT, b)
  else
    match (if (length replace_key =? 0)%nat then None
           else find_idx (keyed_slot replace_key) (o_slots b)) with
    | Some i =>
        let ticket := u32 (o_next_ticket b + 1) in
        (ESP_OK, b <| o_next_ticket := ticket |>
                   <| o_slots ::= alter (fun t => t <| e_text := text |>
                                                   <| e_ticket := ticket |>) i |>
                   <| o_stats ::= fun s => s <| os_coalesced ::= fun n => u32 (n + 1) |> |>)
    | None =>
        match free_locked b with
        | None => (ESP_ERR_NO_MEM, overflow b)
        | Some i => (ESP_OK, update_high_watermark_locked (fill_slot i replace_key text b))
        end
    end.

(** The loop that stores a group.  A missing free slot (a NULL dereference in
    the code) is left out: the count checked before the loop excludes it. *)
Fixpoint store_group (texts : list bytes) (b : keemash_mesh_event_outbox)
  : keemash_mesh_event_outbox :=
  match texts with
  | [] => b
  | text :: texts =>
      match free_locked b with
      | None => b
      | Some i => store_group texts (fill_slot i [] text b)
      end
  end.

Definition keemash_mesh_event_outbox_enqueue_group (lock : bool) (texts : list bytes)
  : ST keemash_mesh_event_outbox esp_err_t := fun b =>
  if (length texts =? 0)%nat || (oc_slots (o_cfg b) <? length texts)%nat
  then (ESP_ERR_INVALID_ARG, b)
  else if existsb (fun t => (length t =? 0)%nat || negb (text_fits b t)) texts
  then (ESP_ERR_INVALID_SIZE, b)
  else if negb lock then (ESP_ERR_TIMEOUT, b)
  else if (count_if (fun t => negb (e_used t)) (o_slots b) <? length texts)%nat
  then (ESP_ERR_NO_MEM, overflow b)
  else (ESP_OK, update_high_watermark_locked (store_group texts b)).

Definition keemash_mesh_event_outbox_stats (lock : bool) (b : keemash_mesh_event_outbox)
  : event_outbox_stats_t := if lock then o_stats b else outbox_stats_zero.

(** ** Bookkeeping *)

Definition events_pending (b : keemash_mesh_event_outbox) : nat := count_if e_used (o_slots b).
Definition events_free (b : keemash_mesh_event_outbox) : nat :=
  count_if (fun t => negb (e_used t)) (o_slots b).

Record outbox_wf (b : keemash_mesh_event_outbox) : Prop := {
  ow_small : Z.of_nat (oc_slots (o_cfg b)) <= UINT16_MAX;
  ow_length : length (o_slots b) = oc_slots (o_cfg b);
  ow_pending : os_pending (o_stats b) = Z.of_nat (events_pending b);
  ow_accepted : os_accepted (o_stats b)
                = u32 (os_delivered (o_stats b) + os_pending (o_stats b));
  ow_high : os_pending (o_stats b) <= os_high_watermark (o_stats b)
            <= Z.of_nat (oc_slots (o_cfg b)) }.

(** The same without the watermark, which a group updates once at its end. *)
Record outbox_counts (b : keemash_mesh_event_outbox) : Prop := {
  oc_small : Z.of_nat (oc_slots (o_cfg b)) <= UINT16_MAX;
  oc_length : length (o_slots b) = oc_slots (o_cfg b);
  oc_pending : os_pending (o_stats b) = Z.of_nat (events_pending b);
  oc_accepted : os_accepted (o_stats b)
                = u32 (os_delivered (o_stats b) + os_pending (o_stats b));
  oc_high : 0 <= os_high_watermark (o_stats b) <= Z.of_nat (oc_slots (o_cfg b)) }.

Lemma wf_counts b : outbox_wf b -> outbox_counts b.
Proof. intros [H1 H2 H3 H4 H5]. split; try done. lia. Qed.

Lemma pending_le b : outbox_counts b -> (events_pending b <= oc_slots (o_cfg b))%nat.
Proof. intros H. rewrite <- (oc_length b H). apply count_if_le. Qed.

Lemma high_wf b : outbox_counts b -> outbox_wf (update_high_watermark_locked b).
Proof.
  intros H. pose proof (pending_le b H) as Hp. destruct H as [H1 H2 H3 H4 H5].
  unfold update_high_watermark_locked. split_if; bools.
  - split; cbn; unfold events_pending in *; cbn; try done. lia.
  - split; try done. lia.
Qed.

Lemma free_locked_spec b i :
  free_locked b = Some i -> exists t, o_slots b !! i = Some t /\ e_used t = false.
Proof.
  intros H. apply find_idx_Some in H as [(t & Hi & Hu) _]. apply negb_true_iff in Hu. eauto.
Qed.

Lemma pending_insert b i t t' b' :
  o_slots b !! i = Some t -> o_slots b' = <[i := t']> (o_slots b) ->
  (events_pending b' + (if e_used t then 1 else 0)
   = events_pending b + (if e_used t' then 1 else 0))%nat.
Proof. intros Hi Hs. unfold events_pending. rewrite Hs. by apply count_if_insert. Qed.

Lemma pending_free b : (events_pending b + events_free b = length (o_slots b))%nat.
Proof. apply count_if_negb. Qed.

Lemma fill_counts i t key text b :
  o_slots b !! i = Some t -> e_used t = false -> outbox_counts b ->
  outbox_counts (fill_slot i key text b).
Proof.
  intros Hi Hu H. pose proof (pending_le b H). destruct H as [H1 H2 H3 H4 H5].
  set (b' := fill_slot i key text b).
  pose proof (pending_insert b i t _ b' Hi eq_refl) as Hc. rewrite Hu in Hc. cbn in Hc.
  unfold UINT16_MAX in *. split; cbn; rewrite ?length_insert; try done.
  - rewrite H3, u32_id by words. lia.
  - rewrite H4. words.
Qed.

Lemma alter_counts i t f b b' :
  o_slots b !! i = Some t -> e_used (f t) = e_used t ->
  o_slots b' = alter f i (o_slots b) -> o_cfg b' = o_cfg b ->
  os_pending (o_stats b') = os_pending (o_stats b) ->
  os_accepted (o_stats b') = os_accepted (o_stats b) ->
  os_delivered (o_stats b') = os_delivered (o_stats b) ->
  os_high_watermark (o_stats b') = os_high_watermark (o_stats b) ->
  outbox_wf b -> outbox_wf b'.
Proof.
  intros Hi Hf Hs Hc Hp Ha Hd Hh [H1 H2 H3 H4 H5].
  assert (Hs' : o_slots b' = <[i := f t]> (o_slots b)) by (rewrite Hs; by apply alter_insert).
  pose proof (pending_insert b i t (f t) b' Hi Hs') as Hn. rewrite Hf in Hn.
  split; rewrite ?Hc, ?Hp, ?Ha, ?Hd, ?Hh; try done.
  - by rewrite Hs', length_insert.
  - rewrite H3. lia.
Qed.

Lemma overflow_wf b : outbox_wf b -> outbox_wf (overflow b).
Proof. intros [H1 H2 H3 H4 H5]. by split. Qed.

Lemma enqueue_wf lock key text b :
  outbox_wf b -> outbox_wf (keemash_mesh_event_outbox_enqueue lock key text b).2.
Proof.
  intros H. unfold keemash_mesh_event_outbox_enqueue.
  do 3 (split_if; [done|]).
  destruct (if (length key =? 0)%nat then None else _) as [i|] eqn:Ek.
  - destruct (length key =? 0)%nat; [done|].
    apply find_idx_Some in Ek as [(t & Hi & _) _].
    by eapply (alter_counts i t (fun t => (t <| e_text := text |>) <| e_ticket := _ |>)).
  - destruct (free_locked b) as [i|] eqn:Ef; [|by apply overflow_wf].
    apply free_locked_spec in Ef as (t & Hi & Hu).
    apply high_wf. eapply fill_counts; [done..|]. by apply wf_counts.
Qed.

Lemma store_group_counts texts b : outbox_counts b -> outbox_counts (store_group texts b).
Proof.
  revert b. induction texts as [|text texts IH]; intros b H; [done|]. cbn [store_group].
  destruct (free_locked b) as [i|] eqn:Ef; [|done].
  apply free_locked_spec in Ef as (t & Hi & Hu).
  apply IH. by eapply fill_counts.
Qed.

Lemma enqueue_group_wf lock texts b :
  outbox_wf b -> outbox_wf (keemash_mesh_event_outbox_enqueue_group lock texts b).2.
Proof.
  intros H. unfold keemash_mesh_event_outbox_enqueue_group.
  do 3 (split_if; [done|]). split_if; [by apply overflow_wf|].
  apply high_wf, store_group_counts, wf_counts, H.
Qed.

(** ** Interleaving with the worker *)

(** [Some i]: the worker holds slot [i] while its send callback runs. *)
Inductive outbox_step : keemash_mesh_event_outbox * option nat ->
                        keemash_mesh_event_outbox * option nat -> Prop :=
  | ostep_enqueue b pc lock key text :
      outbox_step (b, pc) ((keemash_mesh_event_outbox_enqueue lock key text b).2, pc)
  | ostep_group b pc lock texts :
      outbox_step (b, pc) ((keemash_mesh_event_outbox_enqueue_group lock texts b).2, pc)
  | ostep_pick b b' i : event_pick b = (Served i, b') -> outbox_step (b, None) (b', Some i)
  | ostep_done b i err : outbox_step (b, Some i) (event_done i err b, None)
  | ostep_wait b b' next :
      event_pick b = (next, b') -> next = Wait \/ next = Exit -> outbox_step (b, None) (b', None)
  | ostep_stop b b' pc lock :
      keemash_mesh_event_outbox_deinit lock false b = Some b' -> outbox_step (b, pc) (b', pc).

Inductive outbox_reachable : keemash_mesh_event_outbox * option nat -> Prop :=
  | outbox_start config b :
      Z.of_nat (oc_slots config) <= UINT16_MAX ->
      keemash_mesh_event_outbox_init config true true = (ESP_OK, Some b) ->
      outbox_reachable (b, None)
  | outbox_next s s' : outbox_reachable s -> outbox_step s s' -> outbox_reachable s'.

(** The slot the worker holds is in use, marked, and the only marked one. *)
Definition worker_slot (b : keemash_mesh_event_outbox) (pc : option nat) : Prop :=
  (forall i, pc = Some i ->
     exists t, o_slots b !! i = Some t /\ e_used t = true /\ e_sending t = true) /\
  (forall i t, o_slots b !! i = Some t -> e_sending t = true -> pc = Some i).

(** Changes of free or unmarked slots into unmarked ones leave the worker's
    slot alone. *)
Lemma worker_slot_insert b b' pc i t t' :
  o_slots b !! i = Some t -> e_used t = false \/ e_sending t = false ->
  e_sending t' = false -> o_slots b' = <[i := t']> (o_slots b) ->
  worker_slot b pc -> worker_slot b' pc.
Proof.
  intros Hi Ht Ht' Hs [H1 H2]. split.
  - intros k Hk. destruct (H1 k Hk) as (u & Hu & Hu1 & Hu2). exists u.
    rewrite Hs, list_lookup_insert_ne; [done|]. intros ->.
    rewrite Hi in Hu. injection Hu as ->. destruct Ht; congruence.
  - intros k u Hk Hsu. rewrite Hs in Hk.
    apply list_lookup_insert_Some in Hk as [(_ & <- & _)|[_ Hk]]; [congruence|by eapply H2].
Qed.

Lemma worker_slot_same b b' pc :
  o_slots b' = o_slots b -> worker_slot b pc -> worker_slot b' pc.
Proof. unfold worker_slot. by intros ->. Qed.

Lemma slots_high b : o_slots (update_high_watermark_locked b) = o_slots b.
Proof. unfold update_high_watermark_locked. by split_if. Qed.

Lemma enqueue_worker lock key text b pc :
  worker_slot b pc -> worker_slot (keemash_mesh_event_outbox_enqueue lock key text b).2 pc.
Proof.
  intros H. unfold keemash_mesh_event_outbox_enqueue.
  do 3 (split_if; [done|]).
  destruct (if (length key =? 0)%nat then None else _) as [i|] eqn:Ek.
  - destruct (length key =? 0)%nat; [done|].
    apply find_idx_Some in Ek as [(t & Hi & Hk) _]. unfold keyed_slot in Hk. bools.
    eapply worker_slot_insert with (t := t); [done|by right| | |done].
    2: cbn; by erewrite alter_insert by done. done.
  - destruct (free_locked b) as [i|] eqn:Ef; [|by eapply worker_slot_same].
    apply free_locked_spec in Ef as (t & Hi & Hu). cbn [snd].
    eapply worker_slot_same; [apply slots_high|].
    eapply worker_slot_insert with (t := t) (b := b); [done|by left| | |done].
    2: done. done.
Qed.

Lemma store_group_worker texts b pc : worker_slot b pc -> worker_slot (store_group texts b) pc.
Proof.
  revert b. induction texts as [|text texts IH]; intros b H; [done|]. cbn [store_group].
  destruct (free_locked b) as [i|] eqn:Ef; [|done].
  apply free_locked_spec in Ef as (t & Hi & Hu). apply IH.
  eapply worker_slot_insert with (t := t) (b := b); [done|by left| | |done].
  2: done. done.
Qed.

Lemma group_worker lock texts b pc :
  worker_slot b pc -> worker_slot (keemash_mesh_event_outbox_enqueue_group lock texts b).2 pc.
Proof.
  intros H. unfold keemash_mesh_event_outbox_enqueue_group.
  do 3 (split_if; [done|]). split_if; [by eapply worker_slot_same|].
  eapply worker_slot_same; [apply slots_high|]. by apply store_group_worker.
Qed.

Inductive event_pick_result (b b' : keemash_mesh_event_outbox) : event_next -> Prop :=
  | epick_exit : o_stopping b = true -> b' = b <| o_task := false |> -> event_pick_result b b' Exit
  | epick_wait : o_stopping b = false ->
      (forall t, t ∈ o_slots b -> waiting t = false) -> b' = b -> event_pick_result b b' Wait
  | epick_slot i t : o_stopping b = false -> best_from 0 None (o_slots b) = Some (i, t) ->
      o_slots b !! i = Some t -> e_used t = true -> e_sending t = false ->
      b' = b <| o_slots ::= <[i := t <| e_sending := true |>]> |> ->
      event_pick_result b b' (Served i).

Lemma event_pick_cases b next b' : event_pick b = (next, b') -> event_pick_result b b' next.
Proof.
  unfold event_pick, oldest_locked, pick_next. intros H.
  destruct (o_stopping b) eqn:Es; [injection H as <- <-; by constructor|].
  destruct (best_from 0 None (o_slots b)) as [[i t]|] eqn:E.
  - pose proof (best_Some _ _ _ E) as [Hi Hw]. injection H as <- <-.
    unfold waiting in Hw. cbn in Hw. bools. eapply epick_slot; [done..|].
    by rewrite (alter_insert _ _ _ _ Hi).
  - injection H as <- <-. constructor; [done|by apply best_None|by destruct b].
Qed.

Lemma mark_wf b i t t' :
  o_slots b !! i = Some t -> e_used t' = e_used t ->
  outbox_wf b -> outbox_wf (b <| o_slots ::= <[i := t']> |>).
Proof.
  intros Hi Hu. eapply (alter_counts i t (fun _ => t')); try done.
  exact (eq_sym (alter_insert (fun _ => t') (o_slots b) i t Hi)).
Qed.

Lemma event_done_wf i t err b :
  o_slots b !! i = Some t -> e_used t = true -> outbox_wf b -> outbox_wf (event_done i err b).
Proof.
  intros Hi Hu Hwf. unfold event_done. split_if.
  - pose proof (pending_le b (wf_counts b Hwf)). destruct Hwf as [H1 H2 H3 H4 H5].
    set (b' := (_ <| o_slots ::= _ |>) <| o_stats ::= _ |>).
    assert (Hs : o_slots b' = <[i := event_clear t]> (o_slots b)) by by apply alter_insert.
    pose proof (pending_insert b i t _ b' Hi Hs) as Hc. rewrite Hu in Hc. cbn in Hc.
    unfold UINT16_MAX in *. split; cbn; rewrite ?length_alter; try done.
    + rewrite H3, u32_id by words. lia.
    + rewrite H4. words.
    + rewrite H3 in *. rewrite u32_id by words. lia.
  - eapply (alter_counts i t (fun t => t <| e_sending := false |>)); done.
Qed.

Lemma outbox_step_inv s s' :
  outbox_step s s' -> outbox_wf s.1 /\ worker_slot s.1 s.2 -> outbox_wf s'.1 /\ worker_slot s'.1 s'.2.
Proof.
  intros [b pc lock key text|b pc lock texts|b b' i H|b i err|b b' next H Hn|b b' pc lock H];
    cbn [fst snd]; intros [Hwf Hw].
  - split; [by apply enqueue_wf|by apply enqueue_worker].
  - split; [by apply enqueue_group_wf|by apply group_worker].
  - apply event_pick_cases in H. inversion H as [| |i' t _ _ Hi Hu Hns ->]; subst i'.
    split; [by eapply mark_wf|]. destruct Hw as [H1 H2]. split; cbn.
    + intros k [= <-]. eexists. rewrite list_lookup_insert_eq by by eapply lookup_lt_Some.
      done.
    + intros k u Hk Hku. apply list_lookup_insert_Some in Hk as [(-> & _)|[_ Hk]]; [done|].
      by specialize (H2 k u Hk Hku).
  - destruct Hw as [H1 H2]. destruct (H1 i eq_refl) as (t & Hi & Hu & Hs).
    split; [by eapply event_done_wf|]. split; [done|]. intros k u Hk Hku. exfalso.
    assert (Hk' : o_slots (event_done i err b) !! k = Some u -> e_sending u = true ->
      o_slots b !! k = Some u /\ i <> k).
    { unfold event_done. destruct (err_eqb err ESP_OK); cbn; intros Hl He.
      all: apply list_alter_Some in Hl as [(_ & v & _ & ->)|[Hne Hl]]; done. }
    destruct (Hk' Hk Hku) as [Hb Hne]. specialize (H2 k u Hb Hku). congruence.
  - apply event_pick_cases in H. destruct H as [_ ->|_ _ ->|i t]; [|done|by destruct Hn].
    split; [by destruct Hwf|done].
  - unfold keemash_mesh_event_outbox_deinit in H. rewrite andb_false_r in H.
    destruct lock; cbn in H; destruct (o_task b); simplify_eq; [|done].
    split; [by destruct Hwf|done].
Qed.

(** In every state the outbox reaches under concurrent enqueues and sends,
    the statistics are exact: pending counts the events held, accepted is
    delivered plus pending, the watermark lies between pending and the
    capacity; and the only event marked as being sent is the worker's. *)
Theorem outbox_books s : outbox_reachable s -> outbox_wf s.1 /\ worker_slot s.1 s.2.
Proof.
  induction 1 as [config b Hn H|s s' _ IH Hs]; [|by eapply outbox_step_inv].
  unfold keemash_mesh_event_outbox_init in H.
  destruct (outbox_config_valid config); [|done]. cbn [negb andb] in H. injection H as <-.
  assert (Hz : forall n, count_if e_used (replicate n event_zero) = 0%nat).
  { intros n. apply count_if_zero. intros t Ht. by apply elem_of_replicate in Ht as [-> _]. }
  split; cbn [fst snd].
  - destruct (oc_retry_ms config =? 0); split; unfold events_pending; cbn;
      rewrite ?length_replicate, ?Hz; try done; lia.
  - split; [done|]. cbn. intros i t Ht Hs. by apply lookup_replicate in Ht as [-> _].
Qed.

(** ** Groups *)

(** [texts] were put into the free slots [idxs] with consecutive tickets. *)
Definition stored (b b' : keemash_mesh_event_outbox) (idxs : list nat) (texts : list bytes)
  : Prop :=
  length idxs = length texts /\ NoDup idxs /\
  (forall k i text, idxs !! k = Some i -> texts !! k = Some text ->
     (exists old, o_slots b !! i = Some old /\ e_used old = false) /\
     o_slots b' !! i = Some {| e_used := true; e_sending := false;
                               e_ticket := u32 (o_next_ticket b + 1 + Z.of_nat k);
                               e_key := []; e_text := text |}) /\
  (forall j, j ∉ idxs -> o_slots b' !! j = o_slots b !! j).

Lemma events_free_fill i t key text b :
  o_slots b !! i = Some t -> e_used t = false ->
  S (events_free (fill_slot i key text b)) = events_free b.
Proof.
  intros Hi Hu. unfold events_free, fill_slot. cbn.
  pose proof (count_if_insert (fun t => negb (e_used t)) (o_slots b) i t
    {| e_used := true; e_sending := false; e_ticket := u32 (o_next_ticket b + 1);
       e_key := take 15 key; e_text := text |} Hi) as Hc.
  cbn beta in Hc. rewrite Hu in Hc. cbn in Hc. cbn. lia.
Qed.

Lemma store_group_stored texts b :
  (length texts <= events_free b)%nat ->
  exists idxs, stored b (store_group texts b) idxs texts.
Proof.
  revert b. induction texts as [|text texts IH]; intros b Hf.
  { exists []. repeat split; [constructor|done..]. }
  cbn [store_group length] in *.
  destruct (free_locked b) as [i|] eqn:Ef.
  2: { apply find_idx_None_count in Ef. unfold events_free in Hf. lia. }
  apply free_locked_spec in Ef as (t & Hi & Hu).
  destruct (IH (fill_slot i [] text b)) as (idxs & Hlen & Hnd & Hst & Hother).
  { pose proof (events_free_fill i t [] text b Hi Hu). lia. }
  assert (Hslot : o_slots (fill_slot i [] text b) !! i = Some {| e_used := true;
    e_sending := false; e_ticket := u32 (o_next_ticket b + 1); e_key := []; e_text := text |}).
  { cbn. rewrite list_lookup_insert_eq by by eapply lookup_lt_Some. done. }
  assert (Hni : i ∉ idxs).
  { intros Hin. apply list_elem_of_lookup in Hin as [k Hk].
    destruct (lookup_lt_is_Some_2 texts k) as [tx Htx].
    { rewrite <- Hlen. by eapply lookup_lt_Some. }
    destruct (Hst k i tx Hk Htx) as [(old & Ho & Hou) _]. rewrite Hslot in Ho. by injection Ho as <-. }
  exists (i :: idxs). split; [cbn; lia|]. split; [by constructor|]. split.
  - intros [|k] j tx Hj Htx; cbn in Hj, Htx.
    + injection Hj as <-. injection Htx as <-. split; [by eauto|].
      rewrite Hother, Hslot, Z.add_0_r by done. done.
    + destruct (Hst k j tx Hj Htx) as [(old & Ho & Hou) Hb']. 
      assert (Hne : i <> j).
      { intros ->. apply Hni. by eapply list_elem_of_lookup_2. }
      cbn in Ho. rewrite list_lookup_insert_ne in Ho by done. split; [by eauto|].
      rewrite Hb'. do 2 f_equal. cbn [fill_slot o_next_ticket set_field upd_field setter].
      rewrite <- Z.add_assoc, u32_add_l. f_equal. lia.
  - intros j Hj. apply not_elem_of_cons in Hj as [Hne Hj].
    rewrite Hother by done. cbn. by rewrite list_lookup_insert_ne.
Qed.

(** C30: a group is queued whole, each text in a slot that was free and with
    consecutive tickets in the order given, or not at all. *)
Theorem enqueue_group_atomic lock texts b :
  let r := keemash_mesh_event_outbox_enqueue_group lock texts b in
  (r.1 = ESP_OK /\ exists idxs, stored b r.2 idxs texts) \/
  (r.1 <> ESP_OK /\ o_slots r.2 = o_slots b /\ o_next_ticket r.2 = o_next_ticket b).
Proof.
  cbv zeta. unfold keemash_mesh_event_outbox_enqueue_group.
  do 4 (split_if; [by right|]). left. split; [done|].
  destruct (store_group_stored texts b) as (idxs & H1 & H2 & H3 & H4).
  { unfold events_free. by apply Nat.ltb_ge. }
  exists idxs. cbn [snd]. unfold stored. rewrite slots_high. done.
Qed.

(** ** The order of delivery *)

Definition event_age (next : Z) (t : event_slot_t) : Z := u32 (next - e_ticket t).

Definition events_in_window (b : keemash_mesh_event_outbox) : Prop :=
  forall t, t ∈ o_slots b -> e_used t = true -> event_age (o_next_ticket b) t < 2147483648.

Definition older (next : Z) (x y : event_slot_t) : Prop := event_age next y <= event_age next x.

Definition event_rank (next : Z) (t : event_slot_t) : Z := - event_age next t.

Lemma event_ranked next l :
  (forall t, t ∈ l -> e_used t = true -> event_age next t < 2147483648) ->
  ranked (event_rank next) l.
Proof.
  intros Hwin x y Hx Hy Hwx Hwy. unfold waiting in *. cbn in *. bools.
  assert (Hax : event_age next x < 2147483648) by auto.
  assert (Hay : event_age next y < 2147483648) by auto.
  unfold event_before, event_rank, event_age in *.
  apply eq_true_iff_eq. rewrite !Z.ltb_lt.
  generalize (e_ticket x), (e_ticket y), Hax, Hay. clear. intros. words.
Qed.

Section Loop.
Context {W : Type} `{!EventSink W}.

Definition send_slot (w : W) (t : event_slot_t) : W := (send_event (e_text t) w).2.

Definition idle (l : list event_slot_t) : Prop := forall t, t ∈ l -> e_sending t = false.

Lemma idle_waiting l : idle l -> waiting_of l = List.filter e_used l.
Proof.
  intros H. apply filter_ext_in. intros t Ht%list_elem_of_In. unfold waiting. cbn.
  by rewrite (H t Ht), andb_true_r.
Qed.

Lemma idle_insert l i t : idle l -> e_sending t = false -> idle (<[i := t]> l).
Proof.
  intros H Ht y Hy. apply list_elem_of_lookup in Hy as [j Hj].
  apply list_lookup_insert_Some in Hj as [(_ & <- & _)|[_ Hj]]; [done|].
  by apply H, (list_elem_of_lookup_2 _ j).
Qed.

Lemma sort_by_age next (l : list event_slot_t) :
  exists l', l' ≡ₚ l /\ StronglySorted (older next) l'.
Proof.
  assert (RelDecision (older next)) by (intros x y; unfold older; apply _).
  exists (merge_sort (older next) l). split; [apply merge_sort_Permutation|].
  apply StronglySorted_merge_sort; unfold older; intros ?**; lia.
Qed.

(** One round on an idle queue. *)
Lemma event_round_cases b w :
  o_stopping b = false -> idle (o_slots b) ->
  match best_from 0 None (o_slots b) with
  | None => event_round (b, w) = (Wait, (b, w))
  | Some (i, t) =>
      exists b', o_stopping b' = false /\ o_next_ticket b' = o_next_ticket b /\
      event_round (b, w)
      = (if err_eqb (send_event (e_text t) w).1 ESP_OK then Served i else Retry,
         (b', send_slot w t)) /\
      o_slots b' = (if err_eqb (send_event (e_text t) w).1 ESP_OK
                    then <[i := event_clear t]> (o_slots b) else o_slots b)
  end.
Proof.
  intros Hs Hidle. unfold event_round. cbn [fst snd].
  destruct (event_pick b) as [next b1] eqn:Ep. apply event_pick_cases in Ep.
  destruct Ep as [Hst _|_ Hn ->|i t _ E Hi Hu Hns Hb1].
  - congruence.
  - destruct (best_from 0 None (o_slots b)) as [[i t]|] eqn:E; [|done].
    apply best_Some in E as [Hi Hw]. by rewrite (Hn t) in Hw by by eapply list_elem_of_lookup_2.
  - rewrite E. assert (Hat : event_at b1 i = t <| e_sending := true |>).
    { unfold event_at. rewrite Hb1. cbn [o_slots upd_field setter].
      erewrite nth_lookup_Some; [done|].
      by rewrite list_lookup_insert_eq by by eapply lookup_lt_Some. }
    rewrite Hat. change (e_text (t <| e_sending := true |>)) with (e_text t).
    unfold send_slot. destruct (send_event (e_text t) w) as [err w'] eqn:Er. cbn [fst snd].
    exists (event_done i err b1). rewrite Hb1. unfold event_done.
    assert (Halter : forall f, alter f i (<[i := t <| e_sending := true |>]> (o_slots b))
      = <[i := f (t <| e_sending := true |>)]> (o_slots b)).
    { intros f. rewrite (alter_insert f _ i (t <| e_sending := true |>)).
      - apply list_insert_insert_eq.
      - by rewrite list_lookup_insert_eq by by eapply lookup_lt_Some. }
    destruct (err_eqb err ESP_OK); cbn; (split; [done|]; split; [done|]; split; [done|]).
    + by rewrite Halter.
    + rewrite Halter. apply list_insert_id. rewrite Hi. f_equal. destruct t. cbn in *. by subst.
Qed.

Lemma event_loop_sorted next fuel b w :
  o_next_ticket b = next -> o_stopping b = false -> idle (o_slots b) ->
  (forall t, t ∈ o_slots b -> e_used t = true -> event_age next t < 2147483648) ->
  (events_pending b < fuel)%nat ->
  exists b' sent kept,
    List.filter e_used (o_slots b) ≡ₚ sent ++ kept /\
    StronglySorted (older next) (sent ++ kept) /\
    (event_loop fuel (b, w) = (Wait, (b', fold_left send_slot sent w)) /\ kept = [] /\
     events_pending b' = 0%nat
     \/ exists t later, kept = t :: later /\
        event_loop fuel (b, w) = (Retry, (b', fold_left send_slot (sent ++ [t]) w)) /\
        (send_event (e_text t) (fold_left send_slot sent w)).1 <> ESP_OK /\
        List.filter e_used (o_slots b') ≡ₚ kept).
Proof.
  revert b w. induction fuel as [|fuel IH]; intros b w Hnx Hs Hidle Hwin Hf; [lia|].
  cbn [event_loop]. rewrite bind_eq. pose proof (event_round_cases b w Hs Hidle) as Hr.
  pose proof (event_ranked next (o_slots b) Hwin) as Hrank.
  rewrite <- (idle_waiting _ Hidle).
  destruct (best_from 0 None (o_slots b)) as [[i t]|] eqn:E.
  2: { rewrite Hr. cbn [fst snd]. exists b, [], []. 
       assert (Hn : waiting_of (o_slots b) = []).
       { destruct (waiting_of (o_slots b)) as [|y k] eqn:Ek; [done|].
         assert (Hy : y ∈ waiting_of (o_slots b)) by (rewrite Ek; left).
         apply waiting_of_In in Hy as [Hy Hw]. by rewrite (best_None _ E y Hy) in Hw. }
       rewrite Hn. split; [done|]. split; [constructor|]. left. split; [done|]. split; [done|].
       apply count_if_zero. intros y Hy. pose proof (best_None _ E y Hy) as Hw.
       unfold waiting in Hw. cbn in Hw. by rewrite (Hidle y Hy), andb_true_r in Hw. }
  destruct Hr as (b' & Hs' & Hn' & Hr & Hsl). rewrite Hr. cbn [fst snd].
  pose proof (best_Some _ _ _ E) as [Hi Hw].
  pose proof (waiting_of_insert (o_slots b) i t (event_clear t) Hi Hw eq_refl) as Hperm.
  assert (Hmin : forall y, y ∈ waiting_of (<[i := event_clear t]> (o_slots b)) -> older next t y).
  { intros y Hy. apply waiting_of_In in Hy as [Hy Hwy].
    assert (Hin : y ∈ o_slots b) by by eapply (waiting_insert_In _ i y (event_clear t)).
    pose proof (best_min _ _ _ _ Hrank E y Hin Hwy) as Hle.
    unfold older, event_rank in *. lia. }
  destruct (err_eqb (send_event (e_text t) w).1 ESP_OK) eqn:Eerr.
  - assert (Hidle' : idle (o_slots b')) by (rewrite Hsl; by apply idle_insert).
    destruct (IH b' (send_slot w t)) as (b2 & sent & kept & Hp & Hsort & Hres).
    + by rewrite Hn'.
    + done.
    + done.
    + rewrite Hsl. intros y Hy Hu. eapply Hwin; [|done].
      eapply (waiting_insert_In _ i y (event_clear t)); [done|done|].
      unfold waiting. cbn. rewrite Hu. rewrite Hsl in Hidle'. by rewrite (Hidle' y Hy).
    + pose proof (pending_insert b i t _ b' Hi Hsl) as Hc. unfold waiting in Hw. cbn in Hw.
      bools. match goal with H : e_used t = true |- _ => rewrite H in Hc end. cbn in Hc. lia.
    + rewrite <- (idle_waiting _ Hidle'), Hsl in Hp.
      exists b2, (t :: sent), kept. split; [by rewrite Hperm, Hp|]. split.
      * cbn. constructor; [done|]. apply Forall_forall. intros y Hy.
        apply Hmin. by rewrite Hp.
      * destruct Hres as [(H1 & H2 & H3)|(u & later & H1 & H2 & H3 & H4)].
        -- left. by rewrite H1.
        -- right. exists u, later. by rewrite H2.
  - apply err_eqb_false in Eerr.
    set (rest := waiting_of (<[i := event_clear t]> (o_slots b))) in *.
    destruct (sort_by_age next rest) as (later & Hl1 & Hl2).
    exists b', [], (t :: later). cbn [app]. split; [by rewrite Hperm, Hl1|]. split.
    + constructor; [done|]. apply Forall_forall. intros y Hy.
      apply Hmin. by rewrite <- Hl1.
    + right. exists t, later. split; [done|]. split; [done|]. split; [done|].
      rewrite Hsl, <- (idle_waiting _ Hidle), Hperm. by rewrite Hl1.
Qed.
End Loop.

(** A worker that nobody disturbs offers the queued events to the send
    callback oldest first.  Either all are accepted and the outbox is empty, or
    the first refused event stops the round and stays queued with all the
    younger ones, so the order survives retries. *)
Theorem event_loop_order {W} `{!EventSink W} b (w : W) fuel :
  o_stopping b = false -> idle (o_slots b) -> events_in_window b ->
  (events_pending b < fuel)%nat ->
  exists b' sent kept,
    List.filter e_used (o_slots b) ≡ₚ sent ++ kept /\
    StronglySorted (older (o_next_ticket b)) (sent ++ kept) /\
    (event_loop fuel (b, w) = (Wait, (b', fold_left send_slot sent w)) /\ kept = [] /\
     events_pending b' = 0%nat
     \/ exists t later, kept = t :: later /\
        event_loop fuel (b, w) = (Retry, (b', fold_left send_slot (sent ++ [t]) w)) /\
        (send_event (e_text t) (fold_left send_slot sent w)).1 <> ESP_OK /\
        List.filter e_used (o_slots b') ≡ₚ kept).
Proof. intros Hs Hi Hw Hf. by apply event_loop_sorted. Qed.

(** ** Examples *)

Definition sample_outbox_config : event_outbox_config_t :=
  {| oc_slots := 3; oc_text_size := 8; oc_retry_ms := 0; oc_send := true |}.

Definition fresh_outbox : keemash_mesh_event_outbox :=
  default {| o_cfg := sample_outbox_config; o_task := false; o_slots := []; o_next_ticket := 0;
             o_stopping := false; o_stats := outbox_stats_zero |}
    (keemash_mesh_event_outbox_init sample_outbox_config true true).2.

Definition door : bytes := [100; 111; 111; 114].
Definition put (text : bytes) (b : keemash_mesh_event_outbox) : keemash_mesh_event_outbox :=
  (keemash_mesh_event_outbox_enqueue true door text b).2.
Definition pick (b : keemash_mesh_event_outbox) : keemash_mesh_event_outbox := (event_pick b).2.

(** "a" is being sent when "b" arrives with the same key; the send fails. *)
Definition door_sending : keemash_mesh_event_outbox := pick (put [97] fresh_outbox).
Definition door_twice : keemash_mesh_event_outbox :=
  event_done 0 ESP_FAIL (put [98] door_sending).

Lemma door_twice_reachable : outbox_reachable (door_twice, None).
Proof.
  assert (H0 : outbox_reachable (fresh_outbox, None)).
  { apply (outbox_start sample_outbox_config); [vm_compute; congruence|reflexivity]. }
  assert (H1 : outbox_reachable (put [97] fresh_outbox, None)).
  { apply (outbox_next _ _ H0). exact (ostep_enqueue fresh_outbox None true door [97]). }
  assert (H2 : outbox_reachable (door_sending, Some 0%nat)).
  { apply (outbox_next _ _ H1). apply ostep_pick. reflexivity. }
  assert (H3 : outbox_reachable (put [98] door_sending, Some 0%nat)).
  { apply (outbox_next _ _ H2). exact (ostep_enqueue door_sending (Some 0%nat) true door [98]). }
  apply (outbox_next _ _ H3). apply ostep_done.
Qed.

(** A keyed enqueue does not always replace the newest waiting event of its
    key: here "a" (ticket 1) and the newer "b" (ticket 2) wait, and enqueueing
    "c" overwrites "a", so that "b" is still sent, before "c". *)
Theorem replace_not_newest :
  outbox_reachable (door_twice, None) /\
  (e_ticket (event_at door_twice 0), e_text (event_at door_twice 0)) = (1, [97]) /\
  (e_ticket (event_at door_twice 1), e_text (event_at door_twice 1)) = (2, [98]) /\
  forallb (keyed_slot door) (take 2 (o_slots door_twice)) = true /\
  (e_ticket (event_at (put [99] door_twice) 0), e_text (event_at (put [99] door_twice) 0))
  = (3, [99]) /\
  event_at (put [99] door_twice) 1 = event_at door_twice 1.
Proof. split; [exact door_twice_reachable|]. by vm_compute. Qed.

Example outbox_books_witness : outbox_wf door_twice /\ worker_slot door_twice None.
Proof. exact (outbox_books (door_twice, None) door_twice_reachable). Defined.

#[local] Instance sample_sink : EventSink (list bytes) :=
  fun text log => (if bytes_eqb text [98] then ESP_FAIL else ESP_OK, log ++ [text]).

Example event_loop_order_witness :
  exists b' sent kept,
    List.filter e_used (o_slots door_twice) ≡ₚ sent ++ kept /\
    StronglySorted (older (o_next_ticket door_twice)) (sent ++ kept) /\
    (event_loop 3 (door_twice, []) = (Wait, (b', fold_left send_slot sent [])) /\ kept = [] /\
     events_pending b' = 0%nat
     \/ exists t later, kept = t :: later /\
        event_loop 3 (door_twice, []) = (Retry, (b', fold_left send_slot (sent ++ [t]) [])) /\
        (send_event (e_text t) (fold_left send_slot sent [])).1 <> ESP_OK /\
        List.filter e_used (o_slots b') ≡ₚ kept).
Proof.
  apply (event_loop_order door_twice [] 3).
  - reflexivity.
  - intros t Ht. vm_compute in Ht.
    repeat (apply elem_of_cons in Ht as [->|Ht]; [reflexivity|]). by apply elem_of_nil in Ht.
  - intros t Ht _. vm_compute in Ht.
    repeat (apply elem_of_cons in Ht as [->|Ht]; [reflexivity|]). by apply elem_of_nil in Ht.
  - vm_compute. lia.
Defined.
