(* ===== verification/KeeLink.v ===== *)
(** * The KeeLink v1 codec (keemash_keelink.c)

    The 32-byte frame header and the TLV fields of the payload.  Memory areas
    are lists of bytes; a writer owns its buffer, a reader looks at its one.
    The [size_t] sums of the source stay below the size of the buffers, so they
    are natural numbers here; the [size_t] of an offset is 32 or 64 bits wide
    and no buffer comes near it. *)

From S2P Require Import Prelude.
From S2P Require Import Words.
From S2P Require Import Esp.
#[local] Open Scope Z_scope.

Definition KEEMASH_KEELINK_VERSION : Z := 1.
Definition KEEMASH_KEELINK_HEADER_SIZE : Z := 32.
Definition KEEMASH_KEELINK_TLV_HEADER_SIZE : nat := 6.
Definition KEEMASH_KEELINK_MAX_PAYLOAD : Z := 4096.
Definition KEEMASH_KEELINK_HELLO : Z := 1.
Definition KEEMASH_KEELINK_ERROR : Z := 9.
Definition KEEMASH_KEELINK_CH_SYSTEM : Z := 1.
Definition KEEMASH_KEELINK_TLV_U32 : Z := 1.
Definition KEEMASH_KEELINK_TLV_U64 : Z := 2.
Definition KEEMASH_KEELINK_TLV_BOOL : Z := 4.
Definition KEEMASH_KEELINK_TLV_UTF8 : Z := 6.

Definition s_magic : bytes := [75; 76; 78; 75].

(** ** The frame header *)

Record keemash_keelink_header_t := {
  k_kind : Z; k_flags : Z; k_channel : Z; k_payload_len : Z; k_session_id : Z;
  k_message_id : Z; k_correlation_id : Z }.

Definition header_bytes (h : keemash_keelink_header_t) : bytes :=
  s_magic ++ le_bytes 1 KEEMASH_KEELINK_VERSION ++ le_bytes 1 (k_kind h) ++
  le_bytes 2 (k_flags h) ++ le_bytes 2 (k_channel h) ++
  le_bytes 2 KEEMASH_KEELINK_HEADER_SIZE ++ le_bytes 4 (k_payload_len h) ++
  le_bytes 8 (k_session_id h) ++ le_bytes 4 (k_message_id h) ++
  le_bytes 4 (k_correlation_id h).

(** [inr out]: the 32 bytes written. *)
Definition keemash_keelink_encode_header (header : keemash_keelink_header_t)
  : esp_err_t + bytes :=
  if (k_kind header <? KEEMASH_KEELINK_HELLO) || (KEEMASH_KEELINK_ERROR <? k_kind header)
     || (KEEMASH_KEELINK_MAX_PAYLOAD <? k_payload_len header)
  then inl ESP_ERR_INVALID_ARG
  else inr (header_bytes header).

(** The state is [*header]: it is filled in before the kind is checked. *)
Definition keemash_keelink_decode_header (frame : bytes)
  : ST keemash_keelink_header_t esp_err_t := fun header =>
  let frame_len := Z.of_nat (length frame) in
  if frame_len <? KEEMASH_KEELINK_HEADER_SIZE then (ESP_ERR_INVALID_SIZE, header)
  else if negb (bytes_eqb (slice 0 4 frame) s_magic)
          || negb (get_u8 frame 4 =? KEEMASH_KEELINK_VERSION)
          || negb (get_le 2 frame 10 =? KEEMASH_KEELINK_HEADER_SIZE)
  then (ESP_ERR_INVALID_VERSION, header)
  else
    let payload_len := get_le 4 frame 12 in
    if (KEEMASH_KEELINK_MAX_PAYLOAD <? payload_len)
       || negb (frame_len =? KEEMASH_KEELINK_HEADER_SIZE + payload_len)
    then (ESP_ERR_INVALID_SIZE, header)
    else
      let header :=
        {| k_kind := get_u8 frame 5; k_flags := get_le 2 frame 6;
           k_channel := get_le 2 frame 8; k_payload_len := payload_len;
           k_session_id := get_le 8 frame 16; k_message_id := get_le 4 frame 24;
           k_correlation_id := get_le 4 frame 28 |} in
      if (k_kind header <? KEEMASH_KEELINK_HELLO) || (KEEMASH_KEELINK_ERROR <? k_kind header)
      then (ESP_ERR_NOT_SUPPORTED, header) else (ESP_OK, header).

Definition keemash_keelink_frame_size (header : keemash_keelink_header_t) : Z :=
  if k_payload_len header <=? KEEMASH_KEELINK_MAX_PAYLOAD
  then KEEMASH_KEELINK_HEADER_SIZE + k_payload_len header else 0.

(** ** Writing fields *)

(** [w_buffer] is the memory of [capacity] bytes the writer was given. *)
Record keemash_keelink_writer_t := { w_buffer : option bytes; w_length : nat }.

#[export] Instance eta_writer : Eta keemash_keelink_writer_t := fun w =>
  Build_keemash_keelink_writer_t (w_buffer w) (w_length w).

Definition keemash_keelink_writer_init (buffer : option bytes) : keemash_keelink_writer_t :=
  {| w_buffer := buffer; w_length := 0 |}.

Definition tlv_bytes (field_id type flags : Z) (data : bytes) : bytes :=
  le_bytes 2 field_id ++ le_bytes 1 type ++ le_bytes 1 flags ++
  le_bytes 2 (Z.of_nat (length data)) ++ data.

Definition keemash_keelink_put (field_id type flags : Z) (data : bytes)
  : ST keemash_keelink_writer_t esp_err_t := fun writer =>
  match w_buffer writer with
  | None => (ESP_ERR_INVALID_ARG, writer)
  | Some buffer =>
      if (field_id =? 0) || (type <? KEEMASH_KEELINK_TLV_U32)
         || (KEEMASH_KEELINK_TLV_UTF8 <? type) || (UINT16_MAX <? Z.of_nat (length data))
      then (ESP_ERR_INVALID_ARG, writer)
      else if (length buffer <? w_length writer + KEEMASH_KEELINK_TLV_HEADER_SIZE + length data)%nat
      then (ESP_ERR_NO_MEM, writer)
      else (ESP_OK,
            {| w_buffer := Some (splice (w_length writer) (tlv_bytes field_id type flags data) buffer);
               w_length := w_length writer + KEEMASH_KEELINK_TLV_HEADER_SIZE + length data |})
  end.

Definition keemash_keelink_put_u32 (field_id value : Z) : ST keemash_keelink_writer_t esp_err_t :=
  keemash_keelink_put field_id KEEMASH_KEELINK_TLV_U32 0 (le_bytes 4 value).
Definition keemash_keelink_put_u64 (field_id value : Z) : ST keemash_keelink_writer_t esp_err_t :=
  keemash_keelink_put field_id KEEMASH_KEELINK_TLV_U64 0 (le_bytes 8 value).
Definition keemash_keelink_put_bool (field_id : Z) (value : bool)
  : ST keemash_keelink_writer_t esp_err_t :=
  keemash_keelink_put field_id KEEMASH_KEELINK_TLV_BOOL 0 [if value then 1 else 0].
Definition keemash_keelink_put_utf8 (field_id : Z) (value : bytes)
  : ST keemash_keelink_writer_t esp_err_t :=
  keemash_keelink_put field_id KEEMASH_KEELINK_TLV_UTF8 0 value.

(** ** Reading fields *)

Record keemash_keelink_reader_t := { rd_buffer : bytes; rd_offset : nat }.

Definition keemash_keelink_reader_init (payload : bytes) : keemash_keelink_reader_t :=
  {| rd_buffer := payload; rd_offset := 0 |}.

(** [length] is the length of [data]. *)
Record keemash_keelink_tlv_t := { tlv_field_id : Z; tlv_type : Z; tlv_flags : Z; tlv_data : bytes }.

Definition keemash_keelink_reader_next
  : ST keemash_keelink_reader_t (esp_err_t + keemash_keelink_tlv_t) := fun reader =>
  let offset := rd_offset reader in
  let total := length (rd_buffer reader) in
  if (offset =? total)%nat then (inl ESP_ERR_NOT_FOUND, reader)
  else if (total <? offset + KEEMASH_KEELINK_TLV_HEADER_SIZE)%nat then (inl ESP_ERR_INVALID_SIZE, reader)
  else
    let p := drop offset (rd_buffer reader) in
    let length := Z.to_nat (get_le 2 p 4) in
    if (total <? offset + KEEMASH_KEELINK_TLV_HEADER_SIZE + length)%nat
    then (inl ESP_ERR_INVALID_SIZE, reader)
    else
      (inr {| tlv_field_id := get_le 2 p 0; tlv_type := get_u8 p 2; tlv_flags := get_u8 p 3;
              tlv_data := slice KEEMASH_KEELINK_TLV_HEADER_SIZE length p |},
       {| rd_buffer := rd_buffer reader;
          rd_offset := offset + KEEMASH_KEELINK_TLV_HEADER_SIZE + length |}).

Definition keemash_keelink_tlv_u32 (tlv : keemash_keelink_tlv_t) : option Z :=
  if negb (tlv_type tlv =? KEEMASH_KEELINK_TLV_U32) || negb (length (tlv_data tlv) =? 4)%nat
  then None else Some (get_le 4 (tlv_data tlv) 0).
Definition keemash_keelink_tlv_u64 (tlv : keemash_keelink_tlv_t) : option Z :=
  if negb (tlv_type tlv =? KEEMASH_KEELINK_TLV_U64) || negb (length (tlv_data tlv) =? 8)%nat
  then None else Some (get_le 8 (tlv_data tlv) 0).
Definition keemash_keelink_tlv_bool (tlv : keemash_keelink_tlv_t) : option bool :=
  if negb (tlv_type tlv =? KEEMASH_KEELINK_TLV_BOOL) || negb (length (tlv_data tlv) =? 1)%nat
     || (1 <? get_u8 (tlv_data tlv) 0)
  then None else Some (negb (get_u8 (tlv_data tlv) 0 =? 0)).

(** The text copied to [out]; its terminator follows it. *)
Definition keemash_keelink_tlv_copy_text (tlv : keemash_keelink_tlv_t) (out_size : nat)
  : bytes :=
  if (out_size =? 0)%nat || negb (tlv_type tlv =? KEEMASH_KEELINK_TLV_UTF8) then []
  else take (Nat.min (length (tlv_data tlv)) (out_size - 1)) (tlv_data tlv).

(** ** The built-in self-test *)

Definition golden : bytes :=
  [0x4b;0x4c;0x4e;0x4b;0x01;0x01;0x00;0x00;0x01;0x00;0x20;0x00;
   0x15;0x00;0x00;0x00;0x08;0x07;0x06;0x05;0x04;0x03;0x02;0x01;
   0x09;0x00;0x00;0x00;0x00;0x00;0x00;0x00;0x01;0x00;0x06;0x00;
   0x05;0x00;0x6e;0x6f;0x64;0x65;0x30;0x02;0x00;0x01;0x00;0x04;
   0x00;0x78;0x56;0x34;0x12].
Definition node0 : bytes := [0x6e; 0x6f; 0x64; 0x65; 0x30].

Definition header_zero : keemash_keelink_header_t :=
  {| k_kind := 0; k_flags := 0; k_channel := 0; k_payload_len := 0; k_session_id := 0;
     k_message_id := 0; k_correlation_id := 0 |}.

Definition keemash_keelink_selftest : bool :=
  let writer := keemash_keelink_writer_init (Some (replicate (128 - 32) 0)) in
  let '(err1, writer) := keemash_keelink_put_utf8 1 node0 writer in
  let '(err2, writer) := keemash_keelink_put_u32 2 0x12345678 writer in
  if negb (err_eqb err1 ESP_OK && err_eqb err2 ESP_OK) then false
  else
    let header :=
      {| k_kind := KEEMASH_KEELINK_HELLO; k_flags := 0; k_channel := KEEMASH_KEELINK_CH_SYSTEM;
         k_payload_len := Z.of_nat (w_length writer); k_session_id := 0x0102030405060708;
         k_message_id := 9; k_correlation_id := 0 |} in
    match keemash_keelink_encode_header header with
    | inl _ => false
    | inr out =>
        let frame := out ++ default [] (w_buffer writer) in
        let frame_len := (32 + w_length writer)%nat in
        if negb (frame_len =? length golden)%nat
           || negb (bytes_eqb (take (length golden) frame) golden) then false
        else
          let '(err, decoded) := keemash_keelink_decode_header (take frame_len frame) header_zero in
          if negb (err_eqb err ESP_OK) || negb (k_session_id decoded =? k_session_id header)
             || negb (k_message_id decoded =? 9) then false
          else
            let reader := keemash_keelink_reader_init
              (slice 32 (Z.to_nat (k_payload_len decoded)) frame) in
            match (keemash_keelink_reader_next reader).1 with
            | inl _ => false
            | inr tlv =>
                let text := keemash_keelink_tlv_copy_text tlv 8 in
                (length text =? 5)%nat && bytes_eqb text node0
            end
    end.

Lemma selftest_passes : keemash_keelink_selftest = true.
Proof. by vm_compute. Qed.

(** ** Headers *)

Definition header_ok (h : keemash_keelink_header_t) : Prop :=
  KEEMASH_KEELINK_HELLO <= k_kind h <= KEEMASH_KEELINK_ERROR /\ is_u16 (k_flags h) /\
  is_u16 (k_channel h) /\ 0 <= k_payload_len h <= KEEMASH_KEELINK_MAX_PAYLOAD /\
  is_u64 (k_session_id h) /\ is_u32 (k_message_id h) /\ is_u32 (k_correlation_id h).

Ltac keelink := unfold header_ok, KEEMASH_KEELINK_HELLO, KEEMASH_KEELINK_ERROR,
  KEEMASH_KEELINK_MAX_PAYLOAD, KEEMASH_KEELINK_HEADER_SIZE, KEEMASH_KEELINK_TLV_U32,
  KEEMASH_KEELINK_TLV_UTF8, KEEMASH_KEELINK_VERSION, KEEMASH_KEELINK_TLV_HEADER_SIZE in *.

Lemma length_header_bytes h : length (header_bytes h) = 32%nat.
Proof. unfold header_bytes. by autorewrite with len. Qed.

Lemma encode_header_ok h :
  header_ok h -> keemash_keelink_encode_header h = inr (header_bytes h).
Proof.
  intros Hh. unfold keemash_keelink_encode_header. split_if; [|done]. exfalso. keelink.
  apply orb_true_iff in Heqb as [Heqb|Heqb]; [apply orb_true_iff in Heqb as [Heqb|Heqb]|];
    bools; lia.
Qed.

Lemma get_u8_le bs off : get_u8 bs off = get_le 1 bs off.
Proof.
  unfold get_u8, get_le, slice. rewrite <- (Nat.add_0_r off) at 1. rewrite <- nth_skipn.
  destruct (drop off bs) as [|b l]; [done|]. cbn. change (take 0 l) with (@nil Z). cbn. lia.
Qed.

Lemma decode_header_bytes h payload h0 :
  header_ok h -> Z.of_nat (length payload) = k_payload_len h ->
  keemash_keelink_decode_header (header_bytes h ++ payload) h0 = (ESP_OK, h).
Proof.
  intros Hh Hl. unfold keemash_keelink_decode_header.
  rewrite length_app, length_header_bytes.
  destruct h as [kind flags ch len session mid cid]. keelink. cbn in Hh, Hl.
  destruct Hh as (H1 & H2 & H3 & H4 & H5 & H6 & H7).
  set (fr := header_bytes _ ++ payload).
  assert (E5 : get_u8 fr 5 = kind).
  { transitivity (u8 kind); [reflexivity|]. apply u8_id. words. }
  assert (E12 : get_le 4 fr 12 = len).
  { transitivity (le_val (le_bytes 4 len)); [reflexivity|]. apply le_val_bytes_4. words. }
  assert (E16 : get_le 8 fr 16 = session).
  { transitivity (le_val (le_bytes 8 session)); [reflexivity|]. by apply le_val_bytes_8. }
  assert (E6 : get_le 2 fr 6 = flags).
  { transitivity (le_val (le_bytes 2 flags)); [reflexivity|]. by apply le_val_bytes_2. }
  assert (E8 : get_le 2 fr 8 = ch).
  { transitivity (le_val (le_bytes 2 ch)); [reflexivity|]. by apply le_val_bytes_2. }
  assert (E24 : get_le 4 fr 24 = mid).
  { transitivity (le_val (le_bytes 4 mid)); [reflexivity|]. by apply le_val_bytes_4. }
  assert (E28 : get_le 4 fr 28 = cid).
  { transitivity (le_val (le_bytes 4 cid)); [reflexivity|]. by apply le_val_bytes_4. }
  rewrite E12, E5, E6, E8, E16, E24, E28.
  replace (Z.of_nat (32 + length payload) <? 32) with false by (symmetry; apply Z.ltb_ge; lia).
  change (slice 0 4 fr) with s_magic. rewrite bytes_eqb_refl.
  change (get_u8 fr 4 =? 1) with true. change (get_le 2 fr 10 =? 32) with true. cbn [negb orb].
  replace (4096 <? len) with false by (symmetry; apply Z.ltb_ge; lia).
  replace (Z.of_nat (32 + length payload) =? 32 + len) with true by (symmetry; apply Z.eqb_eq; lia).
  cbn [negb orb k_kind].
  replace (kind <? 1) with false by (symmetry; apply Z.ltb_ge; lia).
  by replace (9 <? kind) with false by (symmetry; apply Z.ltb_ge; lia).
Qed.

(** Encoding a header and decoding a frame that starts with it gives the
    header back. *)
Theorem header_roundtrip h payload h0 :
  header_ok h -> Z.of_nat (length payload) = k_payload_len h ->
  exists out, keemash_keelink_encode_header h = inr out /\
    keemash_keelink_frame_size h = Z.of_nat (length (out ++ payload)) /\
    keemash_keelink_decode_header (out ++ payload) h0 = (ESP_OK, h).
Proof.
  intros Hh Hl. exists (header_bytes h). split; [by apply encode_header_ok|].
  split; [|by apply decode_header_bytes].
  unfold keemash_keelink_frame_size. rewrite length_app, length_header_bytes. keelink.
  rewrite (proj2 (Z.leb_le _ _)) by apply Hh. lia.
Qed.

Lemma slice_u8 bs off :
  are_bytes bs -> (off < length bs)%nat -> le_bytes 1 (get_u8 bs off) = slice off 1 bs.
Proof. intros Hb Hl. rewrite get_u8_le. apply get_le_bytes; [done|lia]. Qed.

(** The decoder accepts nothing but well-formed frames: what it accepts is
    the encoding of the header it returns, followed by exactly the announced
    number of payload bytes. *)
Theorem decode_header_canonical frame h0 h :
  are_bytes frame -> keemash_keelink_decode_header frame h0 = (ESP_OK, h) ->
  header_ok h /\ exists payload, frame = header_bytes h ++ payload /\
    Z.of_nat (length payload) = k_payload_len h.
Proof.
  intros Hb. unfold keemash_keelink_decode_header. keelink.
  destruct (_ <? 32) eqn:El; [done|].
  destruct (negb (bytes_eqb _ _) || _ || _) eqn:Em; [done|].
  destruct ((4096 <? _) || _) eqn:Ep; [done|].
  destruct ((_ <? 1) || _) eqn:Ek; [done|]. cbn [k_kind] in Ek.
  intros [= <-]. bools. apply Z.leb_gt in Ek || idtac.
  repeat match goal with H : bytes_eqb _ _ = true |- _ => apply bytes_eqb_true in H end.
  assert (Hlen : (32 <= length frame)%nat) by lia.
  split.
  - pose proof (get_le_range 2 frame 6 Hb). pose proof (get_le_range 2 frame 8 Hb).
    pose proof (get_le_range 4 frame 12 Hb). pose proof (get_le_range 8 frame 16 Hb).
    pose proof (get_le_range 4 frame 24 Hb). pose proof (get_le_range 4 frame 28 Hb).
    cbn [k_kind k_flags k_channel k_payload_len k_session_id k_message_id k_correlation_id].
    unfold is_u16, is_u32, is_u64. repeat split; try lia.
  - exists (drop 32 frame). cbn [k_payload_len]. split; [|rewrite length_drop; lia].
    rewrite <- (take_drop 32 frame) at 1. f_equal.
    unfold header_bytes.
    cbn [k_kind k_flags k_channel k_payload_len k_session_id k_message_id k_correlation_id].
    rewrite slice_u8, !get_le_bytes by (done || lia).
    replace s_magic with (slice 0 4 frame) by done.
    replace (le_bytes 1 KEEMASH_KEELINK_VERSION) with (slice 4 1 frame).
    2: { rewrite <- slice_u8 by (done || lia). by f_equal. }
    replace (le_bytes 2 KEEMASH_KEELINK_HEADER_SIZE) with (slice 10 2 frame).
    2: { rewrite <- get_le_bytes by (done || lia). by f_equal. }
    join_slices frame.
    unfold slice. by rewrite drop_0.
Qed.

(** ** Fields *)

Definition tlv_encode (t : keemash_keelink_tlv_t) : bytes :=
  tlv_bytes (tlv_field_id t) (tlv_type t) (tlv_flags t) (tlv_data t).

Definition field_ok (t : keemash_keelink_tlv_t) : Prop :=
  1 <= tlv_field_id t <= UINT16_MAX /\
  KEEMASH_KEELINK_TLV_U32 <= tlv_type t <= KEEMASH_KEELINK_TLV_UTF8 /\
  is_u8 (tlv_flags t) /\ are_bytes (tlv_data t) /\ Z.of_nat (length (tlv_data t)) <= UINT16_MAX.

(** Writing a sequence of fields, as the callers do, stopping at an error. *)
Fixpoint put_all (fields : list keemash_keelink_tlv_t) : ST keemash_keelink_writer_t esp_err_t :=
  match fields with
  | [] => mret ESP_OK
  | t :: fields =>
      and_then (keemash_keelink_put (tlv_field_id t) (tlv_type t) (tlv_flags t) (tlv_data t))
        (put_all fields)
  end.

(** Reading fields until [reader_next] reports an error. *)
Fixpoint read_all (fuel : nat) (reader : keemash_keelink_reader_t)
  : list keemash_keelink_tlv_t * option esp_err_t :=
  match fuel with
  | O => ([], None)
  | S fuel =>
      match keemash_keelink_reader_next reader with
      | (inl err, _) => ([], Some err)
      | (inr t, reader) => let '(ts, err) := read_all fuel reader in (t :: ts, err)
      end
  end.

Lemma length_tlv_encode t : length (tlv_encode t) = (6 + length (tlv_data t))%nat.
Proof. unfold tlv_encode, tlv_bytes. autorewrite with len. lia. Qed.

Lemma put_ok t buf len :
  field_ok t -> (len + length (tlv_encode t) <= length buf)%nat ->
  keemash_keelink_put (tlv_field_id t) (tlv_type t) (tlv_flags t) (tlv_data t)
    {| w_buffer := Some buf; w_length := len |}
  = (ESP_OK, {| w_buffer := Some (splice len (tlv_encode t) buf);
                w_length := len + length (tlv_encode t) |}).
Proof.
  intros (H1 & H2 & H3 & H4 & H5) Hfit. rewrite length_tlv_encode in *.
  unfold keemash_keelink_put. cbn [w_buffer w_length]. keelink.
  replace (tlv_field_id t =? 0) with false by (symmetry; apply Z.eqb_neq; lia).
  replace (tlv_type t <? 1) with false by (symmetry; apply Z.ltb_ge; lia).
  replace (6 <? tlv_type t) with false by (symmetry; apply Z.ltb_ge; lia).
  replace (UINT16_MAX <? _) with false by (symmetry; apply Z.ltb_ge; lia).
  cbn [orb]. replace (length buf <? len + 6 + length (tlv_data t))%nat with false
    by (symmetry; apply Nat.ltb_ge; lia).
  do 2 f_equal. lia.
Qed.

Lemma take_splice len bs buf :
  (len + length bs <= length buf)%nat ->
  take (len + length bs) (splice len bs buf) = take len buf ++ bs.
Proof.
  intros H. unfold splice. rewrite app_assoc.
  rewrite take_app_le by (rewrite length_app, length_take; lia).
  apply take_ge. rewrite length_app, length_take. lia.
Qed.

Lemma put_all_ok fields buf len :
  Forall field_ok fields -> (len + length (concat (tlv_encode <$> fields)) <= length buf)%nat ->
  exists buf', put_all fields {| w_buffer := Some buf; w_length := len |}
    = (ESP_OK, {| w_buffer := Some buf';
                  w_length := len + length (concat (tlv_encode <$> fields)) |}) /\
  length buf' = length buf /\
  take (len + length (concat (tlv_encode <$> fields))) buf'
  = take len buf ++ concat (tlv_encode <$> fields).
Proof.
  intros Hf. revert buf len. induction Hf as [|t fields Ht _ IH]; intros buf len Hfit.
  { exists buf. cbn. by rewrite Nat.add_0_r, app_nil_r. }
  cbn [fmap list_fmap concat put_all] in *. rewrite length_app in *.
  unfold and_then. rewrite bind_eq, put_ok by (done || lia). cbn [fst snd].
  change (err_eqb ESP_OK ESP_OK) with true. cbv iota.
  destruct (IH (splice len (tlv_encode t) buf) (len + length (tlv_encode t))%nat)
    as (buf' & H1 & Hl & H2).
  { rewrite length_splice by lia. lia. }
  exists buf'. rewrite H1. split; [do 2 f_equal; lia|].
  rewrite length_splice in Hl by lia. split; [done|].
  rewrite Nat.add_assoc, H2, take_splice by lia. by rewrite app_assoc.
Qed.

Lemma next_encoded t pre post :
  field_ok t ->
  keemash_keelink_reader_next {| rd_buffer := pre ++ tlv_encode t ++ post; rd_offset := length pre |}
  = (inr t, {| rd_buffer := pre ++ tlv_encode t ++ post;
               rd_offset := length (pre ++ tlv_encode t) |}).
Proof.
  intros (H1 & H2 & H3 & H4 & H5). unfold keemash_keelink_reader_next. cbn [rd_buffer rd_offset].
  rewrite drop_app_length, !length_app, length_tlv_encode. keelink.
  replace (length pre =? _)%nat with false by (symmetry; apply Nat.eqb_neq; lia).
  replace (_ <? length pre + 6)%nat with false by (symmetry; apply Nat.ltb_ge; lia).
  destruct t as [id type flags data]. cbn [tlv_field_id tlv_type tlv_flags tlv_data] in *.
  set (p := tlv_encode {| tlv_field_id := id; tlv_type := type; tlv_flags := flags;
                           tlv_data := data |} ++ post).
  assert (E4 : get_le 2 p 4 = Z.of_nat (length data)).
  { transitivity (le_val (le_bytes 2 (Z.of_nat (length data)))); [reflexivity|].
    apply le_val_bytes_2. words. }
  assert (E0 : get_le 2 p 0 = id).
  { transitivity (le_val (le_bytes 2 id)); [reflexivity|]. apply le_val_bytes_2. words. }
  assert (E2 : get_u8 p 2 = type).
  { transitivity (u8 type); [reflexivity|]. apply u8_id. words. }
  assert (E3 : get_u8 p 3 = flags) by (transitivity (u8 flags); [reflexivity|by apply u8_id]).
  assert (E6 : slice 6 (length data) p = data).
  { change p with ((le_bytes 2 id ++ le_bytes 1 type ++ le_bytes 1 flags ++
      le_bytes 2 (Z.of_nat (length data))) ++ data ++ post).
    unfold slice. rewrite drop_app_length'. 2: done. apply take_app_length. }
  rewrite E4, Nat2Z.id, E0, E2, E3, E6.
  replace (_ <? length pre + 6 + length data)%nat with false by (symmetry; apply Nat.ltb_ge; lia).
  do 2 f_equal. lia.
Qed.

Lemma read_all_encoded fields pre fuel :
  Forall field_ok fields -> (length fields < fuel)%nat ->
  read_all fuel {| rd_buffer := pre ++ concat (tlv_encode <$> fields); rd_offset := length pre |}
  = (fields, Some ESP_ERR_NOT_FOUND).
Proof.
  intros Hf. revert pre fuel. induction Hf as [|t fields Ht _ IH]; intros pre [|fuel] Hl;
    cbn [length] in Hl; try lia; cbn [read_all fmap list_fmap concat].
  - unfold keemash_keelink_reader_next. cbn [rd_buffer rd_offset].
    by rewrite app_nil_r, Nat.eqb_refl.
  - rewrite next_encoded by done. rewrite app_assoc, IH by lia. done.
Qed.

(** Fields written one after the other into a buffer with enough room are
    read back in order, each with its number, type, flags and data, and then
    the reader reports the end. *)
Theorem tlv_roundtrip fields buf :
  Forall field_ok fields -> (length (concat (tlv_encode <$> fields)) <= length buf)%nat ->
  exists buf' len,
    put_all fields (keemash_keelink_writer_init (Some buf))
    = (ESP_OK, {| w_buffer := Some buf'; w_length := len |}) /\
    length buf' = length buf /\
    read_all (S (length fields)) (keemash_keelink_reader_init (take len buf'))
    = (fields, Some ESP_ERR_NOT_FOUND).
Proof.
  intros Hf Hfit. destruct (put_all_ok fields buf 0 Hf Hfit) as (buf' & H1 & Hl & H2).
  cbn [Nat.add take app] in *. exists buf', (length (concat (tlv_encode <$> fields))).
  split; [exact H1|]. split; [done|].
  unfold keemash_keelink_reader_init. rewrite H2.
  apply (read_all_encoded fields []); [done|lia].
Qed.

(** A step of the reader on arbitrary bytes. *)
Lemma next_cases pre rest :
  are_bytes rest ->
  let r := keemash_keelink_reader_next {| rd_buffer := pre ++ rest; rd_offset := length pre |} in
  (r.1 = inl ESP_ERR_NOT_FOUND /\ rest = []) \/
  (r.1 = inl ESP_ERR_INVALID_SIZE /\ rest <> []) \/
  (exists t post, r = (inr t, {| rd_buffer := pre ++ rest; rd_offset := length (pre ++ tlv_encode t) |})
     /\ rest = tlv_encode t ++ post).
Proof.
  intros Hb. unfold keemash_keelink_reader_next. cbn [rd_buffer rd_offset]. keelink.
  rewrite drop_app_length, length_app.
  destruct (length pre =? _)%nat eqn:E0.
  { left. split; [done|]. apply Nat.eqb_eq in E0. apply length_zero_iff_nil. lia. }
  apply Nat.eqb_neq in E0. assert (Hne : rest <> []) by (intros ->; cbn in E0; lia).
  destruct (_ <? length pre + 6)%nat eqn:E1; [by right; left|]. apply Nat.ltb_ge in E1.
  destruct (_ <? length pre + 6 + _)%nat eqn:E2; [by right; left|]. apply Nat.ltb_ge in E2.
  right. right. set (n := Z.to_nat (get_le 2 rest 4)) in *.
  pose proof (get_le_range 2 rest 4 Hb) as Hr. change (256 ^ Z.of_nat 2) with 65536 in Hr.
  set (t := {| tlv_field_id := get_le 2 rest 0; tlv_type := get_u8 rest 2;
               tlv_flags := get_u8 rest 3; tlv_data := slice 6 n rest |}).
  assert (Hdata : length (slice 6 n rest) = n).
  { unfold slice. rewrite length_take, length_drop. lia. }
  exists t, (drop (6 + n) rest). split.
  - do 2 f_equal. rewrite length_app, length_tlv_encode. cbn [tlv_data t]. lia.
  - rewrite <- (take_drop (6 + n) rest) at 1. f_equal. unfold tlv_encode, tlv_bytes.
    cbn [tlv_data tlv_field_id tlv_type tlv_flags t]. rewrite Hdata.
    rewrite !slice_u8, get_le_bytes by (done || lia).
    replace (Z.of_nat n) with (get_le 2 rest 4) by lia.
    rewrite get_le_bytes by (done || lia).
    replace (slice 4 2 rest ++ slice 6 n rest) with (slice 4 (2 + n) rest)
      by exact (eq_sym (slice_join 4 2 n rest)).
    replace (slice 3 1 rest ++ slice 4 (2 + n) rest) with (slice 3 (1 + (2 + n)) rest)
      by exact (eq_sym (slice_join 3 1 (2 + n) rest)).
    replace (slice 2 1 rest ++ slice 3 (1 + (2 + n)) rest) with (slice 2 (1 + (1 + (2 + n))) rest)
      by exact (eq_sym (slice_join 2 1 (1 + (2 + n)) rest)).
    replace (slice 0 2 rest ++ slice 2 (1 + (1 + (2 + n))) rest)
      with (slice 0 (2 + (1 + (1 + (2 + n)))) rest)
      by exact (eq_sym (slice_join 0 2 (1 + (1 + (2 + n))) rest)).
    unfold slice. rewrite drop_0. done.
Qed.

Lemma read_all_any fuel pre rest :
  are_bytes rest -> (length rest < fuel)%nat ->
  let r := read_all fuel {| rd_buffer := pre ++ rest; rd_offset := length pre |} in
  exists left, rest = concat (tlv_encode <$> r.1) ++ left /\
    r.2 = Some (if bool_decide (left = []) then ESP_ERR_NOT_FOUND else ESP_ERR_INVALID_SIZE).
Proof.
  revert pre rest. induction fuel as [|fuel IH]; intros pre rest Hb Hf; [lia|]. cbn [read_all].
  pose proof (next_cases pre rest Hb) as Hn.
  destruct (keemash_keelink_reader_next _) as [[err|t] reader] eqn:E; cbn [fst] in *.
  - exists rest. split; [done|]. cbn [snd].
    destruct Hn as [[[= ->] ->]|[[[= ->] Hne]|(t & post & Hr & _)]]; [done| |done].
    by rewrite bool_decide_false.
  - destruct Hn as [[? _]|[[? _]|(t' & post & [= -> ->] & ->)]]; [done..|].
    unfold are_bytes in Hb. apply Forall_app in Hb as [_ Hb].
    rewrite length_app, length_tlv_encode in Hf.
    rewrite app_assoc. destruct (IH (pre ++ tlv_encode t') post Hb) as (left & Hl & Herr); [lia|].
    destruct (read_all fuel _) as [ts err]. cbn [fst snd] in *.
    exists left. split; [|done]. cbn [fmap list_fmap concat]. by rewrite Hl, <- app_assoc at 1.
Qed.

(** On arbitrary bytes the reader stops, and what it hands out lies inside
    the payload: the payload is the encoding of the fields read, followed by
    nothing if the reader reported the end and by a truncated field if it
    reported a bad size. *)
Theorem reader_total payload :
  are_bytes payload ->
  let r := read_all (S (length payload)) (keemash_keelink_reader_init payload) in
  exists left, payload = concat (tlv_encode <$> r.1) ++ left /\
    r.2 = Some (if bool_decide (left = []) then ESP_ERR_NOT_FOUND else ESP_ERR_INVALID_SIZE).
Proof.
  intros Hb. apply (read_all_any (S (length payload)) [] payload Hb). lia.
Qed.

(** Typed fields: the value written with [put_u32], [put_u64], [put_bool]
    or [put_utf8] is the one the matching accessor gives, and an accessor
    refuses a field of another type. *)
Theorem typed_fields id :
  (forall v, is_u32 v -> keemash_keelink_tlv_u32
     {| tlv_field_id := id; tlv_type := KEEMASH_KEELINK_TLV_U32; tlv_flags := 0;
        tlv_data := le_bytes 4 v |} = Some v) /\
  (forall v, is_u64 v -> keemash_keelink_tlv_u64
     {| tlv_field_id := id; tlv_type := KEEMASH_KEELINK_TLV_U64; tlv_flags := 0;
        tlv_data := le_bytes 8 v |} = Some v) /\
  (forall b : bool, keemash_keelink_tlv_bool
     {| tlv_field_id := id; tlv_type := KEEMASH_KEELINK_TLV_BOOL; tlv_flags := 0;
        tlv_data := [if b then 1 else 0] |} = Some b) /\
  (forall text size, (length text < size)%nat -> keemash_keelink_tlv_copy_text
     {| tlv_field_id := id; tlv_type := KEEMASH_KEELINK_TLV_UTF8; tlv_flags := 0;
        tlv_data := text |} size = text) /\
  (forall t, tlv_type t <> KEEMASH_KEELINK_TLV_U32 -> keemash_keelink_tlv_u32 t = None) /\
  (forall t, tlv_type t <> KEEMASH_KEELINK_TLV_U64 -> keemash_keelink_tlv_u64 t = None) /\
  (forall t, tlv_type t <> KEEMASH_KEELINK_TLV_BOOL -> keemash_keelink_tlv_bool t = None) /\
  (forall t size, (length (keemash_keelink_tlv_copy_text t size) <= pred size)%nat).
Proof.
  repeat split.
  - intros v Hv. unfold keemash_keelink_tlv_u32. cbn [tlv_type tlv_data].
    rewrite length_le_bytes. cbn [negb orb Z.eqb Nat.eqb Pos.eqb KEEMASH_KEELINK_TLV_U32].
    f_equal. unfold get_le. rewrite slice_all by apply length_le_bytes. by apply le_val_bytes_4.
  - intros v Hv. unfold keemash_keelink_tlv_u64. cbn [tlv_type tlv_data].
    rewrite length_le_bytes. cbn [negb orb Z.eqb Nat.eqb Pos.eqb KEEMASH_KEELINK_TLV_U64].
    f_equal. unfold get_le. rewrite slice_all by apply length_le_bytes. by apply le_val_bytes_8.
  - by intros [].
  - intros text size Hl. unfold keemash_keelink_tlv_copy_text. cbn [tlv_type tlv_data].
    replace (size =? 0)%nat with false by (symmetry; apply Nat.eqb_neq; lia). cbn [orb negb].
    change (negb (KEEMASH_KEELINK_TLV_UTF8 =? KEEMASH_KEELINK_TLV_UTF8)) with false. cbv iota.
    rewrite Nat.min_l by lia. by apply take_ge.
  - intros t Ht. unfold keemash_keelink_tlv_u32. by rewrite (proj2 (Z.eqb_neq _ _) Ht).
  - intros t Ht. unfold keemash_keelink_tlv_u64. by rewrite (proj2 (Z.eqb_neq _ _) Ht).
  - intros t Ht. unfold keemash_keelink_tlv_bool. by rewrite (proj2 (Z.eqb_neq _ _) Ht).
  - intros t size. unfold keemash_keelink_tlv_copy_text. split_if; [cbn; lia|].
    rewrite length_take. lia.
Qed.

(** ** Witnesses *)

Definition hello_header : keemash_keelink_header_t :=
  {| k_kind := 1; k_flags := 0; k_channel := 1; k_payload_len := 3;
     k_session_id := 0x0102030405060708; k_message_id := 9; k_correlation_id := 0 |}.

Example header_roundtrip_witness :
  exists out, keemash_keelink_encode_header hello_header = inr out /\
    keemash_keelink_frame_size hello_header = Z.of_nat (length (out ++ [1; 2; 3])) /\
    keemash_keelink_decode_header (out ++ [1; 2; 3]) header_zero = (ESP_OK, hello_header).
Proof.
  apply (header_roundtrip hello_header [1; 2; 3] header_zero); [|reflexivity].
  vm_compute. split_and!; congruence.
Defined.

Lemma golden_bytes : are_bytes golden.
Proof. literal_bytes. Qed.

Definition golden_header : keemash_keelink_header_t :=
  (keemash_keelink_decode_header golden header_zero).2.

Example decode_header_canonical_witness :
  header_ok golden_header /\ exists payload, golden = header_bytes golden_header ++ payload /\
    Z.of_nat (length payload) = k_payload_len golden_header.
Proof.
  apply (decode_header_canonical golden header_zero golden_header golden_bytes).
  vm_compute. reflexivity.
Defined.

Definition two_fields : list keemash_keelink_tlv_t :=
  [ {| tlv_field_id := 1; tlv_type := 6; tlv_flags := 0; tlv_data := node0 |};
    {| tlv_field_id := 2; tlv_type := 1; tlv_flags := 0; tlv_data := le_bytes 4 0x12345678 |} ].

Example tlv_roundtrip_witness :
  exists buf' len,
    put_all two_fields (keemash_keelink_writer_init (Some (replicate 96 0)))
    = (ESP_OK, {| w_buffer := Some buf'; w_length := len |}) /\
    length buf' = length (replicate 96 0) /\
    read_all 3 (keemash_keelink_reader_init (take len buf')) = (two_fields, Some ESP_ERR_NOT_FOUND).
Proof.
  apply (tlv_roundtrip two_fields (replicate 96 0)).
  - unfold two_fields, field_ok. repeat apply Forall_cons_2; [..|by apply Forall_nil_2];
      (split_and!; first [literal_bytes | vm_compute; split; congruence | vm_compute; congruence]).
  - vm_compute. lia.
Defined.

Example reader_total_witness :
  let r := read_all 54 (keemash_keelink_reader_init golden) in
  exists left, golden = concat (tlv_encode <$> r.1) ++ left /\
    r.2 = Some (if bool_decide (left = []) then ESP_ERR_NOT_FOUND else ESP_ERR_INVALID_SIZE).
Proof. exact (reader_total golden golden_bytes). Defined.

Example typed_fields_witness :
  keemash_keelink_tlv_u32
    {| tlv_field_id := 2; tlv_type := KEEMASH_KEELINK_TLV_U32; tlv_flags := 0;
       tlv_data := le_bytes 4 0x12345678 |} = Some 0x12345678.
Proof. apply (proj1 (typed_fields 2)). vm_compute. split; congruence. Defined.
