(* ===== verification/MeshTime.v ===== *)
(** * Time synchronisation (keemash_mesh_time.c)

    The last TIME generation a node accepted decides whether a TIME packet of
    either protocol version moves the system clock.  The file's static
    variables are the record [mesh_time]; the clock, the timer and the zone
    setting of the C library are the environment. *)

From S2P Require Import Prelude.
From S2P Require Import Words.
From S2P Require Import Esp.
From S2P Require Import MeshProto.
From S2P Require Import MeshProtoV2.
#[local] Open Scope Z_scope.

Definition KEEMASH_TIME_VALID_EPOCH : Z := 1577836800.
Definition MESH_TIME_SYNC_TYPE_TIME : Z := 2.
Definition sizeof_v1_packet : nat := 46.

Record mesh_time := {
  s_have_time : bool; s_last_rx_v2 : bool; s_last_generation : Z;
  s_last_source_uptime_s : Z; s_last_sync_ms : Z }.

#[export] Instance eta_mesh_time : Eta mesh_time := fun s =>
  Build_mesh_time (s_have_time s) (s_last_rx_v2 s) (s_last_generation s)
    (s_last_source_uptime_s s) (s_last_sync_ms s).

Definition mesh_time_zero : mesh_time :=
  {| s_have_time := false; s_last_rx_v2 := false; s_last_generation := 0;
     s_last_source_uptime_s := 0; s_last_sync_ms := 0 |}.

Record mesh_time_status_t := {
  ts_synchronized : bool; ts_last_rx_v2 : bool; ts_generation : Z; ts_source_uptime_s : Z;
  ts_last_sync_age_ms : Z }.

(** [settimeofday] (true when it succeeds), [esp_timer_get_time] and
    [setenv("TZ", ...); tzset()]. *)
Class Clock (W : Type) := {
  settimeofday : Z -> ST W bool;
  timer_us : W -> Z;
  set_zone : bytes -> W -> W }.

Section Time.
Context {W : Type} `{!Clock W}.

Definition monotonic_ms (w : W) : Z := u32 (u64 (timer_us w) / 1000).

(** [[]] when the rule is NULL or empty. *)
Definition keemash_mesh_time_init (tz_rule : bytes) (w : W) : W :=
  if (length tz_rule =? 0)%nat then w else set_zone tz_rule w.

Definition apply_time (epoch_sec generation : Z) : ST (mesh_time * W) esp_err_t := fun s =>
  if (epoch_sec <=? KEEMASH_TIME_VALID_EPOCH) || (generation =? 0) then (ESP_ERR_INVALID_ARG, s)
  else if s_have_time s.1 && (generation <=? s_last_generation s.1) then (ESP_OK, s)
  else
    let '(ok, w) := settimeofday epoch_sec s.2 in
    if negb ok then (ESP_FAIL, (s.1, w))
    else (ESP_OK, ((s.1) <| s_have_time := true |> <| s_last_generation := generation |>, w)).

Definition keemash_mesh_time_handle_v1 (packet : bytes) : ST (mesh_time * W) esp_err_t := fun s =>
  if (length packet <? sizeof_v1_packet)%nat then (ESP_ERR_INVALID_SIZE, s)
  else if negb (get_u8 packet 0 =? MESH_PKT_MAGIC) || negb (get_u8 packet 1 =? MESH_PKT_VERSION)
          || negb (get_u8 packet 2 =? MESH_TIME_SYNC_TYPE_TIME)
  then (ESP_ERR_INVALID_ARG, s)
  else
    let payload := slice 14 32 packet in
    let epoch_sec := i64 (get_le 8 payload 0) in
    let '(err, s) := apply_time epoch_sec (get_le 4 payload 8) s in
    if err_eqb err ESP_OK
    then (err, ((s.1) <| s_last_rx_v2 := false |> <| s_last_sync_ms := monotonic_ms s.2 |>, s.2))
    else (err, s).

Definition root_restarted (s : mesh_time) (p : mesh_v2_time_payload_t) : bool :=
  s_have_time s && negb (s_last_source_uptime_s s =? 0) && negb (tp_source_uptime_s p =? 0)
  && (u32 (tp_source_uptime_s p + 5) <? s_last_source_uptime_s s).

Definition keemash_mesh_time_apply_v2 (p : mesh_v2_time_payload_t)
  : ST (mesh_time * W) esp_err_t := fun s =>
  let s := if root_restarted s.1 p
           then ((s.1) <| s_have_time := false |> <| s_last_generation := 0 |>, s.2) else s in
  let '(err, s) := apply_time (tp_epoch_sec p) (tp_generation p) s in
  if err_eqb err ESP_OK
  then (err, ((s.1) <| s_last_rx_v2 := true |>
                    <| s_last_source_uptime_s := tp_source_uptime_s p |>
                    <| s_last_sync_ms := monotonic_ms s.2 |>, s.2))
  else (err, s).

Definition keemash_mesh_time_get_status (s : mesh_time * W) : mesh_time_status_t :=
  {| ts_synchronized := s_have_time s.1; ts_last_rx_v2 := s_last_rx_v2 s.1;
     ts_generation := s_last_generation s.1; ts_source_uptime_s := s_last_source_uptime_s s.1;
     ts_last_sync_age_ms :=
       if s_have_time s.1 && negb (s_last_sync_ms s.1 =? 0)
       then u32 (monotonic_ms s.2 - s_last_sync_ms s.1) else UINT32_MAX |}.

(** Latest generation wins: a valid V2 payload moves the clock exactly when
    the node has no time yet, the payload's generation is above the last
    accepted one, or the root's uptime shows a new root boot; a repeated or
    stale one is acknowledged without touching the clock, and in every accepted
    case the generation on record does not fall within one root boot. *)
Theorem time_latest_wins p (s : mesh_time * W) :
  KEEMASH_TIME_VALID_EPOCH < tp_epoch_sec p -> 0 < tp_generation p ->
  let r := keemash_mesh_time_apply_v2 p s in
  let fresh := negb (s_have_time s.1) || (s_last_generation s.1 <? tp_generation p)
               || root_restarted s.1 p in
  (fresh = false -> r.1 = ESP_OK /\ r.2.2 = s.2 /\
     s_last_generation r.2.1 = s_last_generation s.1 /\ s_have_time r.2.1 = true) /\
  (fresh = true -> (settimeofday (tp_epoch_sec p) s.2).1 = true ->
     r.1 = ESP_OK /\ r.2.2 = (settimeofday (tp_epoch_sec p) s.2).2 /\
     s_last_generation r.2.1 = tp_generation p /\ s_have_time r.2.1 = true) /\
  (fresh = true -> (settimeofday (tp_epoch_sec p) s.2).1 = false -> r.1 = ESP_FAIL) /\
  (s_have_time s.1 = true -> root_restarted s.1 p = false -> r.1 = ESP_OK ->
     s_last_generation s.1 <= s_last_generation r.2.1).
Proof.
  intros He Hg. cbv zeta. unfold keemash_mesh_time_apply_v2, apply_time.
  replace (tp_epoch_sec p <=? KEEMASH_TIME_VALID_EPOCH) with false
    by (symmetry; apply Z.leb_gt; lia).
  replace (tp_generation p =? 0) with false by (symmetry; apply Z.eqb_neq; lia).
  rewrite Z.ltb_antisym.
  destruct s as [m w]. cbn [fst snd].
  destruct (settimeofday (tp_epoch_sec p) w) as [[] w'] eqn:Es;
    destruct (root_restarted m p) eqn:Er, (s_have_time m) eqn:Eh,
      (tp_generation p <=? s_last_generation m) eqn:Eg; cbn;
    rewrite ?Eh, ?Eg; cbn; rewrite ?Es; cbn;
    change (err_eqb ESP_OK ESP_OK) with true; change (err_eqb ESP_FAIL ESP_OK) with false;
    cbn; rewrite ?Eh; bools; split_and!; try done; lia.
Qed.
End Time.

(** ** Examples *)

(** A clock that records what it is set to. *)
#[export] Instance log_clock : Clock (Z * list Z) := {|
  settimeofday := fun t w => (true, (w.1, w.2 ++ [t]));
  timer_us := fst;
  set_zone := fun _ w => w |}.

Definition synced : mesh_time * (Z * list Z) :=
  ({| s_have_time := true; s_last_rx_v2 := true; s_last_generation := 7;
      s_last_source_uptime_s := 1000; s_last_sync_ms := 5000 |}, (9000000, [])).
Definition stale_time : mesh_v2_time_payload_t :=
  {| tp_epoch_sec := 1700000000; tp_generation := 6; tp_source_uptime_s := 999 |}.

Example time_latest_wins_witness :
  (keemash_mesh_time_apply_v2 stale_time synced).1 = ESP_OK /\
  (keemash_mesh_time_apply_v2 stale_time synced).2.2 = (9000000, []).
Proof.
  destruct (time_latest_wins stale_time synced) as [H _]; [vm_compute; congruence..|].
  destruct (H eq_refl) as (H1 & H2 & _). split; [exact H1|exact H2].
Defined.

(** A rejected payload (generation 0) whose uptime looks like a new root boot
    still makes the node report that it has no time. *)
Example rejected_payload_clears_time :
  let r := keemash_mesh_time_apply_v2
    {| tp_epoch_sec := 1700000000; tp_generation := 0; tp_source_uptime_s := 10 |} synced in
  r.1 = ESP_ERR_INVALID_ARG /\ r.2.2 = synced.2 /\
  ts_synchronized (keemash_mesh_time_get_status synced) = true /\
  ts_synchronized (keemash_mesh_time_get_status r.2) = false.
Proof. by vm_compute. Qed.
