(* ===== verification/WeeklySchedule.v ===== *)
(** * The weekly schedule (keemash_weekly_schedule.c): model

    A node keeps up to eight points (minute of the day, days, action) and runs
    each at its minute.  A new schedule is staged point by point, checked and
    persisted before it replaces the old one.  A task samples the clock about
    once a second: it catches up after the clock became valid or jumped, retries
    failures, and runs every minute that began since the previous sample.

    The object is the record [schedule]; every operation acts on it and on the
    environment [W] (timer, clock, non-volatile storage, time-zone rules of the
    C library, and the [apply] callback).  The callback runs outside the mutex
    and may change the schedule, so it acts on both.  [lock] is whether the mutex was
    obtained; the task waits for it without limit. *)

From S2P Require Import Prelude.
From S2P Require Import Words.
From S2P Require Import Esp.
From S2P Require Import MeshTime.
#[local] Open Scope Z_scope.

Definition MAX_POINTS : Z := 8.
Definition ALL_DAYS : Z := 0x7f.
Definition NO_INDEX : Z := 0xff.
Definition APPLY_NONE : Z := 0.
Definition APPLY_CATCH_UP : Z := 1.
Definition APPLY_SCHEDULED : Z := 2.
Definition SCHEDULE_BLOB_VERSION : Z := 1.
Definition SCHEDULE_VALID_EPOCH : Z := 1577836800.
Definition SCHEDULE_FLAG_ENABLED : Z := 0x01.
Definition SCHEDULE_FLAG_PERSIST : Z := 0x02.
Definition POINT_FLAG_ENABLED : Z := 0x80.
Definition DEFAULT_STAGE_TIMEOUT_MS : Z := 30000.
Definition DEFAULT_TASK_PERIOD_MS : Z := 1000.
Definition CLOCK_CONTINUITY_LIMIT_SEC : Z := 120.
Definition CLOCK_DRIFT_LIMIT_SEC : Z := 5.
Definition APPLY_RETRY_MS : Z := 5000.

(** ** Data *)

Record point_t := { pt_enabled : bool; pt_minute_of_day : Z; pt_action : Z; pt_days_mask : Z }.

Definition point_zero : point_t :=
  {| pt_enabled := false; pt_minute_of_day := 0; pt_action := 0; pt_days_mask := 0 |}.

Record config_t := {
  cf_generation : Z; cf_enabled : bool; cf_persistence_enabled : bool; cf_count : Z;
  cf_points : list point_t }.

#[export] Instance eta_config : Eta config_t := fun c =>
  Build_config_t (cf_generation c) (cf_enabled c) (cf_persistence_enabled c) (cf_count c)
    (cf_points c).

Definition config_zero : config_t :=
  {| cf_generation := 0; cf_enabled := false; cf_persistence_enabled := false; cf_count := 0;
     cf_points := replicate 8 point_zero |}.

Definition point_at (c : config_t) (i : nat) : point_t := nth i (cf_points c) point_zero.

Record schedule_stage_t := {
  sg_active : bool; sg_started_ms : Z; sg_received_mask : Z; sg_config : config_t }.

#[export] Instance eta_stage : Eta schedule_stage_t := fun s =>
  Build_schedule_stage_t (sg_active s) (sg_started_ms s) (sg_received_mask s) (sg_config s).

Definition stage_zero : schedule_stage_t :=
  {| sg_active := false; sg_started_ms := 0; sg_received_mask := 0; sg_config := config_zero |}.

Record schedule := {
  sc_blob_magic : Z; sc_max_action : Z; sc_catch_up_on_clock_ready : bool;
  sc_stage_timeout_ms : Z; sc_task_period_ms : Z; sc_config : config_t;
  sc_stage : schedule_stage_t; sc_last_run_day : list Z; sc_catch_up_pending : bool;
  sc_last_clock_valid : bool; sc_last_wall_epoch : Z; sc_last_sample_ms : Z;
  sc_retry_pending : bool; sc_retry_generation : Z; sc_retry_day_key : Z;
  sc_next_retry_ms : Z; sc_retry_index : Z; sc_last_apply_valid : bool;
  sc_last_apply_index : Z; sc_last_apply_kind : Z; sc_last_apply_ms : Z;
  sc_last_error : esp_err_t }.

#[export] Instance eta_schedule : Eta schedule := fun s =>
  Build_schedule (sc_blob_magic s) (sc_max_action s) (sc_catch_up_on_clock_ready s)
    (sc_stage_timeout_ms s) (sc_task_period_ms s) (sc_config s) (sc_stage s)
    (sc_last_run_day s) (sc_catch_up_pending s) (sc_last_clock_valid s)
    (sc_last_wall_epoch s) (sc_last_sample_ms s) (sc_retry_pending s)
    (sc_retry_generation s) (sc_retry_day_key s) (sc_next_retry_ms s) (sc_retry_index s)
    (sc_last_apply_valid s) (sc_last_apply_index s) (sc_last_apply_kind s)
    (sc_last_apply_ms s) (sc_last_error s).

(** ** Points and configurations *)

Definition point_valid (max_action : Z) (point : point_t) : bool :=
  (pt_minute_of_day point <? 24 * 60) && negb (pt_days_mask point =? 0)
  && (Z.land (pt_days_mask point) (Z.lnot ALL_DAYS) =? 0)
  && (pt_action point <=? max_action).

Definition conflict (a b : point_t) : bool :=
  pt_enabled a && (pt_minute_of_day a =? pt_minute_of_day b)
  && negb (Z.land (pt_days_mask a) (pt_days_mask b) =? 0).

Definition config_valid (max_action : Z) (config : config_t) : bool :=
  if (cf_generation config =? 0) || (MAX_POINTS <? cf_count config) then false
  else
    forallb (fun i =>
      point_valid max_action (point_at config i)
      && (negb (pt_enabled (point_at config i))
          || forallb (fun j => negb (conflict (point_at config j) (point_at config i))) (seq 0 i)))
      (seq 0 (Z.to_nat (cf_count config))).

(** ** Civil time

    [struct tm], the part the code reads; years count from 1900 and week days
    from Sunday. *)

Record tm := { tm_year : Z; tm_yday : Z; tm_wday : Z; tm_hour : Z; tm_min : Z }.

Definition weekday_index (local : tm) : Z := Z.rem (tm_wday local + 6) 7.

Definition minute_of (local : tm) : Z := u16 (tm_hour local * 60 + tm_min local).

Definition local_day_key (local : tm) : Z :=
  Z.lor (u32 (Z.shiftl (u32 (tm_year local + 1900)) 9)) (u32 (tm_yday local)).

Definition point_applies_on (point : point_t) (weekday : Z) : bool :=
  pt_enabled point && (0 <=? weekday) && (weekday <? 7)
  && has_flag (pt_days_mask point) (Z.shiftl 1 weekday).

(** The point that ran last before now, found by age. *)
Definition latest_candidate (config : config_t) (weekday minute day_back : Z)
  (best : Z * Z) (i : nat) : Z * Z :=
  let day := Z.rem (weekday - day_back + 7) 7 in
  let point := point_at config i in
  if negb (point_applies_on point day) then best
  else if (day_back =? 0) && (minute <? pt_minute_of_day point) then best
  else
    let age := u32 (day_back * 1440 + minute - pt_minute_of_day point) in
    if age <? best.1 then (age, Z.of_nat i) else best.

Definition points_of (config : config_t) : list nat := seq 0 (Z.to_nat (cf_count config)).

Definition latest_point_index (config : config_t) (weekday minute : Z) : Z :=
  (fold_left (fun best day_back =>
     fold_left (latest_candidate config weekday minute day_back) (points_of config) best)
     [0; 1; 2; 3; 4; 5; 6] (UINT32_MAX, NO_INDEX)).2.

(** The point that runs next, and in how many minutes. *)
Definition next_candidate (config : config_t) (weekday minute day_forward : Z)
  (best : Z * Z) (i : nat) : Z * Z :=
  let day := Z.rem (weekday + day_forward) 7 in
  let point := point_at config i in
  if negb (point_applies_on point day) then best
  else
    let delta := day_forward * 1440 + pt_minute_of_day point - minute in
    let delta := if delta <=? 0 then delta + 7 * 1440 else delta in
    if u32 delta <? best.1 then (u32 delta, Z.of_nat i) else best.

Definition next_point_index (config : config_t) (weekday minute : Z) : Z * Z :=
  let '(best_distance, best) :=
    fold_left (fun best day_forward =>
      fold_left (next_candidate config weekday minute day_forward) (points_of config) best)
      [0; 1; 2; 3; 4; 5; 6] (UINT32_MAX, NO_INDEX) in
  (best, if best_distance =? UINT32_MAX then UINT16_MAX
         else if UINT16_MAX <? best_distance then UINT16_MAX else u16 best_distance).

(** ** The persisted form *)

(** FNV-1a. *)
Definition checksum32 (data : bytes) : Z :=
  fold_left (fun value b => u32 (Z.lxor value b * 16777619)) data 2166136261.

Record persisted_point_t := { pp_minute_of_day : Z; pp_days_mask : Z; pp_action_flags : Z }.

Definition persisted_zero : persisted_point_t :=
  {| pp_minute_of_day := 0; pp_days_mask := 0; pp_action_flags := 0 |}.

Record schedule_blob_t := {
  bl_magic : Z; bl_version : Z; bl_count : Z; bl_flags : Z; bl_reserved : Z;
  bl_generation : Z; bl_points : list persisted_point_t; bl_checksum : Z }.

Definition sizeof_blob : nat := 48.

Definition encode_point (p : persisted_point_t) : bytes :=
  le_bytes 2 (pp_minute_of_day p) ++ le_bytes 1 (pp_days_mask p) ++
  le_bytes 1 (pp_action_flags p).

(** The bytes of the blob before its checksum. *)
Definition blob_body (b : schedule_blob_t) : bytes :=
  le_bytes 4 (bl_magic b) ++ le_bytes 1 (bl_version b) ++ le_bytes 1 (bl_count b) ++
  le_bytes 1 (bl_flags b) ++ le_bytes 1 (bl_reserved b) ++ le_bytes 4 (bl_generation b) ++
  concat (encode_point <$> bl_points b).

Definition encode_blob (b : schedule_blob_t) : bytes := blob_body b ++ le_bytes 4 (bl_checksum b).

Definition decode_point (data : bytes) (i : nat) : persisted_point_t :=
  {| pp_minute_of_day := get_le 2 data (12 + 4 * i); pp_days_mask := get_u8 data (14 + 4 * i);
     pp_action_flags := get_u8 data (15 + 4 * i) |}.

Definition decode_blob (data : bytes) : schedule_blob_t :=
  {| bl_magic := get_le 4 data 0; bl_version := get_u8 data 4; bl_count := get_u8 data 5;
     bl_flags := get_u8 data 6; bl_reserved := get_u8 data 7; bl_generation := get_le 4 data 8;
     bl_points := decode_point data <$> seq 0 8; bl_checksum := get_le 4 data 44 |}.

Definition persist_point (p : point_t) : persisted_point_t :=
  {| pp_minute_of_day := pt_minute_of_day p; pp_days_mask := pt_days_mask p;
     pp_action_flags := Z.lor (pt_action p) (if pt_enabled p then POINT_FLAG_ENABLED else 0) |}.

Definition config_to_blob (blob_magic : Z) (config : config_t) : schedule_blob_t :=
  let blob :=
    {| bl_magic := blob_magic; bl_version := SCHEDULE_BLOB_VERSION; bl_count := cf_count config;
       bl_flags := Z.lor (if cf_enabled config then SCHEDULE_FLAG_ENABLED else 0)
                         (if cf_persistence_enabled config then SCHEDULE_FLAG_PERSIST else 0);
       bl_reserved := 0; bl_generation := cf_generation config;
       bl_points := (fun i => if (i <? Z.to_nat (cf_count config))%nat
                              then persist_point (point_at config i) else persisted_zero) <$> seq 0 8;
       bl_checksum := 0 |} in
  {| bl_magic := bl_magic blob; bl_version := bl_version blob; bl_count := bl_count blob;
     bl_flags := bl_flags blob; bl_reserved := bl_reserved blob;
     bl_generation := bl_generation blob; bl_points := bl_points blob;
     bl_checksum := checksum32 (blob_body blob) |}.

Definition restore_point (p : persisted_point_t) : point_t :=
  {| pt_enabled := has_flag (pp_action_flags p) POINT_FLAG_ENABLED;
     pt_minute_of_day := pp_minute_of_day p;
     pt_action := u8 (Z.land (pp_action_flags p) (Z.lnot POINT_FLAG_ENABLED));
     pt_days_mask := pp_days_mask p |}.

Definition blob_to_config (blob : schedule_blob_t) : config_t :=
  {| cf_generation := bl_generation blob;
     cf_enabled := has_flag (bl_flags blob) SCHEDULE_FLAG_ENABLED;
     cf_persistence_enabled := has_flag (bl_flags blob) SCHEDULE_FLAG_PERSIST;
     cf_count := bl_count blob;
     cf_points := (fun i => if (i <? Z.to_nat (bl_count blob))%nat
                            then restore_point (nth i (bl_points blob) persisted_zero)
                            else point_zero) <$> seq 0 8 |}.

(** What [load_config] accepts of the stored bytes. *)
Definition load_blob (blob_magic max_action : Z) (data : bytes) : option config_t :=
  let blob := decode_blob data in
  if negb (length data =? sizeof_blob)%nat || negb (bl_magic blob =? blob_magic)
     || negb (bl_version blob =? SCHEDULE_BLOB_VERSION)
     || negb (bl_checksum blob =? checksum32 (take 44 data)) then None
  else
    let candidate := blob_to_config blob in
    if negb (cf_persistence_enabled candidate) || negb (config_valid max_action candidate)
    then None else Some candidate.

(** ** The environment

    The state is the schedule and the world.  [nvs_open] takes [true] for
    NVS_READWRITE and [false] for NVS_READONLY and is given the file's
    namespace and key by the instance. *)

Class SchedEnv (W : Type) := {
  timer_us : W -> Z;
  wall_time : W -> Z;
  localtime : Z -> option tm;
  nvs_open : bool -> ST W esp_err_t;
  nvs_get_blob : ST W (esp_err_t * bytes);
  nvs_set_blob : bytes -> ST W esp_err_t;
  nvs_erase_key : ST W esp_err_t;
  nvs_commit : ST W esp_err_t;
  apply_cb : point_t -> Z -> bool -> ST (schedule * W) esp_err_t }.

Definition lift_world {W A : Type} (m : ST W A) : ST (schedule * W) A :=
  fun s => let '(a, w) := m s.2 in (a, (s.1, w)).
Definition mod_sched {W : Type} (f : schedule -> schedule) : ST (schedule * W) unit :=
  modify (fun s : schedule * W => (f s.1, s.2)).
Definition get_sched {W : Type} : ST (schedule * W) schedule := gets fst.

Definition deadline_reached (now deadline : Z) : bool := 0 <=? i32 (u32 (now - deadline)).

Definition clock_is_continuous (previous_epoch current_epoch previous_ms current_ms : Z) : bool :=
  let wall_delta := i64 (current_epoch - previous_epoch) in
  let monotonic_delta_ms := u32 (current_ms - previous_ms) in
  let monotonic_delta := u32 (monotonic_delta_ms + 500) / 1000 in
  let drift := wall_delta - monotonic_delta in
  let drift := if drift <? 0 then - drift else drift in
  (0 <=? wall_delta) && (wall_delta <=? CLOCK_CONTINUITY_LIMIT_SEC)
  && (drift <=? CLOCK_DRIFT_LIMIT_SEC).

Definition expire_stage (now : Z) (s : schedule) : schedule :=
  if sg_active (sc_stage s)
     && (sc_stage_timeout_ms s <=? u32 (now - sg_started_ms (sc_stage s)))
  then s <| sc_stage := stage_zero |> else s.

Section Schedule.
Context {W : Type} `{!SchedEnv W}.

Definition monotonic_ms (w : W) : Z := u32 (u64 (timer_us w) / 1000).

Definition clock_snapshot (w : W) : option (tm * Z) :=
  let now := wall_time w in
  if now <=? SCHEDULE_VALID_EPOCH then None
  else match localtime now with None => None | Some local => Some (local, now) end.

(** ** Storage *)

Definition persist_config (blob_magic : Z) (config : config_t) : ST W esp_err_t :=
  and_then (nvs_open true)
    (and_then
       (if cf_persistence_enabled config
        then nvs_set_blob (encode_blob (config_to_blob blob_magic config))
        else err ← nvs_erase_key;
             mret (if err_eqb err ESP_ERR_NVS_NOT_FOUND then ESP_OK else err))
       nvs_commit).

Definition load_config : ST (schedule * W) unit :=
  mod_sched (fun s => s <| sc_config := config_zero <| cf_generation := 1 |> |>);;
  opened ← lift_world (nvs_open false);
  if negb (err_eqb opened ESP_OK) then mret tt
  else
    r ← lift_world nvs_get_blob;
    s ← get_sched;
    if negb (err_eqb r.1 ESP_OK) then mret tt
    else match load_blob (sc_blob_magic s) (sc_max_action s) r.2 with
         | None => mret tt
         | Some candidate => mod_sched (fun s => s <| sc_config := candidate |>)
         end.

(** ** Running points *)

Definition record_apply_result (config : config_t) (index : nat) (catch_up : bool)
  (day_key : Z) (error : esp_err_t) (now : Z) (s : schedule) : schedule :=
  if negb (cf_generation (sc_config s) =? cf_generation config) then s
  else
    let s := s <| sc_last_error := error |> in
    if err_eqb error ESP_OK then
      let s := s <| sc_last_apply_valid := true |>
                 <| sc_last_apply_index := Z.of_nat index |>
                 <| sc_last_apply_kind := if catch_up then APPLY_CATCH_UP else APPLY_SCHEDULED |>
                 <| sc_last_apply_ms := now |> <| sc_next_retry_ms := 0 |> in
      if catch_up then s <| sc_catch_up_pending := false |>
      else s <| sc_last_run_day ::= <[index := day_key]> |> <| sc_retry_pending := false |>
    else
      let s := s <| sc_next_retry_ms := u32 (now + APPLY_RETRY_MS) |> in
      if catch_up then s
      else s <| sc_retry_pending := true |> <| sc_retry_generation := cf_generation config |>
             <| sc_retry_index := Z.of_nat index |> <| sc_retry_day_key := day_key |>.

Definition apply_point (config : config_t) (index : nat) (catch_up : bool) (day_key now : Z)
  : ST (schedule * W) esp_err_t :=
  err ← apply_cb (point_at config index) (Z.of_nat index) catch_up;
  mod_sched (record_apply_result config index catch_up day_key err now);;
  mret err.

Definition last_run (s : schedule) (index : nat) : Z := nth index (sc_last_run_day s) 0.

Definition should_run (config : config_t) (index : nat) (day_key now : Z) (s : schedule) : bool :=
  let retry_wait := sc_retry_pending s && (sc_retry_generation s =? cf_generation config)
    && (sc_retry_index s =? Z.of_nat index) && (sc_retry_day_key s =? day_key)
    && negb (deadline_reached now (sc_next_retry_ms s)) in
  (cf_generation (sc_config s) =? cf_generation config)
  && negb (last_run s index =? day_key) && negb retry_wait.

Definition run_scheduled_point (config : config_t) (index : nat) (day_key now : Z)
  : ST (schedule * W) unit :=
  execute ← gets (fun s => should_run config index day_key now s.1);
  if (execute : bool) then apply_point config index false day_key now;; mret tt else mret tt.

Definition run_points_for_minute (config : config_t) (local : tm) (now : Z)
  : ST (schedule * W) unit :=
  for_each (points_of config) (fun i =>
    when (point_applies_on (point_at config i) (weekday_index local)
          && (pt_minute_of_day (point_at config i) =? minute_of local))
      (run_scheduled_point config i (local_day_key local) now)).

Definition run_pending_retry (config : config_t) (now : Z) : ST (schedule * W) unit :=
  s ← get_sched;
  if sc_retry_pending s && (sc_retry_generation s =? cf_generation config)
     && (sc_retry_index s <? cf_count config) && deadline_reached now (sc_next_retry_ms s)
  then apply_point config (Z.to_nat (sc_retry_index s)) false (sc_retry_day_key s) now;; mret tt
  else mret tt.

(** ** The task *)

(** The critical section at the start of a round. *)
Definition sample_clock (now : Z) (snapshot : option (tm * Z)) (s : schedule) : schedule :=
  let s := expire_stage now s in
  let s := match snapshot with
           | None => s <| sc_last_clock_valid := false |>
           | Some (_, epoch) =>
               let continuous := sc_last_clock_valid s
                 && clock_is_continuous (sc_last_wall_epoch s) epoch (sc_last_sample_ms s) now in
               let s := if negb (sc_last_clock_valid s) || negb continuous
                        then s <| sc_catch_up_pending := cf_enabled (sc_config s) |>
                               <| sc_retry_pending := false |> <| sc_next_retry_ms := 0 |>
                        else s in
               s <| sc_last_clock_valid := true |> <| sc_last_wall_epoch := epoch |>
                 <| sc_last_sample_ms := now |>
           end in
  s.

Definition catch_up_due (now : Z) (valid : bool) (s : schedule) : bool :=
  sc_catch_up_pending s && cf_enabled (sc_config s) && valid
  && ((sc_next_retry_ms s =? 0) || deadline_reached now (sc_next_retry_ms s)).

Definition run_catch_up (config : config_t) (local : tm) (now : Z) : ST (schedule * W) unit :=
  let latest := latest_point_index config (weekday_index local) (minute_of local) in
  if negb (latest =? NO_INDEX) then
    err ← apply_point config (Z.to_nat latest) true (local_day_key local) now;
    when (err_eqb err ESP_OK
          && (pt_minute_of_day (point_at config (Z.to_nat latest)) =? minute_of local))
      (mod_sched (fun s =>
         if cf_generation (sc_config s) =? cf_generation config
         then s <| sc_last_run_day ::= <[Z.to_nat latest := local_day_key local]> |> else s))
  else
    mod_sched (fun s =>
      if cf_generation (sc_config s) =? cf_generation config
      then s <| sc_catch_up_pending := false |> <| sc_next_retry_ms := 0 |> else s).

(** [for (; boundary <= epoch; boundary += 60)], [fuel] iterations at most. *)
Fixpoint cross_minutes (fuel : nat) (boundary epoch : Z) (config : config_t) (now : Z)
  : ST (schedule * W) unit :=
  match fuel with
  | O => mret tt
  | S fuel =>
      if boundary <=? epoch then
        match localtime boundary with
        | Some crossed => run_points_for_minute config crossed now
        | None => mret tt
        end;;
        cross_minutes fuel (boundary + 60) epoch config now
      else mret tt
  end.

Definition first_boundary (previous_epoch : Z) : Z := (Z.quot previous_epoch 60 + 1) * 60.
Definition minutes_fuel (boundary epoch : Z) : nat := Z.to_nat ((epoch - boundary) / 60 + 1).

(** One round of [schedule_task] after its delay; [s0] is the schedule when the
    round starts. *)
Definition schedule_round (now : Z) (snapshot : option (tm * Z)) (s0 : schedule)
  : ST (schedule * W) unit :=
  mod_sched (sample_clock now snapshot);;
  s ← get_sched;
  let config := sc_config s in
  let catch_up := catch_up_due now (match snapshot with Some _ => true | None => false end) s in
  when (catch_up && negb (sc_catch_up_on_clock_ready s))
    (mod_sched (fun s => s <| sc_catch_up_pending := false |>));;
  match snapshot with
  | None => mret tt
  | Some (local, epoch) =>
      if negb (cf_enabled config) then mret tt
      else
        when (catch_up && sc_catch_up_on_clock_ready s) (run_catch_up config local now);;
        run_pending_retry config now;;
        (let previous_epoch := sc_last_wall_epoch s0 in
         let continuous := sc_last_clock_valid s0
           && clock_is_continuous previous_epoch epoch (sc_last_sample_ms s0) now in
         when (continuous && (previous_epoch <? epoch))
           (cross_minutes (minutes_fuel (first_boundary previous_epoch) epoch)
              (first_boundary previous_epoch) epoch config now));;
        run_points_for_minute config local now
  end.

Definition schedule_tick : ST (schedule * W) unit := fun s =>
  schedule_round (monotonic_ms s.2) (clock_snapshot s.2) s.1 s.

(** ** Life cycle *)

Record options_t := {
  op_nvs_namespace : bytes; op_nvs_key : bytes; op_blob_magic : Z; op_max_action : Z;
  op_catch_up_on_clock_ready : bool; op_stage_timeout_ms : Z; op_task_period_ms : Z;
  op_apply : bool }.

Definition fresh_schedule (o : options_t) : schedule :=
  {| sc_blob_magic := op_blob_magic o; sc_max_action := op_max_action o;
     sc_catch_up_on_clock_ready := op_catch_up_on_clock_ready o;
     sc_stage_timeout_ms := if op_stage_timeout_ms o =? 0 then DEFAULT_STAGE_TIMEOUT_MS
                            else op_stage_timeout_ms o;
     sc_task_period_ms := if op_task_period_ms o =? 0 then DEFAULT_TASK_PERIOD_MS
                          else op_task_period_ms o;
     sc_config := config_zero; sc_stage := stage_zero; sc_last_run_day := replicate 8 0;
     sc_catch_up_pending := false; sc_last_clock_valid := false; sc_last_wall_epoch := 0;
     sc_last_sample_ms := 0; sc_retry_pending := false; sc_retry_generation := 0;
     sc_retry_day_key := 0; sc_next_retry_ms := 0; sc_retry_index := 0;
     sc_last_apply_valid := false; sc_last_apply_index := 0; sc_last_apply_kind := 0;
     sc_last_apply_ms := 0; sc_last_error := ESP_OK |}.

Definition self_test_config (p0 p1 : point_t) : config_t :=
  config_zero <| cf_generation := 7 |> <| cf_enabled := true |> <| cf_count := 2 |>
    <| cf_points := [p0; p1; point_zero; point_zero; point_zero; point_zero; point_zero;
                     point_zero] |>.

Definition keemash_weekly_schedule_self_test : bool :=
  let pt minute action mask :=
    {| pt_enabled := true; pt_minute_of_day := minute; pt_action := action;
       pt_days_mask := mask |} in
  let config := self_test_config (pt 360 1 ALL_DAYS) (pt 1380 0 ALL_DAYS) in
  if negb (config_valid 1 config) || negb (latest_point_index config 0 400 =? 0)
     || negb (latest_point_index config 0 100 =? 1) then false
  else if negb (bool_decide (next_point_index config 0 400 = (1, 980))) then false
  else if config_valid 1 (self_test_config (pt 360 1 ALL_DAYS) (pt 360 0 ALL_DAYS)) then false
  else if negb (config_valid 1 (self_test_config (pt 360 1 1) (pt 360 0 2))) then false
  else if config_valid 1 (self_test_config (pt 360 2 1) (pt 360 0 2)) then false
  else if negb (clock_is_continuous 1000 1061 1000 62000)
          || clock_is_continuous 1000 1121 1000 122000
          || clock_is_continuous 1000 995 1000 6000
          || clock_is_continuous 1000 1070 1000 62000 then false
  else true.

(** [allocated]: memory and mutex were obtained; [started]: the task was
    created. *)
Definition keemash_weekly_schedule_start (o : options_t) (allocated started : bool) (w : W)
  : esp_err_t * option schedule * W :=
  if (op_blob_magic o =? 0) || negb (op_apply o) || (16 <=? length (op_nvs_namespace o))%nat
     || (16 <=? length (op_nvs_key o))%nat then (ESP_ERR_INVALID_ARG, None, w)
  else if negb keemash_weekly_schedule_self_test then (ESP_FAIL, None, w)
  else if negb allocated then (ESP_ERR_NO_MEM, None, w)
  else
    let '(_, (s, w)) := load_config (fresh_schedule o, w) in
    let s := s <| sc_last_run_day := replicate 8 UINT32_MAX |>
               <| sc_catch_up_pending := cf_enabled (sc_config s) |>
               <| sc_last_apply_index := NO_INDEX |> <| sc_last_apply_kind := APPLY_NONE |> in
    if negb started then (ESP_ERR_NO_MEM, None, w) else (ESP_OK, Some s, w).

(** ** Staging *)

Definition keemash_weekly_schedule_stage_begin (lock : bool) (generation count : Z)
  (enabled persistence_enabled : bool) : ST (schedule * W) esp_err_t :=
  if (generation =? 0) || (MAX_POINTS <? count) then mret ESP_ERR_INVALID_ARG
  else if negb lock then mret ESP_ERR_TIMEOUT
  else
    modify (fun s : schedule * W => ((s.1) <| sc_stage :=
      {| sg_active := true; sg_started_ms := monotonic_ms s.2; sg_received_mask := 0;
         sg_config := {| cf_generation := generation; cf_enabled := enabled;
                         cf_persistence_enabled := persistence_enabled; cf_count := count;
                         cf_points := replicate 8 point_zero |} |} |>, s.2));;
    mret ESP_OK.

Definition keemash_weekly_schedule_stage_point (lock : bool) (generation : Z) (index : Z)
  (point : point_t) : ST (schedule * W) esp_err_t :=
  s ← get_sched;
  if negb (point_valid (sc_max_action s) point) then mret ESP_ERR_INVALID_ARG
  else if negb lock then mret ESP_ERR_TIMEOUT
  else
    modify (fun s : schedule * W => (expire_stage (monotonic_ms s.2) s.1, s.2));;
    s ← get_sched;
    let stage := sc_stage s in
    if negb (sg_active stage) || negb (cf_generation (sg_config stage) =? generation)
       || (cf_count (sg_config stage) <=? index)
    then mret ESP_ERR_INVALID_STATE
    else
      mod_sched (fun s => s <| sc_stage ::= fun g =>
        g <| sg_config ::= fun c => c <| cf_points ::= <[Z.to_nat index := point]> |> |>
          <| sg_received_mask ::= fun m => u8 (Z.lor m (u8 (Z.shiftl 1 index))) |> |>);;
      mret ESP_OK.

Definition expected_mask (count : Z) : Z :=
  if count =? 0 then 0 else u8 (u32 (Z.shiftl 1 count) - 1).

Definition install (candidate : config_t) (s : schedule) : schedule :=
  s <| sc_config := candidate |> <| sc_stage := stage_zero |>
    <| sc_last_run_day := replicate 8 UINT32_MAX |>
    <| sc_catch_up_pending := cf_enabled candidate |> <| sc_retry_pending := false |>
    <| sc_next_retry_ms := 0 |> <| sc_last_apply_valid := false |>
    <| sc_last_apply_index := NO_INDEX |> <| sc_last_apply_kind := APPLY_NONE |>
    <| sc_last_error := ESP_OK |>.

Definition keemash_weekly_schedule_stage_commit (lock : bool) (generation : Z)
  : ST (schedule * W) esp_err_t :=
  if negb lock then mret ESP_ERR_TIMEOUT
  else
    modify (fun s : schedule * W => (expire_stage (monotonic_ms s.2) s.1, s.2));;
    s ← get_sched;
    let stage := sc_stage s in
    if negb (sg_active stage) || negb (cf_generation (sg_config stage) =? generation)
       || negb (sg_received_mask stage =? expected_mask (cf_count (sg_config stage)))
       || negb (config_valid (sc_max_action s) (sg_config stage))
    then mret ESP_ERR_INVALID_STATE
    else
      let candidate := sg_config stage in
      err ← lift_world (persist_config (sc_blob_magic s) candidate);
      if negb (err_eqb err ESP_OK) then
        mod_sched (fun s => s <| sc_last_error := err |>);; mret err
      else mod_sched (install candidate);; mret ESP_OK.

(** ** Status *)

Record status_t := {
  st_config : config_t; st_clock_valid : bool; st_catch_up_pending : bool;
  st_last_apply_valid : bool; st_local_weekday : Z; st_local_minute : Z; st_active_index : Z;
  st_next_index : Z; st_next_in_minutes : Z; st_last_apply_index : Z; st_last_apply_kind : Z;
  st_last_apply_age_ms : Z; st_time_sync_age_ms : Z; st_last_error : esp_err_t }.

(** [time_sync_age_ms] is read from [keemash_mesh_time_get_status]. *)
Definition keemash_weekly_schedule_get_status (lock : bool) (time : mesh_time_status_t)
  (s : schedule * W) : status_t :=
  if negb lock then
    {| st_config := config_zero; st_clock_valid := false; st_catch_up_pending := false;
       st_last_apply_valid := false; st_local_weekday := NO_INDEX;
       st_local_minute := UINT16_MAX; st_active_index := NO_INDEX; st_next_index := NO_INDEX;
       st_next_in_minutes := UINT16_MAX; st_last_apply_index := NO_INDEX;
       st_last_apply_kind := APPLY_NONE; st_last_apply_age_ms := UINT32_MAX;
       st_time_sync_age_ms := UINT32_MAX; st_last_error := ESP_ERR_TIMEOUT |}
  else
    let snapshot := clock_snapshot s.2 in
    let weekday := match snapshot with Some (local, _) => weekday_index local | None => NO_INDEX end in
    let minute := match snapshot with Some (local, _) => minute_of local | None => UINT16_MAX end in
    let valid := match snapshot with Some _ => true | None => false end in
    let shown := valid && cf_enabled (sc_config s.1) in
    let next := next_point_index (sc_config s.1) weekday minute in
    {| st_config := sc_config s.1; st_clock_valid := valid;
       st_catch_up_pending := sc_catch_up_pending s.1;
       st_last_apply_valid := sc_last_apply_valid s.1;
       st_local_weekday := weekday; st_local_minute := minute;
       st_active_index := if shown then latest_point_index (sc_config s.1) weekday minute else NO_INDEX;
       st_next_index := if shown then next.1 else NO_INDEX;
       st_next_in_minutes := if shown then next.2 else UINT16_MAX;
       st_last_apply_index := sc_last_apply_index s.1;
       st_last_apply_kind := sc_last_apply_kind s.1;
       st_last_apply_age_ms :=
         if sc_last_apply_valid s.1 then u32 (monotonic_ms s.2 - sc_last_apply_ms s.1) else UINT32_MAX;
       st_time_sync_age_ms := ts_last_sync_age_ms time; st_last_error := sc_last_error s.1 |}.
End Schedule.
