(* ===== verification/WeeklyProps.v ===== *)
(** * The weekly schedule: correctness

    The choice of the point that ran last and of the one that runs next, the
    persisted form, staging as a transaction, and the rule that a point runs
    once per local day. *)

From S2P Require Import Prelude.
From S2P Require Import Words.
From S2P Require Import Esp.
From S2P Require Import MeshTime.
From S2P Require Import WeeklySchedule.
#[local] Open Scope Z_scope.

(** ** The nearest occurrence *)

(** A scan that keeps the smallest cost seen, and the first index having it. *)
Definition keep_min {X} (cost : X -> option Z) (name : X -> Z) (best : Z * Z) (x : X) : Z * Z :=
  match cost x with
  | None => best
  | Some c => if c <? best.1 then (c, name x) else best
  end.

Lemma keep_min_spec {X} (cost : X -> option Z) (name : X -> Z) xs best :
  let r := fold_left (keep_min cost name) xs best in
  (r = best /\ forall x c, x ∈ xs -> cost x = Some c -> best.1 <= c) \/
  (r.1 < best.1 /\ (exists x, x ∈ xs /\ cost x = Some r.1 /\ r.2 = name x) /\
   forall x c, x ∈ xs -> cost x = Some c -> r.1 <= c).
Proof.
  cbv zeta. revert best. induction xs as [|x xs IH]; intros best; cbn [fold_left].
  { left. split; [done|]. intros x c Hx. by apply elem_of_nil in Hx. }
  remember (keep_min cost name best x) as b0 eqn:Hb0. unfold keep_min in Hb0.
  destruct (cost x) as [c|] eqn:Ec.
  - destruct (c <? best.1) eqn:Eb; bools; subst b0.
    + right. destruct (IH (c, name x)) as [[-> Hmin]|(Hlt & (y & Hy & Hcy & Hn) & Hmin)]; cbn [fst snd] in *.
      * split; [done|]. split; [exists x; split; [left|done]|].
        intros y d [->|Hy]%elem_of_cons Hd; [rewrite Ec in Hd; injection Hd; lia|by eapply Hmin].
      * split; [lia|]. split; [exists y; split; [by right|done]|].
        intros z d [->|Hz]%elem_of_cons Hd; [rewrite Ec in Hd; injection Hd; lia|by eapply Hmin].
    + destruct (IH best) as [[-> Hmin]|(Hlt & (y & Hy & Hcy & Hn) & Hmin)].
      * left. split; [done|]. intros z d [->|Hz]%elem_of_cons Hd; [|by eapply Hmin].
        rewrite Ec in Hd. injection Hd; lia.
      * right. split; [done|]. split; [exists y; split; [by right|done]|].
        intros z d [->|Hz]%elem_of_cons Hd; [|by eapply Hmin]. rewrite Ec in Hd. injection Hd; lia.
  - subst b0. destruct (IH best) as [[-> Hmin]|(Hlt & (y & Hy & Hcy & Hn) & Hmin)].
    + left. split; [done|]. intros z d [->|Hz]%elem_of_cons Hd; [congruence|by eapply Hmin].
    + right. split; [done|]. split; [exists y; split; [by right|done]|].
      intros z d [->|Hz]%elem_of_cons Hd; [congruence|by eapply Hmin].
Qed.

Lemma fold_left_pairs {A B C} (f : C -> A * B -> C) (xs : list A) (ys : list B) (c : C) :
  fold_left (fun c x => fold_left (fun c y => f c (x, y)) ys c) xs c
  = fold_left f (concat ((fun x => pair x <$> ys) <$> xs)) c.
Proof.
  revert c. induction xs as [|x xs IH]; intros c; [done|].
  cbn [fold_left fmap list_fmap concat]. rewrite fold_left_app, IH. f_equal.
  clear. revert c. induction ys as [|y ys IH]; intros c; [done|]. cbn. apply IH.
Qed.

Lemma elem_pairs {A B} (xs : list A) (ys : list B) x y :
  (x, y) ∈ concat ((fun x => pair x <$> ys) <$> xs) <-> x ∈ xs /\ y ∈ ys.
Proof.
  induction xs as [|z xs IH]; cbn [fmap list_fmap concat].
  - rewrite !elem_of_nil. tauto.
  - rewrite elem_of_app, elem_of_cons, IH. rewrite list_elem_of_fmap. split.
    + intros [(b & [= -> ->] & Hb)|[]]; tauto.
    + intros [[->|Hx] Hy]; [left; by exists y|tauto].
Qed.

(** An occurrence: point [i] on week day [day]. *)
Definition occurs (config : config_t) (i : nat) (day : Z) : Prop :=
  i ∈ points_of config /\ point_applies_on (point_at config i) day = true.

(** Minutes since, and minutes until, the weekly instant [day], [pm]. *)
Definition since (weekday minute day pm : Z) : Z :=
  (weekday * 1440 + minute - (day * 1440 + pm)) mod 10080.
Definition until (weekday minute day pm : Z) : Z :=
  let d := (day * 1440 + pm - (weekday * 1440 + minute)) mod 10080 in
  if d =? 0 then 10080 else d.

Definition minutes_ok (config : config_t) : Prop :=
  forall i, 0 <= pt_minute_of_day (point_at config i) < 1440.

Definition days : list Z := [0; 1; 2; 3; 4; 5; 6].

Lemma days_In d : d ∈ days <-> 0 <= d < 7.
Proof.
  unfold days. rewrite !elem_of_cons, elem_of_nil. lia.
Qed.

Lemma applies_day point day : point_applies_on point day = true -> 0 <= day < 7.
Proof. unfold point_applies_on. intros H. bools. lia. Qed.

Definition next_cost (config : config_t) (weekday minute : Z) (x : Z * nat) : option Z :=
  let day := Z.rem (weekday + x.1) 7 in
  if point_applies_on (point_at config x.2) day
  then Some (until weekday minute day (pt_minute_of_day (point_at config x.2))) else None.

Lemma rem_mod a : 0 <= a -> Z.rem a 7 = a mod 7.
Proof. intros. by apply Z.rem_mod_nonneg. Qed.

Lemma next_candidate_cost config weekday minute best f i :
  0 <= weekday < 7 -> 0 <= minute < 1440 -> minutes_ok config -> 0 <= f < 7 ->
  next_candidate config weekday minute f best i
  = keep_min (next_cost config weekday minute) (fun x => Z.of_nat x.2) best (f, i).
Proof.
  intros Hw Hm Hok Hf. unfold next_candidate, keep_min, next_cost. cbn [fst snd].
  rewrite rem_mod by lia.
  destruct (point_applies_on _ _) eqn:Ea; cbn [negb]; [|done].
  specialize (Hok i). set (pm := pt_minute_of_day (point_at config i)) in *.
  assert (Hd : u32 (if f * 1440 + pm - minute <=? 0 then f * 1440 + pm - minute + 7 * 1440
                    else f * 1440 + pm - minute)
               = until weekday minute ((weekday + f) mod 7) pm).
  { unfold until. destruct (_ <=? 0) eqn:E1; destruct (_ =? 0) eqn:E2; bools; words. }
  by rewrite Hd.
Qed.

Lemma fold_left_ext_in {A B} (f g : A -> B -> A) l a :
  (forall a b, b ∈ l -> f a b = g a b) -> fold_left f l a = fold_left g l a.
Proof.
  revert a. induction l as [|b l IH]; intros a H; [done|]. cbn.
  rewrite H by left. apply IH. intros x y Hy. apply H. by right.
Qed.

Lemma scan_pairs (step : Z * Z -> Z -> nat -> Z * Z) cost name ys best :
  (forall best d i, d ∈ days -> step best d i = keep_min cost name best (d, i)) ->
  fold_left (fun best d => fold_left (fun best i => step best d i) ys best) days best
  = fold_left (keep_min cost name) (concat ((fun x => pair x <$> ys) <$> days)) best.
Proof.
  intros H. rewrite <- (fold_left_pairs (keep_min cost name) days ys best).
  apply fold_left_ext_in. intros a d Hd. apply fold_left_ext_in. intros b i _. by apply H.
Qed.

Lemma until_range weekday minute day pm : 1 <= until weekday minute day pm <= 10080.
Proof. unfold until. destruct (_ =? 0) eqn:E; bools; words. Qed.

(** C33: the next point is one of the enabled points on one of its days, at
    the smallest number of minutes ahead (from 1 to a full week), and that
    number is reported; none is reported exactly when no point is enabled on
    any day. *)
Theorem next_point_correct config weekday minute :
  0 <= weekday < 7 -> 0 <= minute < 1440 -> minutes_ok config -> 0 <= cf_count config <= 8 ->
  let '(best, distance) := next_point_index config weekday minute in
  (best = NO_INDEX /\ distance = UINT16_MAX /\ forall i day, ~ occurs config i day) \/
  (exists i day, best = Z.of_nat i /\ occurs config i day /\
     distance = until weekday minute day (pt_minute_of_day (point_at config i)) /\
     forall j day', occurs config j day' ->
       distance <= until weekday minute day' (pt_minute_of_day (point_at config j))).
Proof.
  intros Hw Hm Hok Hc. unfold next_point_index.
  change [0; 1; 2; 3; 4; 5; 6] with days.
  rewrite (scan_pairs (fun best f i => next_candidate config weekday minute f best i)
    (next_cost config weekday minute) (fun x => Z.of_nat x.2) (points_of config)).
  2: { intros best d i Hd%days_In. by apply next_candidate_cost. }
  set (xs := concat _).
  pose proof (keep_min_spec (next_cost config weekday minute) (fun x => Z.of_nat x.2) xs
    (UINT32_MAX, NO_INDEX)) as Hs. cbv zeta in Hs.
  assert (Hocc : forall j day, occurs config j day ->
    exists x, x ∈ xs /\ next_cost config weekday minute x
      = Some (until weekday minute day (pt_minute_of_day (point_at config j)))).
  { intros j day [Hj Ha]. pose proof (applies_day _ _ Ha) as Hd.
    exists ((day - weekday) mod 7, j). split.
    - apply elem_pairs. split; [apply days_In; words|done].
    - unfold next_cost. cbn [fst snd]. rewrite rem_mod by words.
      replace ((weekday + (day - weekday) mod 7) mod 7) with day by words. by rewrite Ha. }
  destruct (fold_left _ xs _) as [d b]. cbn [fst snd] in *.
  destruct Hs as [[[= -> ->] Hmin]|(Hlt & ([f i] & Hx & Hcost & ->) & Hmin)].
  - left. split; [done|]. split; [done|]. intros i day Ho.
    destruct (Hocc i day Ho) as (x & Hx & Hcx). specialize (Hmin x _ Hx Hcx).
    pose proof (until_range weekday minute day (pt_minute_of_day (point_at config i))).
    unfold UINT32_MAX in *. lia.
  - right. apply elem_pairs in Hx as [Hf%days_In Hi]. unfold next_cost in Hcost. cbn [fst snd] in *.
    destruct (point_applies_on _ _) eqn:Ea; [|done]. injection Hcost as Hd.
    exists i, (Z.rem (weekday + f) 7).
    pose proof (until_range weekday minute (Z.rem (weekday + f) 7) (pt_minute_of_day (point_at config i))).
    assert (Hdist : (if d =? UINT32_MAX then UINT16_MAX
                     else if UINT16_MAX <? d then UINT16_MAX else u16 d) = d).
    { unfold UINT32_MAX, UINT16_MAX. split_if; bools; [lia|]. split_if; bools; [lia|]. words. }
    rewrite Hdist. split; [done|]. split; [done|]. split; [done|]. intros j day' Ho.
    destruct (Hocc j day' Ho) as (x & Hx & Hcx). by apply (Hmin x _ Hx Hcx).
Qed.

Definition latest_cost (config : config_t) (weekday minute : Z) (x : Z * nat) : option Z :=
  let day := Z.rem (weekday - x.1 + 7) 7 in
  let pm := pt_minute_of_day (point_at config x.2) in
  if point_applies_on (point_at config x.2) day && negb ((x.1 =? 0) && (minute <? pm))
  then Some (since weekday minute day pm) else None.

Lemma latest_candidate_cost config weekday minute best f i :
  0 <= weekday < 7 -> 0 <= minute < 1440 -> minutes_ok config -> 0 <= f < 7 ->
  latest_candidate config weekday minute f best i
  = keep_min (latest_cost config weekday minute) (fun x => Z.of_nat x.2) best (f, i).
Proof.
  intros Hw Hm Hok Hf. unfold latest_candidate, keep_min, latest_cost. cbn [fst snd].
  rewrite rem_mod by lia.
  destruct (point_applies_on _ _) eqn:Ea; cbn [negb andb]; [|done].
  specialize (Hok i). set (pm := pt_minute_of_day (point_at config i)) in *.
  destruct ((f =? 0) && (minute <? pm)) eqn:E0; cbn [negb]; [done|].
  assert (Hd : u32 (f * 1440 + minute - pm) = since weekday minute ((weekday - f + 7) mod 7) pm).
  { unfold since. apply andb_false_iff in E0. destruct E0; bools; words. }
  by rewrite Hd.
Qed.

(** The latest point: it is an enabled point whose last occurrence is the
    most recent of all; none is reported exactly when every occurrence of the
    week is later today (a point that only ran today a week ago is not found). *)
Theorem latest_point_correct config weekday minute :
  0 <= weekday < 7 -> 0 <= minute < 1440 -> minutes_ok config -> 0 <= cf_count config <= 8 ->
  let best := latest_point_index config weekday minute in
  (best = NO_INDEX /\ forall i day, occurs config i day ->
     day = weekday /\ minute < pt_minute_of_day (point_at config i)) \/
  (exists i day, best = Z.of_nat i /\ occurs config i day /\
     forall j day', occurs config j day' ->
       since weekday minute day (pt_minute_of_day (point_at config i))
       <= since weekday minute day' (pt_minute_of_day (point_at config j))).
Proof.
  intros Hw Hm Hok Hc. cbv zeta. unfold latest_point_index.
  change [0; 1; 2; 3; 4; 5; 6] with days.
  rewrite (scan_pairs (fun best f i => latest_candidate config weekday minute f best i)
    (latest_cost config weekday minute) (fun x => Z.of_nat x.2) (points_of config)).
  2: { intros best d i Hd%days_In. by apply latest_candidate_cost. }
  set (xs := concat _).
  pose proof (keep_min_spec (latest_cost config weekday minute) (fun x => Z.of_nat x.2) xs
    (UINT32_MAX, NO_INDEX)) as Hs. cbv zeta in Hs.
  assert (Hocc : forall j day, occurs config j day ->
    (day = weekday /\ minute < pt_minute_of_day (point_at config j)) \/
    exists x, x ∈ xs /\ latest_cost config weekday minute x
      = Some (since weekday minute day (pt_minute_of_day (point_at config j)))).
  { intros j day [Hj Ha]. pose proof (applies_day _ _ Ha) as Hd.
    destruct (decide (day = weekday /\ minute < pt_minute_of_day (point_at config j)))
      as [?|Hn]; [by left|right].
    exists ((weekday - day) mod 7, j). split.
    - apply elem_pairs. split; [apply days_In; words|done].
    - unfold latest_cost. cbn [fst snd]. rewrite rem_mod by words.
      replace ((weekday - (weekday - day) mod 7 + 7) mod 7) with day by words. rewrite Ha.
      replace (((weekday - day) mod 7 =? 0) && (minute <? pt_minute_of_day (point_at config j)))
        with false; [done|]. symmetry. apply andb_false_iff.
      destruct (decide (day = weekday)) as [->|Hne].
      + right. apply Z.ltb_ge. lia.
      + left. apply Z.eqb_neq. words. }
  destruct (fold_left _ xs _) as [d b]. cbn [fst snd] in *.
  destruct Hs as [[[= -> ->] Hmin]|(Hlt & ([f i] & Hx & Hcost & ->) & Hmin)].
  - left. split; [done|]. intros i day Ho. destruct (Hocc i day Ho) as [?|(x & Hx & Hcx)]; [done|].
    specialize (Hmin x _ Hx Hcx). unfold since, UINT32_MAX in *. exfalso. words.
  - right. apply elem_pairs in Hx as [Hf%days_In Hi]. unfold latest_cost in Hcost. cbn [fst snd] in *.
    destruct (point_applies_on _ _) eqn:Ea; [|done]. cbn [andb] in Hcost.
    destruct (negb _) eqn:E0; [|done]. injection Hcost as Hd.
    exists i, (Z.rem (weekday - f + 7) 7). split; [done|]. split; [done|].
    intros j day' Ho. rewrite Hd.
    destruct (Hocc j day' Ho) as [[-> Hlate]|(x & Hx & Hcx)]; [|by apply (Hmin x _ Hx Hcx)].
    rewrite rem_mod in Hd by lia. pose proof (Hok i). pose proof (Hok j).
    unfold since in *. clear - Hd Hf Hw Hm Hlate E0 H H0.
    apply negb_true_iff, andb_false_iff in E0. destruct E0; bools; words.
Qed.

(** A schedule whose only point is later today has no latest point, though
    that point ran a week ago: after a restart there is nothing to catch up. *)
Theorem latest_misses_last_week :
  let config := config_zero <| cf_generation := 1 |> <| cf_enabled := true |> <| cf_count := 1 |>
    <| cf_points := {| pt_enabled := true; pt_minute_of_day := 600; pt_action := 1;
                       pt_days_mask := 1 |} :: replicate 7 point_zero |> in
  config_valid 1 config = true /\ point_applies_on (point_at config 0) 0 = true /\
  latest_point_index config 0 599 = NO_INDEX /\ latest_point_index config 0 600 = 0 /\
  latest_point_index config 6 1439 = 0 /\ next_point_index config 0 600 = (0, 10080).
Proof. by vm_compute. Qed.

(** ** The persisted form *)

Definition persisted_ok (p : persisted_point_t) : Prop :=
  is_u16 (pp_minute_of_day p) /\ is_u8 (pp_days_mask p) /\ is_u8 (pp_action_flags p).

Definition blob_ok (b : schedule_blob_t) : Prop :=
  is_u32 (bl_magic b) /\ is_u8 (bl_version b) /\ is_u8 (bl_count b) /\ is_u8 (bl_flags b) /\
  is_u8 (bl_reserved b) /\ is_u32 (bl_generation b) /\ is_u32 (bl_checksum b) /\
  length (bl_points b) = 8%nat /\ Forall persisted_ok (bl_points b).

Lemma get_u8_of bs off z : is_u8 z -> get_u8 bs off = u8 z -> get_u8 bs off = z.
Proof. intros Hz ->. by apply u8_id. Qed.

Ltac byte_field :=
  match goal with |- _ = ?z => apply get_u8_of; [done|reflexivity] end.

Lemma decode_encode_point p pre rest :
  persisted_ok p ->
  {| pp_minute_of_day := get_le 2 (pre ++ encode_point p ++ rest) (length pre);
     pp_days_mask := get_u8 (pre ++ encode_point p ++ rest) (2 + length pre);
     pp_action_flags := get_u8 (pre ++ encode_point p ++ rest) (3 + length pre) |} = p.
Proof.
  intros (H1 & H2 & H3). destruct p as [m d a]. cbn in H1, H2, H3.
  assert (Hat : forall k, get_u8 (pre ++ encode_point (Build_persisted_point_t m d a) ++ rest)
    (k + length pre) = get_u8 (encode_point (Build_persisted_point_t m d a) ++ rest) k).
  { intros k. unfold get_u8. rewrite app_nth2 by lia. f_equal. lia. }
  rewrite !Hat. f_equal.
  - unfold get_le. rewrite slice_app_r, Nat.sub_diag by lia.
    transitivity (le_val (le_bytes 2 m)); [reflexivity|by apply le_val_bytes_2].
  - byte_field.
  - byte_field.
Qed.

Lemma list8 {A} (l : list A) :
  length l = 8%nat -> exists a b c d e f g h, l = [a; b; c; d; e; f; g; h].
Proof.
  intros H. do 8 (destruct l as [|? l]; [done|]). destruct l; [|done]. by do 8 eexists.
Qed.

Lemma length_encode_point p : length (encode_point p) = 4%nat.
Proof. unfold encode_point. by autorewrite with len. Qed.

Lemma length_encode_points ps : length (concat (encode_point <$> ps)) = (4 * length ps)%nat.
Proof.
  induction ps as [|p ps IH]; [done|]. cbn [fmap list_fmap concat].
  rewrite length_app, length_encode_point, IH. cbn. lia.
Qed.

Lemma decode_point_at b i p :
  bl_points b !! i = Some p -> persisted_ok p -> decode_point (encode_blob b) i = p.
Proof.
  intros Hi Hp.
  unfold decode_point, encode_blob, blob_body.
  set (hd := le_bytes 4 (bl_magic b) ++ le_bytes 1 (bl_version b) ++ le_bytes 1 (bl_count b) ++
    le_bytes 1 (bl_flags b) ++ le_bytes 1 (bl_reserved b) ++ le_bytes 4 (bl_generation b)).
  pose proof (take_drop_middle _ _ _ Hi) as Hsplit.
  set (pre := hd ++ concat (encode_point <$> take i (bl_points b))).
  set (rest := concat (encode_point <$> drop (S i) (bl_points b)) ++ le_bytes 4 (bl_checksum b)).
  assert (Hall : (le_bytes 4 (bl_magic b) ++ le_bytes 1 (bl_version b) ++ le_bytes 1 (bl_count b) ++
    le_bytes 1 (bl_flags b) ++ le_bytes 1 (bl_reserved b) ++ le_bytes 4 (bl_generation b) ++
    concat (encode_point <$> bl_points b)) ++ le_bytes 4 (bl_checksum b)
    = pre ++ encode_point p ++ rest).
  { unfold pre, rest, hd. rewrite <- Hsplit at 1. rewrite fmap_app, concat_app.
    cbn [fmap list_fmap concat]. by rewrite <- !app_assoc. }
  rewrite Hall. assert (Hpre : length pre = (12 + 4 * i)%nat).
  { unfold pre. rewrite length_app, length_encode_points, length_take.
    apply lookup_lt_Some in Hi. unfold hd. autorewrite with len. lia. }
  rewrite <- Hpre. replace (14 + 4 * i)%nat with (2 + length pre)%nat by lia.
  replace (15 + 4 * i)%nat with (3 + length pre)%nat by lia. by apply decode_encode_point.
Qed.

Lemma decode_encode_blob b : blob_ok b -> decode_blob (encode_blob b) = b.
Proof.
  intros (H1 & H2 & H3 & H4 & H5 & H6 & H7 & Hl & Hps).
  unfold decode_blob.
  assert (Hpts : decode_point (encode_blob b) <$> seq 0 8 = bl_points b).
  { apply list_eq. intros i. rewrite list_lookup_fmap.
    destruct (decide (i < 8)%nat) as [Hi|Hi].
    - rewrite lookup_seq_lt by done. cbn.
      destruct (lookup_lt_is_Some_2 (bl_points b) i) as [p Hp]; [lia|].
      rewrite Hp. f_equal. apply decode_point_at; [done|].
      by eapply Forall_lookup_1.
    - rewrite !lookup_ge_None_2; [done|lia|rewrite length_seq; lia]. }
  rewrite Hpts.
  assert (Hck : get_le 4 (encode_blob b) 44 = bl_checksum b).
  { unfold encode_blob, get_le. rewrite slice_app_r.
    - assert (length (blob_body b) = 44%nat) as ->.
      { unfold blob_body. autorewrite with len. rewrite length_encode_points, Hl. done. }
      rewrite slice_all by apply length_le_bytes. by apply le_val_bytes_4.
    - unfold blob_body. autorewrite with len. rewrite length_encode_points, Hl. done. }
  rewrite Hck. clear Hpts Hck. destruct b as [magic version count flags res gen pts ck].
  cbn [bl_magic bl_version bl_count bl_flags bl_reserved bl_generation bl_points bl_checksum] in *.
  f_equal; [le_field|byte_field|byte_field|byte_field|byte_field|le_field].
Qed.

(** A configuration as the C types and [stage_point] leave it. *)
Definition config_typed (config : config_t) : Prop :=
  is_u32 (cf_generation config) /\ 0 <= cf_count config <= 8 /\
  length (cf_points config) = 8%nat /\
  Forall (fun p => 0 <= pt_minute_of_day p /\ is_u8 (pt_days_mask p) /\ is_u8 (pt_action p))
    (cf_points config) /\
  forall i, (Z.to_nat (cf_count config) <= i)%nat -> point_at config i = point_zero.

Lemma lor_flag_cases (a b : bool) :
  has_flag (Z.lor (if a then 1 else 0) (if b then 2 else 0)) 1 = a /\
  has_flag (Z.lor (if a then 1 else 0) (if b then 2 else 0)) 2 = b.
Proof. by destruct a, b. Qed.

Lemma byte_cases (P : Z -> Prop) n :
  (forall k, (k < n)%nat -> P (Z.of_nat k)) -> forall z, 0 <= z < Z.of_nat n -> P z.
Proof. intros H z Hz. rewrite <- (Z2Nat.id z) by lia. apply H. lia. Qed.

Definition action_check (k : nat) : bool :=
  let a := Z.of_nat k in
  (u8 (Z.land (Z.lor a 128) (Z.lnot 128)) =? a) && has_flag (Z.lor a 128) 128
  && (u8 (Z.land (Z.lor a 0) (Z.lnot 128)) =? a) && negb (has_flag (Z.lor a 0) 128)
  && (0 <=? Z.lor a 128) && (Z.lor a 128 <? 256) && (Z.lor a 0 <? 256).

Lemma action_flags a (e : bool) :
  0 <= a < 128 ->
  let f := Z.lor a (if e then POINT_FLAG_ENABLED else 0) in
  is_u8 f /\ has_flag f POINT_FLAG_ENABLED = e /\ u8 (Z.land f (Z.lnot POINT_FLAG_ENABLED)) = a.
Proof.
  intros Ha. cbv zeta. unfold POINT_FLAG_ENABLED.
  assert (Hc : action_check (Z.to_nat a) = true).
  { assert (Hall : forallb action_check (seq 0 128) = true) by by vm_compute.
    rewrite forallb_forall in Hall. apply Hall, in_seq. lia. }
  unfold action_check in Hc. rewrite Z2Nat.id in Hc by lia. bools.
  destruct e; split_and!; try done; unfold is_u8; rewrite ?Z.lor_0_r in *; lia.
Qed.

Lemma restore_persist p :
  0 <= pt_action p < 128 -> restore_point (persist_point p) = p.
Proof.
  intros Ha. destruct p as [e m a d]. cbn in Ha. destruct (action_flags a e Ha) as (_ & H1 & H2).
  unfold restore_point, persist_point.
  cbn [pp_minute_of_day pp_days_mask pp_action_flags pt_enabled pt_minute_of_day pt_action
    pt_days_mask]. by rewrite H1, H2.
Qed.

Lemma config_valid_point max config i :
  config_valid max config = true -> (i < Z.to_nat (cf_count config))%nat ->
  point_valid max (point_at config i) = true.
Proof.
  unfold config_valid. split_if; [done|]. rewrite forallb_forall. intros H Hi.
  specialize (H i). rewrite in_seq in H. specialize (H ltac:(lia)). by bools.
Qed.

Lemma config_blob_ok magic max config :
  is_u32 magic -> max < 128 -> config_typed config -> config_valid max config = true ->
  blob_ok (config_to_blob magic config).
Proof.
  intros Hm Hmax (Hg & Hc & Hl & Hp & Hz) Hv. unfold blob_ok, config_to_blob.
  cbn [bl_magic bl_version bl_count bl_flags bl_reserved bl_generation bl_points bl_checksum].
  assert (Hck : forall data, is_u32 (checksum32 data)).
  { intros data. unfold checksum32. assert (is_u32 2166136261) as H by by vm_compute.
    revert H. generalize 2166136261. induction data as [|b data IH]; intros v H; cbn; auto. }
  split; [done|]. split; [done|]. split; [unfold is_u8; lia|]. split.
  { by destruct (cf_enabled config), (cf_persistence_enabled config). }
  split; [done|]. split; [done|]. split; [apply Hck|]. split.
  - by rewrite length_fmap, length_seq.
  - apply Forall_fmap, List.Forall_forall. intros i Hi%in_seq. unfold compose.
    destruct (i <? Z.to_nat (cf_count config))%nat eqn:Ei; [|unfold persisted_ok, is_u16, is_u8; cbn; lia].
    apply Nat.ltb_lt in Ei. pose proof (config_valid_point _ _ _ Hv Ei) as Hpv.
    assert (Hpt : 0 <= pt_minute_of_day (point_at config i) /\ is_u8 (pt_days_mask (point_at config i))
      /\ is_u8 (pt_action (point_at config i))).
    { unfold point_at. rewrite nth_lookup.
      destruct (lookup_lt_is_Some_2 (cf_points config) i) as [p Hpi]; [lia|]. rewrite Hpi. cbn.
      by eapply Forall_lookup_1 in Hp. }
    unfold point_valid in Hpv. bools. destruct Hpt as (Hp1 & Hp2 & Hp3). unfold is_u8 in Hp3.
    unfold persisted_ok, persist_point. cbn [pp_minute_of_day pp_days_mask pp_action_flags].
    split_and!; [unfold is_u16; lia|done|]. apply action_flags. lia.
Qed.

(** What the node stores is what it loads at the next boot: a valid
    configuration with actions below 128 survives encoding, the checksum and
    decoding unchanged. *)
Theorem blob_roundtrip magic max config :
  is_u32 magic -> max < 128 -> config_typed config -> config_valid max config = true ->
  cf_persistence_enabled config = true ->
  load_blob magic max (encode_blob (config_to_blob magic config)) = Some config.
Proof.
  intros Hm Hmax Ht Hv Hp. pose proof (config_blob_ok magic max config Hm Hmax Ht Hv) as Hok.
  unfold load_blob. rewrite decode_encode_blob by done.
  assert (Hbody : length (blob_body (config_to_blob magic config)) = 44%nat).
  { unfold blob_body. autorewrite with len. rewrite length_encode_points.
    cbn [config_to_blob bl_points]. by rewrite length_fmap, length_seq. }
  assert (Hlen : length (encode_blob (config_to_blob magic config)) = 48%nat).
  { unfold encode_blob. by rewrite length_app, Hbody, length_le_bytes. }
  rewrite Hlen. unfold encode_blob at 1. rewrite take_app_length' by done.
  assert (Hsum : bl_checksum (config_to_blob magic config)
    = checksum32 (blob_body (config_to_blob magic config))) by done.
  rewrite <- Hsum, Z.eqb_refl.
  change (bl_magic (config_to_blob magic config)) with magic. rewrite Z.eqb_refl.
  change (bl_version (config_to_blob magic config)) with 1. cbn [negb orb].
  assert (Hback : blob_to_config (config_to_blob magic config) = config).
  { destruct Ht as (Hg & Hc & Hl & Hpts & Hz).
    destruct config as [gen en per count pts]. cbn [cf_generation cf_enabled cf_persistence_enabled
      cf_count cf_points] in *. subst per. unfold blob_to_config, config_to_blob.
    cbn [bl_generation bl_flags bl_count bl_points cf_generation cf_enabled
      cf_persistence_enabled cf_count].
    destruct (lor_flag_cases en true) as [F1 F2].
    unfold SCHEDULE_FLAG_ENABLED, SCHEDULE_FLAG_PERSIST. rewrite F1, F2. f_equal.
    apply list_eq. intros i. rewrite list_lookup_fmap.
    destruct (decide (i < 8)%nat) as [Hi|Hi].
    2: { rewrite !lookup_ge_None_2; [done|lia|rewrite length_seq; lia]. }
    rewrite lookup_seq_lt by done. cbn [fmap option_fmap option_map Nat.add].
    destruct (lookup_lt_is_Some_2 pts i) as [p Hpi]; [lia|]. rewrite Hpi. f_equal.
    assert (Hat : point_at (Build_config_t gen en true count pts) i = p).
    { unfold point_at. cbn. by rewrite nth_lookup, Hpi. }
    destruct (i <? Z.to_nat count)%nat eqn:Ei.
    - rewrite nth_lookup, list_lookup_fmap, lookup_seq_lt by done.
      cbn [fmap option_fmap option_map default Nat.add]. rewrite Ei, Hat. apply restore_persist.
      apply Nat.ltb_lt in Ei. pose proof (config_valid_point _ _ i Hv Ei) as Hpv. rewrite Hat in Hpv.
      unfold point_valid in Hpv. bools. eapply Forall_lookup_1 in Hpts; [|done]. unfold is_u8 in *. lia.
    - apply Nat.ltb_ge in Ei. rewrite <- Hat. symmetry. by apply Hz. }
  rewrite Hback, Hp, Hv, Z.eqb_refl. done.
Qed.

(** An action with bit 7 set comes back as another action, enabled: the
    persisted byte holds the action and the enable flag together. *)
Example wide_action_lost :
  let p := {| pt_enabled := false; pt_minute_of_day := 60; pt_action := 130; pt_days_mask := 1 |} in
  point_valid 255 p = true /\ restore_point (persist_point p)
  = {| pt_enabled := true; pt_minute_of_day := 60; pt_action := 2; pt_days_mask := 1 |}.
Proof. by vm_compute. Qed.
