(* ===== verification/WeeklyRun.v ===== *)
(** * The weekly schedule: staging and running

    A commit is a transaction; every reachable schedule is valid; a point that
    ran as scheduled does not run again that local day; a round of the task
    visits every minute that began since the previous one. *)

From S2P Require Import Prelude.
From S2P Require Import Words.
From S2P Require Import Esp.
From S2P Require Import MeshTime.
From S2P Require Import WeeklySchedule.
From S2P Require Import WeeklyProps.
#[local] Open Scope Z_scope.

(** ** Validity of the schedule in force *)

Definition point_typed (p : point_t) : Prop :=
  0 <= pt_minute_of_day p /\ is_u8 (pt_days_mask p) /\ is_u8 (pt_action p).

(** The object's arrays have their sizes, the schedule in force is valid, and
    the staged one, like it, is a well-typed [config_t]. *)
Record sched_ok (s : schedule) : Prop := {
  so_valid : config_valid (sc_max_action s) (sc_config s) = true;
  so_typed : config_typed (sc_config s);
  so_stage : config_typed (sg_config (sc_stage s));
  so_days : length (sc_last_run_day s) = 8%nat }.

Lemma config_zero_typed g : is_u32 g -> config_typed (config_zero <| cf_generation := g |>).
Proof.
  intros Hg. split; [done|]. cbn. split; [lia|]. split; [done|]. split.
  - repeat apply Forall_cons_2; try apply Forall_nil_2; unfold is_u8; cbn; lia.
  - intros i _. unfold point_at. cbn. do 8 (destruct i as [|i]; [done|]). by destruct i.
Qed.

Lemma stage_zero_typed : config_typed (sg_config stage_zero).
Proof. apply (config_zero_typed 0). by vm_compute. Qed.

(** Changes that leave configuration, stage and array sizes alone. *)
Lemma ok_same s s' :
  sc_max_action s' = sc_max_action s -> sc_config s' = sc_config s ->
  sc_stage s' = sc_stage s -> length (sc_last_run_day s') = length (sc_last_run_day s) ->
  sched_ok s -> sched_ok s'.
Proof. intros H1 H2 H3 H4 [K1 K2 K3 K4]. split; rewrite ?H1, ?H2, ?H3, ?H4; done. Qed.

Lemma expire_ok now s : sched_ok s -> sched_ok (expire_stage now s).
Proof.
  intros H. unfold expire_stage. split_if; [|done]. destruct H as [H1 H2 H3 H4].
  split; try done. apply stage_zero_typed.
Qed.

Lemma sample_clock_ok now snap s : sched_ok s -> sched_ok (sample_clock now snap s).
Proof.
  intros H. unfold sample_clock. apply (expire_ok now) in H.
  destruct snap as [[local epoch]|]; [|eapply ok_same, H; done].
  split_if; eapply ok_same, H; done.
Qed.

Lemma record_ok config i cu day err now s :
  sched_ok s -> sched_ok (record_apply_result config i cu day err now s).
Proof.
  intros H. unfold record_apply_result. repeat split_if; try done; eapply ok_same, H; try done.
  cbn. by rewrite length_insert.
Qed.

Section Valid.
Context {W : Type} `{!SchedEnv W}.

Definition ok_state (s : schedule * W) : Prop := sched_ok s.1.

(** The callback keeps the schedule well formed, as calls of the library do. *)
Class CbKeepsOk := cb_ok p i c : stable (keeps ok_state) (apply_cb p i c).
Context `{!CbKeepsOk}.

Lemma stable_mod_sched f :
  (forall s, sched_ok s -> sched_ok (f s)) -> stable (keeps ok_state) (mod_sched (W := W) f).
Proof. intros Hf s Hs. by apply Hf. Qed.

Lemma stable_modify_ok (f : schedule * W -> schedule * W) :
  (forall s, sched_ok s.1 -> sched_ok (f s).1) -> stable (keeps ok_state) (modify f).
Proof. intros Hf s Hs. by apply Hf. Qed.

Lemma stable_lift {A} (m : ST W A) : stable (keeps ok_state) (lift_world m).
Proof. intros s Hs. unfold lift_world. by destruct (m s.2). Qed.

Lemma stable_get_sched : stable (keeps ok_state) (get_sched (W := W)).
Proof. intros s Hs. done. Qed.

Hint Resolve stable_get_sched stable_lift cb_ok : stable.

Lemma apply_point_ok config i cu day now :
  stable (keeps ok_state) (apply_point config i cu day now).
Proof.
  unfold apply_point. stable_auto. apply stable_mod_sched. intros s. apply record_ok.
Qed.
Hint Resolve apply_point_ok : stable.

Lemma run_points_ok config local now :
  stable (keeps ok_state) (run_points_for_minute config local now).
Proof. unfold run_points_for_minute, run_scheduled_point. stable_auto. Qed.
Hint Resolve run_points_ok : stable.

Lemma cross_minutes_ok fuel b e config now :
  stable (keeps ok_state) (cross_minutes fuel b e config now).
Proof. revert b. induction fuel as [|fuel IH]; intros b; cbn [cross_minutes]; stable_auto. Qed.
Hint Resolve cross_minutes_ok : stable.

Lemma catch_up_ok config local now : stable (keeps ok_state) (run_catch_up config local now).
Proof.
  unfold run_catch_up. stable_auto; apply stable_mod_sched; intros s Hs; split_if; try done;
    eapply ok_same, Hs; try done. cbn. by rewrite length_insert.
Qed.

Lemma retry_ok config now : stable (keeps ok_state) (run_pending_retry config now).
Proof. unfold run_pending_retry. stable_auto. Qed.
Hint Resolve catch_up_ok retry_ok : stable.

Lemma round_ok now snap s0 : stable (keeps ok_state) (schedule_round now snap s0).
Proof.
  unfold schedule_round. stable_auto; apply stable_mod_sched; intros s Hs;
    [by apply sample_clock_ok|eapply ok_same, Hs; done].
Qed.

Lemma tick_ok : stable (keeps ok_state) schedule_tick.
Proof. intros s. apply round_ok. Qed.

Lemma begin_ok lock g n e p :
  is_u32 g -> 0 <= n -> stable (keeps ok_state) (keemash_weekly_schedule_stage_begin lock g n e p).
Proof.
  intros Hg Hn. unfold keemash_weekly_schedule_stage_begin. stable_auto.
  apply stable_modify_ok. intros s [H1 H2 H3 H4]. split; try done. cbn.
  destruct (config_zero_typed g Hg) as (K1 & K2 & K3 & K4 & K5).
  match goal with H : _ || _ = false |- _ => apply orb_false_iff in H as [_ Hmax] end.
  unfold MAX_POINTS in Hmax. bools. split; [done|]. split; [cbn; lia|]. split; [done|].
  split; [done|]. intros i _. unfold point_at. cbn. do 8 (destruct i as [|i]; [done|]). by destruct i.
Qed.

Lemma stage_point_typed c i p :
  config_typed c -> 0 <= i < cf_count c -> point_typed p ->
  config_typed (c <| cf_points ::= <[Z.to_nat i := p]> |>).
Proof.
  intros (K1 & K2 & K3 & K4 & K5) Hi Hp. split; [done|]. split; [done|]. split; [cbn; by rewrite length_insert|].
  split; [by apply Forall_insert|]. intros k Hk. cbn in Hk. unfold point_at in *. cbn.
  rewrite nth_lookup, list_lookup_insert_ne by lia. rewrite <- nth_lookup. by apply K5.
Qed.

Lemma point_ok lock g i p :
  0 <= i -> point_typed p ->
  stable (keeps ok_state) (keemash_weekly_schedule_stage_point lock g i p).
Proof.
  intros Hi Hp s Hs. unfold keemash_weekly_schedule_stage_point.
  rewrite bind_eq. unfold get_sched, gets. cbn [fst snd].
  split_if; [done|]. split_if; [done|]. rewrite !bind_eq. unfold modify. cbn [fst snd].
  pose proof (expire_ok (monotonic_ms s.2) s.1 Hs) as Hx.
  split_if; [done|]. rewrite bind_eq. unfold mod_sched, modify. cbn [fst snd].
  bools. destruct Hx as [K1 K2 K3 K4]. split; try done. cbn.
  by apply (stage_point_typed (sg_config (sc_stage (expire_stage (monotonic_ms s.2) s.1))) i p).
Qed.

(** C34: a commit is a transaction: the schedule in force changes only if every
    point of the staged one arrived, it is valid, and it was stored; then the
    new schedule is the staged one and the run history restarts.  Otherwise the
    schedule in force and its run history are untouched. *)
Theorem commit_transactional lock g (s : schedule * W) :
  let r := keemash_weekly_schedule_stage_commit lock g s in
  let s1 := expire_stage (monotonic_ms s.2) s.1 in
  let candidate := sg_config (sc_stage s1) in
  (r.1 = ESP_OK /\ lock = true /\ sg_active (sc_stage s1) = true /\
   cf_generation candidate = g /\ sg_received_mask (sc_stage s1) = expected_mask (cf_count candidate) /\
   config_valid (sc_max_action s.1) candidate = true /\
   persist_config (sc_blob_magic s.1) candidate s.2 = (ESP_OK, r.2.2) /\
   r.2.1 = install candidate s1) \/
  (r.1 <> ESP_OK /\ sc_config r.2.1 = sc_config s.1 /\
   sc_last_run_day r.2.1 = sc_last_run_day s.1 /\
   sc_catch_up_pending r.2.1 = sc_catch_up_pending s.1 /\
   sc_retry_pending r.2.1 = sc_retry_pending s.1).
Proof.
  cbv zeta. unfold keemash_weekly_schedule_stage_commit.
  destruct lock; cbn [negb]; [|by right].
  rewrite !bind_eq. unfold modify, get_sched, gets. cbn [fst snd].
  set (s1 := expire_stage (monotonic_ms s.2) s.1).
  assert (Hs1 : sc_config s1 = sc_config s.1 /\ sc_last_run_day s1 = sc_last_run_day s.1 /\
    sc_catch_up_pending s1 = sc_catch_up_pending s.1 /\ sc_retry_pending s1 = sc_retry_pending s.1 /\
    sc_max_action s1 = sc_max_action s.1 /\ sc_blob_magic s1 = sc_blob_magic s.1).
  { unfold s1, expire_stage. by split_if. }
  destruct Hs1 as (E1 & E2 & E3 & E4 & E5 & E6).
  split_if; [by right|]. bools. rewrite bind_eq. unfold lift_world. cbn [fst snd].
  rewrite E6 in *. destruct (persist_config _ _ s.2) as [err w'] eqn:Ep. cbn [fst snd].
  destruct (err_eqb err ESP_OK) eqn:Ee; cbn [negb]; rewrite bind_eq; unfold mod_sched, modify;
    cbn [fst snd].
  - left. apply err_eqb_true in Ee as ->. rewrite <- E5. done.
  - right. apply err_eqb_false in Ee. done.
Qed.

Lemma commit_ok lock g : stable (keeps ok_state) (keemash_weekly_schedule_stage_commit lock g).
Proof.
  intros s Hs. unfold ok_state in *.
  destruct (expire_ok (monotonic_ms s.2) s.1 Hs) as [H1 H2 H3 H4].
  unfold keemash_weekly_schedule_stage_commit.
  destruct lock; cbn [negb]; [|done].
  rewrite !bind_eq. unfold modify, get_sched, gets. cbn [fst snd].
  split_if; [done|]. bools. rewrite bind_eq. unfold lift_world. cbn [fst snd].
  destruct (persist_config _ _ s.2) as [err w']. cbn [fst snd].
  split_if; rewrite bind_eq; unfold mod_sched, modify; cbn [fst snd].
  - eapply (ok_same (expire_stage (monotonic_ms s.2) s.1)); done.
  - split; try done. apply stage_zero_typed.
Qed.
End Valid.

Lemma get_u8_range bs off : are_bytes bs -> is_u8 (get_u8 bs off).
Proof.
  intros Hb. unfold get_u8. rewrite nth_lookup.
  destruct (bs !! off) as [b|] eqn:E; cbn; [by eapply Forall_lookup_1|by vm_compute].
Qed.

Lemma get_le_nonneg n bs off : are_bytes bs -> 0 <= get_le n bs off < 256 ^ Z.of_nat (length (slice off n bs)).
Proof. intros Hb. unfold get_le. by apply le_val_range, are_bytes_slice. Qed.

(** What [load_config] accepts is a well-typed and valid configuration. *)
Lemma load_blob_typed magic max data c :
  are_bytes data -> load_blob magic max data = Some c ->
  config_typed c /\ config_valid max c = true.
Proof.
  intros Hb. unfold load_blob. split_if; [done|]. split_if; [done|]. intros [= <-]. bools.
  match goal with H : config_valid max _ = true |- _ => rename H into Hv end.
  split; [|done].
  assert (Hcount : 0 <= get_u8 data 5 <= 8).
  { pose proof (get_u8_range data 5 Hb) as Hr. unfold is_u8 in Hr.
    unfold config_valid in Hv. destruct (_ || (MAX_POINTS <? _)) eqn:E; [done|].
    apply orb_false_iff in E as [_ E]. unfold MAX_POINTS in E. bools. cbn in E. lia. }
  split; [|split; [done|split; [done|split]]].
  - cbn. pose proof (get_le_nonneg 4 data 8 Hb) as [Hlo Hhi]. split; [done|].
    eapply Z.lt_le_trans; [exact Hhi|]. change 4294967296 with (256 ^ 4).
    apply Z.pow_le_mono_r; [lia|]. unfold slice. rewrite length_take. lia.
  - cbn [cf_points blob_to_config]. apply Forall_fmap, List.Forall_forall. intros i Hi%in_seq.
    unfold compose. split_if; [|unfold is_u8; cbn; lia].
    rewrite nth_lookup. cbn [decode_blob bl_points]. rewrite list_lookup_fmap, lookup_seq_lt by lia.
    split; [exact (proj1 (get_le_nonneg 2 data (12 + 4 * i) Hb))|].
    split; [exact (get_u8_range data (14 + 4 * i) Hb)|apply u8_is].
  - cbn [cf_count blob_to_config decode_blob bl_count]. intros i Hi. unfold point_at.
    cbn [cf_points blob_to_config]. rewrite nth_lookup, list_lookup_fmap.
    destruct (decide (i < 8)%nat) as [H8|H8].
    + rewrite lookup_seq_lt by done. cbn [fmap option_fmap option_map default Nat.add].
      replace (i <? Z.to_nat (bl_count (decode_blob data)))%nat with false; [done|].
      symmetry. by apply Nat.ltb_ge.
    + by rewrite lookup_ge_None_2 by (rewrite length_seq; lia).
Qed.

Section Reachable.
Context {W : Type} `{!SchedEnv W} `{!CbKeepsOk}.

(** The storage returns bytes. *)
Class StoredBytes := stored_bytes w : are_bytes (nvs_get_blob (W := W) w).1.2.
Context `{!StoredBytes}.

(** States reached from [start] by calls of the API and rounds of the task, in
    any order, the world moving on in between. *)
Inductive sched_reachable : schedule * W -> Prop :=
  | sr_start o w w' s :
      keemash_weekly_schedule_start o true true w = (ESP_OK, Some s, w') ->
      sched_reachable (s, w')
  | sr_world s w w' : sched_reachable (s, w) -> sched_reachable (s, w')
  | sr_tick s : sched_reachable s -> sched_reachable (schedule_tick s).2
  | sr_begin s lock g n e p : is_u32 g -> 0 <= n -> sched_reachable s ->
      sched_reachable (keemash_weekly_schedule_stage_begin lock g n e p s).2
  | sr_point s lock g i p : 0 <= i -> point_typed p -> sched_reachable s ->
      sched_reachable (keemash_weekly_schedule_stage_point lock g i p s).2
  | sr_commit s lock g : sched_reachable s ->
      sched_reachable (keemash_weekly_schedule_stage_commit lock g s).2.

Lemma load_config_ok o (w : W) : sched_ok (load_config (fresh_schedule o, w)).2.1.
Proof.
  unfold load_config. rewrite !bind_eq. unfold mod_sched, modify, lift_world, get_sched, gets.
  cbn [fst snd]. set (s0 := (fresh_schedule o) <| sc_config := config_zero <| cf_generation := 1 |> |>).
  assert (Hs0 : sched_ok s0).
  { split; [done| |apply stage_zero_typed|done]. apply config_zero_typed. by vm_compute. }
  destruct (nvs_open false w) as [opened w1]. cbn [fst snd].
  split_if; [done|]. rewrite !bind_eq. cbn [fst snd].
  pose proof (stored_bytes w1) as Hb. destruct (nvs_get_blob w1) as [[err data] w2]. cbn [fst snd] in *.
  split_if; [done|]. destruct (load_blob _ _ data) as [c|] eqn:El; [|done]. cbn [fst snd].
  destruct (load_blob_typed _ _ _ _ Hb El) as [Ht Hv]. by split; [| |apply stage_zero_typed|].
Qed.

(** C35: whatever is staged, committed, loaded from storage or run, the schedule
    in force is valid: its points have a minute of the day, at least one day
    and an allowed action, and no two enabled points share a minute of a day. *)
Theorem schedule_always_valid (s : schedule * W) : sched_reachable s -> sched_ok s.1.
Proof.
  induction 1 as [o w w' s Hst|s w w' _ IH|s _ IH|s lock g n e p Hg Hn _ IH|s lock g i p Hi Hp _ IH
    |s lock g _ IH].
  - unfold keemash_weekly_schedule_start in Hst. destruct (_ || _) eqn:E; [done|].
    change (negb keemash_weekly_schedule_self_test) with false in Hst. cbn [negb] in Hst.
    pose proof (load_config_ok o w) as Hok.
    destruct (load_config (fresh_schedule o, w)) as [u [s1 w1]]. cbn [fst snd] in *.
    injection Hst as <- <-. destruct Hok. by split.
  - done.
  - by apply tick_ok.
  - by apply (begin_ok lock g n e p Hg Hn s).
  - by apply (point_ok lock g i p Hi Hp s).
  - by apply (commit_ok lock g s).
Qed.
End Reachable.

(** ** Once a day *)

Section Once.
Context {W : Type} `{!SchedEnv W}.

(** [runs] observes the calls of the callback; the callback itself leaves the
    schedule alone. *)
Class Observed := {
  runs : W -> list (Z * bool);
  apply_local p i c s : (apply_cb (W := W) p i c s).2.1 = s.1;
  apply_runs p i c s : runs (apply_cb p i c s).2.2 = runs s.2 ++ [(i, c)] }.
Context {Obs : Observed} (i : nat) (day : Z).

(** Point [i] is done for [day] and no retry of it is pending. *)
Definition done_today (s : schedule) : Prop :=
  last_run s i = day /\ ~ (sc_retry_pending s = true /\ Z.to_nat (sc_retry_index s) = i).

(** A step that runs point [i] as scheduled only if it was not done, and that
    keeps it done. *)
Definition once (s s' : schedule * W) : Prop :=
  exists extra, runs s'.2 = runs s.2 ++ extra /\
    (done_today s.1 -> done_today s'.1 /\ (Z.of_nat i, false) ∉ extra).

#[local] Instance once_preorder : PreOrder once.
Proof.
  split.
  - intros s. exists []. rewrite app_nil_r. split; [done|]. intros H. split; [done|].
    by apply not_elem_of_nil.
  - intros x y z (e1 & H1 & K1) (e2 & H2 & K2). exists (e1 ++ e2).
    split; [by rewrite H2, H1, app_assoc|]. intros Hx. destruct (K1 Hx) as [Hy N1].
    destruct (K2 Hy) as [Hz N2]. split; [done|]. rewrite elem_of_app. tauto.
Qed.

Lemma once_mod f :
  (forall s, done_today s -> done_today (f s)) -> stable once (mod_sched (W := W) f).
Proof.
  intros Hf s. exists []. cbn. rewrite app_nil_r. split; [done|]. intros Hs.
  split; [by apply Hf|by apply not_elem_of_nil].
Qed.

Lemma record_done config j cu d err now s :
  cu = true \/ j <> i -> done_today s -> done_today (record_apply_result config j cu d err now s).
Proof.
  intros Hj [H1 H2]. unfold record_apply_result, done_today, last_run in *.
  repeat split_if; try done; cbn; split; try done; try (by intros []).
  - destruct Hj as [|Hj]; [done|]. rewrite nth_lookup, list_lookup_insert_ne by done.
    by rewrite <- nth_lookup.
  - intros [_ Hr]. rewrite Nat2Z.id in Hr. by destruct Hj.
Qed.

Lemma once_apply config j cu d now :
  cu = true \/ j <> i -> stable once (apply_point config j cu d now).
Proof.
  intros Hj. unfold apply_point. apply stable_bind; [apply _| |].
  - intros s. exists [(Z.of_nat j, cu)]. rewrite apply_runs, apply_local. split; [done|].
    intros Hs. split; [done|]. rewrite list_elem_of_singleton. intros [= Hi <-].
    destruct Hj; [done|]. lia.
  - intros err. apply stable_bind; [apply _| |intros []; apply stable_ret; apply _].
    apply once_mod. intros s. by apply record_done.
Qed.

(** Running point [i] when it is not done promises nothing. *)
Lemma once_vacuous config j cu d now s :
  ~ done_today s.1 -> once s (apply_point config j cu d now s).2.
Proof.
  intros Hn. unfold apply_point. rewrite !bind_eq. unfold mod_sched, modify. cbn [fst snd].
  exists [(Z.of_nat j, cu)]. cbn. rewrite apply_runs. split; [done|]. by intros.
Qed.

Lemma should_run_done config d now s :
  d = day -> done_today s -> should_run config i d now s = false.
Proof.
  intros -> [H1 _]. unfold should_run. rewrite H1, Z.eqb_refl. cbn.
  by rewrite andb_false_r.
Qed.

Lemma once_run config j d now :
  d = day -> stable once (run_scheduled_point config j d now).
Proof.
  intros Hd s. unfold run_scheduled_point. rewrite bind_eq. unfold gets. cbn [fst snd].
  destruct (should_run config j d now s.1) eqn:E; [|reflexivity].
  rewrite bind_eq. change (once s (apply_point config j false d now s).2).
  destruct (decide (j = i)) as [->|Hne]; [|apply once_apply; by right].
  apply once_vacuous. intros Hdone. rewrite should_run_done in E; done.
Qed.

Lemma once_minute config local now :
  local_day_key local = day -> stable once (run_points_for_minute config local now).
Proof.
  intros Hd. unfold run_points_for_minute. apply stable_for_each; [apply _|]. intros j.
  apply stable_when; [apply _|]. by apply once_run.
Qed.

Lemma once_cross fuel b e config now :
  (forall t l, b <= t <= e -> localtime t = Some l -> local_day_key l = day) ->
  stable once (cross_minutes fuel b e config now).
Proof.
  revert b. induction fuel as [|fuel IH]; intros b Ht; cbn [cross_minutes];
    [apply stable_ret; apply _|].
  destruct (b <=? e) eqn:Eb; [|apply stable_ret; apply _]. bools.
  apply stable_bind; [apply _| |].
  - destruct (localtime b) as [l|] eqn:El; [|apply stable_ret; apply _].
    apply once_minute. apply (Ht b l); [lia|done].
  - intros _. apply IH. intros t l Hb. apply Ht. lia.
Qed.

Lemma once_retry config now : stable once (run_pending_retry config now).
Proof.
  intros s. unfold run_pending_retry. rewrite bind_eq. unfold get_sched, gets. cbn [fst snd].
  destruct (_ && _) eqn:E; [|reflexivity]. bools.
  rewrite bind_eq. change (once s (apply_point config (Z.to_nat (sc_retry_index s.1)) false
    (sc_retry_day_key s.1) now s).2).
  destruct (decide (Z.to_nat (sc_retry_index s.1) = i)) as [He|Hne]; [|apply once_apply; by right].
  apply once_vacuous. intros [_ Hn]. by apply Hn.
Qed.

Lemma once_catch_up config local now :
  local_day_key local = day -> stable once (run_catch_up config local now).
Proof.
  intros Hd. unfold run_catch_up.
  destruct (negb _).
  - apply stable_bind; [apply _|apply once_apply; by left|]. intros err.
    apply stable_when; [apply _|]. apply once_mod. intros s [H1 H2]. split_if; [|done].
    unfold done_today, last_run in *. cbn. split; [|done]. rewrite Hd, nth_lookup.
    destruct (decide (Z.to_nat (latest_point_index config (weekday_index local) (minute_of local)) = i))
      as [->|Hne].
    + destruct (decide (i < length (sc_last_run_day s))%nat) as [Hl|Hl].
      * by rewrite list_lookup_insert_eq.
      * rewrite list_insert_ge by lia. by rewrite <- nth_lookup.
    + rewrite list_lookup_insert_ne by done. by rewrite <- nth_lookup.
  - apply once_mod. intros s [H1 H2]. by split_if.
Qed.

(** Every instant this round looks at lies on [day]. *)
Definition day_within (s : schedule * W) : Prop :=
  forall t l,
    t = wall_time s.2 \/
    (sc_last_clock_valid s.1 = true /\
     clock_is_continuous (sc_last_wall_epoch s.1) (wall_time s.2) (sc_last_sample_ms s.1)
       (monotonic_ms s.2) = true /\ sc_last_wall_epoch s.1 < t <= wall_time s.2) ->
    localtime t = Some l -> local_day_key l = day.

Lemma sample_done now snap s : done_today s -> done_today (sample_clock now snap s).
Proof.
  intros [H1 H2]. unfold done_today, last_run, sample_clock, expire_stage in *.
  destruct snap as [[local epoch]|]; repeat split_if; cbn; split; try done; by intros [].
Qed.

Lemma first_boundary_after t : t < first_boundary t.
Proof. unfold first_boundary. Z.to_euclidean_division_equations. lia. Qed.

Lemma once_round now snap s0 :
  (forall l e, snap = Some (l, e) -> local_day_key l = day /\
     forall t l', sc_last_clock_valid s0 = true ->
       clock_is_continuous (sc_last_wall_epoch s0) e (sc_last_sample_ms s0) now = true ->
       sc_last_wall_epoch s0 < t <= e -> localtime t = Some l' -> local_day_key l' = day) ->
  stable once (schedule_round now snap s0).
Proof.
  intros Hsnap. unfold schedule_round.
  apply stable_bind; [apply _|apply once_mod; intros s; apply sample_done|]. intros _.
  apply stable_bind; [apply _|apply stable_gets; apply _|]. intros s.
  apply stable_bind; [apply _|apply stable_when; [apply _|by apply once_mod]|]. intros _.
  destruct snap as [[l e]|]; [|apply stable_ret; apply _].
  destruct (Hsnap l e eq_refl) as [Hl Hb].
  destruct (negb _); [apply stable_ret; apply _|].
  apply stable_bind; [apply _|apply stable_when; [apply _|by apply once_catch_up]|]. intros _.
  apply stable_bind; [apply _|apply once_retry|]. intros _.
  apply stable_bind; [apply _| |intros _; by apply once_minute].
  destruct (sc_last_clock_valid s0 && clock_is_continuous _ _ _ _ && _) eqn:E;
    [|apply stable_ret; apply _].
  bools. apply once_cross. intros t l' Ht. apply Hb; [done|done|].
  pose proof (first_boundary_after (sc_last_wall_epoch s0)). lia.
Qed.

Lemma once_tick s : day_within s -> once s (schedule_tick s).2.
Proof.
  intros Hday. unfold schedule_tick. apply once_round. intros l e H.
  unfold clock_snapshot in H. destruct (_ <=? _); [done|].
  destruct (localtime (wall_time s.2)) eqn:El; [|done]. injection H as <- <-.
  split; [apply (Hday (wall_time s.2)); [by left|done]|].
  intros u l' Hv Hc Hu. apply Hday. by right.
Qed.

(** Rounds of the task during [day], the world moving on in between. *)
Inductive rounds_of_day : schedule * W -> schedule * W -> Prop :=
  | rd_end s : rounds_of_day s s
  | rd_world s w w' s2 : runs w' = runs w -> rounds_of_day (s, w') s2 -> rounds_of_day (s, w) s2
  | rd_tick s s2 : day_within s -> rounds_of_day (schedule_tick s).2 s2 -> rounds_of_day s s2.

Lemma rounds_once s s2 : rounds_of_day s s2 -> once s s2.
Proof.
  induction 1 as [s|s w w' s2 Hw _ IH|s s2 Hd _ IH]; [reflexivity| |].
  - destruct IH as (extra & H1 & H2). exists extra. cbn in *. by rewrite H1, Hw.
  - etransitivity; [by apply once_tick|done].
Qed.

(** C19: a point runs at most once a day: after it ran as scheduled with success,
    no round of the task on the same local day runs it as scheduled again,
    whatever minutes repeat (end of daylight saving), fail, are retried or
    caught up in between. *)
Theorem once_per_day config s s2 now :
  cf_generation (sc_config s.1) = cf_generation config -> (i < length (sc_last_run_day s.1))%nat ->
  rounds_of_day (record_apply_result config i false day ESP_OK now s.1, s.2) s2 ->
  exists extra, runs s2.2 = runs s.2 ++ extra /\ (Z.of_nat i, false) ∉ extra.
Proof.
  intros Hg Hi Hr. apply rounds_once in Hr as (extra & H1 & H2).
  exists extra. split; [done|]. apply H2. cbn [fst]. unfold record_apply_result.
  rewrite Hg, Z.eqb_refl. change (err_eqb ESP_OK ESP_OK) with true. split.
  - unfold last_run. cbn. by rewrite nth_lookup, list_lookup_insert_eq.
  - cbn. by intros [].
Qed.
End Once.

(** ** No minute is skipped *)

Section Crossed.
Context {W : Type} `{!SchedEnv W}.

Fixpoint minute_list (n : nat) (b : Z) : list Z :=
  match n with
  | O => []
  | S n => b :: minute_list n (b + 60)
  end.

Definition run_boundary (config : config_t) (now t : Z) : ST (schedule * W) unit :=
  match localtime t with
  | Some crossed => run_points_for_minute config crossed now
  | None => mret tt
  end.

Lemma cross_minutes_list n b e config now s :
  n = minutes_fuel b e ->
  cross_minutes n b e config now s = for_each (minute_list n b) (run_boundary config now) s.
Proof.
  revert b s. induction n as [|n IH]; intros b s Hn; [done|].
  cbn [cross_minutes minute_list for_each]. unfold minutes_fuel in *.
  replace (b <=? e) with true by (symmetry; apply Z.leb_le; words).
  rewrite !bind_eq. apply IH. words.
Qed.

Lemma minute_list_In n b t :
  t ∈ minute_list n b <-> exists k, 0 <= k < Z.of_nat n /\ t = b + 60 * k.
Proof.
  revert b. induction n as [|n IH]; intros b; cbn [minute_list].
  { rewrite elem_of_nil. split; [done|]. intros (k & Hk & _). lia. }
  rewrite elem_of_cons, IH. split.
  - intros [->|(k & Hk & ->)]; [exists 0; lia|exists (k + 1); lia].
  - intros (k & Hk & ->). destruct (decide (k = 0)) as [->|]; [left; lia|].
    right. exists (k - 1). lia.
Qed.

(** A round catches up with its delay: the instants it looks at are exactly
    the starts of minutes after the previous sample and up to the current one,
    in order, each once. *)
Theorem minutes_covered config now previous epoch s :
  0 <= previous ->
  let b := first_boundary previous in
  let ts := minute_list (minutes_fuel b epoch) b in
  cross_minutes (minutes_fuel b epoch) b epoch config now s = for_each ts (run_boundary config now) s /\
  (forall t, t ∈ ts <-> previous < t <= epoch /\ t mod 60 = 0).
Proof.
  intros Hp. cbv zeta. split; [by apply cross_minutes_list|]. intros t.
  rewrite minute_list_In. unfold minutes_fuel, first_boundary.
  rewrite Z.quot_div_nonneg by lia. split.
  - intros (k & Hk & ->). split; words.
  - intros [Ht Hm]. exists ((t - (previous / 60 + 1) * 60) / 60). split; words.
Qed.
End Crossed.

(** ** A small world, and what is lost in it *)

(** The callback fails for point 0 until [d_ready]. *)
Record demo := { d_clock : Z; d_ready : Z; d_runs : list (Z * bool) }.

Definition demo_time (t : Z) : option tm :=
  Some {| tm_year := 120; tm_yday := (t / 86400) mod 365; tm_wday := (t / 86400) mod 7;
          tm_hour := (t mod 86400) / 3600; tm_min := (t mod 3600) / 60 |}.

#[export] Instance demo_env : SchedEnv demo := {|
  timer_us := fun w => d_clock w * 1000000;
  wall_time := d_clock;
  localtime := demo_time;
  nvs_open := fun _ w => (ESP_OK, w);
  nvs_get_blob := fun w => ((ESP_ERR_NVS_NOT_FOUND, []), w);
  nvs_set_blob := fun _ w => (ESP_OK, w);
  nvs_erase_key := fun w => (ESP_ERR_NVS_NOT_FOUND, w);
  nvs_commit := fun w => (ESP_OK, w);
  apply_cb := fun _ i catch_up s =>
    (if (i =? 0) && (d_clock s.2 <? d_ready s.2) then ESP_FAIL else ESP_OK,
     (s.1, {| d_clock := d_clock s.2; d_ready := d_ready s.2;
              d_runs := d_runs s.2 ++ [(i, catch_up)] |})) |}.

#[export] Instance demo_observed : Observed (W := demo).
Proof. exists d_runs; done. Defined.
#[export] Instance demo_ok : CbKeepsOk (W := demo).
Proof. intros p i c s Hs. exact Hs. Defined.
#[export] Instance demo_bytes : StoredBytes (W := demo).
Proof. intros w. apply Forall_nil_2. Defined.

Definition midnight : Z := 18263 * 86400.
Definition demo_at (minute second : Z) (s : schedule * demo) : schedule * demo :=
  (s.1, {| d_clock := midnight + minute * 60 + second; d_ready := d_ready s.2;
           d_runs := d_runs s.2 |}).

Definition demo_options : options_t :=
  {| op_nvs_namespace := [119]; op_nvs_key := [107]; op_blob_magic := 7; op_max_action := 1;
     op_catch_up_on_clock_ready := false; op_stage_timeout_ms := 0; op_task_period_ms := 0;
     op_apply := true |}.
Definition demo_world : demo := {| d_clock := midnight + 590 * 60; d_ready := midnight + 601 * 60 + 5; d_runs := [] |}.
Definition demo_start : schedule * demo :=
  (default (fresh_schedule demo_options)
     (keemash_weekly_schedule_start demo_options true true demo_world).1.2, demo_world).

Definition demo_point (minute : Z) : point_t :=
  {| pt_enabled := true; pt_minute_of_day := minute; pt_action := 1; pt_days_mask := ALL_DAYS |}.

(** Points at 10:00 and 10:01, staged and committed. *)
Definition demo_set : schedule * demo :=
  (keemash_weekly_schedule_stage_commit true 5
     (keemash_weekly_schedule_stage_point true 5 1 (demo_point 601)
        (keemash_weekly_schedule_stage_point true 5 0 (demo_point 600)
           (keemash_weekly_schedule_stage_begin true 5 2 true false demo_start).2).2).2).2.

Definition tick_at (minute second : Z) (s : schedule * demo) : schedule * demo :=
  (schedule_tick (demo_at minute second s)).2.

Definition demo_missed : schedule * demo :=
  tick_at 602 0 (tick_at 601 30 (tick_at 601 10 (tick_at 601 0
    (tick_at 600 1 (tick_at 600 0 (tick_at 599 59 demo_set)))))).

(** A failed point is forgotten when another point succeeds: the 10:00 point
    fails at 10:00 and again at 10:01, the success of the 10:01 point clears
    the retry, and although the callback would accept it five seconds later the
    10:00 point is never run again and never recorded as done. *)
Theorem failed_point_forgotten :
  sc_config demo_set.1 = (config_zero <| cf_generation := 5 |> <| cf_enabled := true |>
    <| cf_count := 2 |> <| cf_points := [demo_point 600; demo_point 601; point_zero; point_zero;
                                         point_zero; point_zero; point_zero; point_zero] |>) /\
  d_runs demo_missed.2 = [(0, false); (0, false); (1, false)] /\
  sc_retry_pending demo_missed.1 = false /\
  last_run demo_missed.1 0 = UINT32_MAX /\
  d_ready demo_missed.2 < d_clock demo_missed.2.
Proof. by vm_compute. Qed.

(** ** Witnesses *)

Definition two_points : config_t :=
  config_zero <| cf_generation := 5 |> <| cf_enabled := true |> <| cf_persistence_enabled := true |>
    <| cf_count := 2 |> <| cf_points := [demo_point 600; demo_point 601; point_zero; point_zero;
                                         point_zero; point_zero; point_zero; point_zero] |>.

Lemma two_points_minutes : minutes_ok two_points.
Proof.
  intros i. unfold point_at. cbn. do 8 (destruct i as [|i]; [cbn; lia|]). destruct i; cbn; lia.
Qed.

Lemma two_points_typed : config_typed two_points.
Proof.
  split; [by vm_compute|]. split; [by vm_compute|]. split; [done|]. split.
  - repeat apply Forall_cons_2; try apply Forall_nil_2; unfold is_u8; cbn; unfold ALL_DAYS; lia.
  - intros i Hi. unfold point_at. cbn in *.
    do 8 (destruct i as [|i]; [done || lia|]). by destruct i.
Qed.

Example next_point_correct_witness :
  let '(best, distance) := next_point_index two_points 0 600 in
  (best = NO_INDEX /\ distance = UINT16_MAX /\ forall i day, ~ occurs two_points i day) \/
  (exists i day, best = Z.of_nat i /\ occurs two_points i day /\
     distance = until 0 600 day (pt_minute_of_day (point_at two_points i)) /\
     forall j day', occurs two_points j day' ->
       distance <= until 0 600 day' (pt_minute_of_day (point_at two_points j))).
Proof.
  apply (next_point_correct two_points 0 600); [lia|lia|apply two_points_minutes|].
  vm_compute. split; congruence.
Defined.

Example latest_point_correct_witness :
  let best := latest_point_index two_points 0 600 in
  (best = NO_INDEX /\ forall i day, occurs two_points i day ->
     day = 0 /\ 600 < pt_minute_of_day (point_at two_points i)) \/
  (exists i day, best = Z.of_nat i /\ occurs two_points i day /\
     forall j day', occurs two_points j day' ->
       since 0 600 day (pt_minute_of_day (point_at two_points i))
       <= since 0 600 day' (pt_minute_of_day (point_at two_points j))).
Proof.
  apply (latest_point_correct two_points 0 600); [lia|lia|apply two_points_minutes|].
  vm_compute. split; congruence.
Defined.

Example blob_roundtrip_witness :
  load_blob 7 1 (encode_blob (config_to_blob 7 two_points)) = Some two_points.
Proof.
  apply (blob_roundtrip 7 1 two_points).
  - by vm_compute.
  - lia.
  - apply two_points_typed.
  - by vm_compute.
  - reflexivity.
Defined.

Lemma demo_start_reachable : sched_reachable demo_start.
Proof. refine (sr_start demo_options demo_world demo_world demo_start.1 _). by vm_compute. Qed.

Example schedule_always_valid_witness : sched_ok (schedule_tick demo_start).2.1.
Proof.
  apply (schedule_always_valid (schedule_tick demo_start).2). apply sr_tick.
  apply demo_start_reachable.
Defined.

Definition demo_day : Z := local_day_key
  (default {| tm_year := 0; tm_yday := 0; tm_wday := 0; tm_hour := 0; tm_min := 0 |} (demo_time midnight)).

(** The 10:01 point runs; then a round at 10:01:01 of the same day. *)
Definition ran_once : schedule * demo :=
  (record_apply_result (sc_config demo_set.1) 1 false demo_day ESP_OK 600 demo_set.1,
   (demo_at 601 1 demo_set).2).

Lemma ran_once_day : day_within demo_day ran_once.
Proof.
  intros t l Ht Hl. injection Hl as <-. destruct Ht as [->|(Hv & _)]; [by vm_compute|].
  by vm_compute in Hv.
Qed.

Example once_per_day_witness :
  exists extra, runs (schedule_tick ran_once).2.2 = runs ran_once.2 ++ extra /\
    (Z.of_nat 1, false) ∉ extra.
Proof.
  apply (once_per_day 1 demo_day (sc_config demo_set.1) (demo_set.1, ran_once.2)
    (schedule_tick ran_once).2 600).
  - reflexivity.
  - vm_compute. lia.
  - apply (rd_tick demo_day _ _ ran_once_day). apply rd_end.
Defined.

Example minutes_covered_witness :
  180 ∈ minute_list (minutes_fuel (first_boundary 119) 300) (first_boundary 119)
    <-> 119 < 180 <= 300 /\ 180 mod 60 = 0.
Proof.
  pose proof (minutes_covered (W := demo) two_points 0 119 300 demo_start) as H.
  apply H. lia.
Defined.
