(* ===== verification/OtaLib.v ===== *)
(** * OTA v3: results, build configuration and the digest interface

    The OTA v3 files return [esp_err_t] early at every failed check; here such
    a function is a term of the error monad [res].  Mbed TLS's message digests
    are not part of the sources: [Digest] is the set of calls the sources make
    (each may fail, as the C code allows for) and [DigestLaws] is what their
    documentation promises and the sources rely on. *)

From S2P Require Import Prelude.
From S2P Require Import Words.
From S2P Require Import Esp.
#[local] Open Scope Z_scope.

(** ** The error monad *)

Definition res (A : Type) : Type := (esp_err_t + A)%type.

#[export] Instance res_ret : MRet res := fun A a => inr a.
#[export] Instance res_bind : MBind res := fun A B k m =>
  match m with inl e => inl e | inr a => k a end.

(** [if (b) return e;] *)
Definition fail_if (b : bool) (e : esp_err_t) : res unit := if b then inl e else inr tt.

(** [esp_err_t err = f(); if (err != ESP_OK) return err;] *)
Definition try_err (e : esp_err_t) : res unit := if err_eqb e ESP_OK then inr tt else inl e.

(** [if (f() != 0) return e;] for a callee that yields a value on success. *)
Definition or_fail {A : Type} (o : option A) (e : esp_err_t) : res A :=
  match o with Some a => inr a | None => inl e end.

(** What the caller sees as the return value. *)
Definition code {A : Type} (r : res A) : esp_err_t :=
  match r with inl e => e | inr _ => ESP_OK end.

Section Res.
Context {A B : Type}.

Lemma res_bind_inr (m : res A) (k : A -> res B) b :
  (m ≫= k) = inr b <-> exists a, m = inr a /\ k a = inr b.
Proof.
  split.
  - destruct m as [e|a]; [done|]. intros H. by exists a.
  - by intros (a & -> & H).
Qed.

Lemma or_fail_inr (o : option A) e a : or_fail o e = inr a <-> o = Some a.
Proof. destruct o; cbn; split; congruence. Qed.
End Res.

Lemma fail_if_inr b e u : fail_if b e = inr u <-> b = false.
Proof. destruct b, u; cbn; split; congruence. Qed.

Lemma try_err_inr e u : try_err e = inr u <-> e = ESP_OK.
Proof.
  unfold try_err. destruct u. destruct (err_eqb e ESP_OK) eqn:E.
  - apply err_eqb_true in E. by split.
  - apply err_eqb_false in E. split; congruence.
Qed.

(** A successful run of a sequence of checks, taken apart check by check. *)
Ltac res_inv :=
  repeat match goal with
  | H : (_ ≫= _) = inr _ |- _ =>
      let a := fresh "a" in let Ha := fresh "E" in
      apply res_bind_inr in H as (a & Ha & H)
  | H : fail_if _ _ = inr _ |- _ => apply fail_if_inr in H
  | H : try_err _ = inr _ |- _ => apply try_err_inr in H
  | H : or_fail _ _ = inr _ |- _ => apply or_fail_inr in H
  | H : mret _ = inr _ |- _ => injection H as H
  | H : @inr esp_err_t _ _ = inr _ |- _ => injection H as H
  | H : inl _ = inr _ |- _ => discriminate H
  | H : (if ?b then inl _ else _) = inr _ |- _ => destruct b eqn:?; [discriminate H|]
  end.

(** A failing function reports an error: [inl ESP_OK] does not occur. *)
Definition proper {A : Type} (m : res A) : Prop := m <> inl ESP_OK.

Lemma proper_bind {A B : Type} (m : res A) (k : A -> res B) :
  proper m -> (forall a, proper (k a)) -> proper (m ≫= k).
Proof. unfold proper. intros Hm Hk. destruct m; cbn; [congruence|apply Hk]. Qed.
Lemma proper_fail_if b e : e <> ESP_OK -> proper (fail_if b e).
Proof. unfold proper. destruct b; cbn; congruence. Qed.
Lemma proper_or_fail {A : Type} (o : option A) e : e <> ESP_OK -> proper (or_fail o e).
Proof. unfold proper. destruct o; cbn; congruence. Qed.
Lemma proper_ret {A : Type} (a : A) : proper (mret a).
Proof. done. Qed.
Lemma proper_try_err e : proper (try_err e).
Proof.
  unfold proper, try_err. destruct (err_eqb e ESP_OK) eqn:E; [done|].
  apply err_eqb_false in E. congruence.
Qed.

Ltac proper_auto :=
  repeat first
    [ apply proper_bind; [|intros ?]
    | apply proper_fail_if; discriminate
    | apply proper_or_fail; discriminate
    | apply proper_ret
    | apply proper_try_err
    | lazymatch goal with
      | |- proper (if ?b then _ else _) => destruct b
      | |- proper (let '(_, _) := ?x in _) => destruct x
      | |- proper (inl _) => discriminate
      end ].

(** ** Byte strings *)

(** [size_t] length of a buffer. *)
Definition blen (bs : bytes) : Z := Z.of_nat (length bs).

Lemma blen_nonneg bs : 0 <= blen bs. Proof. unfold blen. lia. Qed.
Lemma blen_app a b : blen (a ++ b) = blen a + blen b.
Proof. unfold blen. rewrite length_app. lia. Qed.
Lemma blen_nil : blen [] = 0. Proof. done. Qed.
Lemma blen_zero bs : blen bs = 0 -> bs = [].
Proof. unfold blen. destruct bs; cbn; [done|lia]. Qed.

(** [memset(p, 0, n)] *)
Definition zeros (n : nat) : bytes := replicate n 0.

(** A member of a struct laid out as consecutive parts. *)
Lemma slice_part (parts : list bytes) i p off :
  parts !! i = Some p -> off = length (concat (take i parts)) ->
  slice off (length p) (concat parts) = p.
Proof.
  intros Hi ->. rewrite <- (take_drop_middle parts i p Hi) at 2.
  rewrite concat_app. rewrite slice_app_r by lia. rewrite Nat.sub_diag. cbn [concat].
  by apply slice_app_l.
Qed.

Lemma get_u8_slice b off : get_u8 b off = le_val (slice off 1 b).
Proof.
  unfold get_u8, slice. revert off. induction b as [|x b IH]; intros [|off]; try done.
  - change (x = x + 256 * 0). lia.
  - apply IH.
Qed.

(** ** Build configuration (Kconfig) *)

Class OtaConfig := {
  CONFIG_KEEMASH_OTA_V3_ENABLE : bool;
  CONFIG_KEEMASH_OTA_V3_TRUSTED_P256_PUBKEY_HEX : bytes;
  CONFIG_KEEMASH_OTA_V3_DELTA_EXPERIMENTAL : bool;
  CONFIG_KEEMASH_OTA_V3_CHECKPOINT_BYTES : Z }.

Definition KEEMASH_OTA_V3_SCHEMA_VERSION : Z := 1.
Definition KEEMASH_OTA_V3_SHA256_LEN : Z := 32.
Definition KEEMASH_OTA_V3_SIGNATURE_LEN : Z := 64.
Definition KEEMASH_OTA_V3_PUBLIC_KEY_LEN : nat := 65.
Definition KEEMASH_OTA_V3_FULL_BLOCK_SIZE : Z := 16384.
Definition KEEMASH_OTA_V3_DELTA_BLOCK_SIZE : Z := 8192.
Definition KEEMASH_OTA_V3_DEFLATE_WINDOW_BITS : Z := 11.
Definition KEEMASH_OTA_V3_MAX_IMAGE_SIZE : Z := 8 * 1024 * 1024.
Definition KEEMASH_OTA_V3_MAX_PACKAGE_SIZE : Z := 16 * 1024 * 1024.
Definition KEEMASH_OTA_V3_MAX_BLOCK_COUNT : Z := 1024.
Definition KEEMASH_OTA_V3_INFLATE_OUTPUT_BYTES : Z := 2048.
Definition KEEMASH_OTA_V3_MAX_CHUNK_BYTES : Z := 2048.
Definition KEEMASH_OTA_V3_SIGNED_FIELDS_MAX : Z := 1024.

Ltac ota_consts :=
  unfold KEEMASH_OTA_V3_SCHEMA_VERSION, KEEMASH_OTA_V3_SHA256_LEN,
    KEEMASH_OTA_V3_SIGNATURE_LEN, KEEMASH_OTA_V3_FULL_BLOCK_SIZE,
    KEEMASH_OTA_V3_DELTA_BLOCK_SIZE, KEEMASH_OTA_V3_DEFLATE_WINDOW_BITS,
    KEEMASH_OTA_V3_MAX_IMAGE_SIZE, KEEMASH_OTA_V3_MAX_PACKAGE_SIZE,
    KEEMASH_OTA_V3_MAX_BLOCK_COUNT, KEEMASH_OTA_V3_INFLATE_OUTPUT_BYTES,
    KEEMASH_OTA_V3_MAX_CHUNK_BYTES, KEEMASH_OTA_V3_SIGNED_FIELDS_MAX in *.

(** ** Message digests (Mbed TLS, SHA-256)

    [md_zero] is a context after [memset]; [None] is a non-zero status. *)

Class Digest := {
  md_ctx : Type;
  md_zero : md_ctx;
  mbedtls_md : bytes -> option bytes;
  mbedtls_md_setup : md_ctx -> option md_ctx;
  mbedtls_md_starts : md_ctx -> option md_ctx;
  mbedtls_md_update : md_ctx -> bytes -> option md_ctx;
  mbedtls_md_clone : md_ctx -> md_ctx -> option md_ctx;
  mbedtls_md_finish : md_ctx -> option bytes }.

(** What the documentation of these calls says: a context absorbs the bytes
    given since it was started, a clone has absorbed the same bytes, and the
    result is the digest of them. *)
Class DigestLaws (D : Digest) := {
  sha256 : bytes -> bytes;
  md_held : md_ctx -> bytes;
  sha256_length : forall b, length (sha256 b) = 32%nat;
  md_once_ok : forall b h, mbedtls_md b = Some h -> h = sha256 b;
  md_starts_ok : forall c c', mbedtls_md_starts c = Some c' -> md_held c' = [];
  md_update_ok : forall c b c',
    mbedtls_md_update c b = Some c' -> md_held c' = md_held c ++ b;
  md_clone_ok : forall d c c', mbedtls_md_clone d c = Some c' -> md_held c' = md_held c;
  md_finish_ok : forall c h, mbedtls_md_finish c = Some h -> h = sha256 (md_held c) }.

(** Two different inputs with one digest. *)
Definition collision {D : Digest} `{!DigestLaws D} : Prop :=
  exists x y, x <> y /\ sha256 x = sha256 y.

(** A digest that never fails, for examples: the length and the first bytes of
    the input. *)
Definition toy_sha (b : bytes) : bytes :=
  u8 (blen b) :: take 31 (b ++ zeros 31).

Definition toy_digest : Digest := {|
  md_ctx := bytes; md_zero := [];
  mbedtls_md := fun b => Some (toy_sha b);
  mbedtls_md_setup := Some; mbedtls_md_starts := fun _ => Some [];
  mbedtls_md_update := fun c b => Some (c ++ b);
  mbedtls_md_clone := fun _ c => Some c;
  mbedtls_md_finish := fun c => Some (toy_sha c) |}.

Definition toy_digest_laws : DigestLaws toy_digest.
Proof.
  refine {| sha256 := toy_sha; md_held := (fun c : @md_ctx toy_digest => (c : bytes)) |};
    try (cbn; congruence).
  intros b. unfold toy_sha. cbn [length]. rewrite length_take, length_app.
  unfold zeros. rewrite length_replicate. lia.
Defined.
