(* ===== verification/OtaTypes.v ===== *)
(** * OTA v3: the protobuf messages

    The structs of keelink-fabric-v2.pb.h the OTA v3 code reads and writes, with
    their members.  A [PB_BYTES_ARRAY_T] is the list of its [size] bytes, a
    character array the list of its characters before the terminator, an enum
    its number: nanopb stores whatever number arrives. *)

From S2P Require Import Prelude.
From S2P Require Import Words.
From S2P Require Import OtaLib.
#[local] Open Scope Z_scope.

Definition ARTIFACT_CODEC_FULL_DEFLATE : Z := 1.
Definition ARTIFACT_CODEC_DELTA_BLOCK : Z := 2.
Definition FIRMWARE_BLOCK_DEFLATE : Z := 1.
Definition FIRMWARE_BLOCK_COPY_BASE : Z := 2.
Definition OTA_BOOT_PENDING_VERIFY : Z := 1.
Definition OTA_BOOT_VALIDATED : Z := 2.
Definition OTA_BOOT_ROLLED_BACK : Z := 3.
Definition OTA_BOOT_FAILED : Z := 4.

Record Id128 := { high : Z; low : Z }.

#[export] Instance Id128_eq_dec : EqDecision Id128.
Proof. solve_decision. Defined.

(** Its members are in range. *)
Definition id_typed (id : Id128) : Prop := is_u64 (high id) /\ is_u64 (low id).

Record FirmwareBlockDescriptor := {
  bd_index : Z; bd_raw_offset : Z; bd_raw_size : Z; bd_encoded_offset : Z;
  bd_encoded_size : Z; bd_kind : Z; bd_raw_sha256 : bytes; bd_encoded_sha256 : bytes }.

#[export] Instance block_descriptor_eq_dec : EqDecision FirmwareBlockDescriptor.
Proof. solve_decision. Defined.

Definition FirmwareBlockDescriptor_init_zero : FirmwareBlockDescriptor :=
  {| bd_index := 0; bd_raw_offset := 0; bd_raw_size := 0; bd_encoded_offset := 0;
     bd_encoded_size := 0; bd_kind := 0; bd_raw_sha256 := []; bd_encoded_sha256 := [] |}.

Definition FirmwareBlockDescriptor_size : Z := 100.

Record FirmwareArtifactSignedFields := {
  fa_schema_version : Z; fa_project_name : bytes; fa_chip_target : bytes;
  fa_firmware_version : bytes; fa_build_commit : bytes; fa_minimum_core_version : Z;
  fa_minimum_fabric_schema : Z; fa_raw_size : Z; fa_encoded_size : Z;
  fa_required_app_slot_size : Z; fa_codec : Z; fa_image_sha256 : bytes;
  fa_encoded_sha256 : bytes; fa_block_table_sha256 : bytes; fa_base_image_sha256 : bytes;
  fa_block_size : Z; fa_block_count : Z; fa_deflate_window_bits : Z;
  fa_signing_key_id : bytes }.

Record FirmwareArtifactManifest := {
  ma_signed_fields : bytes; ma_signature : bytes }.

Record OtaPrepare := {
  pr_has_operation_id : bool; pr_operation_id : Id128; pr_artifact_id : bytes;
  pr_signed_fields : bytes; pr_signature : bytes; pr_requested_chunk_size : Z;
  pr_requested_window : Z }.

Record OtaBlockChunk := {
  bc_has_operation_id : bool; bc_operation_id : Id128; bc_artifact_id : bytes;
  bc_has_block : bool; bc_block : FirmwareBlockDescriptor; bc_block_encoded_offset : Z;
  bc_data : bytes; bc_final_chunk : bool }.

Record OtaCommit := {
  co_has_operation_id : bool; co_operation_id : Id128; co_artifact_id : bytes;
  co_block_table_sha256 : bytes; co_image_sha256 : bytes }.

Record OtaAbort := {
  ab_has_operation_id : bool; ab_operation_id : Id128; ab_artifact_id : bytes;
  ab_reason : bytes }.

Record OtaQuery := {
  qu_has_operation_id : bool; qu_operation_id : Id128; qu_artifact_id : bytes }.

Record OtaTransferStatus := {
  ts_has_operation_id : bool; ts_operation_id : Id128; ts_artifact_id : bytes;
  ts_phase : Z; ts_raw_offset : Z; ts_encoded_offset : Z; ts_next_block_index : Z;
  ts_window_credit : Z; ts_retries : Z; ts_resume_count : Z; ts_status : Z;
  ts_message : bytes }.

(** [which_body] and the member of [body] it selects. *)
Inductive OtaTransfer :=
  | OtaTransfer_none
  | OtaTransfer_prepare (m : OtaPrepare)
  | OtaTransfer_data (m : OtaBlockChunk)
  | OtaTransfer_commit (m : OtaCommit)
  | OtaTransfer_abort (m : OtaAbort)
  | OtaTransfer_query (m : OtaQuery)
  | OtaTransfer_status (m : OtaTransferStatus).

Definition OtaTransfer_size : Z := 2218.

Record OtaBootReport := {
  br_has_operation_id : bool; br_operation_id : Id128; br_has_node_id : bool;
  br_node_id : Id128; br_artifact_id : bytes; br_boot_session : Z;
  br_firmware_version : bytes; br_state : Z; br_rollback_state : Z;
  br_health_status : Z; br_message : bytes }.

#[export] Instance eta_boot_report : Eta OtaBootReport := fun r =>
  Build_OtaBootReport (br_has_operation_id r) (br_operation_id r) (br_has_node_id r)
    (br_node_id r) (br_artifact_id r) (br_boot_session r) (br_firmware_version r)
    (br_state r) (br_rollback_state r) (br_health_status r) (br_message r).

Definition OtaBootReport_init_zero : OtaBootReport :=
  {| br_has_operation_id := false; br_operation_id := {| high := 0; low := 0 |};
     br_has_node_id := false; br_node_id := {| high := 0; low := 0 |};
     br_artifact_id := []; br_boot_session := 0; br_firmware_version := [];
     br_state := 0; br_rollback_state := 0; br_health_status := 0; br_message := [] |}.

Record OtaBootAck := {
  ba_has_operation_id : bool; ba_operation_id : Id128; ba_artifact_id : bytes;
  ba_state : Z }.

Inductive OtaMeshMessage :=
  | OtaMeshMessage_none
  | OtaMeshMessage_transfer (m : OtaTransfer)
  | OtaMeshMessage_boot_report (m : OtaBootReport)
  | OtaMeshMessage_boot_ack (m : OtaBootAck).

Definition OtaMeshMessage_size : Z := 2221.

(** ** nanopb

    [pb_encode_x m capacity]: the result of [pb_encode] into a buffer of that
    capacity and the bytes written; [pb_decode_x] is [None] when it fails. *)
Class Nanopb := {
  pb_encode_block : FirmwareBlockDescriptor -> Z -> bool * bytes;
  pb_decode_signed : bytes -> option FirmwareArtifactSignedFields;
  pb_encode_transfer : OtaTransfer -> Z -> bool * bytes;
  pb_decode_transfer : bytes -> option OtaTransfer;
  pb_encode_mesh : OtaMeshMessage -> Z -> bool * bytes;
  pb_decode_mesh : bytes -> option OtaMeshMessage }.

(** A descriptor as the C struct holds it: 32-bit members, arrays within their
    declared bounds. *)
Definition block_typed (d : FirmwareBlockDescriptor) : Prop :=
  Forall is_u32 [bd_index d; bd_raw_offset d; bd_raw_size d; bd_encoded_offset d;
                 bd_encoded_size d; bd_kind d] /\
  are_bytes (bd_raw_sha256 d) /\ (length (bd_raw_sha256 d) <= 32)%nat /\
  are_bytes (bd_encoded_sha256 d) /\ (length (bd_encoded_sha256 d) <= 32)%nat.

Definition signed_typed (f : FirmwareArtifactSignedFields) : Prop :=
  Forall is_u32 [fa_raw_size f; fa_encoded_size f; fa_required_app_slot_size f;
                 fa_block_size f; fa_block_count f] /\
  (length (fa_project_name f) <= 32)%nat /\ (length (fa_chip_target f) <= 16)%nat /\
  (length (fa_firmware_version f) <= 32)%nat /\
  Forall are_bytes [fa_image_sha256 f; fa_block_table_sha256 f].

(** The documented contract used: an encoder stays inside its buffer, a decoder
    fills the struct within its bounds, and the encoding determines the
    descriptor. *)
Class NanopbLaws (N : Nanopb) := {
  pb_encode_block_fits : forall d cap b, pb_encode_block d cap = (true, b) -> blen b <= cap;
  pb_decode_signed_typed : forall b f, pb_decode_signed b = Some f -> signed_typed f;
  pb_encode_block_inj : forall d d' cap b, block_typed d -> block_typed d' ->
    pb_encode_block d cap = (true, b) -> pb_encode_block d' cap = (true, b) -> d = d' }.

(** An instance for examples: fixed-width members and length-prefixed arrays. *)
Definition toy_block_bytes (d : FirmwareBlockDescriptor) : bytes :=
  le_bytes 4 (bd_index d) ++ le_bytes 4 (bd_raw_offset d) ++ le_bytes 4 (bd_raw_size d) ++
  le_bytes 4 (bd_encoded_offset d) ++ le_bytes 4 (bd_encoded_size d) ++
  le_bytes 4 (bd_kind d) ++ le_bytes 1 (blen (bd_raw_sha256 d)) ++ bd_raw_sha256 d ++
  bd_encoded_sha256 d.

Definition toy_pb (signed : bytes -> option FirmwareArtifactSignedFields) : Nanopb := {|
  pb_encode_block := fun d cap =>
    let b := toy_block_bytes d in if blen b <=? cap then (true, b) else (false, []);
  pb_decode_signed := signed;
  pb_encode_transfer := fun _ _ => (false, []); pb_decode_transfer := fun _ => None;
  pb_encode_mesh := fun _ _ => (false, []); pb_decode_mesh := fun _ => None |}.

Lemma app_inj_len {A : Type} (a b c d : list A) :
  length a = length b -> a ++ c = b ++ d -> a = b /\ c = d.
Proof. intros H E. by apply app_inj_1 in E. Qed.

Lemma le_bytes_inj n a b :
  0 <= a < 256 ^ Z.of_nat n -> 0 <= b < 256 ^ Z.of_nat n -> le_bytes n a = le_bytes n b -> a = b.
Proof. intros Ha Hb H. rewrite <- (le_val_bytes n a), <- (le_val_bytes n b) by done. by f_equal. Qed.

Lemma toy_block_inj d d' :
  block_typed d -> block_typed d' -> toy_block_bytes d = toy_block_bytes d' -> d = d'.
Proof.
  intros (Hd & _ & Hl & _) (Hd' & _ & Hl' & _) E. unfold toy_block_bytes in E.
  repeat (apply app_inj_len in E as [? E]; [|by rewrite ?length_le_bytes]) .
  rewrite !Forall_cons_iff in Hd, Hd'. unfold is_u32, blen in *.
  repeat match goal with
  | H : le_bytes ?n _ = le_bytes ?n _ |- _ =>
      apply le_bytes_inj in H;
        [|let k := eval vm_compute in (256 ^ Z.of_nat n) in
          change (256 ^ Z.of_nat n) with k; lia..]
  end.
  apply app_inj_len in E as [? ?]; [|lia].
  destruct d, d'. cbn in *. congruence.
Qed.

Lemma toy_block_fit d cap b :
  (let e := toy_block_bytes d in if blen e <=? cap then (true, e) else (false, [])) = (true, b) ->
  b = toy_block_bytes d /\ blen b <= cap.
Proof. cbv zeta. destruct (_ <=? _) eqn:E; intros H; [|done]. bools. by simplify_eq. Qed.

Definition toy_pb_laws signed :
  (forall b f, signed b = Some f -> signed_typed f) -> NanopbLaws (toy_pb signed).
Proof.
  intros Hs. split.
  - intros d cap b H. by apply toy_block_fit in H as [_ ?].
  - exact Hs.
  - intros d d' cap b Hd Hd' H H'.
    apply toy_block_fit in H as [-> _]. apply toy_block_fit in H' as [E _].
    by apply toy_block_inj.
Defined.
