(* ===== verification/OtaV3.v ===== *)
(** * OTA v3: signed manifest fields and block descriptors (keemash_ota_v3.c)

    The signed fields of a firmware artifact are accepted only under a P-256
    signature and within fixed bounds; the block descriptors that follow are
    checked one by one against them, chained by SHA-256, and must end in the
    signed block table digest.  PSA crypto, Mbed TLS and nanopb are parameters.
    Pointers are valid: the NULL checks of the C code have no counterpart. *)

From S2P Require Import Prelude.
From S2P Require Import Words.
From S2P Require Import Esp.
From S2P Require Import OtaLib.
From S2P Require Import OtaTypes.
#[local] Open Scope Z_scope.

(** PSA crypto: initialisation, import of a public key, verification of a
    digest; a failing status is [false] or [None]. *)
Class Psa := {
  psa_crypto_init : bool;
  psa_key : Type;
  psa_import_key : bytes -> option psa_key;
  psa_verify_hash : psa_key -> bytes -> bytes -> bool }.

Record keemash_ota_v3_signed_fields_t := {
  schema_version : Z; project_name : bytes; chip_target : bytes; firmware_version : bytes;
  build_commit : bytes; signing_key_id : bytes; minimum_core_version : Z;
  minimum_fabric_schema : Z; raw_size : Z; encoded_size : Z; required_app_slot_size : Z;
  codec : Z; block_size : Z; block_count : Z; deflate_window_bits : Z;
  image_sha256 : bytes; encoded_sha256 : bytes; block_table_sha256 : bytes;
  base_image_sha256 : bytes; has_base_image : bool }.

(** [memset(&fields, 0, sizeof(fields))] *)
Definition signed_fields_zero : keemash_ota_v3_signed_fields_t :=
  {| schema_version := 0; project_name := []; chip_target := []; firmware_version := [];
     build_commit := []; signing_key_id := []; minimum_core_version := 0;
     minimum_fabric_schema := 0; raw_size := 0; encoded_size := 0;
     required_app_slot_size := 0; codec := 0; block_size := 0; block_count := 0;
     deflate_window_bits := 0; image_sha256 := zeros 32; encoded_sha256 := zeros 32;
     block_table_sha256 := zeros 32; base_image_sha256 := zeros 32;
     has_base_image := false |}.

(** ** The trusted key *)

Definition hex_nibble (value : Z) : Z :=
  if (48 <=? value) && (value <=? 57) then value - 48
  else if (97 <=? value) && (value <=? 102) then value - 97 + 10
  else if (65 <=? value) && (value <=? 70) then value - 65 + 10
  else -1.

(** The conversion loop of [decode_public_key]. *)
Fixpoint hex_bytes (hex : bytes) : option bytes :=
  match hex with
  | h :: l :: hex =>
      let high := hex_nibble h in
      let low := hex_nibble l in
      if (high <? 0) || (low <? 0) then None
      else (fun out => u8 (Z.lor (Z.shiftl high 4) low) :: out) <$> hex_bytes hex
  | _ => Some []
  end.

Definition encode_varint_loop : nat -> Z -> bytes :=
  fix loop fuel value :=
  match fuel with
  | O => []
  | S fuel =>
      let byte := Z.land value 127 in
      let value := Z.shiftr value 7 in
      if negb (value =? 0) then Z.lor byte 128 :: loop fuel value else [byte]
  end.

(** [count < 10U] bounds the loop. *)
Definition encode_varint (value : Z) : bytes := encode_varint_loop 10 value.

Definition copy_hash (source : bytes) (optional : bool) : option bytes :=
  if (negb optional && negb (blen source =? 32)) ||
     (optional && negb (blen source =? 0) && negb (blen source =? 32)) then None
  else Some (if blen source =? 32 then source else zeros 32).

Section OtaV3.
Context {Cfg : OtaConfig} {D : Digest} {Key : Psa} {Pb : Nanopb}.

Definition decode_public_key : res bytes :=
  if negb CONFIG_KEEMASH_OTA_V3_ENABLE then inl ESP_ERR_NOT_SUPPORTED
  else
    let hex := CONFIG_KEEMASH_OTA_V3_TRUSTED_P256_PUBKEY_HEX in
    fail_if (negb (Nat.eqb (length hex) (KEEMASH_OTA_V3_PUBLIC_KEY_LEN * 2))) ESP_ERR_INVALID_SIZE ;;
    out ← or_fail (hex_bytes hex) ESP_ERR_INVALID_ARG;
    fail_if (negb (get_u8 out 0 =? 4)) ESP_ERR_INVALID_ARG ;;
    mret out.

Definition verify_p256 (data signature : bytes) : res unit :=
  public_key ← decode_public_key;
  digest ← or_fail (mbedtls_md data) ESP_FAIL;
  fail_if (negb psa_crypto_init) ESP_FAIL ;;
  key ← or_fail (psa_import_key public_key) ESP_ERR_INVALID_ARG;
  fail_if (negb (psa_verify_hash key digest signature)) ESP_ERR_INVALID_CRC.

(** ** Signed fields *)

Definition fields_out_of_range (f : FirmwareArtifactSignedFields) : bool :=
  negb (fa_schema_version f =? KEEMASH_OTA_V3_SCHEMA_VERSION) ||
  (fa_raw_size f =? 0) ||
  (fa_required_app_slot_size f <? fa_raw_size f) ||
  (KEEMASH_OTA_V3_MAX_IMAGE_SIZE <? fa_raw_size f) ||
  (KEEMASH_OTA_V3_MAX_PACKAGE_SIZE <? fa_encoded_size f) ||
  (fa_block_count f =? 0) ||
  (KEEMASH_OTA_V3_MAX_BLOCK_COUNT <? fa_block_count f) ||
  negb (fa_deflate_window_bits f =? KEEMASH_OTA_V3_DEFLATE_WINDOW_BITS) ||
  Nat.eqb (length (fa_project_name f)) 0 || Nat.eqb (length (fa_chip_target f)) 0 ||
  Nat.eqb (length (fa_signing_key_id f)) 0.

Definition codec_unsupported (f : FirmwareArtifactSignedFields) : bool :=
  negb (fa_codec f =? ARTIFACT_CODEC_FULL_DEFLATE) &&
  negb (CONFIG_KEEMASH_OTA_V3_DELTA_EXPERIMENTAL && (fa_codec f =? ARTIFACT_CODEC_DELTA_BLOCK)).

Definition codec_fields_wrong (f : FirmwareArtifactSignedFields) : bool :=
  ((fa_codec f =? ARTIFACT_CODEC_FULL_DEFLATE) &&
   (negb (fa_block_size f =? KEEMASH_OTA_V3_FULL_BLOCK_SIZE) ||
    (fa_encoded_size f =? 0) || negb (blen (fa_base_image_sha256 f) =? 0))) ||
  ((fa_codec f =? ARTIFACT_CODEC_DELTA_BLOCK) &&
   (negb (fa_block_size f =? KEEMASH_OTA_V3_DELTA_BLOCK_SIZE) ||
    negb (blen (fa_base_image_sha256 f) =? 32))).

Definition keemash_ota_v3_verify_signed_fields (signed_fields signature : bytes)
  : res keemash_ota_v3_signed_fields_t :=
  fail_if (blen signed_fields =? 0) ESP_ERR_INVALID_ARG ;;
  fail_if (1024 <? blen signed_fields) ESP_ERR_INVALID_SIZE ;;
  fail_if (negb (blen signature =? KEEMASH_OTA_V3_SIGNATURE_LEN)) ESP_ERR_INVALID_SIZE ;;
  verify_p256 signed_fields signature ;;
  fields ← or_fail (pb_decode_signed signed_fields) ESP_ERR_INVALID_RESPONSE;
  fail_if (fields_out_of_range fields) ESP_ERR_INVALID_ARG ;;
  fail_if (codec_unsupported fields) ESP_ERR_NOT_SUPPORTED ;;
  fail_if (codec_fields_wrong fields) ESP_ERR_INVALID_ARG ;;
  fail_if (negb (fa_block_count fields =?
                 u32 (fa_raw_size fields + fa_block_size fields - 1) / fa_block_size fields))
    ESP_ERR_INVALID_ARG ;;
  image ← or_fail (copy_hash (fa_image_sha256 fields) false) ESP_ERR_INVALID_SIZE;
  encoded ← or_fail (copy_hash (fa_encoded_sha256 fields) false) ESP_ERR_INVALID_SIZE;
  table ← or_fail (copy_hash (fa_block_table_sha256 fields) false) ESP_ERR_INVALID_SIZE;
  base ← or_fail (copy_hash (fa_base_image_sha256 fields) true) ESP_ERR_INVALID_SIZE;
  mret {|
    schema_version := fa_schema_version fields;
    project_name := copy_text 33 (fa_project_name fields);
    chip_target := copy_text 17 (fa_chip_target fields);
    firmware_version := copy_text 33 (fa_firmware_version fields);
    build_commit := copy_text 41 (fa_build_commit fields);
    signing_key_id := copy_text 33 (fa_signing_key_id fields);
    minimum_core_version := fa_minimum_core_version fields;
    minimum_fabric_schema := fa_minimum_fabric_schema fields;
    raw_size := fa_raw_size fields; encoded_size := fa_encoded_size fields;
    required_app_slot_size := fa_required_app_slot_size fields;
    codec := fa_codec fields; block_size := fa_block_size fields;
    block_count := fa_block_count fields;
    deflate_window_bits := fa_deflate_window_bits fields;
    image_sha256 := image; encoded_sha256 := encoded; block_table_sha256 := table;
    base_image_sha256 := base;
    has_base_image := blen (fa_base_image_sha256 fields) =? 32 |}.

Definition keemash_ota_v3_check_target (fields : keemash_ota_v3_signed_fields_t)
  (project chip : bytes) (app_slot_size core_version fabric_schema : Z) : res unit :=
  fail_if (negb (bytes_eqb (project_name fields) project) ||
           negb (bytes_eqb (chip_target fields) chip)) ESP_ERR_INVALID_ARG ;;
  fail_if ((app_slot_size <? raw_size fields) ||
           (app_slot_size <? required_app_slot_size fields)) ESP_ERR_INVALID_SIZE ;;
  fail_if ((core_version <? minimum_core_version fields) ||
           (fabric_schema <? minimum_fabric_schema fields)) ESP_ERR_NOT_SUPPORTED.

(** ** Messages *)

(** The two encoders differ in the message type alone. *)
Definition encode_with {A : Type} (pb_encode : A -> Z -> bool * bytes)
  (message : A) (capacity : Z) : res bytes :=
  fail_if (capacity =? 0) ESP_ERR_INVALID_ARG ;;
  let '(done, out) := pb_encode message capacity in
  if negb done
  then inl (if capacity <=? blen out then ESP_ERR_INVALID_SIZE else ESP_FAIL)
  else mret out.

Definition decode_with {A : Type} (pb_decode : bytes -> option A) (max : Z)
  (data : bytes) : res A :=
  fail_if ((blen data =? 0) || (max <? blen data)) ESP_ERR_INVALID_ARG ;;
  or_fail (pb_decode data) ESP_ERR_INVALID_RESPONSE.

Definition keemash_ota_v3_encode_transfer := encode_with pb_encode_transfer.
Definition keemash_ota_v3_decode_transfer := decode_with pb_decode_transfer OtaTransfer_size.
Definition keemash_ota_v3_encode_mesh_message := encode_with pb_encode_mesh.
Definition keemash_ota_v3_decode_mesh_message := decode_with pb_decode_mesh OtaMeshMessage_size.

(** ** Block descriptors *)

Definition keemash_ota_v3_encode_block_descriptor (descriptor : FirmwareBlockDescriptor)
  (capacity : Z) (length_delimited : bool) : res bytes :=
  let '(done, encoded) := pb_encode_block descriptor FirmwareBlockDescriptor_size in
  fail_if (negb done) ESP_FAIL ;;
  let prefix := if length_delimited then encode_varint (blen encoded) else [] in
  fail_if (capacity <? blen prefix + blen encoded) ESP_ERR_INVALID_SIZE ;;
  mret (prefix ++ encoded).

Definition descriptor_misplaced (fields : keemash_ota_v3_signed_fields_t)
  (d : FirmwareBlockDescriptor)
  (expected_index expected_raw_offset expected_encoded_offset : Z) : bool :=
  (block_count fields <=? expected_index) ||
  negb (bd_index d =? expected_index) ||
  negb (bd_raw_offset d =? expected_raw_offset) ||
  negb (bd_encoded_offset d =? expected_encoded_offset) ||
  (bd_raw_size d =? 0) ||
  (block_size fields <? bd_raw_size d) ||
  ((u32 (expected_index + 1) <? block_count fields) &&
   negb (bd_raw_size d =? block_size fields)) ||
  (raw_size fields <? expected_raw_offset) ||
  (u32 (raw_size fields - expected_raw_offset) <? bd_raw_size d) ||
  (encoded_size fields <? expected_encoded_offset) ||
  (u32 (encoded_size fields - expected_encoded_offset) <? bd_encoded_size d) ||
  negb (blen (bd_raw_sha256 d) =? 32) || negb (blen (bd_encoded_sha256 d) =? 32).

Definition check_block_kind (fields : keemash_ota_v3_signed_fields_t)
  (d : FirmwareBlockDescriptor) : res unit :=
  if bd_kind d =? FIRMWARE_BLOCK_DEFLATE then
    fail_if (bd_encoded_size d =? 0) ESP_ERR_INVALID_SIZE
  else if bd_kind d =? FIRMWARE_BLOCK_COPY_BASE then
    if CONFIG_KEEMASH_OTA_V3_DELTA_EXPERIMENTAL then
      fail_if (negb (codec fields =? ARTIFACT_CODEC_DELTA_BLOCK) ||
               negb (bd_encoded_size d =? 0)) ESP_ERR_INVALID_ARG
    else inl ESP_ERR_NOT_SUPPORTED
  else inl ESP_ERR_NOT_SUPPORTED.

(** Returns [next_chain]. *)
Definition keemash_ota_v3_check_block_descriptor (fields : keemash_ota_v3_signed_fields_t)
  (descriptor : FirmwareBlockDescriptor)
  (expected_index expected_raw_offset expected_encoded_offset : Z)
  (previous_chain : bytes) : res bytes :=
  fail_if (descriptor_misplaced fields descriptor expected_index expected_raw_offset
             expected_encoded_offset) ESP_ERR_INVALID_ARG ;;
  check_block_kind fields descriptor ;;
  encoded ← keemash_ota_v3_encode_block_descriptor descriptor
              (10 + FirmwareBlockDescriptor_size) true;
  next_chain ← or_fail (mbedtls_md (take 32 previous_chain ++ encoded)) ESP_FAIL;
  fail_if ((u32 (expected_index + 1) =? block_count fields) &&
           (negb (u32 (expected_raw_offset + bd_raw_size descriptor) =? raw_size fields) ||
            negb (u32 (expected_encoded_offset + bd_encoded_size descriptor)
                  =? encoded_size fields) ||
            negb (bytes_eqb next_chain (block_table_sha256 fields)))) ESP_ERR_INVALID_CRC ;;
  mret next_chain.

End OtaV3.
