(* ===== verification/OtaChain.v ===== *)
(** * OTA v3: what an accepted manifest guarantees

    The bounds every accepted set of signed fields satisfies, the LEB128 prefix
    of a chained descriptor read back, and the two properties of an accepted
    block table: its blocks tile the image and the payload exactly, and the
    signed digest determines every descriptor in it. *)

From S2P Require Import Prelude.
From S2P Require Import Words.
From S2P Require Import Esp.
From S2P Require Import OtaLib.
From S2P Require Import OtaTypes.
From S2P Require Import OtaV3.
#[local] Open Scope Z_scope.

(** ** Length prefixes *)

(** The protobuf varint as its specification reads it. *)
Fixpoint decode_varint (bs : bytes) : option (Z * bytes) :=
  match bs with
  | [] => None
  | b :: bs =>
      if b <? 128 then Some (b, bs)
      else '(v, rest) ← decode_varint bs; Some (b - 128 + 128 * v, rest)
  end.

Lemma varint_byte z : 0 <= z -> Z.land z 127 = z mod 128.
Proof. intros. change 127 with (Z.ones 7). by rewrite Z.land_ones. Qed.


Lemma low7_or_128 b : 0 <= b < 128 -> Z.lor b 128 = b + 128.
Proof.
  intros Hb. rewrite <- Z.add_lor_land.
  enough (Z.land b 128 = 0) as -> by lia.
  apply Z.bits_inj'. intros k Hk. rewrite Z.land_spec, Z.bits_0.
  change 128 with (2 ^ 7). rewrite Z.pow2_bits_eqb by lia.
  destruct (Z.eqb_spec 7 k) as [<-|]; [|by rewrite andb_false_r].
  rewrite andb_true_r. apply Z.bits_above_log2; [lia|].
  destruct (decide (b = 0)) as [->|]; [done|].
  apply Z.log2_lt_pow2; lia.
Qed.

Lemma varint_loop_read fuel z rest :
  0 <= z < 128 ^ Z.of_nat fuel -> (0 < fuel)%nat ->
  decode_varint (encode_varint_loop fuel z ++ rest) = Some (z, rest) /\
  (length (encode_varint_loop fuel z) <= fuel)%nat.
Proof.
  revert z. induction fuel as [|fuel IH]; intros z Hz Hf; [lia|].
  cbn [encode_varint_loop]. rewrite varint_byte by lia.
  rewrite Z.shiftr_div_pow2 by lia. change (2 ^ 7) with 128.
  pose proof (Z.mod_pos_bound z 128 ltac:(lia)) as Hm.
  pose proof (Z.div_mod z 128 ltac:(lia)) as Hd.
  destruct (Z.eqb_spec (z / 128) 0) as [E|E]; cbn [negb app decode_varint length].
  - destruct (Z.ltb_spec (z mod 128) 128); [|lia]. split; [|lia]. do 2 f_equal. lia.
  - rewrite low7_or_128 by done. destruct (Z.ltb_spec (z mod 128 + 128) 128); [lia|].
    rewrite Nat2Z.inj_succ, Z.pow_succ_r in Hz by lia.
    assert (0 <= z / 128) by (apply Z.div_pos; lia).
    destruct fuel as [|fuel]; [exfalso; apply E, Z.div_small; change (128 ^ Z.of_nat 0) with 1 in Hz; lia|].
    destruct (IH (z / 128)) as [Hr Hl]; [|lia|].
    { split; [done|]. apply Z.div_lt_upper_bound; lia. }
    rewrite Hr. split; [|cbn in *; lia]. cbn. do 2 f_equal. lia.
Qed.

Lemma varint_read z rest :
  is_u64 z -> decode_varint (encode_varint z ++ rest) = Some (z, rest) /\
  (length (encode_varint z) <= 10)%nat.
Proof.
  intros Hz. apply varint_loop_read; [|lia]. unfold is_u64 in Hz.
  change (128 ^ Z.of_nat 10) with 1180591620717411303424. lia.
Qed.

(** A length-delimited message can be read off the front of any stream. *)
Lemma delimited_inj a b r s :
  is_u64 (blen a) -> is_u64 (blen b) ->
  encode_varint (blen a) ++ a ++ r = encode_varint (blen b) ++ b ++ s -> a = b /\ r = s.
Proof.
  intros Ha Hb E.
  pose proof (proj1 (varint_read (blen a) (a ++ r) Ha)) as Ra.
  pose proof (proj1 (varint_read (blen b) (b ++ s) Hb)) as Rb.
  rewrite E, Rb in Ra. injection Ra as Hl E2. unfold blen in Hl.
  apply app_inj_len in E2 as [-> ->]; [done|lia].
Qed.

Section Chain.
Context {Cfg : OtaConfig} {D : Digest} {Key : Psa} {Pb : Nanopb}
  {HD : DigestLaws D} {HP : NanopbLaws Pb}.

(** ** Accepted signed fields *)

Definition fields_ok (f : keemash_ota_v3_signed_fields_t) : Prop :=
  1 <= raw_size f <= KEEMASH_OTA_V3_MAX_IMAGE_SIZE /\
  raw_size f <= required_app_slot_size f /\
  0 <= encoded_size f <= KEEMASH_OTA_V3_MAX_PACKAGE_SIZE /\
  1 <= block_count f <= KEEMASH_OTA_V3_MAX_BLOCK_COUNT /\
  (codec f = ARTIFACT_CODEC_FULL_DEFLATE /\ block_size f = KEEMASH_OTA_V3_FULL_BLOCK_SIZE /\
     0 < encoded_size f /\ has_base_image f = false \/
   CONFIG_KEEMASH_OTA_V3_DELTA_EXPERIMENTAL = true /\ codec f = ARTIFACT_CODEC_DELTA_BLOCK /\
     block_size f = KEEMASH_OTA_V3_DELTA_BLOCK_SIZE /\ has_base_image f = true) /\
  (block_count f - 1) * block_size f < raw_size f <= block_count f * block_size f /\
  length (image_sha256 f) = 32%nat /\ length (encoded_sha256 f) = 32%nat /\
  length (block_table_sha256 f) = 32%nat.

Lemma copy_hash_length src opt h : copy_hash src opt = Some h -> length h = 32%nat.
Proof.
  unfold copy_hash. destruct (_ || _); [done|]. intros [= <-].
  destruct (blen src =? 32) eqn:E; bools; [unfold blen in E; lia|done].
Qed.

Lemma block_count_ceil c r b :
  0 < b -> 0 < r -> is_u32 (r + b - 1) -> c = u32 (r + b - 1) / b ->
  (c - 1) * b < r <= c * b.
Proof.
  intros Hb Hr Hw ->. rewrite u32_id by done.
  pose proof (Z.div_mod (r + b - 1) b ltac:(lia)) as H.
  pose proof (Z.mod_pos_bound (r + b - 1) b ltac:(lia)). nia.
Qed.

Lemma verify_p256_authentic data sig u :
  verify_p256 data sig = inr u ->
  exists pk key, decode_public_key = inr pk /\ psa_import_key pk = Some key /\
    psa_verify_hash key (sha256 data) sig = true.
Proof.
  unfold verify_p256. intros H. res_inv. exists a, a2. split; [done|]. split; [done|].
  apply md_once_ok in E0 as ->. by apply negb_false_iff in H.
Qed.

(** What verification of the signed fields establishes. *)
Lemma signed_fields_ok signed signature f :
  keemash_ota_v3_verify_signed_fields signed signature = inr f ->
  fields_ok f /\
  exists pk key, decode_public_key = inr pk /\ psa_import_key pk = Some key /\
    psa_verify_hash key (sha256 signed) signature = true.
Proof.
  unfold keemash_ota_v3_verify_signed_fields. intros H. res_inv.
  split; [|by eapply verify_p256_authentic].
  rename a3 into g.
  assert (signed_typed g) as (Ht & _) by (by eapply pb_decode_signed_typed).
  rewrite !Forall_cons_iff in Ht. destruct Ht as (Hr & He & _ & Hbs & Hbc & _).
  repeat match goal with H : copy_hash _ _ = Some _ |- _ => apply copy_hash_length in H end.
  unfold fields_out_of_range, codec_unsupported, codec_fields_wrong in *. bools.
  subst f. unfold fields_ok. cbn [raw_size required_app_slot_size encoded_size block_count
    codec block_size has_base_image image_sha256 encoded_sha256 block_table_sha256].
  ota_consts. unfold ARTIFACT_CODEC_FULL_DEFLATE, ARTIFACT_CODEC_DELTA_BLOCK in *.
  unfold is_u32 in *.
  assert (fa_codec g = 1 /\ fa_block_size g = 16384 /\ 0 < fa_encoded_size g /\
            (blen (fa_base_image_sha256 g) =? 32) = false \/
          CONFIG_KEEMASH_OTA_V3_DELTA_EXPERIMENTAL = true /\ fa_codec g = 2 /\
            fa_block_size g = 8192 /\ (blen (fa_base_image_sha256 g) =? 32) = true) as Hc.
  { destruct (Z.eqb_spec (fa_codec g) 1) as [Ec|Ec]; cbn in *; bools.
    - left. repeat split; lia.
    - right. match goal with H : fa_codec g = 2 |- _ => rewrite H in * end.
      cbn in *. bools. repeat split; [done|lia..]. }
  repeat match goal with |- _ /\ _ => split end; try lia; try exact Hc; try assumption.
  all: eapply block_count_ceil; [| | |by symmetry]; unfold is_u32; lia.
Qed.

(** Signed fields are accepted only when the configured key verifies the
    signature over their digest; the accepted sizes are within the fixed
    limits, the codec is one the build supports, and the block count is the
    number of blocks the image needs. *)
Theorem signed_fields_accepted signed signature f :
  keemash_ota_v3_verify_signed_fields signed signature = inr f ->
  fields_ok f /\
  exists pk key, decode_public_key = inr pk /\ psa_import_key pk = Some key /\
    psa_verify_hash key (sha256 signed) signature = true.
Proof. apply signed_fields_ok. Qed.

(** ** Accepted block tables *)

(** The receiver's use of [check_block_descriptor]: every descriptor is checked
    at the offsets and the chain value the previous one left. *)
Fixpoint check_table (f : keemash_ota_v3_signed_fields_t) (ds : list FirmwareBlockDescriptor)
  (index raw enc : Z) (chain : bytes) : res (Z * Z * bytes) :=
  match ds with
  | [] => mret (raw, enc, chain)
  | d :: ds =>
      next ← keemash_ota_v3_check_block_descriptor f d index raw enc chain;
      check_table f ds (u32 (index + 1)) (u32 (raw + bd_raw_size d))
        (u32 (enc + bd_encoded_size d)) next
  end.

(** What one accepted descriptor satisfies. *)
Record placed (f : keemash_ota_v3_signed_fields_t) (index raw enc : Z)
  (d : FirmwareBlockDescriptor) : Prop := {
  pl_index : bd_index d = index /\ index < block_count f;
  pl_raw : bd_raw_offset d = raw /\ 0 < bd_raw_size d <= block_size f /\
           raw + bd_raw_size d <= raw_size f;
  pl_full : index + 1 < block_count f -> bd_raw_size d = block_size f;
  pl_enc : bd_encoded_offset d = enc /\ enc + bd_encoded_size d <= encoded_size f;
  pl_last : index + 1 = block_count f ->
    raw + bd_raw_size d = raw_size f /\ enc + bd_encoded_size d = encoded_size f }.

Lemma encode_block_proper d capacity delimited :
  proper (keemash_ota_v3_encode_block_descriptor d capacity delimited).
Proof. unfold keemash_ota_v3_encode_block_descriptor. proper_auto. Qed.

Lemma check_block_proper f d index raw enc chain :
  proper (keemash_ota_v3_check_block_descriptor f d index raw enc chain).
Proof.
  unfold keemash_ota_v3_check_block_descriptor, check_block_kind.
  proper_auto. apply encode_block_proper.
Qed.

Lemma check_block_deflate f d index raw enc chain next :
  keemash_ota_v3_check_block_descriptor f d index raw enc chain = inr next ->
  bd_kind d = FIRMWARE_BLOCK_DEFLATE -> bd_encoded_size d <> 0.
Proof.
  unfold keemash_ota_v3_check_block_descriptor, check_block_kind. intros H Hk. res_inv.
  rewrite Hk in *. cbn in *. res_inv. by bools.
Qed.

Lemma verify_signed_fields_proper signed signature :
  proper (keemash_ota_v3_verify_signed_fields signed signature).
Proof.
  unfold keemash_ota_v3_verify_signed_fields, verify_p256, decode_public_key. proper_auto.
Qed.

Lemma andb_false_imp (a b : bool) : a && b = false -> a = true -> b = false.
Proof. by destruct a. Qed.

Definition block_input (d : FirmwareBlockDescriptor) : bytes :=
  let '(_, encoded) := pb_encode_block d FirmwareBlockDescriptor_size in
  encode_varint (blen encoded) ++ encoded.

Lemma check_block_inv f d index raw enc chain next :
  fields_ok f -> block_typed d -> 0 <= index -> 0 <= raw -> 0 <= enc ->
  keemash_ota_v3_check_block_descriptor f d index raw enc chain = inr next ->
  placed f index raw enc d /\
  next = sha256 (take 32 chain ++ block_input d) /\
  (exists e, pb_encode_block d FirmwareBlockDescriptor_size = (true, e)) /\
  (index + 1 = block_count f -> next = block_table_sha256 f).
Proof.
  intros Hf [Hd _] Hi Hr He H. unfold keemash_ota_v3_check_block_descriptor in H. res_inv.
  unfold keemash_ota_v3_encode_block_descriptor in E1.
  unfold block_input. destruct (pb_encode_block d _) as [done e] eqn:Ee. res_inv.
  apply negb_false_iff in E4 as ->.
  destruct Hf as (Hraw & _ & Henc & Hcnt & _). rewrite !Forall_cons_iff in Hd. ota_consts.
  unfold descriptor_misplaced in E. bools. unfold is_u32 in *.
  apply md_once_ok in E2. subst.
  rewrite !u32_id in * by (unfold is_u32; lia).
  assert (Hlast : bd_index d + 1 = block_count f -> _)
    by (intros Hl; apply Z.eqb_eq in Hl; exact (andb_false_imp _ _ E3 Hl)).
  split; [|split; [done|split; [by eexists|]]].
  - split; intros; repeat split; try lia.
  - intros Hl. specialize (Hlast Hl). bools. by apply bytes_eqb_true.
Qed.

Definition sum_raw (ds : list FirmwareBlockDescriptor) : Z :=
  fold_right (fun d a => bd_raw_size d + a) 0 ds.
Definition sum_enc (ds : list FirmwareBlockDescriptor) : Z :=
  fold_right (fun d a => bd_encoded_size d + a) 0 ds.

Lemma check_table_inv f ds index raw enc chain raw' enc' chain' :
  fields_ok f -> Forall block_typed ds -> 0 <= index -> 0 <= raw -> 0 <= enc ->
  check_table f ds index raw enc chain = inr (raw', enc', chain') ->
  raw' = raw + sum_raw ds /\ enc' = enc + sum_enc ds /\
  (forall k d, ds !! k = Some d ->
     placed f (index + Z.of_nat k) (raw + sum_raw (take k ds)) (enc + sum_enc (take k ds)) d) /\
  (ds <> [] -> index + Z.of_nat (length ds) = block_count f ->
     raw' = raw_size f /\ enc' = encoded_size f /\ chain' = block_table_sha256 f).
Proof.
  intros Hf Ht. revert index raw enc chain.
  induction Ht as [|d ds Hd _ IH]; intros index raw enc chain Hi Hr He H; cbn in H.
  { injection H as -> -> ->. cbn. split; [lia|]. split; [lia|]. by split; [intros k d|]. }
  apply res_bind_inr in H as (next & Hc & H).
  apply check_block_inv in Hc as (Hpl & _ & _ & Htab); [|done..].
  pose proof Hpl as [[_ Hlt] [_ [Hsz Hraw]] _ [_ Henc] Hlast].
  assert (Hd' := proj1 Hd). rewrite !Forall_cons_iff in Hd'. unfold is_u32 in Hd'.
  pose proof Hf as (? & _ & ? & ? & _). ota_consts.
  rewrite !u32_id in H by (unfold is_u32; lia).
  pose proof H as Hrest. apply IH in H as (-> & -> & Hall & Hend); [|lia..].
  cbn [sum_raw sum_enc fold_right]. split; [unfold sum_raw; lia|].
  split; [unfold sum_enc; lia|]. split.
  - intros [|k] e Hk; cbn in Hk.
    + injection Hk as <-. cbn. by rewrite !Z.add_0_r.
    + specialize (Hall k e Hk). cbn.
      replace (index + Z.of_nat (S k)) with (index + 1 + Z.of_nat k) by lia.
      by rewrite !Z.add_assoc.
  - intros _ Hl. cbn [length] in Hl. destruct ds as [|d2 ds].
    + cbn in *. destruct (Hlast ltac:(lia)) as [? ?]. specialize (Htab ltac:(lia)).
      injection Hrest as _ _ Hch. split; [lia|]. split; [lia|congruence].
    + apply Hend; [done|]. cbn [length] in *. lia.
Qed.

(** A complete accepted block table tiles the artifact: block [i] has index
    [i], starts in the image and in the payload where block [i-1] ended, every
    block but the last is full, the sizes add up to the signed image and payload
    sizes, and the chain ends in the signed block table digest. *)
Theorem block_table_tiles f ds raw enc chain chain0 :
  fields_ok f -> Forall block_typed ds -> Z.of_nat (length ds) = block_count f ->
  check_table f ds 0 0 0 chain0 = inr (raw, enc, chain) ->
  sum_raw ds = raw_size f /\ sum_enc ds = encoded_size f /\ chain = block_table_sha256 f /\
  (forall i d, ds !! i = Some d ->
     bd_index d = Z.of_nat i /\
     bd_raw_offset d = Z.of_nat i * block_size f /\
     bd_raw_offset d = sum_raw (take i ds) /\ bd_encoded_offset d = sum_enc (take i ds) /\
     (S i < length ds -> bd_raw_size d = block_size f)%nat /\
     0 < bd_raw_size d <= block_size f).
Proof.
  intros Hf Ht Hlen H. apply check_table_inv in H as (Hr & He & Hall & Hend); [|done..].
  destruct Hend as (E1 & E2 & ->); [| |split; [lia|split; [lia|split; [done|]]]].
  { intros ->. cbn in Hlen. destruct Hf as (_ & _ & _ & ? & _). lia. }
  { lia. }
  assert (Hfull : forall i d, ds !! i = Some d -> (S i < length ds)%nat ->
            bd_raw_size d = block_size f).
  { intros i d Hi Hl. apply (pl_full _ _ _ _ _ (Hall i d Hi)). lia. }
  assert (Hsum : forall i, (i < length ds)%nat -> sum_raw (take i ds) = Z.of_nat i * block_size f).
  { clear -Hfull. revert Hfull. induction ds as [|d ds IH]; intros Hfull [|i] Hi; cbn in Hi; try lia.
    { done. }
    cbn [take sum_raw fold_right]. fold (sum_raw (take i ds)). rewrite IH; [|intros j e Hj Hl|lia].
    - rewrite (Hfull 0%nat d); [lia|done|cbn; lia].
    - apply (Hfull (S j)); [done|cbn; lia]. }
  intros i d Hi. pose proof (lookup_lt_Some _ _ _ Hi) as Hlt.
  destruct (Hall i d Hi) as [[? _] [? [? ?]] _ [? ?] _]. specialize (Hsum i Hlt).
  repeat split; [lia..|by eapply Hfull|lia|lia].
Qed.

(** The signed block table digest determines the table: two complete
    accepted tables of the same length that end in the same digest consist of
    the same descriptors, or they exhibit a SHA-256 collision. *)
Theorem block_table_binding f f' ds ds' index index' raw raw' enc enc' chain chain' r r' e e' c :
  fields_ok f -> fields_ok f' -> Forall block_typed ds -> Forall block_typed ds' ->
  0 <= index -> 0 <= raw -> 0 <= enc -> 0 <= index' -> 0 <= raw' -> 0 <= enc' ->
  length chain = 32%nat -> length chain' = 32%nat -> length ds = length ds' ->
  check_table f ds index raw enc chain = inr (r, e, c) ->
  check_table f' ds' index' raw' enc' chain' = inr (r', e', c) ->
  (ds = ds' /\ chain = chain') \/ collision.
Proof.
  intros Hf Hf' Ht. revert ds' index index' raw raw' enc enc' chain chain'.
  induction Ht as [|d ds Hd _ IH];
    intros [|d' ds'] index index' raw raw' enc enc' chain chain' Ht' ?????? Hc Hc' Hl H H';
    cbn in Hl; try lia; cbn in H, H'.
  { left. split; [done|]. injection H as _ _ ->. by injection H' as _ _ ->. }
  apply Forall_cons_iff in Ht' as [Hd' Ht'].
  apply res_bind_inr in H as (n & Hn & H). apply res_bind_inr in H' as (n' & Hn' & H').
  apply check_block_inv in Hn as (_ & En & [x Ex] & _); [|done..].
  apply check_block_inv in Hn' as (_ & En' & [x' Ex'] & _); [|done..].
  assert (Hu : forall z, 0 <= u32 z) by (intros z; apply u32_is).
  assert (Ln : length n = 32%nat) by (rewrite En; apply sha256_length).
  assert (Ln' : length n' = 32%nat) by (rewrite En'; apply sha256_length).
  destruct (IH ds' _ _ _ _ _ _ _ _ Ht' (Hu _) (Hu _) (Hu _) (Hu _) (Hu _) (Hu _) Ln Ln'
              (eq_add_S _ _ Hl) H H') as [[-> E]|]; [|by right].
  destruct (decide (take 32 chain ++ block_input d = take 32 chain' ++ block_input d'))
    as [Es|Hne].
  - rewrite !take_ge in Es by lia. apply app_inj_len in Es as [-> Eb]; [|lia].
    unfold block_input in Eb. rewrite Ex, Ex' in Eb.
    rewrite <- (app_nil_r x), <- (app_nil_r x') in Eb at 2.
    pose proof (pb_encode_block_fits _ _ _ Ex). pose proof (pb_encode_block_fits _ _ _ Ex').
    unfold FirmwareBlockDescriptor_size in *.
    apply delimited_inj in Eb as [-> _]; [|unfold is_u64; pose proof (blen_nonneg x); lia
                                         |unfold is_u64; pose proof (blen_nonneg x'); lia].
    left. split; [|done]. f_equal. by eapply pb_encode_block_inj.
  - right. exists (take 32 chain ++ block_input d), (take 32 chain' ++ block_input d').
    split; [done|congruence].
Qed.

End Chain.
