(* ===== verification/OtaInflate.v ===== *)
(** * OTA v3: the block inflater (keemash_ota_v3_inflate.c)

    One raw DEFLATE block is inflated chunk by chunk through a 2048-byte output
    buffer; everything produced is handed to a callback and may not exceed the
    declared size.  zlib is a parameter; the callback is an argument and acts on
    a state of its own, so that [inflater->output_fn] and [output_context] need
    no field.  The [for (;;)] loop has a fuel, shown to be enough.  What a chunk means is
    stated with zlib itself: a run of [inflate] calls over the encoded bytes, of which the
    final chunk's reaches the end of the stream ([inflates_to]). *)

From S2P Require Import Prelude.
From S2P Require Import Words.
From S2P Require Import Esp.
From S2P Require Import OtaLib.
#[local] Open Scope Z_scope.

Definition Z_OK : Z := 0.
Definition Z_STREAM_END : Z := 1.
Definition Z_BUF_ERROR : Z := -5.
Definition Z_NO_FLUSH : Z := 0.
Definition Z_FINISH : Z := 4.

(** [inflate strm next_in avail_out flush]: the return value, the bytes of
    [next_in] consumed, the bytes written to [next_out], the new stream. *)
Class Zlib := {
  z_stream : Type;
  z_zero : z_stream;
  inflateInit2 : Z -> option z_stream;
  inflate : z_stream -> bytes -> Z -> Z -> Z * nat * bytes * z_stream;
  inflateEnd : z_stream -> z_stream }.

(** zlib stays inside the buffers it is given. *)
Class ZlibLaws (Zl : Zlib) := {
  inflate_in : forall z inp room flush r n out z',
    inflate z inp room flush = (r, n, out, z') -> (n <= length inp)%nat;
  inflate_out : forall z inp room flush r n out z',
    0 <= room -> inflate z inp room flush = (r, n, out, z') -> blen out <= room }.

(** Documented too: a call that reports no error, with input left and room in
    the output buffer, consumes some input or writes some output. *)
Definition zlib_progress (Zl : Zlib) : Prop := forall z inp room r n out z',
  inflate z inp room Z_NO_FLUSH = (r, n, out, z') -> 0 < room -> inp <> [] ->
  r = Z_OK \/ r = Z_BUF_ERROR -> (0 < n)%nat \/ out <> [].

(** ** What inflating means

    [zlib_runs skips z enc raw z']: consecutive calls of [inflate] on the bytes
    [enc] lead from the stream [z] to [z'] and write [raw]; with [skips] there
    may be input on which a call makes no progress, as the loop below leaves it. *)

Section Runs.
Context {Zl : Zlib} (skips : bool).

Inductive zlib_runs : z_stream -> bytes -> bytes -> z_stream -> Prop :=
  | zr_nil z : zlib_runs z [] [] z
  | zr_call z inp flush r n out z1 enc raw z2 :
      inflate z inp KEEMASH_OTA_V3_INFLATE_OUTPUT_BYTES flush = (r, n, out, z1) ->
      r = Z_OK \/ r = Z_BUF_ERROR -> zlib_runs z1 enc raw z2 ->
      zlib_runs z (take n inp ++ enc) (out ++ raw) z2
  | zr_skip z inp r n z1 enc raw z2 :
      skips = true -> inp <> [] -> drop n inp = inp ->
      inflate z inp KEEMASH_OTA_V3_INFLATE_OUTPUT_BYTES Z_NO_FLUSH = (r, n, [], z1) ->
      r = Z_OK \/ r = Z_BUF_ERROR -> zlib_runs z1 enc raw z2 ->
      zlib_runs z (inp ++ enc) raw z2.

(** The calls end the DEFLATE stream exactly at the end of [enc]. *)
Definition zlib_ends (z : z_stream) (enc raw : bytes) : Prop :=
  exists e w z1 inp n out z2, zlib_runs z e w z1 /\
    inflate z1 inp KEEMASH_OTA_V3_INFLATE_OUTPUT_BYTES Z_FINISH = (Z_STREAM_END, n, out, z2) /\
    drop n inp = [] /\ enc = e ++ inp /\ raw = w ++ out.

(** [raw] is what zlib, started afresh on a raw DEFLATE stream, makes of [enc]. *)
Definition inflates_to (enc raw : bytes) : Prop :=
  exists z, inflateInit2 (- KEEMASH_OTA_V3_DEFLATE_WINDOW_BITS) = Some z /\ zlib_ends z enc raw.

Lemma zlib_runs_app z enc raw z1 enc' raw' z2 :
  zlib_runs z enc raw z1 -> zlib_runs z1 enc' raw' z2 ->
  zlib_runs z (enc ++ enc') (raw ++ raw') z2.
Proof.
  induction 1 as [|z inp fl r n out z1 enc raw z3 Hc Hr _ IH
                  |z inp r n z1 enc raw z3 Hs Hi Hd Hc Hr _ IH]; intros H'; [done| |];
    rewrite <- ?app_assoc; [eapply zr_call|eapply zr_skip]; eauto.
Qed.

Lemma zlib_ends_app z enc raw z1 enc' raw' :
  zlib_runs z enc raw z1 -> zlib_ends z1 enc' raw' -> zlib_ends z (enc ++ enc') (raw ++ raw').
Proof.
  intros H (e & w & z2 & inp & n & out & z3 & Hr & Hc & Hd & -> & ->).
  exists (enc ++ e), (raw ++ w), z2, inp, n, out, z3. rewrite !app_assoc.
  split; [by eapply zlib_runs_app|done].
Qed.
End Runs.

(** With a zlib that makes progress nothing is skipped. *)
Lemma zlib_runs_exact {Zl : Zlib} z enc raw z' :
  zlib_progress Zl -> zlib_runs true z enc raw z' -> zlib_runs false z enc raw z'.
Proof.
  intros HP. induction 1 as [|z inp fl r n out z1 enc raw z3 Hc Hr _ IH
                  |z inp r n z1 enc raw z3 _ Hi Hd Hc Hr _ _]; [constructor|by eapply zr_call|].
  assert (Hroom : 0 < KEEMASH_OTA_V3_INFLATE_OUTPUT_BYTES) by done.
  destruct (HP _ _ _ _ _ _ _ Hc Hroom Hi Hr) as [Hn|Ho]; [|done].
  apply (f_equal length) in Hd. rewrite length_drop in Hd. destruct inp; cbn in *; [done|lia].
Qed.

Lemma inflates_exact {Zl : Zlib} enc raw :
  zlib_progress Zl -> inflates_to true enc raw -> inflates_to false enc raw.
Proof.
  intros HP (z & Hz & e & w & z1 & inp & n & out & z2 & Hr & H). exists z. split; [done|].
  exists e, w, z1, inp, n, out, z2. split; [by apply zlib_runs_exact|done].
Qed.

Section Inflate.
Context {Zl : Zlib}.

Record keemash_ota_v3_inflater_t := {
  i_stream : z_stream; expected_raw_size : Z; produced_raw_size : Z; i_active : bool }.

#[export] Instance eta_inflater : Eta keemash_ota_v3_inflater_t := fun i =>
  Build_keemash_ota_v3_inflater_t (i_stream i) (expected_raw_size i) (produced_raw_size i)
    (i_active i).

Definition inflater_zero : keemash_ota_v3_inflater_t :=
  {| i_stream := z_zero; expected_raw_size := 0; produced_raw_size := 0; i_active := false |}.

Definition keemash_ota_v3_inflater_begin (expected : Z)
  : ST keemash_ota_v3_inflater_t esp_err_t := fun inflater =>
  if (expected =? 0) || (KEEMASH_OTA_V3_FULL_BLOCK_SIZE <? expected)
  then (ESP_ERR_INVALID_ARG, inflater)
  else
    let inflater := inflater_zero <| expected_raw_size := expected |> in
    match inflateInit2 (- KEEMASH_OTA_V3_DEFLATE_WINDOW_BITS) with
    | None => (ESP_ERR_NO_MEM, inflater)
    | Some z => (ESP_OK, inflater <| i_stream := z |> <| i_active := true |>)
    end.

Definition keemash_ota_v3_inflater_end : ST keemash_ota_v3_inflater_t unit := fun inflater =>
  if negb (i_active inflater) then (tt, inflater)
  else (tt, (inflater <| i_stream := inflateEnd (i_stream inflater) |>) <| i_active := false |>).

(** The tests that end the loop body: the code to return, or [None] to go
    round again. *)
Definition round_end (final_chunk : bool) (result : Z) (inp rest : bytes) (produced : Z)
  (inflater : keemash_ota_v3_inflater_t) : option esp_err_t :=
  if result =? Z_STREAM_END then
    Some (if negb final_chunk || negb (blen rest =? 0) ||
             negb (produced_raw_size inflater =? expected_raw_size inflater)
          then ESP_ERR_INVALID_RESPONSE else ESP_OK)
  else if negb (result =? Z_OK) && negb (result =? Z_BUF_ERROR) then
    Some ESP_ERR_INVALID_RESPONSE
  else if (blen inp =? blen rest) && (produced =? 0) then
    Some (if final_chunk then ESP_ERR_INVALID_RESPONSE else ESP_OK)
  else if negb final_chunk && (blen rest =? 0) && (produced =? 0) then Some ESP_OK
  else if negb final_chunk && (blen rest =? 0) &&
          negb (KEEMASH_OTA_V3_INFLATE_OUTPUT_BYTES - produced =? 0) then Some ESP_OK
  else None.

Section Feed.
Context {Q : Type} (output_fn : bytes -> ST Q esp_err_t).

(** [if (produced != 0U) { ... }] *)
Definition hand_out (out : bytes) : ST (keemash_ota_v3_inflater_t * Q) esp_err_t :=
  fun '(inflater, q) =>
  if blen out =? 0 then (ESP_OK, (inflater, q))
  else if u32 (expected_raw_size inflater - produced_raw_size inflater) <? blen out
  then (ESP_ERR_INVALID_SIZE, (inflater, q))
  else
    let '(err, q) := output_fn out q in
    if negb (err_eqb err ESP_OK) then (err, (inflater, q))
    else (ESP_OK, (inflater <| produced_raw_size ::= fun p => u32 (p + blen out) |>, q)).

(** The [for (;;)] loop; [inp] is what [next_in] and [avail_in] describe.
    [None]: the fuel ran out. *)
Fixpoint inflate_loop (fuel : nat) (final_chunk : bool) (inp : bytes)
  (inflater : keemash_ota_v3_inflater_t) (q : Q)
  : option (esp_err_t * (keemash_ota_v3_inflater_t * Q)) :=
  match fuel with
  | O => None
  | S fuel =>
      let '(result, consumed, out, z) :=
        inflate (i_stream inflater) inp KEEMASH_OTA_V3_INFLATE_OUTPUT_BYTES
          (if final_chunk then Z_FINISH else Z_NO_FLUSH) in
      let '(err, (inflater, q)) := hand_out out (inflater <| i_stream := z |>, q) in
      if negb (err_eqb err ESP_OK) then Some (err, (inflater, q))
      else
        let rest := drop consumed inp in
        match round_end final_chunk result inp rest (blen out) inflater with
        | Some err => Some (err, (inflater, q))
        | None => inflate_loop fuel final_chunk rest inflater q
        end
  end.

(** Every round that goes on has consumed a byte or produced one. *)
Definition inflate_fuel (inflater : keemash_ota_v3_inflater_t) (inp : bytes) : nat :=
  S (length inp + Z.to_nat (expected_raw_size inflater - produced_raw_size inflater)).

Definition keemash_ota_v3_inflater_feed (encoded : bytes) (final_chunk : bool)
  : ST (keemash_ota_v3_inflater_t * Q) esp_err_t := fun '(inflater, q) =>
  if negb (i_active inflater) || (UINT32_MAX <? blen encoded)
  then (ESP_ERR_INVALID_ARG, (inflater, q))
  else
    default (ESP_FAIL, (inflater, q))
      (inflate_loop (inflate_fuel inflater encoded) final_chunk encoded inflater q).

End Feed.

(** ** The inflater never hands out more than it was told to expect *)

Definition inflater_ok (i : keemash_ota_v3_inflater_t) : Prop :=
  0 <= produced_raw_size i <= expected_raw_size i /\ expected_raw_size i <= UINT32_MAX.

Lemma inflater_begin_ok expected i :
  0 <= expected ->
  (keemash_ota_v3_inflater_begin expected i).1 = ESP_OK ->
  let i' := (keemash_ota_v3_inflater_begin expected i).2 in
  inflateInit2 (- KEEMASH_OTA_V3_DEFLATE_WINDOW_BITS) = Some (i_stream i') /\
  inflater_ok i' /\ i_active i' = true /\ produced_raw_size i' = 0 /\
  expected_raw_size i' = expected /\ 0 < expected <= KEEMASH_OTA_V3_FULL_BLOCK_SIZE.
Proof.
  intros He H. unfold keemash_ota_v3_inflater_begin in *.
  destruct (_ || _) eqn:E; [done|]. bools. destruct (inflateInit2 _); [|done].
  ota_consts. cbn. unfold inflater_ok, UINT32_MAX. cbn. repeat split; lia.
Qed.

Section FeedFacts.
Context {HZ : ZlibLaws Zl} {Q : Type} (output_fn : bytes -> ST Q esp_err_t).

(** One call of the callback, as far as the inflater's books are concerned:
    [R q n q'] says that going from [q] to [q'] the callback accepted [n] bytes. *)
Definition accepts (R : Q -> bytes -> Q -> Prop) : Prop :=
  (forall q, R q [] q) /\
  (forall q b q', output_fn b q = (ESP_OK, q') -> R q b q') /\
  (forall q b q' b' q'', R q b q' -> R q' b' q'' -> R q (b ++ b') q'').

Lemma hand_out_spec (R : Q -> bytes -> Q -> Prop) out i q err i' q' :
  accepts R -> inflater_ok i -> hand_out output_fn out (i, q) = (err, (i', q')) ->
  inflater_ok i' /\ expected_raw_size i' = expected_raw_size i /\ i_active i' = i_active i /\
  i_stream i' = i_stream i /\
  (err = ESP_OK -> R q out q' /\ produced_raw_size i' = produced_raw_size i + blen out).
Proof.
  intros (R0 & R1 & _) Hi H. pose proof Hi as [Hp Hm]. unfold UINT32_MAX in Hm.
  cbn in H. rewrite u32_id in H by words.
  destruct (blen out =? 0) eqn:Eo.
  { injection H as <- <- <-. bools. apply blen_zero in Eo as ->.
    repeat split; try apply Hi; try done. rewrite blen_nil. lia. }
  destruct (_ <? _) eqn:El; [by injection H as <- <- <-|].
  destruct (output_fn out q) as [e q1] eqn:Eq. bools. pose proof (blen_nonneg out).
  destruct (err_eqb e ESP_OK) eqn:Ee; cbn in H; injection H as <- <- <-.
  - apply err_eqb_true in Ee as ->. unfold inflater_ok, UINT32_MAX. cbn.
    rewrite u32_id by words. repeat split; try lia. by apply R1.
  - apply err_eqb_false in Ee. split; [exact Hi|]. by repeat split.
Qed.

Lemma round_end_progress final r inp rest p i :
  round_end final r inp rest p i = None -> blen inp <> blen rest \/ p <> 0.
Proof.
  unfold round_end. intros H.
  repeat match type of H with (if ?b then _ else _) = _ => destruct b eqn:?; [done|] end.
  destruct (Z.eqb_spec (blen inp) (blen rest)); [|by left].
  cbn in *. bools. by right.
Qed.

Lemma round_end_final r inp rest p i :
  round_end true r inp rest p i = Some ESP_OK -> produced_raw_size i = expected_raw_size i.
Proof.
  unfold round_end. intros H. destruct (r =? Z_STREAM_END).
  - injection H as H. destruct (_ || _) eqn:E; [done|]. by bools.
  - destruct (_ && _); [done|]. destruct (_ && _); [done|]. done.
Qed.

(** A round that ends without the final chunk has done with its input. *)
Lemma round_end_more r inp n out i :
  (n <= length inp)%nat ->
  round_end false r inp (drop n inp) (blen out) i = Some ESP_OK ->
  (r = Z_OK \/ r = Z_BUF_ERROR) /\ (drop n inp = [] \/ inp <> [] /\ drop n inp = inp /\ out = []).
Proof.
  unfold round_end. intros Hn H. destruct (r =? Z_STREAM_END); [done|].
  destruct (negb (r =? Z_OK) && _) eqn:Er; [done|]. bools.
  split; [destruct (r =? Z_OK) eqn:E; bools; [by left|]; cbn in Er; bools; by right|].
  destruct ((blen inp =? _) && _) eqn:E1.
  { bools. destruct inp as [|x inp]; [left; by rewrite drop_nil|right].
    split; [done|]. split; [|by apply blen_zero].
    assert (n = 0%nat) as ->; [|done].
    unfold blen in *. rewrite length_drop in *. cbn in *. lia. }
  left. destruct (_ && _) eqn:E2 in H; [cbn in E2; bools; by apply blen_zero|].
  destruct (_ && _) eqn:E3 in H; [cbn in E3; bools; by apply blen_zero|done].
Qed.

Lemma round_end_last r inp rest p i :
  round_end true r inp rest p i = Some ESP_OK -> r = Z_STREAM_END /\ rest = [].
Proof.
  unfold round_end. intros H. destruct (Z.eqb_spec r Z_STREAM_END) as [->|].
  - injection H as H. destruct (_ || _) eqn:E; [done|]. bools. split; [done|by apply blen_zero].
  - destruct (_ && _); [done|]. destruct (_ && _); [done|]. done.
Qed.

Lemma round_end_on final r inp rest p i :
  round_end final r inp rest p i = None -> r = Z_OK \/ r = Z_BUF_ERROR.
Proof.
  unfold round_end. intros H. destruct (r =? Z_STREAM_END); [done|].
  destruct (negb (r =? Z_OK) && _) eqn:Er; [done|].
  destruct (r =? Z_OK) eqn:E; bools; [by left|]; cbn in Er; bools; by right.
Qed.

(** What a chunk means to zlib: the final one ends the stream. *)
Definition zlib_chunk (final : bool) (z : z_stream) (enc raw : bytes) (z' : z_stream) : Prop :=
  if final then zlib_ends true z enc raw else zlib_runs true z enc raw z'.

Lemma zlib_chunk_app final z enc raw z1 enc' raw' z2 :
  zlib_runs true z enc raw z1 -> zlib_chunk final z1 enc' raw' z2 ->
  zlib_chunk final z (enc ++ enc') (raw ++ raw') z2.
Proof. destruct final; [apply zlib_ends_app|apply zlib_runs_app]. Qed.

Lemma last_round (final : bool) z inp r n out z' p i :
  (n <= length inp)%nat ->
  inflate z inp KEEMASH_OTA_V3_INFLATE_OUTPUT_BYTES (if final then Z_FINISH else Z_NO_FLUSH)
    = (r, n, out, z') ->
  p = blen out -> round_end final r inp (drop n inp) p i = Some ESP_OK ->
  zlib_chunk final z inp out z'.
Proof.
  intros Hn Hc -> H. destruct final; cbn [zlib_chunk].
  - apply round_end_last in H as [-> Hd].
    exists [], [], z, inp, n, out, z'. split; [constructor|done].
  - apply round_end_more in H as [Hr [Hd|(Hne & Hd & ->)]]; [| |done].
    + rewrite <- (take_drop n inp), Hd, <- (app_nil_r out).
      eapply zr_call; [exact Hc|done|constructor].
    + rewrite <- (app_nil_r inp). eapply zr_skip; try done. constructor.
Qed.

(** The loop ends, keeps the books, and on success has handed the callback
    exactly the bytes it counted, which are the ones zlib wrote. *)
Lemma inflate_loop_spec (R : Q -> bytes -> Q -> Prop) fuel final inp i q :
  accepts R -> inflater_ok i ->
  (length inp + Z.to_nat (expected_raw_size i - produced_raw_size i) < fuel)%nat ->
  exists err i' q', inflate_loop output_fn fuel final inp i q = Some (err, (i', q')) /\
    inflater_ok i' /\ expected_raw_size i' = expected_raw_size i /\ i_active i' = i_active i /\
    (err = ESP_OK ->
       (exists out, R q out q' /\ produced_raw_size i' = produced_raw_size i + blen out /\
          zlib_chunk final (i_stream i) inp out (i_stream i')) /\
       (final = true -> produced_raw_size i' = expected_raw_size i')).
Proof.
  intros HR. revert inp i q.
  induction fuel as [|fuel IH]; intros inp i q Hi Hf; [lia|].
  cbn [inflate_loop]. destruct (inflate _ _ _ _) as [[[r n] out] z] eqn:Ez.
  destruct (hand_out output_fn out (i <| i_stream := z |>, q)) as [err [i1 q1]] eqn:Eh.
  apply (hand_out_spec R) in Eh as (Hi1 & Hx & Ha & Hs & Hok); [|done..].
  cbn in Hx, Ha, Hs, Hok. apply inflate_in in Ez as Hn.
  destruct (err_eqb err ESP_OK) eqn:Ee; cbn [negb].
  2:{ apply err_eqb_false in Ee. exists err, i1, q1. done. }
  apply err_eqb_true in Ee. destruct (Hok Ee) as [HRq Hp].
  destruct (round_end _ _ _ _ _ _) as [e|] eqn:Er.
  - exists e, i1, q1. do 4 (split; [done|]). intros ->. split.
    { exists out. rewrite Hs. split; [done|]. split; [done|]. by eapply last_round. }
    intros ->. by eapply round_end_final.
  - pose proof (round_end_on _ _ _ _ _ _ Er) as Hro. apply round_end_progress in Er.
    destruct (IH (drop n inp) i1 q1) as (e & i2 & q2 & -> & Hi2 & Hx2 & Ha2 & Hok2); [done| |].
    + rewrite Hx. unfold blen, inflater_ok in *. rewrite length_drop in *. lia.
    + exists e, i2, q2. split; [done|]. split; [done|]. split; [congruence|].
      split; [congruence|]. intros Hee. destruct (Hok2 Hee) as [(out2 & HR2 & Hp2 & Hz2) Hfin].
      split; [|intros Hf'; rewrite Hfin by done; congruence].
      exists (out ++ out2). rewrite blen_app.
      split; [destruct HR as (_ & _ & Htrans); by eapply Htrans|]. split; [lia|].
      rewrite <- (take_drop n inp). eapply zlib_chunk_app; [|exact Hz2].
      rewrite Hs, <- (app_nil_r (take n inp)), <- (app_nil_r out).
      eapply zr_call; [exact Ez|done|constructor].
Qed.

Lemma inflater_feed_spec (R : Q -> bytes -> Q -> Prop) encoded final i q err i' q' :
  accepts R -> inflater_ok i ->
  keemash_ota_v3_inflater_feed output_fn encoded final (i, q) = (err, (i', q')) ->
  inflater_ok i' /\ expected_raw_size i' = expected_raw_size i /\ i_active i' = i_active i /\
  (err = ESP_OK ->
     i_active i = true /\
     (exists out, R q out q' /\ produced_raw_size i' = produced_raw_size i + blen out /\
        zlib_chunk final (i_stream i) encoded out (i_stream i')) /\
     (final = true -> produced_raw_size i' = expected_raw_size i')).
Proof.
  intros HR Hi H. unfold keemash_ota_v3_inflater_feed in H.
  destruct (_ || _) eqn:E; [by injection H as <- <- <-|]. bools.
  destruct (inflate_loop_spec R (inflate_fuel i encoded) final encoded i q HR Hi)
    as (e & i1 & q1 & El & ?); [unfold inflate_fuel; lia|].
  rewrite El in H. cbn in H. injection H as <- <- <-. tauto.
Qed.

(** The callback took these chunks, one call each. *)
Inductive handed : Q -> list bytes -> Q -> Prop :=
  | handed_nil q : handed q [] q
  | handed_cons q b q1 bs q2 :
      output_fn b q = (ESP_OK, q1) -> handed q1 bs q2 -> handed q (b :: bs) q2.

Lemma handed_app q bs q1 bs' q2 : handed q bs q1 -> handed q1 bs' q2 -> handed q (bs ++ bs') q2.
Proof. induction 1; intros H'; [done|]. econstructor; eauto. Qed.

Lemma handed_accepts : accepts (fun q b q' => exists bs, handed q bs q' /\ concat bs = b).
Proof.
  split; [|split].
  - intros q. exists []. split; [constructor|done].
  - intros q b q' H. exists [b]. split; [|apply app_nil_r].
    eapply handed_cons; [exact H|constructor].
  - intros q b q' b' q'' (bs & H & <-) (bs' & H' & <-). exists (bs ++ bs').
    split; [by eapply handed_app|apply concat_app].
Qed.

(** C28: the inflate loop ends within its fuel whatever zlib answers inside its
    buffers; the callback is never given more than the declared size, and when
    the final chunk is accepted it has been given exactly that many bytes. *)
Theorem inflate_total encoded final i q :
  inflater_ok i ->
  exists err i' q', inflate_loop output_fn (inflate_fuel i encoded) final encoded i q
                      = Some (err, (i', q')) /\
    0 <= produced_raw_size i' <= expected_raw_size i /\
    (err = ESP_OK -> exists bs, handed q bs q' /\
       produced_raw_size i' = produced_raw_size i + blen (concat bs) /\
       (final = true ->
          produced_raw_size i + blen (concat bs) = expected_raw_size i)).
Proof.
  intros Hi.
  destruct (inflate_loop_spec _ (inflate_fuel i encoded) final encoded i q handed_accepts Hi)
    as (err & i' & q' & -> & Hi' & Hx & _ & Hok); [unfold inflate_fuel; lia|].
  exists err, i', q'. split; [done|]. rewrite <- Hx. split; [apply Hi'|].
  intros E. destruct (Hok E) as [(out & (bs & Hb & <-) & Hp & _) Hf].
  exists bs. rewrite <- Hp. by split; [|split].
Qed.

End FeedFacts.
End Inflate.
