(* ===== verification/OtaStream.v ===== *)
(** * OTA v3: the stream decoder (keemash_ota_v3_stream.c)

    Chunks of encoded blocks arrive in order; each block's descriptor is checked
    against the signed fields and the chain, its bytes are hashed and inflated,
    and the raw bytes go to an output callback.  The state is the C struct; the
    callbacks [output_fn] and [read_fn] act on a state [W] of the caller.  The
    inflater's callback [stream_output] updates two hashes of the very struct
    that contains the inflater, so it runs on that struct while the inflater
    itself is threaded beside it.  A missing digest implementation
    ([mbedtls_md_info_from_type] returning NULL) is a failure of the digest call
    that follows it. *)

From S2P Require Import Prelude.
From S2P Require Import Words.
From S2P Require Import Esp.
From S2P Require Import OtaLib.
From S2P Require Import OtaTypes.
From S2P Require Import OtaV3.
From S2P Require Import OtaInflate.
#[local] Open Scope Z_scope.

Record keemash_ota_v3_resume_point_t := {
  rp_next_block_index : Z; rp_raw_offset : Z; rp_encoded_offset : Z;
  rp_block_chain : bytes; rp_image_prefix_sha256 : bytes }.

#[export] Instance resume_point_eq_dec : EqDecision keemash_ota_v3_resume_point_t.
Proof. solve_decision. Defined.

(** [a || b || ...] over status tests: the calls are made until one fails. *)
Fixpoint all_ok {S : Type} (calls : list (ST S bool)) : ST S bool :=
  match calls with
  | [] => mret true
  | m :: calls => ok ← m; if (ok : bool) then all_ok calls else mret false
  end.

Definition same_descriptor (a b : FirmwareBlockDescriptor) : bool :=
  (bd_index a =? bd_index b) && (bd_raw_offset a =? bd_raw_offset b) &&
  (bd_encoded_offset a =? bd_encoded_offset b) && (bd_raw_size a =? bd_raw_size b) &&
  (bd_encoded_size a =? bd_encoded_size b) && (bd_kind a =? bd_kind b) &&
  (blen (bd_raw_sha256 a) =? 32) && (blen (bd_raw_sha256 b) =? 32) &&
  (blen (bd_encoded_sha256 a) =? 32) && (blen (bd_encoded_sha256 b) =? 32) &&
  bytes_eqb (bd_raw_sha256 a) (bd_raw_sha256 b) &&
  bytes_eqb (bd_encoded_sha256 a) (bd_encoded_sha256 b).

Section Stream.
Context {Cfg : OtaConfig} {D : Digest} {Pb : Nanopb} {Zl : Zlib}.

Record keemash_ota_v3_stream_t := {
  s_fields : keemash_ota_v3_signed_fields_t; s_inflater : keemash_ota_v3_inflater_t;
  s_image_hash : md_ctx; s_payload_hash : md_ctx; s_block_raw_hash : md_ctx;
  s_block_encoded_hash : md_ctx; s_block : FirmwareBlockDescriptor;
  s_last_chunk_block : FirmwareBlockDescriptor; s_block_chain : bytes;
  s_last_chunk_hash : bytes; s_raw_offset : Z; s_encoded_offset : Z;
  s_block_encoded_offset : Z; s_next_block_index : Z; s_last_chunk_index : Z;
  s_last_chunk_offset : Z; s_last_chunk_size : Z; s_block_active : bool;
  s_last_chunk_valid : bool; s_last_chunk_final : bool; s_failed : bool;
  s_finished : bool; s_payload_hash_complete : bool }.

#[export] Instance eta_stream : Eta keemash_ota_v3_stream_t := fun s =>
  Build_keemash_ota_v3_stream_t (s_fields s) (s_inflater s) (s_image_hash s)
    (s_payload_hash s) (s_block_raw_hash s) (s_block_encoded_hash s) (s_block s)
    (s_last_chunk_block s) (s_block_chain s) (s_last_chunk_hash s) (s_raw_offset s)
    (s_encoded_offset s) (s_block_encoded_offset s) (s_next_block_index s)
    (s_last_chunk_index s) (s_last_chunk_offset s) (s_last_chunk_size s)
    (s_block_active s) (s_last_chunk_valid s) (s_last_chunk_final s) (s_failed s)
    (s_finished s) (s_payload_hash_complete s).

(** [memset(stream, 0, sizeof( *stream))] *)
Definition stream_zero : keemash_ota_v3_stream_t :=
  {| s_fields := signed_fields_zero; s_inflater := inflater_zero; s_image_hash := md_zero;
     s_payload_hash := md_zero; s_block_raw_hash := md_zero; s_block_encoded_hash := md_zero;
     s_block := FirmwareBlockDescriptor_init_zero;
     s_last_chunk_block := FirmwareBlockDescriptor_init_zero; s_block_chain := zeros 32;
     s_last_chunk_hash := zeros 32; s_raw_offset := 0; s_encoded_offset := 0;
     s_block_encoded_offset := 0; s_next_block_index := 0; s_last_chunk_index := 0;
     s_last_chunk_offset := 0; s_last_chunk_size := 0; s_block_active := false;
     s_last_chunk_valid := false; s_last_chunk_final := false; s_failed := false;
     s_finished := false; s_payload_hash_complete := false |}.

Abbreviation stream_t := keemash_ota_v3_stream_t (only parsing).

(** One digest call on a context of the stream: [true] when it returns 0. *)
Definition md_do (f : stream_t -> option md_ctx) (put : md_ctx -> stream_t -> stream_t)
  : ST stream_t bool := fun s =>
  match f s with Some c => (true, put c s) | None => (false, s) end.

Definition stream_fail (error : esp_err_t) : ST stream_t esp_err_t := fun s =>
  let s := s <| s_failed := true |> in
  let s := s <| s_inflater := (keemash_ota_v3_inflater_end (s_inflater s)).2 |> in
  (error, s <| s_block_active := false |>).

(** The eight digest calls of [keemash_ota_v3_stream_begin]. *)
Definition begin_digests : ST stream_t bool := all_ok [
  md_do (fun s => mbedtls_md_setup (s_image_hash s)) (fun c s => s <| s_image_hash := c |>);
  md_do (fun s => mbedtls_md_setup (s_payload_hash s)) (fun c s => s <| s_payload_hash := c |>);
  md_do (fun s => mbedtls_md_setup (s_block_raw_hash s))
    (fun c s => s <| s_block_raw_hash := c |>);
  md_do (fun s => mbedtls_md_setup (s_block_encoded_hash s))
    (fun c s => s <| s_block_encoded_hash := c |>);
  md_do (fun s => mbedtls_md_starts (s_image_hash s)) (fun c s => s <| s_image_hash := c |>);
  md_do (fun s => mbedtls_md_starts (s_payload_hash s))
    (fun c s => s <| s_payload_hash := c |>)].

Definition keemash_ota_v3_stream_begin (verified_fields : keemash_ota_v3_signed_fields_t)
  : ST stream_t esp_err_t := fun s =>
  if negb (codec verified_fields =? ARTIFACT_CODEC_FULL_DEFLATE) ||
     negb (block_size verified_fields =? KEEMASH_OTA_V3_FULL_BLOCK_SIZE) ||
     (block_count verified_fields =? 0)
  then (ESP_ERR_INVALID_ARG, s)
  else
    let s := stream_zero <| s_fields := verified_fields |> in
    let '(ok, s) := begin_digests s in
    if negb ok then stream_fail ESP_FAIL s
    else (ESP_OK, s <| s_payload_hash_complete := true |>).

(** The digest of the image bytes so far, taken from a clone of the context. *)
Definition image_prefix (s : stream_t) : option bytes :=
  prefix ← mbedtls_md_setup md_zero;
  prefix ← mbedtls_md_clone prefix (s_image_hash s);
  mbedtls_md_finish prefix.

Definition keemash_ota_v3_stream_checkpoint (s : stream_t) : res keemash_ota_v3_resume_point_t :=
  fail_if (s_failed s || s_finished s || s_block_active s || (s_next_block_index s =? 0) ||
           (block_count (s_fields s) <=? s_next_block_index s) ||
           negb (s_raw_offset s mod CONFIG_KEEMASH_OTA_V3_CHECKPOINT_BYTES =? 0))
    ESP_ERR_INVALID_STATE ;;
  prefix ← or_fail (image_prefix s) ESP_FAIL;
  mret {| rp_next_block_index := s_next_block_index s; rp_raw_offset := s_raw_offset s;
          rp_encoded_offset := s_encoded_offset s; rp_block_chain := s_block_chain s;
          rp_image_prefix_sha256 := prefix |}.

Definition start_block (descriptor : FirmwareBlockDescriptor) : ST stream_t esp_err_t := fun s =>
  match keemash_ota_v3_check_block_descriptor (s_fields s) descriptor (s_next_block_index s)
          (s_raw_offset s) (s_encoded_offset s) (s_block_chain s) with
  | inl err => (err, s)
  | inr next_chain =>
      if negb (bd_kind descriptor =? FIRMWARE_BLOCK_DEFLATE) then (ESP_ERR_NOT_SUPPORTED, s)
      else
        let s := ((s <| s_block := descriptor |>) <| s_block_chain := next_chain |>)
                   <| s_block_encoded_offset := 0 |> in
        let '(ok, s) := all_ok [
          md_do (fun s => mbedtls_md_starts (s_block_raw_hash s))
            (fun c s => s <| s_block_raw_hash := c |>);
          md_do (fun s => mbedtls_md_starts (s_block_encoded_hash s))
            (fun c s => s <| s_block_encoded_hash := c |>)] s in
        if negb ok then (ESP_FAIL, s)
        else
          let '(err, i) := keemash_ota_v3_inflater_begin (bd_raw_size descriptor)
                             (s_inflater s) in
          let s := s <| s_inflater := i |> in
          (err, if err_eqb err ESP_OK then s <| s_block_active := true |> else s)
  end.

Definition finish_block : ST stream_t esp_err_t := fun s =>
  match mbedtls_md_finish (s_block_raw_hash s), mbedtls_md_finish (s_block_encoded_hash s) with
  | Some raw_hash, Some encoded_hash =>
      if negb (bytes_eqb raw_hash (bd_raw_sha256 (s_block s))) ||
         negb (bytes_eqb encoded_hash (bd_encoded_sha256 (s_block s)))
      then (ESP_ERR_INVALID_CRC, s)
      else
        let s := s <| s_raw_offset := u32 (s_raw_offset s + bd_raw_size (s_block s)) |> in
        let s := s <| s_encoded_offset :=
                        u32 (s_encoded_offset s + bd_encoded_size (s_block s)) |> in
        let s := s <| s_block_encoded_offset := 0 |> in
        let s := s <| s_next_block_index ::= fun n => u32 (n + 1) |> in
        let s := s <| s_block_active := false |> in
        (ESP_OK, s <| s_inflater := (keemash_ota_v3_inflater_end (s_inflater s)).2 |>)
  | _, _ => (ESP_FAIL, s)
  end.

Definition keemash_ota_v3_stream_finish : ST stream_t esp_err_t := fun s =>
  if s_failed s || s_finished s || s_block_active s ||
     negb (s_next_block_index s =? block_count (s_fields s)) ||
     negb (s_raw_offset s =? raw_size (s_fields s)) ||
     negb (s_encoded_offset s =? encoded_size (s_fields s))
  then (ESP_ERR_INVALID_STATE, s)
  else
    match mbedtls_md_finish (s_image_hash s), mbedtls_md_finish (s_payload_hash s) with
    | Some image_hash, Some payload_hash =>
        if negb (bytes_eqb image_hash (image_sha256 (s_fields s))) ||
           (s_payload_hash_complete s &&
            negb (bytes_eqb payload_hash (encoded_sha256 (s_fields s)))) ||
           negb (bytes_eqb (s_block_chain s) (block_table_sha256 (s_fields s)))
        then stream_fail ESP_ERR_INVALID_CRC s
        else (ESP_OK, s <| s_finished := true |>)
    | _, _ => stream_fail ESP_FAIL s
    end.

Definition keemash_ota_v3_stream_end : ST stream_t unit := fun s =>
  let _ := (keemash_ota_v3_inflater_end (s_inflater s)).2 in (tt, stream_zero).

(** ** Feeding *)

Section Feed.
Context {W : Type} (output_fn : bytes -> ST W esp_err_t).

(** A function that touches the stream alone. *)
Definition on_stream {A : Type} (m : ST stream_t A) : ST (stream_t * W) A := fun '(s, w) =>
  let '(a, s) := m s in (a, (s, w)).

Definition stream_output (out : bytes) : ST (stream_t * W) esp_err_t := fun '(s, w) =>
  let '(ok, s) := all_ok [
    md_do (fun s => mbedtls_md_update (s_block_raw_hash s) out)
      (fun c s => s <| s_block_raw_hash := c |>);
    md_do (fun s => mbedtls_md_update (s_image_hash s) out)
      (fun c s => s <| s_image_hash := c |>)] s in
  if negb ok then (ESP_FAIL, (s, w))
  else let '(err, w) := output_fn out w in (err, (s, w)).

Definition feed_inflater (chunk : bytes) (final_chunk : bool) : ST (stream_t * W) esp_err_t :=
  fun '(s, w) =>
  let '(err, (i, (s, w))) :=
    keemash_ota_v3_inflater_feed stream_output chunk final_chunk (s_inflater s, (s, w)) in
  (err, (s <| s_inflater := i |>, w)).

(** A chunk that is the last one again. *)
Definition repeats_last (s : stream_t) (descriptor : FirmwareBlockDescriptor)
  (block_encoded_offset : Z) : bool :=
  s_last_chunk_valid s && (bd_index descriptor =? s_last_chunk_index s) &&
  (block_encoded_offset =? s_last_chunk_offset s).

Definition same_last (s : stream_t) (descriptor : FirmwareBlockDescriptor)
  (chunk chunk_hash : bytes) (final_chunk : bool) : bool :=
  same_descriptor (s_last_chunk_block s) descriptor &&
  (s_last_chunk_size s =? blen chunk) && Bool.eqb (s_last_chunk_final s) final_chunk &&
  bytes_eqb (s_last_chunk_hash s) chunk_hash.

(** Bytes of the current block still to come. *)
Definition block_left (s : stream_t) : Z :=
  u32 (bd_encoded_size (s_block s) - s_block_encoded_offset s).

Definition enter_block (descriptor : FirmwareBlockDescriptor) (block_encoded_offset : Z)
  : ST stream_t esp_err_t := fun s =>
  if negb (s_block_active s) then
    if negb (block_encoded_offset =? 0) then (ESP_ERR_INVALID_ARG, s)
    else start_block descriptor s
  else if negb (same_descriptor (s_block s) descriptor) then (ESP_ERR_INVALID_ARG, s)
  else (ESP_OK, s).

Definition remember_chunk (descriptor : FirmwareBlockDescriptor) (block_encoded_offset : Z)
  (chunk chunk_hash : bytes) (final_chunk : bool) (s : stream_t) : stream_t :=
  let s := s <| s_last_chunk_index := bd_index descriptor |> in
  let s := s <| s_last_chunk_block := descriptor |> in
  let s := s <| s_last_chunk_offset := block_encoded_offset |> in
  let s := s <| s_last_chunk_size := u32 (blen chunk) |> in
  let s := s <| s_last_chunk_final := final_chunk |> in
  let s := s <| s_last_chunk_hash := chunk_hash |> in
  s <| s_last_chunk_valid := true |>.

(** The steps of [keemash_ota_v3_stream_feed] after the repetition test; every
    error they return goes through [stream_fail]. *)
Definition feed_chunk (descriptor : FirmwareBlockDescriptor) (block_encoded_offset : Z)
  (chunk : bytes) (final_chunk : bool) : ST (stream_t * W) esp_err_t :=
  and_then (on_stream (enter_block descriptor block_encoded_offset)) (fun '(s, w) =>
  if negb (block_encoded_offset =? s_block_encoded_offset s) ||
     (block_left s <? blen chunk) ||
     negb (Bool.eqb final_chunk (blen chunk =? block_left s))
  then (ESP_ERR_INVALID_SIZE, (s, w))
  else
    let '(ok, s) := all_ok [
      md_do (fun s => mbedtls_md_update (s_block_encoded_hash s) chunk)
        (fun c s => s <| s_block_encoded_hash := c |>);
      md_do (fun s => mbedtls_md_update (s_payload_hash s) chunk)
        (fun c s => s <| s_payload_hash := c |>)] s in
    if negb ok then (ESP_FAIL, (s, w))
    else
      and_then (feed_inflater chunk final_chunk) (fun '(s, w) =>
        let s := s <| s_block_encoded_offset ::= fun o => u32 (o + blen chunk) |> in
        if final_chunk then on_stream finish_block (s, w) else (ESP_OK, (s, w)))
      (s, w)).

Definition keemash_ota_v3_stream_feed (descriptor : FirmwareBlockDescriptor)
  (block_encoded_offset : Z) (chunk : bytes) (final_chunk : bool)
  : ST (stream_t * W) esp_err_t := fun '(s, w) =>
  if s_failed s || s_finished s || (blen chunk =? 0) ||
     (KEEMASH_OTA_V3_MAX_CHUNK_BYTES <? blen chunk)
  then (ESP_ERR_INVALID_ARG, (s, w))
  else
    match mbedtls_md chunk with
    | None => on_stream (stream_fail ESP_FAIL) (s, w)
    | Some chunk_hash =>
        if repeats_last s descriptor block_encoded_offset then
          if same_last s descriptor chunk chunk_hash final_chunk then (ESP_OK, (s, w))
          else on_stream (stream_fail ESP_ERR_INVALID_CRC) (s, w)
        else
          let '(err, (s, w)) :=
            feed_chunk descriptor block_encoded_offset chunk final_chunk (s, w) in
          if negb (err_eqb err ESP_OK) then on_stream (stream_fail err) (s, w)
          else (ESP_OK, (remember_chunk descriptor block_encoded_offset chunk chunk_hash
                           final_chunk s, w))
    end.

(** ** Resuming *)

Context (read_fn : Z -> Z -> ST W (res bytes)).

(** [for (offset = 0; offset < raw_offset;) { ... }] *)
Fixpoint read_prefix (fuel : nat) (offset raw_offset : Z) : ST (stream_t * W) esp_err_t :=
  fun '(s, w) =>
  if raw_offset <=? offset then (ESP_OK, (s, w))
  else
    match fuel with
    | O => (ESP_FAIL, (s, w))
    | S fuel =>
        let length := Z.min (raw_offset - offset) KEEMASH_OTA_V3_INFLATE_OUTPUT_BYTES in
        let '(r, w) := read_fn offset length w in
        match r with
        | inl err => (err, (s, w))
        | inr buffer =>
            match mbedtls_md_update (s_image_hash s) buffer with
            | None => (ESP_FAIL, (s, w))
            | Some c =>
                read_prefix fuel (u32 (offset + length)) raw_offset
                  (s <| s_image_hash := c |>, w)
            end
        end
    end.

Definition prefix_fuel (raw_offset : Z) : nat :=
  Z.to_nat (raw_offset / KEEMASH_OTA_V3_INFLATE_OUTPUT_BYTES + 1).

Definition resume_point_wrong (f : keemash_ota_v3_signed_fields_t)
  (rp : keemash_ota_v3_resume_point_t) : bool :=
  (rp_next_block_index rp =? 0) || (block_count f <=? rp_next_block_index rp) ||
  negb (u64 (rp_next_block_index rp * block_size f) =? rp_raw_offset rp) ||
  (raw_size f <=? rp_raw_offset rp) ||
  (rp_encoded_offset rp =? 0) || (encoded_size f <=? rp_encoded_offset rp).

Definition keemash_ota_v3_stream_resume (verified_fields : keemash_ota_v3_signed_fields_t)
  (rp : keemash_ota_v3_resume_point_t) : ST (stream_t * W) esp_err_t := fun '(s, w) =>
  if resume_point_wrong verified_fields rp then (ESP_ERR_INVALID_ARG, (s, w))
  else
    and_then (on_stream (keemash_ota_v3_stream_begin verified_fields)) (fun sw =>
      let '(err, (s, w)) := read_prefix (prefix_fuel (rp_raw_offset rp)) 0 (rp_raw_offset rp) sw in
      if negb (err_eqb err ESP_OK) then on_stream (stream_fail err) (s, w)
      else
        match image_prefix s with
        | None => on_stream (stream_fail ESP_FAIL) (s, w)
        | Some prefix_hash =>
            if negb (bytes_eqb prefix_hash (rp_image_prefix_sha256 rp))
            then on_stream (stream_fail ESP_ERR_INVALID_CRC) (s, w)
            else
              let s := s <| s_next_block_index := rp_next_block_index rp |> in
              let s := s <| s_raw_offset := rp_raw_offset rp |> in
              let s := s <| s_encoded_offset := rp_encoded_offset rp |> in
              let s := s <| s_block_chain := rp_block_chain rp |> in
              (ESP_OK, (s <| s_payload_hash_complete := false |>, w))
        end) (s, w).

End Feed.
End Stream.
