(* ===== verification/OtaRefine.v ===== *)
(** * OTA v3: the stream decoder implements an image receiver

    The abstract receiver [image_rx] keeps whole byte strings: the blocks
    received so far with their encoded and raw bytes, and the block being
    received.  [rx_step] is its one operation, accepting the next chunk.
    [feed_refines] shows that every chunk the stream decoder accepts is such a
    step (or a repetition that changes nothing), [finish_verified] what a
    successful end means for the bytes the output callback was given. *)

From S2P Require Import Prelude.
From S2P Require Import Words.
From S2P Require Import Esp.
From S2P Require Import OtaLib.
From S2P Require Import OtaTypes.
From S2P Require Import OtaV3.
From S2P Require Import OtaChain.
From S2P Require Import OtaInflate.
From S2P Require Import OtaStream.
#[local] Open Scope Z_scope.

(** A received block: descriptor, encoded bytes, raw bytes. *)
Record rx_block := { xb_desc : FirmwareBlockDescriptor; xb_enc : bytes; xb_raw : bytes }.

Record image_rx := { ar_blocks : list rx_block; ar_open : option rx_block }.

Definition rx_descs (a : image_rx) : list FirmwareBlockDescriptor := xb_desc <$> ar_blocks a.
Definition rx_all (a : image_rx) : list rx_block :=
  ar_blocks a ++ match ar_open a with Some b => [b] | None => [] end.

(** Everything received: the raw image bytes and the payload bytes. *)
Definition rx_raw (a : image_rx) : bytes := concat (xb_raw <$> rx_all a).
Definition rx_enc (a : image_rx) : bytes := concat (xb_enc <$> rx_all a).

Definition rx_start : image_rx := {| ar_blocks := []; ar_open := None |}.

Section Refine.
Context {Cfg : OtaConfig} {D : Digest} {Pb : Nanopb} {Zl : Zlib}
  {HD : DigestLaws D} {HP : NanopbLaws Pb} {HZ : ZlibLaws Zl}.

(** A block as its descriptor announces it: zlib makes its raw bytes of its encoded
    ones (but for input on which zlib makes no progress, see [zlib_runs]), and the
    lengths and digests are the announced ones. *)
Definition block_matches (b : rx_block) : Prop :=
  inflates_to true (xb_enc b) (xb_raw b) /\
  blen (xb_raw b) = bd_raw_size (xb_desc b) /\
  blen (xb_enc b) = bd_encoded_size (xb_desc b) /\
  sha256 (xb_raw b) = bd_raw_sha256 (xb_desc b) /\
  sha256 (xb_enc b) = bd_encoded_sha256 (xb_desc b).

(** The block a chunk belongs to: the open one, or a new one that is next in
    the table. *)
Inductive rx_current (f : keemash_ota_v3_signed_fields_t) (rp : keemash_ota_v3_resume_point_t)
  (d : FirmwareBlockDescriptor) : image_rx -> rx_block -> Prop :=
  | rx_continue blocks e r :
      rx_current f rp d {| ar_blocks := blocks;
                           ar_open := Some {| xb_desc := d; xb_enc := e; xb_raw := r |} |}
        {| xb_desc := d; xb_enc := e; xb_raw := r |}
  | rx_new blocks raw enc chain next :
      check_table f (xb_desc <$> blocks) (rp_next_block_index rp) (rp_raw_offset rp)
        (rp_encoded_offset rp) (rp_block_chain rp) = inr (raw, enc, chain) ->
      keemash_ota_v3_check_block_descriptor f d
        (rp_next_block_index rp + Z.of_nat (length blocks)) raw enc chain = inr next ->
      rx_current f rp d {| ar_blocks := blocks; ar_open := None |}
        {| xb_desc := d; xb_enc := []; xb_raw := [] |}.

(** The next chunk of encoded bytes: it continues the current block where the
    last one ended, yields some raw bytes, and if it is the final one the block
    matches its descriptor. *)
Inductive rx_step f rp (d : FirmwareBlockDescriptor) (off : Z) (chunk : bytes)
  : bool -> image_rx -> image_rx -> Prop :=
  | rx_more a b out :
      rx_current f rp d a b -> off = blen (xb_enc b) ->
      blen (xb_enc b ++ chunk) < bd_encoded_size d ->
      blen (xb_raw b ++ out) <= bd_raw_size d ->
      rx_step f rp d off chunk false a
        {| ar_blocks := ar_blocks a;
           ar_open := Some {| xb_desc := d; xb_enc := xb_enc b ++ chunk;
                              xb_raw := xb_raw b ++ out |} |}
  | rx_final a b b' out :
      rx_current f rp d a b -> off = blen (xb_enc b) ->
      b' = {| xb_desc := d; xb_enc := xb_enc b ++ chunk; xb_raw := xb_raw b ++ out |} ->
      block_matches b' ->
      rx_step f rp d off chunk true a
        {| ar_blocks := ar_blocks a ++ [b']; ar_open := None |}.

(** ** The relation between the C state and the receiver *)

Section Rel.
Context {W : Type} (output_fn : bytes -> ST W esp_err_t) (R : W -> bytes -> W -> Prop)
  (HR : accepts output_fn R).
Context (f : keemash_ota_v3_signed_fields_t) (rp : keemash_ota_v3_resume_point_t)
  (pre : bytes) (full : bool) (w0 : W).

(** The part of the state that describes the current block. *)
Definition open_rel (chain : bytes) (o : option rx_block) (s : keemash_ota_v3_stream_t) : Prop :=
  match o with
  | None => s_block_active s = false /\ s_block_chain s = chain
  | Some b =>
      s_block_active s = true /\ s_block s = xb_desc b /\ block_typed (xb_desc b) /\
      keemash_ota_v3_check_block_descriptor f (xb_desc b) (s_next_block_index s)
        (s_raw_offset s) (s_encoded_offset s) chain = inr (s_block_chain s) /\
      md_held (s_block_raw_hash s) = xb_raw b /\
      md_held (s_block_encoded_hash s) = xb_enc b /\
      (exists z, inflateInit2 (- KEEMASH_OTA_V3_DEFLATE_WINDOW_BITS) = Some z /\
         zlib_runs true z (xb_enc b) (xb_raw b) (i_stream (s_inflater s))) /\
      s_block_encoded_offset s = blen (xb_enc b) /\
      blen (xb_enc b) < bd_encoded_size (xb_desc b) /\
      inflater_ok (s_inflater s) /\ i_active (s_inflater s) = true /\
      expected_raw_size (s_inflater s) = bd_raw_size (xb_desc b) /\
      produced_raw_size (s_inflater s) = blen (xb_raw b)
  end.

Record rel (a : image_rx) (s : keemash_ota_v3_stream_t) (w : W) : Prop := {
  rl_fields : s_fields s = f /\ fields_ok f;
  rl_live : s_failed s = false /\ s_finished s = false;
  rl_typed : Forall block_typed (rx_descs a);
  rl_table : exists chain,
    check_table f (rx_descs a) (rp_next_block_index rp) (rp_raw_offset rp)
      (rp_encoded_offset rp) (rp_block_chain rp)
    = inr (s_raw_offset s, s_encoded_offset s, chain) /\ open_rel chain (ar_open a) s;
  rl_index : s_next_block_index s = rp_next_block_index rp + Z.of_nat (length (ar_blocks a));
  rl_pos : 0 <= rp_next_block_index rp /\ 0 <= s_raw_offset s /\ 0 <= s_encoded_offset s;
  rl_image : md_held (s_image_hash s) = pre ++ rx_raw a;
  rl_payload : s_payload_hash_complete s = full /\
    (full = true -> md_held (s_payload_hash s) = rx_enc a);
  rl_blocks : Forall block_matches (ar_blocks a);
  rl_out : R w0 (rx_raw a) w }.

(** *** Digest calls *)

Lemma md_do_inv get put (s s' : keemash_ota_v3_stream_t) :
  md_do get put s = (true, s') -> exists c, get s = Some c /\ s' = put c s.
Proof. unfold md_do. destruct (get s) as [c|]; [|done]. intros [= <-]. by exists c. Qed.

Lemma all_ok_cons {S : Type} (m : ST S bool) ms s s' :
  all_ok (m :: ms) s = (true, s') ->
  exists s1, m s = (true, s1) /\ all_ok ms s1 = (true, s').
Proof.
  cbn. rewrite bind_eq. destruct (m s) as [[] s1]; cbn; [|done]. intros H. by exists s1.
Qed.

Lemma and_then_inv {S : Type} (m k : ST S esp_err_t) s s' :
  and_then m k s = (ESP_OK, s') -> exists s1, m s = (ESP_OK, s1) /\ k s1 = (ESP_OK, s').
Proof.
  unfold and_then. rewrite bind_eq. destruct (m s) as [e s1]. cbn.
  destruct (err_eqb e ESP_OK) eqn:E.
  - apply err_eqb_true in E as ->. intros H. by exists s1.
  - apply err_eqb_false in E. rewrite ret_eq. congruence.
Qed.

(** *** The callback given to the inflater *)

(** [stream_output] hands its bytes on and absorbs them in both digests. *)
Definition outputs (q : keemash_ota_v3_stream_t * W) (b : bytes)
  (q' : keemash_ota_v3_stream_t * W) : Prop :=
  R q.2 b q'.2 /\
  exists c1 c2, q'.1 = (q.1 <| s_block_raw_hash := c1 |>) <| s_image_hash := c2 |> /\
    md_held c1 = md_held (s_block_raw_hash q.1) ++ b /\
    md_held c2 = md_held (s_image_hash q.1) ++ b.

Lemma stream_output_accepts : accepts (stream_output output_fn) outputs.
Proof.
  destruct HR as (H0 & H1 & H2). split; [|split].
  - intros [s w]. split; [apply H0|]. exists (s_block_raw_hash s), (s_image_hash s).
    rewrite !app_nil_r. by destruct s.
  - intros [s w] b [s' w'] H. unfold stream_output in H.
    destruct (all_ok _ s) as [ok s1] eqn:E. destruct ok; [|done].
    apply all_ok_cons in E as (s2 & Ea & E). apply all_ok_cons in E as (s3 & Eb & E).
    apply md_do_inv in Ea as (c1 & Hc1 & ->). apply md_do_inv in Eb as (c2 & Hc2 & ->).
    injection E as <-. cbn in H. destruct (output_fn b w) as [e w1] eqn:Ew.
    injection H as -> <- <-. split; [by apply H1|].
    exists c1, c2. split; [done|]. apply md_update_ok in Hc1, Hc2. done.
  - intros [s w] b [s1 w1] b' [s2 w2] [Hr (c1 & c2 & E1 & Ha & Hb)]
      [Hr' (d1 & d2 & E2 & Hc & Hd)]. cbn in *. subst.
    split; [by eapply H2|]. exists d1, d2. split; [done|].
    cbn in *. rewrite Hc, Hd, Ha, Hb. by rewrite !app_assoc.
Qed.

(** *** Entering a block *)

Lemma same_descriptor_eq a b : same_descriptor a b = true -> a = b.
Proof.
  unfold same_descriptor. intros H. bools.
  repeat match goal with H : bytes_eqb _ _ = true |- _ => apply bytes_eqb_true in H end.
  destruct a, b. cbn in *. by subst.
Qed.

(** Opening a block: its digests and the inflater start afresh. *)
Lemma start_block_ok d s s' :
  start_block d s = (ESP_OK, s') ->
  exists next c1 c2 i,
    keemash_ota_v3_check_block_descriptor (s_fields s) d (s_next_block_index s)
      (s_raw_offset s) (s_encoded_offset s) (s_block_chain s) = inr next /\
    bd_encoded_size d <> 0 /\ md_held c1 = [] /\ md_held c2 = [] /\
    keemash_ota_v3_inflater_begin (bd_raw_size d) (s_inflater s) = (ESP_OK, i) /\
    s' = ((((((s <| s_block := d |>) <| s_block_chain := next |>)
              <| s_block_encoded_offset := 0 |>) <| s_block_raw_hash := c1 |>)
              <| s_block_encoded_hash := c2 |>) <| s_inflater := i |>)
              <| s_block_active := true |>.
Proof.
  unfold start_block. intros H.
  destruct (keemash_ota_v3_check_block_descriptor _ _ _ _ _ _) as [e|next] eqn:Ec.
  { exfalso. injection H as -> _. by apply check_block_proper in Ec. }
  destruct (bd_kind d =? FIRMWARE_BLOCK_DEFLATE) eqn:Ek; [|done]. cbn [negb] in H. bools.
  pose proof (check_block_deflate _ _ _ _ _ _ _ Ec Ek) as Hz.
  destruct (all_ok _ _) as [[] s1] eqn:Ea; [|done]. cbn [negb] in H.
  apply all_ok_cons in Ea as (s2 & E1 & Ea). apply all_ok_cons in Ea as (s3 & E2 & Ea).
  apply md_do_inv in E1 as (c1 & Hc1 & ->). apply md_do_inv in E2 as (c2 & Hc2 & ->).
  injection Ea as <-. apply md_starts_ok in Hc1, Hc2.
  destruct (keemash_ota_v3_inflater_begin _ _) as [e i] eqn:Ei. cbn in Ei.
  injection H as -> <-. by exists next, c1, c2, i.
Qed.

Lemma enter_block_rel a s w d off s' :
  rel a s w -> block_typed d -> enter_block d off s = (ESP_OK, s') ->
  exists b, rx_current f rp d a b /\
    rel {| ar_blocks := ar_blocks a; ar_open := Some b |} s' w /\
    rx_raw {| ar_blocks := ar_blocks a; ar_open := Some b |} = rx_raw a /\
    rx_enc {| ar_blocks := ar_blocks a; ar_open := Some b |} = rx_enc a /\ xb_desc b = d.
Proof.
  intros Hrel Hd H. pose proof Hrel as [Hf Hl Ht (chain & Htab & Ho) Hx Hp Hi Hpay Hb Hout].
  destruct a as [blocks o]. unfold enter_block in H.
  destruct (s_block_active s) eqn:Eact; cbn [negb] in H.
  - destruct o as [b|]; [|by destruct Ho as [? _]; congruence].
    destruct (same_descriptor (s_block s) d) eqn:Ed; [|done]. injection H as <-.
    apply same_descriptor_eq in Ed. destruct Ho as (_ & Hdb & _). exists b.
    assert (xb_desc b = d) as E by congruence.
    split; [|by split; [|split]]. destruct b. cbn in E. subst. constructor.
  - destruct (off =? 0) eqn:Eo; [|done]. bools. cbn [negb] in H.
    destruct o as [b|]; [by destruct Ho as [? _]; congruence|].
    destruct Ho as [_ <-]. apply start_block_ok in H as (next & c1 & c2 & i & Hc & Hz & H1 & H2 & Hb2 & ->).
    destruct Hf as [Hff Hfok]. rewrite Hff in Hc. cbn [rx_descs ar_blocks] in *.
    exists {| xb_desc := d; xb_enc := []; xb_raw := [] |}.
    assert (Eraw : rx_raw {| ar_blocks := blocks;
                     ar_open := Some {| xb_desc := d; xb_enc := []; xb_raw := [] |} |}
                   = rx_raw {| ar_blocks := blocks; ar_open := None |}).
    { unfold rx_raw, rx_all. cbn. rewrite !fmap_app, !concat_app. cbn. by rewrite !app_nil_r. }
    assert (Eenc : rx_enc {| ar_blocks := blocks;
                     ar_open := Some {| xb_desc := d; xb_enc := []; xb_raw := [] |} |}
                   = rx_enc {| ar_blocks := blocks; ar_open := None |}).
    { unfold rx_enc, rx_all. cbn. rewrite !fmap_app, !concat_app. cbn. by rewrite !app_nil_r. }
    split; [|split; [|by split; [|split]]].
    { rewrite Hx in Hc. by econstructor. }
    pose proof (proj1 Hd) as Hd'. rewrite !Forall_cons_iff in Hd'. unfold is_u32 in Hd'.
    destruct (inflater_begin_ok (bd_raw_size d) (s_inflater s) ltac:(lia)) as (Hz0 & Hi1 & Hi2 & Hi3 & Hi4 & _);
      [by rewrite Hb2|]. rewrite Hb2 in *. cbn [snd] in *.
    split; try done; [|by rewrite Eraw|by rewrite Eenc|by rewrite Eraw].
    exists (s_block_chain s). split; [done|].
    cbn [open_rel xb_desc xb_enc xb_raw].
    assert (Hzr : exists z, inflateInit2 (- KEEMASH_OTA_V3_DEFLATE_WINDOW_BITS) = Some z /\
                    zlib_runs true z [] [] (i_stream i)) by (eexists; split; [exact Hz0|constructor]).
    cbn. rewrite blen_nil. repeat (split; [first [done|lia|apply Hd|exact Hzr|apply Hi1]|]).
    exact Hi3.
Qed.

(** *** Inflating a chunk *)

Lemma feed_inflater_rel r size s w chunk final s' w' :
  md_held (s_block_raw_hash s) = r -> inflater_ok (s_inflater s) ->
  expected_raw_size (s_inflater s) = size -> produced_raw_size (s_inflater s) = blen r ->
  feed_inflater output_fn chunk final (s, w) = (ESP_OK, (s', w')) ->
  exists out c1 c2 i,
    s' = ((s <| s_block_raw_hash := c1 |>) <| s_image_hash := c2 |>) <| s_inflater := i |> /\
    md_held c1 = r ++ out /\ md_held c2 = md_held (s_image_hash s) ++ out /\
    inflater_ok i /\ i_active i = true /\ expected_raw_size i = size /\
    produced_raw_size i = blen (r ++ out) /\
    (final = true -> blen (r ++ out) = size) /\
    zlib_chunk final (i_stream (s_inflater s)) chunk out (i_stream i) /\ R w out w'.
Proof.
  intros <- Hok <- Hpro H. unfold feed_inflater in H.
  destruct (keemash_ota_v3_inflater_feed _ _ _ _) as [err [i [s1 w1]]] eqn:E.
  eapply (inflater_feed_spec (stream_output output_fn) outputs) in E
    as (Hi & Hx & Ha & Hdone); [|apply stream_output_accepts|done].
  injection H as -> <- <-.
  destruct Hdone as (Hact & (out & (HRw & c1 & c2 & Es & Hc1 & Hc2) & Hp & Hz) & Hfin); [done|].
  cbn in *. exists out, c1, c2, i. rewrite blen_app. subst s1.
  split; [done|]. split; [done|]. split; [done|]. split; [done|].
  split; [congruence|]. split; [congruence|]. split; [lia|]. split; [|done].
  intros Hf. specialize (Hfin Hf). lia.
Qed.

(** The strings of a receiver whose open block grew. *)
Lemma rx_raw_open blocks b :
  rx_raw {| ar_blocks := blocks; ar_open := Some b |}
  = rx_raw {| ar_blocks := blocks; ar_open := None |} ++ xb_raw b.
Proof. unfold rx_raw, rx_all. cbn. rewrite !fmap_app, !concat_app. cbn. by rewrite !app_nil_r. Qed.

Lemma rx_enc_open blocks b :
  rx_enc {| ar_blocks := blocks; ar_open := Some b |}
  = rx_enc {| ar_blocks := blocks; ar_open := None |} ++ xb_enc b.
Proof. unfold rx_enc, rx_all. cbn. rewrite !fmap_app, !concat_app. cbn. by rewrite !app_nil_r. Qed.

Lemma rx_close blocks b :
  rx_raw {| ar_blocks := blocks ++ [b]; ar_open := None |}
  = rx_raw {| ar_blocks := blocks; ar_open := Some b |} /\
  rx_enc {| ar_blocks := blocks ++ [b]; ar_open := None |}
  = rx_enc {| ar_blocks := blocks; ar_open := Some b |}.
Proof. unfold rx_raw, rx_enc, rx_all. cbn. by rewrite !app_nil_r. Qed.

(** *** Closing a block *)

Lemma check_table_snoc g ds d index raw enc chain raw' enc' chain' next :
  0 <= index -> index + Z.of_nat (length ds) < UINT32_MAX ->
  check_table g ds index raw enc chain = inr (raw', enc', chain') ->
  keemash_ota_v3_check_block_descriptor g d (index + Z.of_nat (length ds)) raw' enc' chain'
    = inr next ->
  check_table g (ds ++ [d]) index raw enc chain
    = inr (u32 (raw' + bd_raw_size d), u32 (enc' + bd_encoded_size d), next).
Proof.
  intros Hi. revert index raw enc chain Hi.
  induction ds as [|d0 ds IH]; intros index raw enc chain Hi Hb H Hc; cbn in H, Hc |- *.
  - injection H as <- <- <-. rewrite Z.add_0_r in Hc. by rewrite Hc.
  - apply res_bind_inr in H as (n & -> & H). cbn. unfold UINT32_MAX in Hb. cbn [length] in Hb.
    rewrite u32_id in * by words. apply IH; try (unfold UINT32_MAX; lia); [done|].
    by replace (index + 1 + Z.of_nat (length ds)) with (index + Z.of_nat (S (length ds))) by lia.
Qed.

Lemma finish_block_ok s s' :
  finish_block s = (ESP_OK, s') ->
  sha256 (md_held (s_block_raw_hash s)) = bd_raw_sha256 (s_block s) /\
  sha256 (md_held (s_block_encoded_hash s)) = bd_encoded_sha256 (s_block s) /\
  exists i, s' = (((((s <| s_raw_offset := u32 (s_raw_offset s + bd_raw_size (s_block s)) |>)
     <| s_encoded_offset := u32 (s_encoded_offset s + bd_encoded_size (s_block s)) |>)
     <| s_block_encoded_offset := 0 |>)
     <| s_next_block_index := u32 (s_next_block_index s + 1) |>)
     <| s_block_active := false |>) <| s_inflater := i |>.
Proof.
  unfold finish_block. intros H.
  destruct (mbedtls_md_finish (s_block_raw_hash s)) as [r|] eqn:Er; [|done].
  destruct (mbedtls_md_finish (s_block_encoded_hash s)) as [e|] eqn:Ee; [|done].
  apply md_finish_ok in Er as ->, Ee as ->.
  destruct (_ || _) eqn:E in H; [done|]. bools.
  repeat match goal with H : bytes_eqb _ _ = true |- _ => apply bytes_eqb_true in H end.
  split; [done|]. split; [done|]. injection H as <-. by eexists.
Qed.

(** *** One chunk *)

(** The state after a chunk has been hashed and inflated. *)
Definition chunk_done (s : keemash_ota_v3_stream_t) (c1 c2 c3 c4 : md_ctx)
  (i : keemash_ota_v3_inflater_t) (offset : Z) : keemash_ota_v3_stream_t :=
  (((((s <| s_block_encoded_hash := c1 |>) <| s_payload_hash := c2 |>)
     <| s_block_raw_hash := c3 |>) <| s_image_hash := c4 |>)
     <| s_inflater := i |>) <| s_block_encoded_offset := offset |>.

Lemma feed_chunk_ok a b s w off chunk final k s' w' :
  rel {| ar_blocks := a; ar_open := Some b |} s w ->
  (if negb (off =? s_block_encoded_offset s) || (block_left s <? blen chunk) ||
      negb (Bool.eqb final (blen chunk =? block_left s))
   then (ESP_ERR_INVALID_SIZE, (s, w))
   else
     let '(ok, s) := all_ok [
       md_do (fun s => mbedtls_md_update (s_block_encoded_hash s) chunk)
         (fun c s => s <| s_block_encoded_hash := c |>);
       md_do (fun s => mbedtls_md_update (s_payload_hash s) chunk)
         (fun c s => s <| s_payload_hash := c |>)] s in
     if negb ok then (ESP_FAIL, (s, w))
     else and_then (feed_inflater output_fn chunk final) k (s, w)) = (ESP_OK, (s', w')) ->
  exists out c1 c2 c3 c4 i w1,
    k ((((((s <| s_block_encoded_hash := c1 |>) <| s_payload_hash := c2 |>)
         <| s_block_raw_hash := c3 |>) <| s_image_hash := c4 |>) <| s_inflater := i |>), w1)
      = (ESP_OK, (s', w')) /\
    off = blen (xb_enc b) /\
    u32 (s_block_encoded_offset s + blen chunk) = blen (xb_enc b ++ chunk) /\
    blen (xb_enc b ++ chunk) <= bd_encoded_size (xb_desc b) /\
    (if final then blen (xb_enc b ++ chunk) = bd_encoded_size (xb_desc b) /\
                   blen (xb_raw b ++ out) = bd_raw_size (xb_desc b)
     else blen (xb_enc b ++ chunk) < bd_encoded_size (xb_desc b)) /\
    md_held c1 = xb_enc b ++ chunk /\ md_held c2 = md_held (s_payload_hash s) ++ chunk /\
    md_held c3 = xb_raw b ++ out /\ md_held c4 = md_held (s_image_hash s) ++ out /\
    inflater_ok i /\ i_active i = true /\ expected_raw_size i = bd_raw_size (xb_desc b) /\
    produced_raw_size i = blen (xb_raw b ++ out) /\
    (if final then inflates_to true (xb_enc b ++ chunk) (xb_raw b ++ out)
     else exists z, inflateInit2 (- KEEMASH_OTA_V3_DEFLATE_WINDOW_BITS) = Some z /\
            zlib_runs true z (xb_enc b ++ chunk) (xb_raw b ++ out) (i_stream i)) /\
    R w out w1.
Proof.
  intros [_ _ _ (chain & _ & Ho) _ _ _ _ _ _] H. cbn [ar_open open_rel] in Ho.
  destruct Ho as (_ & Hdb & [Ht _] & _ & Hraw & Henc & (z0 & Hz0 & Hruns) & Hoff & Hlt & Hok & _ & Hexp & Hpro).
  rewrite !Forall_cons_iff in Ht. unfold is_u32 in Ht.
  destruct (_ || _) eqn:E in H; [done|]. bools.
  unfold block_left in *. rewrite Hdb, Hoff in *.
  pose proof (blen_nonneg (xb_enc b)). pose proof (blen_nonneg chunk).
  rewrite u32_id in * by words.
  destruct (all_ok _ s) as [[] s1] eqn:Ea; [|done]. cbn [negb] in H.
  apply all_ok_cons in Ea as (s2 & E1 & Ea). apply all_ok_cons in Ea as (s3 & E2 & Ea).
  apply md_do_inv in E1 as (c1 & Hc1 & ->). apply md_do_inv in E2 as (c2 & Hc2 & ->).
  injection Ea as <-. apply md_update_ok in Hc1, Hc2. cbn in Hc1, Hc2.
  apply and_then_inv in H as ([s2 w1] & E1 & H).
  eapply feed_inflater_rel in E1 as (out & c3 & c4 & i & -> & Hc3 & Hc4 & Hi & Ha & Hx & Hp & Hf & Hz & HRw);
    [|exact Hraw|exact Hok|exact Hexp|exact Hpro].
  exists out, c1, c2, c3, c4, i, w1. rewrite blen_app.
  split; [exact H|]. split; [done|]. split; [lia|]. split; [lia|].
  split.
  { match goal with H : Bool.eqb _ _ = true |- _ => apply eqb_prop in H as -> end.
    destruct (Z.eqb_spec (blen chunk) (bd_encoded_size (xb_desc b) - blen (xb_enc b))); [|lia].
    split; [lia|]. by apply Hf. }
  rewrite Hc1, Henc. do 8 (split; [done|]). split; [|done]. cbn in Hz.
  destruct final; cbn [zlib_chunk] in Hz; exists z0; (split; [done|]);
    [by eapply zlib_ends_app|by eapply zlib_runs_app].
Qed.

Lemma feed_chunk_refines a s w d off chunk final s' w' :
  rel a s w -> block_typed d ->
  feed_chunk output_fn d off chunk final (s, w) = (ESP_OK, (s', w')) ->
  exists a', rx_step f rp d off chunk final a a' /\ rel a' s' w'.
Proof.
  intros Hrel Hd H. unfold feed_chunk in H.
  apply and_then_inv in H as ([s1 w1] & He & H). unfold on_stream in He.
  destruct (enter_block d off s) as [e s2] eqn:Ee. injection He as -> <- <-.
  destruct (enter_block_rel _ _ _ _ _ _ Hrel Hd Ee) as (b & Hcur & Hrel1 & Er & Ex & Hbd).
  pose proof (feed_chunk_ok _ _ _ _ _ _ _ _ _ _ Hrel1 H)
    as (out & c1 & c2 & c3 & c4 & i & w2 & Hk & Ho & Hu & Hle & Hfin & K1 & K2 & K3 & K4 &
        Hi & Hact & Hx & Hp & Hz & HRw).
  cbn [ar_blocks] in *.
  pose proof Hrel1 as [Hf Hl Ht (chain & Htab & Hopen) Hidx Hpos Him Hpay Hbl Hout].
  cbn [ar_open ar_blocks open_rel] in *.
  destruct Hopen as (Hact2 & Hdb & _ & Hck & _). unfold rx_descs in *. cbn [ar_blocks] in *.
  set (b' := {| xb_desc := d; xb_enc := xb_enc b ++ chunk; xb_raw := xb_raw b ++ out |}).
  assert (Hraw : rx_raw {| ar_blocks := ar_blocks a; ar_open := Some b' |} = rx_raw a ++ out).
  { rewrite rx_raw_open, <- Er, rx_raw_open. apply app_assoc. }
  assert (Henc : rx_enc {| ar_blocks := ar_blocks a; ar_open := Some b' |} = rx_enc a ++ chunk).
  { rewrite rx_enc_open, <- Ex, rx_enc_open. apply app_assoc. }
  assert (Hout2 : R w0 (rx_raw a ++ out) w2).
  { destruct HR as (_ & _ & Htr). rewrite <- Er. by eapply Htr. }
  rewrite Er in Him. rewrite Ex in Hpay. subst d. destruct final.
  - destruct Hfin as [Hf1 Hf2]. unfold on_stream in Hk.
    destruct (finish_block _) as [e s4] eqn:Ef. injection Hk as -> <- <-.
    apply finish_block_ok in Ef as (Hs1 & Hs2 & j & ->). cbn in Hs1, Hs2.
    rewrite K3, Hdb in Hs1. rewrite K1, Hdb in Hs2.
    assert (Hm : block_matches b') by done.
    exists {| ar_blocks := ar_blocks a ++ [b']; ar_open := None |}.
    split; [by eapply rx_final|]. destruct (rx_close (ar_blocks a) b') as [Cr Ce].
    assert (Hix : rp_next_block_index rp + Z.of_nat (length (ar_blocks a))
                  < block_count f).
    { rewrite <- Hidx. pose proof Hpos as (? & ? & ?).
      apply check_block_inv in Hck as ([[_ Hlt] _ _ _ _] & _); [done|apply Hf|done|lia|lia|lia]. }
    destruct Hf as [Hff Hfok]. pose proof Hfok as (_ & _ & _ & Hcnt & _). ota_consts.
    assert (Hsnoc : check_table f (xb_desc <$> ar_blocks a ++ [b']) (rp_next_block_index rp)
      (rp_raw_offset rp) (rp_encoded_offset rp) (rp_block_chain rp)
      = inr (u32 (s_raw_offset s2 + bd_raw_size (xb_desc b)),
             u32 (s_encoded_offset s2 + bd_encoded_size (xb_desc b)), s_block_chain s2)).
    { rewrite fmap_app. eapply check_table_snoc; [apply Hpos| |done|];
        rewrite length_fmap; [unfold UINT32_MAX; lia|by rewrite <- Hidx]. }
    split; try done; cbn; rewrite ?Hdb.
    + unfold rx_descs. cbn. rewrite fmap_app. apply Forall_app; split; [done|].
      constructor; [done|constructor].
    + exists (s_block_chain s2). by split.
    + rewrite Hidx, u32_id by words. rewrite length_app. cbn. lia.
    + split; [apply Hpos|]. split; apply u32_is.
    + transitivity (pre ++ rx_raw a ++ out); [by rewrite K4, Him, app_assoc|].
      f_equal. by etransitivity; [|symmetry; exact Cr].
    + split; [apply Hpay|]. intros Hc.
      transitivity (rx_enc a ++ chunk); [by rewrite K2, (proj2 Hpay) by done|].
      by etransitivity; [|symmetry; exact Ce].
    + apply Forall_app. split; [done|by constructor].
    + exact (eq_ind_r (fun x => R w0 x w2) Hout2 (eq_trans Cr Hraw)).
  - injection Hk as <- <-.
    assert (blen (xb_raw b ++ out) <= bd_raw_size (xb_desc b))
      by (rewrite <- Hp, <- Hx; apply Hi).
    exists {| ar_blocks := ar_blocks a; ar_open := Some b' |}. split; [by eapply rx_more|].
    split; try done; cbn.
    + exists chain. split; [done|]. cbn. do 12 (split; [done|]). done.
    + transitivity (pre ++ rx_raw a ++ out); [by rewrite K4, Him, app_assoc|].
      f_equal. by symmetry.
    + split; [apply Hpay|]. intros Hc.
      transitivity (rx_enc a ++ chunk); [by rewrite K2, (proj2 Hpay) by done|by symmetry].
    + exact (eq_ind_r (fun x => R w0 x w2) Hout2 Hraw).
Qed.

Lemma remember_rel a s w d off chunk hash final :
  rel a s w -> rel a (remember_chunk d off chunk hash final s) w.
Proof. by intros [? ? ? ? ? ? ? ? ? ?]. Qed.

(** An accepted chunk and the relation. *)
Lemma feed_rel a s w d off chunk final s' w' :
  rel a s w -> block_typed d ->
  keemash_ota_v3_stream_feed output_fn d off chunk final (s, w) = (ESP_OK, (s', w')) ->
  (s' = s /\ w' = w /\ repeats_last s d off = true) \/
  exists a', rx_step f rp d off chunk final a a' /\ rel a' s' w'.
Proof.
  intros Hrel Hd H. unfold keemash_ota_v3_stream_feed in H.
  destruct (_ || _) in H; [done|]. destruct (mbedtls_md chunk) as [hash|]; [|done].
  destruct (repeats_last s d off) eqn:Er.
  { left. destruct (same_last _ _ _ _ _); [by injection H as <- <-|done]. }
  right. destruct (feed_chunk _ _ _ _ _ _) as [e [s1 w1]] eqn:Ef.
  destruct (err_eqb e ESP_OK) eqn:Ee; cbn [negb] in H.
  - apply err_eqb_true in Ee as ->. injection H as <- <-.
    apply feed_chunk_refines with (a := a) in Ef as (a' & Hs & Hr); [|done..].
    exists a'. split; [done|]. by apply remember_rel.
  - apply err_eqb_false in Ee. unfold on_stream, stream_fail in H. congruence.
Qed.

(** The last accepted chunk as the decoder keeps it: the block it belongs to, its place and
    size, whether it ends the block, and the hash of its bytes. *)
Definition remembers (d : FirmwareBlockDescriptor) (off : Z) (chunk : bytes) (final : bool)
  (s : keemash_ota_v3_stream_t) : Prop :=
  s_last_chunk_valid s = true /\ s_last_chunk_block s = d /\ s_last_chunk_index s = bd_index d /\
  s_last_chunk_offset s = off /\ s_last_chunk_size s = blen chunk /\
  s_last_chunk_final s = final /\ s_last_chunk_hash s = sha256 chunk.

Lemma feed_remembers s w d off chunk final s' w' :
  keemash_ota_v3_stream_feed output_fn d off chunk final (s, w) = (ESP_OK, (s', w')) ->
  remembers d off chunk final s'.
Proof.
  intros H. unfold keemash_ota_v3_stream_feed in H.
  destruct (_ || _) eqn:E0 in H; [done|]. bools.
  destruct (mbedtls_md chunk) as [hash|] eqn:Em; [|done]. apply md_once_ok in Em as ->.
  destruct (repeats_last s d off) eqn:Er.
  - destruct (same_last _ _ _ _ _) eqn:Es; [|done]. injection H as <- <-.
    unfold repeats_last in Er. unfold same_last in Es.
    apply andb_true_iff in Er as [[Hv Hi]%andb_true_iff Ho].
    apply andb_true_iff in Es as [[[Hd Hz]%andb_true_iff Hf]%andb_true_iff Hh].
    apply same_descriptor_eq in Hd. apply bytes_eqb_true in Hh. apply Bool.eqb_prop in Hf.
    apply Z.eqb_eq in Hi, Ho, Hz. by repeat split.
  - destruct (feed_chunk _ _ _ _ _ _) as [e [s1 w1]].
    destruct (err_eqb e ESP_OK) eqn:Ee; cbn [negb] in H.
    + injection H as <- <-. unfold remembers. cbn. repeat split; try done.
      pose proof (blen_nonneg chunk). unfold KEEMASH_OTA_V3_MAX_CHUNK_BYTES in *. words.
    + apply err_eqb_false in Ee. unfold on_stream, stream_fail in H. congruence.
Qed.

(** C14: every chunk the decoder accepts is remembered, by place, block, size and hash, and
    either it repeats the last one accepted, of the same block, size, end and hash, and
    changes nothing; or it lies elsewhere and is a step of the abstract receiver: the
    relation between the C struct and the receiver is preserved and the new raw bytes have
    gone through the output callback. *)
Theorem feed_refines a s w d off chunk final s' w' :
  rel a s w -> block_typed d ->
  keemash_ota_v3_stream_feed output_fn d off chunk final (s, w) = (ESP_OK, (s', w')) ->
  remembers d off chunk final s' /\
  (s' = s /\ w' = w \/
   repeats_last s d off = false /\
   exists a', rx_step f rp d off chunk final a a' /\ rel a' s' w').
Proof.
  intros Hrel Hd H. split; [by eapply feed_remembers|].
  destruct (repeats_last s d off) eqn:Er.
  - left. unfold keemash_ota_v3_stream_feed in H. destruct (_ || _) in H; [done|].
    destruct (mbedtls_md chunk) as [hash|]; [|done]. rewrite Er in H.
    destruct (same_last _ _ _ _ _); [by injection H as <- <-|done].
  - destruct (feed_rel _ _ _ _ _ _ _ _ _ Hrel Hd H) as [(_ & _ & E)|Hs]; [congruence|].
    by right.
Qed.

(** What a successful finish says about the receiver. *)
Lemma finish_rel a s w s' :
  rel a s w -> keemash_ota_v3_stream_finish s = (ESP_OK, s') ->
  ar_open a = None /\
  check_table f (rx_descs a) (rp_next_block_index rp) (rp_raw_offset rp)
    (rp_encoded_offset rp) (rp_block_chain rp)
  = inr (raw_size f, encoded_size f, block_table_sha256 f) /\
  rp_next_block_index rp + Z.of_nat (length (ar_blocks a)) = block_count f /\
  sha256 (pre ++ rx_raw a) = image_sha256 f /\
  (full = true -> sha256 (rx_enc a) = encoded_sha256 f) /\
  s' = s <| s_finished := true |>.
Proof.
  intros [[Hff Hf] Hl Ht (chain & Htab & Ho) Hx Hpos Hi Hpay Hb Hout] Hfin.
  unfold keemash_ota_v3_stream_finish in Hfin. rewrite Hff in Hfin.
  destruct (_ || _) eqn:E in Hfin; [done|]. bools.
  destruct (mbedtls_md_finish (s_image_hash s)) as [ih|] eqn:Ei; [|done].
  destruct (mbedtls_md_finish (s_payload_hash s)) as [ph|] eqn:Ep; [|done].
  apply md_finish_ok in Ei as ->, Ep as ->.
  destruct (_ || _) eqn:E in Hfin; [done|]. bools.
  repeat match goal with H : bytes_eqb _ _ = true |- _ => apply bytes_eqb_true in H end.
  destruct a as [blocks [b|]]; [by destruct Ho as [? _]; congruence|].
  destruct Ho as [_ <-]. injection Hfin as <-.
  split; [done|]. split; [congruence|]. split; [cbn in *; congruence|].
  split; [congruence|]. split; [|done]. destruct Hpay as [Hcm Hpay].
  rewrite Hcm in *. intros ->. cbn in *. bools. rewrite <- Hpay by done. by apply bytes_eqb_true.
Qed.

(** The raw bytes received have the lengths their descriptors announce. *)
Lemma rx_raw_length blocks :
  Forall block_matches blocks ->
  blen (rx_raw {| ar_blocks := blocks; ar_open := None |}) = sum_raw (xb_desc <$> blocks) /\
  blen (rx_enc {| ar_blocks := blocks; ar_open := None |}) = sum_enc (xb_desc <$> blocks).
Proof.
  unfold rx_raw, rx_enc, rx_all, sum_raw, sum_enc. cbn [ar_blocks ar_open].
  rewrite app_nil_r. induction 1 as [|b bs (_ & Hr & He & _) _ IH]; [done|].
  cbn. rewrite !blen_app. destruct IH. lia.
Qed.

(** A receiver that has finished has received the signed image. *)
Lemma finish_image a s w s' :
  rel a s w -> blen pre = rp_raw_offset rp -> 0 <= rp_encoded_offset rp ->
  keemash_ota_v3_stream_finish s = (ESP_OK, s') ->
  blen (pre ++ rx_raw a) = raw_size f /\ sha256 (pre ++ rx_raw a) = image_sha256 f /\
  rp_encoded_offset rp + blen (rx_enc a) = encoded_size f /\
  (full = true -> sha256 (rx_enc a) = encoded_sha256 f) /\
  R w0 (rx_raw a) w.
Proof.
  intros Hrel Hpre He H. destruct (finish_rel _ _ _ _ Hrel H) as (Ho & Htab & _ & Hi & Hp & _).
  destruct Hrel as [[_ Hf] _ Ht _ _ (Hpos & _) _ _ Hb Hout].
  destruct a as [blocks o]. cbn in Ho. subst o.
  apply check_table_inv in Htab as (Hr & Hen & _); [|done|done|done| |done].
  - destruct (rx_raw_length blocks Hb) as [Lr Le]. unfold rx_descs in *. cbn [ar_blocks] in *.
    rewrite blen_app, Lr, Le. repeat split; [lia|done|lia|done|done].
  - rewrite <- Hpre. apply blen_nonneg.
Qed.

End Rel.
End Refine.
