(* ===== verification/OtaImage.v ===== *)
(** * OTA v3: from the first chunk to the verified image

    The stream decoder from [stream_begin] or [stream_resume] through any
    sequence of accepted chunks to [stream_finish]: the bytes the output
    callback was given (after the bytes already in flash, for a resumed
    transfer) are exactly the signed image. *)

From S2P Require Import Prelude.
From S2P Require Import Words.
From S2P Require Import Esp.
From S2P Require Import OtaLib.
From S2P Require Import OtaTypes.
From S2P Require Import OtaV3.
From S2P Require Import OtaChain.
From S2P Require Import OtaInflate.
From S2P Require Import OtaStream.
From S2P Require Import OtaRefine.
#[local] Open Scope Z_scope.

(** The arguments of one call of [keemash_ota_v3_stream_feed]. *)
Record ota_chunk := {
  ck_desc : FirmwareBlockDescriptor; ck_offset : Z; ck_data : bytes; ck_final : bool }.

(** Where a transfer from the beginning starts. *)
Definition rp_start : keemash_ota_v3_resume_point_t :=
  {| rp_next_block_index := 0; rp_raw_offset := 0; rp_encoded_offset := 0;
     rp_block_chain := zeros 32; rp_image_prefix_sha256 := [] |}.

Section Image.
Context {Cfg : OtaConfig} {D : Digest} {Pb : Nanopb} {Zl : Zlib}
  {HD : DigestLaws D} {HP : NanopbLaws Pb} {HZ : ZlibLaws Zl}.
Context {W : Type} (output_fn : bytes -> ST W esp_err_t).

(** A caller that feeds chunk after chunk and stops at the first error. *)
Fixpoint feed_all (cs : list ota_chunk) : ST (keemash_ota_v3_stream_t * W) esp_err_t :=
  match cs with
  | [] => mret ESP_OK
  | c :: cs =>
      and_then (keemash_ota_v3_stream_feed output_fn (ck_desc c) (ck_offset c) (ck_data c)
                  (ck_final c)) (feed_all cs)
  end.

Abbreviation given := (fun w bs w' => exists chunks, handed output_fn w chunks w' /\ concat chunks = bs).

Lemma feed_all_rel f rp pre full w0 cs a s w s' w' :
  rel given f rp pre full w0 a s w -> Forall (fun c => block_typed (ck_desc c)) cs ->
  feed_all cs (s, w) = (ESP_OK, (s', w')) ->
  exists a', rel given f rp pre full w0 a' s' w'.
Proof.
  intros Hr Ht. revert a s w Hr. induction Ht as [|c cs Hc _ IH]; intros a s w Hr H.
  { injection H as <- <-. by exists a. }
  cbn in H. apply and_then_inv in H as ([s1 w1] & Hf & H).
  destruct (feed_rel output_fn given (handed_accepts output_fn) _ _ _ _ _
              _ _ _ _ _ _ _ _ _ Hr Hc Hf) as [(-> & -> & _)|(a1 & _ & Hr1)];
    by eapply IH.
Qed.

(** Neither beginning nor resuming calls the output callback. *)
Lemma begin_digests_ok s s' :
  begin_digests s = (true, s') ->
  exists c1 c2 c3 c4,
    s' = (((s <| s_image_hash := c1 |>) <| s_payload_hash := c2 |>)
            <| s_block_raw_hash := c3 |>) <| s_block_encoded_hash := c4 |> /\
    md_held c1 = [] /\ md_held c2 = [].
Proof.
  unfold begin_digests. intros H.
  apply all_ok_cons in H as (? & E & H); apply md_do_inv in E as (a1 & ? & ->).
  apply all_ok_cons in H as (? & E & H); apply md_do_inv in E as (a2 & ? & ->).
  apply all_ok_cons in H as (? & E & H); apply md_do_inv in E as (a3 & ? & ->).
  apply all_ok_cons in H as (? & E & H); apply md_do_inv in E as (a4 & ? & ->).
  apply all_ok_cons in H as (? & E & H); apply md_do_inv in E as (a5 & ? & ->).
  apply all_ok_cons in H as (? & E & H); apply md_do_inv in E as (a6 & ? & ->).
  injection H as <-. cbn in *.
  repeat match goal with H : mbedtls_md_starts _ = Some _ |- _ => apply md_starts_ok in H end.
  exists a5, a6, a3, a4. by destruct s.
Qed.

Lemma begin_rel f s s' w :
  fields_ok f -> keemash_ota_v3_stream_begin f s = (ESP_OK, s') ->
  rel given f rp_start [] true w rx_start s' w.
Proof.
  intros Hf H. unfold keemash_ota_v3_stream_begin in H.
  destruct (_ || _) in H; [done|]. destruct (begin_digests _) as [[] s1] eqn:E; [|done].
  apply begin_digests_ok in E as (c1 & c2 & c3 & c4 & -> & H1 & H2).
  injection H as <-.
  split; try done; try (by constructor); cbn; [|by exists []; split; [constructor|]].
  by exists (zeros 32).
Qed.

(** A transfer that begins, is fed any chunks and finishes successfully has
    given the output callback exactly [raw_size] bytes whose SHA-256 is the
    signed image digest, and has received exactly [encoded_size] payload bytes
    whose SHA-256 is the signed payload digest. *)
Theorem verified_image f s0 s1 cs s2 s3 w0 w :
  fields_ok f -> Forall (fun c => block_typed (ck_desc c)) cs ->
  keemash_ota_v3_stream_begin f s0 = (ESP_OK, s1) ->
  feed_all cs (s1, w0) = (ESP_OK, (s2, w)) ->
  keemash_ota_v3_stream_finish s2 = (ESP_OK, s3) ->
  exists chunks payload, handed output_fn w0 chunks w /\
    blen (concat chunks) = raw_size f /\ sha256 (concat chunks) = image_sha256 f /\
    blen payload = encoded_size f /\
    sha256 payload = encoded_sha256 f.
Proof.
  intros Hf Ht Hb Hfeed Hfin.
  pose proof (begin_rel f s0 s1 w0 Hf Hb) as Hr.
  destruct (feed_all_rel _ _ _ _ _ _ _ _ _ _ _ Hr Ht Hfeed) as [a Ha].
  destruct (finish_image given _ _ _ _ _ _ _ _ _ Ha eq_refl (Z.le_refl 0) Hfin)
    as (Hl & Hs & He & Hp & chunks & Hh & Hc).
  change (0 + blen (rx_enc a) = encoded_size f) in He. rewrite Z.add_0_l in He.
  exists chunks, (rx_enc a). rewrite Hc. by specialize (Hp eq_refl).
Qed.

(** *** Resuming

    [flash w] is the content of the partition; reading it changes nothing and
    a successful read yields the bytes asked for. *)

Context (read_fn : Z -> Z -> ST W (res bytes)) (flash : W -> bytes).

Definition reads_flash : Prop := forall off n w r w',
  0 <= off -> 0 <= n -> read_fn off n w = (r, w') ->
  match r with
  | inl err => err <> ESP_OK
  | inr b => w' = w /\ b = slice (Z.to_nat off) (Z.to_nat n) (flash w) /\ blen b = n
  end.

Lemma read_prefix_ok fuel off total s w s' w' :
  reads_flash -> 0 <= off <= total -> total < UINT32_MAX ->
  total - off <= Z.of_nat fuel * KEEMASH_OTA_V3_INFLATE_OUTPUT_BYTES ->
  md_held (s_image_hash s) = slice 0 (Z.to_nat off) (flash w) ->
  blen (slice 0 (Z.to_nat off) (flash w)) = off ->
  read_prefix read_fn fuel off total (s, w) = (ESP_OK, (s', w')) ->
  w' = w /\ exists c, s' = s <| s_image_hash := c |> /\
    md_held c = slice 0 (Z.to_nat total) (flash w) /\
    blen (slice 0 (Z.to_nat total) (flash w)) = total.
Proof.
  intros Hfl. revert off s. induction fuel as [|fuel IH]; intros off s Ho Ht Hfu Hh Hlen H;
    cbn [read_prefix] in H; destruct (Z.leb_spec total off) as [Hle|Hlt]; try done.
  1,2: injection H as <- <-; replace total with off by lia; split; [done|];
    exists (s_image_hash s); by destruct s.
  ota_consts. unfold UINT32_MAX in *.
  destruct (read_fn off _ w) as [[e|b] w1] eqn:Er; apply Hfl in Er; try lia; [congruence|].
  destruct Er as (-> & -> & Hb).
  destruct (mbedtls_md_update _ _) as [c|] eqn:Em; [|done]. apply md_update_ok in Em.
  rewrite u32_id in H by words.
  assert (Hsl : slice 0 (Z.to_nat off) (flash w) ++
                slice (Z.to_nat off) (Z.to_nat (Z.min (total - off) 2048)) (flash w)
                = slice 0 (Z.to_nat (off + Z.min (total - off) 2048)) (flash w)).
  { rewrite Z2Nat.inj_add by lia. by rewrite <- (slice_join 0). }
  apply IH in H as (-> & c' & -> & Hc & Hl); [|lia|lia|lia| |].
  - split; [done|]. exists c'. by destruct s.
  - cbn. by rewrite Em, Hh.
  - rewrite <- Hsl, blen_app, Hlen, Hb. lia.
Qed.

(** The fuel of [read_prefix] is enough: more gives the same result. *)
Lemma read_prefix_enough fuel k off total sw :
  0 <= off -> total < UINT32_MAX ->
  total - off <= Z.of_nat fuel * KEEMASH_OTA_V3_INFLATE_OUTPUT_BYTES ->
  read_prefix read_fn (fuel + k) off total sw = read_prefix read_fn fuel off total sw.
Proof.
  unfold UINT32_MAX. intros Ho Ht. revert off sw Ho.
  induction fuel as [|fuel IH]; intros off [s w] Ho Hf; ota_consts.
  - destruct k; cbn; destruct (Z.leb_spec total off); (done || lia).
  - cbn [Nat.add read_prefix]. destruct (Z.leb_spec total off) as [|Hlt]; [done|].
    destruct (read_fn _ _ w) as [[e|b] w1]; [done|].
    destruct (mbedtls_md_update _ _) as [c|]; [|done].
    apply IH; ota_consts; rewrite u32_id by words; lia.
Qed.

Lemma prefix_fuel_enough total :
  0 <= total -> total <= Z.of_nat (prefix_fuel total) * KEEMASH_OTA_V3_INFLATE_OUTPUT_BYTES.
Proof.
  intros Ht. unfold prefix_fuel. ota_consts.
  rewrite Z2Nat.id by (apply Z.add_nonneg_nonneg; [apply Z.div_pos|]; lia).
  pose proof (Z.mul_succ_div_gt total 2048 ltac:(lia)). lia.
Qed.

Lemma image_prefix_ok s h : image_prefix s = Some h -> h = sha256 (md_held (s_image_hash s)).
Proof.
  unfold image_prefix. destruct (mbedtls_md_setup md_zero) as [c|]; [|done]. cbn.
  destruct (mbedtls_md_clone _ _) as [c'|] eqn:Ec; [|done]. cbn. intros H.
  apply md_finish_ok in H as ->. by apply md_clone_ok in Ec as ->.
Qed.

(** The part of the image a resumed transfer finds in flash. *)
Definition flash_prefix (rp : keemash_ota_v3_resume_point_t) (w : W) : bytes :=
  slice 0 (Z.to_nat (rp_raw_offset rp)) (flash w).

Definition resume_point_typed (rp : keemash_ota_v3_resume_point_t) : Prop :=
  is_u32 (rp_next_block_index rp) /\ is_u32 (rp_raw_offset rp) /\
  is_u32 (rp_encoded_offset rp).

Lemma resume_rel f rp s w s' w' :
  reads_flash -> fields_ok f -> resume_point_typed rp ->
  keemash_ota_v3_stream_resume read_fn f rp (s, w) = (ESP_OK, (s', w')) ->
  w' = w /\ rel given f rp (flash_prefix rp w) false w rx_start s' w /\
  blen (flash_prefix rp w) = rp_raw_offset rp /\
  sha256 (flash_prefix rp w) = rp_image_prefix_sha256 rp.
Proof.
  intros Hfl Hf (Hi & Hr & He) H. unfold keemash_ota_v3_stream_resume in H.
  destruct (resume_point_wrong f rp) eqn:Ew; [done|].
  apply and_then_inv in H as ([s1 w1] & Hb & H).
  unfold on_stream in Hb. destruct (keemash_ota_v3_stream_begin f s) as [e s2] eqn:Eb.
  injection Hb as -> <- <-. pose proof (begin_rel f s s2 w Hf Eb) as Hrel.
  destruct (read_prefix _ _ _ _ _) as [e [s3 w3]] eqn:Ep.
  destruct (err_eqb e ESP_OK) eqn:Ee; cbn [negb] in H;
    [|apply err_eqb_false in Ee; unfold on_stream, stream_fail in H; congruence].
  apply err_eqb_true in Ee as ->. unfold resume_point_wrong in Ew. bools.
  assert (Hraw : raw_size f <= 8388608) by (destruct Hf as (? & _); ota_consts; lia).
  unfold is_u32 in *.
  apply read_prefix_ok in Ep as (-> & c & -> & Hc & Hl);
    [|done|lia|unfold UINT32_MAX; lia| | |done].
  2:{ rewrite Z.sub_0_r. apply prefix_fuel_enough. lia. }
  2:{ destruct Hrel as [_ _ _ _ _ _ Him _ _ _]. by rewrite Him. }
  destruct (image_prefix _) as [h|] eqn:Eh; [|done]. apply image_prefix_ok in Eh.
  destruct (bytes_eqb _ _) eqn:Ex; [|done]. apply bytes_eqb_true in Ex.
  injection H as <- <-. cbn in Eh. unfold flash_prefix.
  split; [done|]. split; [|split; [done|congruence]].
  destruct Hrel as [Hff Hlv _ (ch & _ & Ho) _ _ _ _ _ Hout].
  split; try done; cbn; [|lia|lia|].
  - exists (rp_block_chain rp). split; [done|]. split; [apply Ho|done].
  - by rewrite app_nil_r.
Qed.

(** C26: a transfer resumed from a checkpoint finishes successfully only when
    the bytes found in flash followed by the bytes written since are exactly the
    signed image: their number is [raw_size] and their SHA-256 the signed one. *)
Theorem resumed_image f rp s0 s1 cs s2 s3 w0 w1 w :
  reads_flash -> fields_ok f -> resume_point_typed rp ->
  Forall (fun c => block_typed (ck_desc c)) cs ->
  keemash_ota_v3_stream_resume read_fn f rp (s0, w0) = (ESP_OK, (s1, w1)) ->
  feed_all cs (s1, w1) = (ESP_OK, (s2, w)) ->
  keemash_ota_v3_stream_finish s2 = (ESP_OK, s3) ->
  exists chunks, handed output_fn w0 chunks w /\
    let img := flash_prefix rp w0 ++ concat chunks in
    blen img = raw_size f /\ sha256 img = image_sha256 f /\
    sha256 (flash_prefix rp w0) = rp_image_prefix_sha256 rp.
Proof.
  intros Hfl Hf Hrp Ht Hres Hfeed Hfin.
  apply resume_rel in Hres as (-> & Hrel & Hl & Hs); [|done..].
  destruct (feed_all_rel _ _ _ _ _ _ _ _ _ _ _ Hrel Ht Hfeed) as [a Ha].
  destruct (finish_image given _ _ _ _ _ _ _ _ _ Ha Hl (proj1 (proj2 (proj2 Hrp))) Hfin)
    as (Hl' & Hs' & _ & _ & chunks & Hh & Hc).
  exists chunks. by rewrite Hc.
Qed.

End Image.
