(* ===== verification/OtaCheckpoint.v ===== *)
(** * OTA v3: the persistent checkpoint (keemash_ota_v3_checkpoint.c)

    A checkpoint is stored as one NVS blob under one of two keys, chosen by the
    parity of a generation counter, so that a write never touches the record in
    force.  The blob is the C struct byte for byte and carries its CRC.  NVS,
    the heap and the ROM's CRC are parameters. *)

From S2P Require Import Prelude.
From S2P Require Import Words.
From S2P Require Import Esp.
From S2P Require Import OtaLib.
From S2P Require Import OtaTypes.
From S2P Require Import OtaStream.
#[local] Open Scope Z_scope.

Definition CHECKPOINT_MAGIC : Z := 0x334f544b.
Definition CHECKPOINT_VERSION : Z := 2.

Definition CHECKPOINT_TRANSFERRING : Z := 1.
Definition CHECKPOINT_VERIFIED : Z := 2.
Definition CHECKPOINT_BOOT_PENDING : Z := 3.

(** The arrays [signed_fields] and [partition_label] keep all their bytes. *)
Record keemash_ota_v3_checkpoint_t := {
  cp_phase : Z; cp_operation_id : bytes; cp_artifact_id : bytes; cp_signature : bytes;
  cp_signed_fields_len : Z; cp_signed_fields : bytes; cp_partition_label : bytes;
  cp_resume : keemash_ota_v3_resume_point_t }.

#[export] Instance checkpoint_eq_dec : EqDecision keemash_ota_v3_checkpoint_t.
Proof. solve_decision. Defined.

Definition resume_zero : keemash_ota_v3_resume_point_t :=
  {| rp_next_block_index := 0; rp_raw_offset := 0; rp_encoded_offset := 0;
     rp_block_chain := zeros 32; rp_image_prefix_sha256 := zeros 32 |}.

Definition checkpoint_zero : keemash_ota_v3_checkpoint_t :=
  {| cp_phase := 0; cp_operation_id := zeros 16; cp_artifact_id := zeros 32;
     cp_signature := zeros 64; cp_signed_fields_len := 0; cp_signed_fields := zeros 1024;
     cp_partition_label := zeros 17; cp_resume := resume_zero |}.

Record stored_checkpoint_t := {
  st_magic : Z; st_version : Z; st_tombstone : Z; st_generation : Z;
  st_checkpoint : keemash_ota_v3_checkpoint_t; st_crc32 : Z }.

Definition has_terminator (bs : bytes) : bool := existsb (fun b => b =? 0) bs.

(** ** The memory layout of a record

    Little-endian, [uint32_t] aligned to four bytes: the reserved members and
    the padding byte after [partition_label] are zero. *)

Definition encode_resume (rp : keemash_ota_v3_resume_point_t) : bytes :=
  le_bytes 4 (rp_next_block_index rp) ++ le_bytes 4 (rp_raw_offset rp) ++
  le_bytes 4 (rp_encoded_offset rp) ++ rp_block_chain rp ++ rp_image_prefix_sha256 rp.

Definition encode_checkpoint (cp : keemash_ota_v3_checkpoint_t) : bytes :=
  le_bytes 1 (cp_phase cp) ++ zeros 3 ++ cp_operation_id cp ++ cp_artifact_id cp ++
  cp_signature cp ++ le_bytes 2 (cp_signed_fields_len cp) ++ cp_signed_fields cp ++
  cp_partition_label cp ++ zeros 1 ++ encode_resume (cp_resume cp).

(** The bytes before [crc32]. *)
Definition record_body (r : stored_checkpoint_t) : bytes :=
  le_bytes 4 (st_magic r) ++ le_bytes 2 (st_version r) ++ le_bytes 1 (st_tombstone r) ++
  zeros 1 ++ le_bytes 4 (st_generation r) ++ encode_checkpoint (st_checkpoint r).

Definition encode_record (r : stored_checkpoint_t) : bytes :=
  record_body r ++ le_bytes 4 (st_crc32 r).

Definition RECORD_SIZE : nat := 1252.
Definition CRC_OFFSET : nat := 1248.

Definition decode_checkpoint (b : bytes) : keemash_ota_v3_checkpoint_t :=
  {| cp_phase := get_u8 b 12; cp_operation_id := slice 16 16 b;
     cp_artifact_id := slice 32 32 b; cp_signature := slice 64 64 b;
     cp_signed_fields_len := get_le 2 b 128; cp_signed_fields := slice 130 1024 b;
     cp_partition_label := slice 1154 17 b;
     cp_resume :=
       {| rp_next_block_index := get_le 4 b 1172; rp_raw_offset := get_le 4 b 1176;
          rp_encoded_offset := get_le 4 b 1180; rp_block_chain := slice 1184 32 b;
          rp_image_prefix_sha256 := slice 1216 32 b |} |}.

Definition decode_record (b : bytes) : stored_checkpoint_t :=
  {| st_magic := get_le 4 b 0; st_version := get_le 2 b 4; st_tombstone := get_u8 b 6;
     st_generation := get_le 4 b 8; st_checkpoint := decode_checkpoint b;
     st_crc32 := get_le 4 b CRC_OFFSET |}.

(** ** NVS, the heap and the CRC *)

Inductive nvs_key := V3A | V3B.

#[export] Instance nvs_key_eq_dec : EqDecision nvs_key.
Proof. solve_decision. Defined.

(** The calls, each on the world [W]; [nvs_open true] opens read-only,
    [nvs_get_blob key n] fails unless the blob fits in [n] bytes. *)
Class CheckpointEnv (W : Type) := {
  nvs_open : bool -> ST W esp_err_t;
  nvs_get_blob : nvs_key -> nat -> ST W (res bytes);
  nvs_set_blob : nvs_key -> bytes -> ST W esp_err_t;
  nvs_commit : ST W esp_err_t;
  heap_alloc : ST W bool;
  esp_rom_crc32_le : Z -> bytes -> Z }.

(** What is stored under a key, and how the calls read and change it. Opening, allocating,
    writing and committing may fail. A write that fails has left the old blob or stored the
    new one (ESP_ERR_NVS_REMOVE_FAILED reports a write that took place); that NVS may
    complete such a write only when it is initialised again is not modelled. [nvs_get_ok] is
    an assumption about the flash: a stored blob that fits can be read. *)
Class CheckpointEnvLaws (W : Type) (E : CheckpointEnv W) := {
  nv_blob : W -> nvs_key -> option bytes;
  nvs_open_keeps : forall ro w k, nv_blob (nvs_open ro w).2 k = nv_blob w k;
  nvs_open_missing : forall ro w k,
    (nvs_open ro w).1 = ESP_ERR_NVS_NOT_FOUND -> nv_blob w k = None;
  nvs_open_codes : forall ro w, (nvs_open ro w).1 <> ESP_ERR_NOT_FOUND;
  nvs_get_keeps : forall k n w k', nv_blob (nvs_get_blob k n w).2 k' = nv_blob w k';
  nvs_get_ok : forall k n w b,
    (length b <= n)%nat -> ((nvs_get_blob k n w).1 = inr b <-> nv_blob w k = Some b);
  nvs_get_fits : forall k n w b, (nvs_get_blob k n w).1 = inr b -> (length b <= n)%nat;
  nvs_set_ok : forall k b w k', (nvs_set_blob k b w).1 = ESP_OK ->
    nv_blob (nvs_set_blob k b w).2 k' = if decide (k = k') then Some b else nv_blob w k';
  nvs_set_failed : forall k b w, (nvs_set_blob k b w).1 <> ESP_OK ->
    (forall k', nv_blob (nvs_set_blob k b w).2 k' = nv_blob w k') \/
    (forall k', nv_blob (nvs_set_blob k b w).2 k' = if decide (k = k') then Some b
                                                    else nv_blob w k');
  nvs_commit_keeps : forall w k, nv_blob (nvs_commit w).2 k = nv_blob w k;
  heap_alloc_keeps : forall w k, nv_blob (heap_alloc w).2 k = nv_blob w k }.

Section Checkpoint.
Context {Cfg : OtaConfig} {W : Type} {Env : CheckpointEnv W}.

Definition checkpoint_key (generation : Z) : nvs_key :=
  if negb (Z.land generation 1 =? 0) then V3A else V3B.

(** The members every usable checkpoint has. *)
Definition checkpoint_shape_wrong (cp : keemash_ota_v3_checkpoint_t) : bool :=
  (cp_phase cp <? CHECKPOINT_TRANSFERRING) || (CHECKPOINT_BOOT_PENDING <? cp_phase cp) ||
  (cp_signed_fields_len cp =? 0) ||
  (KEEMASH_OTA_V3_SIGNED_FIELDS_MAX <? cp_signed_fields_len cp) ||
  (get_u8 (cp_partition_label cp) 0 =? 0) || negb (has_terminator (cp_partition_label cp)).

Definition record_valid (r : stored_checkpoint_t) (body : bytes) : bool :=
  if negb (st_magic r =? CHECKPOINT_MAGIC) || negb (st_version r =? CHECKPOINT_VERSION) ||
     (1 <? st_tombstone r) || (st_generation r =? 0) then false
  else if negb (u32 (esp_rom_crc32_le 0 body) =? st_crc32 r) then false
  else if negb (st_tombstone r =? 0) then true
  else
    let cp := st_checkpoint r in
    let rp := cp_resume cp in
    if checkpoint_shape_wrong cp then false
    else if negb (cp_phase cp =? CHECKPOINT_TRANSFERRING) then
      (0 <? rp_raw_offset rp) && (rp_raw_offset rp <=? KEEMASH_OTA_V3_MAX_IMAGE_SIZE) &&
      (0 <? rp_encoded_offset rp) &&
      (rp_encoded_offset rp <=? KEEMASH_OTA_V3_MAX_PACKAGE_SIZE) &&
      (0 <? rp_next_block_index rp) &&
      (rp_next_block_index rp <=? KEEMASH_OTA_V3_MAX_BLOCK_COUNT)
    else
      (0 <? rp_next_block_index rp) &&
      (rp_next_block_index rp <? KEEMASH_OTA_V3_MAX_BLOCK_COUNT) &&
      (0 <? rp_raw_offset rp) &&
      (rp_raw_offset rp mod CONFIG_KEEMASH_OTA_V3_CHECKPOINT_BYTES =? 0) &&
      (u64 (rp_next_block_index rp * KEEMASH_OTA_V3_FULL_BLOCK_SIZE) =? rp_raw_offset rp) &&
      (rp_raw_offset rp <=? KEEMASH_OTA_V3_MAX_IMAGE_SIZE) &&
      (0 <? rp_encoded_offset rp) &&
      (rp_encoded_offset rp <=? KEEMASH_OTA_V3_MAX_PACKAGE_SIZE).

(** The validation of a blob that has been read, on its bytes. *)
Definition usable (b : bytes) : option stored_checkpoint_t :=
  let r := decode_record b in
  if Nat.eqb (length b) RECORD_SIZE && record_valid r (take CRC_OFFSET b) then Some r else None.

Definition read_record (key : nvs_key) : ST W (option stored_checkpoint_t) :=
  r ← nvs_get_blob key RECORD_SIZE;
  mret (match r with inl _ => None | inr b => usable b end).

Definition newer (a b : Z) : bool := 0 <? i32 (u32 (a - b)).

(** The record that counts among the two. *)
Definition pick_latest (first second : option stored_checkpoint_t)
  : option stored_checkpoint_t :=
  match first, second with
  | Some a, Some b => if newer (st_generation b) (st_generation a) then Some b else Some a
  | None, second => second
  | first, None => first
  end.

(** [inr None]: nothing found. *)
Definition latest_record : ST W (res (option stored_checkpoint_t)) :=
  other ← heap_alloc;
  if negb (other : bool) then mret (inl ESP_ERR_NO_MEM)
  else
    first ← read_record V3A;
    second ← read_record V3B;
    mret (inr (pick_latest first second)).

Definition keemash_ota_v3_checkpoint_load : ST W (res keemash_ota_v3_checkpoint_t) :=
  err ← nvs_open true;
  if err_eqb err ESP_ERR_NVS_NOT_FOUND then mret (inl ESP_ERR_NOT_FOUND)
  else if negb (err_eqb err ESP_OK) then mret (inl err)
  else
    ok ← heap_alloc;
    if negb (ok : bool) then mret (inl ESP_ERR_NO_MEM)
    else
      latest ← latest_record;
      mret (match latest with
            | inl err => inl err
            | inr None => inl ESP_ERR_NOT_FOUND
            | inr (Some r) =>
                if negb (st_tombstone r =? 0) then inl ESP_ERR_NOT_FOUND
                else inr (st_checkpoint r)
            end).

(** The record [write_record] builds; [None] is a tombstone. *)
Definition make_record (generation : Z) (cp : option keemash_ota_v3_checkpoint_t)
  : stored_checkpoint_t :=
  let r := {| st_magic := CHECKPOINT_MAGIC; st_version := CHECKPOINT_VERSION;
              st_tombstone := match cp with Some _ => 0 | None => 1 end; st_generation := generation;
              st_checkpoint := default checkpoint_zero cp; st_crc32 := 0 |} in
  {| st_magic := CHECKPOINT_MAGIC; st_version := CHECKPOINT_VERSION;
     st_tombstone := match cp with Some _ => 0 | None => 1 end; st_generation := generation;
     st_checkpoint := default checkpoint_zero cp;
     st_crc32 := u32 (esp_rom_crc32_le 0 (record_body r)) |}.

Definition next_generation (latest : option stored_checkpoint_t) : Z :=
  let g := match latest with Some r => u32 (st_generation r + 1) | None => 1 end in
  if g =? 0 then 1 else g.

Definition write_record (cp : option keemash_ota_v3_checkpoint_t) : ST W esp_err_t :=
  err ← nvs_open false;
  if negb (err_eqb err ESP_OK) then mret err
  else
    ok ← heap_alloc;
    if negb (ok : bool) then mret ESP_ERR_NO_MEM
    else
      latest ← latest_record;
      match latest with
      | inl err => mret err
      | inr latest =>
          let r := make_record (next_generation latest) cp in
          and_then (nvs_set_blob (checkpoint_key (st_generation r)) (encode_record r)) nvs_commit
      end.

Definition save_refused (cp : keemash_ota_v3_checkpoint_t) : bool :=
  let rp := cp_resume cp in
  checkpoint_shape_wrong cp ||
  (if negb (cp_phase cp =? CHECKPOINT_TRANSFERRING) then
     (rp_next_block_index rp =? 0) ||
     (KEEMASH_OTA_V3_MAX_BLOCK_COUNT <? rp_next_block_index rp) ||
     (rp_raw_offset rp =? 0) || (KEEMASH_OTA_V3_MAX_IMAGE_SIZE <? rp_raw_offset rp) ||
     (rp_encoded_offset rp =? 0) || (KEEMASH_OTA_V3_MAX_PACKAGE_SIZE <? rp_encoded_offset rp)
   else
     (rp_next_block_index rp =? 0) ||
     (KEEMASH_OTA_V3_MAX_BLOCK_COUNT <=? rp_next_block_index rp) ||
     (rp_raw_offset rp =? 0) ||
     negb (rp_raw_offset rp mod CONFIG_KEEMASH_OTA_V3_CHECKPOINT_BYTES =? 0) ||
     negb (u64 (rp_next_block_index rp * KEEMASH_OTA_V3_FULL_BLOCK_SIZE) =? rp_raw_offset rp) ||
     (KEEMASH_OTA_V3_MAX_IMAGE_SIZE <? rp_raw_offset rp) ||
     (rp_encoded_offset rp =? 0) ||
     (KEEMASH_OTA_V3_MAX_PACKAGE_SIZE <? rp_encoded_offset rp)).

Definition keemash_ota_v3_checkpoint_save (cp : keemash_ota_v3_checkpoint_t) : ST W esp_err_t :=
  if save_refused cp then mret ESP_ERR_INVALID_ARG else write_record (Some cp).

Definition keemash_ota_v3_checkpoint_clear : ST W esp_err_t := write_record None.

End Checkpoint.
