(* ===== verification/OtaCheckpointProps.v ===== *)
(** * OTA v3: the checkpoint store implements one persistent register

    The record written is read back; the two keys together behave as a single
    register holding the last checkpoint saved or nothing; a write that is cut
    short leaves the register as it was.  Stored copies are assumed to be readable
    ([nvs_get_ok]): [unread_copy_resurrects] shows a cleared checkpoint that comes back when
    one is not.  Two keys in memory are an instance. *)

From S2P Require Import Prelude.
From S2P Require Import Words.
From S2P Require Import Esp.
From S2P Require Import OtaLib.
From S2P Require Import OtaTypes.
From S2P Require Import OtaStream.
From S2P Require Import OtaCheckpoint.
#[local] Open Scope Z_scope.

(** ** The record read back *)

(** The struct's members within their C types. *)
Record checkpoint_typed (cp : keemash_ota_v3_checkpoint_t) : Prop := {
  ct_phase : is_u8 (cp_phase cp);
  ct_operation : length (cp_operation_id cp) = 16%nat;
  ct_artifact : length (cp_artifact_id cp) = 32%nat;
  ct_signature : length (cp_signature cp) = 64%nat;
  ct_len : is_u16 (cp_signed_fields_len cp);
  ct_fields : length (cp_signed_fields cp) = 1024%nat;
  ct_label : length (cp_partition_label cp) = 17%nat;
  ct_index : is_u32 (rp_next_block_index (cp_resume cp));
  ct_raw : is_u32 (rp_raw_offset (cp_resume cp));
  ct_enc : is_u32 (rp_encoded_offset (cp_resume cp));
  ct_chain : length (rp_block_chain (cp_resume cp)) = 32%nat;
  ct_prefix : length (rp_image_prefix_sha256 (cp_resume cp)) = 32%nat;
  ct_bytes : Forall are_bytes [cp_operation_id cp; cp_artifact_id cp; cp_signature cp;
    cp_signed_fields cp; cp_partition_label cp; rp_block_chain (cp_resume cp);
    rp_image_prefix_sha256 (cp_resume cp)] }.

Record record_typed (r : stored_checkpoint_t) : Prop := {
  rt_magic : is_u32 (st_magic r);
  rt_version : is_u16 (st_version r);
  rt_tombstone : is_u8 (st_tombstone r);
  rt_generation : is_u32 (st_generation r);
  rt_checkpoint : checkpoint_typed (st_checkpoint r);
  rt_crc : is_u32 (st_crc32 r) }.

Definition record_parts (r : stored_checkpoint_t) : list bytes :=
  let cp := st_checkpoint r in
  let rp := cp_resume cp in
  [le_bytes 4 (st_magic r); le_bytes 2 (st_version r); le_bytes 1 (st_tombstone r); zeros 1;
   le_bytes 4 (st_generation r); le_bytes 1 (cp_phase cp); zeros 3; cp_operation_id cp;
   cp_artifact_id cp; cp_signature cp; le_bytes 2 (cp_signed_fields_len cp);
   cp_signed_fields cp; cp_partition_label cp; zeros 1; le_bytes 4 (rp_next_block_index rp);
   le_bytes 4 (rp_raw_offset rp); le_bytes 4 (rp_encoded_offset rp); rp_block_chain rp;
   rp_image_prefix_sha256 rp; le_bytes 4 (st_crc32 r)].

Lemma encode_record_parts r : encode_record r = concat (record_parts r).
Proof.
  unfold encode_record, record_body, encode_checkpoint, encode_resume, record_parts.
  cbn [concat]. rewrite app_nil_r. by rewrite <- !app_assoc.
Qed.

Lemma record_body_length r :
  checkpoint_typed (st_checkpoint r) -> length (record_body r) = CRC_OFFSET.
Proof.
  intros [_ H1 H2 H3 _ H4 H5 _ _ _ H6 H7 _].
  unfold record_body, encode_checkpoint, encode_resume, zeros.
  rewrite !length_app, !length_le_bytes, !length_replicate, H1, H2, H3, H4, H5, H6, H7.
  reflexivity.
Qed.

Lemma record_slice r i p n off :
  record_parts r !! i = Some p -> length p = n ->
  off = length (concat (take i (record_parts r))) -> slice off n (encode_record r) = p.
Proof. intros Hi <- Ho. rewrite encode_record_parts. by eapply slice_part. Qed.

(** Offset of a part, from the lengths of the parts before it. *)
Ltac part_offset H :=
  destruct H as [? ? ? ? ? ? ? ? ? ? ? ? _]; cbn [take concat record_parts];
  rewrite ?length_app, ?length_le_bytes; unfold zeros; rewrite ?length_replicate;
  repeat match goal with E : length _ = _ |- _ => rewrite E; clear E end; reflexivity.

Ltac record_part H i :=
  eapply (record_slice _ i); [reflexivity|first [apply length_le_bytes|apply H]|part_offset H].

Lemma record_fields r (H : checkpoint_typed (st_checkpoint r)) :
  let b := encode_record r in let cp := st_checkpoint r in let rp := cp_resume cp in
  decode_record b =
  {| st_magic := le_val (le_bytes 4 (st_magic r)); st_version := le_val (le_bytes 2 (st_version r));
     st_tombstone := le_val (le_bytes 1 (st_tombstone r));
     st_generation := le_val (le_bytes 4 (st_generation r));
     st_checkpoint :=
       {| cp_phase := le_val (le_bytes 1 (cp_phase cp)); cp_operation_id := cp_operation_id cp;
          cp_artifact_id := cp_artifact_id cp; cp_signature := cp_signature cp;
          cp_signed_fields_len := le_val (le_bytes 2 (cp_signed_fields_len cp));
          cp_signed_fields := cp_signed_fields cp; cp_partition_label := cp_partition_label cp;
          cp_resume :=
            {| rp_next_block_index := le_val (le_bytes 4 (rp_next_block_index rp));
               rp_raw_offset := le_val (le_bytes 4 (rp_raw_offset rp));
               rp_encoded_offset := le_val (le_bytes 4 (rp_encoded_offset rp));
               rp_block_chain := rp_block_chain rp;
               rp_image_prefix_sha256 := rp_image_prefix_sha256 rp |} |};
     st_crc32 := le_val (le_bytes 4 (st_crc32 r)) |}.
Proof.
  cbv zeta. set (b := encode_record r). set (cp := st_checkpoint r). set (rp := cp_resume cp).
  assert (E0 : slice 0 4 b = le_bytes 4 (st_magic r)) by record_part H 0%nat.
  assert (E1 : slice 4 2 b = le_bytes 2 (st_version r)) by record_part H 1%nat.
  assert (E2 : slice 6 1 b = le_bytes 1 (st_tombstone r)) by record_part H 2%nat.
  assert (E4 : slice 8 4 b = le_bytes 4 (st_generation r)) by record_part H 4%nat.
  assert (E5 : slice 12 1 b = le_bytes 1 (cp_phase cp)) by record_part H 5%nat.
  assert (E7 : slice 16 16 b = cp_operation_id cp) by record_part H 7%nat.
  assert (E8 : slice 32 32 b = cp_artifact_id cp) by record_part H 8%nat.
  assert (E9 : slice 64 64 b = cp_signature cp) by record_part H 9%nat.
  assert (E10 : slice 128 2 b = le_bytes 2 (cp_signed_fields_len cp)) by record_part H 10%nat.
  assert (E11 : slice 130 1024 b = cp_signed_fields cp) by record_part H 11%nat.
  assert (E12 : slice 1154 17 b = cp_partition_label cp) by record_part H 12%nat.
  assert (E14 : slice 1172 4 b = le_bytes 4 (rp_next_block_index rp)) by record_part H 14%nat.
  assert (E15 : slice 1176 4 b = le_bytes 4 (rp_raw_offset rp)) by record_part H 15%nat.
  assert (E16 : slice 1180 4 b = le_bytes 4 (rp_encoded_offset rp)) by record_part H 16%nat.
  assert (E17 : slice 1184 32 b = rp_block_chain rp) by record_part H 17%nat.
  assert (E18 : slice 1216 32 b = rp_image_prefix_sha256 rp) by record_part H 18%nat.
  assert (E19 : slice CRC_OFFSET 4 b = le_bytes 4 (st_crc32 r)) by record_part H 19%nat.
  unfold decode_record, decode_checkpoint, get_le. rewrite !get_u8_slice.
  by rewrite E0, E1, E2, E4, E5, E7, E8, E9, E10, E11, E12, E14, E15, E16, E17, E18, E19.
Qed.

(** A checkpoint record laid out as the C struct and read back member by member
    is the record. *)
Theorem record_roundtrip r : record_typed r -> decode_record (encode_record r) = r.
Proof.
  intros [Hm Hv Ht Hg H Hc]. rewrite (record_fields r H).
  pose proof H as [? ? ? ? ? ? ? ? ? ? ? ? _].
  rewrite !le_val_bytes_4, !le_val_bytes_2, !le_val_bytes_1 by done.
  by destruct r as [? ? ? ? [? ? ? ? ? ? ? [? ? ? ? ?]] ?].
Qed.

Lemma encode_record_length r :
  checkpoint_typed (st_checkpoint r) -> length (encode_record r) = RECORD_SIZE.
Proof. intros H. unfold encode_record. by rewrite length_app, length_le_bytes, record_body_length. Qed.

Lemma encode_record_body r :
  checkpoint_typed (st_checkpoint r) -> take CRC_OFFSET (encode_record r) = record_body r.
Proof.
  intros H. unfold encode_record. rewrite <- (record_body_length r H). apply take_app_length.
Qed.

(** ** Records that are accepted when read *)

Section Register.
Context {Cfg : OtaConfig} {W : Type} {Env : CheckpointEnv W} {Laws : CheckpointEnvLaws W Env}.

Definition save_ok (cur : option keemash_ota_v3_checkpoint_t) : Prop :=
  match cur with
  | None => True
  | Some cp => checkpoint_typed cp /\ save_refused cp = false
  end.

Lemma checkpoint_zero_typed : checkpoint_typed checkpoint_zero.
Proof.
  split; unfold is_u8, is_u16, is_u32; try (cbn; lia); try reflexivity.
  rewrite !Forall_cons_iff. repeat split; try literal_bytes. constructor.
Qed.

Lemma make_record_typed g cur :
  save_ok cur -> is_u32 g -> record_typed (make_record g cur).
Proof.
  intros Hs Hg. unfold CHECKPOINT_MAGIC, CHECKPOINT_VERSION.
  split; cbn; try done; [by destruct cur|].
  destruct cur as [cp|]; [apply Hs|apply checkpoint_zero_typed].
Qed.

(** Turn a goal about the guards into facts about numbers. *)
Ltac guards :=
  repeat match goal with
  | |- _ && _ = true => apply andb_true_iff; split
  | |- (_ <? _) = true => apply Z.ltb_lt
  | |- (_ <=? _) = true => apply Z.leb_le
  | |- (_ =? _) = true => apply Z.eqb_eq
  end.

Lemma make_record_valid g cur :
  save_ok cur -> is_u32 g -> g <> 0 ->
  record_valid (make_record g cur) (record_body (make_record g cur)) = true.
Proof.
  intros Hs Hg Hz. unfold record_valid.
  replace (record_body (make_record g cur)) with (record_body
    {| st_magic := CHECKPOINT_MAGIC; st_version := CHECKPOINT_VERSION;
       st_tombstone := match cur with Some _ => 0 | None => 1 end; st_generation := g;
       st_checkpoint := default checkpoint_zero cur; st_crc32 := 0 |}) by done.
  cbn [make_record st_magic st_version st_tombstone st_generation st_crc32 st_checkpoint].
  rewrite !Z.eqb_refl. apply Z.eqb_neq in Hz. rewrite Hz.
  destruct cur as [cp|]; cbn; [|done]. destruct Hs as [[_ _ _ _ _ _ _ Hi Hr He _ _ _] Hs].
  unfold save_refused in Hs. apply orb_false_iff in Hs as [Hshape Hs]. rewrite Hshape.
  unfold is_u32 in *. destruct (cp_phase cp =? CHECKPOINT_TRANSFERRING); cbn [negb] in *; bools;
    guards; first [assumption|lia].
Qed.

Lemma make_record_usable g cur :
  save_ok cur -> is_u32 g -> g <> 0 ->
  usable (encode_record (make_record g cur)) = Some (make_record g cur).
Proof.
  intros Hs Hg Hz. pose proof (make_record_typed g cur Hs Hg) as Ht. unfold usable.
  rewrite record_roundtrip by done.
  rewrite encode_record_length, encode_record_body by apply Ht.
  rewrite make_record_valid by done. reflexivity.
Qed.

(** ** The two keys as one register *)

Definition usable_at (w : W) (k : nvs_key) : option stored_checkpoint_t := nv_blob w k ≫= usable.

Definition other_key (k : nvs_key) : nvs_key := match k with V3A => V3B | V3B => V3A end.

(** [cur] was written last, with generation [g]; the other key holds an older
    record or nothing usable. *)
Definition store_at (w : W) (g : Z) (cur : option keemash_ota_v3_checkpoint_t) : Prop :=
  is_u32 g /\ g <> 0 /\ usable_at w (checkpoint_key g) = Some (make_record g cur) /\
  match usable_at w (other_key (checkpoint_key g)) with
  | None => True
  | Some o => u32 (g - st_generation o) = 1 \/ g = 1 /\ u32 (g - st_generation o) = 3
  end.

(** The register: the last checkpoint saved, or nothing. *)
Inductive shows (w : W) : option keemash_ota_v3_checkpoint_t -> Prop :=
  | shows_empty : usable_at w V3A = None -> usable_at w V3B = None -> shows w None
  | shows_last g cur : store_at w g cur -> shows w cur.

(** Two worlds with the same blobs. *)
Definition same_store (w w' : W) : Prop := forall k, nv_blob w' k = nv_blob w k.

#[export] Instance same_store_equiv : Equivalence same_store.
Proof.
  split; [by intros w k|by intros w w' H k|]. intros w w' w'' H H' k. by rewrite H', H.
Qed.

Lemma usable_at_same w w' k : same_store w w' -> usable_at w' k = usable_at w k.
Proof. intros H. unfold usable_at. by rewrite H. Qed.

#[export] Instance shows_proper : Proper (same_store ==> eq ==> iff) shows.
Proof.
  intros w w' H cur cur' <-.
  assert (Hu : forall k, usable_at w' k = usable_at w k) by (intros; by apply usable_at_same).
  split; intros [Ha Hb|g c (Hg & Hz & H1 & H2)].
  all: try (apply shows_empty; congruence).
  all: apply (shows_last _ g); unfold store_at; rewrite ?Hu in *; auto.
Qed.

(** *** Reading *)

Lemma read_record_ok k w :
  (read_record k w).1 = usable_at w k /\ same_store w (read_record k w).2.
Proof.
  unfold read_record. rewrite bind_eq, ret_eq.
  split; [|intros k'; apply nvs_get_keeps].
  unfold usable_at. pose proof (nvs_get_ok k RECORD_SIZE w) as Hok.
  pose proof (nvs_get_fits k RECORD_SIZE w) as Hfit.
  destruct (nvs_get_blob k RECORD_SIZE w) as [[e|b] w'] eqn:E; cbn [fst] in *.
  - destruct (nv_blob w k) as [b|] eqn:Eb; [|done]. cbn.
    destruct (decide (length b <= RECORD_SIZE)%nat) as [Hl|Hl].
    + pose proof (proj2 (Hok b Hl) eq_refl). congruence.
    + unfold usable. destruct (Nat.eqb_spec (length b) RECORD_SIZE); [lia|done].
  - pose proof (proj1 (Hok b (Hfit b eq_refl)) eq_refl) as Hb. by rewrite Hb.
Qed.

Definition in_force (w : W) : option stored_checkpoint_t :=
  pick_latest (usable_at w V3A) (usable_at w V3B).

Lemma latest_record_ok w :
  ((latest_record w).1 = inl ESP_ERR_NO_MEM \/ (latest_record w).1 = inr (in_force w)) /\
  same_store w (latest_record w).2.
Proof.
  unfold latest_record. rewrite bind_eq.
  assert (Ha : same_store w (heap_alloc w).2) by (intros k; apply heap_alloc_keeps).
  destruct (heap_alloc w).1; cbn [negb]; [|by split; [left|]].
  rewrite bind_eq. destruct (read_record_ok V3A (heap_alloc w).2) as [E1 H1]. rewrite E1.
  rewrite bind_eq. destruct (read_record_ok V3B (read_record V3A (heap_alloc w).2).2) as [E2 H2].
  rewrite E2, ret_eq. cbn [fst snd].
  assert (Hb : same_store w (read_record V3A (heap_alloc w).2).2) by (by etransitivity).
  split; [|by etransitivity]. right. unfold in_force. do 2 f_equal; by apply usable_at_same.
Qed.

Lemma checkpoint_load_ok w r :
  (keemash_ota_v3_checkpoint_load w).1 = r ->
  same_store w (keemash_ota_v3_checkpoint_load w).2 /\
  match r with
  | inr cp => exists g, in_force w = Some g /\ st_tombstone g = 0 /\ st_checkpoint g = cp
  | inl ESP_ERR_NOT_FOUND =>
      (nvs_open true w).1 = ESP_ERR_NOT_FOUND \/
      forall g, in_force w = Some g -> st_tombstone g <> 0
  | inl e => e <> ESP_OK
  end.
Proof.
  unfold keemash_ota_v3_checkpoint_load. rewrite bind_eq.
  assert (Ho : same_store w (nvs_open true w).2) by (intros k; apply nvs_open_keeps).
  destruct (err_eqb _ ESP_ERR_NVS_NOT_FOUND) eqn:Em.
  { apply err_eqb_true in Em. rewrite ret_eq. cbn. intros <-. split; [done|]. right.
    intros g. unfold in_force, usable_at. by rewrite !(nvs_open_missing true w _ Em). }
  destruct (err_eqb _ ESP_OK) eqn:Ee; cbn [negb].
  2:{ apply err_eqb_false in Ee. rewrite ret_eq. cbn. intros <-. split; [done|].
      destruct (nvs_open true w).1 eqn:E; try done; auto. }
  rewrite bind_eq. set (w1 := (nvs_open true w).2) in *.
  assert (Ha : same_store w1 (heap_alloc w1).2) by (intros k; apply heap_alloc_keeps).
  destruct (heap_alloc w1).1; cbn [negb].
  2:{ rewrite ret_eq. cbn. intros <-. by split; [etransitivity|]. }
  assert (Hoa : same_store w (heap_alloc w1).2) by (by etransitivity).
  rewrite bind_eq, ret_eq. set (w2 := (heap_alloc w1).2) in *. cbn [fst snd].
  pose proof (latest_record_ok w2) as Hlr. destruct (latest_record w2) as [lr w3].
  cbn [fst snd] in *. destruct Hlr as [[-> | ->] Hl]; intros <-;
    (split; [by etransitivity|]); [done|].
  assert (Hi : in_force w2 = in_force w).
  { unfold in_force. by f_equal; apply usable_at_same. }
  rewrite Hi. destruct (in_force w) as [g|]; [|by right].
  destruct (Z.eqb_spec (st_tombstone g) 0) as [E|E]; cbn [negb].
  - by exists g.
  - right. by intros ? [= <-].
Qed.
(** *** Writing *)

(** [w'] is [w] with the blob of one key replaced. *)
Definition stores (w w' : W) (k : nvs_key) (b : bytes) : Prop :=
  forall k', nv_blob w' k' = if decide (k = k') then Some b else nv_blob w k'.

Lemma write_record_ok cur w :
  let g := next_generation (in_force w) in
  let '(e, w') := write_record cur w in
  (e <> ESP_OK /\ same_store w w') \/
  stores w w' (checkpoint_key g) (encode_record (make_record g cur)).
Proof.
  cbv zeta. unfold write_record. rewrite bind_eq.
  assert (Ho : same_store w (nvs_open false w).2) by (intros k; apply nvs_open_keeps).
  destruct (err_eqb _ ESP_OK) eqn:Ee; cbn [negb].
  2:{ apply err_eqb_false in Ee. rewrite ret_eq. by left. }
  rewrite bind_eq. set (w1 := (nvs_open false w).2) in *.
  assert (Ha : same_store w (heap_alloc w1).2)
    by (etransitivity; [exact Ho|intros k; apply heap_alloc_keeps]).
  destruct (heap_alloc w1).1; cbn [negb]; [|rewrite ret_eq; by left].
  rewrite bind_eq. set (w2 := (heap_alloc w1).2) in *.
  pose proof (latest_record_ok w2) as Hlr. destruct (latest_record w2) as [lr w3].
  cbn [fst snd] in *. destruct Hlr as [Hlr Hl].
  assert (H3 : same_store w w3) by (by etransitivity).
  assert (Hi : in_force w2 = in_force w) by (unfold in_force; by f_equal; apply usable_at_same).
  rewrite Hi in Hlr. destruct Hlr as [-> | ->]; [rewrite ret_eq; by left|].
  cbn [make_record st_generation]. set (g := next_generation (in_force w)).
  set (b := encode_record _). unfold and_then. rewrite bind_eq.
  pose proof (nvs_set_ok (checkpoint_key g) b w3) as Hset.
  pose proof (nvs_set_failed (checkpoint_key g) b w3) as Hnot.
  destruct (nvs_set_blob (checkpoint_key g) b w3) as [e w4]. cbn [fst snd] in *.
  destruct (err_eqb e ESP_OK) eqn:Es.
  - apply err_eqb_true in Es.
    pose proof (nvs_commit_keeps w4) as Hc. destruct (nvs_commit w4) as [e5 w5]. right.
    intros k. rewrite Hc, Hset by done. case_decide; [done|apply H3].
  - apply err_eqb_false in Es. rewrite ret_eq. destruct (Hnot Es) as [Hk|Hk].
    + left. split; [done|]. etransitivity; [exact H3|exact Hk].
    + right. intros k. rewrite Hk. case_decide; [done|apply H3].
Qed.

Lemma newer_step g o :
  is_u32 g -> is_u32 o -> u32 (g - o) = 1 \/ u32 (g - o) = 3 ->
  newer g o = true /\ newer o g = false.
Proof. intros Hg Ho H. unfold newer. split; [apply Z.ltb_lt|apply Z.ltb_ge]; words. Qed.

Lemma checkpoint_key_parity g : 0 <= g -> checkpoint_key g = if g mod 2 =? 1 then V3A else V3B.
Proof.
  intros Hg. unfold checkpoint_key. change 1 with (Z.ones 1). rewrite Z.land_ones by lia.
  change (2 ^ 1) with 2. change (Z.ones 1) with 1.
  pose proof (Z.mod_pos_bound g 2 ltac:(lia)).
  destruct (Z.eqb_spec (g mod 2) 0), (Z.eqb_spec (g mod 2) 1); cbn; try done; lia.
Qed.

(** The generation a record carries is a 32-bit number when the blob is bytes. *)
Definition bytes_stored (w : W) : Prop := forall k b, nv_blob w k = Some b -> are_bytes b.

Lemma usable_at_generation w k o :
  bytes_stored w -> usable_at w k = Some o -> is_u32 (st_generation o).
Proof.
  unfold usable_at. intros Hb H. destruct (nv_blob w k) as [b|] eqn:Eb; [|done]. cbn in H.
  unfold usable in H. destruct (_ && _); [|done]. injection H as <-. cbn.
  pose proof (le_val_range (slice 8 4 b) ltac:(apply are_bytes_slice, (Hb k b Eb))) as Hr.
  assert (length (slice 8 4 b) <= 4)%nat by (unfold slice; rewrite length_take; lia).
  unfold get_le, is_u32. split; [lia|]. eapply Z.lt_le_trans; [apply Hr|].
  change 4294967296 with (256 ^ 4). apply Z.pow_le_mono_r; lia.
Qed.

Lemma store_at_in_force w g cur :
  bytes_stored w -> store_at w g cur -> in_force w = Some (make_record g cur).
Proof.
  intros Hb (Hg & Hz & H1 & H2). unfold in_force.
  destruct (checkpoint_key g) eqn:Ek; cbn [other_key] in H2; rewrite H1.
  - destruct (usable_at w V3B) as [o|] eqn:Eo; [|done]. cbn.
    pose proof (usable_at_generation _ _ _ Hb Eo) as Ho.
    destruct (newer_step g (st_generation o) Hg Ho) as [_ ->]; [tauto|done].
  - destruct (usable_at w V3A) as [o|] eqn:Eo; [|done]. cbn.
    pose proof (usable_at_generation _ _ _ Hb Eo) as Ho.
    destruct (newer_step g (st_generation o) Hg Ho) as [-> _]; [tauto|done].
Qed.

(** The next record goes to the other key, except when the counter wraps. *)
Lemma next_key g :
  is_u32 g -> g <> 0 -> g <> UINT32_MAX ->
  u32 (g + 1) = g + 1 /\ checkpoint_key (g + 1) = other_key (checkpoint_key g).
Proof.
  intros Hg Hz Hm. unfold is_u32, UINT32_MAX in *. split; [words|].
  rewrite !checkpoint_key_parity by lia.
  destruct (Z.eqb_spec (g mod 2) 1), (Z.eqb_spec ((g + 1) mod 2) 1); cbn; try done;
    exfalso; Z.div_mod_to_equations; lia.
Qed.

Lemma other_key_ne k : other_key k <> k. Proof. by destruct k. Qed.
Lemma other_key_other k : other_key (other_key k) = k. Proof. by destruct k. Qed.

Lemma usable_at_stores w w' k b k' :
  stores w w' k b -> usable_at w' k' = if decide (k = k') then usable b else usable_at w k'.
Proof. intros H. unfold usable_at. rewrite H. by case_decide. Qed.

Definition next_after (g : Z) : Z := let g' := u32 (g + 1) in if g' =? 0 then 1 else g'.

Lemma next_generation_some g c : next_generation (Some (make_record g c)) = next_after g.
Proof. done. Qed.

(** A completed write puts the new record in force. *)
Lemma stores_shows w w' c cur :
  bytes_stored w -> shows w c -> save_ok cur ->
  stores w w' (checkpoint_key (next_generation (in_force w)))
    (encode_record (make_record (next_generation (in_force w)) cur)) ->
  shows w' cur.
Proof.
  intros Hb Hsh Hs Hst. destruct Hsh as [Ha He|g c Hat].
  - assert (Hif : in_force w = None) by (unfold in_force; by rewrite Ha, He).
    rewrite Hif in Hst. change (next_generation None) with 1 in Hst.
    apply (shows_last _ 1). unfold store_at. rewrite !(usable_at_stores _ _ _ _ _ Hst).
    change (checkpoint_key 1) with V3A. cbn [other_key].
    rewrite decide_True, decide_False, He by done.
    rewrite make_record_usable by (done || unfold is_u32; lia). done.
  - pose proof (store_at_in_force w g c Hb Hat) as Hif. rewrite Hif in Hst.
    rewrite next_generation_some in Hst.
    destruct Hat as (Hg & Hz & H1 & H2).
    destruct (decide (g = UINT32_MAX)) as [->|Hm].
    + change (next_after UINT32_MAX) with 1 in Hst. change (checkpoint_key UINT32_MAX) with V3A in *.
      apply (shows_last _ 1). unfold store_at. rewrite !(usable_at_stores _ _ _ _ _ Hst).
      change (checkpoint_key 1) with V3A. cbn [other_key] in *.
      rewrite decide_True, decide_False by done.
      rewrite make_record_usable by (done || unfold is_u32; lia).
      split; [done|]. split; [done|]. split; [done|].
      destruct (usable_at w V3B) as [o|] eqn:Eo; [|done].
      pose proof (usable_at_generation _ _ _ Hb Eo). right. split; [done|]. words.
    + destruct (next_key g Hg Hz Hm) as [E Ek]. assert (is_u32 (g + 1)) by words.
      assert (Hz' : g + 1 <> 0) by (unfold is_u32 in *; lia).
      unfold next_after in Hst. rewrite E in Hst. apply Z.eqb_neq in Hz' as Hz2. rewrite Hz2 in Hst.
      apply (shows_last _ (g + 1)). unfold store_at.
      rewrite !(usable_at_stores _ _ _ _ _ Hst), Ek, other_key_other.
      rewrite decide_True by done. rewrite decide_False by apply other_key_ne.
      rewrite make_record_usable by done. rewrite H1.
      split; [done|]. split; [done|]. split; [done|]. left. cbn [make_record st_generation].
      replace (g + 1 - g) with 1 by lia. done.
Qed.
(** *** The register *)

Definition register (w : W) (c : option keemash_ota_v3_checkpoint_t) : Prop :=
  bytes_stored w /\ shows w c.

Lemma register_same w w' c : same_store w w' -> register w c -> register w' c.
Proof.
  intros H [Hb Hs]. split; [|by rewrite <- H]. intros k b. rewrite H. apply Hb.
Qed.

Lemma encode_record_bytes r : checkpoint_typed (st_checkpoint r) -> are_bytes (encode_record r).
Proof.
  intros [_ _ _ _ _ _ _ _ _ _ _ _ H]. rewrite !Forall_cons_iff in H.
  unfold encode_record, record_body, encode_checkpoint, encode_resume.
  assert (Hz : forall n, are_bytes (zeros n)).
  { intros n. apply Forall_replicate. unfold is_u8. lia. }
  unfold are_bytes. rewrite !Forall_app.
  repeat split; try apply le_bytes_are; try apply Hz; tauto.
Qed.

Lemma stores_bytes w w' k r :
  bytes_stored w -> checkpoint_typed (st_checkpoint r) -> stores w w' k (encode_record r) ->
  bytes_stored w'.
Proof.
  intros Hb Ht Hst k' b. rewrite Hst. case_decide; [|apply Hb].
  intros [= <-]. by apply encode_record_bytes.
Qed.

Lemma write_register w c cur :
  register w c -> save_ok cur ->
  let '(e, w') := write_record cur w in
  (e <> ESP_OK /\ register w' c) \/ register w' cur.
Proof.
  intros [Hb Hs] Hcur. pose proof (write_record_ok cur w) as Hw. cbv zeta in Hw.
  destruct (write_record cur w) as [e w']. destruct Hw as [[He Hsame]|Hst].
  - left. split; [done|]. by eapply register_same.
  - right. split; [|by eapply stores_shows].
    eapply stores_bytes; [done| |exact Hst].
    destruct cur as [cp|]; [apply Hcur|apply checkpoint_zero_typed].
Qed.

(** The calls of the interface and what a register answers. *)
Inductive reg_call := R_save (cp : keemash_ota_v3_checkpoint_t) | R_clear | R_load.

Definition do_call (call : reg_call) : ST W (res (option keemash_ota_v3_checkpoint_t)) :=
  let done (e : esp_err_t) := mret (if err_eqb e ESP_OK then inr None else inl e) in
  match call with
  | R_save cp => keemash_ota_v3_checkpoint_save cp ≫= done
  | R_clear => keemash_ota_v3_checkpoint_clear ≫= done
  | R_load =>
      r ← keemash_ota_v3_checkpoint_load;
      mret (match r with inl e => inl e | inr cp => inr (Some cp) end)
  end.

(** [reg_lost]: the blob was written, although the write or the commit reported an error. *)
Inductive reg_step (c : option keemash_ota_v3_checkpoint_t)
  : reg_call -> res (option keemash_ota_v3_checkpoint_t)
    -> option keemash_ota_v3_checkpoint_t -> Prop :=
  | reg_saved cp : reg_step c (R_save cp) (inr None) (Some cp)
  | reg_cleared : reg_step c R_clear (inr None) None
  | reg_loaded cp : c = Some cp -> reg_step c R_load (inr (Some cp)) c
  | reg_nothing : c = None -> reg_step c R_load (inl ESP_ERR_NOT_FOUND) c
  | reg_failed call e : e <> ESP_OK -> (call = R_load -> e <> ESP_ERR_NOT_FOUND) ->
      reg_step c call (inl e) c
  | reg_lost_save cp e : e <> ESP_OK -> reg_step c (R_save cp) (inl e) (Some cp)
  | reg_lost_clear e : e <> ESP_OK -> reg_step c R_clear (inl e) None.

Definition call_typed (call : reg_call) : Prop :=
  match call with R_save cp => checkpoint_typed cp | _ => True end.

Lemma register_in_force w c :
  register w c ->
  match c with
  | Some cp => exists r, in_force w = Some r /\ st_tombstone r = 0 /\ st_checkpoint r = cp
  | None => forall r, in_force w = Some r -> st_tombstone r <> 0
  end.
Proof.
  intros [Hb [Ha He|g cur Hs]].
  - intros r. unfold in_force. by rewrite Ha, He.
  - rewrite (store_at_in_force _ _ _ Hb Hs). destruct cur as [cp|].
    + by eexists.
    + by intros r [= <-].
Qed.

(** C15: load, save and clear implement a register, as long as stored blobs can be read
    ([nvs_get_ok]): whichever opening, allocation, write or commit fails, the store shows the
    last checkpoint saved, or nothing after a clear; a failing call leaves it unchanged unless
    the blob was written all the same.  A copy that cannot be read breaks this
    ([unread_copy_resurrects]). *)
Theorem checkpoint_refines w c call :
  register w c -> call_typed call ->
  let '(r, w') := do_call call w in
  exists c', reg_step c call r c' /\ register w' c'.
Proof.
  intros Hr Ht. destruct call as [cp| |]; unfold do_call; rewrite bind_eq, ret_eq.
  - unfold keemash_ota_v3_checkpoint_save. destruct (save_refused cp) eqn:Es.
    { exists c. split; [|done]. by constructor. }
    pose proof (write_register w c (Some cp) Hr (conj Ht Es)) as Hw.
    destruct (write_record (Some cp) w) as [e w']. cbn [fst snd].
    destruct (err_eqb e ESP_OK) eqn:Ee;
      [apply err_eqb_true in Ee|apply err_eqb_false in Ee]; destruct Hw as [[? ?]|?]; try done;
      eexists; (split; [|eassumption]); by constructor.
  - unfold keemash_ota_v3_checkpoint_clear.
    pose proof (write_register w c None Hr I) as Hw.
    destruct (write_record None w) as [e w']. cbn [fst snd].
    destruct (err_eqb e ESP_OK) eqn:Ee;
      [apply err_eqb_true in Ee|apply err_eqb_false in Ee]; destruct Hw as [[? ?]|?]; try done;
      eexists; (split; [|eassumption]); by constructor.
  - pose proof (checkpoint_load_ok w _ eq_refl) as [Hsame Hl].
    pose proof (register_in_force w c Hr) as Hf. pose proof (nvs_open_codes true w) as Hop.
    destruct (keemash_ota_v3_checkpoint_load w) as [r w']. cbn [fst snd] in *.
    exists c. split; [|by eapply register_same]. destruct r as [e|cp].
    + destruct (decide (e = ESP_ERR_NOT_FOUND)) as [->|Hne].
      * apply reg_nothing. destruct Hl as [?|Hl]; [done|]. destruct c as [cp|]; [|done].
        destruct Hf as (r & Hi & Hz & _). by apply Hl in Hi.
      * constructor; [by destruct e|done].
    + destruct Hl as (r & Hi & Hz & <-). apply reg_loaded. destruct c as [cp|].
      * destruct Hf as (r' & Hi' & _ & <-). congruence.
      * by apply Hf in Hi.
Qed.

(** A write that power loss cuts short, leaving bytes that are not a valid
    record under the key it was writing, does not disturb the register: the
    checkpoint in force is still the one saved before. *)
Theorem torn_write_harmless w w' c b :
  register w c -> are_bytes b -> usable b = None ->
  (forall r, in_force w = Some r -> st_generation r <> UINT32_MAX) ->
  stores w w' (checkpoint_key (next_generation (in_force w))) b ->
  register w' c.
Proof.
  intros [Hb Hs] Hbytes Hu Hmax Hst. split.
  { intros k b'. rewrite Hst. case_decide; [by intros [= <-]|apply Hb]. }
  destruct Hs as [Ha He|g cur Hat].
  - assert (Hif : in_force w = None) by (unfold in_force; by rewrite Ha, He).
    rewrite Hif in Hst. change (checkpoint_key (next_generation None)) with V3A in Hst.
    apply shows_empty; rewrite (usable_at_stores _ _ _ _ _ Hst); by case_decide.
  - pose proof (store_at_in_force w g cur Hb Hat) as Hif. rewrite Hif in Hst, Hmax.
    rewrite next_generation_some in Hst.
    destruct Hat as (Hg & Hz & H1 & H2).
    destruct (next_key g Hg Hz (Hmax _ eq_refl)) as [E Ek].
    assert (Hz' : g + 1 <> 0) by (unfold is_u32 in *; lia). apply Z.eqb_neq in Hz'.
    unfold next_after in Hst. rewrite E, Hz', Ek in Hst.
    apply (shows_last _ g). unfold store_at. rewrite !(usable_at_stores _ _ _ _ _ Hst).
    rewrite decide_False by apply other_key_ne. by rewrite decide_True, Hu.
Qed.
End Register.

(** ** Witnesses *)

Definition store_config : OtaConfig := {|
  CONFIG_KEEMASH_OTA_V3_ENABLE := true;
  CONFIG_KEEMASH_OTA_V3_TRUSTED_P256_PUBKEY_HEX := [];
  CONFIG_KEEMASH_OTA_V3_DELTA_EXPERIMENTAL := false;
  CONFIG_KEEMASH_OTA_V3_CHECKPOINT_BYTES := 16384 |}.
#[local] Existing Instance store_config.

Record demo_nvs := { blob_a : option bytes; blob_b : option bytes }.
Definition demo_blob (w : demo_nvs) (k : nvs_key) : option bytes :=
  match k with V3A => blob_a w | V3B => blob_b w end.

Definition demo_env : CheckpointEnv demo_nvs := {|
  nvs_open := fun _ w => (ESP_OK, w);
  nvs_get_blob := fun k n w =>
    (match demo_blob w k with
     | Some b => if (length b <=? n)%nat then inr b else inl ESP_ERR_NVS_INVALID_LENGTH
     | None => inl ESP_ERR_NVS_NOT_FOUND
     end, w);
  nvs_set_blob := fun k b w =>
    (ESP_OK, match k with
             | V3A => {| blob_a := Some b; blob_b := blob_b w |}
             | V3B => {| blob_a := blob_a w; blob_b := Some b |}
             end);
  nvs_commit := fun w => (ESP_OK, w);
  heap_alloc := fun w => (true, w);
  esp_rom_crc32_le := fun init bs => fold_left Z.add bs init |}.
#[local] Existing Instance demo_env.

#[local] Instance demo_env_laws : CheckpointEnvLaws demo_nvs demo_env.
Proof.
  refine {| nv_blob := demo_blob |}; cbn; try done.
  - intros k n w b Hb. destruct (demo_blob w k) as [b'|]; [|split; congruence].
    destruct (Nat.leb_spec (length b') n); split; try congruence.
    intros [= ->]. lia.
  - intros k n w b. destruct (demo_blob w k) as [b'|]; [|done].
    destruct (Nat.leb_spec (length b') n); [|done]. by intros [= <-].
  - intros k b w k' _. by destruct k, k'.
Defined.

Definition demo_checkpoint (phase : Z) : keemash_ota_v3_checkpoint_t :=
  {| cp_phase := phase; cp_operation_id := replicate 16 1; cp_artifact_id := replicate 32 2;
     cp_signature := zeros 64; cp_signed_fields_len := 1; cp_signed_fields := zeros 1024;
     cp_partition_label := 111 :: zeros 16;
     cp_resume := {| rp_next_block_index := 1; rp_raw_offset := 16384;
                     rp_encoded_offset := 9000; rp_block_chain := zeros 32;
                     rp_image_prefix_sha256 := zeros 32 |} |}.

Lemma demo_checkpoint_typed phase : is_u8 phase -> checkpoint_typed (demo_checkpoint phase).
Proof.
  intros Hp. split; try done; unfold is_u16, is_u32; try (cbn; lia).
  rewrite !Forall_cons_iff. repeat split; try literal_bytes. constructor.
Qed.

Definition empty_nvs : demo_nvs := {| blob_a := None; blob_b := None |}.
Definition saved_once : demo_nvs := (do_call (R_save (demo_checkpoint 1)) empty_nvs).2.

Lemma empty_register : register empty_nvs None.
Proof. split; [by intros [|] b|by apply shows_empty]. Qed.

Example record_read_back :
  decode_record (encode_record (make_record 5 (Some (demo_checkpoint 2))))
  = make_record 5 (Some (demo_checkpoint 2)).
Proof.
  apply record_roundtrip, make_record_typed.
  - split; [apply demo_checkpoint_typed; unfold is_u8; lia|by vm_compute].
  - unfold is_u32. lia.
Defined.

Example checkpoint_refines_witness :
  exists c', reg_step None (R_save (demo_checkpoint 1)) (inr None) c' /\ register saved_once c'.
Proof.
  assert (Ht : call_typed (R_save (demo_checkpoint 1)))
    by (apply demo_checkpoint_typed; unfold is_u8; lia).
  pose proof (checkpoint_refines empty_nvs None (R_save (demo_checkpoint 1))
                empty_register Ht) as H.
  assert (E : do_call (R_save (demo_checkpoint 1)) empty_nvs = (inr None, saved_once))
    by (vm_compute; reflexivity).
  rewrite E in H. exact H.
Defined.

(** After that save the register holds the checkpoint, and loading returns it. *)
Lemma saved_register : register saved_once (Some (demo_checkpoint 1)).
Proof.
  assert (Hs : save_ok (Some (demo_checkpoint 1)))
    by (split; [apply demo_checkpoint_typed; unfold is_u8; lia|by vm_compute]).
  pose proof (write_register empty_nvs None (Some (demo_checkpoint 1)) empty_register Hs) as H.
  assert (E : write_record (Some (demo_checkpoint 1)) empty_nvs = (ESP_OK, saved_once))
    by (vm_compute; reflexivity).
  rewrite E in H. destruct H as [[Hne _]|H]; [destruct (Hne eq_refl)|exact H].
Qed.

Example load_after_save :
  (do_call R_load saved_once).1 = inr (Some (demo_checkpoint 1)).
Proof. vm_compute. reflexivity. Qed.

(** The second write goes to the other key and is cut short. *)
Definition torn_nvs : demo_nvs := {| blob_a := blob_a saved_once; blob_b := Some [1; 2; 3] |}.

Example torn_write_harmless_witness : register torn_nvs (Some (demo_checkpoint 1)).
Proof.
  apply (torn_write_harmless saved_once torn_nvs (Some (demo_checkpoint 1)) [1; 2; 3]).
  - exact saved_register.
  - literal_bytes.
  - vm_compute. reflexivity.
  - intros r. vm_compute. intros [= <-]. discriminate.
  - intros [|]; vm_compute; reflexivity.
Defined.

(** A copy that cannot be read counts as absent. After a save and a clear, with the cleared
    mark unreadable, the checkpoint that was cleared is loaded again. *)
Definition cleared_nvs : demo_nvs := (do_call R_clear saved_once).2.
Definition half_blind_env : CheckpointEnv demo_nvs := {|
  nvs_open := fun _ w => (ESP_OK, w);
  nvs_get_blob := fun k n w =>
    match k with V3A => @nvs_get_blob _ demo_env V3A n w | V3B => (inl ESP_FAIL, w) end;
  nvs_set_blob := @nvs_set_blob _ demo_env;
  nvs_commit := fun w => (ESP_OK, w);
  heap_alloc := fun w => (true, w);
  esp_rom_crc32_le := @esp_rom_crc32_le _ demo_env |}.

Example unread_copy_resurrects :
  (keemash_ota_v3_checkpoint_load cleared_nvs).1 = inl ESP_ERR_NOT_FOUND /\
  (@keemash_ota_v3_checkpoint_load _ _ half_blind_env cleared_nvs).1
  = inr (demo_checkpoint 1).
Proof. split; vm_compute; reflexivity. Qed.
