(* ===== verification/OtaFlashEnv.v ===== *)
(** * OTA v3: partitions and the ESP-IDF OTA calls

    The partition table, the flash and the OTA handles belong to ESP-IDF:
    [FlashEnv] lists the calls the sources make.  [FlashLaws] states what their
    documentation promises and the sources rely on, in terms of three views of
    the world: the bytes of a partition, and for an OTA handle the partition it
    writes and the image accepted through it so far. *)

From S2P Require Import Prelude.
From S2P Require Import Words.
From S2P Require Import Esp.
From S2P Require Import OtaLib.
From S2P Require Import OtaStream.
From S2P Require Import OtaImage.
From S2P Require Import OtaCheckpoint.
#[local] Open Scope Z_scope.

(** [esp_ota_img_states_t] *)
Inductive esp_ota_img_states_t :=
  | ESP_OTA_IMG_NEW
  | ESP_OTA_IMG_PENDING_VERIFY
  | ESP_OTA_IMG_VALID
  | ESP_OTA_IMG_INVALID
  | ESP_OTA_IMG_ABORTED
  | ESP_OTA_IMG_UNDEFINED.

#[export] Instance img_states_eq_dec : EqDecision esp_ota_img_states_t.
Proof. solve_decision. Defined.

Definition OTA_WITH_SEQUENTIAL_WRITES : Z := 0xfffffffe.

(** Partitions are compared by their address; a label is a C string.
    [esp_ota_begin p n] announces an image of [n] bytes, or
    [OTA_WITH_SEQUENTIAL_WRITES].  [esp_ota_get_state_partition p s]: the result and [*ota_state], which held
    [s] before. *)
Class FlashEnv (W : Type) := {
  esp_partition_t : Type;
  label : esp_partition_t -> bytes;
  size : esp_partition_t -> Z;
  esp_partition_find_first : bytes -> ST W (option esp_partition_t);
  esp_partition_read : esp_partition_t -> Z -> Z -> ST W (res bytes);
  esp_ota_get_next_update_partition : ST W (option esp_partition_t);
  esp_ota_get_running_partition : ST W (option esp_partition_t);
  esp_ota_get_state_partition : esp_partition_t -> esp_ota_img_states_t
    -> ST W (esp_err_t * esp_ota_img_states_t);
  esp_ota_set_boot_partition : esp_partition_t -> ST W esp_err_t;
  esp_ota_begin : esp_partition_t -> Z -> ST W (res Z);
  esp_ota_resume : esp_partition_t -> Z -> ST W (res Z);
  esp_ota_write : Z -> bytes -> ST W esp_err_t;
  esp_ota_end : Z -> ST W esp_err_t;
  esp_ota_abort : Z -> ST W esp_err_t;
  esp_err_u32 : esp_err_t -> Z;
  img_state_u32 : esp_ota_img_states_t -> Z }.

Class FlashView (W : Type) (E : FlashEnv W) := {
  partition_data : W -> esp_partition_t -> bytes;
  ota_partition : W -> Z -> option esp_partition_t;
  ota_image : W -> Z -> bytes }.

(** Nothing the OTA calls can see has changed. *)
Definition same_flash {W : Type} {E : FlashEnv W} {V : FlashView W E} (w w' : W) : Prop :=
  (forall p, partition_data w' p = partition_data w p) /\
  (forall h, ota_partition w' h = ota_partition w h /\ ota_image w' h = ota_image w h).

#[export] Instance same_flash_preorder {W : Type} {E : FlashEnv W} {V : FlashView W E}
  : PreOrder same_flash.
Proof.
  split; [done|]. intros w w' w'' [Hp Hh] [Hp' Hh']. split.
  - intros p. by rewrite Hp', Hp.
  - intros h. destruct (Hh h), (Hh' h). split; congruence.
Qed.

(** The OTA calls: [esp_ota_begin] opens an empty image, a write adds to it, and
    [esp_ota_end] leaves it at the start of the partition; a failing
    [esp_ota_begin] yields no handle. *)
Class OtaLaws (W : Type) (E : FlashEnv W) (V : FlashView W E) := {
  next_keeps : stable same_flash esp_ota_get_next_update_partition;
  begin_ok : forall p n w h w', esp_ota_begin p n w = (inr h, w') ->
    ota_partition w' h = Some p /\ ota_image w' h = [];
  begin_code : forall p n w e w', esp_ota_begin p n w = (inl e, w') -> e <> ESP_OK;
  write_ok : forall h b w w', esp_ota_write h b w = (ESP_OK, w') ->
    ota_partition w' h = ota_partition w h /\ ota_image w' h = ota_image w h ++ b;
  end_ok : forall h w w' p, esp_ota_end h w = (ESP_OK, w') -> ota_partition w h = Some p ->
    slice 0 (length (ota_image w h)) (partition_data w' p) = ota_image w h }.

(** The calls of [CheckpointEnv] (NVS and the heap) do not touch the image
    partitions, and a blob is read as bytes; a failing [esp_ota_resume] yields
    no handle. *)
Class FlashLaws (W : Type) (E : FlashEnv W) (V : FlashView W E) (C : CheckpointEnv W) := {
  #[global] flash_ota :: OtaLaws W E V;
  find_keeps : forall l, stable same_flash (esp_partition_find_first l);
  open_keeps : forall ro, stable same_flash (nvs_open ro);
  get_keeps : forall k n, stable same_flash (nvs_get_blob k n);
  get_bytes : forall k n w b, (nvs_get_blob k n w).1 = inr b -> are_bytes b;
  set_keeps : forall k b, stable same_flash (nvs_set_blob k b);
  commit_keeps : stable same_flash nvs_commit;
  alloc_keeps : stable same_flash heap_alloc;
  read_ok : forall p, reads_flash (esp_partition_read p) (fun w => partition_data w p);
  resume_ok : forall p off w h w', 0 <= off -> esp_ota_resume p off w = (inr h, w') ->
    ota_partition w' h = Some p /\ ota_image w' h = slice 0 (Z.to_nat off) (partition_data w p);
  resume_code : forall p off w e w', esp_ota_resume p off w = (inl e, w') -> e <> ESP_OK }.
