(* ===== verification/OtaRx.v ===== *)
(** * The OTA v1/v2 receiver (keemash_mesh_ota_receiver.c)

    One transfer at a time, started by a V1 BEGIN packet or a V2 PREPARE payload,
    filled by DATA at consecutive offsets, completed by END or COMMIT (which also
    checks the SHA-256 of a V2 image), dropped by ABORT, by an error or by the
    watchdog.  V1 packets are handled in the caller's task, V2 payloads by a
    worker behind a queue; a mutex serialises both, so a handler is one step. *)

From Stdlib Require String.
From S2P Require Import Prelude.
From S2P Require Import Words.
From S2P Require Import Esp.
From S2P Require Import Rtos.
From S2P Require Import MeshProto.
From S2P Require Import MeshProtoV1.
From S2P Require Import OtaLib.
From S2P Require Import OtaFlashEnv.
#[local] Open Scope Z_scope.

Definition MESH_OTA_RX_TIMEOUT_MS : Z := 60000.
Definition MESH_OTA_V2_RX_TIMEOUT_MS : Z := 300000.
Definition MESH_OTA_V2_QUEUE_LEN : nat := 2.

(** ** Status texts *)

Module RxText.
Import Stdlib.Strings.String.
#[local] Open Scope string_scope.

Definition reboot_pending : bytes := text "OTA reboot pending".
Definition already_active : bytes := text "OTA already active".
Definition wrong_project : bytes := text "wrong project ".
Definition bad_begin : bytes := text "bad OTA begin".
Definition bad_prepare : bytes := text "bad OTA prepare".
Definition no_partition : bytes := text "no OTA partition".
Definition too_large : bytes := text "image too large".
Definition begin_failed : bytes := text "esp_ota_begin ".
Definition write_failed : bytes := text "esp_ota_write ".
Definition write_hash_failed : bytes := text "OTA write/hash ".
Definition end_failed : bytes := text "esp_ota_end ".
Definition set_boot_failed : bytes := text "set boot ".
Definition not_active : bytes := text "OTA not active".
Definition not_active_a : bytes := text "not active a=".
Definition space_v : bytes := text " v=".
Definition space_cur : bytes := text " cur=".
Definition space_r : bytes := text " r=".
Definition bad_chunk : bytes := text "bad chunk".
Definition duplicate_chunk : bytes := text "duplicate chunk OK".
Definition offset_mismatch : bytes := text "offset mismatch".
Definition chunk_ok : bytes := text "chunk OK".
Definition size_mismatch : bytes := text "size mismatch".
Definition ota_ok : bytes := text "OTA OK rebooting".
Definition ota_aborted : bytes := text "OTA aborted".
Definition stale_abort : bytes := text "stale abort ignored".
Definition timeout_abort : bytes := text "OTA timeout abort".
Definition sha_init_failed : bytes := text "sha256 init failed".
Definition missing_sha : bytes := text "missing sha256".
Definition sha_mismatch : bytes := text "sha256 mismatch".
Definition lock_timeout : bytes := text "OTA worker lock timeout".
Definition worker_busy : bytes := text "OTA worker busy".
(** The abort reasons. *)
Definition r_boot : bytes := text "boot".
Definition r_unknown : bytes := text "unknown".
Definition r_timeout : bytes := text "timeout".
Definition r_v1_prepare : bytes := text "v1 prepare".
Definition r_v2_prepare : bytes := text "v2 prepare".
Definition r_v1_abort : bytes := text "v1 abort".
Definition r_v2_abort : bytes := text "v2 abort".
Definition r_write_hash : bytes := text "write/hash".
Definition r_size : bytes := text "size mismatch".
Definition r_missing_sha : bytes := text "missing sha".
Definition r_sha : bytes := text "sha mismatch".
Definition r_ota_end : bytes := text "ota_end".
End RxText.

(** ** What is around the receiver

    [start_reboot_task] is [xTaskCreate(reboot_task, ...)], and
    [delay_and_restart] the wait and the restart that replace it when it fails. *)
Class RxEnv (W : Type) := {
  #[global] rx_rtos :: Rtos W;
  #[global] rx_transport :: MeshTransport W;
  sha256_supported : bool;
  mesh_v2_node_send_ota_status : mesh_v2_ota_status_payload_t -> ST W esp_err_t;
  keemash_mesh_ota_v3_receiver_active : ST W bool;
  start_reboot_task : ST W bool;
  delay_and_restart : ST W unit }.

Section Receiver.
Context {D : Digest} {W : Type} {Flash : FlashEnv W} {Rx : RxEnv W}.

(** ** State *)

Record mesh_ota_rx_state_t := {
  o_active : bool; o_handle : Z; o_partition : option esp_partition_t; o_image_size : Z;
  o_written : Z; o_op_id : Z; o_last_seq : Z; o_last_rx_tick : Z; o_v2_active : bool;
  o_sha_active : bool; o_sha_ctx : md_ctx; o_sha256 : bytes }.

#[export] Instance eta_ota_rx : Eta mesh_ota_rx_state_t := fun o =>
  Build_mesh_ota_rx_state_t (o_active o) (o_handle o) (o_partition o) (o_image_size o)
    (o_written o) (o_op_id o) (o_last_seq o) (o_last_rx_tick o) (o_v2_active o)
    (o_sha_active o) (o_sha_ctx o) (o_sha256 o).

(** [memset(&s_ota, 0, sizeof(s_ota))] *)
Definition ota_zero : mesh_ota_rx_state_t :=
  {| o_active := false; o_handle := 0; o_partition := None; o_image_size := 0;
     o_written := 0; o_op_id := 0; o_last_seq := 0; o_last_rx_tick := 0;
     o_v2_active := false; o_sha_active := false; o_sha_ctx := md_zero;
     o_sha256 := zeros 32 |}.

(** The static variables of the file; a task handle or a mutex is whether it
    exists. *)
Record ota_receiver := {
  x_ota : mesh_ota_rx_state_t; x_last_abort_reason : bytes; x_status_counter : Z;
  x_reboot_pending : bool; x_reboot_end_seq : Z; x_reboot_v2_op_id : Z; x_reboot_total : Z;
  x_lock : bool; x_v2_queue : option (list bytes); x_v2_worker : bool; x_watchdog : bool }.

#[export] Instance eta_ota_receiver : Eta ota_receiver := fun x =>
  Build_ota_receiver (x_ota x) (x_last_abort_reason x) (x_status_counter x)
    (x_reboot_pending x) (x_reboot_end_seq x) (x_reboot_v2_op_id x) (x_reboot_total x)
    (x_lock x) (x_v2_queue x) (x_v2_worker x) (x_watchdog x).

Definition ota_receiver_boot : ota_receiver :=
  {| x_ota := ota_zero; x_last_abort_reason := RxText.r_boot; x_status_counter := 0;
     x_reboot_pending := false; x_reboot_end_seq := 0; x_reboot_v2_op_id := 0;
     x_reboot_total := 0; x_lock := false; x_v2_queue := None; x_v2_worker := false;
     x_watchdog := false |}.

Abbreviation RX := (ST (ota_receiver * W)).

(** Reading the state, and assigning to it. *)
Definition get_rx : RX ota_receiver := gets fst.
Definition get_ota : RX mesh_ota_rx_state_t := gets (fun s => x_ota s.1).
Definition mod_rx (f : ota_receiver -> ota_receiver) : RX unit :=
  modify (fun '(x, w) => (f x, w)).
Definition mod_ota (f : mesh_ota_rx_state_t -> mesh_ota_rx_state_t) : RX unit :=
  mod_rx (fun x => x <| x_ota ::= f |>).

(** ** Helpers *)

Definition copy_packet_text (dst_sz : nat) (src : bytes) : bytes := take (dst_sz - 1) (cstr src).

Definition packet_text_equals (field expected : bytes) : bool :=
  bytes_eqb (copy_packet_text 33 field) expected.

Definition rx_timeout_ms (o : mesh_ota_rx_state_t) : Z :=
  if o_v2_active o then MESH_OTA_V2_RX_TIMEOUT_MS else MESH_OTA_RX_TIMEOUT_MS.

Definition ota_rx_stale : RX bool :=
  o ← get_ota;
  if negb (o_active o) then mret false
  else
    now ← io xTaskGetTickCount;
    mret (pdMS_TO_TICKS (rx_timeout_ms o) <? u32 (now - o_last_rx_tick o)).

Definition ota_rx_touch : RX unit :=
  now ← io xTaskGetTickCount;
  mod_ota (fun o => o <| o_last_rx_tick := now |>).

Definition ota_note_abort_reason (reason : bytes) : RX unit :=
  mod_rx (fun x => x <| x_last_abort_reason :=
    copy_text 32 (if (length reason =? 0)%nat then RxText.r_unknown else reason) |>).

(** The labels and sizes of the running and the next partition. *)
Definition fill_ota_slot_info : ST W (bytes * bytes * Z * Z) :=
  running ← esp_ota_get_running_partition;
  update ← esp_ota_get_next_update_partition;
  mret (text_array 8 (from_option label [] running), text_array 8 (from_option label [] update),
        from_option (fun p => u32 (size p)) 0 running, from_option (fun p => u32 (size p)) 0 update).

Definition send_status (op code seq offset total : Z) (msg : bytes) : RX unit :=
  mod_rx (fun x => x <| x_status_counter := u32 (x_status_counter x + 1) |>) ;;
  x ← get_rx;
  mac ← io keemash_mesh_get_local_mac;
  '(running_label, update_label, running_size, update_size) ← io fill_ota_slot_info;
  _ ← io (keemash_mesh_transport_send mac_zero_addr (encode_ota_status
    {| os_h := {| ph_magic := MESH_PKT_MAGIC; ph_version := MESH_PKT_VERSION;
                  ph_type := MESH_OTA_TYPE_STATUS; ph_reserved := 0;
                  ph_counter := x_status_counter x; ph_src_mac := mac |};
       os_op := op; os_code := code; os_seq := seq; os_offset := offset; os_total := total;
       os_message := text_array 64 msg; os_running_label := running_label;
       os_update_label := update_label; os_running_size := running_size;
       os_update_size := update_size |}));
  mret tt.

Definition send_status_v2 (op code op_id offset total : Z) (msg : bytes) : RX unit :=
  '(running_label, update_label, running_size, update_size) ← io fill_ota_slot_info;
  _ ← io (mesh_v2_node_send_ota_status
    {| vs_c := {| vc_op := MESH_V2_OTA_OP_STATUS; vc_status := code; vc_rsv := op;
                  vc_op_id := op_id; vc_image_size := total; vc_offset := offset;
                  vc_len := offset; vc_project_name := zeros 32; vc_version := zeros 32;
                  vc_sha256 := zeros 32; vc_message := text_array 64 msg |};
       vs_running_label := running_label; vs_update_label := update_label;
       vs_running_size := running_size; vs_update_size := update_size |});
  mret tt.

(** [acc |= sha[i]] over the 32 bytes. *)
Definition sha_is_zero (sha : bytes) : bool := fold_left Z.lor (take 32 sha) 0 =? 0.

(** *** The image hash *)

Definition ota_hash_free : RX unit :=
  mod_ota (fun o =>
    if o_sha_active o then (o <| o_sha_ctx := md_zero |>) <| o_sha_active := false |> else o).

Definition ota_hash_start (expected : bytes) : RX esp_err_t :=
  if negb sha256_supported then mret ESP_ERR_INVALID_ARG
  else
    ota_hash_free ;;
    match mbedtls_md_setup md_zero ≫= mbedtls_md_starts with
    | None => mod_ota (fun o => o <| o_sha_ctx := md_zero |>) ;; mret ESP_FAIL
    | Some ctx =>
        mod_ota (fun o =>
          let o := o <| o_sha_ctx := ctx |> in
          let o := if sha_is_zero expected then o else o <| o_sha256 := take 32 expected |> in
          o <| o_sha_active := true |>) ;;
        mret ESP_OK
    end.

Definition ota_hash_update (data : bytes) : RX esp_err_t :=
  o ← get_ota;
  if negb (o_sha_active o) || (blen data =? 0) then mret ESP_ERR_INVALID_STATE
  else
    match mbedtls_md_update (o_sha_ctx o) data with
    | Some ctx => mod_ota (fun o => o <| o_sha_ctx := ctx |>) ;; mret ESP_OK
    | None => mret ESP_FAIL
    end.

Definition ota_hash_finish_and_check : RX esp_err_t :=
  o ← get_ota;
  if negb (o_sha_active o) then mret ESP_ERR_INVALID_STATE
  else
    ota_hash_free ;;
    mret (match mbedtls_md_finish (o_sha_ctx o) with
          | None => ESP_FAIL
          | Some got => if bytes_eqb got (o_sha256 o) then ESP_OK else ESP_ERR_INVALID_CRC
          end).

(** *** Giving up *)

Definition finish_abort : RX unit :=
  o ← get_ota;
  when (o_active o) (_ ← io (esp_ota_abort (o_handle o)); mret tt) ;;
  ota_hash_free ;;
  mod_ota (fun _ => ota_zero).

Definition finish_stale_abort : RX unit :=
  stale ← ota_rx_stale;
  when stale (
    o ← get_ota;
    (if o_v2_active o
     then send_status_v2 MESH_V2_OTA_OP_ABORT MESH_V2_OTA_STATUS_ERROR (o_op_id o)
            (o_written o) (o_image_size o) RxText.timeout_abort
     else send_status MESH_OTA_OP_ABORT MESH_OTA_STATUS_ERROR (o_last_seq o)
            (o_written o) (o_image_size o) RxText.timeout_abort) ;;
    ota_note_abort_reason RxText.r_timeout ;;
    finish_abort).

(** One round of the watchdog's loop. *)
Definition ota_watchdog_round : RX unit :=
  x ← get_rx;
  when (x_lock x) (
    taken ← io (mutex_take 1000);
    when taken finish_stale_abort).

Definition reboot : RX unit :=
  ok ← io start_reboot_task;
  when (negb ok) (io delay_and_restart).

(** A failed call reports its error by name. *)
Definition failure_text (what : bytes) (err : esp_err_t) : bytes :=
  snprintf 64 (what ++ esp_err_to_name err).

Definition expected_project : bytes := from_option id [] esp_app_project.

(** A handler that answers the request and returns. *)
Definition reply (m : RX unit) (err : esp_err_t) : RX esp_err_t := m ;; mret err.

(** ** V1 packets *)

Section V1.

Definition begin_status (code : Z) (p : mesh_ota_begin_packet_t) (offset total : Z)
  (msg : bytes) : RX unit := send_status MESH_OTA_OP_BEGIN code (ob_seq p) offset total msg.

Definition begin_error (p : mesh_ota_begin_packet_t) (msg : bytes) (err : esp_err_t)
  : RX esp_err_t :=
  reply (begin_status MESH_OTA_STATUS_ERROR p 0 (ob_image_size p) msg) err.

Definition begin_transfer (p : mesh_ota_begin_packet_t) (partition : esp_partition_t)
  (handle : Z) : RX esp_err_t :=
  mod_ota (fun _ => ota_zero) ;;
  ota_note_abort_reason RxText.r_v1_prepare ;;
  mod_ota (fun o =>
    let o := o <| o_active := true |> in
    let o := o <| o_handle := handle |> in
    let o := o <| o_partition := Some partition |> in
    let o := o <| o_image_size := ob_image_size p |> in
    o <| o_last_seq := ob_seq p |>) ;;
  ota_rx_touch ;;
  mod_rx (fun x => x <| x_reboot_pending := false |>) ;;
  reply (begin_status MESH_OTA_STATUS_OK p 0 (ob_image_size p) (label partition)) ESP_OK.

(** The same BEGIN again, before any data: answered as the first time. *)
Definition repeats_begin (o : mesh_ota_rx_state_t) (p : mesh_ota_begin_packet_t)
  : option esp_partition_t :=
  if (ob_seq p =? o_last_seq o) && (o_written o =? 0) && (ob_image_size p =? o_image_size o)
  then o_partition o else None.

Definition handle_begin (p : mesh_ota_begin_packet_t) : RX esp_err_t :=
  x ← get_rx;
  if x_reboot_pending x then
    reply (begin_status MESH_OTA_STATUS_BUSY p (x_reboot_total x) (x_reboot_total x)
             RxText.reboot_pending) ESP_ERR_INVALID_STATE
  else
    finish_stale_abort ;;
    o ← get_ota;
    if o_active o then
      match repeats_begin o p with
      | Some partition =>
          ota_rx_touch ;;
          reply (begin_status MESH_OTA_STATUS_OK p 0 (o_image_size o) (label partition)) ESP_OK
      | None =>
          reply (begin_status MESH_OTA_STATUS_BUSY p (o_written o) (o_image_size o)
                   RxText.already_active) ESP_ERR_INVALID_STATE
      end
    else if negb (packet_text_equals (ob_project_name p) expected_project) then
      begin_error p (snprintf 64 (RxText.wrong_project ++ copy_packet_text 33 (ob_project_name p)))
        ESP_ERR_INVALID_ARG
    else if (ob_chunk_size p =? 0) || (MESH_OTA_CHUNK_MAX <? ob_chunk_size p)
            || (ob_image_size p =? 0) then
      begin_error p RxText.bad_begin ESP_ERR_INVALID_ARG
    else
      partition ← io esp_ota_get_next_update_partition;
      match partition with
      | None => begin_error p RxText.no_partition ESP_ERR_NOT_FOUND
      | Some partition =>
          if size partition <? ob_image_size p then
            begin_error p RxText.too_large ESP_ERR_INVALID_SIZE
          else
            opened ← io (esp_ota_begin partition (ob_image_size p));
            match opened with
            | inl err => begin_error p (failure_text RxText.begin_failed err) err
            | inr handle => begin_transfer p partition handle
            end
      end.

(** The answer to a DATA packet carries the progress. *)
Definition data_status (code : Z) (p : mesh_ota_data_packet_t) (msg : bytes) : RX unit :=
  o ← get_ota;
  send_status MESH_OTA_OP_DATA code (od_seq p) (o_written o) (o_image_size o) msg.

Definition accept_data (p : mesh_ota_data_packet_t) : RX esp_err_t :=
  o ← get_ota;
  err ← io (esp_ota_write (o_handle o) (take (Z.to_nat (od_len p)) (od_data p)));
  if negb (err_eqb err ESP_OK) then
    data_status MESH_OTA_STATUS_ERROR p (failure_text RxText.write_failed err) ;;
    finish_abort ;;
    mret err
  else
    mod_ota (fun o => (o <| o_written := u32 (o_written o + od_len p) |>)
                        <| o_last_seq := od_seq p |>) ;;
    ota_rx_touch ;;
    reply (data_status MESH_OTA_STATUS_OK p RxText.chunk_ok) ESP_OK.

Definition handle_data (p : mesh_ota_data_packet_t) (pkt_len : Z) : RX esp_err_t :=
  finish_stale_abort ;;
  o ← get_ota;
  if negb (o_active o) then
    reply (send_status MESH_OTA_OP_DATA MESH_OTA_STATUS_ERROR (od_seq p) 0 0 RxText.not_active)
      ESP_ERR_INVALID_STATE
  else if (od_len p =? 0) || (MESH_OTA_CHUNK_MAX <? od_len p)
          || (pkt_len <? Z.of_nat offsetof_ota_data + od_len p) then
    reply (data_status MESH_OTA_STATUS_ERROR p RxText.bad_chunk) ESP_ERR_INVALID_SIZE
  else if negb (od_offset p =? o_written o)
          || (o_image_size o <? u32 (od_offset p + od_len p)) then
    if (od_seq p =? o_last_seq o) && (od_offset p <? o_written o)
       && (u32 (od_offset p + od_len p) =? o_written o) then
      ota_rx_touch ;;
      reply (data_status MESH_OTA_STATUS_OK p RxText.duplicate_chunk) ESP_OK
    else reply (data_status MESH_OTA_STATUS_ERROR p RxText.offset_mismatch) ESP_ERR_INVALID_ARG
  else accept_data p.

Definition end_status (code : Z) (p : mesh_ota_end_packet_t) (msg : bytes) : RX unit :=
  o ← get_ota;
  send_status MESH_OTA_OP_END code (oe_seq p) (o_written o) (o_image_size o) msg.

(** The image is complete: the next boot uses it. *)
Definition end_success (p : mesh_ota_end_packet_t) : RX esp_err_t :=
  mod_rx (fun x =>
    let x := x <| x_reboot_pending := true |> in
    let x := x <| x_reboot_end_seq := oe_seq p |> in
    x <| x_reboot_total := o_image_size (x_ota x) |>) ;;
  end_status MESH_OTA_STATUS_OK p RxText.ota_ok ;;
  mod_ota (fun _ => ota_zero) ;;
  reply reboot ESP_OK.

(** [esp_ota_set_boot_partition(s_ota.partition)]; a NULL partition is refused. *)
Definition set_boot (partition : option esp_partition_t) : ST W esp_err_t :=
  match partition with
  | Some partition => esp_ota_set_boot_partition partition
  | None => mret ESP_ERR_INVALID_ARG
  end.

Definition handle_end (p : mesh_ota_end_packet_t) : RX esp_err_t :=
  x ← get_rx;
  if x_reboot_pending x && (oe_seq p =? x_reboot_end_seq x)
     && (oe_image_size p =? x_reboot_total x) then
    reply (send_status MESH_OTA_OP_END MESH_OTA_STATUS_OK (oe_seq p) (x_reboot_total x)
             (x_reboot_total x) RxText.ota_ok) ESP_OK
  else
    finish_stale_abort ;;
    o ← get_ota;
    if negb (o_active o) then
      reply (send_status MESH_OTA_OP_END MESH_OTA_STATUS_ERROR (oe_seq p) 0 0 RxText.not_active)
        ESP_ERR_INVALID_STATE
    else if negb (oe_image_size p =? o_image_size o) || negb (o_written o =? o_image_size o) then
      end_status MESH_OTA_STATUS_ERROR p RxText.size_mismatch ;;
      reply finish_abort ESP_ERR_INVALID_SIZE
    else
      err ← io (esp_ota_end (o_handle o));
      if negb (err_eqb err ESP_OK) then
        end_status MESH_OTA_STATUS_ERROR p (failure_text RxText.end_failed err) ;;
        reply finish_abort err
      else
        err ← io (set_boot (o_partition o));
        if negb (err_eqb err ESP_OK) then
          end_status MESH_OTA_STATUS_ERROR p (failure_text RxText.set_boot_failed err) ;;
          reply (mod_ota (fun _ => ota_zero)) err
        else end_success p.

Definition handle_abort (p : mesh_ota_abort_packet_t) : RX esp_err_t :=
  x ← get_rx;
  if x_reboot_pending x then
    reply (send_status MESH_OTA_OP_ABORT MESH_OTA_STATUS_BUSY (oa_seq p) (x_reboot_total x)
             (x_reboot_total x) RxText.reboot_pending) ESP_ERR_INVALID_STATE
  else
    finish_abort ;;
    ota_note_abort_reason RxText.r_v1_abort ;;
    reply (send_status MESH_OTA_OP_ABORT MESH_OTA_STATUS_OK (oa_seq p) 0 0 RxText.ota_aborted)
      ESP_OK.

End V1.

(** ** V2 payloads *)

Section V2.

Definition prepare_status (code : Z) (c : mesh_v2_ota_common_payload_t) (offset total : Z)
  (msg : bytes) : RX unit :=
  send_status_v2 MESH_V2_OTA_OP_PREPARE code (vc_op_id c) offset total msg.

Definition prepare_error (c : mesh_v2_ota_common_payload_t) (msg : bytes) (err : esp_err_t)
  : RX esp_err_t :=
  reply (prepare_status MESH_V2_OTA_STATUS_ERROR c 0 (vc_image_size c) msg) err.

Definition prepare_transfer (c : mesh_v2_ota_common_payload_t) (partition : esp_partition_t)
  (handle : Z) : RX esp_err_t :=
  mod_ota (fun _ => ota_zero) ;;
  ota_note_abort_reason RxText.r_v2_prepare ;;
  mod_ota (fun o =>
    let o := o <| o_active := true |> in
    let o := o <| o_v2_active := true |> in
    let o := o <| o_handle := handle |> in
    let o := o <| o_partition := Some partition |> in
    let o := o <| o_image_size := vc_image_size c |> in
    o <| o_op_id := vc_op_id c |>) ;;
  ota_rx_touch ;;
  mod_rx (fun x => x <| x_reboot_pending := false |>) ;;
  err ← ota_hash_start (vc_sha256 c);
  if negb (err_eqb err ESP_OK) then finish_abort ;; prepare_error c RxText.sha_init_failed err
  else
    reply (prepare_status MESH_V2_OTA_STATUS_OK c 0 (vc_image_size c) (label partition)) ESP_OK.

Definition repeats_v2_prepare (o : mesh_ota_rx_state_t) (c : mesh_v2_ota_common_payload_t)
  : option esp_partition_t :=
  if o_v2_active o && (vc_op_id c =? o_op_id o) && (o_written o =? 0)
     && (vc_image_size c =? o_image_size o)
  then o_partition o else None.

Definition handle_v2_prepare (c : mesh_v2_ota_common_payload_t) : RX esp_err_t :=
  x ← get_rx;
  if x_reboot_pending x then
    reply (prepare_status MESH_V2_OTA_STATUS_BUSY c (x_reboot_total x) (x_reboot_total x)
             RxText.reboot_pending) ESP_ERR_INVALID_STATE
  else
    finish_stale_abort ;;
    o ← get_ota;
    if o_active o then
      match repeats_v2_prepare o c with
      | Some partition =>
          ota_rx_touch ;;
          reply (prepare_status MESH_V2_OTA_STATUS_OK c 0 (o_image_size o) (label partition))
            ESP_OK
      | None =>
          reply (prepare_status MESH_V2_OTA_STATUS_BUSY c (o_written o) (o_image_size o)
                   RxText.already_active) ESP_ERR_INVALID_STATE
      end
    else if negb (packet_text_equals (vc_project_name c) expected_project) then
      prepare_error c
        (snprintf 64 (RxText.wrong_project ++ copy_packet_text 33 (vc_project_name c)))
        ESP_ERR_INVALID_ARG
    else if (vc_op_id c =? 0) || (vc_image_size c =? 0) || (vc_len c =? 0)
            || (MESH_V2_OTA_CHUNK_MAX <? vc_len c) then
      prepare_error c RxText.bad_prepare ESP_ERR_INVALID_ARG
    else
      partition ← io esp_ota_get_next_update_partition;
      match partition with
      | None => prepare_error c RxText.no_partition ESP_ERR_NOT_FOUND
      | Some partition =>
          if size partition <? vc_image_size c then
            prepare_error c RxText.too_large ESP_ERR_INVALID_SIZE
          else
            opened ← io (esp_ota_begin partition (vc_image_size c));
            match opened with
            | inl err => prepare_error c (failure_text RxText.begin_failed err) err
            | inr handle => prepare_transfer c partition handle
            end
      end.

(** The answer to a DATA or COMMIT payload carries the progress. *)
Definition progress_status (op code : Z) (c : mesh_v2_ota_common_payload_t) (msg : bytes)
  : RX unit :=
  o ← get_ota;
  send_status_v2 op code (vc_op_id c) (o_written o) (o_image_size o) msg.

Definition not_this_transfer (o : mesh_ota_rx_state_t) (c : mesh_v2_ota_common_payload_t)
  : bool := negb (o_active o) || negb (o_v2_active o) || negb (vc_op_id c =? o_op_id o).

(** "not active a=%u v=%u cur=%lu r=%s" *)
Definition not_active_text (x : ota_receiver) : bytes :=
  let flag (b : bool) := decimal (if b then 1 else 0) in
  snprintf 64 (RxText.not_active_a ++ flag (o_active (x_ota x)) ++ RxText.space_v ++
    flag (o_v2_active (x_ota x)) ++ RxText.space_cur ++ decimal (o_op_id (x_ota x)) ++
    RxText.space_r ++ x_last_abort_reason x).

Definition refuse_transfer (op : Z) (c : mesh_v2_ota_common_payload_t) : RX esp_err_t :=
  x ← get_rx;
  reply (progress_status op MESH_V2_OTA_STATUS_ERROR c (not_active_text x)) ESP_ERR_INVALID_STATE.

(** The transfer is given up for a reason. *)
Definition fail_transfer (op : Z) (c : mesh_v2_ota_common_payload_t) (msg reason : bytes)
  (err : esp_err_t) : RX esp_err_t :=
  progress_status op MESH_V2_OTA_STATUS_ERROR c msg ;;
  ota_note_abort_reason reason ;;
  reply finish_abort err.

Definition accept_v2_data (c : mesh_v2_ota_common_payload_t) (data : bytes) : RX esp_err_t :=
  let chunk := take (Z.to_nat (vc_len c)) data in
  o ← get_ota;
  err ← io (esp_ota_write (o_handle o) chunk);
  err ← if err_eqb err ESP_OK then ota_hash_update chunk else mret err;
  if negb (err_eqb err ESP_OK) then
    fail_transfer MESH_V2_OTA_OP_DATA c (failure_text RxText.write_hash_failed err)
      RxText.r_write_hash err
  else
    mod_ota (fun o => o <| o_written := u32 (o_written o + vc_len c) |>) ;;
    ota_rx_touch ;;
    reply (progress_status MESH_V2_OTA_OP_DATA MESH_V2_OTA_STATUS_OK c RxText.chunk_ok) ESP_OK.

Definition handle_v2_data (c : mesh_v2_ota_common_payload_t) (data : bytes) (payload_len : Z)
  : RX esp_err_t :=
  finish_stale_abort ;;
  o ← get_ota;
  if not_this_transfer o c then refuse_transfer MESH_V2_OTA_OP_DATA c
  else if (vc_len c =? 0) || (MESH_V2_OTA_CHUNK_MAX <? vc_len c)
          || (payload_len <? Z.of_nat sizeof_v2_common + vc_len c)
          || (o_image_size o <? u32 (vc_offset c + vc_len c)) then
    reply (progress_status MESH_V2_OTA_OP_DATA MESH_V2_OTA_STATUS_ERROR c RxText.bad_chunk)
      ESP_ERR_INVALID_SIZE
  else if negb (vc_offset c =? o_written o) then
    if (vc_offset c <? o_written o) && (u32 (vc_offset c + vc_len c) <=? o_written o) then
      ota_rx_touch ;;
      reply (progress_status MESH_V2_OTA_OP_DATA MESH_V2_OTA_STATUS_OK c RxText.duplicate_chunk)
        ESP_OK
    else
      reply (progress_status MESH_V2_OTA_OP_DATA MESH_V2_OTA_STATUS_ERROR c
               RxText.offset_mismatch) ESP_ERR_INVALID_ARG
  else accept_v2_data c data.

Definition commit_success (c : mesh_v2_ota_common_payload_t) : RX esp_err_t :=
  o ← get_ota;
  let total := o_image_size o in
  let op_id := o_op_id o in
  mod_rx (fun x =>
    let x := x <| x_reboot_pending := true |> in
    let x := x <| x_reboot_end_seq := 0 |> in
    let x := x <| x_reboot_v2_op_id := op_id |> in
    x <| x_reboot_total := total |>) ;;
  send_status_v2 MESH_V2_OTA_OP_COMMIT MESH_V2_OTA_STATUS_OK op_id total total RxText.ota_ok ;;
  mod_ota (fun _ => ota_zero) ;;
  reply reboot ESP_OK.

(** The image has the announced hash: close it and select its partition. *)
Definition close_v2_image (c : mesh_v2_ota_common_payload_t) : RX esp_err_t :=
  o ← get_ota;
  err ← io (esp_ota_end (o_handle o));
  if negb (err_eqb err ESP_OK) then
    fail_transfer MESH_V2_OTA_OP_COMMIT c (failure_text RxText.end_failed err) RxText.r_ota_end err
  else
    err ← io (set_boot (o_partition o));
    if negb (err_eqb err ESP_OK) then
      progress_status MESH_V2_OTA_OP_COMMIT MESH_V2_OTA_STATUS_ERROR c
        (failure_text RxText.set_boot_failed err) ;;
      reply (mod_ota (fun _ => ota_zero)) err
    else commit_success c.

Definition check_v2_hash (c : mesh_v2_ota_common_payload_t) : RX esp_err_t :=
  let fail := fail_transfer MESH_V2_OTA_OP_COMMIT c in
  o ← get_ota;
  if sha_is_zero (vc_sha256 c) then
    fail RxText.missing_sha RxText.r_missing_sha ESP_ERR_INVALID_ARG
  else if negb (sha_is_zero (o_sha256 o)) && negb (bytes_eqb (vc_sha256 c) (o_sha256 o)) then
    fail RxText.sha_mismatch RxText.r_sha ESP_ERR_INVALID_CRC
  else
    mod_ota (fun o => o <| o_sha256 := vc_sha256 c |>) ;;
    err ← ota_hash_finish_and_check;
    if negb (err_eqb err ESP_OK) then
      fail RxText.sha_mismatch RxText.r_sha ESP_ERR_INVALID_CRC
    else close_v2_image c.

Definition handle_v2_commit (c : mesh_v2_ota_common_payload_t) : RX esp_err_t :=
  x ← get_rx;
  if x_reboot_pending x && (vc_op_id c =? x_reboot_v2_op_id x) then
    reply (send_status_v2 MESH_V2_OTA_OP_COMMIT MESH_V2_OTA_STATUS_OK (vc_op_id c)
             (x_reboot_total x) (x_reboot_total x) RxText.ota_ok) ESP_OK
  else
    finish_stale_abort ;;
    o ← get_ota;
    if not_this_transfer o c then refuse_transfer MESH_V2_OTA_OP_COMMIT c
    else if negb (vc_image_size c =? o_image_size o) || negb (o_written o =? o_image_size o) then
      fail_transfer MESH_V2_OTA_OP_COMMIT c RxText.size_mismatch RxText.r_size
        ESP_ERR_INVALID_SIZE
    else check_v2_hash c.

Definition handle_v2_abort (c : mesh_v2_ota_common_payload_t) : RX esp_err_t :=
  let op_id := vc_op_id c in
  let status := send_status_v2 MESH_V2_OTA_OP_ABORT in
  x ← get_rx;
  let o := x_ota x in
  if x_reboot_pending x then
    reply (status MESH_V2_OTA_STATUS_BUSY op_id (x_reboot_total x) (x_reboot_total x)
             RxText.reboot_pending) ESP_ERR_INVALID_STATE
  else if o_active o && o_v2_active o && negb (op_id =? o_op_id o) then
    reply (status MESH_V2_OTA_STATUS_OK op_id (o_written o) (o_image_size o) RxText.stale_abort)
      ESP_OK
  else
    ota_note_abort_reason RxText.r_v2_abort ;;
    finish_abort ;;
    reply (status MESH_V2_OTA_STATUS_OK op_id 0 0 RxText.ota_aborted) ESP_OK.

(** The least length of a payload with this operation; [None] for an unknown
    one.  The prepare, commit and abort payloads are the common part only, the
    data payload adds its bytes. *)
Definition v2_min_len (op : Z) : option nat :=
  if op =? MESH_V2_OTA_OP_PREPARE then Some sizeof_v2_common
  else if op =? MESH_V2_OTA_OP_DATA then Some sizeof_v2_common
  else if op =? MESH_V2_OTA_OP_COMMIT then Some sizeof_v2_common
  else if op =? MESH_V2_OTA_OP_ABORT then Some sizeof_v2_common
  else None.

Definition process_v2_payload_locked (payload : bytes) : RX esp_err_t :=
  let c := decode_v2_common payload in
  match v2_min_len (vc_op c) with
  | None => mret ESP_ERR_INVALID_ARG
  | Some min_len =>
      if (length payload <? min_len)%nat then mret ESP_ERR_INVALID_SIZE
      else if vc_op c =? MESH_V2_OTA_OP_PREPARE then handle_v2_prepare c
      else if vc_op c =? MESH_V2_OTA_OP_DATA then
        handle_v2_data c (v2_data payload) (blen payload)
      else if vc_op c =? MESH_V2_OTA_OP_COMMIT then handle_v2_commit c
      else handle_v2_abort c
  end.

End V2.

(** ** The worker and its queue *)

(** One round of the worker's loop, [None] when the queue is empty (the task
    sleeps). *)
Definition ota_v2_worker_round : RX (option unit) :=
  x ← get_rx;
  match x_v2_queue x with
  | Some (payload :: queue) =>
      mod_rx (fun x => x <| x_v2_queue := Some queue |>) ;;
      (if negb (x_lock x) then mret tt
       else
         taken ← io (mutex_take 3000);
         if negb taken then
           let c := decode_v2_common payload in
           when (sizeof_v2_common <=? length payload)%nat
             (send_status_v2 (vc_op c) MESH_V2_OTA_STATUS_ERROR (vc_op_id c) 0 (vc_image_size c)
                RxText.lock_timeout)
         else (_ ← process_v2_payload_locked payload; mret tt)) ;;
      mret (Some tt)
  | _ => mret None
  end.

(** [xQueueSend]: it waits for room, but only so long; the wait is over when it
    returns. *)
Definition queue_send (payload : bytes) : RX bool :=
  x ← get_rx;
  match x_v2_queue x with
  | Some queue =>
      if (length queue <? MESH_OTA_V2_QUEUE_LEN)%nat
      then mod_rx (fun x => x <| x_v2_queue := Some (queue ++ [payload]) |>) ;; mret true
      else mret false
  | None => mret false
  end.

Definition keemash_mesh_ota_receiver_handle_v2 (payload : bytes) : RX esp_err_t :=
  v3 ← io keemash_mesh_ota_v3_receiver_active;
  if (v3 : bool) then mret ESP_ERR_INVALID_STATE
  else if (length payload <? sizeof_v2_common)%nat then mret ESP_ERR_INVALID_SIZE
  else
    x ← get_rx;
    if negb (x_lock x) || match x_v2_queue x with None => true | Some _ => false end
    then mret ESP_ERR_INVALID_STATE
    else if (sizeof_v2_data <? length payload)%nat then mret ESP_ERR_INVALID_SIZE
    else
      let c := decode_v2_common payload in
      match v2_min_len (vc_op c) with
      | None => mret ESP_ERR_INVALID_ARG
      | Some min_len =>
          if (length payload <? min_len)%nat then mret ESP_ERR_INVALID_SIZE
          else
            sent ← queue_send payload;
            if (sent : bool) then mret ESP_OK
            else
              reply (send_status_v2 (vc_op c) MESH_V2_OTA_STATUS_BUSY (vc_op_id c) 0
                       (vc_image_size c) RxText.worker_busy) ESP_ERR_TIMEOUT
      end.

(** ** Packets, start and status *)

(** The switch over the packet type, under the lock. *)
Definition process_v1_packet_locked (pkt : bytes) : RX esp_err_t :=
  let type := ph_type (decode_pkt_hdr pkt) in
  let sized (n : nat) (m : RX esp_err_t) : RX esp_err_t :=
    if (length pkt <? n)%nat then mret ESP_ERR_INVALID_SIZE else m in
  if type =? MESH_OTA_TYPE_BEGIN then sized sizeof_ota_begin (handle_begin (decode_ota_begin pkt))
  else if type =? MESH_OTA_TYPE_DATA then
    sized offsetof_ota_data (handle_data (decode_ota_data pkt) (blen pkt))
  else if type =? MESH_OTA_TYPE_END then sized sizeof_ota_end (handle_end (decode_ota_end pkt))
  else if type =? MESH_OTA_TYPE_ABORT then
    sized sizeof_ota_abort (handle_abort (decode_ota_abort pkt))
  else mret ESP_ERR_INVALID_ARG.

Definition keemash_mesh_ota_receiver_handle_rx (pkt : bytes) : RX esp_err_t :=
  v3 ← io keemash_mesh_ota_v3_receiver_active;
  if (v3 : bool) then mret ESP_ERR_INVALID_STATE
  else if (length pkt <? sizeof_pkt_hdr)%nat then mret ESP_ERR_INVALID_SIZE
  else
    x ← get_rx;
    if negb (x_lock x) then mret ESP_ERR_INVALID_STATE
    else
      let h := decode_pkt_hdr pkt in
      if negb (ph_magic h =? MESH_PKT_MAGIC) || negb (ph_version h =? MESH_PKT_VERSION)
      then mret ESP_ERR_INVALID_ARG
      else
        taken ← io (mutex_take 3000);
        if negb taken then mret ESP_ERR_TIMEOUT else process_v1_packet_locked pkt.

Definition start_v2_worker : RX esp_err_t :=
  x ← get_rx;
  err ← match x_v2_queue x with
        | Some _ => mret ESP_OK
        | None =>
            ok ← io queue_create;
            if (ok : bool) then mod_rx (fun x => x <| x_v2_queue := Some [] |>) ;; mret ESP_OK
            else mret ESP_ERR_NO_MEM
        end;
  if negb (err_eqb err ESP_OK) then mret err
  else if x_v2_worker x then mret ESP_OK
  else
    ok ← io task_create;
    if (ok : bool) then mod_rx (fun x => x <| x_v2_worker := true |>) ;; mret ESP_OK
    else mret ESP_ERR_NO_MEM.

Definition keemash_mesh_ota_receiver_start : RX esp_err_t :=
  x ← get_rx;
  err ← if x_lock x then mret ESP_OK
        else
          ok ← io mutex_create;
          if (ok : bool) then mod_rx (fun x => x <| x_lock := true |>) ;; mret ESP_OK
          else mret ESP_ERR_NO_MEM;
  if negb (err_eqb err ESP_OK) then mret err
  else
    err ← start_v2_worker;
    if negb (err_eqb err ESP_OK) then mret err
    else if x_watchdog x then mret ESP_OK
    else
      ok ← io task_create;
      if (ok : bool) then mod_rx (fun x => x <| x_watchdog := true |>) ;; mret ESP_OK
      else mret ESP_ERR_NO_MEM.

(** A lock that cannot be had in time counts as a transfer in progress. *)
Definition keemash_mesh_ota_receiver_active : RX bool :=
  x ← get_rx;
  if negb (x_lock x) then mret false
  else
    taken ← io (mutex_take 20);
    if negb taken then mret true
    else o ← get_ota; mret (o_active o).

End Receiver.
