(* ===== verification/OtaRxInv.v ===== *)
(** * The OTA v1/v2 receiver: its invariant

    [rx_ok]: the receiver is idle, or the image behind its handle is as long as
    the counter says, within the announced size and the partition; in the strict
    form the hash of a V2 transfer has absorbed exactly that image.  Every handler
    keeps it; [still] is the frame of everything that only answers. *)

From S2P Require Import Prelude.
From S2P Require Import Words.
From S2P Require Import Esp.
From S2P Require Import Rtos.
From S2P Require Import MeshProto.
From S2P Require Import MeshProtoV1.
From S2P Require Import OtaLib.
From S2P Require Import OtaFlashEnv.
From S2P Require Import OtaRx.
#[local] Open Scope Z_scope.

(** The calls around the receiver do not touch images and partitions; a flash
    partition is far smaller than the 32-bit offsets can address. *)
Class RxLaws (W : Type) (E : FlashEnv W) (V : FlashView W E) (R : RxEnv W) := {
  #[global] rx_rtos_laws :: RtosLaws W same_flash rx_rtos;
  mac_keeps : stable same_flash keemash_mesh_get_local_mac;
  send_keeps : forall mac b, stable same_flash (keemash_mesh_transport_send mac b);
  status_keeps : forall p, stable same_flash (mesh_v2_node_send_ota_status p);
  v3_active_keeps : stable same_flash keemash_mesh_ota_v3_receiver_active;
  reboot_task_keeps : stable same_flash start_reboot_task;
  restart_keeps : stable same_flash delay_and_restart;
  running_keeps : stable same_flash esp_ota_get_running_partition;
  set_boot_keeps : forall p, stable same_flash (esp_ota_set_boot_partition p);
  partition_small : forall p, size p <= 0x7fffffff }.

Section Props.
Context {D : Digest} {HD : DigestLaws D} {W : Type} {Flash : FlashEnv W}
  {View : FlashView W Flash} {HO : OtaLaws W Flash View} {Rx : RxEnv W}
  {HR : RxLaws W Flash View Rx}.

Abbreviation state := (ota_receiver * W)%type.
Abbreviation RX := (ST (ota_receiver * W)).

(** ** Frames *)

(** The transfer is the same up to the time of its last packet, a pending reboot
    is the same, and so is the flash. *)
Definition same_transfer (o o' : mesh_ota_rx_state_t) : Prop :=
  o <| o_last_rx_tick := 0 |> = o' <| o_last_rx_tick := 0 |>.

Definition still (s s' : state) : Prop :=
  same_transfer (x_ota s.1) (x_ota s'.1) /\
  (x_reboot_pending s'.1 = x_reboot_pending s.1 /\
   x_reboot_v2_op_id s'.1 = x_reboot_v2_op_id s.1 /\
   x_reboot_total s'.1 = x_reboot_total s.1) /\
  same_flash s.2 s'.2.

#[export] Instance still_preorder : PreOrder still.
Proof.
  split.
  - intros [x w]. split; [done|]. split; [done|reflexivity].
  - intros [x w] [x' w'] [x'' w''] (H1 & H2 & H3) (H1' & H2' & H3').
    split; [|split; [cbn in *; intuition congruence|by transitivity w']].
    unfold same_transfer in *. by rewrite H1.
Qed.

Lemma io_still {A : Type} (m : ST W A) : stable same_flash m -> stable still (io m).
Proof.
  intros H [x w]. unfold io. specialize (H w). destruct (m w) as [a w'].
  split; [done|]. split; done.
Qed.

Lemma mod_rx_still f :
  (forall x, x_ota (f x) = x_ota x /\ x_reboot_pending (f x) = x_reboot_pending x /\
     x_reboot_v2_op_id (f x) = x_reboot_v2_op_id x /\ x_reboot_total (f x) = x_reboot_total x) ->
  stable still (mod_rx f).
Proof.
  intros H [x w]. destruct (H x) as (H1 & H2). unfold mod_rx, modify. cbn.
  split; [|split; [done|reflexivity]]. unfold same_transfer. cbn. by rewrite H1.
Qed.

Lemma stable_get_rx (R : relation state) `{!PreOrder R} : stable R get_rx.
Proof. by apply stable_gets. Qed.
Lemma stable_get_ota (R : relation state) `{!PreOrder R} : stable R get_ota.
Proof. by apply stable_gets. Qed.

#[local] Hint Resolve mac_keeps send_keeps status_keeps v3_active_keeps
  reboot_task_keeps restart_keeps running_keeps set_boot_keeps next_keeps : stable.
#[local] Hint Resolve io_still : stable.
#[local] Hint Extern 1 (stable _ get_rx) => apply stable_get_rx; apply _ : stable.
#[local] Hint Extern 1 (stable _ get_ota) => apply stable_get_ota; apply _ : stable.

Lemma slot_info_keeps : stable same_flash fill_ota_slot_info.
Proof. unfold fill_ota_slot_info. stable_auto. Qed.
#[local] Hint Resolve slot_info_keeps : stable.

Lemma send_status_still op code seq off total msg :
  stable still (send_status op code seq off total msg).
Proof. unfold send_status. stable_auto. by apply mod_rx_still. Qed.

Lemma send_status_v2_still op code id off total msg :
  stable still (send_status_v2 op code id off total msg).
Proof. unfold send_status_v2. stable_auto. Qed.

Lemma touch_still : stable still ota_rx_touch.
Proof.
  unfold ota_rx_touch. stable_auto. intros [x w].
  split; [done|]. split; [done|reflexivity].
Qed.

Lemma note_still reason : stable still (ota_note_abort_reason reason).
Proof. unfold ota_note_abort_reason. by apply mod_rx_still. Qed.

Lemma stale_still : stable still ota_rx_stale.
Proof. unfold ota_rx_stale. stable_auto. Qed.

#[local] Hint Resolve send_status_still send_status_v2_still touch_still note_still
  stale_still : stable.

Lemma reply_still m e : stable still m -> stable still (reply m e).
Proof. intros H. unfold reply. stable_auto. Qed.
#[local] Hint Resolve reply_still : stable.

Lemma reboot_still : stable still reboot.
Proof. unfold reboot. stable_auto. Qed.
#[local] Hint Resolve reboot_still : stable.

Lemma reply_code m e s : (reply m e s).1 = e.
Proof. unfold reply. by rewrite bind_eq. Qed.

(** Any variable outside the transfer may change as well. *)
Definition calm (s s' : state) : Prop :=
  same_transfer (x_ota s.1) (x_ota s'.1) /\ same_flash s.2 s'.2.

Lemma still_calm s s' : still s s' -> calm s s'.
Proof. intros (H1 & _ & H2). by split. Qed.

Definition closed (P : state -> Prop) : Prop := forall s s', calm s s' -> P s -> P s'.

Lemma triple_still {A} P (m : RX A) : stable still m -> closed P -> triple P m (fun _ => P).
Proof. intros Hm HP. apply (triple_stable still); [done|]. intros s s' H. by apply HP, still_calm. Qed.

Lemma triple_mod_rx P f :
  closed P -> (forall x, x_ota (f x) = x_ota x) -> triple P (mod_rx f) (fun _ => P).
Proof.
  intros HP Hf. apply triple_modify. intros [x w]. apply HP.
  split; [|reflexivity]. unfold same_transfer. cbn. by rewrite Hf.
Qed.

(** ** The invariant *)

Inductive rx_ok (strict : bool) (o : mesh_ota_rx_state_t) (w : W) : Prop :=
  | rx_idle : same_transfer ota_zero o -> rx_ok strict o w
  | rx_transfer p :
      o_active o = true -> o_partition o = Some p ->
      ota_partition w (o_handle o) = Some p ->
      blen (ota_image w (o_handle o)) = o_written o ->
      o_written o <= o_image_size o -> o_image_size o <= size p -> is_u32 (o_image_size o) ->
      (strict = true -> o_v2_active o = true ->
       o_sha_active o = true /\ md_held (o_sha_ctx o) = ota_image w (o_handle o)) ->
      rx_ok strict o w.

Definition inv (strict : bool) (s : state) : Prop := rx_ok strict (x_ota s.1) s.2.
Definition idle (s : state) : Prop := same_transfer ota_zero (x_ota s.1).

Lemma same_transfer_fields o o' :
  same_transfer o o' ->
  (o_active o' = o_active o /\ o_handle o' = o_handle o /\ o_partition o' = o_partition o /\
   o_image_size o' = o_image_size o /\ o_written o' = o_written o) /\
  (o_v2_active o' = o_v2_active o /\ o_sha_active o' = o_sha_active o /\
   o_sha_ctx o' = o_sha_ctx o /\ o_sha256 o' = o_sha256 o /\ o_op_id o' = o_op_id o).
Proof. destruct o, o'. unfold same_transfer. cbn. intros [=]. subst. done. Qed.

Lemma inv_closed strict : closed (inv strict).
Proof.
  intros [x w] [x' w'] [Ho Hw] H. cbn in Ho, Hw. unfold inv in *. cbn in *.
  destruct H as [Hz|p Ha Hp Hh Hl H1 H2 H3 Hs]; [left; unfold same_transfer in *; congruence|].
  destruct (same_transfer_fields _ _ Ho) as ((E1&E2&E3&E4&E5)&E6&E7&E8&_).
  destruct Hw as [_ Hw]. destruct (Hw (o_handle (x_ota x))) as [Hv1 Hv2].
  apply (rx_transfer _ _ _ p); rewrite ?E1, ?E2, ?E3, ?E4, ?E5, ?E6, ?E7, ?E8, ?Hv1, ?Hv2; done.
Qed.

Lemma idle_closed : closed idle.
Proof. intros s s' [Ho _]. unfold idle, same_transfer in *. congruence. Qed.

Lemma idle_inv strict s : idle s -> inv strict s.
Proof. by left. Qed.

Lemma inactive_idle strict s : inv strict s -> o_active (x_ota s.1) = false -> idle s.
Proof. intros [H|p H] E; [done|]. congruence. Qed.

Lemma to_zero_idle P : triple P (mod_ota (fun _ => ota_zero)) (fun _ => idle).
Proof. by intros [x w]. Qed.

(** ** Giving up *)

Lemma finish_abort_idle P : triple P finish_abort (fun _ => idle).
Proof.
  unfold finish_abort. do 3 (apply (triple_bind _ (fun _ _ => True)); [done|intros ?]).
  apply to_zero_idle.
Qed.

(** The transfer goes on, or it has been dropped. *)
Lemma finish_stale_abort_cases s :
  still s (finish_stale_abort s).2 \/ idle (finish_stale_abort s).2.
Proof.
  unfold finish_stale_abort. rewrite bind_eq. pose proof (stale_still s) as Hs.
  destruct (ota_rx_stale s) as [[] s1]; cbn [fst snd] in *; [|by left].
  right. cbn [when]. revert s1 Hs. intros s1 _.
  refine (triple_bind (fun _ => True) (fun _ _ => True) _ _ (fun _ => idle) _ _ s1 I);
    [done|intros o].
  do 2 (apply (triple_bind _ (fun _ _ => True)); [done|intros ?]). apply finish_abort_idle.
Qed.

Lemma finish_stale_abort_inv strict : triple (inv strict) finish_stale_abort (fun _ => inv strict).
Proof.
  intros s Hs. destruct (finish_stale_abort_cases s) as [H|H].
  - by apply (inv_closed _ s), Hs; apply still_calm.
  - by apply idle_inv.
Qed.

(** An answer that ends a handler. *)
Lemma reply_inv strict P m e :
  stable still m -> (forall s, P s -> inv strict s) -> triple P (reply m e) (fun _ => inv strict).
Proof.
  intros Hm HP. apply (triple_pre _ (inv strict)); [|done].
  apply triple_still; [by apply reply_still|apply inv_closed].
Qed.

Lemma reply_idle strict P m e :
  triple P m (fun _ => idle) -> triple P (reply m e) (fun _ => inv strict).
Proof.
  intros Hm. apply (triple_seq _ idle); [done|]. intros s Hs. by apply idle_inv.
Qed.

(** ** Opening a transfer *)

(** A new handle for a partition, with nothing written. *)
Definition opened (p : esp_partition_t) (h : Z) (s : state) : Prop :=
  ota_partition s.2 h = Some p /\ ota_image s.2 h = [].

Lemma opened_closed p h : closed (opened p h).
Proof.
  intros s s' [_ [_ Hw]] [H1 H2]. destruct (Hw h) as [E1 E2].
  unfold opened. by rewrite E1, E2.
Qed.

Lemma ota_begin_opens p n :
  triple idle (io (esp_ota_begin p n))
    (fun r s => match r with inl _ => idle s | inr h => opened p h s end).
Proof.
  intros [x w] Hi. unfold io. destruct (esp_ota_begin p n w) as [[e|h] w'] eqn:E; [done|].
  exact (begin_ok _ _ _ _ _ E).
Qed.

(** The members a new transfer has, whatever happened around it. *)
Lemma begin_transfer_inv strict p partition h :
  is_u32 (ob_image_size p) -> ob_image_size p <= size partition ->
  triple (opened partition h) (begin_transfer p partition h) (fun _ => inv strict).
Proof.
  intros Hn Hsize. unfold begin_transfer.
  apply (triple_seq _ (fun s => opened partition h s /\ idle s)); [by intros [x w]|].
  apply (triple_seq _ (fun s => opened partition h s /\ idle s)).
  { apply triple_still; [apply note_still|].
    intros s s' Hc [H1 H2]. split; [by apply (opened_closed _ _ s)|by apply (idle_closed s)]. }
  apply (triple_seq _ (inv strict)).
  { intros [x w] [[Hp Hi] Hz]. unfold mod_ota, mod_rx, modify, inv. cbn in *.
    destruct (same_transfer_fields _ _ Hz) as ((_&_&_&_&Ew)&Ev&_). cbn in Ew, Ev.
    unfold is_u32 in *.
    apply (rx_transfer _ _ _ partition); cbn; try rewrite Hi; try rewrite Ew; try done; try lia.
    rewrite Ev. done. }
  apply (triple_seq _ (inv strict)); [apply triple_still; [apply touch_still|apply inv_closed]|].
  apply (triple_seq _ (inv strict)); [by apply triple_mod_rx; [apply inv_closed|]|].
  apply reply_inv; [apply send_status_still|done].
Qed.

(** A V2 transfer before its hash is started. *)
Definition new_v2_transfer (p : esp_partition_t) (h n id : Z) : mesh_ota_rx_state_t :=
  {| o_active := true; o_handle := h; o_partition := Some p; o_image_size := n;
     o_written := 0; o_op_id := id; o_last_seq := 0; o_last_rx_tick := 0; o_v2_active := true;
     o_sha_active := false; o_sha_ctx := md_zero; o_sha256 := zeros 32 |}.

(** The hash of a new V2 transfer has absorbed nothing. *)
Lemma ota_hash_start_inv strict partition h n id expected :
  is_u32 n -> n <= size partition ->
  triple (fun s => opened partition h s /\
            same_transfer (new_v2_transfer partition h n id) (x_ota s.1))
    (ota_hash_start expected)
    (fun e s => e = ESP_OK -> inv strict s).
Proof.
  intros Hn Hsize [x w] [[Hp Hi] Ho]. unfold ota_hash_start.
  destruct (negb sha256_supported); [done|].
  destruct (mbedtls_md_setup md_zero ≫= mbedtls_md_starts) as [ctx|] eqn:Ec; [|done].
  intros _. apply bind_Some in Ec as (c0 & _ & Hc). apply md_starts_ok in Hc.
  unfold inv, same_transfer in *. cbn in *.
  destruct x as [[] ? ? ? ? ? ? ? ? ? ?]. cbn in Ho.
  injection Ho as <- <- <- <- <- <- <- <- <- <- <-. unfold is_u32 in *.
  rewrite !bind_eq. destruct (sha_is_zero expected); cbn in *;
    (apply (rx_transfer _ _ _ partition); cbn; rewrite ?Hi; try done; lia).
Qed.

Lemma prepare_transfer_inv strict c partition h :
  is_u32 (vc_image_size c) -> vc_image_size c <= size partition ->
  triple (opened partition h) (prepare_transfer c partition h) (fun _ => inv strict).
Proof.
  intros Hn Hsize. unfold prepare_transfer.
  apply (triple_seq _ (fun s => opened partition h s /\ idle s)); [by intros [x w]|].
  apply (triple_seq _ (fun s => opened partition h s /\ idle s)).
  { apply triple_still; [apply note_still|].
    intros s s' Hc [H1 H2]. split; [by apply (opened_closed _ _ s)|by apply (idle_closed s)]. }

  apply (triple_seq _ (fun s => opened partition h s /\
            same_transfer (new_v2_transfer partition h (vc_image_size c) (vc_op_id c))
              (x_ota s.1))).
  { intros [x w] [Ho Hz]. split; [exact Ho|]. unfold idle, same_transfer in *. cbn in *.
    destruct (x_ota x). cbn in *. injection Hz as <- <- <- <- <- <- <- <- <- <- <-. done. }
  set (Q := fun s : state => opened partition h s /\ _).
  assert (HQ : closed Q).
  { intros s s' Hc [H1 H2]. split; [by apply (opened_closed _ _ s)|].
    destruct Hc as [Hc _]. unfold same_transfer in *. by rewrite <- Hc. }
  apply (triple_seq _ Q); [apply triple_still; [apply touch_still|done]|].
  apply (triple_seq _ Q); [by apply triple_mod_rx|].
  apply (triple_bind _ (fun e s => e = ESP_OK -> inv strict s)); [by apply ota_hash_start_inv|].
  intros e. destruct (err_eqb e ESP_OK) eqn:Ee; cbn [negb].
  - apply err_eqb_true in Ee. apply reply_inv; [apply send_status_v2_still|]. auto.
  - apply (triple_seq _ idle); [apply finish_abort_idle|].
    apply reply_inv; [apply send_status_v2_still|]. intros s. apply idle_inv.
Qed.

(** ** The handlers keep the invariant *)

(** The transfer the handler looks at is the one in the state. *)
Definition looking (strict : bool) (o : mesh_ota_rx_state_t) (s : state) : Prop :=
  inv strict s /\ o = x_ota s.1.

Lemma triple_get_ota strict {A} (k : mesh_ota_rx_state_t -> RX A) Q :
  (forall o, triple (looking strict o) (k o) Q) -> triple (inv strict) (o ← get_ota; k o) Q.
Proof.
  intros H. apply (triple_bind _ (looking strict)); [|exact H].
  intros s Hs. by split.
Qed.

Lemma triple_get_rx {P A} (k : ota_receiver -> RX A) Q :
  (forall x, triple (fun s => P s /\ x = s.1) (k x) Q) -> triple P (x ← get_rx; k x) Q.
Proof.
  intros H. apply (triple_bind _ (fun x s => P s /\ x = s.1)); [|exact H].
  intros s Hs. by split.
Qed.

Lemma looking_inv strict o s : looking strict o s -> inv strict s.
Proof. by intros []. Qed.
#[local] Hint Resolve looking_inv : core.

Lemma looking_idle strict o s : o_active o = false -> looking strict o s -> idle s.
Proof. intros H [Hs ->]. by apply (inactive_idle strict). Qed.

(** The partition and the announced size fit, and the handle is opened. *)
Lemma open_partition_inv strict (start : esp_partition_t -> Z -> RX esp_err_t) n none large failed :
  (forall p h, n <= size p -> triple (opened p h) (start p h) (fun _ => inv strict)) ->
  triple idle none (fun _ => inv strict) -> triple idle large (fun _ => inv strict) ->
  (forall e, triple idle (failed e) (fun _ => inv strict)) ->
  triple idle
    (partition ← io esp_ota_get_next_update_partition;
     match partition with
     | None => none
     | Some partition =>
         if size partition <? n then large
         else
           opened ← io (esp_ota_begin partition n);
           match opened with
           | inl err => failed err
           | inr handle => start partition handle
           end
     end) (fun _ => inv strict).
Proof.
  intros Hstart Hn Hl Hf. apply (triple_bind _ (fun _ => idle)).
  { apply triple_still; [apply io_still, next_keeps|apply idle_closed]. }
  intros [p|]; [|done]. destruct (size p <? n) eqn:E; [done|]. bools.
  eapply triple_bind; [apply ota_begin_opens|]. intros [e|h]; [apply Hf|]. by apply Hstart.
Qed.

Lemma begin_error_inv strict p msg e :
  triple idle (begin_error p msg e) (fun _ => inv strict).
Proof. apply reply_inv; [apply send_status_still|apply idle_inv]. Qed.

Lemma prepare_error_inv strict c msg e :
  triple idle (prepare_error c msg e) (fun _ => inv strict).
Proof. apply reply_inv; [apply send_status_v2_still|apply idle_inv]. Qed.

(** A request that finds a transfer in progress. *)
Lemma busy_inv strict o m1 e1 m2 e2 (r : option esp_partition_t) :
  (forall p, stable still (m1 p)) -> stable still m2 ->
  triple (looking strict o)
    match r with
    | Some p => ota_rx_touch ;; reply (m1 p) e1
    | None => reply m2 e2
    end (fun _ => inv strict).
Proof.
  intros H1 H2. destruct r as [p|]; [|by apply reply_inv; eauto].
  apply (triple_seq _ (inv strict)); [|by apply reply_inv].
  apply (triple_pre _ (inv strict)); [|eauto].
  apply triple_still; [apply touch_still|apply inv_closed].
Qed.

Lemma handle_begin_inv strict p :
  is_u32 (ob_image_size p) -> triple (inv strict) (handle_begin p) (fun _ => inv strict).
Proof.
  intros Hn. unfold handle_begin. apply triple_get_rx. intros x.
  destruct (x_reboot_pending x); [apply reply_inv; [apply send_status_still|by intros s []]|].
  apply (triple_seq _ (inv strict)).
  { apply (triple_pre _ (inv strict)); [apply finish_stale_abort_inv|by intros s []]. }
  apply triple_get_ota. intros o. destruct (o_active o) eqn:Ha.
  { apply busy_inv; intros; apply send_status_still. }
  apply (triple_pre _ idle); [|intros s; by apply looking_idle].
  destruct (negb _); [apply begin_error_inv|]. destruct (_ || _); [apply begin_error_inv|].
  apply (open_partition_inv strict (fun partition handle => begin_transfer p partition handle));
    intros; try apply begin_error_inv. by apply begin_transfer_inv.
Qed.

Lemma handle_v2_prepare_inv strict c :
  is_u32 (vc_image_size c) -> triple (inv strict) (handle_v2_prepare c) (fun _ => inv strict).
Proof.
  intros Hn. unfold handle_v2_prepare. apply triple_get_rx. intros x.
  destruct (x_reboot_pending x); [apply reply_inv; [apply send_status_v2_still|by intros s []]|].
  apply (triple_seq _ (inv strict)).
  { apply (triple_pre _ (inv strict)); [apply finish_stale_abort_inv|by intros s []]. }
  apply triple_get_ota. intros o. destruct (o_active o) eqn:Ha.
  { apply busy_inv; intros; apply send_status_v2_still. }
  apply (triple_pre _ idle); [|intros s; by apply looking_idle].
  destruct (negb _); [apply prepare_error_inv|]. destruct (_ || _); [apply prepare_error_inv|].
  apply (open_partition_inv strict (fun partition handle => prepare_transfer c partition handle));
    intros; try apply prepare_error_inv. by apply prepare_transfer_inv.
Qed.

(** ** Receiving *)

Lemma data_status_still code p msg : stable still (data_status code p msg).
Proof. unfold data_status. stable_auto. Qed.
Lemma progress_status_still op code c msg : stable still (progress_status op code c msg).
Proof. unfold progress_status. stable_auto. Qed.
Lemma end_status_still code p msg : stable still (end_status code p msg).
Proof. unfold end_status. stable_auto. Qed.
#[local] Hint Resolve data_status_still progress_status_still end_status_still : stable.

Lemma length_chunk n (data : bytes) : 0 <= n <= blen data -> blen (take (Z.to_nat n) data) = n.
Proof. unfold blen. rewrite length_take. lia. Qed.

(** Adding a chunk that is in place: the counters stay far from a wrap. *)
Lemma in_place strict o w n :
  rx_ok strict o w -> o_active o = true -> 0 <= n <= MESH_V2_OTA_CHUNK_MAX ->
  u32 (o_written o + n) <= o_image_size o -> u32 (o_written o + n) = o_written o + n.
Proof.
  intros [Hz|p _ _ _ Hl H1 H2 _ _] Ha Hn Hu.
  { destruct (same_transfer_fields _ _ Hz) as ((E&_)&_). cbn in E. congruence. }
  apply u32_id. pose proof (partition_small p). pose proof (blen_nonneg (ota_image w (o_handle o))).
  unfold MESH_V2_OTA_CHUNK_MAX in *. unfold is_u32. lia.
Qed.

(** The image grows by the chunk, the counter by its length; a V2 hash has to
    have absorbed it. *)
Lemma grown_ok strict o w w' n chunk o' :
  rx_ok strict o w -> o_active o = true -> 0 <= n <= MESH_V2_OTA_CHUNK_MAX -> blen chunk = n ->
  u32 (o_written o + n) <= o_image_size o ->
  ota_partition w' (o_handle o) = ota_partition w (o_handle o) ->
  ota_image w' (o_handle o) = ota_image w (o_handle o) ++ chunk ->
  (o_active o' = true /\ o_handle o' = o_handle o /\ o_partition o' = o_partition o /\
   o_image_size o' = o_image_size o /\ o_written o' = u32 (o_written o + n)) ->
  (strict = true -> o_v2_active o' = true ->
   (o_v2_active o = true /\ o_sha_active o = true -> md_held (o_sha_ctx o) = ota_image w (o_handle o)) ->
   o_sha_active o' = true /\ md_held (o_sha_ctx o') = ota_image w' (o_handle o)) ->
  rx_ok strict o' w'.
Proof.
  intros Hok Ha Hn Hc Hu Hp Hi (E1&E2&E3&E4&E5) Hs.
  pose proof (in_place _ _ _ _ Hok Ha Hn Hu) as Hw.
  destruct Hok as [Hz|p _ Hpart Hh Hl H1 H2 H3 Hold].
  { destruct (same_transfer_fields _ _ Hz) as ((E&_)&_). cbn in E. congruence. }
  apply (rx_transfer _ _ _ p); rewrite ?E1, ?E2, ?E3, ?E4, ?E5, ?Hp, ?Hi; try done.
  - rewrite blen_app. lia.
  - rewrite <- Hi. intros Ht Hv. apply (Hs Ht Hv). intros [Hv' _]. by apply Hold.
Qed.

Definition grew (strict : bool) (o : mesh_ota_rx_state_t) (chunk : bytes) (s : state) : Prop :=
  o = x_ota s.1 /\ exists w, rx_ok strict o w /\
    ota_partition s.2 (o_handle o) = ota_partition w (o_handle o) /\
    ota_image s.2 (o_handle o) = ota_image w (o_handle o) ++ chunk.

Lemma io_write_ok strict o chunk :
  triple (looking strict o) (io (esp_ota_write (o_handle o) chunk))
    (fun err s => err = ESP_OK -> grew strict o chunk s).
Proof.
  intros [x w] [Hok Ho]. unfold io. destruct (esp_ota_write (o_handle o) chunk w) as [e w'] eqn:E.
  cbn in *. intros ->. split; [done|]. exists w. apply write_ok in E. by subst o.
Qed.

Lemma accept_data_inv strict p o :
  o_active o = true -> 0 <= od_len p <= MESH_OTA_CHUNK_MAX -> od_len p <= blen (od_data p) ->
  u32 (o_written o + od_len p) <= o_image_size o ->
  (strict = true -> o_v2_active o = false) ->
  triple (looking strict o) (accept_data p) (fun _ => inv strict).
Proof.
  intros Ha Hl Hd Hu Hv. unfold accept_data.
  apply (triple_bind _ (fun o' s => looking strict o s /\ o' = o)).
  { intros s Hs. split; [done|]. by destruct Hs as [_ ->]. }
  intros o'. unfold MESH_OTA_CHUNK_MAX in *.
  apply (triple_bind _ (fun err s => err = ESP_OK ->
    grew strict o (take (Z.to_nat (od_len p)) (od_data p)) s)).
  { intros s [Hs ->]. revert s Hs. apply io_write_ok. }
  intros err. destruct (err_eqb err ESP_OK) eqn:Ee; cbn [negb].
  - apply err_eqb_true in Ee. subst err.
    apply (triple_seq _ (inv strict)).
    { intros [x w'] H. destruct (H eq_refl) as (Ho & w & Hok & Hp & Hi). cbn in *. subst o.
      unfold inv. cbn.
      eapply (grown_ok strict (x_ota x) w w' (od_len p) (take (Z.to_nat (od_len p)) (od_data p)));
        try done; [unfold MESH_V2_OTA_CHUNK_MAX; lia|apply length_chunk; lia|].
      cbn. intros Ht Hv' _. rewrite (Hv Ht) in Hv'. done. }
    apply (triple_seq _ (inv strict)); [apply triple_still; [apply touch_still|apply inv_closed]|].
    apply reply_inv; [apply data_status_still|done].
  - apply (triple_seq _ (fun _ => True)); [done|].
    apply (triple_seq _ idle); [apply finish_abort_idle|]. intros s. apply idle_inv.
Qed.

(** A packet as it was received: the data reach to the end of it. *)
Definition data_whole (p : mesh_ota_data_packet_t) (pkt_len : Z) : Prop :=
  0 <= od_len p /\ pkt_len - Z.of_nat offsetof_ota_data <= blen (od_data p).

Lemma handle_data_inv strict p pkt_len :
  data_whole p pkt_len ->
  triple (fun s => inv strict s /\ (strict = true -> o_v2_active (x_ota s.1) = false))
    (handle_data p pkt_len) (fun _ => inv strict).
Proof.
  intros [Hl0 Hw]. unfold handle_data.
  set (P := fun s : state => inv strict s /\ (strict = true -> o_v2_active (x_ota s.1) = false)).
  apply (triple_seq _ P).
  { intros s [Hs Hv]. split; [by apply finish_stale_abort_inv|]. intros Ht.
    destruct (finish_stale_abort_cases s) as [(H&_)|H].
    - apply same_transfer_fields in H as (_&->&_). by apply Hv.
    - apply same_transfer_fields in H as (_&->&_). done. }
  apply (triple_bind _ (fun o s => looking strict o s /\ (strict = true -> o_v2_active o = false))).
  { intros s [Hs Hv]. by split. }
  intros o. destruct (o_active o) eqn:Ha; cbn [negb];
    [|by apply reply_inv; [apply send_status_still|intros s [[] _]]].
  destruct ((od_len p =? 0) || _ || _) eqn:Hlen;
    [by apply reply_inv; [apply data_status_still|intros s [[] _]]|].
  destruct (_ || (o_image_size o <? _)) eqn:Hoff.
  { destruct (_ && _ && _); [|by apply reply_inv; [apply data_status_still|intros s [[] _]]].
    apply (triple_seq _ (inv strict)); [|apply reply_inv; [apply data_status_still|done]].
    apply (triple_pre _ (inv strict)); [|by intros s [[] _]].
    apply triple_still; [apply touch_still|apply inv_closed]. }
  bools. intros s [Hs Hv]. revert s Hs.
  match goal with H : od_offset p = o_written o |- _ => rewrite H in * end.
  unfold offsetof_ota_data in *. apply accept_data_inv; try done; lia.
Qed.

Lemma fail_transfer_idle op c msg reason e P :
  triple P (fail_transfer op c msg reason e) (fun _ => idle).
Proof.
  unfold fail_transfer. do 2 (apply (triple_seq _ (fun _ => True)); [done|]).
  unfold reply. apply (triple_seq _ idle); [apply finish_abort_idle|]. by intros s.
Qed.

Lemma refuse_transfer_inv strict op c P :
  (forall s, P s -> inv strict s) -> triple P (refuse_transfer op c) (fun _ => inv strict).
Proof.
  intros HP. unfold refuse_transfer. apply triple_get_rx. intros x.
  apply reply_inv; [apply progress_status_still|]. intros s []. by apply HP.
Qed.

(** The chunk is in the image and in the hash. *)
Definition hashed (strict : bool) (o : mesh_ota_rx_state_t) (chunk : bytes) (s : state) : Prop :=
  exists ctx, x_ota s.1 = o <| o_sha_ctx := ctx |> /\ o_sha_active o = true /\
    md_held ctx = md_held (o_sha_ctx o) ++ chunk /\
    exists w, rx_ok strict o w /\
      ota_partition s.2 (o_handle o) = ota_partition w (o_handle o) /\
      ota_image s.2 (o_handle o) = ota_image w (o_handle o) ++ chunk.

Lemma ota_hash_update_ok strict o chunk :
  triple (grew strict o chunk) (ota_hash_update chunk)
    (fun err s => err = ESP_OK -> hashed strict o chunk s).
Proof.
  intros [x w'] [Ho H]. unfold ota_hash_update. rewrite bind_eq. cbn in Ho |- *. rewrite <- Ho.
  destruct (o_sha_active o) eqn:Ha; cbn [negb orb]; [|done].
  destruct (blen chunk =? 0); [done|].
  destruct (mbedtls_md_update (o_sha_ctx o) chunk) as [ctx|] eqn:Eu; [|done].
  intros _. exists ctx. rewrite bind_eq. cbn. rewrite <- Ho. split; [done|]. split; [done|].
  split; [by apply md_update_ok in Eu|]. exact H.
Qed.

Lemma hashed_ok strict o chunk n :
  o_active o = true -> 0 <= n <= MESH_V2_OTA_CHUNK_MAX -> blen chunk = n ->
  u32 (o_written o + n) <= o_image_size o ->
  triple (hashed strict o chunk)
    (mod_ota (fun o => o <| o_written := u32 (o_written o + n) |>)) (fun _ => inv strict).
Proof.
  intros Ha Hn Hc Hu [x w'] (ctx & Ho & Hsa & Hmd & w & Hok & Hp & Hi). cbn in Ho, Hp, Hi.
  unfold inv. cbn. rewrite Ho.
  apply (grown_ok strict o w w' n chunk); try done. cbn. intros _ Hv Hheld.
  rewrite Hmd, Hi, Hheld by done. done.
Qed.

Lemma accept_v2_data_inv strict c o data :
  o_active o = true -> 0 <= vc_len c <= MESH_V2_OTA_CHUNK_MAX -> vc_len c <= blen data ->
  u32 (o_written o + vc_len c) <= o_image_size o ->
  triple (looking strict o) (accept_v2_data c data) (fun _ => inv strict).
Proof.
  intros Ha Hl Hd Hu. unfold accept_v2_data. set (chunk := take (Z.to_nat (vc_len c)) data).
  apply (triple_bind _ (fun o' s => looking strict o s /\ o' = o)).
  { intros s Hs. split; [done|]. by destruct Hs as [_ ->]. }
  intros o'. apply (triple_bind _ (fun err s => err = ESP_OK -> grew strict o chunk s)).
  { intros s [Hs ->]. revert s Hs. apply io_write_ok. }
  intros err. apply (triple_bind _ (fun err s => err = ESP_OK -> hashed strict o chunk s)).
  { destruct (err_eqb err ESP_OK) eqn:Ee.
    - apply err_eqb_true in Ee. intros s Hs. apply ota_hash_update_ok. by apply Hs.
    - apply err_eqb_false in Ee. by intros s Hs. }
  clear err. intros err. destruct (err_eqb err ESP_OK) eqn:Ee; cbn [negb].
  - apply err_eqb_true in Ee. subst err.
    apply (triple_seq _ (inv strict)).
    { apply (triple_pre _ (hashed strict o chunk)); [|auto].
      apply hashed_ok; try done. apply length_chunk. lia. }
    apply (triple_seq _ (inv strict)); [apply triple_still; [apply touch_still|apply inv_closed]|].
    apply reply_inv; [apply progress_status_still|done].
  - intros s _. apply idle_inv. by apply (fail_transfer_idle _ _ _ _ _ (fun _ => True)).
Qed.

Definition v2_whole (c : mesh_v2_ota_common_payload_t) (data : bytes) (payload_len : Z) : Prop :=
  0 <= vc_len c /\ 0 <= vc_offset c /\
  payload_len - Z.of_nat sizeof_v2_common <= blen data.

Lemma handle_v2_data_inv strict c data payload_len :
  v2_whole c data payload_len ->
  triple (inv strict) (handle_v2_data c data payload_len) (fun _ => inv strict).
Proof.
  intros (Hl0 & _ & Hw). unfold handle_v2_data.
  apply (triple_seq _ (inv strict)); [apply finish_stale_abort_inv|].
  apply triple_get_ota. intros o. destruct (not_this_transfer o c) eqn:Ht;
    [apply refuse_transfer_inv; eauto|].
  apply orb_false_iff in Ht as [Ht _]. apply orb_false_iff in Ht as [Ha _].
  apply negb_false_iff in Ha.
  destruct (_ || (o_image_size o <? _)) eqn:Hlen;
    [apply reply_inv; [apply progress_status_still|eauto]|].
  destruct (vc_offset c =? o_written o) eqn:Hoff; cbn [negb].
  - bools. unfold sizeof_v2_common in *.
    match goal with H : vc_offset c = o_written o |- _ => rewrite H in * end.
    apply accept_v2_data_inv; try done; lia.
  - destruct (_ && _); [|apply reply_inv; [apply progress_status_still|eauto]].
    apply (triple_seq _ (inv strict)); [|apply reply_inv; [apply progress_status_still|done]].
    apply (triple_pre _ (inv strict)); [|eauto].
    apply triple_still; [apply touch_still|apply inv_closed].
Qed.

(** ** Closing a transfer: every way out leaves the receiver idle *)

Lemma end_success_idle p P : triple P (end_success p) (fun _ => idle).
Proof.
  unfold end_success. do 2 (apply (triple_seq _ (fun _ => True)); [done|]).
  apply (triple_seq _ idle); [apply to_zero_idle|].
  apply triple_still; [apply reply_still, reboot_still|apply idle_closed].
Qed.

Lemma commit_success_idle c P : triple P (commit_success c) (fun _ => idle).
Proof.
  unfold commit_success. apply (triple_bind _ (fun _ _ => True)); [done|]. intros o.
  do 2 (apply (triple_seq _ (fun _ => True)); [done|]).
  apply (triple_seq _ idle); [apply to_zero_idle|].
  apply triple_still; [apply reply_still, reboot_still|apply idle_closed].
Qed.

Lemma reply_to_idle P (m : RX unit) e :
  triple P m (fun _ => idle) -> triple P (reply m e) (fun _ => idle).
Proof. intros H. unfold reply. apply (triple_seq _ idle); [done|]. by intros s. Qed.

Lemma close_v2_image_idle c P : triple P (close_v2_image c) (fun _ => idle).
Proof.
  unfold close_v2_image. do 2 (apply (triple_bind _ (fun _ _ => True)); [done|]; intros ?).
  destruct (negb _); [apply fail_transfer_idle|].
  apply (triple_bind _ (fun _ _ => True)); [done|]; intros ?.
  destruct (negb _); [|apply commit_success_idle].
  apply (triple_seq _ (fun _ => True)); [done|]. apply reply_to_idle, to_zero_idle.
Qed.

Lemma check_v2_hash_idle c P : triple P (check_v2_hash c) (fun _ => idle).
Proof.
  unfold check_v2_hash. apply (triple_bind _ (fun _ _ => True)); [done|]; intros o.
  destruct (sha_is_zero _); [apply fail_transfer_idle|].
  destruct (_ && _); [apply fail_transfer_idle|].
  apply (triple_seq _ (fun _ => True)); [done|].
  apply (triple_bind _ (fun _ _ => True)); [done|]; intros ?.
  destruct (negb _); [apply fail_transfer_idle|apply close_v2_image_idle].
Qed.

Lemma handle_end_inv strict p : triple (inv strict) (handle_end p) (fun _ => inv strict).
Proof.
  unfold handle_end. apply triple_get_rx. intros x.
  destruct (_ && _); [apply reply_inv; [apply send_status_still|by intros s []]|].
  apply (triple_seq _ (inv strict)).
  { apply (triple_pre _ (inv strict)); [apply finish_stale_abort_inv|by intros s []]. }
  apply triple_get_ota. intros o.
  destruct (negb (o_active o)); [apply reply_inv; [apply send_status_still|eauto]|].
  apply (triple_conseq _ (fun _ => True) _ _ (fun _ => idle)); [|done|intros _ s; apply idle_inv].
  destruct (_ || _).
  { apply (triple_seq _ (fun _ => True)); [done|]. apply reply_to_idle, finish_abort_idle. }
  apply (triple_bind _ (fun _ _ => True)); [done|]; intros ?. destruct (negb _).
  { apply (triple_seq _ (fun _ => True)); [done|]. apply reply_to_idle, finish_abort_idle. }
  apply (triple_bind _ (fun _ _ => True)); [done|]; intros ?. destruct (negb _).
  { apply (triple_seq _ (fun _ => True)); [done|]. apply reply_to_idle, to_zero_idle. }
  apply end_success_idle.
Qed.

Lemma handle_abort_inv strict p : triple (inv strict) (handle_abort p) (fun _ => inv strict).
Proof.
  unfold handle_abort. apply triple_get_rx. intros x.
  destruct (x_reboot_pending x); [apply reply_inv; [apply send_status_still|by intros s []]|].
  apply (triple_seq _ idle); [apply finish_abort_idle|].
  apply (triple_seq _ idle); [apply triple_still; [apply note_still|apply idle_closed]|].
  apply reply_inv; [apply send_status_still|intros s; apply idle_inv].
Qed.

Lemma handle_v2_commit_inv strict c : triple (inv strict) (handle_v2_commit c) (fun _ => inv strict).
Proof.
  unfold handle_v2_commit. apply triple_get_rx. intros x.
  destruct (_ && _); [apply reply_inv; [apply send_status_v2_still|by intros s []]|].
  apply (triple_seq _ (inv strict)).
  { apply (triple_pre _ (inv strict)); [apply finish_stale_abort_inv|by intros s []]. }
  apply triple_get_ota. intros o.
  destruct (not_this_transfer o c); [apply refuse_transfer_inv; eauto|].
  apply (triple_conseq _ (fun _ => True) _ _ (fun _ => idle)); [|done|intros _ s; apply idle_inv].
  destruct (_ || _); [apply fail_transfer_idle|apply check_v2_hash_idle].
Qed.

Lemma handle_v2_abort_inv strict c : triple (inv strict) (handle_v2_abort c) (fun _ => inv strict).
Proof.
  unfold handle_v2_abort. apply triple_get_rx. intros x.
  destruct (x_reboot_pending x); [apply reply_inv; [apply send_status_v2_still|by intros s []]|].
  destruct (_ && _); [apply reply_inv; [apply send_status_v2_still|by intros s []]|].
  apply (triple_seq _ (fun _ => True)); [done|].
  apply (triple_seq _ idle); [apply finish_abort_idle|].
  apply reply_inv; [apply send_status_v2_still|intros s; apply idle_inv].
Qed.

End Props.

#[export] Hint Extern 1 (stable _ get_rx) => apply stable_get_rx; apply _ : stable.
#[export] Hint Extern 1 (stable _ get_ota) => apply stable_get_ota; apply _ : stable.
