(* ===== verification/OtaRxReach.v ===== *)
(** * The OTA v1/v2 receiver: reachable states

    The events that can happen to a receiver, in any order, and the invariant in
    every state they lead to. *)

From S2P Require Import Prelude.
From S2P Require Import Words.
From S2P Require Import Esp.
From S2P Require Import Rtos.
From S2P Require Import MeshProto.
From S2P Require Import MeshProtoV1.
From S2P Require Import OtaLib.
From S2P Require Import OtaFlashEnv.
From S2P Require Import OtaRx.
From S2P Require Import OtaRxInv.
#[local] Open Scope Z_scope.

Section Props.
Context {D : Digest} {HD : DigestLaws D} {W : Type} {Flash : FlashEnv W}
  {View : FlashView W Flash} {HO : OtaLaws W Flash View} {Rx : RxEnv W}
  {HR : RxLaws W Flash View Rx}.

Abbreviation state := (ota_receiver * W)%type.
Abbreviation RX := (ST (ota_receiver * W)).

(** ** The queue *)

Definition same_queue (s s' : state) : Prop := x_v2_queue s'.1 = x_v2_queue s.1.
#[local] Instance same_queue_preorder : PreOrder same_queue.
Proof. split; [done|]. unfold same_queue. intros s s' s'' H H'. congruence. Qed.

Lemma io_queue {A : Type} (m : ST W A) : stable same_queue (io m).
Proof. intros [x w]. unfold io. by destruct (m w). Qed.
Lemma mod_ota_queue f : stable same_queue (mod_ota f).
Proof. by intros [x w]. Qed.

#[local] Hint Resolve io_queue mod_ota_queue : stable.
#[local] Hint Extern 2 (stable same_queue (mod_rx _)) => (by intros [x w]) : stable.

Lemma send_status_queue op code seq off total msg :
  stable same_queue (send_status op code seq off total msg).
Proof. unfold send_status. stable_auto. Qed.
Lemma send_status_v2_queue op code id off total msg :
  stable same_queue (send_status_v2 op code id off total msg).
Proof. unfold send_status_v2. stable_auto. Qed.
Lemma touch_queue : stable same_queue ota_rx_touch.
Proof. unfold ota_rx_touch. stable_auto. Qed.
Lemma note_queue reason : stable same_queue (ota_note_abort_reason reason).
Proof. unfold ota_note_abort_reason. stable_auto. Qed.
Lemma reply_queue m e : stable same_queue m -> stable same_queue (reply m e).
Proof. intros H. unfold reply. stable_auto. Qed.
Lemma hash_free_queue : stable same_queue ota_hash_free.
Proof. unfold ota_hash_free. stable_auto. Qed.
#[local] Hint Resolve send_status_queue send_status_v2_queue touch_queue note_queue
  reply_queue hash_free_queue : stable.
Lemma finish_abort_queue : stable same_queue finish_abort.
Proof. unfold finish_abort. stable_auto. Qed.
#[local] Hint Resolve finish_abort_queue : stable.
Lemma stale_queue : stable same_queue finish_stale_abort.
Proof. unfold finish_stale_abort, ota_rx_stale. stable_auto. Qed.
Lemma progress_queue op code c msg : stable same_queue (progress_status op code c msg).
Proof. unfold progress_status. stable_auto. Qed.
Lemma data_status_queue code p msg : stable same_queue (data_status code p msg).
Proof. unfold data_status. stable_auto. Qed.
Lemma end_status_queue code p msg : stable same_queue (end_status code p msg).
Proof. unfold end_status. stable_auto. Qed.
Lemma reboot_queue : stable same_queue reboot.
Proof. unfold reboot. stable_auto. Qed.
#[local] Hint Resolve stale_queue progress_queue data_status_queue end_status_queue reboot_queue : stable.
Lemma fail_queue op c msg reason e : stable same_queue (fail_transfer op c msg reason e).
Proof. unfold fail_transfer. stable_auto. Qed.
#[local] Hint Resolve fail_queue : stable.

Lemma process_v2_queue payload : stable same_queue (process_v2_payload_locked payload).
Proof.
  unfold process_v2_payload_locked, handle_v2_prepare, prepare_transfer, prepare_error,
    prepare_status, handle_v2_data, accept_v2_data, ota_hash_start, ota_hash_update,
    handle_v2_commit, check_v2_hash, close_v2_image, commit_success,
    ota_hash_finish_and_check, handle_v2_abort, refuse_transfer.
  stable_auto.
Qed.

Lemma process_v1_queue pkt : stable same_queue (process_v1_packet_locked pkt).
Proof.
  unfold process_v1_packet_locked, handle_begin, begin_transfer, begin_error, begin_status,
    handle_data, accept_data, handle_end, end_success, handle_abort.
  stable_auto.
Qed.

(** ** Reachable states *)

Lemma get_le_4_typed bs off : are_bytes bs -> is_u32 (get_le 4 bs off).
Proof.
  intros H. unfold get_le. pose proof (le_val_range _ (are_bytes_slice off 4 _ H)) as Hr.
  unfold is_u32. assert (length (slice off 4 bs) <= 4)%nat.
  { unfold slice. rewrite length_take. lia. }
  assert (256 ^ Z.of_nat (length (slice off 4 bs)) <= 256 ^ 4) by (apply Z.pow_le_mono_r; lia).
  change (256 ^ 4) with 4294967296 in *. lia.
Qed.

Lemma get_le_2_nonneg bs off : are_bytes bs -> 0 <= get_le 2 bs off.
Proof. intros H. apply (le_val_range _ (are_bytes_slice off 2 _ H)). Qed.

Lemma process_v2_inv strict payload :
  are_bytes payload ->
  triple (inv strict) (process_v2_payload_locked payload) (fun _ => inv strict).
Proof.
  intros Hb. unfold process_v2_payload_locked. destruct (v2_min_len _); [|by intros s].
  destruct (_ <? _)%nat; [by intros s|].
  pose proof (get_le_4_typed payload 8 Hb). pose proof (get_le_4_typed payload 16 Hb).
  destruct (_ =? _); [by apply handle_v2_prepare_inv|].
  destruct (_ =? _).
  { pose proof (get_le_4_typed payload 12 Hb).
    apply handle_v2_data_inv. split; [cbn; unfold is_u32 in *; lia|].
    split; [cbn; unfold is_u32 in *; lia|].
    unfold blen, v2_data. rewrite length_drop. lia. }
  destruct (_ =? _); [apply handle_v2_commit_inv|apply handle_v2_abort_inv].
Qed.

(** A V1 DATA packet while a V2 transfer is in progress. *)
Definition interferes (pkt : bytes) (s : state) : bool :=
  (ph_type (decode_pkt_hdr pkt) =? MESH_OTA_TYPE_DATA) && o_v2_active (x_ota s.1).

Lemma process_v1_inv strict pkt s :
  are_bytes pkt -> (strict = true -> interferes pkt s = false) ->
  inv strict s -> inv strict (process_v1_packet_locked pkt s).2.
Proof.
  intros Hb Hi Hs. unfold process_v1_packet_locked. cbv zeta. unfold interferes in Hi.
  destruct (_ =? MESH_OTA_TYPE_BEGIN).
  { destruct (_ <? _)%nat; [done|]. apply handle_begin_inv; [by apply get_le_4_typed|done]. }
  destruct (_ =? MESH_OTA_TYPE_DATA) eqn:Et.
  { destruct (_ <? _)%nat; [done|]. apply handle_data_inv; [|by split].
    split; [by apply get_le_2_nonneg|]. unfold blen. cbn [od_data decode_ota_data].
    rewrite length_drop. unfold offsetof_ota_data. lia. }
  clear Et. destruct (_ =? MESH_OTA_TYPE_END).
  { destruct (_ <? _)%nat; [done|]. by apply handle_end_inv. }
  destruct (_ =? MESH_OTA_TYPE_ABORT); [|done].
  destruct (_ <? _)%nat; [done|]. by apply handle_abort_inv.
Qed.

(** What happens to a receiver: a packet or a payload arrives, the worker or the
    watchdog runs a round, somebody starts it or asks for its state. *)
Inductive rx_event :=
  | ev_packet (pkt : bytes)
  | ev_payload (payload : bytes)
  | ev_worker
  | ev_watchdog
  | ev_start
  | ev_active.

Definition rx_handle (e : rx_event) : RX unit :=
  match e with
  | ev_packet pkt => _ ← keemash_mesh_ota_receiver_handle_rx pkt; mret tt
  | ev_payload payload => _ ← keemash_mesh_ota_receiver_handle_v2 payload; mret tt
  | ev_worker => _ ← ota_v2_worker_round; mret tt
  | ev_watchdog => ota_watchdog_round
  | ev_start => _ ← keemash_mesh_ota_receiver_start; mret tt
  | ev_active => _ ← keemash_mesh_ota_receiver_active; mret tt
  end.

Definition event_typed (e : rx_event) : Prop :=
  match e with ev_packet b | ev_payload b => are_bytes b | _ => True end.

Definition event_allowed (strict : bool) (e : rx_event) (s : state) : Prop :=
  strict = true -> match e with ev_packet pkt => interferes pkt s = false | _ => True end.

(** [rx_step true]: V1 DATA packets do not interfere with V2 transfers. *)
Inductive rx_step (strict : bool) : relation state :=
  | rx_event_step e s :
      event_typed e -> event_allowed strict e s -> rx_step strict s (rx_handle e s).2.

Definition queue_ok (s : state) : Prop :=
  from_option (fun q => Forall are_bytes q /\ (length q <= MESH_OTA_V2_QUEUE_LEN)%nat) True
    (x_v2_queue s.1).

Lemma queue_ok_same s s' : same_queue s s' -> queue_ok s -> queue_ok s'.
Proof. unfold same_queue, queue_ok. by intros ->. Qed.

Definition whole_ok (strict : bool) (s : state) : Prop := inv strict s /\ queue_ok s.

(** A step that leaves the transfer and the queue alone. *)
Lemma quiet_ok strict {A} (m : RX A) :
  stable still m -> stable same_queue m -> triple (whole_ok strict) m (fun _ => whole_ok strict).
Proof.
  intros H1 H2 s [Hi Hq]. split; [apply (inv_closed _ s), Hi; apply still_calm, H1|].
  by apply (queue_ok_same s).
Qed.

(** *** Every event keeps it *)

Definition steady (s s' : state) : Prop := s'.1 = s.1 /\ same_flash s.2 s'.2.

Lemma triple_io {A} P (m : ST W A) :
  stable same_flash m -> (forall s s', steady s s' -> P s -> P s') ->
  triple P (io m) (fun _ => P).
Proof.
  intros Hm HP [x w] Hs. apply (HP (x, w)); [|done]. specialize (Hm w). unfold io.
  destruct (m w). by split.
Qed.

Lemma whole_ok_steady strict s s' : steady s s' -> whole_ok strict s -> whole_ok strict s'.
Proof.
  intros [Hx Hw] [Hi Hq]. split; [|by apply (queue_ok_same s); [unfold same_queue; rewrite Hx|]].
  apply (inv_closed _ s), Hi. split; [by rewrite Hx|done].
Qed.

Lemma io_whole_ok strict {A} (m : ST W A) :
  stable same_flash m -> triple (whole_ok strict) (io m) (fun _ => whole_ok strict).
Proof. intros Hm. apply triple_io; [done|apply whole_ok_steady]. Qed.

Lemma process_v1_ok strict pkt s :
  are_bytes pkt -> (strict = true -> interferes pkt s = false) ->
  whole_ok strict s -> whole_ok strict (process_v1_packet_locked pkt s).2.
Proof.
  intros Hb Hi [Hs Hq]. split; [by apply process_v1_inv|].
  apply (queue_ok_same s); [apply process_v1_queue|done].
Qed.

Lemma handle_rx_ok strict pkt :
  are_bytes pkt ->
  triple (fun s => whole_ok strict s /\ (strict = true -> interferes pkt s = false))
    (keemash_mesh_ota_receiver_handle_rx pkt) (fun _ => whole_ok strict).
Proof.
  intros Hb. unfold keemash_mesh_ota_receiver_handle_rx.
  set (P := fun s : state => whole_ok strict s /\ (strict = true -> interferes pkt s = false)).
  assert (HP : forall s s', steady s s' -> P s -> P s').
  { intros s s' Hst [H1 H2]. split; [by apply (whole_ok_steady _ s)|].
    unfold interferes in *. by rewrite (proj1 Hst). }
  apply (triple_bind _ (fun _ => P)); [apply triple_io; [apply v3_active_keeps|done]|].
  intros [|]; [by intros s []|]. destruct (_ <? _)%nat; [by intros s []|].
  apply triple_get_rx. intros x. apply (triple_pre _ P); [|by intros s []].
  destruct (negb (x_lock x)); [by intros s []|].
  destruct (_ || _); [by intros s []|].
  apply (triple_bind _ (fun _ => P)); [apply triple_io; [apply mutex_take_keeps|done]|].
  intros [|]; [|by intros s []]. intros s [H1 H2]. by apply process_v1_ok.
Qed.

Lemma send_v2_ok strict op code id off total msg :
  triple (whole_ok strict) (send_status_v2 op code id off total msg) (fun _ => whole_ok strict).
Proof. apply quiet_ok; [apply send_status_v2_still|apply send_status_v2_queue]. Qed.

Lemma queue_send_ok strict payload :
  are_bytes payload ->
  triple (whole_ok strict) (queue_send payload) (fun _ => whole_ok strict).
Proof.
  intros Hb. unfold queue_send. apply triple_get_rx. intros x.
  destruct (x_v2_queue x) as [q|] eqn:Eq; [|by intros s []].
  destruct (length q <? _)%nat eqn:El; [|by intros s []]. apply Nat.ltb_lt in El.
  intros [x' w] [[Hi Hq] ->]. split; [exact Hi|]. unfold queue_ok in *. cbn in *.
  rewrite Eq in Hq. cbn in Hq. destruct Hq as [Hq _]. split; [apply Forall_app; by repeat constructor|].
  rewrite length_app. cbn. lia.
Qed.

Lemma handle_v2_ok strict payload :
  are_bytes payload ->
  triple (whole_ok strict) (keemash_mesh_ota_receiver_handle_v2 payload) (fun _ => whole_ok strict).
Proof.
  intros Hb. unfold keemash_mesh_ota_receiver_handle_v2.
  apply (triple_bind _ (fun _ => whole_ok strict)); [apply io_whole_ok, v3_active_keeps|].
  intros [|]; [by intros s|]. destruct (_ <? _)%nat; [by intros s|].
  apply triple_get_rx. intros x. apply (triple_pre _ (whole_ok strict)); [|by intros s []].
  destruct (_ || _); [by intros s|]. destruct (_ <? _)%nat; [by intros s|]. cbv zeta.
  destruct (v2_min_len _); [|by intros s]. destruct (_ <? _)%nat; [by intros s|].
  apply (triple_bind _ (fun _ => whole_ok strict)); [by apply queue_send_ok|].
  intros [|]; [by intros s|]. apply (triple_seq _ (whole_ok strict)); [apply send_v2_ok|].
  by intros s.
Qed.

Lemma worker_round_ok strict :
  triple (whole_ok strict) ota_v2_worker_round (fun _ => whole_ok strict).
Proof.
  unfold ota_v2_worker_round. apply triple_get_rx. intros x.
  destruct (x_v2_queue x) as [[|payload q]|] eqn:Eq; try by intros s [].
  apply (triple_seq _ (fun s => whole_ok strict s /\ are_bytes payload)).
  { intros [x' w] [[Hi Hq] ->]. cbn in *. unfold queue_ok in Hq. cbn in Hq. rewrite Eq in Hq.
    cbn in Hq. destruct Hq as [Hq Hl]. apply Forall_cons_iff in Hq as [Hp Hq].
    split; [|done]. split; [exact Hi|]. unfold queue_ok. cbn. split; [done|]. lia. }
  apply (triple_seq _ (whole_ok strict)); [|by intros s].
  destruct (negb _); [by intros s []|].
  apply (triple_bind _ (fun _ s => whole_ok strict s /\ are_bytes payload)).
  { apply triple_io; [apply mutex_take_keeps|]. intros s s' Hst [H1 H2].
    split; [by apply (whole_ok_steady _ s)|done]. }
  intros [|]; cbn [negb].
  - intros s [[Hi Hq] Hb]. rewrite bind_eq. split; [by apply process_v2_inv|].
    apply (queue_ok_same s); [apply process_v2_queue|done].
  - cbv zeta. apply (triple_pre _ (whole_ok strict)); [|by intros s []].
    destruct (_ <=? _)%nat; [apply send_v2_ok|by intros s].
Qed.

Lemma watchdog_ok strict :
  triple (whole_ok strict) ota_watchdog_round (fun _ => whole_ok strict).
Proof.
  unfold ota_watchdog_round. apply triple_get_rx. intros x.
  apply (triple_pre _ (whole_ok strict)); [|by intros s []].
  destruct (x_lock x); [|by intros s]. cbn [when].
  apply (triple_bind _ (fun _ => whole_ok strict)); [apply io_whole_ok, mutex_take_keeps|].
  intros [|]; [|by intros s]. intros s [Hi Hq]. split; [by apply finish_stale_abort_inv|].
  apply (queue_ok_same s); [apply stale_queue|done].
Qed.

(** Creating a mutex, a queue or a task, once. *)
Lemma create_ok strict (done_already : bool) (call : ST W bool) f :
  stable same_flash call ->
  (forall s, whole_ok strict s -> whole_ok strict (f s.1, s.2)) ->
  triple (whole_ok strict)
    (if done_already then mret ESP_OK
     else ok ← io call; if (ok : bool) then mod_rx f ;; mret ESP_OK else mret ESP_ERR_NO_MEM)
    (fun _ => whole_ok strict).
Proof.
  intros Hc Hf. destruct done_already; [by intros s|].
  apply (triple_bind _ (fun _ => whole_ok strict)); [by apply io_whole_ok|].
  intros [|]; [|by intros s]. intros [x w] H. exact (Hf (x, w) H).
Qed.

Lemma start_worker_ok strict :
  triple (whole_ok strict) start_v2_worker (fun _ => whole_ok strict).
Proof.
  unfold start_v2_worker. apply triple_get_rx. intros x.
  apply (triple_pre _ (whole_ok strict)); [|by intros s []].
  apply (triple_bind _ (fun _ => whole_ok strict)).
  { destruct (x_v2_queue x); [by intros s|].
    apply (create_ok strict false queue_create (fun x => x <| x_v2_queue := Some [] |>));
      [apply queue_create_keeps|]. intros s [Hi _]. split; [exact Hi|]. split; [done|]. cbn. lia. }
  intros err. destruct (negb _); [by intros s|].
  apply (create_ok strict (x_v2_worker x) task_create); [apply task_create_keeps|].
  intros s H. exact H.
Qed.

Lemma start_ok strict :
  triple (whole_ok strict) keemash_mesh_ota_receiver_start (fun _ => whole_ok strict).
Proof.
  unfold keemash_mesh_ota_receiver_start. apply triple_get_rx. intros x.
  apply (triple_pre _ (whole_ok strict)); [|by intros s []].
  apply (triple_bind _ (fun _ => whole_ok strict)).
  { apply (create_ok strict (x_lock x) mutex_create); [apply mutex_create_keeps|]. by intros s. }
  intros err. destruct (negb _); [by intros s|].
  apply (triple_bind _ (fun _ => whole_ok strict)); [apply start_worker_ok|].
  intros err'. destruct (negb _); [by intros s|].
  apply (create_ok strict (x_watchdog x) task_create); [apply task_create_keeps|]. by intros s.
Qed.

Lemma active_ok strict :
  triple (whole_ok strict) keemash_mesh_ota_receiver_active (fun _ => whole_ok strict).
Proof.
  unfold keemash_mesh_ota_receiver_active. apply triple_get_rx. intros x.
  apply (triple_pre _ (whole_ok strict)); [|by intros s []].
  destruct (negb _); [by intros s|].
  apply (triple_bind _ (fun _ => whole_ok strict)); [apply io_whole_ok, mutex_take_keeps|].
  intros [|]; by intros s.
Qed.

Lemma rx_step_ok strict s s' : rx_step strict s s' -> whole_ok strict s -> whole_ok strict s'.
Proof.
  intros [e s0 Ht Ha] H. destruct e; cbn [rx_handle]; rewrite ?bind_eq; cbn [snd].
  - apply handle_rx_ok; [exact Ht|]. by split.
  - by apply handle_v2_ok.
  - by apply worker_round_ok.
  - by apply watchdog_ok.
  - by apply start_ok.
  - by apply active_ok.
Qed.

Lemma rx_reachable_ok strict w s :
  rtc (rx_step strict) (ota_receiver_boot, w) s -> whole_ok strict s.
Proof.
  intros H. assert (H0 : whole_ok strict (ota_receiver_boot, w)) by (split; [by left|done]).
  remember (ota_receiver_boot, w) as s0 eqn:E. clear E. revert H0.
  induction H as [|s1 s2 s3 H1 _ IH]; [done|]. intros H0. by apply IH, (rx_step_ok _ s1).
Qed.

End Props.
