(* ===== verification/OtaRxProps.v ===== *)
(** * The OTA v1/v2 receiver: theorems

    What an accepted commit establishes (and what it does not when a reboot is already
    pending), the bounds of a transfer, the outcome of
    a DATA payload, the watchdog, and the check a V1 END leaves out. *)

From S2P Require Import Prelude.
From S2P Require Import Words.
From S2P Require Import Esp.
From S2P Require Import Rtos.
From S2P Require Import MeshProto.
From S2P Require Import MeshProtoV1.
From S2P Require Import OtaLib.
From S2P Require Import OtaFlashEnv.
From S2P Require Import OtaRx.
From S2P Require Import OtaRxInv.
From S2P Require Import OtaRxReach.
#[local] Open Scope Z_scope.

Section Props.
Context {D : Digest} {HD : DigestLaws D} {W : Type} {Flash : FlashEnv W}
  {View : FlashView W Flash} {HO : OtaLaws W Flash View} {Rx : RxEnv W}
  {HR : RxLaws W Flash View Rx}.

Abbreviation state := (ota_receiver * W)%type.
Abbreviation RX := (ST (ota_receiver * W)).

(** ** What a commit establishes *)

(** The image is at the start of the partition and the reboot into it is due. *)
Definition completed (p : esp_partition_t) (img : bytes) (total id : Z) (s : state) : Prop :=
  slice 0 (length img) (partition_data s.2 p) = img /\
  x_reboot_pending s.1 = true /\ x_reboot_v2_op_id s.1 = id /\ x_reboot_total s.1 = total.

Lemma completed_still p img total id s s' :
  still s s' -> completed p img total id s -> completed p img total id s'.
Proof.
  intros (_ & (H1 & H2 & H3) & [Hp _]) (Hd & R1 & R2 & R3). unfold completed.
  rewrite Hp. repeat split; congruence.
Qed.

Definition at_end (p : esp_partition_t) (img : bytes) (total id : Z) (s : state) : Prop :=
  slice 0 (length img) (partition_data s.2 p) = img /\
  o_image_size (x_ota s.1) = total /\ o_op_id (x_ota s.1) = id.

Lemma commit_success_completed c p img total id :
  triple (at_end p img total id) (commit_success c) (fun _ => completed p img total id).
Proof.
  unfold commit_success. apply (triple_bind _ (fun o s => at_end p img total id s /\ o = x_ota s.1)).
  { intros s Hs. by split. }
  intros o. cbv zeta. apply (triple_seq _ (completed p img total id)).
  { intros [x w] [(Hd & Ht & Hi) ->]. split; [exact Hd|]. cbn in *. by subst. }
  apply (triple_seq _ (completed p img total id)).
  { apply (triple_stable still); [apply send_status_v2_still|]. apply completed_still. }
  apply (triple_seq _ (completed p img total id)); [by intros [x w]|].
  apply (triple_stable still); [apply reply_still, reboot_still|]. apply completed_still.
Qed.

Lemma fail_transfer_code op c msg reason e s : (fail_transfer op c msg reason e s).1 = e.
Proof. unfold fail_transfer. rewrite !bind_eq. apply reply_code. Qed.

(** A complete image behind the handle of a V2 transfer. *)
Definition ready_image (p : esp_partition_t) (img : bytes) (total id : Z) (s : state) : Prop :=
  o_partition (x_ota s.1) = Some p /\ ota_partition s.2 (o_handle (x_ota s.1)) = Some p /\
  ota_image s.2 (o_handle (x_ota s.1)) = img /\
  o_image_size (x_ota s.1) = total /\ o_op_id (x_ota s.1) = id.

Lemma close_v2_image_completed c p img total id :
  triple (ready_image p img total id) (close_v2_image c)
    (fun e s => e = ESP_OK -> completed p img total id s).
Proof.
  unfold close_v2_image.
  apply (triple_bind _ (fun o s => ready_image p img total id s /\ o = x_ota s.1)).
  { intros s Hs. by split. }
  intros o. apply (triple_bind _ (fun e s => e = ESP_OK ->
    at_end p img total id s /\ o_partition o = Some p)).
  { intros [x w] [(Hp & Hh & Hi & Ht & Hid) ->]. unfold io. cbn [fst snd] in *.
    destruct (esp_ota_end (o_handle (x_ota x)) w) as [e w'] eqn:E. cbn. intros ->.
    split; [|done]. split; [|by split]. cbn. rewrite <- Hi. by apply (end_ok _ _ _ p) in E. }
  intros e. destruct (err_eqb e ESP_OK) eqn:Ee; cbn [negb].
  2:{ apply err_eqb_false in Ee. intros s _ H. by rewrite fail_transfer_code in H. }
  apply err_eqb_true in Ee. subst e.
  apply (triple_bind _ (fun _ => at_end p img total id)).
  { intros [x w] H. destruct (H eq_refl) as [(Hd & Hrest) ->]. unfold io. cbn [set_boot].
    pose proof (set_boot_keeps p w) as [Hk _].
    destruct (esp_ota_set_boot_partition p w) as [e w']. split; [|exact Hrest].
    cbn in *. by rewrite Hk. }
  intros e. destruct (err_eqb e ESP_OK) eqn:Ee; cbn [negb].
  - intros s Hs _. by apply commit_success_completed.
  - apply err_eqb_false in Ee. intros s _. rewrite bind_eq, reply_code. done.
Qed.

(** The hash of a V2 transfer is the hash of the image so far. *)
Lemma hash_check_ok p img total id ctx sha :
  md_held ctx = img ->
  triple (fun s => ready_image p img total id s /\ o_sha_ctx (x_ota s.1) = ctx /\
            o_sha256 (x_ota s.1) = sha)
    ota_hash_finish_and_check
    (fun e s => e = ESP_OK -> ready_image p img total id s /\ sha256 img = sha).
Proof.
  intros Hmd [x w] (Hr & Hc & Hs). unfold ota_hash_finish_and_check. rewrite bind_eq.
  cbn [get_ota gets fst snd]. destruct (o_sha_active (x_ota x)) eqn:Ha; cbn [negb]; [|done].
  rewrite bind_eq. cbn in Hc, Hs. rewrite Hc, Hs. cbn [mret ST_ret fst snd].
  destruct (mbedtls_md_finish ctx) as [got|] eqn:Eg; [|done].
  apply md_finish_ok in Eg. destruct (bytes_eqb got sha) eqn:Eq; [|done].
  apply bytes_eqb_true in Eq. intros _. split; [|congruence].
  unfold ready_image in *. cbn in *. by rewrite Ha.
Qed.

Lemma check_v2_hash_completed c p img total id ctx :
  md_held ctx = img ->
  triple (fun s => ready_image p img total id s /\ o_sha_ctx (x_ota s.1) = ctx)
    (check_v2_hash c)
    (fun e s => e = ESP_OK -> completed p img total id s /\ sha256 img = vc_sha256 c).
Proof.
  intros Hmd. unfold check_v2_hash. cbv zeta.
  apply (triple_bind _ (fun _ s => ready_image p img total id s /\ o_sha_ctx (x_ota s.1) = ctx));
    [by intros s|]. intros o.
  destruct (sha_is_zero (vc_sha256 c)); [by intros s _; rewrite fail_transfer_code|].
  destruct (_ && _); [by intros s _; rewrite fail_transfer_code|].
  apply (triple_seq _ (fun s => ready_image p img total id s /\ o_sha_ctx (x_ota s.1) = ctx /\
           o_sha256 (x_ota s.1) = vc_sha256 c)); [by intros [x w] [Hr Hc]|].
  eapply triple_bind; [by apply hash_check_ok|]. cbn beta.
  intros e. destruct (err_eqb e ESP_OK) eqn:Ee; cbn [negb];
    [|by intros s _; rewrite fail_transfer_code].
  apply err_eqb_true in Ee. intros s Hs H. destruct (Hs Ee) as [Hr Hsha].
  split; [|done]. revert H. by apply close_v2_image_completed.
Qed.

Lemma check_v2_hash_prepared c s :
  (check_v2_hash c s).1 = ESP_OK -> sha_is_zero (o_sha256 (x_ota s.1)) = false ->
  o_sha256 (x_ota s.1) = vc_sha256 c.
Proof.
  intros H Hnz. unfold check_v2_hash in H. rewrite bind_eq in H. cbv zeta in H.
  cbn [get_ota gets fst snd] in H. rewrite Hnz in H.
  destruct (sha_is_zero (vc_sha256 c)); [by rewrite fail_transfer_code in H|].
  cbn [negb andb] in H.
  destruct (bytes_eqb (vc_sha256 c) (o_sha256 (x_ota s.1))) eqn:Eq;
    [by apply bytes_eqb_true in Eq|]. cbn [negb] in H. by rewrite fail_transfer_code in H.
Qed.

(** A status report changes nothing in the receiver and nothing in the flash. *)
Definition untouched (s s' : state) : Prop := s'.1 = s.1 /\ same_flash s.2 s'.2.

#[export] Instance untouched_preorder : PreOrder untouched.
Proof.
  split; [intros s; split; [done|reflexivity]|].
  intros x y z [H1 H2] [H1' H2']. split; [congruence|by transitivity y.2].
Qed.

Lemma io_untouched {A : Type} (m : ST W A) : stable same_flash m -> stable untouched (io m).
Proof. intros H [x w]. unfold io. specialize (H w). by destruct (m w). Qed.

Lemma status_untouched op code id off total msg :
  stable untouched (send_status_v2 op code id off total msg).
Proof.
  unfold send_status_v2. stable_auto; apply io_untouched; [apply slot_info_keeps|apply status_keeps].
Qed.

(** C4: an accepted V2 commit.  From any reachable state with no V1 DATA packet
    inside a V2 transfer, a COMMIT answered with [ESP_OK] is one of two.  It repeats the
    operation of a reboot that was pending before ([rebooting]): then it only reports, and
    says nothing of its own size and hash ([OtaRxDemo.commit_after_v1_end]: after a V1
    transfer that operation is 0).  Or at the start of the transfer's partition are now
    exactly the announced number of bytes whose SHA-256 is the commit's, which is also the
    one announced in PREPARE unless that was zero.  In both cases the reboot is pending
    and the same COMMIT is answered [ESP_OK] again. *)
Theorem v2_commit_verified w x w1 c x' w2 :
  rtc (rx_step true) (ota_receiver_boot, w) (x, w1) ->
  handle_v2_commit c (x, w1) = (ESP_OK, (x', w2)) ->
  let rebooting := x_reboot_pending x = true /\ x_reboot_v2_op_id x = vc_op_id c in
  (rebooting /\ x' = x /\ same_flash w1 w2 \/
   ~ rebooting /\
   exists p img, o_partition (x_ota x) = Some p /\ blen img = vc_image_size c /\
     slice 0 (length img) (partition_data w2 p) = img /\ sha256 img = vc_sha256 c /\
     (sha_is_zero (o_sha256 (x_ota x)) = false -> o_sha256 (x_ota x) = vc_sha256 c) /\
     x_reboot_total x' = vc_image_size c) /\
  x_reboot_pending x' = true /\ x_reboot_v2_op_id x' = vc_op_id c /\
  (forall w3, (handle_v2_commit c (x', w3)).1 = ESP_OK).
Proof.
  intros Hr Hc rebooting.
  assert (Hagain : forall x0 w3, x_reboot_pending x0 = true -> x_reboot_v2_op_id x0 = vc_op_id c ->
    (handle_v2_commit c (x0, w3)).1 = ESP_OK).
  { intros x0 w3 H1 H2. unfold handle_v2_commit. rewrite bind_eq. cbn [get_rx gets fst snd].
    rewrite H1, H2, Z.eqb_refl. cbn [andb]. apply reply_code. }
  destruct (x_reboot_pending x && (vc_op_id c =? x_reboot_v2_op_id x)) eqn:Hpend.
  { assert (Hp := Hpend). apply andb_true_iff in Hpend as [H H0].
    apply Z.eqb_eq in H0. symmetry in H0.
    assert (E : (handle_v2_commit c (x, w1)).2 = (x', w2)) by by rewrite Hc.
    unfold handle_v2_commit in E. rewrite bind_eq in E. cbn [get_rx gets fst snd] in E.
    rewrite Hp in E. unfold reply in E. rewrite bind_eq in E.
    pose proof (status_untouched MESH_V2_OTA_OP_COMMIT MESH_V2_OTA_STATUS_OK (vc_op_id c)
      (x_reboot_total x) (x_reboot_total x) RxText.ota_ok (x, w1)) as [H1 H2].
    cbn [mret ST_ret snd] in E. rewrite E in H1, H2. cbn [fst snd] in H1, H2. subst x'.
    split; [left; done|]. split; [done|]. split; [done|]. intros w3. by apply Hagain. }
  apply rx_reachable_ok in Hr as [Hinv _].
  pose proof (f_equal fst Hc) as Hcode. pose proof (f_equal snd Hc) as Hend. clear Hc.
  unfold handle_v2_commit in Hcode, Hend. rewrite bind_eq in Hcode, Hend.
  cbn [get_rx gets fst snd] in Hcode, Hend. rewrite Hpend in Hcode, Hend.
  rewrite bind_eq in Hcode, Hend.
  pose proof (finish_stale_abort_inv true _ Hinv) as Hinv1.
  pose proof (finish_stale_abort_cases (x, w1)) as Hcases.
  destruct (finish_stale_abort (x, w1)) as [[] [x1 w1']]. cbn [fst snd] in *.
  rewrite bind_eq in Hcode, Hend. cbn [get_ota gets fst snd] in Hcode, Hend.
  destruct (not_this_transfer (x_ota x1) c) eqn:Ht.
  { unfold refuse_transfer in Hcode. rewrite bind_eq, reply_code in Hcode. done. }
  destruct (_ || _) eqn:Hsz; [by rewrite fail_transfer_code in Hcode|].
  unfold not_this_transfer in Ht. bools.
  destruct Hcases as [(Hsame & _)|Hidle].
  2:{ apply same_transfer_fields in Hidle as ((E & _) & _). cbn in E. congruence. }
  cbn in Hsame. apply same_transfer_fields in Hsame as ((_&_&Ep&_&_)&_&_&_&Es&_).
  destruct Hinv1 as [Hz|p Ha Hp Hh Hl Hle1 Hle2 Hle3 Hsha].
  { apply same_transfer_fields in Hz as ((E & _) & _). cbn in E. cbn in *. congruence. }
  cbn in *. destruct (Hsha eq_refl) as [_ Hheld]; [done|].
  set (img := ota_image w1' (o_handle (x_ota x1))) in *.
  destruct (check_v2_hash_completed c p img (o_image_size (x_ota x1)) (o_op_id (x_ota x1))
              _ Hheld (x1, w1') ltac:(by split) Hcode) as [(Hd & R1 & R2 & R3) Himg].
  rewrite Hend in Hd, R1, R2, R3. cbn in *.
  split; [right; split|split; [done|split; [congruence|]]].
  - intros [E1 E2]. rewrite E1, E2, Z.eqb_refl in Hpend. done.
  - exists p, img. rewrite <- Ep, <- Es. split; [done|]. split; [congruence|]. split; [done|].
    split; [done|]. split; [|congruence].
    intros Hnz. by apply (check_v2_hash_prepared c (x1, w1')).
  - intros w3. apply Hagain; congruence.
Qed.

(** C22: the bounds of a transfer.  In every reachable state, whatever packets,
    payloads and rounds led there, an active transfer has a partition and an open
    handle for it, the image accepted so far is as long as the counter says, and the
    counter is within the announced size, which fits in the partition; the queue of
    the worker never holds more than two payloads. *)
Theorem transfer_in_bounds w x w' :
  rtc (rx_step false) (ota_receiver_boot, w) (x, w') ->
  (o_active (x_ota x) = true ->
   exists p, o_partition (x_ota x) = Some p /\
     ota_partition w' (o_handle (x_ota x)) = Some p /\
     blen (ota_image w' (o_handle (x_ota x))) = o_written (x_ota x) /\
     0 <= o_written (x_ota x) <= o_image_size (x_ota x) /\
     o_image_size (x_ota x) <= size p) /\
  (forall q, x_v2_queue x = Some q -> (length q <= MESH_OTA_V2_QUEUE_LEN)%nat).
Proof.
  intros Hr. apply rx_reachable_ok in Hr as [Hi Hq]. split.
  - intros Ha. destruct Hi as [Hz|p _ Hp Hh Hl H1 H2 _ _]; cbn in *.
    { apply same_transfer_fields in Hz as ((E & _) & _). cbn in E. congruence. }
    exists p. pose proof (blen_nonneg (ota_image w' (o_handle (x_ota x)))).
    repeat split; try done; lia.
  - intros q Eq. unfold queue_ok in Hq. cbn in Hq. rewrite Eq in Hq. apply Hq.
Qed.

(** ** DATA payloads *)

(** The outcome of a DATA payload: the chunk is appended where the image ends, or
    it lay behind and nothing changes; an error changes nothing or drops the
    transfer. *)
Definition data_outcome (o : mesh_ota_rx_state_t) (w : W) (c : mesh_v2_ota_common_payload_t)
  (chunk : bytes) (err : esp_err_t) (s : state) : Prop :=
  let img := ota_image w (o_handle o) in
  if err_eqb err ESP_OK then
    o_handle (x_ota s.1) = o_handle o /\
    ((vc_offset c = blen img /\ ota_image s.2 (o_handle o) = img ++ chunk /\
      o_written (x_ota s.1) = blen img + vc_len c) \/
     (vc_offset c + vc_len c <= blen img /\ ota_image s.2 (o_handle o) = img /\
      o_written (x_ota s.1) = blen img))
  else idle s \/ still (s.1 <| x_ota := o |>, w) s.

Lemma accept_v2_data_outcome c o w data s :
  rx_ok false o w -> o_active o = true -> vc_offset c = o_written o ->
  0 <= vc_len c <= MESH_V2_OTA_CHUNK_MAX -> vc_len c <= blen data ->
  u32 (o_written o + vc_len c) <= o_image_size o ->
  same_transfer o (x_ota s.1) -> same_flash w s.2 ->
  data_outcome o w c (take (Z.to_nat (vc_len c)) data) (accept_v2_data c data s).1
    (accept_v2_data c data s).2.
Proof.
  intros Hok Ha Hoff Hl Hd Hu Hs Hw. set (chunk := take _ _).
  pose proof (in_place _ _ _ _ Hok Ha Hl Hu) as Hwrap.
  destruct Hok as [Hz|p _ Hp Hh Hlen H1 H2 _ _].
  { apply same_transfer_fields in Hz as ((E & _) & _). cbn in E. congruence. }
  revert s Hs Hw.
  enough (triple (fun s => same_transfer o (x_ota s.1) /\ same_flash w s.2) (accept_v2_data c data)
            (data_outcome o w c chunk)) as H by (intros s ??; by apply H).
  unfold accept_v2_data. fold chunk.
  set (P1 := fun s : state => same_transfer o (x_ota s.1) /\
    ota_image s.2 (o_handle o) = ota_image w (o_handle o) ++ chunk).
  set (P2 := fun s : state => o_handle (x_ota s.1) = o_handle o /\
    o_written (x_ota s.1) = o_written o /\
    ota_image s.2 (o_handle o) = ota_image w (o_handle o) ++ chunk).
  set (P3 := fun s : state => o_handle (x_ota s.1) = o_handle o /\
    ota_image s.2 (o_handle o) = ota_image w (o_handle o) ++ chunk /\
    o_written (x_ota s.1) = o_written o + vc_len c).
  assert (HP3 : closed P3).
  { intros s s' [Ho Hf] (A & B & C). apply same_transfer_fields in Ho as ((_&E1&_&_&E2)&_).
    unfold P3. rewrite E1, E2. destruct Hf as [_ Hf]. by rewrite (proj2 (Hf _)). }
  apply (triple_bind _ (fun o' s => same_transfer o (x_ota s.1) /\ same_flash w s.2 /\
           o_handle o' = o_handle o)).
  { intros [x' w'] [Hs Hf]. split; [done|]. split; [done|].
    by apply same_transfer_fields in Hs as ((_&E&_)&_). }
  intros o'. apply (triple_bind _ (fun err s => err = ESP_OK -> P1 s)).
  { intros [x' w'] (Hs & [_ Hf] & Ho'). unfold io. rewrite Ho'.
    destruct (esp_ota_write (o_handle o) chunk w') as [e w''] eqn:E. cbn. intros ->.
    split; [done|]. apply write_ok in E as [_ E]. cbn. rewrite E. by rewrite (proj2 (Hf _)). }
  intros err. apply (triple_bind _ (fun err s => err = ESP_OK -> P2 s)).
  { destruct (err_eqb err ESP_OK) eqn:Ee; [|by apply err_eqb_false in Ee; intros s Hs].
    apply err_eqb_true in Ee. intros [x' w'] Hs. destruct (Hs Ee) as [Hsame Hi].
    apply same_transfer_fields in Hsame as ((_&E1&_&_&E2)&_). cbn in *.
    unfold ota_hash_update. rewrite bind_eq. cbn [get_ota gets fst snd].
    destruct (_ || _); [done|]. by destruct (mbedtls_md_update _ _). }
  clear err. intros err. destruct (err_eqb err ESP_OK) eqn:Ee; cbn [negb].
  - apply err_eqb_true in Ee. subst err.
    apply (triple_seq _ P3).
    { intros [x' w'] Hs. destruct (Hs eq_refl) as (A & B & C). cbn in *.
      split; [done|]. split; [done|]. cbn. by rewrite B, Hwrap. }
    apply (triple_seq _ P3); [by apply triple_still; [apply touch_still|]|].
    apply (triple_conseq _ P3 _ _ (fun e s => e = ESP_OK /\ P3 s)); [|done|].
    + intros s Hs. rewrite reply_code. split; [done|].
      apply (HP3 s), Hs. apply still_calm, reply_still, progress_status_still.
    + intros e s [-> (A & B & C)]. unfold data_outcome. change (err_eqb ESP_OK ESP_OK) with true.
      cbn iota. split; [done|]. left.
      split; [congruence|]. split; [done|]. congruence.
  - intros s _. unfold data_outcome. rewrite fail_transfer_code, Ee. left.
    by apply (fail_transfer_idle _ _ _ _ _ (fun _ => True)).
Qed.

(** An answer that reports an error. *)
Lemma outcome_error o w c chunk m e s :
  stable still m -> e <> ESP_OK -> still (s.1 <| x_ota := o |>, w) s ->
  data_outcome o w c chunk (reply m e s).1 (reply m e s).2.
Proof.
  intros Hm He Hs. unfold data_outcome. rewrite reply_code, (proj2 (err_eqb_false _ _) He).
  right. assert (Hr : still s (reply m e s).2) by (by apply reply_still).
  destruct Hs as (H1 & _ & H3), Hr as (H1' & H2' & H3'). cbn [fst snd x_ota] in *.
  split; [unfold same_transfer in *; cbn in *; congruence|]. split; [done|].
  by transitivity s.2.
Qed.

(** The chunk lies in what has been received: nothing is written. *)
Lemma outcome_duplicate o w c chunk code msg s :
  blen (ota_image w (o_handle o)) = o_written o ->
  vc_offset c + vc_len c <= o_written o ->
  same_transfer o (x_ota s.1) -> same_flash w s.2 ->
  let r := (ota_rx_touch ;; reply (progress_status MESH_V2_OTA_OP_DATA code c msg) ESP_OK) s in
  data_outcome o w c chunk r.1 r.2.
Proof.
  intros Hlen Hin Ho Hw r. subst r. rewrite bind_eq. set (s2 := (ota_rx_touch s).2).
  unfold data_outcome. rewrite reply_code. change (err_eqb ESP_OK ESP_OK) with true. cbn iota.
  assert (Hs : still s (reply (progress_status MESH_V2_OTA_OP_DATA code c msg) ESP_OK s2).2).
  { transitivity s2; [apply touch_still|]. apply reply_still, progress_status_still. }
  destruct Hs as (Hs & _ & Hf).
  assert (Hs' : same_transfer o (x_ota (reply (progress_status MESH_V2_OTA_OP_DATA code c msg)
                  ESP_OK s2).2.1)) by (unfold same_transfer in *; congruence).
  assert (Hf' : same_flash w (reply (progress_status MESH_V2_OTA_OP_DATA code c msg)
                  ESP_OK s2).2.2) by (by transitivity s.2).
  apply same_transfer_fields in Hs' as ((_&E1&_&_&E2)&_). rewrite E1, E2.
  destruct Hf' as [_ Hf']. rewrite (proj2 (Hf' _)), Hlen. split; [done|]. right. by split.
Qed.

(** The handler after the watchdog's check, on a transfer that goes on. *)
Lemma live_data_outcome o w c data payload_len s :
  rx_ok false o w -> o_active o = true -> v2_whole c data payload_len ->
  still (s.1 <| x_ota := o |>, w) s ->
  let r :=
    (if not_this_transfer (x_ota s.1) c then refuse_transfer MESH_V2_OTA_OP_DATA c
     else if (vc_len c =? 0) || (MESH_V2_OTA_CHUNK_MAX <? vc_len c)
             || (payload_len <? Z.of_nat sizeof_v2_common + vc_len c)
             || (o_image_size (x_ota s.1) <? u32 (vc_offset c + vc_len c)) then
       reply (progress_status MESH_V2_OTA_OP_DATA MESH_V2_OTA_STATUS_ERROR c RxText.bad_chunk)
         ESP_ERR_INVALID_SIZE
     else if negb (vc_offset c =? o_written (x_ota s.1)) then
       if (vc_offset c <? o_written (x_ota s.1))
          && (u32 (vc_offset c + vc_len c) <=? o_written (x_ota s.1)) then
         ota_rx_touch ;;
         reply (progress_status MESH_V2_OTA_OP_DATA MESH_V2_OTA_STATUS_OK c
                  RxText.duplicate_chunk) ESP_OK
       else
         reply (progress_status MESH_V2_OTA_OP_DATA MESH_V2_OTA_STATUS_ERROR c
                  RxText.offset_mismatch) ESP_ERR_INVALID_ARG
     else accept_v2_data c data) s in
  data_outcome o w c (take (Z.to_nat (vc_len c)) data) r.1 r.2.
Proof.
  intros Hok Hact (Hl0 & Ho0 & Hw) Hs r. subst r. pose proof Hs as (Hsame & _ & Hf).
  cbn [fst snd x_ota] in Hsame, Hf. change (x_ota _) with o in Hsame at 1.
  destruct (same_transfer_fields _ _ Hsame) as ((_&_&_&En&Ew)&_). rewrite En, Ew.
  destruct (not_this_transfer _ c).
  { unfold refuse_transfer. rewrite bind_eq. by apply outcome_error; [apply progress_status_still| |]. }
  destruct (_ || (_ <? _)) eqn:Hlen.
  { by apply outcome_error; [apply progress_status_still| |]. }
  bools. unfold sizeof_v2_common in *. destruct (vc_offset c =? _) eqn:Hoff; cbn [negb]; bools.
  { apply accept_v2_data_outcome; try done; [lia..|]. congruence. }
  destruct (_ && _) eqn:Hdup; [|by apply outcome_error; [apply progress_status_still| |]].
  bools. destruct Hok as [Hz|p _ _ _ Hlen2 Hle1 Hle2 Hle3 _].
  { apply same_transfer_fields in Hz as ((E & _) & _). cbn in *. congruence. }
  assert (Hu : u32 (vc_offset c + vc_len c) = vc_offset c + vc_len c).
  { pose proof (partition_small p). apply u32_id.
    unfold is_u32, MESH_V2_OTA_CHUNK_MAX in *. lia. }
  rewrite Hu in *. by apply outcome_duplicate.
Qed.

(** C23: a DATA payload of a V2 transfer, in every reachable state.  [ESP_OK] means
    that its bytes were appended exactly where the image ends and counted, or that
    they lie wholly in the part already received and nothing was written; any other
    code means that the transfer is as it was or has been dropped.  So a
    retransmitted chunk is never written twice and the image grows without gaps. *)
Theorem v2_data_exact w x w1 c data payload_len :
  rtc (rx_step false) (ota_receiver_boot, w) (x, w1) ->
  o_active (x_ota x) = true ->
  v2_whole c data payload_len ->
  let r := handle_v2_data c data payload_len (x, w1) in
  data_outcome (x_ota x) w1 c (take (Z.to_nat (vc_len c)) data) r.1 r.2.
Proof.
  intros Hr Hact Hw r. apply rx_reachable_ok in Hr as [Hinv _]. cbn in Hinv. subst r.
  unfold handle_v2_data. rewrite bind_eq.
  destruct (finish_stale_abort_cases (x, w1)) as [Hst|Hid].
  - rewrite bind_eq. cbn [get_ota gets fst snd]. apply live_data_outcome; try done.
    destruct Hst as (H1 & H2 & H3). split; [exact H1|]. by split.
  - rewrite bind_eq. cbn [get_ota gets fst snd].
    pose proof (same_transfer_fields _ _ Hid) as ((E & _) & _).
    unfold not_this_transfer. rewrite E. cbn [o_active ota_zero negb orb].
    unfold data_outcome, refuse_transfer. rewrite bind_eq, reply_code. left.
    apply (idle_closed (finish_stale_abort (x, w1)).2); [|done].
    apply still_calm, reply_still, progress_status_still.
Qed.

(** ** The watchdog *)

Lemma io_vars {A} (m : ST W A) (s : state) : (io m s).2.1 = s.1.
Proof. destruct s as [x w]. unfold io. by destruct (m w). Qed.

Lemma stale_vars s : (ota_rx_stale s).2.1 = s.1.
Proof.
  unfold ota_rx_stale. rewrite bind_eq. cbn [get_ota gets fst snd].
  destruct (negb _); [done|]. rewrite bind_eq. apply io_vars.
Qed.

(** A transfer that is not stale: the check changes no variable. *)
Lemma not_stale s :
  (ota_rx_stale s).1 = false -> finish_stale_abort s = (tt, (ota_rx_stale s).2).
Proof.
  intros H. unfold finish_stale_abort. rewrite bind_eq, H. done.
Qed.

Lemma finish_stale_abort_drops s :
  (ota_rx_stale s).1 = true -> idle (finish_stale_abort s).2.
Proof.
  intros H. unfold finish_stale_abort. rewrite bind_eq, H. cbn [when].
  refine (triple_bind (fun _ => True) (fun _ _ => True) _ _ (fun _ => idle) _ _ _ I);
    [done|intros o].
  do 2 (apply (triple_bind _ (fun _ _ => True)); [done|intros ?]). apply finish_abort_idle.
Qed.

(** The watchdog drops exactly the transfers that have been silent for longer
    than their time-out (one minute for V1, five for V2), whatever the tick counter
    has wrapped to; another transfer is left as it is, and after a drop the receiver
    is idle, so the next BEGIN or PREPARE is not refused as busy. *)
Theorem watchdog_exact x w :
  x_lock x = true -> o_active (x_ota x) = true -> (mutex_take 1000 w).1 = true ->
  let now := (xTaskGetTickCount (mutex_take 1000 w).2).1 in
  let s := (ota_watchdog_round (x, w)).2 in
  (pdMS_TO_TICKS (rx_timeout_ms (x_ota x)) < u32 (now - o_last_rx_tick (x_ota x)) ->
   same_transfer ota_zero (x_ota s.1)) /\
  (u32 (now - o_last_rx_tick (x_ota x)) <= pdMS_TO_TICKS (rx_timeout_ms (x_ota x)) ->
   s.1 = x /\ same_flash w s.2).
Proof.
  intros Hl Ha Hm now s. subst now s. pose proof (mutex_take_keeps 1000 w) as Hk.
  unfold ota_watchdog_round. rewrite bind_eq. cbn [get_rx gets fst snd]. rewrite Hl.
  cbn [when]. rewrite bind_eq. destruct (mutex_take 1000 w) as [t w1] eqn:Em.
  cbn in Hm, Hk. subst t.
  assert (Eio : io (mutex_take 1000) (x, w) = (true, (x, w1))) by (unfold io; by rewrite Em).
  rewrite !Eio. cbn [fst snd when].
  pose proof (tick_keeps w1) as Hk2.
  assert (E : ota_rx_stale (x, w1) =
    (pdMS_TO_TICKS (rx_timeout_ms (x_ota x)) <? u32 ((xTaskGetTickCount w1).1 - o_last_rx_tick (x_ota x)),
     (x, (xTaskGetTickCount w1).2))).
  { unfold ota_rx_stale. rewrite bind_eq. cbn [get_ota gets fst snd]. rewrite Ha. cbn [negb].
    rewrite bind_eq. unfold io. by destruct (xTaskGetTickCount w1). }
  split; intros H.
  - assert (Hst : (ota_rx_stale (x, w1)).1 = true) by (rewrite E; by apply Z.ltb_lt).
    exact (finish_stale_abort_drops (x, w1) Hst).
  - rewrite not_stale; rewrite E; [|by apply Z.ltb_ge]. cbn. split; [done|]. by transitivity w1.
Qed.

(** ** V1 packets during a V2 transfer *)

Lemma io_code {A} (m : ST W A) (s : state) : (io m s).1 = (m s.2).1.
Proof. destruct s as [x w]. unfold io. cbn. by destruct (m w). Qed.

Lemma end_success_pending p P :
  triple P (end_success p) (fun e s => e = ESP_OK /\ x_reboot_pending s.1 = true).
Proof.
  set (Q := fun s : state => x_reboot_pending s.1 = true).
  assert (HQ : forall s s', still s s' -> Q s -> Q s') by (intros s s' (_ & (E & _) & _); by unfold Q; rewrite E).
  unfold end_success. apply (triple_seq _ Q); [by intros [x w]|].
  apply (triple_seq _ Q); [by apply (triple_stable still); [apply end_status_still|]|].
  apply (triple_seq _ Q); [by intros [x w]|].
  intros s Hs. rewrite reply_code. split; [done|]. apply (HQ s), Hs. apply reply_still, reboot_still.
Qed.

Lemma check_v2_hash_mismatch c s got :
  o_sha_active (x_ota s.1) = true -> sha_is_zero (o_sha256 (x_ota s.1)) = false ->
  vc_sha256 c = o_sha256 (x_ota s.1) ->
  mbedtls_md_finish (o_sha_ctx (x_ota s.1)) = Some got -> got <> o_sha256 (x_ota s.1) ->
  (check_v2_hash c s).1 = ESP_ERR_INVALID_CRC.
Proof.
  intros Ha Hnz Hs Hmd Hne. unfold check_v2_hash. rewrite bind_eq. cbv zeta.
  cbn [get_ota gets fst snd]. rewrite Hs, Hnz, (proj2 (bytes_eqb_true _ _)) by done.
  cbn [negb andb]. rewrite bind_eq, bind_eq.
  destruct s as [x w]. unfold ota_hash_finish_and_check at 1. rewrite bind_eq.
  cbn in Ha, Hmd, Hne |- *. rewrite Ha. cbn. rewrite Hmd.
  destruct (bytes_eqb got _) eqn:E; [by apply bytes_eqb_true in E|].
  cbn. apply fail_transfer_code.
Qed.

(** A V1 END does not check the hash.  When a V2 transfer has received all its
    bytes and their SHA-256 is not the announced one, the V2 COMMIT is refused with
    [ESP_ERR_INVALID_CRC], but a V1 END packet that names the size is answered
    [ESP_OK] in the same state: the image becomes the next boot image. *)
Theorem v1_end_skips_hash s p c part got :
  let o := x_ota s.1 in
  x_reboot_pending s.1 = false -> (ota_rx_stale s).1 = false ->
  o_active o = true -> o_v2_active o = true -> o_partition o = Some part ->
  o_written o = o_image_size o -> oe_image_size p = o_image_size o ->
  vc_op_id c = o_op_id o -> vc_image_size c = o_image_size o ->
  sha_is_zero (o_sha256 o) = false -> vc_sha256 c = o_sha256 o ->
  o_sha_active o = true -> mbedtls_md_finish (o_sha_ctx o) = Some got -> got <> o_sha256 o ->
  (forall w, (esp_ota_end (o_handle o) w).1 = ESP_OK) ->
  (forall w, (esp_ota_set_boot_partition part w).1 = ESP_OK) ->
  (handle_v2_commit c s).1 = ESP_ERR_INVALID_CRC /\
  (handle_end p s).1 = ESP_OK /\ x_reboot_pending (handle_end p s).2.1 = true.
Proof.
  intros o Hpend Hst Ha Hv Hp Hw Hsz Hid Hcsz Hnz Hsha Hact Hmd Hne Hend Hboot.
  pose proof (stale_vars s) as Hx. pose proof (not_stale s Hst) as Hns.
  set (s1 := (ota_rx_stale s).2) in *. split.
  - unfold handle_v2_commit. rewrite bind_eq. cbn [get_rx gets fst snd]. rewrite Hpend.
    cbn [andb]. rewrite bind_eq, Hns. cbn [fst snd]. rewrite bind_eq. cbn [get_ota gets fst snd].
    rewrite Hx. fold o. unfold not_this_transfer. rewrite Ha, Hv, Hid, Hcsz, Hw, !Z.eqb_refl.
    cbn [negb orb]. apply check_v2_hash_mismatch with got; rewrite ?Hx; done.
  - unfold handle_end. rewrite bind_eq. cbn [get_rx gets fst snd]. rewrite Hpend.
    cbn [andb]. rewrite bind_eq, Hns. cbn [fst snd]. rewrite bind_eq. cbn [get_ota gets fst snd].
    rewrite Hx. fold o. rewrite Ha, Hsz, Hw, !Z.eqb_refl. cbn [negb orb].
    rewrite bind_eq, io_code, Hend. change (negb (err_eqb ESP_OK ESP_OK)) with false. cbn iota.
    rewrite bind_eq, io_code, Hp. cbn [set_boot]. rewrite Hboot.
    change (negb (err_eqb ESP_OK ESP_OK)) with false. cbn iota.
    apply (end_success_pending p (fun _ => True)). done.
Qed.

End Props.
