(* ===== verification/OtaRxDemo.v ===== *)
(** * The OTA v1/v2 receiver: a node that is updated

    One partition, a clock that advances, a handle that never fails: a V2 image is
    prepared, filled and committed, and the V1 packets interfere with it. *)

From S2P Require Import Prelude.
From S2P Require Import Words.
From S2P Require Import Esp.
From S2P Require Import Rtos.
From S2P Require Import MeshProto.
From S2P Require Import MeshProtoV1.
From S2P Require Import OtaLib.
From S2P Require Import OtaFlashEnv.
From S2P Require Import OtaRx.
From S2P Require Import OtaRxInv.
From S2P Require Import OtaRxReach.
From S2P Require Import OtaRxProps.
#[local] Open Scope Z_scope.

#[local] Existing Instance toy_digest.
#[local] Existing Instance toy_digest_laws.

Record board := { bd_flash : bytes; bd_image : bytes; bd_tick : Z }.

Definition board_flash : FlashEnv board := {|
  esp_partition_t := unit; label := fun _ => [111]; size := fun _ => 65536;
  esp_partition_find_first := fun _ w => (Some tt, w);
  esp_partition_read := fun _ _ _ w => (inl ESP_FAIL, w);
  esp_ota_get_next_update_partition := fun w => (Some tt, w);
  esp_ota_get_running_partition := fun w => (Some tt, w);
  esp_ota_get_state_partition := fun _ _ w => ((ESP_OK, ESP_OTA_IMG_VALID), w);
  esp_ota_set_boot_partition := fun _ w => (ESP_OK, w);
  esp_ota_begin := fun _ _ w =>
    (inr 1, {| bd_flash := bd_flash w; bd_image := []; bd_tick := bd_tick w |});
  esp_ota_resume := fun _ _ w => (inl ESP_FAIL, w);
  esp_ota_write := fun _ b w =>
    (ESP_OK, {| bd_flash := bd_flash w; bd_image := bd_image w ++ b; bd_tick := bd_tick w |});
  esp_ota_end := fun _ w =>
    (ESP_OK, {| bd_flash := bd_image w; bd_image := bd_image w; bd_tick := bd_tick w |});
  esp_ota_abort := fun _ w => (ESP_OK, w);
  esp_err_u32 := fun e => if err_eqb e ESP_OK then 0 else 4294967295;
  img_state_u32 := fun _ => 2 |}.
#[local] Existing Instance board_flash.

#[local] Instance board_view : FlashView board board_flash := {|
  partition_data := fun w (_ : @esp_partition_t board board_flash) => bd_flash w;
  ota_partition := fun _ _ => Some (tt : @esp_partition_t board board_flash);
  ota_image := fun w _ => bd_image w |}.

#[local] Instance board_ota_laws : OtaLaws board board_flash board_view.
Proof.
  split; try done.
  - by intros [] n w h w' [= <- <-].
  - by intros h b w w' [= <-].
  - intros h w w' p [= <-] _. cbn. unfold slice. by rewrite drop_0, firstn_all.
Defined.

(** One tick is a millisecond, and a look at the clock takes one. *)
Definition board_rtos : Rtos board := {|
  xTaskGetTickCount := fun w =>
    (bd_tick w, {| bd_flash := bd_flash w; bd_image := bd_image w; bd_tick := u32 (bd_tick w + 1) |});
  portTICK_PERIOD_MS := 1;
  pdMS_TO_TICKS := fun ms => ms;
  mutex_create := fun w => (true, w);
  mutex_take := fun _ w => (true, w);
  queue_create := fun w => (true, w);
  task_create := fun w => (true, w);
  esp_err_to_name := fun _ => [69];
  esp_app_project := Some [107] |}.

Definition board_rx : RxEnv board := {|
  rx_rtos := board_rtos;
  rx_transport := {| keemash_mesh_get_local_mac := fun w => ([1; 2; 3; 4; 5; 6], w);
                     keemash_mesh_transport_send := fun _ _ w => (ESP_OK, w) |};
  sha256_supported := true;
  mesh_v2_node_send_ota_status := fun _ w => (ESP_OK, w);
  keemash_mesh_ota_v3_receiver_active := fun w => (false, w);
  start_reboot_task := fun w => (true, w);
  delay_and_restart := fun w => (tt, w) |}.
#[local] Existing Instance board_rx.

#[local] Instance board_rx_laws : RxLaws board board_flash board_view board_rx.
Proof. split; try done. Defined.

Definition blank_board : board := {| bd_flash := []; bd_image := []; bd_tick := 5 |}.

(** ** Payloads *)

Definition demo_common (op len offset : Z) (sha : bytes) : mesh_v2_ota_common_payload_t :=
  {| vc_op := op; vc_status := 0; vc_rsv := 0; vc_op_id := 77; vc_image_size := 4;
     vc_offset := offset; vc_len := len; vc_project_name := text_array 32 [107];
     vc_version := zeros 32; vc_sha256 := sha; vc_message := zeros 64 |}.

Definition demo_payload (c : mesh_v2_ota_common_payload_t) (data : bytes) : bytes :=
  encode_v2_common c ++ data.

Definition prepare_payload (sha : bytes) : bytes :=
  demo_payload (demo_common MESH_V2_OTA_OP_PREPARE 1024 0 sha) [].
Definition data_payload (offset : Z) (data : bytes) : bytes :=
  demo_payload (demo_common MESH_V2_OTA_OP_DATA (blen data) offset (zeros 32)) data.

Definition run_events (es : list rx_event) (s : ota_receiver * board) : ota_receiver * board :=
  fold_left (fun s e => (rx_handle e s).2) es s.

(** A payload is queued and the worker takes it. *)
Definition deliver (payload : bytes) : list rx_event := [ev_payload payload; ev_worker].

Definition no_packet (e : rx_event) : Prop :=
  match e with ev_packet _ => False | _ => event_typed e end.

Lemma run_steps strict es s : Forall no_packet es -> rtc (rx_step strict) s (run_events es s).
Proof.
  intros H. revert s. induction H as [|e es He _ IH]; intros s; [done|].
  eapply rtc_l; [|apply IH]. apply rx_event_step; destruct e; try done.
Qed.

Definition demo_image_a : bytes := [1; 2; 3; 4].
Definition demo_sha_a : bytes := toy_sha demo_image_a.

Definition transfer_events (sha image : bytes) : list rx_event :=
  ev_start :: deliver (prepare_payload sha) ++ deliver (data_payload 0 (take 2%nat image)) ++
  deliver (data_payload 2 (drop 2%nat image)).

Definition filled_with (sha image : bytes) : ota_receiver * board :=
  run_events (transfer_events sha image) (ota_receiver_boot, blank_board).

Lemma filled_reached strict sha image :
  bytes_check sha = true -> bytes_check image = true -> length sha = 32%nat ->
  length image = 4%nat ->
  rtc (rx_step strict) (ota_receiver_boot, blank_board)
    ((filled_with sha image).1, (filled_with sha image).2).
Proof.
  intros Hs Hi Hl1 Hl2. rewrite <- surjective_pairing. apply run_steps.
  assert (Ht : forall op n off sha data, bytes_check sha = true -> are_bytes data ->
    are_bytes (demo_payload (demo_common op n off sha) data)).
  { intros op n off sh data Hsh Hd. unfold demo_payload, encode_v2_common, layout.
    apply Forall_app. split; [|done]. cbn [concat demo_common vc_op vc_status vc_rsv vc_op_id
      vc_image_size vc_offset vc_len vc_project_name vc_version vc_sha256 vc_message].
    rewrite !Forall_app. repeat split; try apply le_bytes_are; try (literal_bytes);
      by apply bytes_check_ok. }
  apply bytes_check_ok in Hi. unfold transfer_events, deliver. cbn [app].
  pose proof (Ht MESH_V2_OTA_OP_PREPARE 1024 0 sha [] Hs (Forall_nil_2 _)) as H1.
  pose proof (Ht MESH_V2_OTA_OP_DATA 2 0 (zeros 32) (take 2 image) eq_refl
                (Forall_take _ _ _ Hi)) as H2.
  pose proof (Ht MESH_V2_OTA_OP_DATA 2 2 (zeros 32) (drop 2 image) eq_refl
                (Forall_drop _ _ _ Hi)) as H3.
  destruct image as [|a [|b [|c [|d [|]]]]]; try discriminate Hl2.
  do 7 (apply Forall_cons; [first [exact I|assumption]|]). by apply Forall_nil.
Qed.

Definition filled : ota_receiver * board := filled_with demo_sha_a demo_image_a.
Definition filled_run strict :
  rtc (rx_step strict) (ota_receiver_boot, blank_board) (filled.1, filled.2) :=
  filled_reached strict demo_sha_a demo_image_a eq_refl eq_refl eq_refl eq_refl.

(** ** The witnesses *)

Definition demo_commit : mesh_v2_ota_common_payload_t :=
  demo_common MESH_V2_OTA_OP_COMMIT 0 0 demo_sha_a.
Definition committed : esp_err_t * (ota_receiver * board) := handle_v2_commit demo_commit filled.

Example v2_commit_verified_witness :
  bd_flash committed.2.2 = demo_image_a /\ x_reboot_pending committed.2.1 = true /\
  exists img, slice 0 (length img) (bd_flash committed.2.2) = img /\
    toy_sha img = vc_sha256 demo_commit.
Proof.
  assert (E : handle_v2_commit demo_commit (filled.1, filled.2)
              = (ESP_OK, (committed.2.1, committed.2.2))) by (vm_compute; reflexivity).
  destruct (v2_commit_verified blank_board filled.1 filled.2 demo_commit committed.2.1
              committed.2.2 (filled_run true) E)
    as [[[[Hp _] _]|(_ & p & img & _ & _ & Hd & Hs & _)] [Hr _]].
  - vm_compute in Hp. discriminate Hp.
  - split; [vm_compute; reflexivity|]. split; [exact Hr|]. exists img. split; [exact Hd|exact Hs].
Defined.

Example transfer_in_bounds_witness :
  o_written (x_ota filled.1) = 4 /\ o_written (x_ota filled.1) <= o_image_size (x_ota filled.1).
Proof.
  split; [vm_compute; reflexivity|].
  destruct (transfer_in_bounds blank_board filled.1 filled.2 (filled_run false)) as [H _].
  destruct (H ltac:(vm_compute; reflexivity)) as (p & _ & _ & _ & Hw & _). exact (proj2 Hw).
Defined.

(** The second half arrives once more. *)
Definition repeated : mesh_v2_ota_common_payload_t :=
  demo_common MESH_V2_OTA_OP_DATA 2 2 (zeros 32).

Example v2_data_exact_witness :
  let r := handle_v2_data repeated [3; 4] 182 (filled.1, filled.2) in
  r.1 = ESP_OK /\
  data_outcome (x_ota filled.1) filled.2 repeated (take (Z.to_nat (vc_len repeated)) [3; 4]) r.1 r.2.
Proof.
  split; [vm_compute; reflexivity|].
  exact (v2_data_exact blank_board filled.1 filled.2 repeated [3; 4] 182
           (filled_run false) ltac:(vm_compute; reflexivity)
           ltac:(unfold v2_whole; vm_compute; repeat split; discriminate)).
Defined.

(** Five minutes later. *)
Definition later : board :=
  {| bd_flash := bd_flash filled.2; bd_image := bd_image filled.2; bd_tick := 300100 |}.

Example watchdog_exact_witness :
  same_transfer ota_zero (x_ota (ota_watchdog_round (filled.1, later)).2.1).
Proof.
  apply (watchdog_exact filled.1 later); vm_compute; reflexivity.
Defined.

(** Another image than the announced one. *)
Definition wrong : ota_receiver * board := filled_with demo_sha_a [9; 9; 9; 9].

Definition demo_end : mesh_ota_end_packet_t := {| oe_seq := 3; oe_image_size := 4 |}.

Example v1_end_skips_hash_witness :
  (handle_v2_commit demo_commit wrong).1 = ESP_ERR_INVALID_CRC /\
  (handle_end demo_end wrong).1 = ESP_OK /\
  x_reboot_pending (handle_end demo_end wrong).2.1 = true.
Proof.
  apply (v1_end_skips_hash wrong demo_end demo_commit tt (toy_sha [9; 9; 9; 9])).
  all: vm_compute; first [reflexivity|intros w; reflexivity|intros H; discriminate H].
Defined.

(** A V1 DATA packet inside a V2 transfer is written but not hashed, so a commit
    accepts an image that is not the hashed one. *)
Definition demo_hdr (type : Z) : mesh_pkt_hdr_t :=
  {| ph_magic := MESH_PKT_MAGIC; ph_version := MESH_PKT_VERSION; ph_type := type;
     ph_reserved := 0; ph_counter := 0; ph_src_mac := [1; 1; 1; 1; 1; 1] |}.
Definition v1_chunk : bytes :=
  encode_ota_data (demo_hdr MESH_OTA_TYPE_DATA)
    {| od_seq := 9; od_len := 2; od_offset := 2; od_data := [9; 9] |}.

Definition mixed : ota_receiver * board :=
  run_events (ev_start :: deliver (prepare_payload (toy_sha [1; 2])) ++
                deliver (data_payload 0 [1; 2]) ++ [ev_packet v1_chunk])
    (ota_receiver_boot, blank_board).

Example v1_data_unhashed :
  let '(err, (_, w)) :=
    handle_v2_commit (demo_common MESH_V2_OTA_OP_COMMIT 0 0 (toy_sha [1; 2])) mixed in
  err = ESP_OK /\ bd_flash w = [1; 2; 9; 9] /\ toy_sha (bd_flash w) <> toy_sha [1; 2].
Proof. vm_compute. repeat split. discriminate. Qed.

(** After a V1 END the reboot is pending with operation 0: a V2 COMMIT with operation 0 is
    answered with success whatever size and hash it names. *)
Definition other_commit : mesh_v2_ota_common_payload_t :=
  {| vc_op := MESH_V2_OTA_OP_COMMIT; vc_status := 0; vc_rsv := 0; vc_op_id := 0;
     vc_image_size := 999; vc_offset := 0; vc_len := 0; vc_project_name := zeros 32;
     vc_version := zeros 32; vc_sha256 := toy_sha [1; 2; 3]; vc_message := zeros 64 |}.
Definition v1_transfer : list bytes :=
  [encode_ota_begin (demo_hdr MESH_OTA_TYPE_BEGIN)
     {| ob_seq := 1; ob_chunk_size := 160; ob_image_size := 2;
        ob_project_name := text_array 32 [107]; ob_version := zeros 32 |};
   encode_ota_data (demo_hdr MESH_OTA_TYPE_DATA)
     {| od_seq := 2; od_len := 2; od_offset := 0; od_data := [9; 9] |};
   encode_ota_end (demo_hdr MESH_OTA_TYPE_END) {| oe_seq := 3; oe_image_size := 2 |}].
Definition v1_ended : ota_receiver * board :=
  run_events (ev_start :: (ev_packet <$> v1_transfer)) (ota_receiver_boot, blank_board).
Example commit_after_v1_end :
  let '(err, (_, w)) := handle_v2_commit other_commit v1_ended in
  err = ESP_OK /\ bd_flash w = [9; 9] /\ toy_sha (bd_flash w) <> vc_sha256 other_commit.
Proof. vm_compute. repeat split. discriminate. Qed.
