(* ===== verification/OtaFlash.v ===== *)
(** * OTA v3: the flash receiver (keemash_ota_v3_flash_receiver.c)

    One transfer at a time: prepare (from the start, from a checkpoint, or
    straight to the verified state a terminal checkpoint records), blocks into
    flash with a checkpoint every so many bytes, verification, activation and
    abort.  Pointers a caller passes are not NULL; [stream] is NULL exactly as
    in the struct. *)

From S2P Require Import Prelude.
From S2P Require Import Words.
From S2P Require Import Esp.
From S2P Require Import OtaLib.
From S2P Require Import OtaTypes.
From S2P Require Import OtaV3.
From S2P Require Import OtaInflate.
From S2P Require Import OtaStream.
From S2P Require Import OtaCheckpoint.
From S2P Require Import OtaFlashEnv.
#[local] Open Scope Z_scope.

Section Receiver.
Context {Cfg : OtaConfig} {D : Digest} {Key : Psa} {Pb : Nanopb} {Zl : Zlib} {W : Type}
  {Store : CheckpointEnv W} {Flash : FlashEnv W}.

Record keemash_ota_v3_flash_receiver := {
  fr_stream : option keemash_ota_v3_stream_t; fr_partition : option esp_partition_t;
  fr_handle : Z; fr_fields : keemash_ota_v3_signed_fields_t; fr_operation_id : bytes;
  fr_artifact_id : bytes; fr_signature : bytes; fr_signed_fields : bytes;
  fr_signed_fields_len : Z; fr_checkpoint_raw_offset : Z; fr_active : bool;
  fr_verified : bool; fr_resumed : bool }.

#[export] Instance eta_flash_receiver : Eta keemash_ota_v3_flash_receiver := fun r =>
  Build_keemash_ota_v3_flash_receiver (fr_stream r) (fr_partition r) (fr_handle r)
    (fr_fields r) (fr_operation_id r) (fr_artifact_id r) (fr_signature r)
    (fr_signed_fields r) (fr_signed_fields_len r) (fr_checkpoint_raw_offset r)
    (fr_active r) (fr_verified r) (fr_resumed r).

(** [calloc], and [memset] in [reset_receiver]. *)
Definition flash_receiver_zero : keemash_ota_v3_flash_receiver :=
  {| fr_stream := None; fr_partition := None; fr_handle := 0;
     fr_fields := signed_fields_zero; fr_operation_id := zeros 16;
     fr_artifact_id := zeros 32; fr_signature := zeros 64; fr_signed_fields := zeros 1024;
     fr_signed_fields_len := 0; fr_checkpoint_raw_offset := 0; fr_active := false;
     fr_verified := false; fr_resumed := false |}.

Abbreviation receiver := keemash_ota_v3_flash_receiver (only parsing).

(** A call that does not use the receiver. *)
Definition world {A : Type} (m : ST W A) : ST (receiver * W) A := fun '(r, w) =>
  let '(a, w) := m w in (a, (r, w)).

(** [signed_fields], the bytes in use. *)
Definition used_fields (r : receiver) : bytes :=
  take (Z.to_nat (fr_signed_fields_len r)) (fr_signed_fields r).

Definition fill_checkpoint (r : receiver) (phase : Z) : keemash_ota_v3_checkpoint_t :=
  {| cp_phase := u8 phase; cp_operation_id := fr_operation_id r;
     cp_artifact_id := fr_artifact_id r; cp_signature := fr_signature r;
     cp_signed_fields_len := u16 (fr_signed_fields_len r);
     cp_signed_fields := splice 0 (used_fields r) (zeros 1024);
     cp_partition_label := text_array 17 (from_option label [] (fr_partition r));
     cp_resume := resume_zero |}.

Definition with_resume (cp : keemash_ota_v3_checkpoint_t) (rp : keemash_ota_v3_resume_point_t)
  : keemash_ota_v3_checkpoint_t :=
  {| cp_phase := cp_phase cp; cp_operation_id := cp_operation_id cp;
     cp_artifact_id := cp_artifact_id cp; cp_signature := cp_signature cp;
     cp_signed_fields_len := cp_signed_fields_len cp; cp_signed_fields := cp_signed_fields cp;
     cp_partition_label := cp_partition_label cp; cp_resume := rp |}.

(** The checkpoint of a complete image. *)
Definition terminal_checkpoint (r : receiver) (phase : Z) : keemash_ota_v3_checkpoint_t :=
  with_resume (fill_checkpoint r phase)
    {| rp_next_block_index := block_count (fr_fields r);
       rp_raw_offset := raw_size (fr_fields r);
       rp_encoded_offset := encoded_size (fr_fields r);
       rp_block_chain := block_table_sha256 (fr_fields r);
       rp_image_prefix_sha256 := image_sha256 (fr_fields r) |}.

Definition save_terminal_checkpoint (r : receiver) (phase : Z) : ST W esp_err_t :=
  ok ← heap_alloc;
  if negb (ok : bool) then mret ESP_ERR_NO_MEM
  else keemash_ota_v3_checkpoint_save (terminal_checkpoint r phase).

Definition flash_output (r : receiver) (out : bytes) : ST W esp_err_t :=
  esp_ota_write (fr_handle r) out.

Definition close_active_handle : ST (receiver * W) unit := fun '(r, w) =>
  let w := if fr_active r then (esp_ota_abort (fr_handle r) w).2 else w in
  (tt, (r <| fr_active := false |>, w)).

(** [keemash_ota_v3_stream_end] changes only the stream that is freed next. *)
Definition reset_receiver : ST (receiver * W) unit :=
  close_active_handle ;;
  modify (fun '(_, w) => (flash_receiver_zero, w)).

Definition fail_receiver (error : esp_err_t) : ST (receiver * W) esp_err_t :=
  _ ← world keemash_ota_v3_checkpoint_clear;
  reset_receiver ;;
  mret error.

(** Returns [*out], [None] when it is NULL. *)
Definition keemash_ota_v3_flash_receiver_create : ST W (esp_err_t * option receiver) :=
  ok ← heap_alloc;
  mret (if (ok : bool) then (ESP_OK, Some flash_receiver_zero) else (ESP_ERR_NO_MEM, None)).

Definition same_operation (r : receiver) (operation_id artifact_id : bytes) : bool :=
  bytes_eqb (fr_operation_id r) operation_id && bytes_eqb (fr_artifact_id r) artifact_id.

(** ** Preparing *)

(** The tests of a checkpoint against a request that both phases share. *)
Definition same_transfer (cp : keemash_ota_v3_checkpoint_t)
  (operation_id artifact_id signed_fields signature : bytes) : bool :=
  bytes_eqb (cp_operation_id cp) operation_id && bytes_eqb (cp_artifact_id cp) artifact_id &&
  (cp_signed_fields_len cp =? blen signed_fields) &&
  bytes_eqb (take (length signed_fields) (cp_signed_fields cp)) signed_fields &&
  bytes_eqb (cp_signature cp) signature.

Definition repeats_prepare (r : receiver)
  (operation_id artifact_id signed_fields signature : bytes) : bool :=
  same_operation r operation_id artifact_id &&
  (fr_signed_fields_len r =? blen signed_fields) &&
  bytes_eqb (take (length signed_fields) (fr_signed_fields r)) signed_fields &&
  bytes_eqb (fr_signature r) signature.

(** The copies of the request into the struct. *)
Definition keep_request (operation_id artifact_id signed_fields signature : bytes)
  (r : receiver) : receiver :=
  let r := r <| fr_operation_id := operation_id |> in
  let r := r <| fr_artifact_id := artifact_id |> in
  let r := r <| fr_signature := signature |> in
  let r := r <| fr_signed_fields ::= splice 0 signed_fields |> in
  r <| fr_signed_fields_len := blen signed_fields |>.

(** A terminal checkpoint of this transfer: nothing is left to receive. *)
Definition restore_terminal (cp : keemash_ota_v3_checkpoint_t)
  (fields : keemash_ota_v3_signed_fields_t)
  (operation_id artifact_id signed_fields signature : bytes) : ST (receiver * W) esp_err_t :=
  saved_partition ← world (esp_partition_find_first (cstr (cp_partition_label cp)));
  match saved_partition with
  | None => mret ESP_ERR_NOT_FOUND
  | Some p =>
      modify (fun '(r, w) =>
        let r := r <| fr_partition := Some p |> in
        let r := r <| fr_fields := fields |> in
        let r := keep_request operation_id artifact_id signed_fields signature r in
        let r := r <| fr_verified := true |> in
        (r <| fr_resumed := true |>, w)) ;;
      mret ESP_OK
  end.

(** The stream and the OTA handle of a transfer that continues a checkpoint. *)
Definition open_resumed (p : esp_partition_t) (rp : keemash_ota_v3_resume_point_t)
  : ST (receiver * W) esp_err_t := fun '(r, w) =>
  let '(err, (s, w)) := keemash_ota_v3_stream_resume (esp_partition_read p) (fr_fields r) rp
                          (stream_zero, w) in
  let r := r <| fr_stream := Some s |> in
  if negb (err_eqb err ESP_OK) then (err, (r, w))
  else
    match esp_ota_resume p (rp_raw_offset rp) w with
    | (inl err, w) => (err, (r, w))
    | (inr handle, w) =>
        let r := r <| fr_handle := handle |> in
        let r := r <| fr_checkpoint_raw_offset := rp_raw_offset rp |> in
        (ESP_OK, (r <| fr_resumed := true |>, w))
    end.

(** The same for a transfer from the start. *)
Definition open_new (p : esp_partition_t) : ST (receiver * W) esp_err_t := fun '(r, w) =>
  let '(err, s) := keemash_ota_v3_stream_begin (fr_fields r) stream_zero in
  let r := r <| fr_stream := Some s |> in
  if negb (err_eqb err ESP_OK) then (err, (r, w))
  else
    match esp_ota_begin p OTA_WITH_SEQUENTIAL_WRITES w with
    | (inl err, w) => (err, (r, w))
    | (inr handle, w) => (ESP_OK, (r <| fr_handle := handle |>, w))
    end.

Definition start_transfer (p : esp_partition_t) (fields : keemash_ota_v3_signed_fields_t)
  (resume : option keemash_ota_v3_resume_point_t)
  (operation_id artifact_id signed_fields signature : bytes) : ST (receiver * W) esp_err_t :=
  ok ← world heap_alloc;
  if negb (ok : bool) then mret ESP_ERR_NO_MEM
  else
    modify (fun '(r, w) =>
      let r := r <| fr_stream := Some stream_zero |> in
      let r := r <| fr_partition := Some p |> in
      (r <| fr_fields := fields |>, w)) ;;
    err ← match resume with
          | Some rp => open_resumed p rp
          | None => open_new p
          end;
    if negb (err_eqb err ESP_OK) then reset_receiver ;; mret err
    else
      modify (fun '(r, w) =>
        let r := keep_request operation_id artifact_id signed_fields signature r in
        (r <| fr_active := true |>, w)) ;;
      mret ESP_OK.

(** ** The node's own identity, which every request is checked against *)

Section Node.
Context (project_name chip_target : bytes) (core_version fabric_schema : Z)
  (preflight : ST W esp_err_t).

(** The checks before the checkpoint is looked at. *)
Definition check_request (signed_fields signature : bytes)
  : ST W (res (keemash_ota_v3_signed_fields_t * esp_partition_t)) :=
  match keemash_ota_v3_verify_signed_fields signed_fields signature with
  | inl err => mret (inl err)
  | inr fields =>
      err ← preflight;
      if negb (err_eqb err ESP_OK) then mret (inl err)
      else
        partition ← esp_ota_get_next_update_partition;
        match partition with
        | None => mret (inl ESP_ERR_NOT_FOUND)
        | Some p =>
            mret (keemash_ota_v3_check_target fields project_name chip_target (size p)
                    core_version fabric_schema ;;
                  mret (fields, p))
        end
  end.

Definition keemash_ota_v3_flash_receiver_prepare
  (operation_id artifact_id signed_fields signature : bytes) : ST (receiver * W) esp_err_t :=
  fun '(r, w) =>
  if (blen signed_fields =? 0) || (KEEMASH_OTA_V3_SIGNED_FIELDS_MAX <? blen signed_fields)
  then (ESP_ERR_INVALID_ARG, (r, w))
  else if fr_active r || fr_verified r then
    (if repeats_prepare r operation_id artifact_id signed_fields signature then ESP_OK
     else ESP_ERR_INVALID_STATE, (r, w))
  else
    match check_request signed_fields signature w with
    | (inl err, w) => (err, (r, w))
    | (inr (fields, p), w) =>
        let '(ok, w) := heap_alloc w in
        if negb (ok : bool) then (ESP_ERR_NO_MEM, (r, w))
        else
          match keemash_ota_v3_checkpoint_load w with
          | (inl err, w) =>
              if err_eqb err ESP_ERR_NOT_FOUND
              then start_transfer p fields None operation_id artifact_id signed_fields
                     signature (r, w)
              else (err, (r, w))
          | (inr cp, w) =>
              if negb (same_transfer cp operation_id artifact_id signed_fields signature)
              then (ESP_ERR_INVALID_STATE, (r, w))
              else if negb (cp_phase cp =? CHECKPOINT_TRANSFERRING)
              then restore_terminal cp fields operation_id artifact_id signed_fields
                     signature (r, w)
              else if negb (bytes_eqb (cstr (cp_partition_label cp)) (label p))
              then (ESP_ERR_INVALID_STATE, (r, w))
              else start_transfer p fields (Some (cp_resume cp)) operation_id artifact_id
                     signed_fields signature (r, w)
          end
    end.

(** ** Receiving *)

(** The stream of an active receiver. *)
Definition stream_of (r : receiver) : keemash_ota_v3_stream_t := default stream_zero (fr_stream r).

(** [if (stream->raw_offset == ... ) return ESP_OK;] *)
Definition no_checkpoint_due (r : receiver) : bool :=
  let raw := s_raw_offset (stream_of r) in
  (raw =? fr_checkpoint_raw_offset r) || (raw =? 0) || (raw_size (fr_fields r) <=? raw) ||
  negb (raw mod CONFIG_KEEMASH_OTA_V3_CHECKPOINT_BYTES =? 0).

Definition save_progress (r : receiver) : ST W esp_err_t :=
  match keemash_ota_v3_stream_checkpoint (stream_of r) with
  | inl err => mret err
  | inr rp =>
      keemash_ota_v3_checkpoint_save (with_resume (fill_checkpoint r CHECKPOINT_TRANSFERRING) rp)
  end.

Definition keemash_ota_v3_flash_receiver_write (descriptor : FirmwareBlockDescriptor)
  (block_encoded_offset : Z) (chunk : bytes) (final_chunk : bool)
  : ST (receiver * W) esp_err_t := fun '(r, w) =>
  if negb (fr_active r) then (ESP_ERR_INVALID_STATE, (r, w))
  else
    let '(err, (s, w)) :=
      keemash_ota_v3_stream_feed (flash_output r) descriptor block_encoded_offset chunk
        final_chunk (stream_of r, w) in
    let r := r <| fr_stream := Some s |> in
    if negb (err_eqb err ESP_OK) then fail_receiver err (r, w)
    else if no_checkpoint_due r then (ESP_OK, (r, w))
    else
      let '(ok, w) := heap_alloc w in
      if negb (ok : bool) then fail_receiver ESP_ERR_NO_MEM (r, w)
      else
        let '(err, w) := save_progress r w in
        if negb (err_eqb err ESP_OK) then fail_receiver err (r, w)
        else (ESP_OK, (r <| fr_checkpoint_raw_offset := s_raw_offset s |>, w)).

(** Returns [*verified_partition]. *)
Definition keemash_ota_v3_flash_receiver_verify
  : ST (receiver * W) (res (option esp_partition_t)) := fun '(r, w) =>
  if negb (fr_active r) then (inl ESP_ERR_INVALID_STATE, (r, w))
  else
    let '(err, s) := keemash_ota_v3_stream_finish (stream_of r) in
    let r := r <| fr_stream := Some s |> in
    if negb (err_eqb err ESP_OK) then
      let '(err, rw) := fail_receiver err (r, w) in (inl err, rw)
    else
      let '(err, w) := esp_ota_end (fr_handle r) w in
      let r := r <| fr_active := false |> in
      if negb (err_eqb err ESP_OK) then
        let '(err, rw) := fail_receiver err (r, w) in (inl err, rw)
      else
        let r := r <| fr_verified := true |> in
        let '(err, w) := save_terminal_checkpoint r CHECKPOINT_VERIFIED w in
        if negb (err_eqb err ESP_OK) then
          let '(err, rw) := fail_receiver err (r, w) in (inl err, rw)
        else (inr (fr_partition r), (r, w)).

Definition keemash_ota_v3_flash_receiver_activate : ST (receiver * W) esp_err_t := fun '(r, w) =>
  match fr_active r, fr_verified r, fr_partition r with
  | false, true, Some p =>
      let '(err, w) :=
        and_then preflight
          (and_then (save_terminal_checkpoint r CHECKPOINT_BOOT_PENDING) (fun w =>
            let '(err, w) := esp_ota_set_boot_partition p w in
            if err_eqb err ESP_OK then (ESP_OK, w)
            else
              let '(restore_err, w) := save_terminal_checkpoint r CHECKPOINT_VERIFIED w in
              (if err_eqb restore_err ESP_OK then err else restore_err, w))) w in
      (err, (r, w))
  | _, _, _ => (ESP_ERR_INVALID_STATE, (r, w))
  end.

Definition keemash_ota_v3_flash_receiver_abort_current : ST (receiver * W) esp_err_t :=
  fun '(r, w) =>
  if negb (fr_active r) && negb (fr_verified r) then (ESP_ERR_INVALID_STATE, (r, w))
  else
    let '(err, w) := keemash_ota_v3_checkpoint_clear w in
    if negb (err_eqb err ESP_OK) then (err, (r, w))
    else
      let '(_, rw) := reset_receiver (r, w) in (ESP_OK, rw).

(** The checkpoint's identity against the request's, after a load. *)
Definition match_checkpoint (operation_id artifact_id : bytes) (mismatch : esp_err_t)
  : ST W esp_err_t :=
  ok ← heap_alloc;
  if negb (ok : bool) then mret ESP_ERR_NO_MEM
  else
    loaded ← keemash_ota_v3_checkpoint_load;
    mret (match loaded with
          | inl err => err
          | inr cp =>
              if negb (bytes_eqb (cp_operation_id cp) operation_id) ||
                 negb (bytes_eqb (cp_artifact_id cp) artifact_id)
              then mismatch else ESP_OK
          end).

Definition keemash_ota_v3_flash_receiver_abort (operation_id artifact_id : bytes)
  : ST (receiver * W) esp_err_t := fun '(r, w) =>
  if (fr_active r || fr_verified r) && negb (same_operation r operation_id artifact_id)
  then (ESP_ERR_INVALID_STATE, (r, w))
  else if negb (fr_active r) && negb (fr_verified r) then
    and_then (world (match_checkpoint operation_id artifact_id ESP_ERR_INVALID_STATE))
      keemash_ota_v3_flash_receiver_abort_current (r, w)
  else keemash_ota_v3_flash_receiver_abort_current (r, w).

(** ** Requests from the mesh *)

(** The eight bytes of one half, most significant first. *)
Definition be64 (z : Z) : bytes :=
  map (fun i => u8 (Z.shiftr z (56 - 8 * i))) [0; 1; 2; 3; 4; 5; 6; 7].

Definition operation_bytes (id : Id128) : bytes := be64 (high id) ++ be64 (low id).

Definition matching_transfer (r : receiver) (id : Id128) (artifact_id : bytes) : bool :=
  if negb (blen artifact_id =? KEEMASH_OTA_V3_SHA256_LEN) ||
     (negb (fr_active r) && negb (fr_verified r)) then false
  else same_operation r (operation_bytes id) artifact_id.

Definition match_persisted_transfer (id : Id128) (artifact_id : bytes) : ST W esp_err_t :=
  if negb (blen artifact_id =? KEEMASH_OTA_V3_SHA256_LEN) then mret ESP_ERR_INVALID_ARG
  else match_checkpoint (operation_bytes id) artifact_id ESP_ERR_NOT_FOUND.

Definition prepare_malformed (m : OtaPrepare) : bool :=
  negb (pr_has_operation_id m) || negb (blen (pr_artifact_id m) =? KEEMASH_OTA_V3_SHA256_LEN) ||
  negb (blen (pr_signature m) =? KEEMASH_OTA_V3_SIGNATURE_LEN) ||
  (blen (pr_signed_fields m) =? 0) ||
  (negb (pr_requested_chunk_size m =? 0) && negb (pr_requested_chunk_size m =? 1024) &&
   negb (pr_requested_chunk_size m =? 2048)) ||
  (4 <? pr_requested_window m).

Definition commit_mismatch (r : receiver) (m : OtaCommit) : bool :=
  negb (co_has_operation_id m) || negb (matching_transfer r (co_operation_id m) (co_artifact_id m)) ||
  negb (blen (co_block_table_sha256 m) =? KEEMASH_OTA_V3_SHA256_LEN) ||
  negb (blen (co_image_sha256 m) =? KEEMASH_OTA_V3_SHA256_LEN) ||
  negb (bytes_eqb (co_block_table_sha256 m) (block_table_sha256 (fr_fields r))) ||
  negb (bytes_eqb (co_image_sha256 m) (image_sha256 (fr_fields r))).

(** A handler that leaves [*verified_partition] NULL. *)
Definition no_partition (m : ST (receiver * W) esp_err_t)
  : ST (receiver * W) (esp_err_t * option esp_partition_t) :=
  err ← m; mret (err, None).

(** Returns the result and [*verified_partition]. *)
Definition keemash_ota_v3_flash_receiver_handle_transfer (transfer : OtaTransfer)
  : ST (receiver * W) (esp_err_t * option esp_partition_t) := fun '(r, w) =>
  match transfer with
  | OtaTransfer_prepare m =>
      if prepare_malformed m then ((ESP_ERR_INVALID_ARG, None), (r, w))
      else no_partition (keemash_ota_v3_flash_receiver_prepare
             (operation_bytes (pr_operation_id m)) (pr_artifact_id m) (pr_signed_fields m)
             (pr_signature m)) (r, w)
  | OtaTransfer_data m =>
      if negb (bc_has_operation_id m) || negb (bc_has_block m) || (blen (bc_data m) =? 0) ||
         negb (matching_transfer r (bc_operation_id m) (bc_artifact_id m))
      then ((ESP_ERR_INVALID_ARG, None), (r, w))
      else no_partition (keemash_ota_v3_flash_receiver_write (bc_block m)
             (bc_block_encoded_offset m) (bc_data m) (bc_final_chunk m)) (r, w)
  | OtaTransfer_commit m =>
      if commit_mismatch r m then ((ESP_ERR_INVALID_ARG, None), (r, w))
      else if fr_verified r then ((ESP_OK, fr_partition r), (r, w))
      else
        match keemash_ota_v3_flash_receiver_verify (r, w) with
        | (inl err, rw) => ((err, None), rw)
        | (inr p, rw) => ((ESP_OK, p), rw)
        end
  | OtaTransfer_abort m =>
      if negb (ab_has_operation_id m) ||
         negb (blen (ab_artifact_id m) =? KEEMASH_OTA_V3_SHA256_LEN)
      then ((ESP_ERR_INVALID_ARG, None), (r, w))
      else no_partition (keemash_ota_v3_flash_receiver_abort
             (operation_bytes (ab_operation_id m)) (ab_artifact_id m)) (r, w)
  | OtaTransfer_query m =>
      if negb (qu_has_operation_id m) then ((ESP_ERR_INVALID_ARG, None), (r, w))
      else if matching_transfer r (qu_operation_id m) (qu_artifact_id m)
      then ((ESP_OK, None), (r, w))
      else no_partition (world (match_persisted_transfer (qu_operation_id m)
             (qu_artifact_id m))) (r, w)
  | _ => ((ESP_ERR_NOT_SUPPORTED, None), (r, w))
  end.

End Node.

(** ** Status *)

Record keemash_ota_v3_flash_status_t := {
  fs_raw_offset : Z; fs_encoded_offset : Z; fs_next_block_index : Z; fs_active : bool;
  fs_verified : bool; fs_resumed : bool }.

Definition keemash_ota_v3_flash_receiver_status (r : receiver) : keemash_ota_v3_flash_status_t :=
  match fr_stream r with
  | None =>
      {| fs_raw_offset := 0; fs_encoded_offset := 0; fs_next_block_index := 0;
         fs_active := fr_active r; fs_verified := fr_verified r; fs_resumed := fr_resumed r |}
  | Some s =>
      {| fs_raw_offset := s_raw_offset s;
         fs_encoded_offset := u32 (s_encoded_offset s +
           (if s_block_active s then s_block_encoded_offset s else 0));
         fs_next_block_index := s_next_block_index s;
         fs_active := fr_active r; fs_verified := fr_verified r; fs_resumed := fr_resumed r |}
  end.

(** The memory is freed; what remains is the closed handle. *)
Definition keemash_ota_v3_flash_receiver_destroy (r : receiver) : ST W unit := fun w =>
  let '(_, (_, w)) := reset_receiver (r, w) in (tt, w).

End Receiver.
