(* ===== verification/OtaFlashProps.v ===== *)
(** * OTA v3: what the flash receiver guarantees

    The receiver's state is related to the abstract receiver of OtaRefine and to
    the flash at every step; so an image that is reported as verified is the
    signed image, byte for byte, in the partition that is reported. *)

From S2P Require Import Prelude.
From S2P Require Import Words.
From S2P Require Import Esp.
From S2P Require Import OtaLib.
From S2P Require Import OtaTypes.
From S2P Require Import OtaV3.
From S2P Require Import OtaChain.
From S2P Require Import OtaInflate.
From S2P Require Import OtaStream.
From S2P Require Import OtaRefine.
From S2P Require Import OtaImage.
From S2P Require Import OtaCheckpoint.
From S2P Require Import OtaFlashEnv.
From S2P Require Import OtaFlash.
#[local] Open Scope Z_scope.

Section FlashProps.
Context {Cfg : OtaConfig} {D : Digest} {Key : Psa} {Pb : Nanopb} {Zl : Zlib} {W : Type}
  {Store : CheckpointEnv W} {Flash : FlashEnv W} {View : FlashView W Flash}
  {HD : DigestLaws D} {HP : NanopbLaws Pb} {HZ : ZlibLaws Zl}
  {HF : FlashLaws W Flash View Store}.

Abbreviation receiver := keemash_ota_v3_flash_receiver (only parsing).

(** ** The store leaves the flash alone *)

#[local] Hint Resolve open_keeps set_keeps commit_keeps alloc_keeps find_keeps
  next_keeps : stable.
#[local] Hint Extern 1 (stable _ (nvs_get_blob _ _)) => apply get_keeps : stable.

Lemma load_keeps : stable same_flash keemash_ota_v3_checkpoint_load.
Proof. unfold keemash_ota_v3_checkpoint_load, latest_record, read_record. stable_auto. Qed.

Lemma write_record_keeps cp : stable same_flash (write_record cp).
Proof.
  unfold write_record, latest_record, read_record, and_then. stable_auto.
Qed.

#[local] Hint Resolve write_record_keeps : stable.
#[local] Hint Extern 1 (stable _ keemash_ota_v3_checkpoint_load) => apply load_keeps : stable.

Lemma save_keeps cp : stable same_flash (keemash_ota_v3_checkpoint_save cp).
Proof. unfold keemash_ota_v3_checkpoint_save. stable_auto. Qed.

Lemma clear_keeps : stable same_flash keemash_ota_v3_checkpoint_clear.
Proof. apply write_record_keeps. Qed.

#[local] Hint Resolve save_keeps clear_keeps : stable.

Lemma save_terminal_keeps r phase : stable same_flash (save_terminal_checkpoint r phase).
Proof. unfold save_terminal_checkpoint. stable_auto. Qed.

Lemma save_progress_keeps r : stable same_flash (save_progress r).
Proof. unfold save_progress. stable_auto. Qed.

Lemma match_checkpoint_keeps op art e : stable same_flash (match_checkpoint op art e).
Proof. unfold match_checkpoint. stable_auto. Qed.

(** A stable call that has been run. *)
Lemma stable_run {A : Type} (m : ST W A) w a w' :
  stable same_flash m -> m w = (a, w') -> same_flash w w'.
Proof. intros Hm E. specialize (Hm w). by rewrite E in Hm. Qed.

(** What a loaded checkpoint contains comes from a blob, which is bytes. *)
Lemma read_record_typed k w r :
  (read_record k w).1 = Some r -> resume_point_typed (cp_resume (st_checkpoint r)).
Proof.
  unfold read_record. rewrite bind_eq, ret_eq. pose proof (get_bytes k RECORD_SIZE w) as Hb.
  destruct (nvs_get_blob k RECORD_SIZE w) as [[e|b] w1]; [done|]. cbn [fst snd] in *.
  specialize (Hb b eq_refl). unfold usable. destruct (_ && _); [|done]. intros [= <-].
  repeat split; cbn; by apply get_le_u32.
Qed.

Lemma load_typed w cp w' :
  keemash_ota_v3_checkpoint_load w = (inr cp, w') -> resume_point_typed (cp_resume cp).
Proof.
  unfold keemash_ota_v3_checkpoint_load. rewrite bind_eq.
  destruct (err_eqb _ _); [done|]. destruct (negb _); [done|]. rewrite bind_eq.
  destruct (negb _); [done|]. rewrite bind_eq, ret_eq. unfold latest_record. rewrite bind_eq.
  destruct (negb _); [done|]. rewrite !bind_eq, ret_eq. cbn [fst snd]. intros [= H _].
  match type of H with context [pick_latest (read_record V3A ?x).1 (read_record V3B ?y).1] =>
    pose proof (read_record_typed V3A x) as Ha; pose proof (read_record_typed V3B y) as Hb end.
  unfold pick_latest in H. repeat case_match; simplify_eq; eauto.
Qed.

(** ** The receiver's state *)

(** Writing [b] through a handle. *)
Definition writes (h : Z) (w : W) (b : bytes) (w' : W) : Prop :=
  ota_partition w' h = ota_partition w h /\ ota_image w' h = ota_image w h ++ b.

Lemma writes_nil h w : writes h w [] w.
Proof. split; [done|]. by rewrite app_nil_r. Qed.

Lemma writes_accepts h : accepts (esp_ota_write h) (writes h).
Proof.
  split; [|split].
  - apply writes_nil.
  - intros w b w' H. by apply write_ok in H.
  - intros w b w' b' w'' [Hp Hi] [Hp' Hi']. split; [congruence|].
    by rewrite Hi', Hi, app_assoc.
Qed.

(** Where a transfer may start: at the beginning, or at a block boundary with
    some payload received. *)
Definition start_point (f : keemash_ota_v3_signed_fields_t) (rp : keemash_ota_v3_resume_point_t)
  : Prop :=
  rp_next_block_index rp * block_size f = rp_raw_offset rp /\
  0 <= rp_next_block_index rp /\ 0 <= rp_encoded_offset rp /\
  (0 < rp_next_block_index rp -> 0 < rp_encoded_offset rp).

(** A transfer in progress: the stream is in the relation of OtaRefine with an
    abstract receiver, whose raw bytes have been written through the handle
    after the bytes the handle already had; no checkpoint is overdue. *)
Record receiving (r : receiver) (w : W) (s : keemash_ota_v3_stream_t) (p : esp_partition_t)
  (a : image_rx) (rp : keemash_ota_v3_resume_point_t) (full : bool) (w0 : W) : Prop := {
  rc_stream : fr_stream r = Some s;
  rc_partition : fr_partition r = Some p;
  rc_handle : ota_partition w0 (fr_handle r) = Some p;
  rc_rel : rel (writes (fr_handle r)) (fr_fields r) rp (ota_image w0 (fr_handle r)) full w0 a s w;
  rc_prefix : blen (ota_image w0 (fr_handle r)) = rp_raw_offset rp;
  rc_start : start_point (fr_fields r) rp;
  rc_checkpoint : no_checkpoint_due r = true;
  rc_codec : block_size (fr_fields r) = KEEMASH_OTA_V3_FULL_BLOCK_SIZE }.

(** The request in the struct: authenticated, and its arrays are filled. *)
Record held (r : receiver) : Prop := {
  hd_verified : keemash_ota_v3_verify_signed_fields (used_fields r) (fr_signature r)
                = inr (fr_fields r);
  hd_operation : length (fr_operation_id r) = 16%nat;
  hd_artifact : length (fr_artifact_id r) = 32%nat;
  hd_signature : length (fr_signature r) = 64%nat;
  hd_array : length (fr_signed_fields r) = 1024%nat;
  hd_len : 0 < fr_signed_fields_len r <= 1024;
  hd_bytes : Forall are_bytes [fr_operation_id r; fr_artifact_id r; fr_signature r;
                               fr_signed_fields r] }.

(** Idle, receiving, or verified. *)
Inductive flash_ok (r : receiver) (w : W) : Prop :=
  | fo_idle : r = flash_receiver_zero -> flash_ok r w
  | fo_active s p a rp full w0 :
      fr_active r = true -> fr_verified r = false -> held r ->
      receiving r w s p a rp full w0 -> flash_ok r w
  | fo_verified :
      fr_active r = false -> fr_verified r = true -> held r -> is_Some (fr_partition r) ->
      flash_ok r w.

Lemma writes_same_l h w b w1 w2 : writes h w b w1 -> same_flash w1 w2 -> writes h w b w2.
Proof. intros [Hp Hi] [_ H]. destruct (H h). split; congruence. Qed.

Lemma rel_same h f rp pre full w0 a s w w' :
  rel (writes h) f rp pre full w0 a s w -> same_flash w w' ->
  rel (writes h) f rp pre full w0 a s w'.
Proof. intros [? ? ? ? ? ? ? ? ? Ho] Hs. split; try done. by eapply writes_same_l. Qed.

(** Only the output relation depends on the world. *)
Lemma rel_rebase (R R' : W -> bytes -> W -> Prop) f rp pre full w0 w s w1 :
  rel R f rp pre full w0 rx_start s w -> R' w1 [] w1 ->
  rel R' f rp pre full w1 rx_start s w1.
Proof. intros [? ? ? ? ? ? ? ? ? _] H. by split. Qed.

Lemma receiving_same r w w' s p a rp full w0 :
  receiving r w s p a rp full w0 -> same_flash w w' -> receiving r w' s p a rp full w0.
Proof. intros [] Hs. split; try done. by eapply rel_same. Qed.

Lemma flash_ok_same r w w' : flash_ok r w -> same_flash w w' -> flash_ok r w'.
Proof.
  intros [Hz|s p a rp full w0 Ha Hv Hh Hr|Ha Hv Hh Hp] Hs.
  - by apply fo_idle.
  - eapply fo_active; [done..|]. by eapply receiving_same.
  - by apply fo_verified.
Qed.

Lemma flash_ok_idle r w :
  flash_ok r w -> fr_active r = false -> fr_verified r = false -> r = flash_receiver_zero.
Proof.
  intros [Hz|s p a rp full w0 Ha Hv Hh Hr|Ha Hv Hh Hp] Ha' Hv'; [done|congruence|congruence].
Qed.

Lemma flash_ok_active r w :
  flash_ok r w -> fr_active r = true ->
  held r /\ fr_verified r = false /\
  exists s p a rp full w0, receiving r w s p a rp full w0.
Proof.
  intros [Hz|s p a rp full w0 Ha Hv Hh Hr|Ha Hv Hh Hp] Ha'; [by subst r| |congruence].
  split; [done|]. split; [done|]. by exists s, p, a, rp, full, w0.
Qed.

Lemma reset_zero r w : (reset_receiver (r, w)).2.1 = flash_receiver_zero.
Proof. done. Qed.

Lemma fail_spec e r w :
  (fail_receiver e (r, w)).1 = e /\ (fail_receiver e (r, w)).2.1 = flash_receiver_zero.
Proof.
  unfold fail_receiver. rewrite bind_eq. unfold world.
  destruct (keemash_ota_v3_checkpoint_clear w) as [c w1]. done.
Qed.

(** ** Preparing *)

Record request_typed (operation_id artifact_id signed_fields signature : bytes) : Prop := {
  rq_operation : length operation_id = 16%nat;
  rq_artifact : length artifact_id = 32%nat;
  rq_signature : length signature = 64%nat;
  rq_bytes : Forall are_bytes [operation_id; artifact_id; signature; signed_fields] }.

Lemma keep_request_held op art sf sig r f r' :
  request_typed op art sf sig -> 0 < blen sf <= 1024 ->
  keemash_ota_v3_verify_signed_fields sf sig = inr f ->
  fr_fields r = f -> length (fr_signed_fields r) = 1024%nat -> are_bytes (fr_signed_fields r) ->
  r' = keep_request op art sf sig r -> held r'.
Proof.
  intros [Ho Ha Hs Hb] Hl Hv Hf Hn Hz ->. rewrite !Forall_cons_iff in Hb.
  destruct Hb as (B1 & B2 & B3 & B4 & _). unfold blen in Hl.
  split; cbn [keep_request set_field upd_field]; try done.
  - unfold used_fields. cbn. unfold blen. rewrite Nat2Z.id.
    change (take 0 _ ++ ?x) with x. rewrite take_app_length. by rewrite Hf.
  - change (length (splice 0 sf (fr_signed_fields r)) = 1024%nat). rewrite length_splice; [done|lia].
  - repeat (constructor; [done|]). constructor; [|constructor].
    change (are_bytes (sf ++ drop (length sf) (fr_signed_fields r))). apply Forall_app. split; [done|]. by apply Forall_drop.
Qed.

Lemma begin_full_blocks f s s' :
  keemash_ota_v3_stream_begin f s = (ESP_OK, s') -> block_size f = KEEMASH_OTA_V3_FULL_BLOCK_SIZE.
Proof.
  unfold keemash_ota_v3_stream_begin. destruct (_ || _) eqn:E; [done|]. intros _. by bools.
Qed.

(** What an opened transfer looks like before the request is copied. *)
Record opened (r0 r : receiver) (w : W) (p : esp_partition_t) : Prop := {
  op_fields : fr_fields r = fr_fields r0;
  op_array : fr_signed_fields r = fr_signed_fields r0;
  op_verified : fr_verified r = fr_verified r0;
  op_receiving : exists s rp full, receiving r w s p rx_start rp full w }.

Lemma open_new_ok p r w r' w' :
  fr_partition r = Some p -> fields_ok (fr_fields r) -> fr_checkpoint_raw_offset r = 0 ->
  open_new p (r, w) = (ESP_OK, (r', w')) -> opened r r' w' p.
Proof.
  intros Hp Hf Hc H. unfold open_new in H.
  destruct (keemash_ota_v3_stream_begin _ _) as [e s] eqn:Eb.
  destruct (err_eqb e ESP_OK) eqn:Ee; cbn [negb] in H;
    [|apply err_eqb_false in Ee; congruence]. apply err_eqb_true in Ee as ->.
  destruct (esp_ota_begin p OTA_WITH_SEQUENTIAL_WRITES w) as [[e|h] w1] eqn:Eo; [by apply begin_code in Eo; congruence|].
  apply begin_ok in Eo as [Hpart Himg]. injection H as <- <-.
  pose proof (begin_full_blocks _ _ _ Eb) as Hbs.
  pose proof (begin_rel (fun _ => mret ESP_OK) _ _ _ w Hf Eb) as Hr.
  assert (Hraw : s_raw_offset s = 0).
  { destruct Hr as [_ _ _ (c & Ht & _) _ _ _ _ _ _]. by injection Ht as <- _ _. }
  split; try done. exists s, rp_start, true.
  split; try done; cbn [fr_handle fr_fields set_field].
  - cbn. rewrite Himg. eapply rel_rebase; [exact Hr|]. apply writes_nil.
  - cbn. by rewrite Himg.
  - unfold no_checkpoint_due, stream_of. cbn. by rewrite Hraw, Hc.
Qed.

Lemma open_resumed_ok p rp r w r' w' :
  fr_partition r = Some p -> fields_ok (fr_fields r) -> resume_point_typed rp ->
  open_resumed p rp (r, w) = (ESP_OK, (r', w')) -> opened r r' w' p.
Proof.
  intros Hp Hf Hrp H. unfold open_resumed in H.
  destruct (keemash_ota_v3_stream_resume _ _ _ _) as [e [s w1]] eqn:Er.
  destruct (err_eqb e ESP_OK) eqn:Ee; cbn [negb] in H;
    [|apply err_eqb_false in Ee; congruence]. apply err_eqb_true in Ee as ->.
  assert (resume_point_wrong (fr_fields r) rp = false /\
               block_size (fr_fields r) = KEEMASH_OTA_V3_FULL_BLOCK_SIZE) as [Hw Hbs].
  { unfold keemash_ota_v3_stream_resume in Er. destruct (resume_point_wrong _ _); [done|].
    split; [done|]. apply and_then_inv in Er as ([s2 w2] & Hb & _). unfold on_stream in Hb.
    destruct (keemash_ota_v3_stream_begin _ _) as [e s3] eqn:Eb. injection Hb as -> _ _.
    by apply begin_full_blocks in Eb. }
  destruct (resume_rel (fun _ => mret ESP_OK) _ _ _ _ _ _ _ _ (read_ok p) Hf Hrp Er)
    as (-> & Hr & Hl & _).
  destruct (esp_ota_resume _ _ _) as [[e|h] w2] eqn:Eo; [by apply resume_code in Eo; congruence|].
  apply resume_ok in Eo as [Hpart Himg]; [|apply Hrp]. injection H as <- <-.
  destruct Hrp as (Hi & Hro & Heo). unfold resume_point_wrong, is_u32 in *. bools.
  assert (Hraw : s_raw_offset s = rp_raw_offset rp).
  { destruct Hr as [_ _ _ (c & Ht & _) _ _ _ _ _ _]. by injection Ht as <- _ _. }
  split; try done. exists s, rp, false.
  split; try done; cbn [fr_handle fr_fields set_field].
  - cbn. rewrite Himg. eapply rel_rebase; [exact Hr|]. apply writes_nil.
  - cbn. rewrite Himg. exact Hl.
  - cbn. unfold start_point. rewrite Hbs in *. ota_consts.
    match goal with H : u64 _ = _ |- _ => rewrite u64_id in H by (unfold is_u64; lia) end. lia.
  - unfold no_checkpoint_due, stream_of. cbn. by rewrite Hraw, Z.eqb_refl.
Qed.


Lemma start_transfer_ok p f rp op art sf sig r w e r' w' :
  r = flash_receiver_zero -> request_typed op art sf sig -> 0 < blen sf <= 1024 ->
  keemash_ota_v3_verify_signed_fields sf sig = inr f ->
  (forall x, rp = Some x -> resume_point_typed x) ->
  start_transfer p f rp op art sf sig (r, w) = (e, (r', w')) -> flash_ok r' w'.
Proof.
  intros -> Hq Hl Hv Hrp H. pose proof (proj1 (signed_fields_ok _ _ _ Hv)) as Hf.
  unfold start_transfer in H. rewrite bind_eq in H. unfold world in H.
  destruct (heap_alloc w) as [ok w1]. cbn [fst snd] in H. destruct ok; cbn [negb] in H.
  2:{ injection H as _ <- <-. by apply fo_idle. }
  rewrite !bind_eq in H. cbn [modify fst snd] in H.
  set (r1 := _ <| fr_fields := f |>) in H.
  destruct (match rp with Some x => open_resumed p x | None => open_new p end (r1, w1))
    as [e1 [r2 w2]] eqn:Eo. cbn [fst snd] in H.
  destruct (err_eqb e1 ESP_OK) eqn:Ee; cbn [negb] in H.
  2:{ injection H as _ <- _. by apply fo_idle. }
  apply err_eqb_true in Ee as ->. injection H as _ <- <-.
  assert (Hop : opened r1 r2 w2 p).
  { destruct rp as [x|].
    - by apply open_resumed_ok in Eo; [|done|done|apply Hrp].
    - by apply open_new_ok in Eo. }
  destruct Hop as [Hff Ha Hvf (s & rp' & full & Hr)].
  eapply (fo_active _ _ s p rx_start rp' full w2); [done|done| |].
  - eapply (keep_request_held op art sf sig r2 f) in Hq; [|done|done|done| | |done].
    + destruct Hq. by split.
    + by rewrite Ha.
    + rewrite Ha. apply Forall_replicate. unfold is_u8. lia.
  - destruct Hr. by split.
Qed.

(** ** Every call keeps the state in order *)

Section Calls.
Context (project_name chip_target : bytes) (core_version fabric_schema : Z)
  (preflight : ST W esp_err_t).

Lemma check_request_fields sf sig w f p w' :
  check_request project_name chip_target core_version fabric_schema preflight sf sig w
    = (inr (f, p), w') ->
  keemash_ota_v3_verify_signed_fields sf sig = inr f.
Proof.
  unfold check_request. destruct (keemash_ota_v3_verify_signed_fields sf sig) as [e|g]; [done|].
  rewrite bind_eq. destruct (negb _); [done|]. rewrite bind_eq.
  destruct (esp_ota_get_next_update_partition _).1 as [q|]; [|done].
  rewrite ret_eq. intros [= H _]. res_inv. congruence.
Qed.

Lemma restore_terminal_ok cp f op art sf sig w e r' w' :
  request_typed op art sf sig -> 0 < blen sf <= 1024 ->
  keemash_ota_v3_verify_signed_fields sf sig = inr f ->
  restore_terminal cp f op art sf sig (flash_receiver_zero, w) = (e, (r', w')) ->
  flash_ok r' w'.
Proof.
  intros Hq Hl Hv H. unfold restore_terminal in H. rewrite bind_eq in H. unfold world in H.
  destruct (esp_partition_find_first _ w) as [[p|] w1]; cbn [fst snd] in H;
    [|injection H as _ <- _; by apply fo_idle].
  rewrite bind_eq, ret_eq in H. injection H as _ <- <-.
  apply fo_verified; [done|done| |by eexists].
  set (r1 := (_ <| fr_partition := Some p |>) <| fr_fields := f |>).
  eapply (keep_request_held op art sf sig r1 f) in Hq; [|done|done|done|done| |done].
  - destruct Hq. by split.
  - apply Forall_replicate. unfold is_u8. lia.
Qed.

Lemma prepare_ok op art sf sig r w e r' w' :
  flash_ok r w -> request_typed op art sf sig ->
  keemash_ota_v3_flash_receiver_prepare project_name chip_target core_version fabric_schema
    preflight op art sf sig (r, w) = (e, (r', w')) ->
  flash_ok r' w'.
Proof.
  intros Hok Hq H. unfold keemash_ota_v3_flash_receiver_prepare in H.
  destruct (_ || _) eqn:E0 in H; [by injection H as _ <- <-|].
  destruct (fr_active r || fr_verified r) eqn:E1; [by injection H as _ <- <-|].
  apply orb_false_iff in E1 as [E1 E2]. pose proof (flash_ok_idle _ _ Hok E1 E2) as ->.
  assert (Hl : 0 < blen sf <= 1024) by (pose proof (blen_nonneg sf); ota_consts; bools; lia).
  destruct (check_request _ _ _ _ _ _ _ w) as [[e0|[f p]] w1] eqn:Ec.
  { injection H as _ <- _. by apply fo_idle. }
  apply check_request_fields in Ec. destruct (heap_alloc w1) as [ok w2].
  destruct ok; cbn [negb] in H; [|injection H as _ <- _; by apply fo_idle].
  destruct (keemash_ota_v3_checkpoint_load w2) as [[e1|cp] w3] eqn:El.
  - destruct (err_eqb e1 _); [|injection H as _ <- _; by apply fo_idle].
    by eapply (start_transfer_ok p f None); [..|exact H].
  - destruct (negb (same_transfer _ _ _ _ _)); [injection H as _ <- _; by apply fo_idle|].
    destruct (negb (cp_phase cp =? _)); [by eapply restore_terminal_ok|].
    destruct (negb (bytes_eqb _ _)); [injection H as _ <- _; by apply fo_idle|].
    eapply (start_transfer_ok p f (Some (cp_resume cp))); [..|exact H]; try done.
    intros x [= <-]. by eapply load_typed.
Qed.

Lemma held_stream r s : held r -> held (r <| fr_stream := s |>).
Proof. intros []. by split. Qed.

Lemma fail_ok e r w e' r' w' : fail_receiver e (r, w) = (e', (r', w')) -> flash_ok r' w'.
Proof.
  intros H. pose proof (fail_spec e r w) as [_ Hz]. rewrite H in Hz. by apply fo_idle.
Qed.

(** An accepted block chunk, before the checkpoint is considered. *)
Lemma feed_receiving r w s p a rp full w0 d off chunk final s' w' :
  receiving r w s p a rp full w0 -> block_typed d ->
  keemash_ota_v3_stream_feed (flash_output r) d off chunk final (s, w) = (ESP_OK, (s', w')) ->
  exists a', rel (writes (fr_handle r)) (fr_fields r) rp (ota_image w0 (fr_handle r)) full w0
               a' s' w'.
Proof.
  intros [] Hd H.
  destruct (feed_rel (flash_output r) (writes (fr_handle r)) (writes_accepts _) _ _ _ _ _
              _ _ _ _ _ _ _ _ _ rc_rel0 Hd H) as [(-> & -> & _)|(a' & _ & Hr)].
  - by exists a.
  - by exists a'.
Qed.

Lemma receiver_write_ok d off chunk final r w e r' w' :
  flash_ok r w -> block_typed d ->
  keemash_ota_v3_flash_receiver_write d off chunk final (r, w) = (e, (r', w')) ->
  flash_ok r' w'.
Proof.
  intros Hok Hd H. unfold keemash_ota_v3_flash_receiver_write in H.
  destruct (fr_active r) eqn:Ea; cbn [negb] in H; [|by injection H as _ <- <-].
  destruct (flash_ok_active _ _ Hok Ea) as (Hh & Hv & s & p & a & rp & full & w0 & Hr).
  pose proof (rc_stream _ _ _ _ _ _ _ _ Hr) as Hs. unfold stream_of in H at 1. rewrite Hs in H.
  cbn [default from_option id] in H.
  destruct (keemash_ota_v3_stream_feed _ _ _ _ _ _) as [e1 [s1 w1]] eqn:Ef.
  destruct (err_eqb e1 ESP_OK) eqn:Ee; cbn [negb] in H; [|by eapply fail_ok].
  apply err_eqb_true in Ee as ->. destruct (feed_receiving _ _ _ _ _ _ _ _ _ _ _ _ _ _ Hr Hd Ef)
    as [a' Hrel]. destruct Hr as [_ Hp Hhd _ Hpf Hst _ Hcd].
  assert (Hend : forall r2 w2, r2 = r <| fr_stream := Some s1 |> \/
            r2 = r <| fr_stream := Some s1 |> <| fr_checkpoint_raw_offset := s_raw_offset s1 |> ->
            no_checkpoint_due r2 = true -> same_flash w1 w2 -> flash_ok r2 w2).
  { intros r2 w2 Hr2 Hdue Hsf. apply (rel_same _ _ _ _ _ _ _ _ _ w2) in Hrel; [|done].
    destruct Hh, Hr2 as [-> | ->]; apply (fo_active _ _ s1 p a' rp full w0); try done; by split. }
  destruct (no_checkpoint_due _) eqn:En.
  { injection H as _ <- <-. apply Hend; [by left|done|done]. }
  destruct (heap_alloc w1) as [ok w2] eqn:Eal. apply (stable_run _ _ _ _ alloc_keeps) in Eal.
  destruct ok; cbn [negb] in H; [|by eapply fail_ok].
  destruct (save_progress _ w2) as [e2 w3] eqn:Esv.
  apply (stable_run _ _ _ _ (save_progress_keeps _)) in Esv.
  destruct (negb _); [by eapply fail_ok|]. injection H as _ <- <-.
  apply Hend; [by right| |by etransitivity].
  unfold no_checkpoint_due, stream_of. cbn. by rewrite Z.eqb_refl.
Qed.

(** The partition holds exactly the signed image at its start. *)
Definition image_in_flash (f : keemash_ota_v3_signed_fields_t) (w : W) (p : esp_partition_t)
  : Prop :=
  let img := slice 0 (Z.to_nat (raw_size f)) (partition_data w p) in
  blen img = raw_size f /\ sha256 img = image_sha256 f.

Lemma image_in_flash_same f w w' p : image_in_flash f w p -> same_flash w w' -> image_in_flash f w' p.
Proof. intros H [Hp _]. unfold image_in_flash. by rewrite Hp. Qed.

(** Closing the handle of a finished stream leaves the image in the partition. *)
Lemma finished_image r w s p a rp full w0 s' w1 :
  receiving r w s p a rp full w0 ->
  keemash_ota_v3_stream_finish s = (ESP_OK, s') ->
  esp_ota_end (fr_handle r) w = (ESP_OK, w1) ->
  image_in_flash (fr_fields r) w1 p.
Proof.
  intros [Hs Hp Hh Hr Hpf Hst _ _] Hfin Hend.
  destruct (finish_image (writes (fr_handle r)) _ _ _ _ _ _ _ _ _ Hr Hpf
              (proj1 (proj2 (proj2 Hst))) Hfin) as (Hl & Hsh & _ & _ & Hpart & Himg).
  apply (end_ok _ _ _ p) in Hend; [|congruence].
  assert (E : slice 0 (Z.to_nat (raw_size (fr_fields r))) (partition_data w1 p)
              = ota_image w0 (fr_handle r) ++ rx_raw a).
  { replace (Z.to_nat (raw_size (fr_fields r))) with (length (ota_image w (fr_handle r))).
    - by rewrite Hend.
    - rewrite Himg. unfold blen in Hl. lia. }
  unfold image_in_flash. by rewrite E.
Qed.

Lemma verify_ok r w po r' w' :
  flash_ok r w ->
  keemash_ota_v3_flash_receiver_verify (r, w) = (inr po, (r', w')) ->
  flash_ok r' w' /\ fr_verified r' = true /\ fr_fields r' = fr_fields r /\ held r' /\
  exists p, po = Some p /\ fr_partition r' = Some p /\ image_in_flash (fr_fields r) w' p.
Proof.
  intros Hok H. unfold keemash_ota_v3_flash_receiver_verify in H.
  destruct (fr_active r) eqn:Ea; cbn [negb] in H; [|done].
  destruct (flash_ok_active _ _ Hok Ea) as (Hh & Hv & s & p & a & rp & full & w0 & Hr).
  pose proof (rc_stream _ _ _ _ _ _ _ _ Hr) as Hs. unfold stream_of in H. rewrite Hs in H.
  cbn [default from_option id] in H.
  destruct (keemash_ota_v3_stream_finish s) as [e1 s1] eqn:Ef.
  destruct (err_eqb e1 ESP_OK) eqn:Ee; cbn [negb] in H;
    [|destruct (fail_receiver _ _); discriminate H]. apply err_eqb_true in Ee as ->.
  cbn [fr_handle set_field] in H.
  destruct (esp_ota_end _ w) as [e2 w2] eqn:En.
  destruct (err_eqb e2 ESP_OK) eqn:Ee; cbn [negb] in H;
    [|destruct (fail_receiver _ _); discriminate H]. apply err_eqb_true in Ee as ->.
  destruct (save_terminal_checkpoint _ _ w2) as [e3 w3] eqn:Es.
  apply (stable_run _ _ _ _ (save_terminal_keeps _ _)) in Es.
  destruct (err_eqb e3 ESP_OK); cbn [negb] in H;
    [|destruct (fail_receiver _ _); discriminate H].
  injection H as <- <- <-.
  pose proof (finished_image _ _ _ _ _ _ _ _ _ _ Hr Ef En) as Himg.
  pose proof (rc_partition _ _ _ _ _ _ _ _ Hr) as Hp.
  match goal with |- flash_ok ?x _ /\ _ => assert (Hh' : held x) by (destruct Hh; by split) end.
  split; [apply fo_verified; [done|done|exact Hh'|by exists p]|].
  split; [done|]. split; [done|]. split; [exact Hh'|].
  exists p. split; [done|]. split; [done|]. by eapply image_in_flash_same.
Qed.

Lemma verify_failed r w e r' w' :
  flash_ok r w ->
  keemash_ota_v3_flash_receiver_verify (r, w) = (inl e, (r', w')) -> flash_ok r' w'.
Proof.
  intros Hok H. unfold keemash_ota_v3_flash_receiver_verify in H.
  destruct (fr_active r); cbn [negb] in H; [|by injection H as _ <- <-].
  repeat match type of H with
  | (let '(_, _) := fail_receiver ?e ?q in _) = _ =>
      let E := fresh "E" in destruct (fail_receiver e q) as [? [? ?]] eqn:E;
      injection H as _ <- <-; by eapply fail_ok
  | (let '(_, _) := ?m in _) = _ => destruct m
  | (if ?b then _ else _) = _ => destruct b
  | _ = (inl _, _) => discriminate H
  end.
Qed.

Lemma verify_never_ok r w q : keemash_ota_v3_flash_receiver_verify (r, w) <> (inl ESP_OK, q).
Proof.
  intros H. unfold keemash_ota_v3_flash_receiver_verify in H.
  repeat match type of H with
  | (let '(_, _) := fail_receiver ?e ?q in _) = _ =>
      let E := fresh "E" in destruct (fail_receiver e q) as [e' ?] eqn:E;
      pose proof (proj1 (fail_spec e q.1 q.2)) as Hs; cbn [fst snd] in Hs; rewrite E in Hs;
      cbn [fst] in Hs; subst e'; injection H as -> _
  | (let '(_, _) := ?m in _) = _ => destruct m
  | (if ?b then _ else _) = _ => destruct b eqn:?
  | _ = (inl _, _) => discriminate H
  end.
  all: discriminate.
Qed.

Lemma abort_current_ok r w e r' w' :
  flash_ok r w ->
  keemash_ota_v3_flash_receiver_abort_current (r, w) = (e, (r', w')) -> flash_ok r' w'.
Proof.
  intros Hok H. unfold keemash_ota_v3_flash_receiver_abort_current in H.
  destruct (_ && _); [by injection H as _ <- <-|].
  destruct (keemash_ota_v3_checkpoint_clear w) as [e1 w1] eqn:Ec.
  apply (stable_run _ _ _ _ clear_keeps) in Ec.
  destruct (negb _); [injection H as _ <- <-; by eapply flash_ok_same|].
  injection H as _ <- _. by apply fo_idle.
Qed.

Lemma abort_ok op art r w e r' w' :
  flash_ok r w ->
  keemash_ota_v3_flash_receiver_abort op art (r, w) = (e, (r', w')) -> flash_ok r' w'.
Proof.
  intros Hok H. unfold keemash_ota_v3_flash_receiver_abort in H.
  destruct (_ && _) in H; [by injection H as _ <- <-|].
  destruct (_ && _) in H; [|by eapply abort_current_ok].
  unfold and_then in H. rewrite bind_eq in H. unfold world in H.
  destruct (match_checkpoint _ _ _ w) as [e1 w1] eqn:Em.
  apply (stable_run _ _ _ _ (match_checkpoint_keeps _ _ _)) in Em. cbn [fst snd] in H.
  apply (flash_ok_same _ _ w1) in Hok; [|done].
  destruct (err_eqb e1 ESP_OK); [by eapply abort_current_ok|by injection H as _ <- <-].
Qed.

(** ** Requests *)

(** Messages as the decoder leaves them. *)
Definition transfer_typed (t : OtaTransfer) : Prop :=
  match t with
  | OtaTransfer_prepare m =>
      are_bytes (pr_artifact_id m) /\ are_bytes (pr_signature m) /\ are_bytes (pr_signed_fields m)
  | OtaTransfer_data m => block_typed (bc_block m)
  | _ => True
  end.

Lemma operation_bytes_typed id :
  length (operation_bytes id) = 16%nat /\ are_bytes (operation_bytes id).
Proof.
  split; [done|]. unfold operation_bytes, be64. cbn [map app].
  repeat (constructor; [apply u8_is|]). constructor.
Qed.

Abbreviation handle_transfer := (keemash_ota_v3_flash_receiver_handle_transfer project_name
  chip_target core_version fabric_schema preflight).

Lemma prepare_request m :
  transfer_typed (OtaTransfer_prepare m) -> prepare_malformed m = false ->
  request_typed (operation_bytes (pr_operation_id m)) (pr_artifact_id m) (pr_signed_fields m)
    (pr_signature m).
Proof.
  intros (Ha & Hs & Hf) H. destruct (operation_bytes_typed (pr_operation_id m)) as [Hl Hb].
  unfold prepare_malformed in H. ota_consts. bools. unfold blen in *.
  split; [done|lia|lia|]. by do 4 (constructor; [done|]).
Qed.

Lemma handle_transfer_ok t r w x r' w' :
  flash_ok r w -> transfer_typed t -> handle_transfer t (r, w) = (x, (r', w')) ->
  flash_ok r' w'.
Proof.
  intros Hok Ht H. destruct t as [|m|m|m|m|m|m]; cbn [keemash_ota_v3_flash_receiver_handle_transfer] in H;
    try (by injection H as _ <- <-).
  - destruct (prepare_malformed m) eqn:Em; [by injection H as _ <- <-|].
    unfold no_partition in H. rewrite bind_eq, ret_eq in H. injection H as _ H.
    eapply (prepare_ok _ _ _ _ r w _ r' w' Hok (prepare_request m Ht Em)).
    by rewrite <- H, <- surjective_pairing.
  - destruct (_ || _) in H; [by injection H as _ <- <-|].
    unfold no_partition in H. rewrite bind_eq, ret_eq in H. injection H as _ H.
    eapply (receiver_write_ok _ _ _ _ r w _ r' w' Hok Ht). by rewrite <- H, <- surjective_pairing.
  - destruct (commit_mismatch r m); [by injection H as _ <- <-|].
    destruct (fr_verified r); [by injection H as _ <- <-|].
    destruct (keemash_ota_v3_flash_receiver_verify (r, w)) as [[e|po] [r1 w1]] eqn:Ev;
      injection H as _ <- <-; [by eapply verify_failed|by eapply verify_ok].
  - destruct (_ || _) in H; [by injection H as _ <- <-|].
    unfold no_partition in H. rewrite bind_eq, ret_eq in H. injection H as _ H.
    eapply (abort_ok _ _ r w _ r' w' Hok). by rewrite <- H, <- surjective_pairing.
  - destruct (negb _) in H; [by injection H as _ <- <-|].
    destruct (matching_transfer _ _ _); [by injection H as _ <- <-|].
    unfold no_partition in H. rewrite bind_eq, ret_eq in H. unfold world in H.
    destruct (match_persisted_transfer _ _ w) as [e1 w1] eqn:Em. injection H as _ <- <-.
    eapply flash_ok_same; [exact Hok|]. eapply stable_run; [|exact Em].
    unfold match_persisted_transfer. destruct (negb _); [apply stable_ret, _|].
    apply match_checkpoint_keeps.
Qed.

(** The life of a receiver: requests, activation, an abort by the caller, and
    whatever else happens on the node that leaves the image partitions alone. *)
Inductive flash_step : receiver * W -> receiver * W -> Prop :=
  | fs_transfer t rw : transfer_typed t -> flash_step rw (handle_transfer t rw).2
  | fs_activate rw : flash_step rw (keemash_ota_v3_flash_receiver_activate preflight rw).2
  | fs_abort rw : flash_step rw (keemash_ota_v3_flash_receiver_abort_current rw).2
  | fs_elsewhere r w w' : same_flash w w' -> flash_step (r, w) (r, w').

Lemma activate_ok r w e r' w' :
  flash_ok r w -> keemash_ota_v3_flash_receiver_activate preflight (r, w) = (e, (r', w')) ->
  r' = r /\ flash_ok r w'.
Proof.
  intros Hok H. unfold keemash_ota_v3_flash_receiver_activate in H.
  destruct (fr_active r) eqn:Ea; [by injection H as _ <- <-|].
  destruct (fr_verified r) eqn:Ev; [|by injection H as _ <- <-].
  destruct (fr_partition r) as [p|] eqn:Ep; [|by injection H as _ <- <-].
  destruct (and_then _ _ w) as [e1 w1]. injection H as _ <- <-. split; [done|].
  destruct Hok as [-> | | _ _ Hh Hp]; [done|congruence|by apply fo_verified].
Qed.

Lemma flash_step_ok x y : flash_step x y -> flash_ok x.1 x.2 -> flash_ok y.1 y.2.
Proof.
  intros [t [r w] Ht|[r w]|[r w]|r w w' Hs] Hok; cbn [fst snd] in Hok.
  - destruct (handle_transfer t (r, w)) as [z [r' w']] eqn:E. by eapply handle_transfer_ok.
  - destruct (keemash_ota_v3_flash_receiver_activate preflight (r, w)) as [e [r' w']] eqn:E.
    by apply activate_ok in E as [-> ?].
  - destruct (keemash_ota_v3_flash_receiver_abort_current (r, w)) as [e [r' w']] eqn:E.
    by eapply abort_current_ok.
  - by eapply flash_ok_same.
Qed.

Lemma flash_reachable_ok w0 x : rtc flash_step (flash_receiver_zero, w0) x -> flash_ok x.1 x.2.
Proof.
  intros H. remember (flash_receiver_zero, w0) as y eqn:Ey.
  assert (Hy : flash_ok y.1 y.2) by (subst y; by apply fo_idle). clear Ey.
  induction H as [|a b c Hs _ IH]; [done|]. apply IH. by eapply flash_step_ok.
Qed.

(** C21: at every moment of its life the receiver is idle and zeroed, or is
    receiving an authenticated transfer whose stream, abstract receiver and
    flash agree byte for byte, or holds a verified one. *)
Theorem flash_states w0 r w :
  rtc flash_step (flash_receiver_zero, w0) (r, w) -> flash_ok r w.
Proof. exact (flash_reachable_ok w0 (r, w)). Qed.

(** C3: when a commit verifies a transfer, the partition it reports contains
    the signed image: as many bytes as the authenticated fields say, with the
    SHA-256 they say, which is the one the commit message names. *)
Theorem verified_flash_image w0 r w m po r' w' :
  rtc flash_step (flash_receiver_zero, w0) (r, w) -> fr_verified r = false ->
  handle_transfer (OtaTransfer_commit m) (r, w) = ((ESP_OK, po), (r', w')) ->
  exists p, po = Some p /\ fr_partition r' = Some p /\ fr_verified r' = true /\
    keemash_ota_v3_verify_signed_fields (used_fields r') (fr_signature r') = inr (fr_fields r') /\
    image_sha256 (fr_fields r') = co_image_sha256 m /\
    image_in_flash (fr_fields r') w' p.
Proof.
  intros Hr Hv H. pose proof (flash_reachable_ok w0 (r, w) Hr) as Hok. cbn [fst snd] in Hok.
  cbn [keemash_ota_v3_flash_receiver_handle_transfer] in H.
  destruct (commit_mismatch r m) eqn:Em; [done|]. rewrite Hv in H.
  destruct (keemash_ota_v3_flash_receiver_verify (r, w)) as [[e|q] [r1 w1]] eqn:Ev; [|].
  { pose proof (verify_failed _ _ _ _ _ Hok Ev). injection H as -> _ _ _.
    exfalso. by eapply verify_never_ok. }
  injection H as <- <- <-.
  destruct (verify_ok _ _ _ _ _ Hok Ev) as (_ & Hv' & Hf & Hh & p & -> & Hp & Hi).
  exists p. split; [done|]. split; [done|]. split; [done|]. split; [apply Hh|].
  rewrite Hf. split; [|done]. unfold commit_mismatch in Em. bools.
  symmetry. by apply bytes_eqb_true.
Qed.

End Calls.
End FlashProps.
