(* ===== verification/OtaBoot.v ===== *)
(** * OTA v3: the boot report (keemash_ota_v3_boot.c)

    After a reboot the node reports how the image of a pending checkpoint came
    up, and forgets the checkpoint when the report of a terminal state has been
    acknowledged. *)

From Stdlib Require String.
From S2P Require Import Prelude.
From S2P Require Import Words.
From S2P Require Import Esp.
From S2P Require Import OtaLib.
From S2P Require Import OtaTypes.
From S2P Require Import OtaV3.
From S2P Require Import OtaStream.
From S2P Require Import OtaCheckpoint.
From S2P Require Import OtaFlashEnv.
#[local] Open Scope Z_scope.

(** ** Texts *)

Module BootText.
Import Stdlib.Strings.String.
#[local] Open Scope string_scope.

Definition not_running : bytes := text "target partition is not running".
Definition unavailable : bytes := text "rollback state unavailable".
Definition validated : bytes := text "image validated".
Definition waiting : bytes := text "waiting for application health".
Definition unexpected : bytes := text "unexpected OTA state ".
End BootText.

(** ** Operation identifiers *)

Definition read_be64 (b : bytes) : Z :=
  fold_left (fun value x => Z.lor (u64 (Z.shiftl value 8)) x) (take 8 b) 0.

Definition copy_operation (b : bytes) : Id128 :=
  {| high := read_be64 b; low := read_be64 (drop 8 b) |}.

Definition report_terminal (state : Z) : bool :=
  (state =? OTA_BOOT_VALIDATED) || (state =? OTA_BOOT_ROLLED_BACK) ||
  (state =? OTA_BOOT_FAILED).

Section Boot.
Context {Cfg : OtaConfig} {D : Digest} {Key : Psa} {Pb : Nanopb} {W : Type}
  {Store : CheckpointEnv W} {Flash : FlashEnv W}.

(** The part of the report that comes from the checkpoint. *)
Definition report_identity (cp : keemash_ota_v3_checkpoint_t)
  (fields : keemash_ota_v3_signed_fields_t) (node_id : Id128) (boot_session : Z)
  : OtaBootReport :=
  let r := OtaBootReport_init_zero <| br_has_operation_id := true |> in
  let r := r <| br_operation_id := copy_operation (cp_operation_id cp) |> in
  let r := r <| br_has_node_id := true |> in
  let r := r <| br_node_id := node_id |> in
  let r := r <| br_artifact_id := cp_artifact_id cp |> in
  let r := r <| br_boot_session := boot_session |> in
  r <| br_firmware_version := copy_text 33 (firmware_version fields) |>.

(** The part that depends on what is running. *)
Definition report_state (cp : keemash_ota_v3_checkpoint_t) (r : OtaBootReport)
  : ST W OtaBootReport :=
  running ← esp_ota_get_running_partition;
  match running with
  | Some p =>
      if bytes_eqb (label p) (cstr (cp_partition_label cp)) then
        '(err, state) ← esp_ota_get_state_partition p ESP_OTA_IMG_UNDEFINED;
        let r := r <| br_rollback_state := img_state_u32 state |> in
        mret (
          if negb (err_eqb err ESP_OK) then
            ((r <| br_state := OTA_BOOT_FAILED |>)
               <| br_health_status := esp_err_u32 err |>)
              <| br_message := copy_text 97 BootText.unavailable |>
          else if decide (state = ESP_OTA_IMG_VALID) then
            (r <| br_state := OTA_BOOT_VALIDATED |>)
              <| br_message := copy_text 97 BootText.validated |>
          else if decide (state = ESP_OTA_IMG_NEW \/ state = ESP_OTA_IMG_PENDING_VERIFY) then
            (r <| br_state := OTA_BOOT_PENDING_VERIFY |>)
              <| br_message := copy_text 97 BootText.waiting |>
          else
            ((r <| br_state := OTA_BOOT_FAILED |>)
               <| br_health_status := esp_err_u32 ESP_FAIL |>)
              <| br_message := copy_text 97
                   (BootText.unexpected ++ decimal (img_state_u32 state)) |>)
      else
        mret ((r <| br_state := OTA_BOOT_ROLLED_BACK |>)
                <| br_message := copy_text 97 BootText.not_running |>)
  | None =>
      mret ((r <| br_state := OTA_BOOT_ROLLED_BACK |>)
              <| br_message := copy_text 97 BootText.not_running |>)
  end.

Definition keemash_ota_v3_boot_report (node_id : Id128) (boot_session : Z)
  : ST W (res OtaBootReport) :=
  ok ← heap_alloc;
  if negb (ok : bool) then mret (inl ESP_ERR_NO_MEM)
  else
    loaded ← keemash_ota_v3_checkpoint_load;
    match loaded with
    | inl err => mret (inl err)
    | inr cp =>
        if negb (cp_phase cp =? CHECKPOINT_BOOT_PENDING) then mret (inl ESP_ERR_NOT_FOUND)
        else
          match keemash_ota_v3_verify_signed_fields
                  (take (Z.to_nat (cp_signed_fields_len cp)) (cp_signed_fields cp))
                  (cp_signature cp) with
          | inl err => mret (inl err)
          | inr fields =>
              r ← report_state cp (report_identity cp fields node_id boot_session);
              mret (inr r)
          end
    end.

Definition keemash_ota_v3_boot_ack (ack : OtaBootAck) : ST W esp_err_t :=
  if negb (ba_has_operation_id ack) ||
     negb (blen (ba_artifact_id ack) =? KEEMASH_OTA_V3_SHA256_LEN) ||
     negb (report_terminal (ba_state ack))
  then mret ESP_ERR_INVALID_ARG
  else
    reported ← keemash_ota_v3_boot_report {| high := 0; low := 0 |} 0;
    match reported with
    | inl err => mret err
    | inr report =>
        if negb (high (br_operation_id report) =? high (ba_operation_id ack)) ||
           negb (low (br_operation_id report) =? low (ba_operation_id ack)) ||
           negb (blen (br_artifact_id report) =? blen (ba_artifact_id ack)) ||
           negb (bytes_eqb (br_artifact_id report) (ba_artifact_id ack)) ||
           negb (br_state report =? ba_state ack)
        then mret ESP_ERR_INVALID_STATE
        else keemash_ota_v3_checkpoint_clear
    end.

End Boot.
