(* ===== verification/OtaBootProps.v ===== *)
(** * OTA v3: from verification to the acknowledged boot

    The checkpoints the flash receiver takes are never refused by the store; an
    activation leaves a boot-pending checkpoint behind; the boot report read
    from it names the operation the root asked for; and an acknowledged report
    of a terminal state empties the store. *)

From S2P Require Import Prelude.
From S2P Require Import Words.
From S2P Require Import Esp.
From S2P Require Import OtaLib.
From S2P Require Import OtaTypes.
From S2P Require Import OtaV3.
From S2P Require Import OtaChain.
From S2P Require Import OtaInflate.
From S2P Require Import OtaStream.
From S2P Require Import OtaRefine.
From S2P Require Import OtaImage.
From S2P Require Import OtaCheckpoint.
From S2P Require Import OtaCheckpointProps.
From S2P Require Import OtaFlashEnv.
From S2P Require Import OtaFlash.
From S2P Require Import OtaFlashProps.
From S2P Require Import OtaBoot.
#[local] Open Scope Z_scope.

(** ** Operation identifiers *)

Lemma or_low8 v x : 0 <= v -> is_u8 x -> Z.lor (Z.shiftl v 8) x = v * 256 + x.
Proof.
  intros Hv Hx. replace (v * 256) with (Z.shiftl v 8) by (by rewrite Z.shiftl_mul_pow2).
  rewrite <- Z.add_lor_land. enough (Z.land (Z.shiftl v 8) x = 0) as -> by lia.
  apply Z.bits_inj'. intros k Hk. rewrite Z.land_spec, Z.bits_0, Z.shiftl_spec by done.
  destruct (Z.ltb_spec k 8); [by rewrite Z.testbit_neg_r by lia|].
  rewrite andb_comm, <- (Z.mod_small x (2 ^ 8)) by exact Hx.
  by rewrite Z.mod_pow2_bits_high by lia.
Qed.

(** One round of [read_be64] restores the next byte. *)
Lemma be64_round z k k' :
  is_u64 z -> 0 <= k <= 48 -> k' = k + 8 ->
  Z.lor (u64 (Z.shiftl (Z.shiftr z k') 8)) (u8 (Z.shiftr z k)) = Z.shiftr z k.
Proof.
  intros Hz Hk ->. rewrite !Z.shiftr_div_pow2, Z.pow_add_r, <- Z.div_div by lia.
  change (2 ^ 8) with 256. set (q := z / 2 ^ k).
  assert (Hq : 0 <= q < 18446744073709551616).
  { unfold is_u64 in Hz. split; [apply Z.div_pos; lia|].
    apply Z.div_lt_upper_bound; [lia|]. nia. }
  rewrite u64_id.
  - rewrite or_low8 by first [apply u8_is|apply Z.div_pos; lia]. unfold u8.
    pose proof (Z.div_mod q 256 ltac:(lia)). lia.
  - rewrite Z.shiftl_mul_pow2 by lia. change (2 ^ 8) with 256. unfold is_u64.
    pose proof (Z.div_mod q 256 ltac:(lia)). pose proof (Z.mod_pos_bound q 256 ltac:(lia)). lia.
Qed.

Lemma read_be64_be64 z rest : is_u64 z -> read_be64 (be64 z ++ rest) = z.
Proof.
  intros Hz. unfold read_be64, be64. cbn [map app take fold_left].
  replace (Z.lor (u64 (Z.shiftl 0 8)) (u8 (Z.shiftr z (56 - 8 * 0)))) with (Z.shiftr z 56).
  - change (56 - 8 * 1) with 48. change (56 - 8 * 2) with 40. change (56 - 8 * 3) with 32.
    change (56 - 8 * 4) with 24. change (56 - 8 * 5) with 16. change (56 - 8 * 6) with 8.
    change (56 - 8 * 7) with 0.
    rewrite (be64_round z 48 56), (be64_round z 40 48), (be64_round z 32 40),
      (be64_round z 24 32), (be64_round z 16 24), (be64_round z 8 16),
      (be64_round z 0 8) by (done || lia).
    apply Z.shiftr_0_r.
  - change (56 - 8 * 0) with 56. change (u64 (Z.shiftl 0 8)) with 0. rewrite Z.lor_0_l.
    rewrite Z.shiftr_div_pow2 by lia. unfold is_u64 in Hz. change (2 ^ 56) with 72057594037927936.
    unfold u8. rewrite Z.mod_small; [done|]. split; [apply Z.div_pos; lia|].
    apply Z.div_lt_upper_bound; lia.
Qed.

(** What the flash receiver stores is read back by the boot report. *)
Lemma operation_roundtrip id : id_typed id -> copy_operation (operation_bytes id) = id.
Proof.
  intros [Hh Hl]. unfold copy_operation, operation_bytes.
  rewrite read_be64_be64 by done.
  change (drop 8 (be64 (high id) ++ be64 (low id))) with (be64 (low id)).
  rewrite <- (app_nil_r (be64 (low id))), read_be64_be64 by done. by destruct id.
Qed.

Section BootProps.
Context {Cfg : OtaConfig} {D : Digest} {Key : Psa} {Pb : Nanopb} {Zl : Zlib} {W : Type}
  {Store : CheckpointEnv W} {Flash : FlashEnv W} {View : FlashView W Flash}
  {HD : DigestLaws D} {HP : NanopbLaws Pb} {HZ : ZlibLaws Zl}
  {HF : FlashLaws W Flash View Store}.

Abbreviation receiver := keemash_ota_v3_flash_receiver (only parsing).

(** A label as the partition table has it: one to sixteen characters. *)
Definition label_ok (l : bytes) : Prop :=
  are_bytes l /\ Forall (fun b => b <> 0) l /\ (1 <= length l <= 16)%nat.

Lemma text_array_label l :
  label_ok l ->
  length (text_array 17 l) = 17%nat /\ are_bytes (text_array 17 l) /\
  get_u8 (text_array 17 l) 0 <> 0 /\ has_terminator (text_array 17 l) = true /\
  cstr (text_array 17 l) = l.
Proof.
  intros (Hb & Hn & Hl). unfold text_array, copy_text.
  rewrite take_ge by lia. split; [rewrite length_app; unfold zeros; rewrite length_replicate; lia|].
  split.
  { apply Forall_app. split; [done|]. apply Forall_replicate. unfold is_u8. lia. }
  split; [destruct Hn as [|c l Hc Hn]; cbn in *; [lia|done]|]. split.
  - unfold has_terminator. rewrite existsb_app. apply orb_true_iff. right.
    destruct (17 - length l)%nat eqn:E; [lia|done].
  - clear Hb. destruct (17 - length l)%nat eqn:E; [lia|]. clear E Hl.
    induction Hn as [|c l Hc _ IH]; [done|]. cbn [app cstr].
    destruct (Z.eqb_spec c 0); [done|]. by rewrite IH.
Qed.

(** ** The checkpoints the receiver takes *)

Lemma held_fields_ok r : held r -> fields_ok (fr_fields r).
Proof. intros []. by apply signed_fields_ok in hd_verified as [? _]. Qed.

Lemma checkpoint_shape r p phase :
  held r -> fr_partition r = Some p -> label_ok (label p) ->
  CHECKPOINT_TRANSFERRING <= phase <= CHECKPOINT_BOOT_PENDING ->
  checkpoint_shape_wrong (fill_checkpoint r phase) = false.
Proof.
  intros [] Hp Hlab Hph. destruct (text_array_label _ Hlab) as (_ & _ & H0 & Ht & _).
  unfold checkpoint_shape_wrong, fill_checkpoint, CHECKPOINT_TRANSFERRING,
    CHECKPOINT_BOOT_PENDING in *. rewrite Hp. cbn -[text_array get_u8 has_terminator].
  rewrite u8_id, u16_id by words. rewrite Ht. ota_consts.
  apply Z.eqb_neq in H0. rewrite H0.
  destruct (Z.eqb_spec (fr_signed_fields_len r) 0); [lia|].
  repeat match goal with |- context [?a <? ?b] => destruct (Z.ltb_spec a b); try lia end.
Qed.

Lemma fill_checkpoint_typed r p phase rp :
  held r -> fr_partition r = Some p -> label_ok (label p) -> is_u8 phase ->
  resume_point_typed rp -> length (rp_block_chain rp) = 32%nat ->
  length (rp_image_prefix_sha256 rp) = 32%nat -> are_bytes (rp_block_chain rp) ->
  are_bytes (rp_image_prefix_sha256 rp) ->
  checkpoint_typed (with_resume (fill_checkpoint r phase) rp).
Proof.
  intros [] Hp Hlab Hph (Hi & Hr & He) Hc Hpx Hcb Hpb.
  destruct (text_array_label _ Hlab) as (Hl & Hlb & _). rewrite !Forall_cons_iff in hd_bytes.
  destruct hd_bytes as (B1 & B2 & B3 & B4 & _).
  assert (Hu : (length (used_fields r) <= 1024)%nat)
    by (unfold used_fields; rewrite length_take; lia).
  assert (Hsf : length (splice 0 (used_fields r) (zeros 1024)) = 1024%nat)
    by (rewrite length_splice; [done|exact Hu]).
  unfold fill_checkpoint. rewrite Hp. cbn [from_option].
  split; cbn [with_resume cp_phase cp_operation_id cp_artifact_id cp_signature
    cp_signed_fields_len cp_signed_fields cp_partition_label cp_resume]; try assumption.
  - apply u8_is.
  - apply u16_is.
  - rewrite !Forall_cons_iff. split; [done|]. split; [done|]. split; [done|].
    split; [|split; [done|split; [done|split; [done|constructor]]]].
    change (are_bytes (used_fields r ++ drop (length (used_fields r)) (zeros 1024))).
    apply Forall_app. split; [by apply Forall_take|].
    apply Forall_drop, Forall_replicate. unfold is_u8. lia.
Qed.

(** A transfer is only checkpointed between blocks. *)
Lemma due_block_done r w s p a rp full w0 d off chunk final s1 w1 :
  receiving r w s p a rp full w0 -> block_typed d ->
  keemash_ota_v3_stream_feed (flash_output r) d off chunk final (s, w) = (ESP_OK, (s1, w1)) ->
  no_checkpoint_due (r <| fr_stream := Some s1 |>) = false ->
  exists blocks b,
    let a' := {| ar_blocks := blocks ++ [b]; ar_open := None |} in
    rel (writes (fr_handle r)) (fr_fields r) rp (ota_image w0 (fr_handle r)) full w0 a' s1 w1 /\
    0 < blen (xb_enc b).
Proof.
  intros [Hs Hp Hh Hr Hpf Hst Hnd Hcd] Hd H Hdue.
  assert (Hn : 0 < blen chunk).
  { unfold keemash_ota_v3_stream_feed in H. destruct (_ || _) eqn:E in H; [done|]. bools.
    pose proof (blen_nonneg chunk). lia. }
  unfold no_checkpoint_due, stream_of in Hnd, Hdue. rewrite Hs in Hnd. cbn in Hnd, Hdue.
  destruct (feed_rel (flash_output r) (writes (fr_handle r)) (writes_accepts _) _ _ _ _ _
              _ _ _ _ _ _ _ _ _ Hr Hd H) as [(-> & -> & _)|(a' & Hstep & Hr1)]; [congruence|].
  destruct Hstep as [a b out Hc _ _ _|a b b' out Hc _ -> _].
  - exfalso. destruct Hr as [_ _ _ (c & Ht & _) _ _ _ _ _ _].
    destruct Hr1 as [_ _ _ (c' & Ht' & _) _ _ _ _ _ _]. unfold rx_descs in Ht, Ht'.
    cbn [ar_blocks] in Ht'. rewrite Ht' in Ht. injection Ht as E _ _.
    rewrite E in Hdue. congruence.
  - eexists _, _. split; [exact Hr1|]. cbn. rewrite blen_app. pose proof (blen_nonneg (xb_enc b)). lia.
Qed.

(** Blocks of the full size add up. *)
Lemma sum_full (size : Z) ds :
  (forall k d, ds !! k = Some d -> bd_raw_size d = size) ->
  sum_raw ds = Z.of_nat (length ds) * size.
Proof.
  induction ds as [|d ds IH]; intros H; [done|]. cbn [sum_raw fold_right length].
  fold (sum_raw ds). rewrite IH by (intros k e Hk; by apply (H (S k))).
  rewrite (H 0%nat d eq_refl). lia.
Qed.

Lemma sum_enc_nonneg ds : Forall block_typed ds -> 0 <= sum_enc ds.
Proof.
  induction 1 as [|d ds [Hd _] _ IH]; [done|]. cbn [sum_enc fold_right]. fold (sum_enc ds).
  rewrite !Forall_cons_iff in Hd. unfold is_u32 in Hd. lia.
Qed.

(** The position between two blocks of a transfer that is not over. *)
Lemma between_blocks R f rp pre full w0 blocks b s w :
  rel (W := W) R f rp pre full w0 {| ar_blocks := blocks ++ [b]; ar_open := None |} s w ->
  start_point f rp -> 0 < blen (xb_enc b) -> s_raw_offset s < raw_size f ->
  s_block_active s = false /\ 0 < s_next_block_index s < block_count f /\
  s_next_block_index s * block_size f = s_raw_offset s /\
  0 < s_encoded_offset s <= encoded_size f.
Proof.
  intros [[_ Hf] _ Ht (c & Htab & Ho) Hx (Hi & _ & _) _ _ Hb _] (Hsp & Hrpi & Hrpe & _) He Hlt.
  destruct Ho as [Hact _]. split; [done|]. set (ds := rx_descs _) in *.
  assert (Hraw0 : 0 <= rp_raw_offset rp).
  { rewrite <- Hsp. destruct Hf as (_ & _ & _ & _ & [(_ & -> & _)|(_ & _ & -> & _)] & _);
      ota_consts; lia. }
  apply check_table_inv in Htab as (Hr & Hen & Hall & Hend); [|done..].
  assert (Eds : ds = (xb_desc <$> blocks) ++ [xb_desc b])
    by (unfold ds, rx_descs; cbn [ar_blocks]; by rewrite fmap_app).
  assert (Hlen : Z.of_nat (length ds) = Z.of_nat (length (blocks ++ [b])))
    by (unfold ds, rx_descs; cbn [ar_blocks]; by rewrite length_fmap).
  cbn [ar_blocks] in Hx. rewrite <- Hlen in Hx.
  assert (Hpos : (0 < length ds)%nat) by (rewrite Eds, length_app; cbn; lia).
  assert (Hne : ds <> []) by (intros E; rewrite E in Hpos; cbn in Hpos; lia).
  assert (Hcount : s_next_block_index s < block_count f).
  { destruct (lookup_lt_is_Some_2 ds (length ds - 1) ltac:(lia)) as [d Hd].
    pose proof (pl_index _ _ _ _ _ (Hall _ _ Hd)) as [_ Hl].
    destruct (decide (s_next_block_index s = block_count f)) as [E|]; [|lia].
    destruct (Hend Hne ltac:(lia)) as [Hfull _]. lia. }
  split; [lia|].
  assert (Hsum : sum_raw ds = Z.of_nat (length ds) * block_size f).
  { apply sum_full. intros k d Hk. pose proof (lookup_lt_Some _ _ _ Hk).
    apply (pl_full _ _ _ _ _ (Hall _ _ Hk)). lia. }
  split; [rewrite Hr, Hsum, <- Hsp, Hx; lia|].
  assert (Hlast : ds !! length blocks = Some (xb_desc b)).
  { rewrite Eds, lookup_app_r by (by rewrite length_fmap). by rewrite length_fmap, Nat.sub_diag. }
  pose proof (pl_enc _ _ _ _ _ (Hall _ _ Hlast)) as [_ Hle].
  assert (Ebd : blen (xb_enc b) = bd_encoded_size (xb_desc b)).
  { apply Forall_app in Hb as [_ Hb]. apply Forall_cons_iff in Hb as [(_ & _ & Hb & _) _]. exact Hb. }
  assert (Hs : sum_enc ds = sum_enc (take (length blocks) ds) + bd_encoded_size (xb_desc b)).
  { rewrite Eds. rewrite take_app_length' by (by rewrite length_fmap).
    clear. induction (xb_desc <$> blocks) as [|x l IH]; cbn; [lia|].
    unfold sum_enc in *. cbn. lia. }
  assert (0 <= sum_enc (take (length blocks) ds)) by (apply sum_enc_nonneg, Forall_take, Ht).
  lia.
Qed.

(** Whenever a block brings a transfer to a checkpoint boundary, the stream
    is between two blocks and the checkpoint is one the store accepts: taking
    it can fail only because a digest, the heap or the flash storage fails. *)
Theorem progress_accepted r w p d off chunk final s1 w1 :
  flash_ok r w -> fr_active r = true -> fr_partition r = Some p -> label_ok (label p) ->
  block_typed d ->
  keemash_ota_v3_stream_feed (flash_output r) d off chunk final (stream_of r, w)
    = (ESP_OK, (s1, w1)) ->
  no_checkpoint_due (r <| fr_stream := Some s1 |>) = false ->
  match keemash_ota_v3_stream_checkpoint s1 with
  | inl e => e = ESP_FAIL /\ image_prefix s1 = None
  | inr rp =>
      save_refused (with_resume
        (fill_checkpoint (r <| fr_stream := Some s1 |>) CHECKPOINT_TRANSFERRING) rp) = false
  end.
Proof.
  intros Hok Ha Hp Hlab Hd Hf Hdue.
  destruct (flash_ok_active _ _ Hok Ha) as (Hh & Hv & s & q & a & rp & full & w0 & Hr).
  unfold stream_of in Hf. rewrite (rc_stream _ _ _ _ _ _ _ _ Hr) in Hf.
  destruct (due_block_done _ _ _ _ _ _ _ _ _ _ _ _ _ _ Hr Hd Hf Hdue)
    as (blocks & b & Hrel & Hb). pose proof Hrel as [[Hff Hfo] [Hfail Hfin] _ _ _ _ _ _ _ _].
  unfold no_checkpoint_due, stream_of in Hdue. cbn in Hdue. bools.
  destruct Hr as [_ _ _ _ _ Hst _ Hcd].
  destruct (between_blocks _ _ _ _ _ _ _ _ _ _ Hrel Hst Hb ltac:(lia))
    as (Hact & [Hi Hi'] & Hmul & [He He']).
  unfold keemash_ota_v3_stream_checkpoint. rewrite Hff, Hfail, Hfin, Hact. cbn [orb].
  rewrite (proj2 (Z.eqb_neq (s_next_block_index s1) 0)) by lia.
  rewrite (proj2 (Z.leb_gt (block_count (fr_fields r)) (s_next_block_index s1))) by lia.
  match goal with H : s_raw_offset s1 mod _ = 0 |- _ => rename H into Hmod end.
  rewrite Hmod. cbn. destruct (image_prefix s1) as [h|]; cbn; [|done].
  pose proof (checkpoint_shape (r <| fr_stream := Some s1 |>) p CHECKPOINT_TRANSFERRING)
    as Hshape.
  assert (Hh' : held (r <| fr_stream := Some s1 |>)) by (destruct Hh; by split).
  specialize (Hshape Hh' Hp Hlab ltac:(unfold CHECKPOINT_TRANSFERRING, CHECKPOINT_BOOT_PENDING; lia)).
  unfold save_refused.
  change (checkpoint_shape_wrong (with_resume ?c _)) with (checkpoint_shape_wrong c).
  rewrite Hshape. destruct Hfo as (Hrs & _ & Hes & Hbc & _). ota_consts.
  cbn [with_resume cp_phase cp_resume rp_next_block_index rp_raw_offset rp_encoded_offset].
  rewrite u64_id by (unfold is_u64; lia).
  repeat match goal with
  | |- context [?a <? ?b] => rewrite (proj2 (Z.ltb_ge a b)) by lia
  | |- context [?a <=? ?b] => rewrite (proj2 (Z.leb_gt a b)) by lia
  end.
  change (cp_phase _ =? CHECKPOINT_TRANSFERRING) with true. rewrite Hcd in Hmul.
  rewrite Hmul, Hmod, !Z.eqb_refl. cbn [negb orb].
  repeat match goal with |- context [?a =? 0] => rewrite (proj2 (Z.eqb_neq a 0)) by lia end.
  done.
Qed.

(** ** Activation, reboot and acknowledgement *)

Section Register.
Context {Laws : CheckpointEnvLaws W Store}.

Lemma load_register w c cp w' :
  register w c -> keemash_ota_v3_checkpoint_load w = (inr cp, w') ->
  c = Some cp /\ register w' c.
Proof.
  intros Hr El. pose proof (checkpoint_load_ok w _ eq_refl) as [Hsame Hl].
  pose proof (register_in_force w c Hr) as Hf. rewrite El in Hsame, Hl. cbn [fst snd] in *.
  split; [|by eapply register_same]. destruct Hl as (x & Hi & Hz & <-). destruct c as [cp'|].
  - destruct Hf as (x' & Hi' & _ & <-). congruence.
  - by apply Hf in Hi.
Qed.

Lemma load_empty w e w' :
  register w None -> keemash_ota_v3_checkpoint_load w = (e, w') -> forall cp, e <> inr cp.
Proof. intros Hr El cp ->. by destruct (load_register _ _ _ _ Hr El). Qed.

Lemma alloc_register w c ok w' : register w c -> heap_alloc w = (ok, w') -> register w' c.
Proof.
  intros Hr E. eapply register_same; [|exact Hr]. intros k.
  pose proof (heap_alloc_keeps w k) as H. by rewrite E in H.
Qed.

(** The hashes of authenticated fields are bytes. *)
Lemma verified_hashes signed signature f :
  keemash_ota_v3_verify_signed_fields signed signature = inr f ->
  are_bytes (image_sha256 f) /\ are_bytes (block_table_sha256 f).
Proof.
  unfold keemash_ota_v3_verify_signed_fields. intros H. res_inv.
  assert (signed_typed a3) as (_ & _ & _ & _ & Hb) by (by eapply pb_decode_signed_typed).
  rewrite !Forall_cons_iff in Hb. destruct Hb as (Hi & Ht & _).
  assert (Hcopy : forall src h, are_bytes src -> copy_hash src false = Some h -> are_bytes h).
  { intros src h Hs. unfold copy_hash. destruct (_ || _); [done|]. intros [= <-].
    destruct (blen src =? 32); [done|]. apply Forall_replicate. unfold is_u8. lia. }
  subst f. cbn [image_sha256 block_table_sha256].
  split; eapply Hcopy; [|eassumption| |eassumption]; done.
Qed.

Lemma terminal_save_ok r p phase :
  held r -> fr_partition r = Some p -> label_ok (label p) ->
  CHECKPOINT_VERIFIED <= phase <= CHECKPOINT_BOOT_PENDING -> 0 < encoded_size (fr_fields r) ->
  save_ok (Some (terminal_checkpoint r phase)).
Proof.
  intros Hh Hp Hlab Hph Henc. pose proof (held_fields_ok r Hh) as Hf.
  pose proof (verified_hashes _ _ _ (hd_verified r Hh)) as [Hi Ht].
  pose proof Hf as (Hrs & _ & Hes & Hbc & _ & _ & Li & _ & Lt).
  unfold CHECKPOINT_VERIFIED, CHECKPOINT_BOOT_PENDING in Hph. ota_consts.
  split.
  - apply (fill_checkpoint_typed r p); try done; [unfold is_u8; lia|].
    unfold resume_point_typed, is_u32. cbn. lia.
  - unfold save_refused. unfold terminal_checkpoint at 1.
    change (checkpoint_shape_wrong (with_resume ?c _)) with (checkpoint_shape_wrong c).
    rewrite (checkpoint_shape r p phase) by
      (done || unfold CHECKPOINT_TRANSFERRING, CHECKPOINT_BOOT_PENDING; lia).
    cbn [terminal_checkpoint with_resume fill_checkpoint cp_phase cp_resume rp_next_block_index
      rp_raw_offset rp_encoded_offset]. rewrite u8_id by (unfold is_u8; lia). ota_consts.
    unfold CHECKPOINT_TRANSFERRING. rewrite (proj2 (Z.eqb_neq phase 1)) by lia. cbn [negb orb].
    repeat match goal with
    | |- context [?a <? ?b] => rewrite (proj2 (Z.ltb_ge a b)) by lia
    | |- context [?a =? 0] => rewrite (proj2 (Z.eqb_neq a 0)) by lia
    end. done.
Qed.

Lemma save_terminal_register r p phase w c w' :
  held r -> fr_partition r = Some p -> label_ok (label p) ->
  CHECKPOINT_VERIFIED <= phase <= CHECKPOINT_BOOT_PENDING -> 0 < encoded_size (fr_fields r) ->
  register w c -> save_terminal_checkpoint r phase w = (ESP_OK, w') ->
  register w' (Some (terminal_checkpoint r phase)).
Proof.
  intros Hh Hp Hlab Hph Henc Hr H.
  pose proof (terminal_save_ok r p phase Hh Hp Hlab Hph Henc) as Hs.
  unfold save_terminal_checkpoint in H. rewrite bind_eq in H.
  destruct (heap_alloc w) as [ok w1] eqn:Ea. cbn [fst snd] in H.
  apply (alloc_register _ _ _ _ Hr) in Ea. destruct ok; cbn [negb] in H; [|done].
  unfold keemash_ota_v3_checkpoint_save in H. rewrite (proj2 Hs) in H.
  pose proof (write_register w1 c _ Ea Hs) as Hw. rewrite H in Hw.
  by destruct Hw as [[Hne _]|Hw].
Qed.

(** What else touches the store: nothing. *)
Context (preflight : ST W esp_err_t) (Hpre : stable same_store preflight)
  (Hboot : forall p, stable same_store (esp_ota_set_boot_partition p))
  (Hrun : stable same_store esp_ota_get_running_partition)
  (Hstate : forall p s, stable same_store (esp_ota_get_state_partition p s)).

Lemma activate_register r p w c w' r' :
  held r -> fr_partition r = Some p -> label_ok (label p) ->
  0 < encoded_size (fr_fields r) -> register w c ->
  keemash_ota_v3_flash_receiver_activate preflight (r, w) = (ESP_OK, (r', w')) ->
  register w' (Some (terminal_checkpoint r CHECKPOINT_BOOT_PENDING)).
Proof.
  intros Hh Hp Hlab Henc Hr H. unfold keemash_ota_v3_flash_receiver_activate in H.
  destruct (fr_active r); [done|]. destruct (fr_verified r); [|done]. rewrite Hp in H.
  destruct (and_then _ _ w) as [e w2] eqn:E. injection H as -> _ <-.
  apply and_then_inv in E as (w3 & E1 & E). apply and_then_inv in E as (w4 & E2 & E).
  assert (Hr3 : register w3 c).
  { eapply register_same; [|exact Hr]. pose proof (Hpre w) as Hk. by rewrite E1 in Hk. }
  eapply save_terminal_register in E2; [|done..|unfold CHECKPOINT_VERIFIED,
    CHECKPOINT_BOOT_PENDING; lia|done|exact Hr3].
  pose proof (Hboot p w4) as Hk. destruct (esp_ota_set_boot_partition p w4) as [e5 w5].
  destruct (err_eqb e5 ESP_OK) eqn:E5.
  - injection E as <-. by eapply register_same.
  - apply err_eqb_false in E5. destruct (save_terminal_checkpoint _ _ w5) as [e6 w6].
    destruct (err_eqb e6 ESP_OK) eqn:E6; [congruence|]. apply err_eqb_false in E6. congruence.
Qed.

(** A report carries the checkpoint's identity and leaves the store alone. *)
Lemma boot_report_ok node session w c rep w' :
  register w c -> keemash_ota_v3_boot_report node session w = (inr rep, w') ->
  exists cp, c = Some cp /\ cp_phase cp = CHECKPOINT_BOOT_PENDING /\
    br_operation_id rep = copy_operation (cp_operation_id cp) /\
    br_artifact_id rep = cp_artifact_id cp /\ br_node_id rep = node /\
    br_boot_session rep = session /\ register w' c.
Proof.
  intros Hr H. unfold keemash_ota_v3_boot_report in H. rewrite bind_eq in H.
  destruct (heap_alloc w) as [ok w1] eqn:Ea. cbn [fst snd] in H.
  apply (alloc_register _ _ _ _ Hr) in Ea. destruct ok; cbn [negb] in H; [|done].
  rewrite bind_eq in H. destruct (keemash_ota_v3_checkpoint_load w1) as [[e|cp] w2] eqn:El; [done|].
  apply (load_register _ _ _ _ Ea) in El as [-> Hr2]. cbn [fst snd] in H.
  destruct (Z.eqb_spec (cp_phase cp) CHECKPOINT_BOOT_PENDING) as [Hph|]; [|done].
  cbn [negb] in H. destruct (keemash_ota_v3_verify_signed_fields _ _) as [e|f]; [done|].
  rewrite bind_eq, ret_eq in H. injection H as Hrep Hw.
  exists cp. split; [done|]. split; [done|].
  assert (Hsame : same_store w2 w').
  { rewrite <- Hw. unfold report_state. rewrite bind_eq.
    pose proof (Hrun w2) as Hk. destruct (esp_ota_get_running_partition w2) as [[p|] w3];
      cbn [fst snd] in *; [|by rewrite ret_eq].
    destruct (bytes_eqb _ _); [|by rewrite ret_eq]. rewrite bind_eq.
    pose proof (Hstate p ESP_OTA_IMG_UNDEFINED w3) as Hk'.
    destruct (esp_ota_get_state_partition _ _ w3) as [[e s] w4]. cbn [fst snd] in *.
    rewrite ret_eq. cbn [snd]. by etransitivity. }
  assert (Hid : br_operation_id rep = copy_operation (cp_operation_id cp) /\
    br_artifact_id rep = cp_artifact_id cp /\ br_node_id rep = node /\ br_boot_session rep = session).
  { rewrite <- Hrep. unfold report_state. rewrite bind_eq.
    destruct (esp_ota_get_running_partition w2) as [[p|] w3]; cbn [fst snd]; [|done].
    destruct (bytes_eqb _ _); [|done]. rewrite bind_eq.
    destruct (esp_ota_get_state_partition _ _ w3) as [[e s] w4]. cbn [fst snd].
    rewrite ret_eq. cbn [fst]. by repeat case_match. }
  destruct Hid as (H1 & H2 & H3 & H4). split; [done|]. split; [done|]. split; [done|].
  split; [done|]. by eapply register_same.
Qed.

Lemma boot_report_never_ok node session w w' :
  keemash_ota_v3_boot_report node session w <> (inl ESP_OK, w').
Proof.
  unfold keemash_ota_v3_boot_report. rewrite bind_eq. destruct (negb _); [done|].
  rewrite bind_eq. pose proof (checkpoint_load_ok (heap_alloc w).2 _ eq_refl) as [_ Hl].
  destruct (keemash_ota_v3_checkpoint_load _) as [[e|cp] w2]; cbn [fst snd] in *.
  - intros [= -> _]. done.
  - destruct (negb _); [done|].
    pose proof (verify_signed_fields_proper
      (take (Z.to_nat (cp_signed_fields_len cp)) (cp_signed_fields cp)) (cp_signature cp)) as Hv.
    destruct (keemash_ota_v3_verify_signed_fields _ _) as [e|f]; [|by rewrite bind_eq, ret_eq].
    intros [= -> _]. by apply Hv.
Qed.

(** C27: after a successful activation the node remembers the transfer across
    the reboot: a boot report that can be made names the operation and artifact
    the root asked the receiver to prepare. *)
Theorem activation_reported r p id w c r' w' w2 node session rep w3 :
  flash_ok r w -> fr_partition r = Some p -> label_ok (label p) ->
  0 < encoded_size (fr_fields r) ->
  id_typed id -> fr_operation_id r = operation_bytes id ->
  register w c ->
  keemash_ota_v3_flash_receiver_activate preflight (r, w) = (ESP_OK, (r', w')) ->
  same_store w' w2 ->
  keemash_ota_v3_boot_report node session w2 = (inr rep, w3) ->
  br_operation_id rep = id /\ br_artifact_id rep = fr_artifact_id r /\
  br_node_id rep = node /\ br_boot_session rep = session.
Proof.
  intros Hok Hp Hlab Henc Hid Hop Hr Hact Hsame Hrep.
  assert (Hh : held r).
  { destruct Hok as [-> |s q a rp full w0 Ha Hv Hh _|_ _ Hh _]; [done|done|done]. }
  pose proof (activate_register _ _ _ _ _ _ Hh Hp Hlab Henc Hr Hact) as Hreg.
  apply (register_same _ w2) in Hreg; [|done].
  destruct (boot_report_ok _ _ _ _ _ _ Hreg Hrep) as (cp & [= <-] & _ & H1 & H2 & H3 & H4 & _).
  split; [|split; [|done]].
  - rewrite H1. cbn. rewrite Hop. by apply operation_roundtrip.
  - by rewrite H2.
Qed.

(** An acknowledgement is accepted only for the operation and artifact of
    the pending checkpoint and for the state the node itself would report now,
    a terminal one; then the store is empty and no further report is made. *)
Theorem acknowledged_once ack w c w' :
  register w c -> keemash_ota_v3_boot_ack ack w = (ESP_OK, w') ->
  report_terminal (ba_state ack) = true /\
  (exists cp, c = Some cp /\ cp_phase cp = CHECKPOINT_BOOT_PENDING /\
     copy_operation (cp_operation_id cp) = ba_operation_id ack /\
     cp_artifact_id cp = ba_artifact_id ack) /\
  register w' None /\
  (forall node session w2 rep w3, same_store w' w2 ->
     keemash_ota_v3_boot_report node session w2 <> (inr rep, w3)).
Proof.
  intros Hr H. unfold keemash_ota_v3_boot_ack in H. destruct (_ || _) eqn:Eb in H; [done|].
  rewrite bind_eq in H.
  destruct (keemash_ota_v3_boot_report _ _ w) as [[e|rep] w1] eqn:Erep; cbn [fst snd] in H.
  { rewrite ret_eq in H. injection H as -> <-. exfalso.
    by eapply boot_report_never_ok. }
  destruct (boot_report_ok _ _ _ _ _ _ Hr Erep) as (cp & -> & Hph & H1 & H2 & _ & _ & Hr1).
  destruct (_ || _) eqn:Em in H; [done|]. bools.
  pose proof (write_register w1 _ None Hr1 I) as Hw.
  unfold keemash_ota_v3_checkpoint_clear in H. rewrite H in Hw.
  destruct Hw as [[Hne _]|Hw]; [done|]. split; [done|]. split.
  { exists cp. split; [done|]. split; [done|]. split.
    - rewrite <- H1. destruct (br_operation_id rep), (ba_operation_id ack). cbn in *. congruence.
    - rewrite <- H2. by apply bytes_eqb_true. }
  split; [done|]. intros node session w2 rep' w3 Hs Hbr.
  apply (register_same _ w2) in Hw; [|done].
  by destruct (boot_report_ok _ _ _ _ _ _ Hw Hbr) as (cp' & ? & _).
Qed.

(** A transfer that is only persisted cannot be aborted: whatever the request
    names, the call fails and the checkpoint stays. *)
Theorem persisted_abort_refused r w c op art e r' w' :
  fr_active r = false -> fr_verified r = false -> register w c ->
  keemash_ota_v3_flash_receiver_abort op art (r, w) = (e, (r', w')) ->
  e <> ESP_OK /\ r' = r /\ register w' c.
Proof.
  intros Ha Hv Hr H. unfold keemash_ota_v3_flash_receiver_abort in H. rewrite Ha, Hv in H.
  cbn [orb andb negb] in H. unfold and_then in H. rewrite bind_eq in H. unfold world in H.
  assert (Hm : same_store w (match_checkpoint op art ESP_ERR_INVALID_STATE w).2).
  { unfold match_checkpoint. rewrite bind_eq.
    assert (Hal : same_store w (heap_alloc w).2) by (intros k; apply heap_alloc_keeps).
    destruct (negb _); [by rewrite ret_eq|]. rewrite bind_eq, ret_eq. cbn [snd].
    etransitivity; [exact Hal|].
    exact (proj1 (checkpoint_load_ok (heap_alloc w).2 _ eq_refl)). }
  destruct (match_checkpoint _ _ _ w) as [e1 w1]. cbn [fst snd] in *.
  assert (Hr1 : register w1 c) by (by eapply register_same).
  destruct (err_eqb e1 ESP_OK) eqn:E1.
  - unfold keemash_ota_v3_flash_receiver_abort_current in H. rewrite Ha, Hv in H.
    injection H as <- <- <-. done.
  - rewrite ret_eq in H. injection H as <- <- <-. by apply err_eqb_false in E1.
Qed.

End Register.
End BootProps.
