(* ===== verification/FabricTypes.v ===== *)
(** * KeeLink Fabric v2: the envelope

    The messages of keelink-fabric-v2.pb.h an envelope carries, with their
    members.  As in OtaTypes a byte array is the list of its [size] bytes, a
    character array its characters before the terminator, an enum its number, a
    repeated member the list of its [count] elements; a [double] is its 64-bit
    pattern.  [envelope_typed] says what a struct must satisfy for nanopb to read it back. *)

From S2P Require Import Prelude.
From S2P Require Import Words.
From S2P Require Import OtaTypes.
#[local] Open Scope Z_scope.

Definition TRAFFIC_UNSPECIFIED : Z := 0.
Definition TRAFFIC_CONTROL : Z := 1.
Definition TRAFFIC_OTA : Z := 9.
Definition DELIVERY_UNSPECIFIED : Z := 0.
Definition DELIVERY_SNAPSHOT : Z := 4.

Record ResumeCursor := { rc_traffic_class : Z; rc_sequence : Z }.

Record Hello := {
  he_protocol_version : Z; he_max_frame : Z; he_capabilities : Z; he_has_controller_id : bool;
  he_controller_id : Id128; he_has_transport_session : bool; he_transport_session : Id128;
  he_known_root_session : Z; he_manifest_digest : bytes; he_cursors : list ResumeCursor;
  he_zero_rtt : bool }.

Record Welcome := {
  we_protocol_version : Z; we_max_frame : Z; we_capabilities : Z;
  we_has_transport_session : bool; we_transport_session : Id128; we_root_session : Z;
  we_manifest_digest : bytes; we_resume_accepted : bool; we_fallback_reason : bytes }.

Record NodeDescriptor := {
  nd_has_node_id : bool; nd_node_id : Id128; nd_route_mac : bytes; nd_tag : bytes;
  nd_boot_session : Z; nd_firmware_version : bytes; nd_core_version : Z;
  nd_manifest_digest : bytes; nd_online : bool }.

Record EndpointDescriptor := {
  ep_has_endpoint_id : bool; ep_endpoint_id : Id128; ep_has_node_id : bool; ep_node_id : Id128;
  ep_path : bytes; ep_value_type : Z; ep_unit : bytes; ep_direction : Z; ep_delivery : Z;
  ep_permissions : Z; ep_min_period_ms : Z; ep_deadband : Z }.

Record GraphEdge := {
  ge_has_edge_id : bool; ge_edge_id : Id128; ge_has_source_endpoint_id : bool;
  ge_source_endpoint_id : Id128; ge_has_target_endpoint_id : bool;
  ge_target_endpoint_id : Id128; ge_delivery : Z; ge_max_period_ms : Z; ge_deadband : Z;
  ge_transform : bytes; ge_safety_owner : Z }.

Record GraphSnapshot := {
  gs_revision : Z; gs_manifest_digest : bytes; gs_nodes : list NodeDescriptor;
  gs_endpoints : list EndpointDescriptor; gs_edges : list GraphEdge; gs_page_index : Z;
  gs_page_count : Z }.

Record ControlRequest := {
  cq_has_operation_id : bool; cq_operation_id : Id128; cq_has_target_node_id : bool;
  cq_target_node_id : Id128; cq_has_endpoint_id : bool; cq_endpoint_id : Id128;
  cq_command : bytes; cq_payload : bytes; cq_read_only : bool }.

Record ControlResult := {
  cr_has_operation_id : bool; cr_operation_id : Id128; cr_outcome : Z; cr_status : Z;
  cr_text : bytes; cr_handler_duration_us : Z; cr_duplicate : bool }.

(** [which_value] and the member of [value] it selects. *)
Inductive TelemetryValue :=
  | value_none
  | bool_value (v : bool)
  | sint64_value (v : Z)
  | double_value (v : Z)
  | string_value (v : bytes)
  | bytes_value (v : bytes).

Record TelemetrySample := {
  te_has_endpoint_id : bool; te_endpoint_id : Id128; te_boot_session : Z;
  te_sample_sequence : Z; te_acquisition_mono_us : Z; te_wall_time_ms : Z; te_validity : Z;
  te_quality_flags : Z; te_value : TelemetryValue; te_generation : Z; te_request_id : Z;
  te_metric_id : Z; te_scale10 : Z }.

Record TaskEntry := {
  tk_name : bytes; tk_runtime : Z; tk_stack_free_words : Z; tk_priority : Z; tk_state : Z;
  tk_core : Z; tk_cpu_load_x10 : Z }.

Record TaskSnapshot := {
  tn_has_node_id : bool; tn_node_id : Id128; tn_boot_session : Z; tn_acquisition_mono_us : Z;
  tn_total_runtime : Z; tn_actual_count : Z; tn_truncated : bool; tn_tasks : list TaskEntry;
  tn_request_id : Z; tn_updated_ms : Z; tn_uptime_s : Z; tn_cpu_load_x10 : Z;
  tn_cpu_valid : bool; tn_task_index : Z }.

Record MemorySnapshot := {
  mn_has_node_id : bool; mn_node_id : Id128; mn_boot_session : Z; mn_acquisition_mono_us : Z;
  mn_internal_total : Z; mn_internal_free : Z; mn_internal_min_free : Z; mn_psram_total : Z;
  mn_psram_free : Z; mn_psram_min_free : Z; mn_flash_size : Z; mn_image_size : Z;
  mn_app_slot_size : Z; mn_nvs_used_entries : Z; mn_nvs_total_entries : Z; mn_uptime_s : Z;
  mn_psram_expected : Z; mn_nvs_free_entries : Z; mn_nvs_available_entries : Z;
  mn_heap_total : Z; mn_heap_free : Z; mn_heap_min_free : Z; mn_psram_enabled : bool }.

Record LogLine := {
  ln_has_node_id : bool; ln_node_id : Id128; ln_boot_session : Z; ln_line_sequence : Z;
  ln_acquisition_mono_us : Z; ln_level : Z; ln_text : bytes }.

Record Gap := {
  gp_traffic_class : Z; gp_first_sequence : Z; gp_last_sequence : Z; gp_reason : bytes;
  gp_snapshot_required : bool }.

Record Probe := {
  pb_nonce : Z; pb_sender_mono_us : Z; pb_receiver_mono_us : Z; pb_reply_mono_us : Z }.

Record OtaStageRequest := {
  sq_artifact_id : bytes; sq_package_size : Z; sq_manifest_size : Z; sq_replace_existing : bool }.

Record OtaStageChunk := {
  sc_artifact_id : bytes; sc_offset : Z; sc_data : bytes; sc_final_chunk : bool }.

Record OtaStageStatus := {
  sst_artifact_id : bytes; sst_phase : Z; sst_offset : Z; sst_total : Z; sst_status : Z;
  sst_message : bytes }.

Record OtaDeployRequest := {
  dq_has_operation_id : bool; dq_operation_id : Id128; dq_has_target_node_id : bool;
  dq_target_node_id : Id128; dq_artifact_id : bytes; dq_root_target : bool }.

Record OtaDeployStatus := {
  ds_has_operation_id : bool; ds_operation_id : Id128; ds_has_target_node_id : bool;
  ds_target_node_id : Id128; ds_artifact_id : bytes; ds_phase : Z; ds_raw_offset : Z;
  ds_encoded_offset : Z; ds_raw_size : Z; ds_encoded_size : Z; ds_window_credit : Z;
  ds_retries : Z; ds_resume_count : Z; ds_route_pause_count : Z; ds_status : Z;
  ds_message : bytes }.

Record OtaCancelRequest := {
  oc_has_operation_id : bool; oc_operation_id : Id128; oc_has_target_node_id : bool;
  oc_target_node_id : Id128; oc_reason : bytes }.

(** [which_body] and the member of [body] it selects; [body_unset n] is a
    [which_body] that is not the tag of a member. *)
Inductive Envelope_body :=
  | body_unset (which_body : Z)
  | body_hello (m : Hello)
  | body_welcome (m : Welcome)
  | body_graph (m : GraphSnapshot)
  | body_control_request (m : ControlRequest)
  | body_control_result (m : ControlResult)
  | body_telemetry (m : TelemetrySample)
  | body_tasks (m : TaskSnapshot)
  | body_memory (m : MemorySnapshot)
  | body_log (m : LogLine)
  | body_gap (m : Gap)
  | body_probe (m : Probe)
  | body_ota_stage_request (m : OtaStageRequest)
  | body_ota_stage_chunk (m : OtaStageChunk)
  | body_ota_stage_status (m : OtaStageStatus)
  | body_ota_deploy_request (m : OtaDeployRequest)
  | body_ota_deploy_status (m : OtaDeployStatus)
  | body_ota_cancel_request (m : OtaCancelRequest)
  | body_ota_boot_report (m : OtaBootReport).

Definition Envelope_hello_tag : Z := 20.
Definition Envelope_ota_boot_report_tag : Z := 37.

Definition which_body (b : Envelope_body) : Z :=
  match b with
  | body_unset n => n
  | body_hello _ => 20
  | body_welcome _ => 21
  | body_graph _ => 22
  | body_control_request _ => 23
  | body_control_result _ => 24
  | body_telemetry _ => 25
  | body_tasks _ => 26
  | body_memory _ => 27
  | body_log _ => 28
  | body_gap _ => 29
  | body_probe _ => 30
  | body_ota_stage_request _ => 31
  | body_ota_stage_chunk _ => 32
  | body_ota_stage_status _ => 33
  | body_ota_deploy_request _ => 34
  | body_ota_deploy_status _ => 35
  | body_ota_cancel_request _ => 36
  | body_ota_boot_report _ => 37
  end.

Record Envelope := {
  en_protocol_version : Z; en_traffic_class : Z; en_delivery : Z; en_root_session : Z;
  en_has_transport_session : bool; en_transport_session : Id128;
  en_has_source_node_id : bool; en_source_node_id : Id128;
  en_has_target_node_id : bool; en_target_node_id : Id128;
  en_has_operation_id : bool; en_operation_id : Id128;
  en_sequence : Z; en_correlation : Z; en_graph_revision : Z; en_body : Envelope_body }.

(** ** nanopb

    [pb_encode_envelope m capacity]: the result of [pb_encode] into a buffer of
    that capacity and the bytes written, also when it fails;
    [pb_decode_envelope] is [None] when it fails. *)
Class EnvelopePb := {
  pb_encode_envelope : Envelope -> Z -> bool * bytes;
  pb_decode_envelope : bytes -> option Envelope }.

(** ** Structs nanopb reads back

    The documented conditions, message by message: numbers within their members, a byte
    or character array within its declared size and a character array without a NUL, a
    [count] within the array, and a submessage whose [has_] flag is false left at zero, as
    the decoder leaves it. *)
Definition pb_bytes (n : nat) (b : bytes) : Prop := are_bytes b /\ (length b <= n)%nat.
Definition pb_string (n : nat) (b : bytes) : Prop :=
  Forall (fun c => 0 < c < 256) b /\ (length b <= n)%nat.
Definition pb_id (has : bool) (id : Id128) : Prop :=
  if has then id_typed id else id = {| high := 0; low := 0 |}.
Definition pb_repeated {A : Type} (n : nat) (P : A -> Prop) (l : list A) : Prop :=
  Forall P l /\ (length l <= n)%nat.

Definition cursor_typed (m : ResumeCursor) : Prop :=
  is_u32 (rc_traffic_class m) /\ is_u64 (rc_sequence m).

Definition hello_typed (m : Hello) : Prop :=
  Forall is_u32 [he_protocol_version m; he_max_frame m] /\
  Forall is_u64 [he_capabilities m; he_known_root_session m] /\
  pb_id (he_has_controller_id m) (he_controller_id m) /\
  pb_id (he_has_transport_session m) (he_transport_session m) /\
  pb_bytes 32 (he_manifest_digest m) /\ pb_repeated 9 cursor_typed (he_cursors m).

Definition welcome_typed (m : Welcome) : Prop :=
  Forall is_u32 [we_protocol_version m; we_max_frame m] /\
  Forall is_u64 [we_capabilities m; we_root_session m] /\
  pb_id (we_has_transport_session m) (we_transport_session m) /\
  pb_bytes 32 (we_manifest_digest m) /\ pb_string 64 (we_fallback_reason m).

Definition node_typed (m : NodeDescriptor) : Prop :=
  pb_id (nd_has_node_id m) (nd_node_id m) /\ pb_bytes 6 (nd_route_mac m) /\
  pb_string 32 (nd_tag m) /\ is_u64 (nd_boot_session m) /\
  pb_string 32 (nd_firmware_version m) /\ is_u32 (nd_core_version m) /\
  pb_bytes 32 (nd_manifest_digest m).

Definition endpoint_typed (m : EndpointDescriptor) : Prop :=
  pb_id (ep_has_endpoint_id m) (ep_endpoint_id m) /\ pb_id (ep_has_node_id m) (ep_node_id m) /\
  pb_string 96 (ep_path m) /\ pb_string 16 (ep_unit m) /\
  Forall is_u32 [ep_value_type m; ep_direction m; ep_delivery m; ep_permissions m;
                 ep_min_period_ms m] /\ is_u64 (ep_deadband m).

Definition edge_typed (m : GraphEdge) : Prop :=
  pb_id (ge_has_edge_id m) (ge_edge_id m) /\
  pb_id (ge_has_source_endpoint_id m) (ge_source_endpoint_id m) /\
  pb_id (ge_has_target_endpoint_id m) (ge_target_endpoint_id m) /\
  Forall is_u32 [ge_delivery m; ge_max_period_ms m; ge_safety_owner m] /\
  is_u64 (ge_deadband m) /\ pb_string 96 (ge_transform m).

Definition graph_typed (m : GraphSnapshot) : Prop :=
  is_u64 (gs_revision m) /\ pb_bytes 32 (gs_manifest_digest m) /\
  pb_repeated 4 node_typed (gs_nodes m) /\ pb_repeated 8 endpoint_typed (gs_endpoints m) /\
  pb_repeated 8 edge_typed (gs_edges m) /\ Forall is_u32 [gs_page_index m; gs_page_count m].

Definition control_request_typed (m : ControlRequest) : Prop :=
  pb_id (cq_has_operation_id m) (cq_operation_id m) /\
  pb_id (cq_has_target_node_id m) (cq_target_node_id m) /\
  pb_id (cq_has_endpoint_id m) (cq_endpoint_id m) /\
  pb_string 96 (cq_command m) /\ pb_bytes 512 (cq_payload m).

Definition control_result_typed (m : ControlResult) : Prop :=
  pb_id (cr_has_operation_id m) (cr_operation_id m) /\
  Forall is_u32 [cr_outcome m; cr_status m; cr_handler_duration_us m] /\
  pb_string 128 (cr_text m).

Definition telemetry_value_typed (v : TelemetryValue) : Prop :=
  match v with
  | value_none | bool_value _ => True
  | sint64_value z => - 2 ^ 63 <= z < 2 ^ 63
  | double_value z => is_u64 z
  | string_value b => pb_string 96 b
  | bytes_value b => pb_bytes 256 b
  end.

Definition telemetry_typed (m : TelemetrySample) : Prop :=
  pb_id (te_has_endpoint_id m) (te_endpoint_id m) /\
  Forall is_u64 [te_boot_session m; te_sample_sequence m; te_acquisition_mono_us m;
                 te_wall_time_ms m] /\
  Forall is_u32 [te_validity m; te_quality_flags m; te_generation m; te_request_id m;
                 te_metric_id m] /\
  telemetry_value_typed (te_value m) /\ - 2 ^ 31 <= te_scale10 m < 2 ^ 31.

Definition task_typed (m : TaskEntry) : Prop :=
  pb_string 24 (tk_name m) /\
  Forall is_u32 [tk_runtime m; tk_stack_free_words m; tk_priority m; tk_state m; tk_core m;
                 tk_cpu_load_x10 m].

Definition tasks_typed (m : TaskSnapshot) : Prop :=
  pb_id (tn_has_node_id m) (tn_node_id m) /\
  Forall is_u64 [tn_boot_session m; tn_acquisition_mono_us m] /\
  Forall is_u32 [tn_total_runtime m; tn_actual_count m; tn_request_id m; tn_updated_ms m;
                 tn_uptime_s m; tn_cpu_load_x10 m; tn_task_index m] /\
  pb_repeated 64 task_typed (tn_tasks m).

Definition memory_typed (m : MemorySnapshot) : Prop :=
  pb_id (mn_has_node_id m) (mn_node_id m) /\
  Forall is_u64 [mn_boot_session m; mn_acquisition_mono_us m] /\
  Forall is_u32 [mn_internal_total m; mn_internal_free m; mn_internal_min_free m;
                 mn_psram_total m; mn_psram_free m; mn_psram_min_free m; mn_flash_size m;
                 mn_image_size m; mn_app_slot_size m; mn_nvs_used_entries m;
                 mn_nvs_total_entries m; mn_uptime_s m; mn_psram_expected m;
                 mn_nvs_free_entries m; mn_nvs_available_entries m; mn_heap_total m;
                 mn_heap_free m; mn_heap_min_free m].

Definition log_typed (m : LogLine) : Prop :=
  pb_id (ln_has_node_id m) (ln_node_id m) /\
  Forall is_u64 [ln_boot_session m; ln_line_sequence m; ln_acquisition_mono_us m] /\
  is_u32 (ln_level m) /\ pb_string 320 (ln_text m).

Definition gap_typed (m : Gap) : Prop :=
  is_u32 (gp_traffic_class m) /\ Forall is_u64 [gp_first_sequence m; gp_last_sequence m] /\
  pb_string 48 (gp_reason m).

Definition probe_typed (m : Probe) : Prop :=
  Forall is_u64 [pb_nonce m; pb_sender_mono_us m; pb_receiver_mono_us m; pb_reply_mono_us m].

Definition stage_request_typed (m : OtaStageRequest) : Prop :=
  pb_bytes 32 (sq_artifact_id m) /\ Forall is_u32 [sq_package_size m; sq_manifest_size m].

Definition stage_chunk_typed (m : OtaStageChunk) : Prop :=
  pb_bytes 32 (sc_artifact_id m) /\ is_u32 (sc_offset m) /\ pb_bytes 2560 (sc_data m).

Definition stage_status_typed (m : OtaStageStatus) : Prop :=
  pb_bytes 32 (sst_artifact_id m) /\
  Forall is_u32 [sst_phase m; sst_offset m; sst_total m; sst_status m] /\
  pb_string 96 (sst_message m).

Definition deploy_request_typed (m : OtaDeployRequest) : Prop :=
  pb_id (dq_has_operation_id m) (dq_operation_id m) /\
  pb_id (dq_has_target_node_id m) (dq_target_node_id m) /\ pb_bytes 32 (dq_artifact_id m).

Definition deploy_status_typed (m : OtaDeployStatus) : Prop :=
  pb_id (ds_has_operation_id m) (ds_operation_id m) /\
  pb_id (ds_has_target_node_id m) (ds_target_node_id m) /\ pb_bytes 32 (ds_artifact_id m) /\
  Forall is_u32 [ds_phase m; ds_raw_offset m; ds_encoded_offset m; ds_raw_size m;
                 ds_encoded_size m; ds_window_credit m; ds_retries m; ds_resume_count m;
                 ds_route_pause_count m; ds_status m] /\
  pb_string 96 (ds_message m).

Definition cancel_typed (m : OtaCancelRequest) : Prop :=
  pb_id (oc_has_operation_id m) (oc_operation_id m) /\
  pb_id (oc_has_target_node_id m) (oc_target_node_id m) /\ pb_string 64 (oc_reason m).

Definition boot_report_typed (m : OtaBootReport) : Prop :=
  pb_id (br_has_operation_id m) (br_operation_id m) /\
  pb_id (br_has_node_id m) (br_node_id m) /\ pb_bytes 32 (br_artifact_id m) /\
  is_u64 (br_boot_session m) /\ pb_string 32 (br_firmware_version m) /\
  Forall is_u32 [br_state m; br_rollback_state m; br_health_status m] /\
  pb_string 96 (br_message m).

Definition body_typed (b : Envelope_body) : Prop :=
  match b with
  | body_unset n => n = 0
  | body_hello m => hello_typed m
  | body_welcome m => welcome_typed m
  | body_graph m => graph_typed m
  | body_control_request m => control_request_typed m
  | body_control_result m => control_result_typed m
  | body_telemetry m => telemetry_typed m
  | body_tasks m => tasks_typed m
  | body_memory m => memory_typed m
  | body_log m => log_typed m
  | body_gap m => gap_typed m
  | body_probe m => probe_typed m
  | body_ota_stage_request m => stage_request_typed m
  | body_ota_stage_chunk m => stage_chunk_typed m
  | body_ota_stage_status m => stage_status_typed m
  | body_ota_deploy_request m => deploy_request_typed m
  | body_ota_deploy_status m => deploy_status_typed m
  | body_ota_cancel_request m => cancel_typed m
  | body_ota_boot_report m => boot_report_typed m
  end.

Definition envelope_typed (m : Envelope) : Prop :=
  Forall is_u32 [en_protocol_version m; en_traffic_class m; en_delivery m] /\
  Forall is_u64 [en_root_session m; en_sequence m; en_correlation m; en_graph_revision m] /\
  pb_id (en_has_transport_session m) (en_transport_session m) /\
  pb_id (en_has_source_node_id m) (en_source_node_id m) /\
  pb_id (en_has_target_node_id m) (en_target_node_id m) /\
  pb_id (en_has_operation_id m) (en_operation_id m) /\ body_typed (en_body m).

(** An encoder stays inside its buffer; a decoder reads back a struct that meets the
    conditions above; from no bytes at all it makes a message of default values. *)
Class EnvelopePbLaws (P : EnvelopePb) := {
  pb_envelope_fits : forall m cap b, pb_encode_envelope m cap = (true, b) ->
    Z.of_nat (length b) <= cap;
  pb_envelope_roundtrip : forall m cap b, envelope_typed m ->
    pb_encode_envelope m cap = (true, b) -> pb_decode_envelope b = Some m;
  pb_envelope_empty : forall m, pb_decode_envelope [] = Some m -> en_protocol_version m = 0 }.
