(* ===== verification/Fabric.v ===== *)
(** * KeeLink Fabric v2: envelopes and identifiers (keemash_fabric.c)

    An envelope is validated before it is encoded and after it is decoded; on the
    wire four prefix bytes tell it from KeeLink v1 text.  Identifiers are 128-bit
    numbers with a big-endian byte form, derived as version-5 UUIDs.  Pointers are
    not NULL; a result with outputs is a [res]. *)

From Stdlib Require String.
From S2P Require Import Prelude.
From S2P Require Import Words.
From S2P Require Import Esp.
From S2P Require Import OtaLib.
From S2P Require Import OtaTypes.
From S2P Require Import OtaFlash.
From S2P Require Import OtaBoot.
From S2P Require Import FabricTypes.
#[local] Open Scope Z_scope.

Definition KEEMASH_FABRIC_VERSION : Z := 2.
Definition KEEMASH_FABRIC_MAX_FRAME : Z := 4096.
Definition KEEMASH_FABRIC_WIRE_PREFIX_SIZE : Z := 4.
Definition KEEMASH_FABRIC_MAX_WIRE_FRAME : Z :=
  KEEMASH_FABRIC_WIRE_PREFIX_SIZE + KEEMASH_FABRIC_MAX_FRAME.

Definition s_legacy_namespace : bytes :=
  [0x1d; 0x79; 0x70; 0x79; 0x45; 0xa7; 0x57; 0xf5;
   0xa5; 0x91; 0x31; 0x94; 0x3c; 0x7a; 0x68; 0x5c].
Definition s_wire_prefix : bytes := [75; 76; 70; 50].

(** ** Identifiers *)

Definition load_be64 (value : bytes) : Z :=
  fold_left (fun result b => Z.lor (u64 (Z.shiftl result 8)) b) (take 8 value) 0.

(** The loop fills [out] from its end. *)
Fixpoint store_be64_loop (n : nat) (value : Z) (out : bytes) : bytes :=
  match n with
  | O => out
  | S n => store_be64_loop n (Z.shiftr value 8) (u8 value :: out)
  end.
Definition store_be64 (value : Z) : bytes := store_be64_loop 8 value [].

Definition keemash_fabric_id_is_zero (id : Id128) : bool := (high id =? 0) && (low id =? 0).

Definition keemash_fabric_id_to_bytes (id : Id128) : bytes :=
  store_be64 (high id) ++ store_be64 (low id).

Definition keemash_fabric_id_from_bytes (b : bytes) : Id128 :=
  {| high := load_be64 b; low := load_be64 (drop 8 b) |}.

Definition keemash_fabric_sequence_after (candidate reference : Z) : bool :=
  negb (candidate =? reference) && (0 <? i64 (u64 (candidate - reference))).

(** ** Validation *)

Definition envelope_out_of_range (m : Envelope) : bool :=
  negb (en_protocol_version m =? KEEMASH_FABRIC_VERSION) ||
  (en_traffic_class m <=? TRAFFIC_UNSPECIFIED) || (TRAFFIC_OTA <? en_traffic_class m) ||
  (en_delivery m <=? DELIVERY_UNSPECIFIED) || (DELIVERY_SNAPSHOT <? en_delivery m) ||
  (which_body (en_body m) <? Envelope_hello_tag) ||
  (Envelope_ota_boot_report_tag <? which_body (en_body m)).

Definition keemash_fabric_validate (m : Envelope) (allow_zero_rtt : bool) : esp_err_t :=
  if envelope_out_of_range m then ESP_ERR_INVALID_ARG
  else
    match en_body m with
    | body_hello h =>
        if he_zero_rtt h && negb allow_zero_rtt then ESP_ERR_NOT_SUPPORTED else ESP_OK
    | body_control_request r =>
        if (en_traffic_class m =? TRAFFIC_CONTROL) &&
           (negb (cq_has_operation_id r) || keemash_fabric_id_is_zero (cq_operation_id r))
        then ESP_ERR_INVALID_ARG else ESP_OK
    | _ => ESP_OK
    end.

(** ** Encoding *)

Section Codec.
Context {Pb : EnvelopePb}.

(** The bytes of [out] that count. *)
Definition keemash_fabric_encode (m : Envelope) (capacity : Z) : res bytes :=
  fail_if ((capacity =? 0) || (KEEMASH_FABRIC_MAX_FRAME <? capacity)) ESP_ERR_INVALID_ARG ;;
  try_err (keemash_fabric_validate m false) ;;
  match pb_encode_envelope m capacity with
  | (true, b) => mret b
  | (false, b) => inl (if capacity <=? blen b then ESP_ERR_INVALID_SIZE else ESP_FAIL)
  end.

Definition keemash_fabric_decode (data : bytes) : res Envelope :=
  fail_if ((blen data =? 0) || (KEEMASH_FABRIC_MAX_FRAME <? blen data)) ESP_ERR_INVALID_ARG ;;
  m ← or_fail (pb_decode_envelope data) ESP_ERR_INVALID_RESPONSE;
  try_err (keemash_fabric_validate m false) ;;
  mret m.

Definition keemash_fabric_is_wire_frame (data : bytes) : bool :=
  (KEEMASH_FABRIC_WIRE_PREFIX_SIZE <=? blen data) && bytes_eqb (take 4 data) s_wire_prefix.

Definition keemash_fabric_encode_wire (m : Envelope) (capacity : Z) : res bytes :=
  fail_if ((capacity <? KEEMASH_FABRIC_WIRE_PREFIX_SIZE) ||
           (KEEMASH_FABRIC_MAX_WIRE_FRAME <? capacity)) ESP_ERR_INVALID_ARG ;;
  payload ← keemash_fabric_encode m (capacity - KEEMASH_FABRIC_WIRE_PREFIX_SIZE);
  mret (s_wire_prefix ++ payload).

Definition keemash_fabric_decode_wire (data : bytes) : res Envelope :=
  fail_if (negb (keemash_fabric_is_wire_frame data) ||
           (blen data =? KEEMASH_FABRIC_WIRE_PREFIX_SIZE) ||
           (KEEMASH_FABRIC_MAX_WIRE_FRAME <? blen data)) ESP_ERR_INVALID_ARG ;;
  keemash_fabric_decode (drop 4 data).

End Codec.

(** ** Version-5 UUIDs

    The digest calls are those of [Digest], here for SHA-1. *)

Section Uuid.
Context {D : Digest} (sha1_supported : bool).

(** [rc == 0] after each call. *)
Definition sha1_of (namespace_bytes name : bytes) : option bytes :=
  ctx ← mbedtls_md_setup md_zero;
  ctx ← mbedtls_md_starts ctx;
  ctx ← mbedtls_md_update ctx namespace_bytes;
  ctx ← (if blen name =? 0 then Some ctx else mbedtls_md_update ctx name);
  mbedtls_md_finish ctx.

Definition stamp_version (digest : bytes) : bytes :=
  let digest := alter (fun b => u8 (Z.lor (Z.land b 0x0f) 0x50)) 6%nat digest in
  alter (fun b => u8 (Z.lor (Z.land b 0x3f) 0x80)) 8%nat digest.

Definition keemash_fabric_uuid_v5 (namespace_id : Id128) (name : bytes) : res Id128 :=
  fail_if (negb sha1_supported) ESP_ERR_NOT_SUPPORTED ;;
  digest ← or_fail (sha1_of (keemash_fabric_id_to_bytes namespace_id) name) ESP_FAIL;
  mret (keemash_fabric_id_from_bytes (stamp_version digest)).

Definition keemash_fabric_legacy_node_id (root_mac node_mac : bytes) : res Id128 :=
  keemash_fabric_uuid_v5 (keemash_fabric_id_from_bytes s_legacy_namespace)
    (take 6 root_mac ++ take 6 node_mac).

(** [path] is a C string. *)
Definition keemash_fabric_endpoint_id (node_id : Id128) (path : bytes) : res Id128 :=
  fail_if ((blen path =? 0) || (96 <? blen path)) ESP_ERR_INVALID_ARG ;;
  keemash_fabric_uuid_v5 node_id path.

End Uuid.

(** ** The byte form of an identifier *)

Lemma store_be64_loop_eq n value out : store_be64_loop n value out = store_be n value ++ out.
Proof.
  unfold store_be. revert value out. induction n as [|n IH]; intros value out; [done|].
  cbn [store_be64_loop le_bytes]. rewrite IH, reverse_cons, <- app_assoc. cbn.
  by rewrite Z.shiftr_div_pow2 by lia.
Qed.

Lemma store_be64_eq value : store_be64 value = store_be 8 value.
Proof. unfold store_be64. by rewrite store_be64_loop_eq, app_nil_r. Qed.

(** A round of [load_be64] with room for another byte. *)
Lemma load_round r b n :
  0 <= r < 256 ^ Z.of_nat n -> (n < 8)%nat -> is_u8 b ->
  Z.lor (u64 (Z.shiftl r 8)) b = r * 256 + b.
Proof.
  intros Hr Hn Hb. assert (256 ^ Z.of_nat n <= 256 ^ 7) by (apply Z.pow_le_mono_r; lia).
  change (256 ^ 7) with 72057594037927936 in *.
  rewrite Z.shiftl_mul_pow2 by lia. change (2 ^ 8) with 256.
  rewrite u64_id by (unfold is_u64; lia).
  assert (Hl : Z.land (r * 256) b = 0).
  { apply Z.bits_inj'. intros i Hi. rewrite Z.land_spec, Z.bits_0.
    destruct (Z_lt_le_dec i 8) as [Hlt|Hge].
    - change 256 with (2 ^ 8). by rewrite Z.mul_pow2_bits_low.
    - rewrite (Z.bits_above_log2 b i); [by rewrite andb_false_r|unfold is_u8 in Hb; lia|].
      unfold is_u8 in Hb. destruct (Z.eq_dec b 0) as [->|]; [cbn; lia|].
      apply Z.log2_lt_pow2; [lia|]. assert (2 ^ 8 <= 2 ^ i) by (apply Z.pow_le_mono_r; lia).
      change (2 ^ 8) with 256 in *. lia. }
  rewrite <- Z.lxor_lor by done. symmetry. by apply Z.add_nocarry_lxor.
Qed.

Lemma load_rounds bs r n :
  are_bytes bs -> 0 <= r < 256 ^ Z.of_nat n -> (n + length bs <= 8)%nat ->
  fold_left (fun result b => Z.lor (u64 (Z.shiftl result 8)) b) bs r =
  fold_left (fun r b => r * 256 + b) bs r.
Proof.
  intros Hb. revert r n. induction Hb as [|b bs Hb _ IH]; intros r n Hr Hn; [done|].
  cbn [fold_left length] in *. rewrite (load_round r b n) by (done || lia).
  apply (IH _ (S n)); [|lia]. rewrite Nat2Z.inj_succ, Z.pow_succ_r by lia.
  unfold is_u8 in Hb. lia.
Qed.

Lemma load_be64_eq bs : are_bytes bs -> load_be64 bs = load_be (take 8 bs).
Proof.
  intros Hb. unfold load_be64, load_be.
  apply (load_rounds _ _ 0); [by apply Forall_take|cbn; lia|rewrite length_take; lia].
Qed.

Lemma load_store_be64 value rest : is_u64 value -> load_be64 (store_be64 value ++ rest) = value.
Proof.
  intros Hv. rewrite store_be64_eq. unfold store_be.
  assert (Hb : are_bytes (reverse (le_bytes 8 value))).
  { apply Forall_reverse. apply le_bytes_are. }
  transitivity (load_be64 (reverse (le_bytes 8 value))).
  { unfold load_be64. by rewrite take_app_le by (rewrite length_reverse, length_le_bytes; lia). }
  rewrite load_be64_eq by done.
  rewrite take_ge by (rewrite length_reverse, length_le_bytes; lia).
  rewrite load_be_rev. by apply le_val_bytes_8.
Qed.

Lemma store_load_be64 bs :
  are_bytes bs -> (8 <= length bs)%nat -> store_be64 (load_be64 bs) = take 8 bs.
Proof.
  intros Hb Hl. rewrite store_be64_eq, load_be64_eq by done. unfold store_be.
  rewrite <- (reverse_involutive (take 8 bs)), load_be_rev.
  assert (Hb' : are_bytes (reverse (take 8 bs))) by (apply Forall_reverse; by apply Forall_take).
  pose proof (le_bytes_val _ Hb') as H. rewrite length_reverse, length_take, Nat.min_l in H by lia.
  by rewrite H.
Qed.

(** An identifier survives its byte form, and sixteen bytes survive being an
    identifier; the byte form is the one the OTA v3 flash receiver stores. *)
Theorem fabric_id_roundtrip id :
  id_typed id -> keemash_fabric_id_from_bytes (keemash_fabric_id_to_bytes id) = id.
Proof.
  intros [Hh Hl]. unfold keemash_fabric_id_from_bytes, keemash_fabric_id_to_bytes.
  rewrite load_store_be64 by done.
  replace (drop 8 (store_be64 (high id) ++ store_be64 (low id))) with (store_be64 (low id) ++ [])
    by (rewrite app_nil_r; reflexivity).
  rewrite load_store_be64 by done. by destruct id.
Qed.

Lemma fabric_bytes_roundtrip bs :
  are_bytes bs -> length bs = 16%nat ->
  keemash_fabric_id_to_bytes (keemash_fabric_id_from_bytes bs) = bs.
Proof.
  intros Hb Hl. unfold keemash_fabric_id_to_bytes, keemash_fabric_id_from_bytes. cbn [high low].
  rewrite !store_load_be64; [|by apply Forall_drop|rewrite length_drop; lia|done|lia].
  rewrite (take_ge (drop 8 bs)) by (rewrite length_drop; lia). apply take_drop.
Qed.

Lemma fabric_operation_bytes id : keemash_fabric_id_to_bytes id = operation_bytes id.
Proof.
  unfold keemash_fabric_id_to_bytes, operation_bytes, store_be64, be64. cbn [store_be64_loop map].
  by rewrite !Z.shiftr_shiftr by lia.
Qed.

(** [sequence_after] is wrapping order in half the range. *)
Theorem sequence_after_spec candidate reference :
  keemash_fabric_sequence_after candidate reference = true <->
  0 < u64 (candidate - reference) < 2 ^ 63.
Proof.
  unfold keemash_fabric_sequence_after. rewrite andb_true_iff, negb_true_iff.
  rewrite Z.eqb_neq, Z.ltb_lt. change (2 ^ 63) with 9223372036854775808.
  split.
  - intros [_ H]. pose proof (u64_is (candidate - reference)). words.
  - intros H. split; [intros ->; rewrite Z.sub_diag in H; change (u64 0) with 0 in H; lia|]. words.
Qed.

(** ** Envelopes on the wire *)

Section Wire.
Context {Pb : EnvelopePb} {HP : EnvelopePbLaws Pb}.

(** A valid envelope has a version, so that its encoding has a byte. *)
Lemma encoded_not_empty m b :
  keemash_fabric_validate m false = ESP_OK -> pb_decode_envelope b = Some m -> 0 < blen b.
Proof.
  intros Hv Hd. unfold keemash_fabric_validate in Hv.
  destruct (envelope_out_of_range m) eqn:Er; [done|]. unfold envelope_out_of_range in Er.
  destruct b as [|x b]; [|unfold blen; cbn [length]; lia].
  apply pb_envelope_empty in Hd. unfold KEEMASH_FABRIC_VERSION in Er. bools. lia.
Qed.

(** C36: envelopes survive the wire.  An envelope within the bounds of its struct whose
    unset submessages are zero ([envelope_typed]) and that [encode_wire] accepts is a
    frame within the capacity that [keemash_fabric_is_wire_frame] recognises, longer than
    the prefix, and [decode_wire] returns the envelope.  (An envelope with
    [has_operation_id] false and an [operation_id] that is not zero is accepted too, but
    nanopb leaves the member out and the decoder returns it as zero.) *)
Theorem fabric_wire_roundtrip m capacity frame :
  envelope_typed m -> keemash_fabric_encode_wire m capacity = inr frame ->
  keemash_fabric_decode_wire frame = inr m /\
  keemash_fabric_is_wire_frame frame = true /\
  KEEMASH_FABRIC_WIRE_PREFIX_SIZE < blen frame <= capacity /\
  capacity <= KEEMASH_FABRIC_MAX_WIRE_FRAME.
Proof.
  intros Hm H. unfold keemash_fabric_encode_wire in H. res_inv. bools.
  unfold keemash_fabric_encode in *. res_inv. bools.
  destruct (pb_encode_envelope m _) as [[|] b'] eqn:Eb; res_inv; subst. rename a0 into b.
  change (75 :: 76 :: 70 :: 50 :: b) with (s_wire_prefix ++ b).
  pose proof (pb_envelope_fits _ _ _ Eb) as Hfit. fold (blen b) in Hfit.
  assert (Hl : blen (s_wire_prefix ++ b) = 4 + blen b) by (rewrite blen_app; done).
  assert (Hf : keemash_fabric_is_wire_frame (s_wire_prefix ++ b) = true).
  { unfold keemash_fabric_is_wire_frame. rewrite Hl. cbn [take app s_wire_prefix].
    pose proof (blen_nonneg b). unfold KEEMASH_FABRIC_WIRE_PREFIX_SIZE.
    rewrite (proj2 (Z.leb_le _ _)) by lia. by apply bytes_eqb_refl. }
  pose proof (pb_envelope_roundtrip _ _ _ Hm Eb) as Hrt.
  assert (Hv : keemash_fabric_validate m false = ESP_OK)
    by (match goal with E : keemash_fabric_validate m false = ESP_OK |- _ => exact E end).
  pose proof (encoded_not_empty _ _ Hv Hrt) as Hne.
  unfold KEEMASH_FABRIC_WIRE_PREFIX_SIZE, KEEMASH_FABRIC_MAX_WIRE_FRAME in *.
  split; [|split; [done|unfold KEEMASH_FABRIC_WIRE_PREFIX_SIZE, KEEMASH_FABRIC_MAX_FRAME in *; lia]].
  unfold keemash_fabric_decode_wire. rewrite Hf, Hl in *.
  unfold KEEMASH_FABRIC_WIRE_PREFIX_SIZE, KEEMASH_FABRIC_MAX_WIRE_FRAME,
    KEEMASH_FABRIC_WIRE_PREFIX_SIZE, KEEMASH_FABRIC_MAX_FRAME in *.
  rewrite (proj2 (Z.eqb_neq _ _)), (proj2 (Z.ltb_ge _ _)) by lia. cbn [negb orb].
  change (drop 4 (s_wire_prefix ++ b)) with b. unfold keemash_fabric_decode.
  unfold KEEMASH_FABRIC_MAX_FRAME.
  rewrite (proj2 (Z.eqb_neq _ _)), (proj2 (Z.ltb_ge _ _)) by lia.
  cbn. rewrite Hrt. cbn. by rewrite Hv.
Qed.

(** C37: what reaches the controller is valid.  A frame that [decode_wire]
    accepts yields an envelope of this version with a known traffic class, delivery
    mode and body; it never carries a 0-RTT hello, and a CONTROL request always
    carries an operation identifier that is not zero. *)
Theorem decoded_envelope_valid frame m :
  keemash_fabric_decode_wire frame = inr m ->
  en_protocol_version m = KEEMASH_FABRIC_VERSION /\
  TRAFFIC_CONTROL <= en_traffic_class m <= TRAFFIC_OTA /\
  1 <= en_delivery m <= DELIVERY_SNAPSHOT /\
  20 <= which_body (en_body m) <= 37 /\
  (forall h, en_body m = body_hello h -> he_zero_rtt h = false) /\
  (forall r, en_traffic_class m = TRAFFIC_CONTROL -> en_body m = body_control_request r ->
     cq_has_operation_id r = true /\ cq_operation_id r <> {| high := 0; low := 0 |}).
Proof.
  intros H. unfold keemash_fabric_decode_wire, keemash_fabric_decode in H. res_inv. subst.
  match goal with E : keemash_fabric_validate m false = ESP_OK |- _ => rename E into Hv end.
  unfold keemash_fabric_validate in Hv. destruct (envelope_out_of_range m) eqn:Er; [done|].
  unfold envelope_out_of_range, KEEMASH_FABRIC_VERSION, TRAFFIC_UNSPECIFIED,
    TRAFFIC_CONTROL, TRAFFIC_OTA, DELIVERY_UNSPECIFIED, DELIVERY_SNAPSHOT, Envelope_hello_tag,
    Envelope_ota_boot_report_tag in *. bools.
  repeat (split; [lia|]). split.
  - intros h Eb. rewrite Eb in Hv. by destruct (he_zero_rtt h).
  - intros r Et Eb. rewrite Eb, Et in Hv. cbn in Hv.
    destruct (cq_has_operation_id r); [|done]. cbn in Hv. split; [done|].
    intros E. by rewrite E in Hv.
Qed.

End Wire.

(** ** Derived identifiers *)

(** What the SHA-1 of Mbed TLS yields. *)
Class Sha1Laws (D : Digest) := {
  sha1 : bytes -> bytes;
  sha1_held : md_ctx -> bytes;
  sha1_digest : forall b, length (sha1 b) = 20%nat /\ are_bytes (sha1 b);
  sha1_starts_ok : forall c c', mbedtls_md_starts c = Some c' -> sha1_held c' = [];
  sha1_update_ok : forall c b c', mbedtls_md_update c b = Some c' ->
    sha1_held c' = sha1_held c ++ b;
  sha1_finish_ok : forall c h, mbedtls_md_finish c = Some h -> h = sha1 (sha1_held c) }.

Section UuidProps.
Context {D : Digest} {HS : Sha1Laws D}.

Lemma sha1_of_ok ns name d : sha1_of ns name = Some d -> d = sha1 (ns ++ name).
Proof.
  unfold sha1_of. intros H. repeat (apply bind_Some in H as (? & ? & H)).
  apply sha1_finish_ok in H. subst d. f_equal.
  match goal with E : mbedtls_md_starts _ = Some _ |- _ => apply sha1_starts_ok in E as Es end.
  match goal with E : mbedtls_md_update _ ns = Some _ |- _ => apply sha1_update_ok in E as Eu end.
  destruct (blen name =? 0) eqn:En.
  - apply Z.eqb_eq, blen_zero in En. subst name. simplify_eq. by rewrite app_nil_r, Eu, Es.
  - match goal with E : mbedtls_md_update _ name = Some _ |- _ => apply sha1_update_ok in E as -> end.
    by rewrite Eu, Es.
Qed.

Definition version_byte (b : Z) : Z := u8 (Z.lor (Z.land b 0x0f) 0x50).
Definition variant_byte (b : Z) : Z := u8 (Z.lor (Z.land b 0x3f) 0x80).

Lemma stamped_bytes b :
  is_u8 b -> 80 <= version_byte b < 96 /\ 128 <= variant_byte b < 192.
Proof.
  intros Hb. assert (H : Forall (fun b => 80 <= version_byte b < 96 /\ 128 <= variant_byte b < 192)
    (seqZ 0 256)).
  { apply List.Forall_forall. intros x Hx.
    assert (E : forallb (fun b => (80 <=? version_byte b) && (version_byte b <? 96) &&
      (128 <=? variant_byte b) && (variant_byte b <? 192)) (seqZ 0 256) = true)
      by (vm_compute; reflexivity).
    rewrite forallb_forall in E. specialize (E x Hx). cbv beta in E. bools. lia. }
  rewrite List.Forall_forall in H. apply H, list_elem_of_In, elem_of_seqZ. unfold is_u8 in Hb. lia.
Qed.

(** The two fields in an identifier read from its bytes. *)
Lemma uuid_fields hi lo v6 z7 v8 :
  are_bytes hi -> are_bytes lo -> length hi = 6%nat -> length lo = 7%nat -> is_u8 z7 ->
  80 <= v6 < 96 -> 128 <= v8 < 192 ->
  let id := keemash_fabric_id_from_bytes (hi ++ [v6; z7; v8] ++ lo) in
  (high id / 2 ^ 12) mod 16 = 5 /\ low id / 2 ^ 62 = 2 /\
  keemash_fabric_id_is_zero id = false.
Proof.
  intros Hhi Hlo Lh Ll H7 H6 H8 id. unfold id, keemash_fabric_id_is_zero. clear id.
  assert (Ha : are_bytes (hi ++ [v6; z7; v8] ++ lo)).
  { apply Forall_app_2; [done|]. repeat apply Forall_cons_2; unfold is_u8 in *; lia || done. }
  cbn [high low keemash_fabric_id_from_bytes].
  rewrite !load_be64_eq by (done || by apply Forall_drop).
  do 6 (destruct hi as [|? hi]; [done|]). destruct hi; [|done].
  do 7 (destruct lo as [|? lo]; [done|]). destruct lo; [|done].
  unfold are_bytes in Ha. cbn [app] in *. rewrite !Forall_cons_iff in Ha.
  destruct Ha as (?&?&?&?&?&?&?&?&?&?&?&?&?&?&?&?&_). clear Hhi Hlo Lh Ll.
  unfold load_be. cbn [take drop fold_left]. change (2 ^ 12) with 4096.
  change (2 ^ 62) with 4611686018427387904. rewrite andb_false_iff, !Z.eqb_neq. words.
Qed.

(** Derived identifiers are version-5 UUIDs.  An identifier returned by
    [keemash_fabric_uuid_v5] is the SHA-1 of the namespace's bytes and the name,
    cut to sixteen bytes, with 5 in the version field and binary 10 in the variant
    field; so it is never zero, and its byte form is those sixteen bytes. *)
Theorem uuid_v5_shape supported ns name id :
  keemash_fabric_uuid_v5 supported ns name = inr id ->
  keemash_fabric_id_to_bytes id =
    take 16 (stamp_version (sha1 (keemash_fabric_id_to_bytes ns ++ name))) /\
  (high id / 2 ^ 12) mod 16 = 5 /\ low id / 2 ^ 62 = 2 /\
  keemash_fabric_id_is_zero id = false.
Proof.
  intros H. unfold keemash_fabric_uuid_v5 in H. res_inv. subst id.
  match goal with E : sha1_of _ _ = Some _ |- _ => apply sha1_of_ok in E as -> end.
  destruct (sha1_digest (keemash_fabric_id_to_bytes ns ++ name)) as [Hl Hb].
  destruct (sha1 _) as [|b0 d]; [done|].
  do 19 (destruct d as [|? d]; [done|]). destruct d; [|done]. clear Hl.
  unfold are_bytes in Hb. rewrite !Forall_cons_iff in Hb.
  destruct Hb as (?&?&?&?&?&?&H6&?&H8&?&?&?&?&?&?&?&_).
  apply stamped_bytes in H6 as [H6 _]. apply stamped_bytes in H8 as [_ H8].
  unfold version_byte, variant_byte in *. unfold stamp_version. cbn [alter list_alter].
  cbn [take]. set (v6 := u8 (Z.lor _ 0x50)) in *. set (v8 := u8 (Z.lor _ 0x80)) in *.
  clearbody v6 v8. split.
  - match goal with |- _ = ?bs => apply (fabric_bytes_roundtrip bs) end; [|done].
    repeat apply Forall_cons_2; unfold is_u8 in *; lia || done.
  - match goal with |- context [keemash_fabric_id_from_bytes
      (?a0 :: ?a1 :: ?a2 :: ?a3 :: ?a4 :: ?a5 :: v6 :: ?a7 :: v8 :: ?b0 :: ?b1 :: ?b2 ::
       ?b3 :: ?b4 :: ?b5 :: ?b6 :: _)] =>
      apply (uuid_fields [a0; a1; a2; a3; a4; a5] [b0; b1; b2; b3; b4; b5; b6] v6 a7 v8) end;
      try done; repeat apply Forall_cons_2; unfold is_u8 in *; lia || done.
Qed.

End UuidProps.
