(* ===== verification/FabricDemo.v ===== *)
(** * KeeLink Fabric v2: a concrete envelope

    A transport whose frames are the four small numbers of a probe, and a digest
    of twenty bytes: the theorems of Fabric at concrete inputs. *)

From S2P Require Import Prelude.
From S2P Require Import Words.
From S2P Require Import Esp.
From S2P Require Import OtaLib.
From S2P Require Import OtaTypes.
From S2P Require Import FabricTypes.
From S2P Require Import Fabric.
#[local] Open Scope Z_scope.

Definition demo_node : Id128 := {| high := 0x0102030405060708; low := 0x090a0b0c0d0e0f10 |}.

Definition demo_probe (traffic delivery nonce : Z) : Envelope := {|
  en_protocol_version := KEEMASH_FABRIC_VERSION; en_traffic_class := traffic;
  en_delivery := delivery; en_root_session := 7;
  en_has_transport_session := false; en_transport_session := {| high := 0; low := 0 |};
  en_has_source_node_id := true; en_source_node_id := demo_node;
  en_has_target_node_id := false; en_target_node_id := {| high := 0; low := 0 |};
  en_has_operation_id := false; en_operation_id := {| high := 0; low := 0 |};
  en_sequence := 1; en_correlation := 0; en_graph_revision := 0;
  en_body := body_probe {| pb_nonce := nonce; pb_sender_mono_us := 5;
    pb_receiver_mono_us := 0; pb_reply_mono_us := 0 |} |}.

(** [demo_probe] of some traffic class, delivery and nonce. *)
Definition is_demo_probe (m : Envelope) : option (Z * Z * Z) :=
  match m with
  | Build_Envelope v t d rs false ts true src false tgt false op sq co gr
      (body_probe (Build_Probe n sm rm pm)) =>
      if decide (v = KEEMASH_FABRIC_VERSION /\ rs = 7 /\ ts = {| high := 0; low := 0 |} /\
                 src = demo_node /\ tgt = {| high := 0; low := 0 |} /\
                 op = {| high := 0; low := 0 |} /\ sq = 1 /\ co = 0 /\ gr = 0 /\
                 sm = 5 /\ rm = 0 /\ pm = 0)
      then Some (t, d, n) else None
  | _ => None
  end.

Lemma is_demo_probe_ok m t d n : is_demo_probe m = Some (t, d, n) -> m = demo_probe t d n.
Proof.
  destruct m as [v t' d' rs [|] ts [|] src [|] tgt [|] op sq co gr []]; cbn; try done.
  match goal with p : Probe |- _ => destruct p end.
  case_decide as H; [|done]. intros [= <- <- <-].
  destruct H as (-> & -> & -> & -> & -> & -> & -> & -> & -> & -> & -> & ->). done.
Qed.

(** Such probes are written as three bytes; nothing else is written. *)
Definition demo_pb : EnvelopePb := {|
  pb_encode_envelope m capacity :=
    match is_demo_probe m with
    | Some (t, d, n) =>
        (3 <=? capacity, if 3 <=? capacity then [t; d; n] else [])
    | None => (false, [])
    end;
  pb_decode_envelope b :=
    match b with [t; d; n] => Some (demo_probe t d n) | _ => None end |}.

Definition demo_pb_laws : EnvelopePbLaws demo_pb.
Proof.
  split.
  - intros m cap b H. cbn in H. destruct (is_demo_probe m) as [[[t d] n]|]; [|done].
    destruct (3 <=? cap) eqn:E; [|discriminate]. injection H as <-. cbn. lia.
  - intros m cap b _ H. cbn in H. destruct (is_demo_probe m) as [[[t d] n]|] eqn:Em; [|done].
    destruct (3 <=? cap); [|discriminate]. injection H as <-. cbn.
    by rewrite (is_demo_probe_ok _ _ _ _ Em).
  - done.
Defined.

Lemma demo_probe_typed : envelope_typed (demo_probe 6 1 42).
Proof.
  unfold envelope_typed, pb_id, id_typed, is_u32, is_u64, body_typed, probe_typed, is_u64.
  cbn. repeat first [apply conj|apply List.Forall_cons|apply List.Forall_nil];
    first [reflexivity|lia|done].
Qed.

Definition demo_frame : bytes := s_wire_prefix ++ [6; 1; 42].

Lemma fabric_wire_roundtrip_witness :
  envelope_typed (demo_probe 6 1 42) /\
  @keemash_fabric_encode_wire demo_pb (demo_probe 6 1 42) 64 = inr demo_frame /\
  @keemash_fabric_decode_wire demo_pb demo_frame = inr (demo_probe 6 1 42) /\
  keemash_fabric_is_wire_frame demo_frame = true /\
  KEEMASH_FABRIC_WIRE_PREFIX_SIZE < blen demo_frame <= 64 /\ 64 <= KEEMASH_FABRIC_MAX_WIRE_FRAME.
Proof.
  assert (He : @keemash_fabric_encode_wire demo_pb (demo_probe 6 1 42) 64 = inr demo_frame)
    by (vm_compute; reflexivity).
  split; [exact demo_probe_typed|split; [exact He|]].
  exact (@fabric_wire_roundtrip demo_pb demo_pb_laws _ _ _ demo_probe_typed He).
Defined.

Lemma decoded_envelope_valid_witness :
  @keemash_fabric_decode_wire demo_pb demo_frame = inr (demo_probe 6 1 42) /\
  en_protocol_version (demo_probe 6 1 42) = KEEMASH_FABRIC_VERSION.
Proof.
  assert (H : @keemash_fabric_decode_wire demo_pb demo_frame = inr (demo_probe 6 1 42))
    by reflexivity.
  split; [exact H|]. exact (proj1 (@decoded_envelope_valid demo_pb _ _ H)).
Defined.

(** Why the round trip asks for unset members to be zero: validation lets an
    [operation_id] under [has_operation_id = false] through, and nanopb does not write it. *)
Definition unset_id : Envelope :=
  let m := demo_probe 6 1 42 in {|
  en_protocol_version := en_protocol_version m; en_traffic_class := 6; en_delivery := 1;
  en_root_session := 7; en_has_transport_session := false;
  en_transport_session := en_transport_session m; en_has_source_node_id := true;
  en_source_node_id := demo_node; en_has_target_node_id := false;
  en_target_node_id := en_target_node_id m; en_has_operation_id := false;
  en_operation_id := demo_node; en_sequence := 1; en_correlation := 0;
  en_graph_revision := 0; en_body := en_body m |}.

Example unset_id_accepted :
  keemash_fabric_validate unset_id false = ESP_OK /\ ~ envelope_typed unset_id.
Proof. split; [vm_compute; reflexivity|]. intros (_ & _ & _ & _ & _ & H & _). discriminate H. Qed.

(** A probe with an unknown traffic class is not written. *)
Example unknown_class_refused :
  @keemash_fabric_encode_wire demo_pb (demo_probe 10 1 42) 64 = inl ESP_ERR_INVALID_ARG.
Proof. reflexivity. Qed.

(** The sum of the input, twenty times with an offset. *)
Definition toy_sha1 (b : bytes) : bytes :=
  map (fun i => u8 (fold_left Z.add b (Z.of_nat i))) (seq 0 20).

Definition demo_sha1 : Digest := {|
  md_ctx := bytes; md_zero := [];
  mbedtls_md := fun b => Some (toy_sha1 b);
  mbedtls_md_setup := Some; mbedtls_md_starts := fun _ => Some [];
  mbedtls_md_update := fun c b => Some (c ++ b);
  mbedtls_md_clone := fun _ c => Some c;
  mbedtls_md_finish := fun c => Some (toy_sha1 c) |}.

Definition demo_sha1_laws : Sha1Laws demo_sha1.
Proof.
  refine {| sha1 := toy_sha1; sha1_held := (fun c : @md_ctx demo_sha1 => (c : bytes)) |};
    try (cbn; congruence).
  intros b. split; [reflexivity|]. unfold toy_sha1.
  apply Forall_fmap, Forall_true. intros i. apply u8_is.
Defined.

Definition demo_uuid : Id128 :=
  {| high := 5425796649808056658; low := 10616204050940057946 |}.

Lemma uuid_v5_shape_witness :
  @keemash_fabric_uuid_v5 demo_sha1 true demo_node [97; 98] = inr demo_uuid /\
  keemash_fabric_id_to_bytes demo_uuid =
    take 16 (stamp_version (@sha1 demo_sha1 demo_sha1_laws
      (keemash_fabric_id_to_bytes demo_node ++ [97; 98]))) /\
  (high demo_uuid / 2 ^ 12) mod 16 = 5 /\ low demo_uuid / 2 ^ 62 = 2 /\
  keemash_fabric_id_is_zero demo_uuid = false.
Proof.
  assert (H : @keemash_fabric_uuid_v5 demo_sha1 true demo_node [97; 98] = inr demo_uuid)
    by (vm_compute; reflexivity).
  split; [exact H|].
  exact (@uuid_v5_shape demo_sha1 demo_sha1_laws true demo_node [97; 98] demo_uuid H).
Defined.

(** An endpoint path is 1 to 96 characters. *)
Example endpoint_path_bounds :
  @keemash_fabric_endpoint_id demo_sha1 true demo_node [] = inl ESP_ERR_INVALID_ARG /\
  @keemash_fabric_endpoint_id demo_sha1 true demo_node (replicate 97 65) =
    inl ESP_ERR_INVALID_ARG.
Proof. split; reflexivity. Qed.
