(* ===== verification/Node.v ===== *)
(** * The node facade: operations (keemash_mesh_node.c)

    Every function of the file, over the static variables of NodeState, the reliable
    context and the world.  The polling task is its round [rel_poll_task]. *)

From Stdlib Require String.
From S2P Require Import Prelude.
From S2P Require Import Words.
From S2P Require Import Esp.
From S2P Require Import Rtos.
From S2P Require Import MeshProto.
From S2P Require Import MeshProtoV1.
From S2P Require Import MeshProtoV2.
From S2P Require Import MeshWire.
From S2P Require Import RelState.
From S2P Require Import RelOps.
From S2P Require Import OtaLib.
From S2P Require Import OtaTypes.
From S2P Require Import OtaV3.
From S2P Require Import OtaFlashEnv.
From S2P Require Import Fabric.
From S2P Require Import Facade.
From S2P Require Import NodeState.
#[local] Open Scope Z_scope.

Module NodeText.
Import Stdlib.Strings.String.
#[local] Open Scope string_scope.

Definition accepted : bytes := text "accepted".
Definition failed : bytes := text "failed".
Definition unsupported : bytes := text "unsupported".
Definition log_enabled : bytes := text "log enabled".
Definition log_disabled : bytes := text "log disabled".
Definition dbg_dedupe : bytes := text "@dbg:dedupe".
Definition log_on : bytes := text "@log:1".
Definition log_off : bytes := text "@log:0".
Definition debug_count (n : Z) : bytes := text "debug action count=" ++ decimal n.
Definition noname : bytes := text "noname".
End NodeText.

(** The application's hooks and the two OTA receivers may call the facade again, so
    they act on its whole state.  [keemash_mesh_node_on_control_command_result] yields
    whether the command was handled, the status, and the bytes of the result buffer. *)
Class NodeEnv (U : Type) := {
  #[global] node_facade :: FacadeEnv U;
  #[global] node_flash :: FlashEnv U;
  uxTaskGetSystemState : nat -> ST U (list TaskStatus_t * Z);
  heap_free_size : list Z -> ST U Z;
  heap_minimum_free_size : list Z -> ST U Z;
  heap_total_size : list Z -> ST U Z;
  esp_flash_get_size : ST U (option Z);
  esp_image_get_metadata : esp_partition_t -> ST U (option Z);
  nvs_get_stats : ST U (option (Z * Z * Z * Z));
  keemash_mesh_get_ap_mac : ST U bytes;
  keemash_mesh_node_v1_ok_age_ms : ST U Z;
  keemash_mesh_node_log_stream_enabled : ST U bool;
  keemash_mesh_node_on_time_sync : bytes -> Fac node_t U unit;
  keemash_mesh_node_on_log_ctrl : bool -> Fac node_t U unit;
  keemash_mesh_node_on_control_command_result : bytes -> Fac node_t U (bool * Z * bytes);
  keemash_mesh_node_on_control_command : bytes -> Fac node_t U bool;
  ota_receiver_active : Fac node_t U bool;
  ota_receiver_handle_v2 : bytes -> Fac node_t U unit;
  ota_v3_receiver_active : Fac node_t U bool;
  ota_v3_receiver_handle : bytes -> Fac node_t U unit }.

Section Node.
Context {U : Type} {NC : NodeConfig} {RK : RelKconfig} {NE : NodeEnv U}.

Abbreviation NodeM := (Fac node_t U).

Definition get_node : NodeM node_t := get_own.
Definition mod_node : (node_t -> node_t) -> NodeM unit := mod_own.

(** The root's address for the reliable layer. *)
Definition root_peer : option bytes := Some mac_zero_addr.

(** ** The reliable layer *)

Definition rel_send_cb (dst packet : bytes) : NodeM esp_err_t :=
  os (keemash_mesh_transport_send dst packet).

(** It only writes to the log. *)
Definition rel_event_cb (peer : bytes) (channel reason first last : Z) : NodeM unit := mret tt.

(** The core without deliveries, for everything but a reception and the poll. *)
#[local] Instance quiet_env : Env (facade node_t * U) :=
  rel_env rel_send_cb no_delivery rel_event_cb.

Definition rel_send (channel : Z) (payload : bytes) (priority : Z) : NodeM esp_err_t :=
  on_rel ESP_ERR_INVALID_STATE (keemash_rel_send root_peer channel payload priority).

Definition rel_peer_ready : NodeM bool := on_rel false (keemash_rel_peer_ready root_peer).

Definition mesh_v2_node_reliable_ready : NodeM bool :=
  taken ← rel_taken 100; if (taken : bool) then rel_peer_ready else mret false.

(** The statistics, when there are any. *)
Definition mesh_v2_node_reliable_stats : NodeM (option keemash_rel_stats_t) :=
  taken ← rel_taken 100;
  if (taken : bool) then on_rel None (keemash_rel_stats root_peer) else mret None.

Definition rel_send_control (kind command_id status : Z) (txt : bytes)
  (operation_id : option mesh_v2_operation_id_t) : NodeM esp_err_t :=
  ok ← have_rel;
  if negb ok then mret ESP_ERR_INVALID_STATE
  else
    let txt := take (Z.to_nat MESH_V2_CONTROL_TEXT_MAX) txt in
    let operation := op ← operation_id;
                     if negb (op_high op =? 0) || negb (op_low op =? 0) then Some op else None in
    let payload_len := keemash_mesh_control_payload_size (Z.of_nat (length txt))
                         (is_some operation) in
    if (payload_len =? 0) || (MESH_V2_RELIABLE_INNER_MAX <? payload_len)
    then mret ESP_ERR_INVALID_SIZE
    else rel_send MESH_V2_TUNNEL_CHANNEL_CONTROL
           (control_payload kind status command_id txt operation) KEEMASH_REL_PRIORITY_CONTROL.

Definition rel_send_control_result (command_id status : Z) (txt : bytes)
  (operation_id : option mesh_v2_operation_id_t) : NodeM esp_err_t :=
  rel_send_control MESH_V2_CONTROL_RESULT command_id status txt operation_id.

(** ** CPU sampling *)

(** The sample, and [count_out] is the length of its tasks. *)
Definition task_cpu_sample : NodeM cpu_sample_t :=
  n ← get_node;
  if negb (s_task_cpu_lock n) then mret no_sample
  else
    taken ← os (mutex_take 250);
    if negb taken then mret no_sample
    else
      '(tasks, total_time) ← os (uxTaskGetSystemState TASK_SLOT_COUNT);
      n ← get_node;
      let tasks := take TASK_SLOT_COUNT tasks in
      let sample := cpu_sample TASK_CPU_CORE_COUNT (s_task_cpu_baseline_valid n)
                      (s_task_cpu_baseline n) (s_task_cpu_baseline_total n) total_time tasks in
      mod_node (fun n =>
        n <| s_task_cpu_baseline := baseline_of tasks |>
          <| s_task_cpu_baseline_total := total_time |>
          <| s_task_cpu_baseline_valid := negb (length tasks =? 0)%nat |>);;
      now ← ms_now;
      mod_node (fun n => n <| s_task_cpu_last_sample_ms := now |>);;
      mret sample.

Definition task_cpu_prime : NodeM unit := _ ← task_cpu_sample; mret tt.

(** ** The legacy V2 path *)

Definition send_raw_to_root (packet : bytes) : NodeM esp_err_t :=
  os (keemash_mesh_transport_send mac_zero_addr packet).

Definition new_session_locked : NodeM unit :=
  random ← os fac_random; mod_node (new_session random).

Definition mesh_v2_node_ready : NodeM bool :=
  n ← get_node;
  reliable ← (if s_root_ready n then mret true else mesh_v2_node_reliable_ready);
  mret reliable.

Definition packet_too_long (payload : bytes) : bool :=
  (MESH_V2_PAYLOAD_MAX <? Z.of_nat (length payload))
  || (MESH_V2_PACKET_MAX <? Z.of_nat (sizeof_hdr + length payload)).

Definition send_packet (type : Z) (payload : bytes) (reliable : bool) : NodeM esp_err_t :=
  if packet_too_long payload then mret ESP_ERR_INVALID_SIZE
  else
    ready ← (if reliable then mesh_v2_node_ready else mret true);
    if negb ready then mret ESP_ERR_INVALID_STATE
    else
      mac ← local_mac;
      n ← get_node;
      let seq := if reliable then s_next_seq n else 0 in
      when reliable (mod_node (fun n => n <| s_next_seq ::= fun s => u32 (s + 1) |>));;
      let packet := seal (v2_hdr type 0 (s_session_id n) seq 0 mac payload) payload in
      when reliable (mod_node (fun n =>
        n <| s_ring ::= ring_store MESH_V2_REPLAY_RING_SIZE seq packet |>));;
      send_raw_to_root packet.

Definition send_lost (missing_seq : Z) : NodeM esp_err_t :=
  send_packet MESH_V2_TYPE_LOST (encode_missing_seq missing_seq) false.

Definition send_tunnel_control_packet (type : Z) (payload : bytes) : NodeM esp_err_t :=
  send_packet type payload false.

Definition send_tunnel_lost (channel missing_seq : Z) : NodeM esp_err_t :=
  mac ← local_mac;
  send_tunnel_control_packet MESH_V2_TYPE_TUNNEL_LOST
    (encode_tunnel_nack {| tk_channel_id := channel; tk_missing_seq := missing_seq;
       tk_origin_mac := mac; tk_target_mac := mac_zero_addr |}).

Definition tunnel_flags : Z := Z.lor MESH_V2_TUNNEL_FLAG_E2E_ACK MESH_V2_TUNNEL_FLAG_HOP_ACK.

Definition send_tunnel_ack (t : mesh_v2_tunnel_hdr_t) (ack_seq : Z) : NodeM esp_err_t :=
  send_tunnel_control_packet MESH_V2_TYPE_TUNNEL_ACK
    (encode_tunnel_ack {| ta_channel_id := tu_channel_id t; ta_flags := tunnel_flags;
       ta_seq := tu_seq t; ta_ack_seq := ack_seq; ta_sack_bitmap := 0;
       ta_origin_mac := tu_origin_mac t; ta_target_mac := tu_target_mac t |}).

Definition send_tunnel_nack (t : mesh_v2_tunnel_hdr_t) (missing_seq : Z) : NodeM esp_err_t :=
  send_tunnel_control_packet MESH_V2_TYPE_TUNNEL_NACK
    (encode_tunnel_nack {| tk_channel_id := tu_channel_id t; tk_missing_seq := missing_seq;
       tk_origin_mac := tu_origin_mac t; tk_target_mac := tu_target_mac t |}).

Definition tunnel_hdr_to_root (channel seq inner_len : Z) (mac : bytes) : mesh_v2_tunnel_hdr_t :=
  {| tu_channel_id := channel; tu_flags := tunnel_flags; tu_ttl := MESH_V2_TUNNEL_TTL_DEFAULT;
     tu_fragment_count := 1; tu_payload_len := inner_len; tu_fragment_index := 0;
     tu_stream_id := channel; tu_seq := seq; tu_ack_seq := 0; tu_sack_bitmap := 0;
     tu_origin_mac := mac; tu_target_mac := mac_zero_addr |}.

(** The packet around an inner payload. *)
Definition tunnel_packet (session_id channel seq : Z) (mac origin inner : bytes) : bytes :=
  let payload := encode_tunnel_hdr
    (tunnel_hdr_to_root channel seq (Z.of_nat (length inner)) origin) ++ inner in
  seal (v2_hdr MESH_V2_TYPE_TUNNEL_DATA 0 session_id 0 0 mac payload) payload.

(** Without the compatibility tunnel there is no such function: its callers return
    their own error. *)
Definition send_tunnel_packet (channel : Z) (inner : bytes) (reliable : bool)
  : NodeM esp_err_t :=
  let inner_len := Z.of_nat (length inner) in
  if negb (tunnel_channel_ok channel) || (MESH_V2_TUNNEL_INNER_MAX <? inner_len)
     || (MESH_V2_PAYLOAD_MAX <? Z.of_nat sizeof_tunnel_hdr + inner_len)
  then mret ESP_ERR_INVALID_ARG
  else
    ready ← (if reliable then mesh_v2_node_ready else mret true);
    if negb ready then mret ESP_ERR_INVALID_STATE
    else
      origin ← local_mac;
      n ← get_node;
      let seq := if reliable then tt_next_seq (tunnel_tx_at n channel) else 0 in
      when reliable (mod_node (fun n => n <| s_tunnel_tx ::=
        alter (fun t => t <| tt_next_seq ::= fun s => u32 (s + 1) |>) (Z.to_nat channel) |>));;
      mac ← local_mac;
      n ← get_node;
      let packet := tunnel_packet (s_session_id n) channel seq mac origin inner in
      when reliable (mod_node (tunnel_ring_store channel seq packet));;
      send_raw_to_root packet.

(** [#if CONFIG_KEEMASH_V2_COMPAT_TUNNEL_ENABLE ... #else return err; #endif] *)
Definition tunnel_fallback (channel : Z) (payload : bytes) (err : esp_err_t)
  : NodeM esp_err_t :=
  if CONFIG_KEEMASH_V2_COMPAT_TUNNEL_ENABLE then send_tunnel_packet channel payload true
  else mret err.

Definition rel_send_hello : NodeM esp_err_t :=
  uptime ← uptime_s;
  n ← get_node;
  on_rel ESP_ERR_INVALID_STATE
    (keemash_rel_send_hello root_peer (Some (s_tag n)) uptime (node_capabilities n)).

Definition send_hello (reset_session : bool) : NodeM esp_err_t :=
  n ← get_node;
  let tag := copy_tag MESH_V2_TAG_MAX (s_tag n) in
  when reset_session new_session_locked;;
  now ← ms_now;
  mod_node (fun n => n <| s_last_hello_ms := now |>);;
  uptime ← uptime_s;
  n ← get_node;
  err ← (if CONFIG_KEEMASH_V2_COMPAT_TUNNEL_ENABLE then
           send_packet MESH_V2_TYPE_HELLO
             (encode_v2_hello {| hl_tag := text_array MESH_V2_TAG_MAX tag;
                hl_uptime_s := uptime; hl_mtu := MESH_V2_PACKET_MAX;
                hl_ring_size := MESH_V2_TUNNEL_REPLAY_RING_SIZE;
                hl_capabilities := node_capabilities n |}) false
         else mret ESP_ERR_INVALID_STATE);
  taken ← rel_taken 500;
  if negb taken then mret err
  else
    rel_err ← rel_send_hello;
    when (err_eqb rel_err ESP_OK)
      (now ← ms_now; mod_node (fun n => n <| s_rel_last_hello_ms := now |>));;
    mret (if CONFIG_KEEMASH_V2_COMPAT_TUNNEL_ENABLE && negb (err_eqb rel_err ESP_OK)
          then err else rel_err).

Definition recover_root_link_if_needed : NodeM unit :=
  now ← ms_now;
  stats ← mesh_v2_node_reliable_stats;
  if match stats with
     | Some st => st_ready st && (st_ack_age_ms st <? MESH_V2_ACK_STALE_MS)
     | None => false
     end then mret tt
  else
    n ← get_node;
    let hello_due := (s_last_hello_ms n =? 0)
                     || (MESH_V2_HELLO_RETRY_MS <=? u32 (now - s_last_hello_ms n)) in
    let ack_stale := s_root_ready n
                     && ((s_last_ack_ms n =? 0)
                         || (MESH_V2_ACK_STALE_MS <=? u32 (now - s_last_ack_ms n))) in
    when (negb (s_root_ready n) && hello_due || ack_stale && hello_due)
      (v2_active ← ota_receiver_active;
       active ← (if (v2_active : bool) then mret true else ota_v3_receiver_active);
       _ ← send_hello (ack_stale && negb active); mret tt).

(** ** Reports to the root *)

(** Over the reliable layer when the root is ready there ([ESP_ERR_INVALID_STATE]
    when it is not). *)
Definition send_when_ready (ms channel : Z) (payload : bytes) (priority : Z)
  : NodeM esp_err_t :=
  taken ← rel_taken ms;
  if negb taken then mret ESP_ERR_INVALID_STATE
  else
    ready ← rel_peer_ready;
    if (ready : bool) then rel_send channel payload priority else mret ESP_ERR_INVALID_STATE.

Definition mesh_v2_node_send_nodeinfo : NodeM esp_err_t :=
  recover_root_link_if_needed;;
  n ← get_node;
  let tag := copy_tag MESH_V2_TAG_MAX (s_tag n) in
  uptime ← uptime_s;
  let p := encode_tunnel_nodeinfo {| tn_tag := text_array MESH_V2_TAG_MAX tag;
                                     tn_uptime_s := uptime |} in
  rel_err ← send_when_ready 500 MESH_V2_TUNNEL_CHANNEL_NODEINFO p KEEMASH_REL_PRIORITY_NORMAL;
  if err_eqb rel_err ESP_OK then mret ESP_OK
  else tunnel_fallback MESH_V2_TUNNEL_CHANNEL_NODEINFO p ESP_ERR_INVALID_STATE.

Definition mesh_v2_node_send_log_line (line : bytes) : NodeM esp_err_t :=
  recover_root_link_if_needed;;
  n ← get_node;
  let tag := copy_tag MESH_V2_TAG_MAX (s_tag n) in
  let p := encode_tunnel_log {| tl_tag := text_array MESH_V2_TAG_MAX tag;
                                tl_line := text_array MESH_V2_TUNNEL_LOG_LINE_MAX line |} in
  rel_err ← send_when_ready 100 MESH_V2_TUNNEL_CHANNEL_LOG p KEEMASH_REL_PRIORITY_LOG;
  if err_eqb rel_err ESP_OK then mret ESP_OK
  else tunnel_fallback MESH_V2_TUNNEL_CHANNEL_LOG p ESP_ERR_INVALID_STATE.

(** The labels and sizes of the running and the next partition. *)
Definition fill_ota_slot_info : NodeM (bytes * bytes * Z * Z) :=
  running ← os esp_ota_get_running_partition;
  update ← os esp_ota_get_next_update_partition;
  mret (text_array 8 (from_option label [] running), text_array 8 (from_option label [] update),
        from_option (fun p => u32 (size p)) 0 running,
        from_option (fun p => u32 (size p)) 0 update).

Definition mesh_v2_node_ack_age_ms : NodeM Z :=
  n ← get_node;
  rel ← mesh_v2_node_reliable_stats;
  let legacy := if s_last_ack_ms n =? 0 then mret UINT32_MAX
                else now ← ms_now; mret (u32 (now - s_last_ack_ms n)) in
  match rel with
  | Some st => if st_ready st then mret (st_ack_age_ms st) else legacy
  | None => legacy
  end.

Definition topology_capabilities (n : node_t) : Z :=
  fold_left Z.lor [MESH_V2_CAP_RELIABLE_E2E; MESH_V2_CAP_SACK; MESH_V2_CAP_FRAGMENT;
                   MESH_V2_CAP_TYPED_CONTROL; MESH_V2_CAP_TYPED_MEMORY] (node_capabilities n).

(** [n] are the variables under the lock, [n'] those read for the capabilities. *)
Definition topology_base (n n' : node_t) (uptime v1_ok v2_ack : Z) (log_stream : bool)
  : mesh_v2_topology_payload_t :=
  let flags := Z.lor MESH_V2_TOPO_DIAG_HAS_EXT (dg_diag_flags (s_diag n)) in
  {| to_tag := text_array MESH_V2_TAG_MAX (copy_tag MESH_V2_TAG_MAX (s_tag n));
     to_uptime_s := uptime; to_parent_mac := s_parent_mac n;
     to_root_mac := s_topology_root_mac n; to_layer := s_layer n;
     to_max_layer := s_max_layer n; to_parent_rssi := s_parent_rssi n;
     to_child_count := s_child_count n; to_capabilities := topology_capabilities n';
     to_gap_count := s_tunnel_gap_count n; to_lost_count := s_tunnel_lost_count n;
     to_replay_count := s_tunnel_replay_count n; to_v1_ok_age_ms := v1_ok;
     to_v2_ack_age_ms := v2_ack; to_last_send_err := dg_last_mesh_send_err (s_diag n);
     to_recovery_phase := s_recovery_phase n;
     to_log_stream_enabled := if log_stream then 1 else 0;
     to_diag_flags := if uptime <? 300 then Z.lor flags MESH_V2_TOPO_DIAG_RECENT_REBOOT
                      else flags |}.

Definition topology_v3 (base : mesh_v2_topology_v2_payload_t) (d : mesh_v2_node_diag_t)
  : mesh_v2_topology_v3_payload_t :=
  {| t3_v2 := base; t3_boot_seq := dg_boot_seq d;
     t3_last_recovery_action_ms := dg_last_recovery_action_ms d;
     t3_last_mesh_send_err := dg_last_mesh_send_err d; t3_reset_reason := dg_reset_reason d;
     t3_parent_disconnect_count := dg_parent_disconnect_count d;
     t3_no_parent_count := dg_no_parent_count d; t3_rootless_count := dg_rootless_count d;
     t3_soft_reconnect_count := dg_soft_reconnect_count d;
     t3_mesh_restart_count := dg_mesh_restart_count d;
     t3_last_parent_disconnect_reason := dg_last_parent_disconnect_reason d;
     t3_last_recovery_reason := dg_last_recovery_reason d;
     t3_ack_stale_count := dg_ack_stale_count d;
     t3_tx_without_ack_count := dg_tx_without_ack_count d |}.

Definition mesh_v2_node_send_topology : NodeM esp_err_t :=
  recover_root_link_if_needed;;
  n ← get_node;
  uptime ← uptime_s;
  n' ← get_node;
  v1_ok ← os keemash_mesh_node_v1_ok_age_ms;
  v2_ack ← mesh_v2_node_ack_age_ms;
  log_stream ← os keemash_mesh_node_log_stream_enabled;
  '(running_label, update_label, running_size, update_size) ← fill_ota_slot_info;
  ap_mac ← os keemash_mesh_get_ap_mac;
  let p := encode_topology_v4
    {| t4_v3 := topology_v3
         {| t2_base := topology_base n n' uptime v1_ok v2_ack log_stream;
            t2_ota_running_label := running_label; t2_ota_update_label := update_label;
            t2_ota_running_size := running_size; t2_ota_update_size := update_size |}
         (s_diag n);
       t4_self_ap_mac := ap_mac |} in
  err ← send_when_ready 500 MESH_V2_TUNNEL_CHANNEL_TOPOLOGY p KEEMASH_REL_PRIORITY_NORMAL;
  err ← (if err_eqb err ESP_OK then mret err
         else tunnel_fallback MESH_V2_TUNNEL_CHANNEL_TOPOLOGY p err);
  mod_node (fun n => n <| s_diag ::= fun d =>
    d <| dg_last_mesh_send_err := i32 (esp_err_u32 err) |> |>);;
  mret err.

(** *** Task snapshots: packets of four tasks, at least one packet *)

Definition task_entry (t : TaskStatus_t) (cpu_x10 : Z) : mesh_v2_task_entry_t :=
  {| te_name := text_array MESH_V2_TASK_NAME_MAX
       (copy_tag MESH_V2_TASK_NAME_MAX
          (match pcTaskName t with [] => NodeText.noname | name => name end));
     te_priority := uxCurrentPriority t; te_free_words := usStackHighWaterMark t;
     te_cpu_x10 := cpu_x10 |}.

Definition task_entries (sample : cpu_sample_t) : list mesh_v2_task_entry_t :=
  zip_with task_entry (cs_tasks sample) (cs_cpu_x10 sample).

Definition task_snapshot (tag : bytes) (request_id updated_ms uptime start : Z)
  (sample : cpu_sample_t) : mesh_v2_task_snapshot_payload_t :=
  let count := Z.of_nat (length (cs_tasks sample)) in
  let tasks := take MESH_V2_TASK_SNAPSHOT_MAX_ENTRIES
                 (drop (Z.to_nat start) (task_entries sample)) in
  {| sn_tag := text_array MESH_V2_TAG_MAX tag; sn_request_id := request_id;
     sn_updated_ms := updated_ms; sn_uptime_s := uptime;
     sn_cpu_load_x10 := cs_load_x10 sample; sn_slot_count := Z.of_nat TASK_SLOT_COUNT;
     sn_task_total := u16 count; sn_task_index := u16 start;
     sn_flags := if count <=? start + Z.of_nat (length tasks)
                 then MESH_V2_TASK_SNAPSHOT_FLAG_LAST else 0;
     sn_cpu_valid := if cs_valid sample then 1 else 0; sn_tasks := tasks |}.

(** The values of [start] in the loop. *)
Definition snapshot_starts (count : nat) : list Z :=
  (fun i => Z.of_nat (MESH_V2_TASK_SNAPSHOT_MAX_ENTRIES * i)) <$>
    seq 0 (Nat.max 1 ((count + 3) / MESH_V2_TASK_SNAPSHOT_MAX_ENTRIES)).

Definition send_one_snapshot (tag : bytes) (request_id start : Z) (sample : cpu_sample_t)
  : NodeM esp_err_t :=
  updated_ms ← ms_now;
  uptime ← uptime_s;
  let p := encode_task_snapshot (task_snapshot tag request_id updated_ms uptime start sample) in
  err ← send_when_ready 500 MESH_V2_TUNNEL_CHANNEL_TASK p KEEMASH_REL_PRIORITY_HIGH;
  if err_eqb err ESP_OK then mret err
  else tunnel_fallback MESH_V2_TUNNEL_CHANNEL_TASK p err.

(** The first error wins. *)
Fixpoint send_snapshots (tag : bytes) (request_id : Z) (sample : cpu_sample_t)
  (starts : list Z) (first_err : esp_err_t) : NodeM esp_err_t :=
  match starts with
  | [] => mret first_err
  | start :: starts =>
      err ← send_one_snapshot tag request_id start sample;
      send_snapshots tag request_id sample starts
        (if negb (err_eqb err ESP_OK) && err_eqb first_err ESP_OK then err else first_err)
  end.

Definition mesh_v2_node_send_task_snapshot (request_id : Z) : NodeM esp_err_t :=
  sample ← task_cpu_sample;
  n ← get_node;
  send_snapshots (copy_tag MESH_V2_TAG_MAX (s_tag n)) request_id sample
    (snapshot_starts (length (cs_tasks sample))) ESP_OK.

(** *** Memory, sensors, OTA messages and events *)

(** The capabilities a heap is asked for: MALLOC_CAP_8BIT, MALLOC_CAP_INTERNAL and
    MALLOC_CAP_SPIRAM. *)
Definition MALLOC_CAP_8BIT : Z := 4.
Definition MALLOC_CAP_INTERNAL : Z := 2048.
Definition MALLOC_CAP_SPIRAM : Z := 1024.

Definition heap_triple (caps : list Z) : NodeM (Z * Z * Z) :=
  free ← os (heap_free_size caps);
  min_free ← os (heap_minimum_free_size caps);
  total ← os (heap_total_size caps);
  mret (u32 free, u32 min_free, u32 total).

Definition app_sizes : NodeM (Z * Z) :=
  running ← os esp_ota_get_running_partition;
  match running with
  | None => mret (0, 0)
  | Some p => image_len ← os (esp_image_get_metadata p);
              mret (u32 (size p), default 0 image_len)
  end.

Definition mesh_v2_node_send_memory : NodeM esp_err_t :=
  n ← get_node;
  let tag := copy_tag MESH_V2_TAG_MAX (s_tag n) in
  uptime ← uptime_s;
  '(heap_free, heap_min_free, heap_total) ← heap_triple [MALLOC_CAP_8BIT];
  '(internal_free, internal_min_free, internal_total) ←
    heap_triple [MALLOC_CAP_INTERNAL; MALLOC_CAP_8BIT];
  '(psram_free, psram_min_free, psram_total) ←
    heap_triple [MALLOC_CAP_SPIRAM; MALLOC_CAP_8BIT];
  flash_chip ← os esp_flash_get_size;
  '(app_slot, app_used) ← app_sizes;
  stats ← os nvs_get_stats;
  let '(nvs_used, nvs_free, nvs_available, nvs_total) := default (0, 0, 0, 0) stats in
  with_rel 500 (rel_send MESH_V2_TUNNEL_CHANNEL_MEMORY
    (encode_memory
       {| mm_tag := text_array MESH_V2_TAG_MAX tag; mm_uptime_s := uptime;
          mm_heap_free := heap_free; mm_heap_min_free := heap_min_free;
          mm_heap_total := heap_total; mm_internal_free := internal_free;
          mm_internal_min_free := internal_min_free; mm_internal_total := internal_total;
          mm_psram_free := psram_free; mm_psram_min_free := psram_min_free;
          mm_psram_total := psram_total;
          mm_psram_expected := CONFIG_KEEMASH_NODE_PSRAM_EXPECTED_BYTES;
          mm_flash_chip := default 0 flash_chip; mm_app_used := app_used;
          mm_app_slot := app_slot; mm_nvs_used := nvs_used; mm_nvs_free := nvs_free;
          mm_nvs_available := nvs_available; mm_nvs_total := nvs_total;
          mm_psram_enabled := if 0 <? psram_total then 1 else 0 |})
    KEEMASH_REL_PRIORITY_HIGH).

Definition mesh_v2_node_send_sensor_snapshot (snapshot : mesh_v2_sensor_snapshot_payload_t)
  : NodeM esp_err_t :=
  if negb (keemash_mesh_sensor_snapshot_valid snapshot sizeof_sensor_snapshot)
  then mret ESP_ERR_INVALID_ARG
  else with_rel 500 (rel_send MESH_V2_TUNNEL_CHANNEL_SENSOR (encode_sensor_snapshot snapshot)
                       KEEMASH_REL_PRIORITY_HIGH).

Definition mesh_v2_node_send_ota_status (status : mesh_v2_ota_status_payload_t)
  : NodeM esp_err_t :=
  with_rel 500 (rel_send MESH_V2_TUNNEL_CHANNEL_OTA (encode_v2_status status)
                  KEEMASH_REL_PRIORITY_OTA).

Definition mesh_v2_node_send_event (command_id : Z) (txt : bytes) : NodeM esp_err_t :=
  if (length txt =? 0)%nat then mret ESP_ERR_INVALID_ARG
  else with_rel 500 (rel_send_control MESH_V2_CONTROL_EVENT command_id
                       MESH_V2_CONTROL_STATUS_OK txt None).

Definition mesh_v2_node_send_ota_v3_message {Pb : Nanopb} (message : OtaMeshMessage)
  : NodeM esp_err_t :=
  ok ← have_rel;
  if negb ok then mret ESP_ERR_INVALID_STATE
  else
    alloc ← os heap_ok;
    if negb alloc then mret ESP_ERR_NO_MEM
    else
      match keemash_ota_v3_encode_mesh_message message OtaMeshMessage_size with
      | inl err => mret err
      | inr wire =>
          taken ← os (mutex_take 1000);
          if negb taken then mret ESP_ERR_TIMEOUT
          else rel_send MESH_V2_TUNNEL_CHANNEL_OTA wire KEEMASH_REL_PRIORITY_OTA
      end.

(** ** Root identity, topology, diagnostics *)

(** [None] is a NULL pointer. *)
Definition mesh_v2_node_set_root_mac (root_mac : option bytes) : NodeM unit :=
  mod_node (fun n => n <| s_root_origin_mac := default mac_zero_addr root_mac |>).

Definition mesh_v2_node_forget_root : NodeM unit :=
  mod_node (fun n => n <| s_root_origin_mac := mac_zero_addr |>
                       <| s_lossless_negotiated := false |> <| s_hello_retry_count := 0 |>);;
  mod_node command_cache_clear.

Definition mesh_v2_node_get_root_mac : NodeM (option bytes) :=
  n ← get_node;
  mret (if mac_zero (s_root_origin_mac n) then None else Some (s_root_origin_mac n)).

(** The node identifier and the boot session. *)
Definition mesh_v2_node_fabric_identity {D : Digest} (sha1_supported : bool)
  : NodeM (res (Id128 * Z)) :=
  started ← has_rel;
  if negb started then mret (inl ESP_ERR_INVALID_ARG)
  else
    root ← mesh_v2_node_get_root_mac;
    match root with
    | None => mret (inl ESP_ERR_INVALID_STATE)
    | Some root =>
        node ← local_mac;
        match keemash_fabric_legacy_node_id sha1_supported root node with
        | inl err => mret (inl err)
        | inr id => session ← on_rel 0 keemash_rel_local_session; mret (inr (id, session))
        end
    end.

Definition mesh_v2_node_set_relay_eligible (eligible : bool) : NodeM unit :=
  mod_node (fun n => n <| s_relay_eligible := eligible |>).

Definition mesh_v2_node_enable_capabilities (capabilities : Z) : NodeM unit :=
  mod_node (fun n => n <| s_app_capabilities ::= fun c =>
    Z.lor c (Z.land capabilities (Z.lor MESH_V2_CAP_TYPED_SENSOR MESH_V2_CAP_OTA_V3)) |>).

Definition mesh_v2_node_update_topology (parent_mac root_mac : option bytes)
  (layer max_layer parent_rssi child_count : Z) : NodeM unit :=
  mod_node (fun n => n <| s_parent_mac ::= fun m => default m parent_mac |>
    <| s_topology_root_mac ::= fun m => default m root_mac |> <| s_layer := layer |>
    <| s_max_layer := max_layer |> <| s_parent_rssi := parent_rssi |>
    <| s_child_count := child_count |>).

Definition mesh_v2_node_update_diagnostics (diag : option mesh_v2_node_diag_t) : NodeM unit :=
  match diag with
  | None => mret tt
  | Some d => mod_node (fun n => n <| s_diag := d |>)
  end.

Definition mesh_v2_node_set_recovery_phase (phase : Z) : NodeM unit :=
  mod_node (fun n => n <| s_recovery_phase := phase |>).

Definition mesh_v2_node_lossless_negotiated : NodeM bool :=
  n ← get_node; mret (s_lossless_negotiated n).

Definition mesh_v2_node_ack_fresh (max_age_ms : Z) : NodeM bool :=
  n ← get_node;
  rel ← mesh_v2_node_reliable_stats;
  if match rel with
     | Some st => st_ready st && (st_ack_age_ms st <=? max_age_ms)
     | None => false
     end then mret true
  else if negb (s_root_ready n) || (s_last_ack_ms n =? 0) then mret false
  else now ← ms_now; mret (u32 (now - s_last_ack_ms n) <=? max_age_ms).

Definition mesh_v2_node_root_health : NodeM keemash_mesh_root_health_t :=
  n ← get_node;
  if negb (s_mesh_route_up n) then mret KEEMASH_MESH_ROOT_DISCONNECTED
  else
    fresh ← mesh_v2_node_ack_fresh MESH_V2_ACK_STALE_MS;
    mret (if (fresh : bool) then KEEMASH_MESH_ROOT_HEALTHY
          else if s_lossless_negotiated n then KEEMASH_MESH_ROOT_RECOVERING
          else KEEMASH_MESH_ROOT_NEGOTIATING).

Definition mesh_v2_node_protocol_recovery_exhausted : NodeM bool :=
  n ← get_node;
  if s_mesh_route_up n && (6 <=? s_hello_retry_count n)
  then fresh ← mesh_v2_node_ack_fresh MESH_V2_ACK_STALE_MS; mret (negb fresh)
  else mret false.

Definition mesh_v2_node_kick_root : NodeM unit := recover_root_link_if_needed.
Definition mesh_v2_node_force_hello (reset_session : bool) : NodeM esp_err_t :=
  send_hello reset_session.

(** ** Deliveries of the reliable layer *)

(** The command a CONTROL payload carries: its number, its text and its operation. *)
Definition control_command (payload : bytes)
  : option (Z * bytes * option mesh_v2_operation_id_t) :=
  let len := Z.of_nat (length payload) in
  if len <? control_text_offset then None
  else if negb (get_u8 payload 0 =? MESH_V2_CONTROL_COMMAND)
          || (MESH_V2_CONTROL_TEXT_MAX <? control_text_len payload)
          || (len <? control_text_offset + control_text_len payload) then None
  else
    let operation_id := keemash_mesh_control_get_operation_id payload in
    if has_flag (control_rsv payload) MESH_V2_CONTROL_FLAG_OPERATION_ID
       && negb (is_some operation_id) then None
    else Some (get_le 4 payload 4,
               cstr (slice 8 (Z.to_nat (control_text_len payload)) payload), operation_id).

(** The status and the result text of a command that is run. *)
Definition run_command (txt : bytes) : NodeM (Z * bytes) :=
  if bytes_eqb txt NodeText.dbg_dedupe then
    mod_node (fun n => n <| s_debug_dedupe_action_count ::= fun c => u32 (c + 1) |>);;
    n ← get_node;
    mret (MESH_V2_CONTROL_STATUS_OK,
          snprintf 48 (NodeText.debug_count (s_debug_dedupe_action_count n)))
  else if bytes_eqb txt NodeText.log_on || bytes_eqb txt NodeText.log_off then
    let enable := bytes_eqb txt NodeText.log_on in
    keemash_mesh_node_on_log_ctrl enable;;
    mret (MESH_V2_CONTROL_STATUS_OK,
          if enable then NodeText.log_enabled else NodeText.log_disabled)
  else
    '(handled, status, result) ← keemash_mesh_node_on_control_command_result txt;
    if (handled : bool) then
      let result := cstr (take 128 result) in
      mret (status,
            match result with
            | [] => if status =? MESH_V2_CONTROL_STATUS_OK
                    then NodeText.accepted else NodeText.failed
            | _ => result
            end)
    else
      handled ← keemash_mesh_node_on_control_command txt;
      mret (if (handled : bool) then (status, NodeText.accepted)
            else (MESH_V2_CONTROL_STATUS_UNSUPPORTED, NodeText.unsupported)).

(** A command: answered from the cache when it ran before, else run and remembered. *)
Definition handle_command (command_id : Z) (txt : bytes)
  (operation : option mesh_v2_operation_id_t) : NodeM unit :=
  n ← get_node;
  match command_cache_find command_id operation (s_command_cache n) with
  | Some cached =>
      _ ← rel_send_control_result command_id (cc_status cached) (cc_result cached) operation;
      mret tt
  | None =>
      '(status, result_text) ← run_command txt;
      mod_node (command_cache_store command_id operation status result_text);;
      _ ← rel_send_control_result command_id status result_text operation;
      mret tt
  end.

Definition deliver_ota (payload : bytes) : NodeM unit :=
  let v2 := if (sizeof_v2_common <=? length payload)%nat
            then ota_receiver_handle_v2 payload else mret tt in
  if CONFIG_KEEMASH_OTA_V3_ENABLE then
    if negb (length payload =? 0)%nat && (MESH_V2_OTA_OP_STATUS <? get_u8 payload 0) then
      active ← ota_receiver_active;
      if (active : bool) then mret tt else ota_v3_receiver_handle payload
    else
      active ← ota_v3_receiver_active;
      if (active : bool) then mret tt else v2
  else v2.

Definition rel_deliver_cb (peer : bytes) (channel : Z) (payload : bytes) (stream_id : Z)
  : NodeM unit :=
  let at_least n := (n <=? length payload)%nat in
  if (channel =? MESH_V2_TUNNEL_CHANNEL_TASK) && at_least sizeof_task_request then
    _ ← mesh_v2_node_send_task_snapshot (tq_request_id (decode_task_request payload));
    _ ← mesh_v2_node_send_memory; mret tt
  else if channel =? MESH_V2_TUNNEL_CHANNEL_OTA then deliver_ota payload
  else if (channel =? MESH_V2_TUNNEL_CHANNEL_TIME) && at_least sizeof_time then
    keemash_mesh_node_on_time_sync payload
  else if negb (channel =? MESH_V2_TUNNEL_CHANNEL_CONTROL) then mret tt
  else match control_command payload with
       | None => mret tt
       | Some (command_id, txt, operation) => handle_command command_id txt operation
       end.

(** The core with the node's deliveries. *)
Definition node_env : Env (facade node_t * U) := rel_env rel_send_cb rel_deliver_cb rel_event_cb.

(** ** Start and the polling task *)

Definition node_rel_config (mac : bytes) : keemash_rel_config_t :=
  rel_profile_config RK false mac 1 40 24 2 40 24 2 8.

Definition reliable_init : NodeM esp_err_t := start_reliable node_rel_config node_env.

(** A round of the task: [hello_period_ms] after the last HELLO another one. *)
Definition poll_hello (now : Z) : NodeM unit :=
  stats ← on_rel None (keemash_rel_stats root_peer);
  let ready := from_option st_ready false stats in
  let age := from_option st_ack_age_ms 0 stats in
  let stale := ready && negb (age =? UINT32_MAX) && (MESH_V2_ACK_STALE_MS <=? age) in
  n ← get_node;
  let hello_period_ms := if negb ready || stale then MESH_V2_HELLO_RETRY_MS
                         else MESH_V2_HELLO_HEARTBEAT_MS in
  when ((s_rel_last_hello_ms n =? 0) || (hello_period_ms <=? u32 (now - s_rel_last_hello_ms n)))
    (hello_err ← rel_send_hello;
     when (err_eqb hello_err ESP_OK)
       (mod_node (fun n => n <| s_rel_last_hello_ms := now |>
          <| s_hello_retry_count ::= fun c =>
               if (negb ready || stale) && (c <? 255) then u8 (c + 1) else c |>))).

Definition rel_poll_task : NodeM unit :=
  now ← ms_now;
  n ← get_node;
  when ((s_task_cpu_last_sample_ms n =? 0)
        || (TASK_CPU_SAMPLE_PERIOD_MS <=? u32 (now - s_task_cpu_last_sample_ms n)))
    task_cpu_prime;;
  taken ← rel_taken 100;
  when taken (on_rel tt (@keemash_rel_poll _ node_env);; poll_hello now).

Definition mesh_v2_node_init (tag : bytes) : NodeM unit :=
  n ← get_node;
  when (negb (s_inited n)) (new_session_locked;; mod_node (fun n => n <| s_inited := true |>));;
  mod_node (fun n => n <| s_tag := copy_tag MESH_V2_TAG_MAX tag |>);;
  n ← get_node;
  when (negb (s_task_cpu_lock n))
    (made ← os mutex_create; mod_node (fun n => n <| s_task_cpu_lock := made |>));;
  n ← get_node;
  when (negb (s_task_cpu_baseline_valid n)) task_cpu_prime;;
  _ ← reliable_init; mret tt.

(** [keemash_rel_peer_route] under the lock. *)
Definition set_route (up : bool) : NodeM unit :=
  taken ← rel_taken 500;
  when taken (_ ← on_rel ESP_ERR_INVALID_STATE (keemash_rel_peer_route root_peer up); mret tt).

Definition mesh_v2_node_on_mesh_connected : NodeM unit :=
  mod_node (fun n => n <| s_mesh_route_up := true |>);;
  set_route true;;
  _ ← send_hello false; mret tt.

Definition mesh_v2_node_on_mesh_disconnected : NodeM unit :=
  mod_node (fun n => n <| s_root_ready := false |> <| s_mesh_route_up := false |>
                       <| s_last_ack_ms := 0 |>);;
  set_route false.

(** ** Received packets *)

Definition handle_ack (session_id ack_seq : Z) : NodeM unit :=
  n ← get_node;
  if negb (session_id =? s_session_id n) then mret tt
  else
    now ← ms_now;
    mod_node (fun n => n <| s_last_ack_ms := now |> <| s_root_ready := true |>
                         <| s_ring ::= ring_ack ack_seq |>);;
    when (negb (s_root_ready n))
      (_ ← mesh_v2_node_send_nodeinfo; _ ← mesh_v2_node_send_topology; mret tt).

(** The stored packet with the replay flag, its CRC anew. *)
Definition replay_packet (packet : bytes) : bytes :=
  let payload := drop sizeof_hdr packet in
  seal ((decode_hdr packet) <| h_flags ::= fun f => Z.lor f MESH_V2_FLAG_REPLAY |>) payload.

(** The same for a tunnel packet, whose flag is in the tunnel header. *)
Definition replay_tunnel_packet (packet : bytes) : bytes :=
  let payload := drop sizeof_hdr packet in
  let flags := Z.lor (get_u8 payload 1) MESH_V2_TUNNEL_FLAG_REPLAY in
  seal (decode_hdr packet) (splice 1 [flags] payload).

Definition handle_nack (h : mesh_v2_hdr_t) (payload : bytes) : NodeM unit :=
  if h_payload_len h <? Z.of_nat sizeof_missing_seq then mret tt
  else
    let missing_seq := decode_missing_seq payload in
    n ← get_node;
    let current := h_session_id h =? s_session_id n in
    when current (mod_node (fun n => n <| s_root_ready := true |>
                                       <| s_ring ::= ring_ack (h_ack_seq h) |>));;
    n ← get_node;
    match (if current then ring_copy MESH_V2_REPLAY_RING_SIZE missing_seq (s_ring n) else None) with
    | Some packet => _ ← send_raw_to_root (replay_packet packet); mret tt
    | None => _ ← send_lost missing_seq; mret tt
    end.

Definition handle_tunnel_ack (h : mesh_v2_hdr_t) (payload : bytes) : NodeM unit :=
  if h_payload_len h <? Z.of_nat sizeof_tunnel_ack then mret tt
  else
    let p := decode_tunnel_ack payload in
    if negb (tunnel_channel_ok (ta_channel_id p)) then mret tt
    else
      n ← get_node;
      when (h_session_id h =? s_session_id n)
        (now ← ms_now;
         mod_node (fun n => tunnel_ring_ack (ta_channel_id p) (ta_ack_seq p)
           (n <| s_root_ready := true |> <| s_last_ack_ms := now |>))).

Definition handle_tunnel_nack (h : mesh_v2_hdr_t) (payload : bytes) : NodeM unit :=
  if h_payload_len h <? Z.of_nat sizeof_tunnel_nack then mret tt
  else
    let p := decode_tunnel_nack payload in
    n ← get_node;
    found ← (if h_session_id h =? s_session_id n then
               now ← ms_now;
               mod_node (fun n => n <| s_root_ready := true |> <| s_last_ack_ms := now |>);;
               n ← get_node;
               let found := tunnel_ring_copy (tk_channel_id p) (tk_missing_seq p) n in
               mod_node (fun n => if is_some found
                 then n <| s_tunnel_replay_count ::= fun c => u32 (c + 1) |>
                 else n <| s_tunnel_lost_count ::= fun c => u32 (c + 1) |>);;
               mret found
             else mret None);
    match found with
    | Some packet => _ ← send_raw_to_root (replay_tunnel_packet packet); mret tt
    | None => _ ← send_tunnel_lost (tk_channel_id p) (tk_missing_seq p); mret tt
    end.

Definition deliver_tunnel_payload (t : mesh_v2_tunnel_hdr_t) (payload : bytes) : NodeM unit :=
  if tu_channel_id t =? MESH_V2_TUNNEL_CHANNEL_TASK then
    if tu_payload_len t <? Z.of_nat sizeof_task_request then mret tt
    else
      _ ← mesh_v2_node_send_task_snapshot (tq_request_id (decode_task_request payload));
      _ ← mesh_v2_node_send_memory; mret tt
  else if negb (tu_channel_id t =? MESH_V2_TUNNEL_CHANNEL_CONTROL) then mret tt
  else if tu_payload_len t <? Z.of_nat sizeof_tunnel_log_ctrl then mret tt
  else keemash_mesh_node_on_log_ctrl (negb (decode_tunnel_log_ctrl payload =? 0)).

Definition handle_tunnel_data (h : mesh_v2_hdr_t) (payload : bytes) : NodeM unit :=
  n ← get_node;
  if negb (h_session_id h =? s_session_id n)
     || (h_payload_len h <? Z.of_nat sizeof_tunnel_hdr) then recover_root_link_if_needed
  else
    let t := decode_tunnel_hdr payload in
    let inner_space := h_payload_len h - Z.of_nat sizeof_tunnel_hdr in
    if negb (tunnel_channel_ok (tu_channel_id t)) || (inner_space <? tu_payload_len t)
       || (MESH_V2_TUNNEL_INNER_MAX <? tu_payload_len t) then mret tt
    else
      self ← local_mac;
      if negb (mac_zero (tu_target_mac t)) && negb (mac_eq (tu_target_mac t) self) then mret tt
      else
        n ← get_node;
        let '(verdict, rx) := tunnel_receive (tu_seq t) (tunnel_rx_at n (tu_channel_id t)) in
        mod_node (fun n =>
          n <| s_tunnel_rx ::= <[Z.to_nat (tu_channel_id t) := rx]> |>
            <| s_tunnel_gap_count ::= fun c => if tv_gap verdict then u32 (c + 1) else c |>);;
        _ ← match tv_answer verdict with
            | TunnelNack missing_seq => send_tunnel_nack t missing_seq
            | TunnelAck ack_seq => send_tunnel_ack t ack_seq
            end;
        when (tv_deliver verdict) (deliver_tunnel_payload t (drop sizeof_tunnel_hdr payload)).

(** A packet of the reliable layer. *)
Definition is_reliable_type (type : Z) : bool :=
  (MESH_V2_TYPE_RELIABLE_HELLO <=? type) && (type <=? MESH_V2_TYPE_RELIABLE_LOST).

(** After a HELLO_ACK the core accepted: bind the root, forget the commands of another
    root session, and report when the link is new. *)
Definition on_hello_ack (from expected_root packet : bytes) (previous_root_session : Z)
  (was_negotiated : bool) : NodeM unit :=
  when (mac_zero expected_root) (mesh_v2_node_set_root_mac (Some from));;
  mod_node (fun n => n <| s_lossless_negotiated := true |> <| s_hello_retry_count := 0 |>);;
  let ack := decode_hello_ack (drop sizeof_hdr packet) in
  let root_session_changed :=
    negb (previous_root_session =? 0)
    && negb (previous_root_session =? ha_root_session_id ack) in
  when ((Z.of_nat sizeof_hello_ack <=? h_payload_len (decode_hdr packet))
        && root_session_changed) (mod_node command_cache_clear);;
  when (negb was_negotiated || root_session_changed)
    (_ ← mesh_v2_node_send_nodeinfo;
     _ ← mesh_v2_node_send_topology;
     _ ← mesh_v2_node_send_memory; mret tt).

(** After the core refused a packet of another session: a HELLO, once a second. *)
Definition resync_session : NodeM unit :=
  now ← ms_now;
  n ← get_node;
  when ((s_rel_last_hello_ms n =? 0)
        || (MESH_V2_SESSION_RESYNC_THROTTLE_MS <=? u32 (now - s_rel_last_hello_ms n)))
    (_ ← send_hello false; mret tt).

Definition handle_reliable (from expected_root packet : bytes) : NodeM esp_err_t :=
  started ← has_rel;
  init_err ← (if (started : bool) then mret ESP_OK else reliable_init);
  if negb (err_eqb init_err ESP_OK) then mret init_err
  else
    taken ← os (mutex_take 1000);
    if negb taken then mret ESP_ERR_TIMEOUT
    else
      before ← on_rel None (keemash_rel_stats root_peer);
      n ← get_node;
      let was_negotiated := s_lossless_negotiated n in
      rel_err ← on_rel ESP_ERR_INVALID_STATE (@keemash_rel_handle_rx _ node_env from packet);
      let type := h_type (decode_hdr packet) in
      when (err_eqb rel_err ESP_ERR_INVALID_STATE
            && negb (type =? MESH_V2_TYPE_RELIABLE_HELLO)) resync_session;;
      when (err_eqb rel_err ESP_OK && (type =? MESH_V2_TYPE_RELIABLE_HELLO_ACK))
        (on_hello_ack from expected_root packet (from_option st_root_session_id 0 before)
           was_negotiated);;
      mret rel_err.

Definition handle_ping (h : mesh_v2_hdr_t) (payload : bytes) : NodeM esp_err_t :=
  n ← get_node;
  if negb (h_payload_len h =? Z.of_nat sizeof_ping) || negb (s_lossless_negotiated n)
  then mret ESP_ERR_INVALID_STATE
  else
    stats ← mesh_v2_node_reliable_stats;
    match stats with
    | Some st =>
        if negb (st_ready st)
           || negb (pg_root_session_id (decode_ping payload) =? st_root_session_id st)
        then mret ESP_ERR_INVALID_STATE
        else send_packet MESH_V2_TYPE_PONG (take sizeof_ping payload) false
    | None => mret ESP_ERR_INVALID_STATE
    end.

Definition handle_legacy (h : mesh_v2_hdr_t) (payload : bytes) : NodeM esp_err_t :=
  let type := h_type h in
  (if type =? MESH_V2_TYPE_ACK then handle_ack (h_session_id h) (h_ack_seq h)
   else if type =? MESH_V2_TYPE_NACK then handle_nack h payload
   else if type =? MESH_V2_TYPE_TUNNEL_ACK then handle_tunnel_ack h payload
   else if type =? MESH_V2_TYPE_TUNNEL_NACK then handle_tunnel_nack h payload
   else when (type =? MESH_V2_TYPE_TUNNEL_DATA) (handle_tunnel_data h payload));;
  mret ESP_OK.

Definition mesh_v2_node_handle_rx (from packet : bytes) : NodeM esp_err_t :=
  n ← get_node;
  let expected_root := s_root_origin_mac n in
  let probed := (sizeof_hdr <=? length packet)%nat in
  let probe := decode_hdr packet in
  if probed && (negb (mac_eq (h_src_mac probe) from)
                || negb (mac_zero expected_root) && negb (mac_eq expected_root from))
  then mret ESP_ERR_INVALID_ARG
  else if probed && (h_magic probe =? MESH_PKT_MAGIC) && (h_version probe =? MESH_PKT_VERSION_V2)
          && is_reliable_type (h_type probe)
  then handle_reliable from expected_root packet
  else
    match validate_packet packet with
    | None => mret ESP_ERR_INVALID_ARG
    | Some (h, payload) =>
        if negb (mac_eq (h_src_mac h) from) then mret ESP_ERR_INVALID_ARG
        else if h_type h =? MESH_V2_TYPE_PING then handle_ping h payload
        else if negb CONFIG_KEEMASH_V2_COMPAT_TUNNEL_ENABLE then mret ESP_ERR_NOT_SUPPORTED
        else handle_legacy h payload
    end.
End Node.
