(* ===== verification/NodeInv.v ===== *)
(** * The node facade: invariants

    [NodeStep T] lists what the facade does to its state: calls of the system, of
    the application and of the core, and the updates of its variables.  Every
    operation is a composition of these, so every operation is stable under [T].  Two
    relations are instances: the reliable context stays well-formed, and so do the
    facade's variables ([node_wf]). *)

From S2P Require Import Prelude.
From S2P Require Import Words.
From S2P Require Import Esp.
From S2P Require Import Rtos.
From S2P Require Import MeshProto.
From S2P Require Import MeshProtoV1.
From S2P Require Import MeshProtoV2.
From S2P Require Import MeshWire.
From S2P Require Import RelState.
From S2P Require Import RelOps.
From S2P Require Import RelQuiet.
From S2P Require Import RelInv.
From S2P Require Import RelFrame.
From S2P Require Import OtaTypes.
From S2P Require Import OtaV3.
From S2P Require Import Facade.
From S2P Require Import FacadeInv.
From S2P Require Import NodeState.
From S2P Require Import Node.
#[local] Open Scope Z_scope.

(** A MAC address has six bytes; a random number has 32 bits. *)
Class NodeLaws (U : Type) (NE : NodeEnv U) := {
  local_mac_is : forall u, mac_addr (keemash_mesh_get_local_mac u).1;
  random_is : forall u, is_u32 (fac_random u).1 }.

(** The hooks and the OTA receivers move the state along [T]; a hook that calls the
    facade's own operations does when they do. *)
Class HooksMove {U : Type} (NE : NodeEnv U) (T : relation (fstate node_t U)) := {
  on_time_sync_moves : forall p, stable T (keemash_mesh_node_on_time_sync p);
  on_log_ctrl_moves : forall b, stable T (keemash_mesh_node_on_log_ctrl b);
  on_command_result_moves : forall t, stable T (keemash_mesh_node_on_control_command_result t);
  on_command_moves : forall t, stable T (keemash_mesh_node_on_control_command t);
  receiver_active_moves : stable T ota_receiver_active;
  receiver_handle_moves : forall p, stable T (ota_receiver_handle_v2 p);
  v3_active_moves : stable T ota_v3_receiver_active;
  v3_handle_moves : forall p, stable T (ota_v3_receiver_handle p) }.

#[export] Hint Extern 1 (stable _ (keemash_mesh_node_on_time_sync _)) =>
  apply on_time_sync_moves : stable.
#[export] Hint Extern 1 (stable _ (keemash_mesh_node_on_log_ctrl _)) =>
  apply on_log_ctrl_moves : stable.
#[export] Hint Extern 1 (stable _ (keemash_mesh_node_on_control_command_result _)) =>
  apply on_command_result_moves : stable.
#[export] Hint Extern 1 (stable _ (keemash_mesh_node_on_control_command _)) =>
  apply on_command_moves : stable.
#[export] Hint Extern 1 (stable _ ota_receiver_active) => apply receiver_active_moves : stable.
#[export] Hint Extern 1 (stable _ (ota_receiver_handle_v2 _)) =>
  apply receiver_handle_moves : stable.
#[export] Hint Extern 1 (stable _ ota_v3_receiver_active) => apply v3_active_moves : stable.
#[export] Hint Extern 1 (stable _ (ota_v3_receiver_handle _)) => apply v3_handle_moves : stable.

(** The variables the invariant is about. *)
Definition node_core (n : node_t) :=
  (s_ring n, s_tunnel_tx n, s_tunnel_rx n, s_session_id n, s_command_cache n,
   s_command_cache_next n).

(** ** The core without deliveries: any facade relation that allows no change *)

Section Quiet.
Context {U : Type} {NC : NodeConfig} {RK : RelKconfig} {NE : NodeEnv U}.

#[export] Instance quiet_keeps : @CbKeeps (facade node_t * U) quiet_env.
Proof.
  apply rel_env_keeps.
  - intros dst packet. apply os_wf.
  - intros. apply stable_ret, _.
  - intros. apply stable_ret, _.
Qed.

#[export] Instance quiet_along : @CbAlong (facade node_t * U) quiet_env (fun w w' => w.1 = w'.1).
Proof.
  apply (rel_env_along eq).
  - intros dst packet. apply os_own, _.
  - intros. apply stable_ret, _.
Qed.

(** A call of the core that leaves the facade's variables alone. *)
Definition quiet_call {A : Type} (m : Rel (facade node_t * U) A) : Prop :=
  pres m /\ stable (along (fun w w' => w.1 = w'.1)) m.

Lemma send_quiet ch p prio :
  prio <= KEEMASH_REL_PRIORITY_CONTROL ->
  quiet_call (@keemash_rel_send _ quiet_env root_peer ch p prio).
Proof.
  intros H. split.
  - unfold keemash_rel_send. refine (stable_bind _ _ _ _ _); [by apply submit_pres|intros ?].
    refine (stable_ret _ _).
  - apply send_along', _.
Qed.

Lemma ready_quiet : quiet_call (@keemash_rel_peer_ready _ quiet_env root_peer).
Proof.
  split; [|apply peer_ready_along, _].
  unfold keemash_rel_peer_ready, with_peer. quiet_go; apply peer_find_pres.
Qed.
Lemma stats_quiet : quiet_call (@keemash_rel_stats _ quiet_env root_peer).
Proof.
  split; [|apply stats_along, _].
  unfold keemash_rel_stats, with_peer. quiet_go; apply peer_find_pres.
Qed.
Lemma hello_quiet tag up caps :
  quiet_call (@keemash_rel_send_hello _ quiet_env root_peer tag up caps).
Proof. split; [apply send_hello_pres|apply send_hello_along, _]. Qed.
Lemma route_quiet up : quiet_call (@keemash_rel_peer_route _ quiet_env root_peer up).
Proof. split; [apply peer_route_pres|apply peer_route_along, _]. Qed.
Lemma local_session_quiet : quiet_call (keemash_rel_local_session (W := facade node_t * U)).
Proof. split; intros s; [by intros|reflexivity]. Qed.
End Quiet.

(** ** Every operation is a composition of steps *)

Section Steps.
Context {U : Type} {NC : NodeConfig} {RK : RelKconfig} {NE : NodeEnv U}.

Class NodeStep (T : relation (fstate node_t U)) := {
  node_pre :: PreOrder T;
  node_hooks :: HooksMove NE T;
  node_os : forall A (m : ST U A), stable T (os m);
  node_start : stable T reliable_init;
  node_plain : forall f, (forall n, node_core (f n) = node_core n) -> stable T (mod_node f);
  node_session : stable T new_session_locked;
  node_ring_ack : forall k f, (forall n, node_core (f n) = node_core n) ->
    stable T (mod_node (fun n => (f n) <| s_ring ::= ring_ack k |>));
  node_tunnel_ack : forall ch k f, (forall n, node_core (f n) = node_core n) ->
    stable T (mod_node (fun n => tunnel_ring_ack ch k (f n)));
  node_tunnel_rx : forall i rx f, (forall n, node_core (f n) = node_core n) ->
    stable T (mod_node (fun n => f (n <| s_tunnel_rx ::= <[i := rx]> |>)));
  node_cache_store : forall i op st res, stable T (mod_node (command_cache_store i op st res));
  node_cache_clear : stable T (mod_node command_cache_clear);
  node_rel : forall A (null : A) m, quiet_call m -> stable T (on_rel null m);
  node_tunnel : forall ch inner, 0 <= ch -> stable T mesh_v2_node_ready ->
    stable T (send_tunnel_packet ch inner true) }.

Context (T : relation (fstate node_t U)) `{!NodeStep T}.

Lemma step_gets {A} (f : fstate node_t U -> A) : stable T (gets f).
Proof. apply stable_gets, _. Qed.
Lemma step_get_node : stable T get_node.
Proof. apply step_gets. Qed.
Lemma step_has_rel : stable T has_rel.
Proof. apply step_gets. Qed.
Lemma step_has_lock : stable T has_lock.
Proof. apply step_gets. Qed.
Lemma step_os {A} (m : ST U A) : stable T (os m).
Proof. apply node_os. Qed.
Lemma step_ms_now : stable T ms_now.
Proof. apply node_os. Qed.
Lemma step_local_mac : stable T local_mac.
Proof. apply node_os. Qed.

Hint Resolve step_get_node step_has_rel step_has_lock step_os step_ms_now step_local_mac
  node_session node_cache_store node_cache_clear node_start : stable.
Hint Extern 4 (stable _ (mod_node _)) => apply node_plain; reflexivity : stable.

Ltac go := repeat (stable_step || solve [eauto 3 with stable nocore]).

Lemma step_uptime : stable T uptime_s.
Proof. unfold uptime_s. go. Qed.
Lemma step_have_rel : stable T have_rel.
Proof. unfold have_rel. go. Qed.
Hint Resolve step_uptime step_have_rel : stable.
Lemma step_taken ms : stable T (rel_taken ms).
Proof. unfold rel_taken. go. Qed.
Hint Resolve step_taken : stable.
Lemma step_with_rel ms body : stable T body -> stable T (with_rel ms body).
Proof. intros H. unfold with_rel. go. Qed.

Lemma step_send ch p prio : prio <= KEEMASH_REL_PRIORITY_CONTROL -> stable T (rel_send ch p prio).
Proof. intros H. unfold rel_send. apply node_rel. by apply send_quiet. Qed.
Lemma step_send_log ch p : stable T (rel_send ch p KEEMASH_REL_PRIORITY_LOG).
Proof. by apply step_send. Qed.
Lemma step_send_normal ch p : stable T (rel_send ch p KEEMASH_REL_PRIORITY_NORMAL).
Proof. by apply step_send. Qed.
Lemma step_send_high ch p : stable T (rel_send ch p KEEMASH_REL_PRIORITY_HIGH).
Proof. by apply step_send. Qed.
Lemma step_send_ota ch p : stable T (rel_send ch p KEEMASH_REL_PRIORITY_OTA).
Proof. by apply step_send. Qed.
Lemma step_send_ctl ch p : stable T (rel_send ch p KEEMASH_REL_PRIORITY_CONTROL).
Proof. by apply step_send. Qed.
Lemma step_ready : stable T rel_peer_ready.
Proof. apply node_rel, ready_quiet. Qed.
Lemma step_stats : stable T (on_rel None (@keemash_rel_stats _ quiet_env root_peer)).
Proof. apply node_rel, stats_quiet. Qed.
Hint Resolve step_with_rel step_send_log step_send_normal step_send_high step_send_ota
  step_send_ctl step_ready step_stats : stable.
Lemma step_reliable_ready : stable T mesh_v2_node_reliable_ready.
Proof. unfold mesh_v2_node_reliable_ready. go. Qed.
Lemma step_reliable_stats : stable T mesh_v2_node_reliable_stats.
Proof. unfold mesh_v2_node_reliable_stats. go. Qed.
Hint Resolve step_reliable_ready step_reliable_stats : stable.
Lemma step_rel_send_hello : stable T rel_send_hello.
Proof. unfold rel_send_hello. go. apply node_rel, hello_quiet. Qed.
Lemma step_node_ready : stable T mesh_v2_node_ready.
Proof. unfold mesh_v2_node_ready. go. Qed.
Hint Resolve step_rel_send_hello step_node_ready : stable.
Lemma step_fallback ch inner e : 0 <= ch -> stable T (tunnel_fallback ch inner e).
Proof. intros H. unfold tunnel_fallback. go. by apply node_tunnel, step_node_ready. Qed.
Hint Extern 2 (stable _ (tunnel_fallback _ _ _)) => apply step_fallback; done : stable.
Lemma step_send_raw p : stable T (send_raw_to_root p).
Proof. apply node_os. Qed.
Hint Resolve step_send_raw : stable.
Lemma step_send_packet type p : stable T (send_packet type p false).
Proof. unfold send_packet, when. go. Qed.
Hint Resolve step_send_packet : stable.
Lemma step_send_lost k : stable T (send_lost k).
Proof. unfold send_lost. go. Qed.
Lemma step_tunnel_control type p : stable T (send_tunnel_control_packet type p).
Proof. unfold send_tunnel_control_packet. go. Qed.
Hint Resolve step_tunnel_control : stable.
Lemma step_tunnel_lost ch k : stable T (send_tunnel_lost ch k).
Proof. unfold send_tunnel_lost. go. Qed.
Lemma step_tunnel_send_ack t k : stable T (send_tunnel_ack t k).
Proof. unfold send_tunnel_ack. go. Qed.
Lemma step_tunnel_send_nack t k : stable T (send_tunnel_nack t k).
Proof. unfold send_tunnel_nack. go. Qed.
Hint Resolve step_send_lost step_tunnel_lost step_tunnel_send_ack step_tunnel_send_nack : stable.
Lemma step_send_hello b : stable T (send_hello b).
Proof. unfold send_hello. go. Qed.
Hint Resolve step_send_hello : stable.
Lemma step_recover : stable T recover_root_link_if_needed.
Proof. unfold recover_root_link_if_needed. go. Qed.
Hint Resolve step_recover : stable.
Lemma step_sample : stable T task_cpu_sample.
Proof. unfold task_cpu_sample. go. Qed.
Hint Resolve step_sample : stable.
Lemma step_prime : stable T task_cpu_prime.
Proof. unfold task_cpu_prime. go. Qed.
Hint Resolve step_prime : stable.

(** *** Reports *)

Lemma step_when_ready ms ch p prio :
  prio <= KEEMASH_REL_PRIORITY_CONTROL -> stable T (send_when_ready ms ch p prio).
Proof. intros H. unfold send_when_ready. go. by apply step_send. Qed.
Hint Extern 2 (stable _ (send_when_ready _ _ _ _)) => apply step_when_ready; done : stable.
Lemma step_nodeinfo : stable T mesh_v2_node_send_nodeinfo.
Proof. unfold mesh_v2_node_send_nodeinfo. go. Qed.
Lemma step_log_line line : stable T (mesh_v2_node_send_log_line line).
Proof. unfold mesh_v2_node_send_log_line. go. Qed.
Lemma step_ack_age : stable T mesh_v2_node_ack_age_ms.
Proof. unfold mesh_v2_node_ack_age_ms. cbn zeta. go. Qed.
Lemma step_slot_info : stable T fill_ota_slot_info.
Proof. unfold fill_ota_slot_info. go. Qed.
Hint Resolve step_nodeinfo step_log_line step_ack_age step_slot_info : stable.
Lemma step_topology : stable T mesh_v2_node_send_topology.
Proof. unfold mesh_v2_node_send_topology. go. Qed.
Lemma step_one_snapshot tag r s smp : stable T (send_one_snapshot tag r s smp).
Proof. unfold send_one_snapshot. go. Qed.
Hint Resolve step_topology step_one_snapshot : stable.
Lemma step_snapshots tag r smp starts e : stable T (send_snapshots tag r smp starts e).
Proof. revert e. induction starts as [|s starts IH]; intros e; cbn [send_snapshots]; go. Qed.
Hint Resolve step_snapshots : stable.
Lemma step_task_snapshot r : stable T (mesh_v2_node_send_task_snapshot r).
Proof. unfold mesh_v2_node_send_task_snapshot. go. Qed.
Lemma step_heap caps : stable T (heap_triple caps).
Proof. unfold heap_triple. go. Qed.
Lemma step_app_sizes : stable T app_sizes.
Proof. unfold app_sizes. go. Qed.
Hint Resolve step_task_snapshot step_heap step_app_sizes : stable.
Lemma step_memory : stable T mesh_v2_node_send_memory.
Proof. unfold mesh_v2_node_send_memory. go. Qed.
Hint Resolve step_memory : stable.
Lemma step_send_control kind i st t op : stable T (rel_send_control kind i st t op).
Proof. unfold rel_send_control. go. Qed.
Hint Resolve step_send_control : stable.
Lemma step_control_result i st t op : stable T (rel_send_control_result i st t op).
Proof. unfold rel_send_control_result. go. Qed.
Hint Resolve step_control_result : stable.

(** *** Deliveries *)

Lemma step_run_command t : stable T (run_command t).
Proof. unfold run_command. go. Qed.
Hint Resolve step_run_command : stable.
Lemma step_command i t op : stable T (handle_command i t op).
Proof. unfold handle_command. go. Qed.
Lemma step_deliver_ota p : stable T (deliver_ota p).
Proof. unfold deliver_ota. cbn zeta. go. Qed.
Hint Resolve step_command step_deliver_ota : stable.
Lemma step_deliver peer ch p i : stable T (rel_deliver_cb peer ch p i).
Proof. unfold rel_deliver_cb. cbn zeta. go. Qed.

(** *** The legacy path *)

Lemma step_handle_ack s k : stable T (handle_ack s k).
Proof.
  unfold handle_ack. go.
  match goal with |- stable _ (mod_node (fun n => _ <| s_last_ack_ms := ?v |> <| _ := _ |> <| _ ::= _ |>)) =>
    by apply (node_ring_ack k (fun n => n <| s_last_ack_ms := v |> <| s_root_ready := true |>))
  end.
Qed.
Lemma step_handle_nack h p : stable T (handle_nack h p).
Proof.
  unfold handle_nack. cbn zeta. go.
  by apply (node_ring_ack _ (fun n => n <| s_root_ready := true |>)).
Qed.
Lemma step_handle_tunnel_ack h p : stable T (handle_tunnel_ack h p).
Proof. unfold handle_tunnel_ack. cbn zeta. go. by apply node_tunnel_ack. Qed.
Lemma step_handle_tunnel_nack h p : stable T (handle_tunnel_nack h p).
Proof. unfold handle_tunnel_nack. cbn zeta. go. apply node_plain. intros x. by split_if. Qed.
Lemma step_tunnel_payload t p : stable T (deliver_tunnel_payload t p).
Proof. unfold deliver_tunnel_payload. go. Qed.
Hint Resolve step_handle_ack step_handle_nack step_handle_tunnel_ack step_handle_tunnel_nack
  step_tunnel_payload : stable.
Lemma step_handle_tunnel_data h p : stable T (handle_tunnel_data h p).
Proof.
  unfold handle_tunnel_data. cbn zeta. go.
  match goal with |- stable _ (mod_node (fun n => _ <| s_tunnel_gap_count ::= ?g |>)) =>
    by apply (node_tunnel_rx _ _ (fun n => n <| s_tunnel_gap_count ::= g |>))
  end.
Qed.
Hint Resolve step_handle_tunnel_data : stable.
Lemma step_legacy h p : stable T (handle_legacy h p).
Proof. unfold handle_legacy. cbn zeta. go. Qed.
Lemma step_ping h p : stable T (handle_ping h p).
Proof. unfold handle_ping. go. Qed.
Lemma step_set_root m : stable T (mesh_v2_node_set_root_mac m).
Proof. unfold mesh_v2_node_set_root_mac. go. Qed.
Hint Resolve step_set_root : stable.
Lemma step_hello_ack from expected p prev was : stable T (on_hello_ack from expected p prev was).
Proof. unfold on_hello_ack. cbn zeta. go. Qed.
Lemma step_resync : stable T resync_session.
Proof. unfold resync_session. go. Qed.
Hint Resolve step_legacy step_ping step_hello_ack step_resync : stable.
Lemma step_poll_hello now : stable T (poll_hello now).
Proof.
  unfold poll_hello. cbn zeta. go.
Qed.
Hint Resolve step_poll_hello : stable.

(** *** Entry points *)

Lemma step_init tag : stable T (mesh_v2_node_init tag).
Proof. unfold mesh_v2_node_init. go. Qed.
Lemma step_set_route up : stable T (set_route up).
Proof. unfold set_route. go. apply node_rel, route_quiet. Qed.
Hint Resolve step_set_route : stable.
Lemma step_connected : stable T mesh_v2_node_on_mesh_connected.
Proof. unfold mesh_v2_node_on_mesh_connected. go. Qed.
Lemma step_disconnected : stable T mesh_v2_node_on_mesh_disconnected.
Proof. unfold mesh_v2_node_on_mesh_disconnected. go. Qed.
Lemma step_forget : stable T mesh_v2_node_forget_root.
Proof. unfold mesh_v2_node_forget_root. go. Qed.
Lemma step_relay b : stable T (mesh_v2_node_set_relay_eligible b).
Proof. unfold mesh_v2_node_set_relay_eligible. go. Qed.
Lemma step_enable c : stable T (mesh_v2_node_enable_capabilities c).
Proof. unfold mesh_v2_node_enable_capabilities. go. Qed.
Lemma step_update_topology p r l m i c : stable T (mesh_v2_node_update_topology p r l m i c).
Proof. unfold mesh_v2_node_update_topology. go. Qed.
Lemma step_diagnostics d : stable T (mesh_v2_node_update_diagnostics d).
Proof. unfold mesh_v2_node_update_diagnostics. go. Qed.
Lemma step_phase p : stable T (mesh_v2_node_set_recovery_phase p).
Proof. unfold mesh_v2_node_set_recovery_phase. go. Qed.
Lemma step_sensor p : stable T (mesh_v2_node_send_sensor_snapshot p).
Proof. unfold mesh_v2_node_send_sensor_snapshot. go. Qed.
Lemma step_ota_status p : stable T (mesh_v2_node_send_ota_status p).
Proof. unfold mesh_v2_node_send_ota_status. go. Qed.
Lemma step_ota_v3_message {Pb : Nanopb} message :
  stable T (mesh_v2_node_send_ota_v3_message message).
Proof. unfold mesh_v2_node_send_ota_v3_message. go. Qed.
Lemma step_event i t : stable T (mesh_v2_node_send_event i t).
Proof. unfold mesh_v2_node_send_event. go. Qed.
Lemma step_ack_fresh a : stable T (mesh_v2_node_ack_fresh a).
Proof. unfold mesh_v2_node_ack_fresh. go. Qed.
Hint Resolve step_ack_fresh : stable.
Lemma step_health : stable T mesh_v2_node_root_health.
Proof. unfold mesh_v2_node_root_health. go. Qed.

(** *** Where the core may deliver *)

Context (Hrx : forall from packet,
    stable T (on_rel ESP_ERR_INVALID_STATE (@keemash_rel_handle_rx _ node_env from packet)))
  (Hpoll : stable T (on_rel tt (@keemash_rel_poll _ node_env))).

Lemma step_reliable from expected p : stable T (handle_reliable from expected p).
Proof. unfold handle_reliable. cbn zeta. go. Qed.
Hint Resolve step_reliable : stable.
Lemma step_handle_rx from p : stable T (mesh_v2_node_handle_rx from p).
Proof. unfold mesh_v2_node_handle_rx. cbn zeta. go. Qed.
Lemma step_poll : stable T rel_poll_task.
Proof. unfold rel_poll_task. go. Qed.
End Steps.
