(* ===== verification/NodeReach.v ===== *)
(** * The node facade: reachable states

    The two instances of [NodeStep], and the theorem that the invariants hold in
    every state the facade can reach, deliveries and re-entrant sends included. *)

From S2P Require Import Prelude.
From S2P Require Import Words.
From S2P Require Import Esp.
From S2P Require Import Rtos.
From S2P Require Import MeshProto.
From S2P Require Import MeshProtoV1.
From S2P Require Import MeshProtoV2.
From S2P Require Import MeshWire.
From S2P Require Import RelState.
From S2P Require Import RelOps.
From S2P Require Import RelInv.
From S2P Require Import RelFrame.
From S2P Require Import OtaTypes.
From S2P Require Import OtaV3.
From S2P Require Import Facade.
From S2P Require Import FacadeInv.
From S2P Require Import NodeState.
From S2P Require Import Node.
From S2P Require Import NodeInv.
#[local] Open Scope Z_scope.

(** ** The variables of the facade *)

(** A stored packet: a tunnel packet of the session, complete and with its number. *)
Definition tunnel_frame (session_id channel seq : Z) (packet : bytes) : Prop :=
  exists mac origin inner, mac_addr mac /\ mac_addr origin /\
    Z.of_nat (length inner) <= MESH_V2_TUNNEL_INNER_MAX /\ is_u32 seq /\
    packet = tunnel_packet session_id channel seq mac origin inner.

Definition slot_wf (session_id channel : Z) (i : nat) (s : replay_slot_t) : Prop :=
  rp_used s = true ->
  i = ring_index MESH_V2_TUNNEL_REPLAY_RING_SIZE (rp_seq s) /\
  tunnel_frame session_id channel (rp_seq s) (rp_bytes s).

Record tunnel_tx_wf (session_id channel : Z) (t : tunnel_tx_channel_t) : Prop := {
  tw_len : length (tt_ring t) = 8%nat;
  tw_next : is_u32 (tt_next_seq t);
  tw_slots : forall i s, tt_ring t !! i = Some s -> slot_wf session_id channel i s }.

Record node_wf (n : node_t) : Prop := {
  nw_session : is_u32 (s_session_id n);
  nw_ring : Forall (fun s => rp_used s = false) (s_ring n);
  nw_tx_len : length (s_tunnel_tx n) = TUNNEL_CHANNELS;
  nw_tx : forall ch t, s_tunnel_tx n !! ch = Some t ->
    tunnel_tx_wf (s_session_id n) (Z.of_nat ch) t;
  nw_rx_len : length (s_tunnel_rx n) = TUNNEL_CHANNELS;
  nw_cache_len : length (s_command_cache n) = COMMAND_CACHE_SIZE;
  nw_cache_next : is_u8 (s_command_cache_next n) }.

Lemma node_wf_core n n' : node_core n' = node_core n -> node_wf n -> node_wf n'.
Proof.
  unfold node_core. intros [= E1 E2 E3 E4 E5 E6] []. split; rewrite ?E1, ?E2, ?E3, ?E4, ?E5, ?E6;
    done.
Qed.

Lemma unused_slot_wf session ch i s : rp_used s = false -> slot_wf session ch i s.
Proof. intros H H'. congruence. Qed.

Lemma empty_ring_wf session ch next n :
  is_u32 next -> n = 8%nat ->
  tunnel_tx_wf session ch {| tt_next_seq := next; tt_ring := replicate n replay_zero |}.
Proof.
  intros H ->. split; [done|done|]. intros i s Hs. apply lookup_replicate in Hs as [-> _].
  by apply unused_slot_wf.
Qed.

Lemma node_zero_wf : node_wf node_zero.
Proof.
  split; try done.
  - unfold node_zero. cbn [s_ring]. by apply Forall_replicate.
  - intros ch t Ht. apply lookup_replicate in Ht as [-> _]. by apply empty_ring_wf.
Qed.

Lemma new_session_wf r n : is_u32 r -> node_wf n -> node_wf (new_session r n).
Proof.
  intros Hr []. split; try done; unfold new_session; cbn.
  - unfold setter. destruct (r =? 0); done.
  - unfold setter. by repeat (constructor; [done|]).
  - intros ch t Ht. unfold setter in Ht.
    apply (lookup_replicate_1 TUNNEL_CHANNELS) in Ht as [-> _]. by apply empty_ring_wf.
Qed.

Lemma alter_tx_wf n ch f :
  node_wf n ->
  (forall t, s_tunnel_tx n !! ch = Some t -> tunnel_tx_wf (s_session_id n) (Z.of_nat ch) t ->
     tunnel_tx_wf (s_session_id n) (Z.of_nat ch) (f t)) ->
  node_wf (n <| s_tunnel_tx ::= alter f ch |>).
Proof.
  intros [] Hf. split; try done; cbn; unfold setter.
  - by rewrite length_alter.
  - intros i t Ht. apply list_alter_Some in Ht as [(<- & t' & Ht' & ->)|[_ Ht]]; eauto.
Qed.

Lemma ring_ack_wf session ch k t :
  tunnel_tx_wf session ch t -> tunnel_tx_wf session ch (t <| tt_ring ::= ring_ack k |>).
Proof.
  intros [Hl Hn Hs]. split; cbn; unfold setter, ring_ack; [by rewrite length_clear_if|done|].
  intros i s H. rewrite lookup_clear_if in H. apply fmap_Some in H as (s' & H & ->).
  split_if; [by apply unused_slot_wf|eauto].
Qed.

Lemma ring_store_wf session ch seq packet t :
  is_u32 seq -> tunnel_frame session ch seq packet -> tunnel_tx_wf session ch t ->
  tunnel_tx_wf session ch
    (t <| tt_ring ::= ring_store MESH_V2_TUNNEL_REPLAY_RING_SIZE seq packet |>).
Proof.
  intros Hq Hf [Hl Hn Hs]. split; cbn; unfold setter, ring_store; [by rewrite length_insert|done|].
  intros i s H. apply list_lookup_insert_Some in H as [(<- & <- & _)|[_ H]]; [|by eauto].
  intros _. cbn. done.
Qed.

Lemma tunnel_ring_ack_wf ch k n : node_wf n -> node_wf (tunnel_ring_ack ch k n).
Proof.
  intros H. unfold tunnel_ring_ack. split_if; [done|].
  apply alter_tx_wf; [done|]. intros t _. apply ring_ack_wf.
Qed.

Lemma tunnel_ring_store_wf ch seq packet n :
  0 <= ch -> is_u32 seq -> tunnel_frame (s_session_id n) ch seq packet -> node_wf n ->
  node_wf (tunnel_ring_store ch seq packet n).
Proof.
  intros Hc Hq Hf H. unfold tunnel_ring_store. split_if; [done|].
  apply alter_tx_wf; [done|]. intros t _. apply ring_store_wf; [done|]. by rewrite Z2Nat.id.
Qed.

Lemma cache_store_wf i op st res n : node_wf n -> node_wf (command_cache_store i op st res n).
Proof.
  intros []. split; try done; cbn; unfold setter; [by rewrite length_insert|]. apply u8_is.
Qed.
Lemma cache_clear_wf n : node_wf n -> node_wf (command_cache_clear n).
Proof. intros []. by split. Qed.

Lemma next_seq_u32 n ch : node_wf n -> is_u32 (tt_next_seq (tunnel_tx_at n ch)).
Proof.
  intros H. unfold tunnel_tx_at. rewrite nth_lookup.
  destruct (s_tunnel_tx n !! Z.to_nat ch) eqn:E; [by eapply tw_next, nw_tx|done].
Qed.

(** ** The two instances *)

Definition node_wf_moves : relation (facade node_t) := fun f f' =>
  node_wf (f_own f) -> node_wf (f_own f').
#[export] Instance node_wf_moves_preorder : PreOrder node_wf_moves.
Proof. split; [intros f H; exact H|]. intros a b c H1 H2 H. by apply H2, H1. Qed.

Section Reach.
Context {U : Type} {NC : NodeConfig} {RK : RelKconfig} {NE : NodeEnv U}.

#[export] Instance node_step_rel `{!HooksMove NE (keeps fac_wf)} : NodeStep (keeps fac_wf).
Proof.
  split; try apply _; intros; try apply mod_own_wf.
  - apply os_wf.
  - apply start_wf.
  - unfold new_session_locked. apply stable_bind; [apply _|apply os_wf|intros; apply mod_own_wf].
  - match goal with H : quiet_call _ |- _ => destruct H end. by apply on_rel_wf.
  - unfold send_tunnel_packet, get_node, mod_node, local_mac, send_raw_to_root. cbn zeta.
    stable_auto.
Qed.

Lemma at_get_node {A} (k : node_t -> Fac node_t U A) :
  (forall s, node_wf (f_own s.2.1) -> node_wf (f_own (k (f_own s.2.1) s).2.2.1)) ->
  stable (own node_wf_moves) (get_node ≫= k).
Proof. intros H [r [f u]] Hs. by apply (H (r, (f, u))). Qed.

Lemma at_os {A B} (m : ST U A) (k : A -> Fac node_t U B) (Q : A -> Prop) (s : fstate node_t U) :
  (forall u, Q (m u).1) -> (forall a u, Q a -> node_wf (f_own (k a (s.1, (s.2.1, u))).2.2.1)) ->
  node_wf (f_own ((os m ≫= k) s).2.2.1).
Proof.
  intros Hm Hk. destruct s as [r [f u]]. rewrite bind_eq. unfold os. specialize (Hm u).
  destruct (m u) as [a u']. by apply Hk.
Qed.

Lemma at_mod_node {A} g (k : unit -> Fac node_t U A) (s : fstate node_t U) :
  node_wf (g (f_own s.2.1)) ->
  (forall s', node_wf (f_own s'.2.1) -> node_wf (f_own (k tt s').2.2.1)) ->
  node_wf (f_own ((mod_node g ≫= k) s).2.2.1).
Proof. intros Hg Hk. destruct s as [r [f u]]. by apply Hk. Qed.

Lemma start_own config send deliver event :
  stable (@own node_t U node_wf_moves) (start_reliable config (rel_env send deliver event)).
Proof.
  unfold start_reliable, local_mac. cbn zeta.
  repeat (stable_step || solve [eauto with stable nocore]).
  all: try (apply mod_fac_own; intros f Hf; exact Hf).
Qed.

Context {NL : NodeLaws U NE}.

Lemma session_own : stable (own node_wf_moves) (new_session_locked (U := U)).
Proof.
  intros s Hs. unfold new_session_locked. apply (at_os _ _ is_u32); [apply random_is|].
  intros r u Hr. cbn. by apply new_session_wf.
Qed.

Lemma bump_seq_wf ch n :
  node_wf n ->
  node_wf (n <| s_tunnel_tx ::= alter (fun t => t <| tt_next_seq ::= fun s => u32 (s + 1) |>) ch |>).
Proof.
  intros H. apply alter_tx_wf; [done|]. intros t _ [Hl Hn Hs]. split; try done. apply u32_is.
Qed.

(** Between reading the session and storing the packet nothing else happens. *)
Lemma tunnel_own ch inner :
  0 <= ch -> stable (own node_wf_moves) (mesh_v2_node_ready (U := U)) ->
  stable (own node_wf_moves) (send_tunnel_packet ch inner true).
Proof.
  intros Hc Hr. unfold send_tunnel_packet. cbn zeta.
  destruct (_ || _) eqn:Eg; [refine (stable_ret _ _)|].
  apply orb_false_iff in Eg as [Eg _]. apply orb_false_iff in Eg as [_ Ei].
  apply Z.ltb_ge in Ei.
  apply stable_bind; [apply _|exact Hr|intros [|]]; [|refine (stable_ret _ _)].
  intros s Hs. cbn [negb when]. unfold local_mac.
  apply (at_os _ _ mac_addr); [apply local_mac_is|]. intros origin u Ho.
  apply at_get_node; [|exact Hs]. clear s Hs u. intros s Hs.
  set (seq := tt_next_seq (tunnel_tx_at (f_own s.2.1) ch)).
  assert (Hq : is_u32 seq) by (by apply next_seq_u32).
  clearbody seq. apply at_mod_node; [by apply bump_seq_wf|]. clear s Hs. intros s Hs.
  apply (at_os _ _ mac_addr); [apply local_mac_is|]. intros mac u Hm.
  apply at_get_node; [|exact Hs]. clear s Hs u. intros s Hs.
  apply at_mod_node; [|intros s'; exact (os_own node_wf_moves _ s')].
  apply tunnel_ring_store_wf; try done. exists mac, origin, inner. done.
Qed.

#[export] Instance node_step_own `{!HooksMove NE (own node_wf_moves)} :
  NodeStep (own node_wf_moves).
Proof.
  split; try apply _.
  - intros. apply os_own, _.
  - apply start_own.
  - intros f Hf. apply mod_own_own. intros x Hx. exact (node_wf_core _ _ (Hf _) Hx).
  - apply session_own.
  - intros k f Hf. apply mod_own_own. intros x Hx.
    apply (node_wf_core _ (f (f_own x)) (Hf _)) in Hx. destruct Hx. split; try done.
    cbn. unfold setter, ring_ack. by apply Forall_clear_if.
  - intros ch k f Hf. apply mod_own_own. intros x Hx. apply tunnel_ring_ack_wf.
    by apply (node_wf_core _ (f (f_own x)) (Hf _)).
  - intros i rx f Hf. apply mod_own_own. intros x Hx. cbn. unfold setter.
    eapply node_wf_core; [apply Hf|]. destruct Hx. split; try done. cbn. unfold setter.
    by rewrite length_insert.
  - intros i op st res. apply mod_own_own. intros x Hx. by apply cache_store_wf.
  - apply mod_own_own. intros x Hx. by apply cache_clear_wf.
  - intros A null m [_ Hm]. apply on_rel_own; [apply _|].
    intros s Hs. specialize (Hm s). unfold along in Hm. by rewrite <- Hm.
  - apply tunnel_own.
Qed.
End Reach.

(** ** Reachability *)

Section Calls.
Context {U : Type} {NC : NodeConfig} {RK : RelKconfig} {NE : NodeEnv U}.

(** The entry points of the file that change its state, and a round of its task. *)
Inductive node_call :=
  | Call_init (tag : bytes)
  | Call_connected
  | Call_disconnected
  | Call_set_root (mac : option bytes)
  | Call_forget_root
  | Call_relay (eligible : bool)
  | Call_capabilities (caps : Z)
  | Call_topology_update (parent root : option bytes) (layer max_layer rssi children : Z)
  | Call_diagnostics (diag : option mesh_v2_node_diag_t)
  | Call_phase (phase : Z)
  | Call_kick
  | Call_hello (reset : bool)
  | Call_nodeinfo
  | Call_log_line (line : bytes)
  | Call_topology
  | Call_memory
  | Call_sensor (snapshot : mesh_v2_sensor_snapshot_payload_t)
  | Call_ota_status (status : mesh_v2_ota_status_payload_t)
  | Call_event (command_id : Z) (txt : bytes)
  | Call_ota_v3 (pb : Nanopb) (message : OtaMeshMessage)
  | Call_health
  | Call_rx (from packet : bytes)
  | Call_poll.

Definition run_node (call : node_call) : Fac node_t U unit :=
  match call with
  | Call_init tag => mesh_v2_node_init tag
  | Call_connected => mesh_v2_node_on_mesh_connected
  | Call_disconnected => mesh_v2_node_on_mesh_disconnected
  | Call_set_root mac => mesh_v2_node_set_root_mac mac
  | Call_forget_root => mesh_v2_node_forget_root
  | Call_relay eligible => mesh_v2_node_set_relay_eligible eligible
  | Call_capabilities caps => mesh_v2_node_enable_capabilities caps
  | Call_topology_update parent root layer max_layer rssi children =>
      mesh_v2_node_update_topology parent root layer max_layer rssi children
  | Call_diagnostics diag => mesh_v2_node_update_diagnostics diag
  | Call_phase phase => mesh_v2_node_set_recovery_phase phase
  | Call_kick => mesh_v2_node_kick_root
  | Call_hello reset => discard (mesh_v2_node_force_hello reset)
  | Call_nodeinfo => discard mesh_v2_node_send_nodeinfo
  | Call_log_line line => discard (mesh_v2_node_send_log_line line)
  | Call_topology => discard mesh_v2_node_send_topology
  | Call_memory => discard mesh_v2_node_send_memory
  | Call_sensor snapshot => discard (mesh_v2_node_send_sensor_snapshot snapshot)
  | Call_ota_status status => discard (mesh_v2_node_send_ota_status status)
  | Call_event command_id txt => discard (mesh_v2_node_send_event command_id txt)
  | Call_ota_v3 pb message => discard (@mesh_v2_node_send_ota_v3_message _ _ pb message)
  | Call_health => discard mesh_v2_node_root_health
  | Call_rx from packet => discard (mesh_v2_node_handle_rx from packet)
  | Call_poll => rel_poll_task
  end.

Definition facade_zero {X : Type} (x : X) : facade X :=
  {| f_lock := false; f_task := false; f_own := x |}.

(** From the static initialisers, any sequence of calls; between two calls the world
    moves on its own. *)
Inductive node_reachable : fstate node_t U -> Prop :=
  | node_boot u : node_reachable (None, (facade_zero node_zero, u))
  | node_called s call : node_reachable s -> node_reachable (run_node call s).2
  | node_world r f u u' : node_reachable (r, (f, u)) -> node_reachable (r, (f, u')).

Lemma discard_stable {A} (T : relation (fstate node_t U)) `{!PreOrder T} (m : Fac node_t U A) :
  stable T m -> stable T (discard m).
Proof. intros H. unfold discard. apply stable_bind; [apply _|done|]. intros _. apply stable_ret, _. Qed.

Lemma run_node_stable (T : relation (fstate node_t U)) `{!NodeStep T} call :
  (forall from packet,
     stable T (on_rel ESP_ERR_INVALID_STATE (@keemash_rel_handle_rx _ node_env from packet))) ->
  stable T (on_rel tt (@keemash_rel_poll _ node_env)) ->
  stable T (run_node call).
Proof.
  intros Hrx Hpoll. destruct call; cbn [run_node]; try (apply discard_stable; [apply _|]).
  - apply step_init, _.
  - apply step_connected, _.
  - apply step_disconnected, _.
  - apply step_set_root, _.
  - apply step_forget, _.
  - apply step_relay, _.
  - apply step_enable, _.
  - apply step_update_topology, _.
  - apply step_diagnostics, _.
  - apply step_phase, _.
  - apply step_recover, _.
  - apply step_send_hello, _.
  - apply step_nodeinfo, _.
  - apply step_log_line, _.
  - apply step_topology, _.
  - apply step_memory, _.
  - apply step_sensor, _.
  - apply step_ota_status, _.
  - apply step_event, _.
  - apply step_ota_v3_message, _.
  - apply step_health, _.
  - by apply step_handle_rx.
  - by apply step_poll.
Qed.

Context {NL : NodeLaws U NE} `{!HooksMove NE (keeps fac_wf)} `{!HooksMove NE (own node_wf_moves)}.

(** The node's callbacks keep the core's invariant: the core's theorem about its
    reachable contexts applies to a core run by this facade. *)
#[export] Instance node_env_keeps : @CbKeeps (facade node_t * U) node_env.
Proof.
  apply rel_env_keeps.
  - intros dst packet. apply os_wf.
  - intros mac ch payload stream. apply step_deliver, _.
  - intros. apply stable_ret, _.
Qed.

#[export] Instance node_env_along :
  @CbAlong (facade node_t * U) node_env (fun w w' => node_wf_moves w.1 w'.1).
Proof.
  apply (rel_env_along node_wf_moves).
  - intros dst packet. apply os_own, _.
  - intros. apply stable_ret, _.
Qed.

#[export] Instance node_env_deliver :
  @CbDeliverAlong (facade node_t * U) node_env (fun w w' => node_wf_moves w.1 w'.1).
Proof. apply (rel_env_deliver node_wf_moves). intros. apply step_deliver, _. Qed.

Lemma run_node_fac_wf call : stable (keeps fac_wf) (run_node call).
Proof.
  apply run_node_stable; [apply _| |].
  - intros from packet. apply on_rel_wf, handle_rx_pres.
  - apply on_rel_wf, poll_pres.
Qed.

Lemma run_node_own call : stable (own node_wf_moves) (run_node call).
Proof.
  apply run_node_stable; [apply _| |].
  - intros from packet. apply on_rel_own; [apply _|]. apply handle_rx_along; apply _.
  - apply on_rel_own; [apply _|]. apply poll_along; apply _.
Qed.

Lemma reachable_node_fac s : node_reachable s -> fac_wf s.
Proof.
  induction 1 as [u|s call _ IH|r f u u' _ IH]; [done|by apply run_node_fac_wf|done].
Qed.

Lemma reachable_node_wf s : node_reachable s -> node_wf (f_own s.2.1).
Proof.
  induction 1 as [u|s call _ IH|r f u u' _ IH]; [apply node_zero_wf|by apply run_node_own|done].
Qed.

(** C7: in every state the node can reach, with deliveries that send and hooks that call
    back, the reliable context satisfies the core's invariant, the tunnel's replay slots
    hold complete packets of the current session at the place of their sequence number,
    the legacy replay ring is empty, and the command cache has its 32 slots. *)
Theorem node_states s :
  node_reachable s -> fac_wf s /\ node_wf (f_own s.2.1).
Proof.
  intros H. split; [by apply reachable_node_fac|by apply reachable_node_wf].
Qed.
End Calls.
