(* ===== verification/NodeProps.v ===== *)
(** * The node facade: properties

    Commands run once while the record of commands is kept, tunnel packets are delivered in order, a missing packet is
    replayed as it was stored or reported lost, packets of others are ignored, and
    the arithmetic of the task reports. *)

From S2P Require Import Prelude.
From S2P Require Import Words.
From S2P Require Import Esp.
From S2P Require Import Rtos.
From S2P Require Import MeshProto.
From S2P Require Import MeshProtoV1.
From S2P Require Import MeshProtoV2.
From S2P Require Import MeshWire.
From S2P Require Import RelState.
From S2P Require Import RelOps.
From S2P Require Import RelInv.
From S2P Require Import RelFrame.
From S2P Require Import Facade.
From S2P Require Import FacadeInv.
From S2P Require Import NodeState.
From S2P Require Import Node.
From S2P Require Import NodeInv.
From S2P Require Import NodeReach.
#[local] Open Scope Z_scope.

(** ** Receiving a tunnel channel *)

(** What is delivered, and each answer with the number expected when it was given. *)
Fixpoint tunnel_arrivals (seqs : list Z) (rx : tunnel_rx_channel_t)
  : list Z * list (tunnel_answer * Z) * tunnel_rx_channel_t :=
  match seqs with
  | [] => ([], [], rx)
  | seq :: seqs =>
      let '(v, rx) := tunnel_receive seq rx in
      let '(delivered, answers, rx') := tunnel_arrivals seqs rx in
      (if tv_deliver v then seq :: delivered else delivered, 
       (tv_answer v, tr_expected_seq rx) :: answers, rx')
  end.

(** One packet: it is delivered exactly when it is the expected one, and the answer
    tells the sender where the receiver stands. *)
Lemma tunnel_receive_spec seq rx v rx' :
  tunnel_receive seq rx = (v, rx') -> 0 <= tr_expected_seq rx < UINT32_MAX ->
  1 <= tr_expected_seq rx ->
  tv_deliver v = (seq =? tr_expected_seq rx) /\
  tr_expected_seq rx' = tr_expected_seq rx + (if tv_deliver v then 1 else 0) /\
  (tv_answer v = TunnelAck (tr_expected_seq rx' - 1) \/
   tv_answer v = TunnelNack (tr_expected_seq rx')).
Proof.
  intros H Hr H1. unfold tunnel_receive, UINT32_MAX in *.
  set (r := if tr_highest_seen_seq rx <? seq then _ else rx) in H.
  assert (Hx : tr_expected_seq r = tr_expected_seq rx) by (unfold r; by split_if).
  rewrite Hx in H. clearbody r. destruct (seq =? tr_expected_seq rx) eqn:E.
  - apply Z.eqb_eq in E as ->.
    assert (Hn : u32 (tr_expected_seq rx + 1) = tr_expected_seq rx + 1) by words.
    revert H. cbn [set_field setter tr_expected_seq tr_highest_seen_seq]. rewrite Hn.
    split_if; intros [= <- <-]; cbn; split_and!; try done; [by right|].
    left. f_equal. lia.
  - destruct (seq <? tr_expected_seq rx); injection H as <- <-; cbn;
      rewrite Hx, Z.add_0_r; split_and!; try done; [left; f_equal; words|by right].
Qed.

Lemma tunnel_arrivals_spec seqs rx :
  1 <= tr_expected_seq rx -> tr_expected_seq rx + Z.of_nat (length seqs) < UINT32_MAX ->
  let '(delivered, answers, rx') := tunnel_arrivals seqs rx in
  delivered = seqZ (tr_expected_seq rx) (Z.of_nat (length delivered)) /\
  tr_expected_seq rx' = tr_expected_seq rx + Z.of_nat (length delivered) /\
  Forall (fun '(a, e) => a = TunnelAck (e - 1) \/ a = TunnelNack e) answers.
Proof.
  revert rx. induction seqs as [|seq seqs IH]; intros rx H1 Hl; cbn [tunnel_arrivals].
  { cbn. split_and!; [done|lia|constructor]. }
  destruct (tunnel_receive seq rx) as [v rx1] eqn:Ev. cbn [length] in Hl.
  destruct (tunnel_receive_spec _ _ _ _ Ev) as (Hd & He & Ha); [lia|done|].
  specialize (IH rx1 ltac:(destruct (tv_deliver v); lia) ltac:(destruct (tv_deliver v); lia)).
  destruct (tunnel_arrivals seqs rx1) as [[delivered answers] rx2].
  destruct IH as (IH1 & IH2 & IH3). split_and!.
  - destruct (tv_deliver v); [|by rewrite He, Z.add_0_r in IH1].
    symmetry in Hd. apply Z.eqb_eq in Hd as ->. cbn [length].
    rewrite Nat2Z.inj_succ, seqZ_cons by lia. f_equal.
    rewrite He in IH1. rewrite IH1 at 1. f_equal; lia.
  - destruct (tv_deliver v); cbn [length]; lia.
  - by constructor.
Qed.

(** C17: whatever arrives on a tunnel channel, in any order and with any repetition, the
    node delivers the sequence numbers 1, 2, 3, ... each once and in order, and every
    answer acknowledges all that was delivered so far, or asks for the next one. *)
Theorem tunnel_in_order seqs delivered answers rx :
  Z.of_nat (length seqs) < UINT32_MAX - 1 ->
  tunnel_arrivals seqs tunnel_rx_fresh = (delivered, answers, rx) ->
  delivered = seqZ 1 (Z.of_nat (length delivered)) /\
  tr_expected_seq rx = 1 + Z.of_nat (length delivered) /\
  Forall (fun '(a, e) => a = TunnelAck (e - 1) \/ a = TunnelNack e) answers.
Proof.
  intros Hl E. pose proof (tunnel_arrivals_spec seqs tunnel_rx_fresh) as H.
  rewrite E in H. apply H; cbn; unfold UINT32_MAX in *; lia.
Qed.

(** ** Replays *)

Lemma tunnel_payload_len channel seq origin inner :
  mac_addr origin ->
  length (encode_tunnel_hdr
    (tunnel_hdr_to_root channel seq (Z.of_nat (length inner)) origin) ++ inner)
  = (36 + length inner)%nat.
Proof. intros [H _]. by rewrite length_app, length_encode_tunnel_hdr. Qed.

Lemma v2_hdr_packet_ok type flags session seq ack mac payload :
  is_u8 type -> is_u8 flags -> is_u32 session -> is_u32 seq -> is_u32 ack -> mac_addr mac ->
  Z.of_nat (length payload) <= MESH_V2_PAYLOAD_MAX ->
  v2_packet_ok (v2_hdr type flags session seq ack mac payload) payload.
Proof.
  unfold MESH_V2_PAYLOAD_MAX. intros. unfold v2_packet_ok, hdr_ok, v2_hdr.
  cbn [h_magic h_version h_type h_flags h_session_id h_seq h_ack_seq h_payload_len h_src_mac
       h_crc16]. unfold MESH_V2_PAYLOAD_MAX. split_and!; try done; try lia; words.
Qed.

Lemma drop_seal h payload :
  length (h_src_mac h) = 6%nat -> drop sizeof_hdr (seal h payload) = payload.
Proof. intros H. unfold seal. apply drop_app_length'. by rewrite length_encode_hdr. Qed.

Lemma decode_seal h payload : hdr_ok h -> decode_hdr (seal h payload) = seal_hdr h payload.
Proof. intros H. apply decode_encode_hdr, seal_hdr_ok, H. Qed.

(** Sealing does not read the old CRC. *)
Lemma seal_again h payload payload' : seal (seal_hdr h payload) payload' = seal h payload'.
Proof. done. Qed.

Lemma mac_zero_is : mac_addr mac_zero_addr.
Proof. split; [done|]. by repeat (constructor; [done|]). Qed.

Lemma tunnel_hdr_to_root_ok channel seq n origin :
  0 <= channel <= MESH_V2_TUNNEL_CHANNEL_MAX -> is_u32 seq ->
  0 <= n <= MESH_V2_TUNNEL_INNER_MAX -> mac_addr origin ->
  tunnel_hdr_ok (tunnel_hdr_to_root channel seq n origin).
Proof.
  unfold MESH_V2_TUNNEL_CHANNEL_MAX, MESH_V2_TUNNEL_INNER_MAX. intros.
  unfold tunnel_hdr_ok, tunnel_hdr_to_root. cbn. split_and!; try done; try words. apply mac_zero_is.
Qed.

(** A tunnel packet as the receiver reads it. *)
Lemma tunnel_packet_read flags session channel seq mac origin inner :
  is_u8 flags -> is_u32 session -> 0 <= channel <= MESH_V2_TUNNEL_CHANNEL_MAX ->
  is_u32 seq -> mac_addr mac -> mac_addr origin ->
  Z.of_nat (length inner) <= MESH_V2_TUNNEL_INNER_MAX ->
  let t := (tunnel_hdr_to_root channel seq (Z.of_nat (length inner)) origin)
             <| tu_flags := flags |> in
  let payload := encode_tunnel_hdr t ++ inner in
  let h := v2_hdr MESH_V2_TYPE_TUNNEL_DATA 0 session 0 0 mac payload in
  packet_valid (seal h payload) = Some (seal_hdr h payload, payload) /\
  decode_tunnel_hdr payload = t /\ drop sizeof_tunnel_hdr payload = inner.
Proof.
  intros Hf Hs Hc Hq Hm Ho Hi t payload h.
  assert (Ht : tunnel_hdr_ok t).
  { pose proof (tunnel_hdr_to_root_ok channel seq (Z.of_nat (length inner)) origin
      Hc Hq ltac:(lia) Ho) as H. unfold tunnel_hdr_ok in *. unfold t.
    cbn [set_field setter tu_channel_id tu_flags tu_ttl tu_fragment_count tu_payload_len
      tu_fragment_index tu_stream_id tu_seq tu_ack_seq tu_sack_bitmap tu_origin_mac
      tu_target_mac]. tauto. }
  assert (Hl : length (encode_tunnel_hdr t) = 36%nat).
  { apply length_encode_tunnel_hdr; [apply Ho|done]. }
  split_and!.
  - apply packet_valid_seal, v2_hdr_packet_ok; try done.
    unfold payload. rewrite length_app, Hl. unfold MESH_V2_TUNNEL_INNER_MAX in Hi.
    unfold MESH_V2_PAYLOAD_MAX. lia.
  - by apply decode_encode_tunnel_hdr.
  - unfold payload. by apply drop_app_length'.
Qed.

(** The replay of a tunnel packet is the packet with the replay flag. *)
Lemma replay_tunnel_packet_eq session channel seq mac origin inner :
  is_u32 session -> mac_addr mac -> mac_addr origin ->
  Z.of_nat (length inner) <= MESH_V2_TUNNEL_INNER_MAX ->
  let payload := encode_tunnel_hdr
    ((tunnel_hdr_to_root channel seq (Z.of_nat (length inner)) origin)
       <| tu_flags := Z.lor tunnel_flags MESH_V2_TUNNEL_FLAG_REPLAY |>) ++ inner in
  replay_tunnel_packet (tunnel_packet session channel seq mac origin inner)
  = seal (v2_hdr MESH_V2_TYPE_TUNNEL_DATA 0 session 0 0 mac payload) payload.
Proof.
  intros Hs Hm Ho Hi payload. unfold replay_tunnel_packet, tunnel_packet.
  set (t := tunnel_hdr_to_root _ _ _ _). set (p0 := encode_tunnel_hdr t ++ inner).
  set (h := v2_hdr _ _ _ _ _ _ p0).
  assert (Hl : Z.of_nat (length p0) <= MESH_V2_PAYLOAD_MAX).
  { unfold p0, t. rewrite (tunnel_payload_len channel seq origin inner Ho).
    unfold MESH_V2_TUNNEL_INNER_MAX in Hi. unfold MESH_V2_PAYLOAD_MAX. lia. }
  assert (Hh : v2_packet_ok h p0) by (by apply v2_hdr_packet_ok).
  rewrite drop_seal by apply Hm. rewrite decode_seal by apply Hh. rewrite seal_again.
  assert (Hp : splice 1 [Z.lor (get_u8 p0 1) MESH_V2_TUNNEL_FLAG_REPLAY] p0 = payload) by done.
  by rewrite Hp.
Qed.

(** ** Answers to a report of a missing packet *)

Section Answers.
Context {U : Type} {NC : NodeConfig} {RK : RelKconfig} {NE : NodeEnv U} {NL : NodeLaws U NE}.

(** The facade sent [packet] to the root, last of all. *)
Definition sent_last (m : Fac node_t U unit) (packet : bytes) (s : fstate node_t U) : Prop :=
  exists u, (m s).2.2.2 = (keemash_mesh_transport_send mac_zero_addr packet u).2.

Lemma ring_copy_Some size seq ring packet :
  ring_copy size seq ring = Some packet ->
  exists s, ring !! ring_index size seq = Some s /\ rp_used s = true /\ rp_seq s = seq /\
            rp_bytes s = packet.
Proof.
  unfold ring_copy. rewrite nth_lookup. destruct (ring !! _) as [s|]; cbn; [|done].
  destruct (rp_used s) eqn:Eu; cbn; [|done]. destruct (rp_seq s =? seq) eqn:Es; [|done].
  intros [= <-]. apply Z.eqb_eq in Es. eauto.
Qed.

(** What the ring of a well-formed node gives back is the packet with that number. *)
Lemma tunnel_ring_copy_frame n channel seq packet :
  node_wf n -> 0 <= channel -> tunnel_ring_copy channel seq n = Some packet ->
  tunnel_channel_ok channel = true /\ tunnel_frame (s_session_id n) channel seq packet.
Proof.
  intros Hn Hc. unfold tunnel_ring_copy. destruct (tunnel_channel_ok channel) eqn:Eo; [|done].
  intros H. split; [done|]. apply ring_copy_Some in H as (s & Hs & Hu & <- & <-).
  unfold tunnel_tx_at in Hs. rewrite nth_lookup in Hs.
  destruct (s_tunnel_tx n !! Z.to_nat channel) as [t|] eqn:Et; cbn in Hs;
    [|by apply lookup_replicate in Hs as [-> _]].
  destruct (tw_slots _ _ _ (nw_tx _ Hn _ _ Et) _ _ Hs Hu) as [_ H].
  by rewrite Z2Nat.id in H.
Qed.

(** The packets the facade sends of itself. *)
Lemma run_send_packet type payload r (f : facade node_t) u :
  packet_too_long payload = false ->
  send_packet type payload false (r, (f, u)) =
  let '(mac, u) := keemash_mesh_get_local_mac u in
  os (keemash_mesh_transport_send mac_zero_addr
       (seal (v2_hdr type 0 (s_session_id (f_own f)) 0 0 mac payload) payload)) (r, (f, u)).
Proof.
  intros H. unfold send_packet. rewrite H, run_ret. cbn [negb]. unfold local_mac.
  rewrite run_os. unfold get_node. rewrite run_own. cbn [when].
  destruct (keemash_mesh_get_local_mac u). by rewrite !run_ret.
Qed.

Lemma run_send_tunnel_lost channel missing_seq r (f : facade node_t) u :
  exists u1 origin mac, mac_addr origin /\ mac_addr mac /\
  send_tunnel_lost channel missing_seq (r, (f, u)) =
  (let payload := encode_tunnel_nack {| tk_channel_id := channel;
     tk_missing_seq := missing_seq; tk_origin_mac := origin; tk_target_mac := mac_zero_addr |} in
   os (keemash_mesh_transport_send mac_zero_addr
     (seal (v2_hdr MESH_V2_TYPE_TUNNEL_LOST 0 (s_session_id (f_own f)) 0 0 mac payload) payload))
    (r, (f, u1))).
Proof.
  unfold send_tunnel_lost, send_tunnel_control_packet, local_mac. rewrite run_os.
  pose proof (local_mac_is u) as Ho. set (origin := (keemash_mesh_get_local_mac u).1) in *.
  set (u0 := (keemash_mesh_get_local_mac u).2). rewrite run_send_packet.
  2:{ unfold packet_too_long. rewrite length_encode_tunnel_nack by (done || apply Ho). done. }
  pose proof (local_mac_is u0) as Hm.
  destruct (keemash_mesh_get_local_mac u0) as [mac u1] eqn:Em.
  exists u1, origin, mac. done.
Qed.

(** The report of a lost tunnel packet, as the root reads it. *)
Definition lost_report (session_id channel missing_seq : Z) (packet : bytes) : Prop :=
  exists h payload, packet_valid packet = Some (h, payload) /\ h_session_id h = session_id /\
    h_type h = MESH_V2_TYPE_TUNNEL_LOST /\
    tk_channel_id (decode_tunnel_nack payload) = channel /\
    tk_missing_seq (decode_tunnel_nack payload) = missing_seq.

Lemma send_tunnel_lost_report channel missing_seq (s : fstate node_t U) :
  is_u8 channel -> is_u32 missing_seq -> is_u32 (s_session_id (f_own s.2.1)) ->
  exists packet, lost_report (s_session_id (f_own s.2.1)) channel missing_seq packet /\
    sent_last (_ ← send_tunnel_lost channel missing_seq; mret tt) packet s.
Proof.
  destruct s as [r [f u]]. cbn [fst snd]. intros Hch Hsq Hse.
  destruct (run_send_tunnel_lost channel missing_seq r f u) as (u1 & origin & mac & Ho & Hm & Hrun).
  eexists. split.
  2:{ exists u1. rewrite bind_eq, Hrun. cbn zeta. by rewrite os_run. }
  eexists _, _. split.
  { apply packet_valid_seal, v2_hdr_packet_ok; try done.
    rewrite length_encode_tunnel_nack by (done || apply Ho). done. }
  split; [done|]. split; [done|].
  rewrite <- (app_nil_r (encode_tunnel_nack _)).
  by rewrite decode_encode_tunnel_nack by (done || apply Ho).
Qed.

(** The handler on a current report: the statistics and the link state aside, it looks the
    number up and sends one packet. *)
Lemma tunnel_nack_run h payload r (f : facade node_t) u :
  h_session_id h = s_session_id (f_own f) ->
  Z.of_nat sizeof_tunnel_nack <= h_payload_len h ->
  let p := decode_tunnel_nack payload in
  exists f' u', s_session_id (f_own f') = s_session_id (f_own f) /\
  handle_tunnel_nack h payload (r, (f, u)) =
  match tunnel_ring_copy (tk_channel_id p) (tk_missing_seq p) (f_own f) with
  | Some stored => (_ ← send_raw_to_root (replay_tunnel_packet stored); mret tt) (r, (f', u'))
  | None => (_ ← send_tunnel_lost (tk_channel_id p) (tk_missing_seq p); mret tt) (r, (f', u'))
  end.
Proof.
  intros Hs Hl p. unfold handle_tunnel_nack. rewrite (proj2 (Z.ltb_ge _ _) Hl). cbn zeta.
  unfold get_node, mod_node, ms_now. rewrite run_own, Hs, Z.eqb_refl.
  rewrite bind_assoc, run_os, bind_assoc, run_mod, bind_assoc, run_own, bind_assoc, run_mod.
  rewrite run_ret. fold p.
  change (tunnel_ring_copy (tk_channel_id p) (tk_missing_seq p) (f_own _))
    with (tunnel_ring_copy (tk_channel_id p) (tk_missing_seq p) (f_own f)).
  destruct (tunnel_ring_copy _ _ _); eexists _, _; (split; [|reflexivity]); done.
Qed.

(** A report of a missing tunnel packet of the current session is answered by one
    packet to the root: the stored one with the replay flag (its CRC anew, its tunnel
    header and payload as they were sent), or, when the slot holds another packet, a LOST
    with the channel and the number.  Either way the root's validator accepts it. *)
Theorem tunnel_nack_answered h payload (s : fstate node_t U) :
  node_wf (f_own s.2.1) -> are_bytes payload ->
  h_session_id h = s_session_id (f_own s.2.1) ->
  Z.of_nat sizeof_tunnel_nack <= h_payload_len h ->
  let p := decode_tunnel_nack payload in
  exists packet h' payload',
    sent_last (handle_tunnel_nack h payload) packet s /\
    packet_valid packet = Some (h', payload') /\
    h_session_id h' = s_session_id (f_own s.2.1) /\
    match tunnel_ring_copy (tk_channel_id p) (tk_missing_seq p) (f_own s.2.1) with
    | Some stored =>
        h_type h' = MESH_V2_TYPE_TUNNEL_DATA /\
        tu_seq (decode_tunnel_hdr payload') = tk_missing_seq p /\
        exists h0 payload0, packet_valid stored = Some (h0, payload0) /\
          decode_tunnel_hdr payload' = (decode_tunnel_hdr payload0)
            <| tu_flags ::= fun f => Z.lor f MESH_V2_TUNNEL_FLAG_REPLAY |> /\
          drop sizeof_tunnel_hdr payload' = drop sizeof_tunnel_hdr payload0
    | None =>
        h_type h' = MESH_V2_TYPE_TUNNEL_LOST /\
        tk_channel_id (decode_tunnel_nack payload') = tk_channel_id p /\
        tk_missing_seq (decode_tunnel_nack payload') = tk_missing_seq p
    end.
Proof.
  intros Hwf Hb Hs Hl p. destruct s as [r [f u]]. cbn [fst snd] in *.
  assert (Hch : is_u8 (tk_channel_id p)) by (by apply get_le_u8).
  assert (Hsq : is_u32 (tk_missing_seq p)) by (by apply get_le_u32).
  assert (Hc0 : 0 <= tk_channel_id p) by apply Hch.
  destruct (tunnel_nack_run h payload r f u Hs Hl) as (f' & u' & Hs' & Hrun). fold p in Hrun.
  unfold sent_last. rewrite Hrun. clear Hrun. pose proof (nw_session _ Hwf) as Hse.
  destruct (tunnel_ring_copy _ _ _) as [stored|] eqn:Ec.
  - destruct (tunnel_ring_copy_frame _ _ _ _ Hwf Hc0 Ec)
      as (Hok & mac & origin & inner & Hm & Ho & Hi & Hq & ->).
    unfold tunnel_channel_ok in Hok. bools.
    rewrite replay_tunnel_packet_eq by done.
    pose proof (tunnel_packet_read tunnel_flags _ _ _ _ _ _ ltac:(done) Hse ltac:(done) Hq Hm Ho Hi)
      as Hst.
    pose proof (tunnel_packet_read (Z.lor tunnel_flags MESH_V2_TUNNEL_FLAG_REPLAY)
      _ _ _ _ _ _ ltac:(done) Hse ltac:(done) Hq Hm Ho Hi) as Hre.
    cbn zeta in Hst, Hre. destruct Hst as (Hst1 & Hst2 & Hst3).
    destruct Hre as (Hre1 & Hre2 & Hre3).
    eexists _, _, _. split.
    { exists u'. rewrite bind_eq. unfold send_raw_to_root. by rewrite os_run. }
    split; [exact Hre1|]. split; [done|]. split; [done|]. split; [by rewrite Hre2|].
    eexists _, _. split; [exact Hst1|]. rewrite Hre2, Hst2, Hre3, Hst3. done.
  - destruct (send_tunnel_lost_report (tk_channel_id p) (tk_missing_seq p) (r, (f', u')) Hch Hsq)
      as (packet & (h' & payload' & Hv & Hh & Ht & Hp) & Hsent); [cbn [fst snd]; by rewrite Hs'|].
    exists packet, h', payload'. split; [exact Hsent|]. split; [done|]. cbn [fst snd] in Hh.
    by rewrite Hh, Hs'.
Qed.
End Answers.

(** ** Commands *)

(** The same command cache. *)
Definition same_cache : relation (facade node_t) := fun f f' =>
  s_command_cache (f_own f') = s_command_cache (f_own f) /\
  s_command_cache_next (f_own f') = s_command_cache_next (f_own f).
#[export] Instance same_cache_preorder : PreOrder same_cache.
Proof. split; [done|]. intros a b c [H1 H2] [H3 H4]. split; congruence. Qed.

(** The cache remembers [slot] at [p], [d] commands ago. *)
Record remembers (slot : command_cache_t) (p d : nat) (n : node_t) : Prop := {
  rm_len : length (s_command_cache n) = COMMAND_CACHE_SIZE;
  rm_next : is_u8 (s_command_cache_next n);
  rm_place : (Z.to_nat (s_command_cache_next n) mod COMMAND_CACHE_SIZE)%nat
             = ((p + d) mod COMMAND_CACHE_SIZE)%nat;
  rm_at : s_command_cache n !! p = Some slot;
  rm_only : forall j c, s_command_cache n !! j = Some c -> j <> p ->
    command_matches (cc_command_id slot) (cc_operation_id slot) c = false }.

Lemma operation_id_eq_sym a b : operation_id_eq a b = operation_id_eq b a.
Proof. unfold operation_id_eq. by rewrite (Z.eqb_sym (op_high a)), (Z.eqb_sym (op_low a)). Qed.

(** Two commands that would answer each other have the same identity. *)
Lemma command_matches_sym i op st r i' op' st' r' :
  command_matches i op (command_slot i' op' st' r')
  = command_matches i' op' (command_slot i op st r).
Proof.
  unfold command_matches, command_slot. cbn. destruct op as [a|], op' as [b|]; try done.
  - apply operation_id_eq_sym.
  - apply Z.eqb_sym.
Qed.

Lemma command_matches_refl i op st r : command_matches i op (command_slot i op st r) = true.
Proof.
  unfold command_matches, command_slot, operation_id_eq. cbn.
  destruct op; by rewrite ?Z.eqb_refl.
Qed.

Lemma remembers_find i op st r p d n :
  remembers (command_slot i op st r) p d n ->
  command_cache_find i op (s_command_cache n) = Some (command_slot i op st r).
Proof.
  intros []. unfold command_cache_find.
  erewrite find_idx_first; [exact rm_at0|exact rm_at0|apply command_matches_refl|].
  intros j y Hj Hy. apply (rm_only0 j y Hy). lia.
Qed.

Lemma next_slot_mod z :
  is_u8 z -> (Z.to_nat (u8 (z + 1)) mod COMMAND_CACHE_SIZE)%nat
             = ((Z.to_nat z + 1) mod COMMAND_CACHE_SIZE)%nat.
Proof.
  intros H. unfold is_u8, u8, COMMAND_CACHE_SIZE in *.
  destruct (decide (z = 255)) as [->|Hne]; [done|].
  rewrite Z.mod_small by lia. f_equal. lia.
Qed.

Lemma store_cache i op st r n :
  s_command_cache (command_cache_store i op st r n)
  = <[(Z.to_nat (s_command_cache_next n) mod COMMAND_CACHE_SIZE)%nat := command_slot i op st r]>
      (s_command_cache n).
Proof. done. Qed.

Lemma store_next i op st r n :
  s_command_cache_next (command_cache_store i op st r n) = u8 (s_command_cache_next n + 1).
Proof. done. Qed.

(** A fresh command is remembered. *)
Lemma remembers_fresh i op st r n :
  length (s_command_cache n) = COMMAND_CACHE_SIZE -> is_u8 (s_command_cache_next n) ->
  command_cache_find i op (s_command_cache n) = None ->
  exists p, remembers (command_slot i op st r) p 1 (command_cache_store i op st r n) /\
            (p < COMMAND_CACHE_SIZE)%nat.
Proof.
  intros Hl Hn Hf. set (p := (Z.to_nat (s_command_cache_next n) mod COMMAND_CACHE_SIZE)%nat).
  assert (Hp : (p < COMMAND_CACHE_SIZE)%nat) by (by apply Nat.mod_upper_bound).
  exists p. split; [|done]. split; rewrite ?store_cache, ?store_next.
  - by rewrite length_insert.
  - apply u8_is.
  - rewrite next_slot_mod by done. unfold p. by rewrite Nat.Div0.add_mod_idemp_l.
  - apply list_lookup_insert_eq. by rewrite Hl.
  - intros j c Hj Hne. rewrite list_lookup_insert_ne in Hj by done.
    unfold command_cache_find in Hf. destruct (find_idx _ _) as [q|] eqn:E.
    + cbn in Hf. apply find_idx_lt in E. apply lookup_ge_None in Hf. lia.
    + by apply (find_idx_None _ _ E), list_elem_of_lookup_2 with j.
Qed.

(** Another fresh command takes another slot, for thirty-one commands. *)
Lemma remembers_store i op st r p d i' op' st' r' n :
  remembers (command_slot i op st r) p d n -> (p < COMMAND_CACHE_SIZE)%nat ->
  (1 <= d < COMMAND_CACHE_SIZE)%nat ->
  command_cache_find i' op' (s_command_cache n) = None ->
  remembers (command_slot i op st r) p (S d) (command_cache_store i' op' st' r' n).
Proof.
  intros Hr Hp Hd Hf. destruct Hr as [Hl Hn Hpl Ha Ho].
  assert (Hne : (Z.to_nat (s_command_cache_next n) mod COMMAND_CACHE_SIZE)%nat <> p).
  { rewrite Hpl. unfold COMMAND_CACHE_SIZE in *. intros E.
    destruct (decide (p + d < 32)%nat); [rewrite Nat.mod_small in E by lia; lia|].
    replace (p + d)%nat with ((p + d - 32) + 1 * 32)%nat in E by lia.
    rewrite Nat.Div0.mod_add, Nat.mod_small in E by lia. lia. }
  split; rewrite ?store_cache, ?store_next.
  - by rewrite length_insert.
  - apply u8_is.
  - rewrite next_slot_mod by done. rewrite <- Nat.Div0.add_mod_idemp_l, Hpl.
    rewrite Nat.Div0.add_mod_idemp_l. f_equal. lia.
  - by rewrite list_lookup_insert_ne.
  - intros j c Hj Hjp. apply list_lookup_insert_Some in Hj as [(<- & <- & _)|[_ Hj]]; [|eauto].
    rewrite (command_matches_sym _ _ st r). unfold command_cache_find in Hf.
    destruct (find_idx _ _) as [q|] eqn:E.
    + cbn in Hf. apply find_idx_lt in E. apply lookup_ge_None in Hf. lia.
    + by apply (find_idx_None _ _ E), list_elem_of_lookup_2 with p.
Qed.

Section Commands.
Context {U : Type} {NC : NodeConfig} {RK : RelKconfig} {NE : NodeEnv U}.
Context `{!HooksMove NE (own same_cache)}.

Lemma rel_send_own ch payload prio : stable (own same_cache) (rel_send ch payload prio).
Proof.
  unfold rel_send. apply on_rel_own; [apply _|]. intros s.
  pose proof (@send_along' _ quiet_env (fun w w' => w.1 = w'.1) quiet_along root_peer ch payload
    prio s) as H.
  unfold along in *. by rewrite <- H.
Qed.

Lemma rel_send_control_own kind i st t op :
  stable (own same_cache) (rel_send_control kind i st t op).
Proof.
  unfold rel_send_control, have_rel.
  repeat (stable_step || solve [eauto using rel_send_own with stable nocore]).
Qed.

Lemma run_command_own t : stable (own same_cache) (run_command t).
Proof.
  unfold run_command, get_node, mod_node.
  repeat (stable_step || solve [eauto with stable nocore]).
  apply mod_own_own. by intros f.
Qed.

(** The cache after a command: unchanged, or with the command's answer. *)
Lemma handle_command_cache i t op (s : fstate node_t U) :
  let n := f_own s.2.1 in
  let n' := f_own (handle_command i t op s).2.2.1 in
  match command_cache_find i op (s_command_cache n) with
  | Some cached =>
      handle_command i t op s =
        (_ ← rel_send_control_result i (cc_status cached) (cc_result cached) op; mret tt) s /\
      s_command_cache n' = s_command_cache n /\
      s_command_cache_next n' = s_command_cache_next n
  | None =>
      let m := command_cache_store i op (run_command t s).1.1 (run_command t s).1.2 n in
      s_command_cache n' = s_command_cache m /\ s_command_cache_next n' = s_command_cache_next m
  end.
Proof.
  destruct s as [r [f u]]. cbn zeta. unfold handle_command, get_node. rewrite run_own.
  cbn [fst snd]. destruct (command_cache_find i op _) as [cached|] eqn:E.
  - split; [done|]. rewrite bind_eq. apply rel_send_control_own.
  - rewrite bind_eq. pose proof (run_command_own t (r, (f, u))) as Hr.
    destruct (run_command t (r, (f, u))) as [[st res] [r' [f' u']]]. cbn [fst snd] in *.
    unfold mod_node. rewrite run_mod, bind_eq. unfold own in Hr. cbn in Hr.
    destruct Hr as [Hc Hn].
    destruct (rel_send_control_own MESH_V2_CONTROL_RESULT i st res op
      (r', (f' <| f_own ::= command_cache_store i op st res |>, u'))) as [H1 H2].
    unfold rel_send_control_result. cbn [fst snd mret ST_ret] in *.
    rewrite H1, H2. cbn. unfold setter. rewrite Hc, Hn. done.
Qed.

(** A history with [n] commands in it: the node handles them between any other steps,
    each of which leaves the record of commands alone. *)
Inductive history : nat -> relation (fstate node_t U) :=
  | history_none s : history 0 s s
  | history_command n s s' i t op :
      history n s s' -> history (S n) s (handle_command i t op s').2
  | history_other n s s' s'' : history n s s' -> own same_cache s' s'' -> history n s s''.

Lemma remembers_same slot p d n n' :
  s_command_cache n' = s_command_cache n -> s_command_cache_next n' = s_command_cache_next n ->
  remembers slot p d n -> remembers slot p d n'.
Proof. intros E1 E2 []. split; rewrite ?E1, ?E2; done. Qed.

Lemma history_remembers i op st r p n d (s s' : fstate node_t U) :
  history n s s' -> (p < COMMAND_CACHE_SIZE)%nat -> (1 <= d)%nat ->
  (d + n <= COMMAND_CACHE_SIZE)%nat ->
  remembers (command_slot i op st r) p d (f_own s.2.1) ->
  exists d', (d' <= d + n)%nat /\ (1 <= d')%nat /\
    remembers (command_slot i op st r) p d' (f_own s'.2.1).
Proof.
  intros H Hp Hd. induction H as [s|n s s' i' t' op' _ IH|n s s' s'' _ IH [H1 H2]]; intros Hl Hr.
  - exists d. split; [lia|done].
  - destruct (IH ltac:(lia) Hr) as (d' & Hle & Hd' & Hr').
    pose proof (handle_command_cache i' t' op' s') as Hc. cbn zeta in Hc.
    destruct (command_cache_find i' op' _) as [cached|] eqn:E.
    + destruct Hc as (_ & H1 & H2). exists d'. split; [lia|]. split; [done|].
      by eapply remembers_same.
    + destruct Hc as [H1 H2]. exists (S d'). split; [lia|]. split; [lia|].
      eapply remembers_same; [exact H1|exact H2|]. apply remembers_store; try done.
      unfold COMMAND_CACHE_SIZE in *. lia.
  - destruct (IH Hl Hr) as (d' & Hle & Hd' & Hr'). exists d'. split; [done|]. split; [done|].
    by eapply remembers_same.
Qed.

(** C9: a command runs at most once.  When a command the node does not remember has been
    handled, then up to thirty-one other commands between any steps that leave the record of
    commands alone, the same command (the same operation, or the same number when it has
    none) is not run again: the node only sends the answer on record, the first one's status
    and its text cut to 47 characters.  The record is cleared when the root's session
    changes and by [mesh_v2_node_forget_root]: after that the same operation does run again
    ([NodeDemo.new_session_runs_again]). *)
Theorem command_runs_once i txt txt' op n (s s2 : fstate node_t U) :
  length (s_command_cache (f_own s.2.1)) = COMMAND_CACHE_SIZE ->
  is_u8 (s_command_cache_next (f_own s.2.1)) ->
  command_cache_find i op (s_command_cache (f_own s.2.1)) = None ->
  history n (handle_command i txt op s).2 s2 -> (n < COMMAND_CACHE_SIZE)%nat ->
  let '(status, result) := (run_command txt s).1 in
  handle_command i txt' op s2
  = (_ ← rel_send_control_result i status (copy_text COMMAND_RESULT_MAX result) op; mret tt) s2.
Proof.
  intros Hl Hn Hf Hh Hc. pose proof (handle_command_cache i txt op s) as H. cbn zeta in H.
  rewrite Hf in H. destruct (run_command txt s) as [[status result] s'] eqn:Er.
  cbn [fst snd] in H |- *. destruct H as [H1 H2].
  destruct (remembers_fresh i op status result _ Hl Hn Hf) as (p & Hr & Hp).
  apply (remembers_same _ _ _ _ _ H1 H2) in Hr.
  destruct (history_remembers i op status result p n 1 _ _ Hh Hp ltac:(lia) ltac:(lia) Hr)
    as (d & _ & _ & Hd).
  apply remembers_find in Hd.
  pose proof (handle_command_cache i txt' op s2) as H. cbn zeta in H. rewrite Hd in H. apply H.
Qed.
End Commands.
