(* ===== verification/NodeLink.v ===== *)
(** * The node facade: what it accepts and what it reports

    Packets come from the bound root or are refused; a late report of a missing
    packet; the CPU loads and the task snapshots sent to the root. *)

From S2P Require Import Prelude.
From S2P Require Import Words.
From S2P Require Import Esp.
From S2P Require Import Rtos.
From S2P Require Import MeshProto.
From S2P Require Import MeshProtoV1.
From S2P Require Import MeshProtoV2.
From S2P Require Import MeshWire.
From S2P Require Import Facade.
From S2P Require Import FacadeInv.
From S2P Require Import NodeState.
From S2P Require Import Node.
From S2P Require Import NodeInv.
From S2P Require Import NodeReach.
From S2P Require Import NodeProps.
#[local] Open Scope Z_scope.

(** ** Received packets *)

Section Link.
Context {U : Type} {NC : NodeConfig} {RK : RelKconfig} {NE : NodeEnv U}.

(** C18: a packet is refused with ESP_ERR_INVALID_ARG and changes nothing, unless its
    source is the address the transport took it from, this is the bound root when one is
    bound, and it is either a packet of the reliable layer or complete and undamaged. *)
Theorem rx_only_from_root from packet (s : fstate node_t U) :
  let root := s_root_origin_mac (f_own s.2.1) in
  let h := decode_hdr packet in
  mesh_v2_node_handle_rx from packet s = (ESP_ERR_INVALID_ARG, s) \/
  (sizeof_hdr <= length packet)%nat /\ h_magic h = MESH_PKT_MAGIC /\
  h_version h = MESH_PKT_VERSION_V2 /\ mac_eq (h_src_mac h) from = true /\
  (mac_zero root = true \/ mac_eq root from = true) /\
  (is_reliable_type (h_type h) = true \/ packet_valid packet = Some (h, drop sizeof_hdr packet)).
Proof.
  cbn zeta. destruct s as [r [f u]]. cbn [fst snd]. unfold mesh_v2_node_handle_rx, get_node.
  rewrite run_own. cbn zeta. rewrite validate_packet_valid.
  set (h := decode_hdr packet). set (root := s_root_origin_mac (f_own f)).
  destruct (sizeof_hdr <=? length packet)%nat eqn:El; cbn [andb].
  2:{ left. replace (packet_valid packet) with (@None (mesh_v2_hdr_t * bytes)); [done|].
      unfold packet_valid. apply Nat.leb_gt in El. by rewrite (proj2 (Z.ltb_lt _ _)) by lia. }
  apply Nat.leb_le in El.
  destruct (mac_eq (h_src_mac h) from) eqn:Es; cbn [negb orb]; [|by left].
  destruct (mac_zero root || mac_eq root from) eqn:Er.
  2:{ apply orb_false_iff in Er as [-> ->]. by left. }
  assert (Hr : mac_zero root = true \/ mac_eq root from = true) by by apply orb_true_iff in Er.
  replace (negb (mac_zero root) && negb (mac_eq root from)) with false
    by (by destruct Hr as [-> | ->]; destruct (mac_zero root)).
  destruct (_ && _ && is_reliable_type (h_type h)) eqn:Eb.
  { right. bools. split_and!; try done. by left. }
  unfold packet_valid. rewrite (proj2 (Z.ltb_ge _ _)) by lia. cbn zeta. fold h.
  destruct (negb (h_magic h =? _) || _ || _ || _) eqn:Ev; [by left|].
  destruct (negb (packet_crc h _ =? _)) eqn:Ec; [by left|].
  right. bools. split_and!; try done. by right.
Qed.

(** A report of a missing packet that belongs to another session (a reset came in
    between) is answered too: the node reports the number as lost in its current session,
    whether or not its ring holds the packet with that number. *)
Theorem stale_nack_reports_lost {NL : NodeLaws U NE} h payload (s : fstate node_t U) :
  are_bytes payload -> is_u32 (s_session_id (f_own s.2.1)) ->
  h_session_id h <> s_session_id (f_own s.2.1) ->
  Z.of_nat sizeof_tunnel_nack <= h_payload_len h ->
  let p := decode_tunnel_nack payload in
  exists packet, sent_last (handle_tunnel_nack h payload) packet s /\
    lost_report (s_session_id (f_own s.2.1)) (tk_channel_id p) (tk_missing_seq p) packet.
Proof.
  intros Hb Hse Hs Hl p. destruct s as [r [f u]]. cbn [fst snd] in *.
  assert (Hch : is_u8 (tk_channel_id p)) by (by apply get_le_u8).
  assert (Hsq : is_u32 (tk_missing_seq p)) by (by apply get_le_u32).
  destruct (send_tunnel_lost_report (tk_channel_id p) (tk_missing_seq p) (r, (f, u)) Hch Hsq Hse)
    as (packet & Hp & Hsent). exists packet. split; [|done].
  assert (Hh : handle_tunnel_nack h payload (r, (f, u))
               = (_ ← send_tunnel_lost (tk_channel_id p) (tk_missing_seq p); mret tt) (r, (f, u))).
  { unfold handle_tunnel_nack. rewrite (proj2 (Z.ltb_ge _ _) Hl). cbn zeta. unfold get_node.
    by rewrite run_own, (proj2 (Z.eqb_neq _ _) Hs), run_ret. }
  unfold sent_last in *. by rewrite Hh.
Qed.
End Link.

(** ** CPU loads *)

Lemma scaled_x10_range part capacity :
  0 <= part -> 0 < capacity -> 0 <= scaled_x10 part capacity <= 1000.
Proof.
  intros Hp Hc. unfold scaled_x10. cbv zeta.
  assert (0 <= (part * 1000 + capacity / 2) / capacity).
  { apply Z.div_pos; [|done]. pose proof (Z.div_pos capacity 2 ltac:(lia) ltac:(lia)). lia. }
  destruct (1000 <? _) eqn:E; [lia|]. apply Z.ltb_ge in E. lia.
Qed.

Lemma run_delta_pos baseline t d : run_delta baseline t = Some d -> 0 <= d.
Proof.
  unfold run_delta. intros H. apply bind_Some in H as (i & _ & H).
  apply bind_Some in H as (e & _ & [= <-]). apply u32_is.
Qed.

(** The run time of the idle tasks adds up without overflow checks. *)
Definition idle_step (delta : TaskStatus_t -> option Z) (acc : Z) (t : TaskStatus_t) : Z :=
  match delta t with
  | Some d => if is_idle_name (pcTaskName t) then acc + d else acc
  | None => acc
  end.

Lemma idle_pos delta tasks acc :
  (forall t d, delta t = Some d -> 0 <= d) -> 0 <= acc ->
  0 <= fold_left (idle_step delta) tasks acc.
Proof.
  intros Hd. revert acc. induction tasks as [|t tasks IH]; intros acc Ha; [done|].
  cbn [fold_left]. apply IH. unfold idle_step. destruct (delta t) as [d|] eqn:E; [|done].
  specialize (Hd _ _ E). split_if; lia.
Qed.

(** Whatever the scheduler reports, overflowing counters included, a CPU sample has one
    load per task, each between 0 and 100.0 percent or the mark of an unknown one; the
    total load is between 0 and 100.0 percent, and without a baseline, without tasks or
    without elapsed time it is marked invalid and every task unknown. *)
Theorem cpu_sample_bounds cores valid baseline baseline_total total_time tasks :
  0 < cores ->
  let sample := cpu_sample cores valid baseline baseline_total total_time tasks in
  length (cs_cpu_x10 sample) = length (cs_tasks sample) /\
  0 <= cs_load_x10 sample <= 1000 /\
  Forall (fun x => x = -1 \/ 0 <= x <= 1000) (cs_cpu_x10 sample) /\
  cs_valid sample = valid && bool_decide (tasks <> [])
                    && negb (u32 (total_time - baseline_total) =? 0) /\
  (cs_valid sample = false ->
     cs_load_x10 sample = 0 /\ Forall (fun x => x = -1) (cs_cpu_x10 sample)).
Proof.
  intros Hc. unfold cpu_sample. cbv zeta. cbn [cs_valid cs_tasks cs_load_x10 cs_cpu_x10].
  set (elapsed := u32 (total_time - baseline_total)).
  assert (He : 0 <= elapsed) by apply u32_is. clearbody elapsed.
  set (cpu_valid := valid && _ && _).
  set (idle := fold_left _ tasks 0). split; [apply length_map|].
  assert (Hi : 0 <= idle).
  { apply (idle_pos (fun t => if cpu_valid then run_delta baseline t else None)); [|done].
    intros t d. destruct cpu_valid; [|done]. apply run_delta_pos. }
  assert (Hv : cpu_valid = valid && bool_decide (tasks <> []) && negb (elapsed =? 0)).
  { unfold cpu_valid. f_equal; [f_equal; by destruct tasks|]. f_equal.
    apply eq_true_iff_eq. rewrite !Z.eqb_eq. nia. }
  assert (Hp : cpu_valid = true -> 0 < elapsed * cores).
  { rewrite Hv. intros. bools. nia. }
  clearbody cpu_valid. split; [|split; [|split; [done|]]].
  - destruct cpu_valid; [|lia]. specialize (Hp eq_refl). apply scaled_x10_range; lia.
  - apply Forall_fmap, Forall_forall. intros t _. cbn.
    destruct cpu_valid; [|by left]. destruct (run_delta baseline t) as [d|] eqn:Ed; [|by left].
    right. apply scaled_x10_range; [by eapply run_delta_pos|auto].
  - intros ->. split; [done|]. by apply Forall_fmap, Forall_forall.
Qed.

(** ** Task snapshots *)

Definition snapshots (tag : bytes) (request_id updated_ms uptime : Z) `{!NodeConfig}
  (sample : cpu_sample_t) : list mesh_v2_task_snapshot_payload_t :=
  (fun start => task_snapshot tag request_id updated_ms uptime start sample) <$>
    snapshot_starts (length (cs_tasks sample)).

Lemma snapshot_count_bounds n :
  let c := Nat.max 1 ((n + 3) / MESH_V2_TASK_SNAPSHOT_MAX_ENTRIES) in
  (1 <= c)%nat /\ (n <= 4 * c)%nat /\ (c = 1%nat \/ 4 * (c - 1) < n)%nat.
Proof.
  cbn zeta. change MESH_V2_TASK_SNAPSHOT_MAX_ENTRIES with 4%nat.
  pose proof (Nat.div_mod_eq (n + 3) 4). pose proof (Nat.mod_upper_bound (n + 3) 4 ltac:(lia)).
  lia.
Qed.

(** The packets of a task snapshot carry every task of the sample once, in order, at
    most four to a packet and at least one packet; their places and the total are right,
    and exactly the last one is marked as the last. *)
Theorem snapshot_complete `{!NodeConfig} tag request_id updated_ms uptime sample :
  length (cs_cpu_x10 sample) = length (cs_tasks sample) ->
  Z.of_nat (length (cs_tasks sample)) < 65536 ->
  let packets := snapshots tag request_id updated_ms uptime sample in
  packets <> [] /\ concat (sn_tasks <$> packets) = task_entries sample /\
  forall i p, packets !! i = Some p ->
    (length (sn_tasks p) <= 4)%nat /\
    sn_task_total p = Z.of_nat (length (cs_tasks sample)) /\
    sn_task_index p = 4 * Z.of_nat i /\
    (sn_flags p = MESH_V2_TASK_SNAPSHOT_FLAG_LAST <-> i = (length packets - 1)%nat).
Proof.
  intros Hlen Hmax. cbn zeta. unfold snapshots, snapshot_starts.
  pose proof (snapshot_count_bounds (length (cs_tasks sample))) as (H1 & H2 & H3).
  set (c := Nat.max 1 _) in *. clearbody c.
  change MESH_V2_TASK_SNAPSHOT_MAX_ENTRIES with 4%nat.
  assert (He : length (task_entries sample) = length (cs_tasks sample)).
  { unfold task_entries. rewrite length_zip_with, Hlen. lia. }
  split_and!.
  - destruct c; [lia|done].
  - rewrite <- !list_fmap_compose.
    rewrite <- (concat_chunks (task_entries sample) 4 c) at 1 by lia.
    f_equal. apply list_fmap_ext. intros i j _. cbn [compose task_snapshot sn_tasks].
    by rewrite Nat2Z.id.
  - intros i p Hp. rewrite !list_lookup_fmap in Hp.
    destruct (seq 0 c !! i) as [j|] eqn:Ej; [|done]. apply lookup_seq in Ej as [-> Hi].
    cbn [fmap option_fmap option_map] in Hp. injection Hp as <-.
    rewrite !length_fmap, length_seq. cbn [task_snapshot sn_tasks sn_task_total sn_task_index sn_flags].
    rewrite Nat2Z.id, length_take, length_drop, He.
    change MESH_V2_TASK_SNAPSHOT_MAX_ENTRIES with 4%nat. split_and!.
    + lia.
    + by words.
    + words.
    + destruct (_ <=? _) eqn:E; bools; split; intros Hx; try done; try lia.
Qed.
