(* ===== verification/NodeDemo.v ===== *)
(** * The node facade on a quiet board

    Every call of the system succeeds, the clock is still, and the world is the list of
    the packets sent, newest first.  The node starts, the root answers its HELLO, and
    commands are run: the hypotheses of NodeReach, NodeProps and NodeLink can hold. *)

From S2P Require Import Prelude.
From S2P Require Import Words.
From S2P Require Import Esp.
From S2P Require Import Rtos.
From S2P Require Import MeshProto.
From S2P Require Import MeshProtoV1.
From S2P Require Import MeshProtoV2.
From S2P Require Import MeshWire.
From S2P Require Import RelState.
From S2P Require Import RelOps.
From S2P Require Import RelInv.
From S2P Require Import RelEnv.
From S2P Require Import OtaFlashEnv.
From S2P Require Import Facade.
From S2P Require Import FacadeInv.
From S2P Require Import NodeState.
From S2P Require Import Node.
From S2P Require Import NodeInv.
From S2P Require Import NodeReach.
From S2P Require Import NodeProps.
From S2P Require Import NodeLink.
#[local] Open Scope Z_scope.

Definition wire : Type := list (list Z).

Definition wire_facade : FacadeEnv wire := {|
  fac_rtos := {|
    xTaskGetTickCount := fun w => (5, w); portTICK_PERIOD_MS := 1; pdMS_TO_TICKS := fun ms => ms;
    mutex_create := fun w => (true, w); mutex_take := fun _ w => (true, w);
    queue_create := fun w => (true, w); task_create := fun w => (true, w);
    esp_err_to_name := fun _ => [69]; esp_app_project := None |};
  fac_transport := {| keemash_mesh_get_local_mac := fun w => (node_mac, w);
                      keemash_mesh_transport_send := fun _ packet w => (ESP_OK, packet :: w) |};
  fac_timer_us := fun w => (7000000, w); fac_random := fun w => (77, w);
  heap_ok := fun w => (true, w) |}.

Definition wire_flash : FlashEnv wire := {|
  esp_partition_t := unit; label := fun _ => [111]; size := fun _ => 65536;
  esp_partition_find_first := fun _ w => (Some tt, w);
  esp_partition_read := fun _ _ _ w => (inl ESP_FAIL, w);
  esp_ota_get_next_update_partition := fun w => (Some tt, w);
  esp_ota_get_running_partition := fun w => (Some tt, w);
  esp_ota_get_state_partition := fun _ _ w => ((ESP_OK, ESP_OTA_IMG_VALID), w);
  esp_ota_set_boot_partition := fun _ w => (ESP_OK, w);
  esp_ota_begin := fun _ _ w => (inl ESP_FAIL, w);
  esp_ota_resume := fun _ _ w => (inl ESP_FAIL, w);
  esp_ota_write := fun _ _ w => (ESP_FAIL, w);
  esp_ota_end := fun _ w => (ESP_FAIL, w); esp_ota_abort := fun _ w => (ESP_FAIL, w);
  esp_err_u32 := fun e => if err_eqb e ESP_OK then 0 else 1; img_state_u32 := fun _ => 2 |}.

(** The text an application may answer a command with: sixty letters. *)
Definition long_answer : bytes := replicate 60 120.

Definition wire_node : NodeEnv wire := {|
  node_facade := wire_facade; node_flash := wire_flash;
  uxTaskGetSystemState := fun _ w =>
    (([{| xTaskNumber := 1; ulRunTimeCounter := 100; pcTaskName := [109];
          uxCurrentPriority := 5; usStackHighWaterMark := 900 |}], 200), w);
  heap_free_size := fun _ w => (1000, w); heap_minimum_free_size := fun _ w => (900, w);
  heap_total_size := fun _ w => (4000, w); esp_flash_get_size := fun w => (Some 4194304, w);
  esp_image_get_metadata := fun _ w => (Some 5000, w); nvs_get_stats := fun w => (None, w);
  keemash_mesh_get_ap_mac := fun w => (mac_zero_addr, w);
  keemash_mesh_node_v1_ok_age_ms := fun w => (0, w);
  keemash_mesh_node_log_stream_enabled := fun w => (false, w);
  keemash_mesh_node_on_time_sync := fun _ => mret tt;
  keemash_mesh_node_on_log_ctrl := fun _ => mret tt;
  keemash_mesh_node_on_control_command_result := fun _ =>
    mret (true, MESH_V2_CONTROL_STATUS_OK, long_answer);
  keemash_mesh_node_on_control_command := fun _ => mret false;
  ota_receiver_active := mret false; ota_receiver_handle_v2 := fun _ => mret tt;
  ota_v3_receiver_active := mret false; ota_v3_receiver_handle := fun _ => mret tt |}.
#[local] Existing Instance wire_node.

#[local] Instance wire_config : NodeConfig := {|
  CONFIG_KEEMASH_V2_COMPAT_TUNNEL_ENABLE := true; CONFIG_KEEMASH_OTA_V3_ENABLE := true;
  TASK_SLOT_COUNT := 24; TASK_CPU_CORE_COUNT := 2;
  CONFIG_KEEMASH_NODE_PSRAM_EXPECTED_BYTES := 0 |}.

#[local] Instance wire_kconfig : RelKconfig := {|
  CONFIG_KEEMASH_REL_ROUTE_GRACE_MS := 60000; CONFIG_KEEMASH_REL_STALE_PEER_MS := 600000;
  CONFIG_KEEMASH_REL_INITIAL_RTO_MS := 500; CONFIG_KEEMASH_REL_MIN_RTO_MS := 250;
  CONFIG_KEEMASH_REL_MAX_RTO_MS := 4000; CONFIG_KEEMASH_REL_FRAGMENT_TIMEOUT_MS := 5000;
  CONFIG_KEEMASH_REL_MAX_RETRIES := 8; CONFIG_KEEMASH_REL_FAULT_DROP_DATA_EVERY := 0;
  CONFIG_KEEMASH_REL_FAULT_DROP_ACK_EVERY := 0; CONFIG_KEEMASH_REL_FAULT_DROP_NACK_EVERY := 0;
  CONFIG_KEEMASH_REL_FAULT_DUPLICATE_EVERY := 0; CONFIG_KEEMASH_REL_FAULT_DELAY_EVERY := 0;
  CONFIG_KEEMASH_REL_FAULT_DELAY_MS := 0; CONFIG_KEEMASH_REL_FAULT_REORDER_EVERY := 0;
  CONFIG_KEEMASH_REL_FAULT_OVERFLOW_EVERY := 0 |}.

#[local] Instance wire_laws : NodeLaws wire wire_node.
Proof. split; [intros u|done]. split; [done|]. by repeat (constructor; [done|]). Qed.

#[local] Instance wire_moves (T : relation (fstate node_t wire)) `{!PreOrder T} :
  HooksMove wire_node T.
Proof. split; intros; apply stable_ret, _. Qed.

(** ** The node starts and the root answers *)

Definition boot : fstate node_t wire := (None, (facade_zero node_zero, [])).

Definition started : fstate node_t wire :=
  (run_node Call_connected (run_node (Call_init [110; 49]) boot).2).2.

Definition hello_ack_of (root_session : Z) : bytes :=
  let payload := encode_hello_ack
    {| ha_profile_version := MESH_V2_RELIABLE_PROFILE_VERSION; ha_mtu := MESH_V2_PACKET_MAX;
       ha_capabilities := root_caps; ha_root_session_id := root_session;
       ha_node_session_id := 77; ha_reset_link := 0 |} in
  seal (v2_hdr MESH_V2_TYPE_RELIABLE_HELLO_ACK 0 root_session 0 0 root_mac payload) payload.
Definition hello_ack : bytes := hello_ack_of 5.

Definition linked : fstate node_t wire := (run_node (Call_rx root_mac hello_ack) started).2.

Lemma linked_reachable : node_reachable linked.
Proof. unfold linked, started. do 3 apply node_called. apply node_boot. Qed.

Example node_states_witness : fac_wf linked /\ node_wf (f_own linked.2.1).
Proof. apply node_states. exact linked_reachable. Defined.

(** The link is up: bound to this root, and ready. *)
Example linked_ready :
  s_root_origin_mac (f_own linked.2.1) = root_mac /\ s_lossless_negotiated (f_own linked.2.1) = true /\
  (mesh_v2_node_ready linked).1 = true.
Proof. vm_compute. done. Qed.

(** ** The compatibility tunnel *)

(** Packets 2, 1, 2, 3 of a channel: 1 and 2 are delivered (2 when it is repeated), then 3. *)
Example tunnel_in_order_witness :
  tunnel_arrivals [2; 1; 2; 3; 1] tunnel_rx_fresh =
    ([1; 2; 3], [(TunnelNack 1, 1); (TunnelNack 2, 2); (TunnelAck 2, 3); (TunnelAck 3, 4);
                 (TunnelAck 3, 4)],
     {| tr_expected_seq := 4; tr_highest_seen_seq := 3; tr_last_ack_seq := 3 |}) /\
  [1; 2; 3] = seqZ 1 3.
Proof.
  split; [vm_compute; reflexivity|].
  refine (proj1 (tunnel_in_order [2; 1; 2; 3; 1] [1; 2; 3] _ _ _ _));
    [vm_compute; reflexivity|vm_compute; reflexivity].
Defined.

(** A root that only speaks the old protocol: the reports go through the tunnel. *)
Definition legacy_packet (type ack_seq : Z) (payload : bytes) : bytes :=
  seal (v2_hdr type 0 77 0 ack_seq root_mac payload) payload.

Definition acked : fstate node_t wire :=
  (run_node (Call_rx root_mac (legacy_packet MESH_V2_TYPE_ACK 0 [])) started).2.

Definition nack_of (channel seq : Z) : bytes :=
  encode_tunnel_nack {| tk_channel_id := channel; tk_missing_seq := seq;
    tk_origin_mac := node_mac; tk_target_mac := mac_zero_addr |}.

Definition nack_hdr (session : Z) : mesh_v2_hdr_t :=
  v2_hdr MESH_V2_TYPE_TUNNEL_NACK 0 session 0 0 root_mac (nack_of 1 1).

Lemma acked_wf : node_wf (f_own acked.2.1).
Proof. apply reachable_node_wf. unfold acked, started. do 3 apply node_called. apply node_boot. Qed.

Lemma nack_bytes : are_bytes (nack_of 1 1).
Proof. vm_compute. repeat (constructor; [done|]). constructor. Qed.

(** The first report of the channel is in the ring, and is sent again on request. *)
Example tunnel_nack_answered_witness :
  is_Some (tunnel_ring_copy MESH_V2_TUNNEL_CHANNEL_NODEINFO 1 (f_own acked.2.1)) /\
  exists packet h' payload',
    sent_last (handle_tunnel_nack (nack_hdr 77) (nack_of 1 1)) packet acked /\
    packet_valid packet = Some (h', payload') /\ h_session_id h' = 77.
Proof.
  split; [vm_compute; eauto|].
  destruct (tunnel_nack_answered (nack_hdr 77) (nack_of 1 1) acked) as (packet & h & payload & H).
  - exact acked_wf.
  - exact nack_bytes.
  - vm_compute. reflexivity.
  - vm_compute. discriminate.
  - exists packet, h, payload. destruct H as (Hs & Hv & Hh & _). split; [exact Hs|].
    split; [exact Hv|]. rewrite Hh. vm_compute. reflexivity.
Defined.

(** The same report from an older session: the packet is at hand, and called lost. *)
Example stale_nack_reports_lost_witness :
  is_Some (tunnel_ring_copy MESH_V2_TUNNEL_CHANNEL_NODEINFO 1 (f_own acked.2.1)) /\
  exists packet, sent_last (handle_tunnel_nack (nack_hdr 76) (nack_of 1 1)) packet acked /\
    lost_report 77 1 1 packet.
Proof.
  split; [vm_compute; eauto|].
  destruct (stale_nack_reports_lost (nack_hdr 76) (nack_of 1 1) acked) as (packet & Hs & Hl).
  - exact nack_bytes.
  - vm_compute. split; [discriminate|reflexivity].
  - vm_compute. discriminate.
  - vm_compute. discriminate.
  - exists packet. split; [exact Hs|].
    replace (s_session_id (f_own acked.2.1)) with 77 in Hl by (vm_compute; reflexivity).
    replace (tk_channel_id (decode_tunnel_nack (nack_of 1 1))) with 1 in Hl
      by (vm_compute; reflexivity).
    replace (tk_missing_seq (decode_tunnel_nack (nack_of 1 1))) with 1 in Hl
      by (vm_compute; reflexivity).
    exact Hl.
Defined.

(** ** Commands and reports *)

(** Another command, and a heartbeat of the application (its capabilities) in between. *)
Example command_runs_once_witness :
  let s1 := (handle_command 7 [120] None linked).2 in
  let s2 := (mod_node (fun n => n <| s_app_capabilities := 4 |>)
               (handle_command 8 [121] None s1).2).2 in
  handle_command 7 [122] None s2
  = (_ ← rel_send_control_result 7 MESH_V2_CONTROL_STATUS_OK
           (copy_text COMMAND_RESULT_MAX long_answer) None; mret tt) s2.
Proof.
  cbv zeta.
  assert (Hw : node_wf (f_own linked.2.1)) by (apply reachable_node_wf; exact linked_reachable).
  pose proof (command_runs_once 7 [120] [122] None 1 linked
    (mod_node (fun n => n <| s_app_capabilities := 4 |>)
       (handle_command 8 [121] None (handle_command 7 [120] None linked).2).2).2
    (nw_cache_len _ Hw) (nw_cache_next _ Hw)) as H.
  assert (Hr : (run_command [120] linked).1 = (MESH_V2_CONTROL_STATUS_OK, long_answer))
    by (vm_compute; reflexivity).
  rewrite Hr in H. apply H.
  - vm_compute. reflexivity.
  - eapply history_other; [|apply mod_own_own; by split].
    apply history_command. apply history_none.
  - unfold COMMAND_CACHE_SIZE. lia.
Defined.

(** The root restarts: its HELLO_ACK names another session, the record is cleared, and the
    same operation runs a second time. *)
Definition demo_operation : mesh_v2_operation_id_t := {| op_high := 1; op_low := 2 |}.
Definition counted (s : fstate node_t wire) : Z := s_debug_dedupe_action_count (f_own s.2.1).

Example new_session_runs_again :
  let run s := (handle_command 7 NodeText.dbg_dedupe (Some demo_operation) s).2 in
  let twice := run (run linked) in
  let restarted := (run_node (Call_rx root_mac (hello_ack_of 6)) twice).2 in
  counted twice = 1 /\ counted (run restarted) = 2.
Proof. vm_compute. done. Qed.

(** The texts of the two answers: sixty letters, then forty-seven. *)
Definition answer_text (s : fstate node_t wire) : option Z :=
  match s.2.2 with
  | packet :: _ => Some (control_text_len (drop (sizeof_hdr + sizeof_rh) packet))
  | [] => None
  end.

(** A command answered with sixty letters is answered with only the first forty-seven
    when it is repeated: the cache keeps a shorter text than the answer may have. *)
Theorem repeated_answer_cut :
  let s1 := (handle_command 7 [120] None linked).2 in
  let s2 := (handle_command 7 [120] None s1).2 in
  answer_text s1 = Some 60 /\ answer_text s2 = Some 47.
Proof. vm_compute. done. Qed.

Example cpu_sample_bounds_witness :
  0 <= cs_load_x10 (cpu_sample 2 true [{| bl_task_number := 1; bl_run_time := 4294967000 |}]
    100 400 [{| xTaskNumber := 1; ulRunTimeCounter := 4; pcTaskName := [109];
                uxCurrentPriority := 5; usStackHighWaterMark := 900 |}]) <= 1000.
Proof. apply cpu_sample_bounds. lia. Defined.

Definition six_tasks : cpu_sample_t :=
  {| cs_valid := false; cs_load_x10 := 0; cs_cpu_x10 := replicate 6 (-1);
     cs_tasks := replicate 6 {| xTaskNumber := 1; ulRunTimeCounter := 4; pcTaskName := [109];
       uxCurrentPriority := 5; usStackHighWaterMark := 900 |} |}.

Example snapshot_complete_witness :
  concat (sn_tasks <$> snapshots [110] 3 5 7 six_tasks) = task_entries six_tasks /\
  (fun p => (length (sn_tasks p), sn_flags p)) <$> snapshots [110] 3 5 7 six_tasks
  = [(4%nat, 0); (2%nat, MESH_V2_TASK_SNAPSHOT_FLAG_LAST)].
Proof.
  split; [|vm_compute; reflexivity].
  refine (proj1 (proj2 (snapshot_complete [110] 3 5 7 six_tasks _ _)));
    [reflexivity|vm_compute; reflexivity].
Defined.
