(* ===== verification/RootState.v ===== *)
(** * The root facade: state (keemash_mesh_root.c)

    The static variables of the file and the functions on them alone: the table of
    nodes, the in-order reception of a channel, the record of command results.  A tag or
    a text is its characters; the identity of an operation is absent as [None]. *)

From S2P Require Import Prelude.
From S2P Require Import Words.
From S2P Require Import MeshProto.
From S2P Require Import MeshProtoV2.
From S2P Require Import MeshWire.
From S2P Require Import RelOps.
From S2P Require Import Facade.
From S2P Require Import NodeState.
#[local] Open Scope Z_scope.

Definition MESH_V2_MAX_NODES : nat := 24.
Definition COMMAND_RESULT_CACHE_SIZE : nat := 32.
Definition COMMAND_TEXT_MAX : nat := 64.
Definition NODE_FRESH_MS : Z := 75000.

Class RootConfig := {
  CONFIG_KEEMASH_ACTIVE_PING_TIMEOUT_MS : Z;
  CONFIG_KEEMASH_ACTIVE_PING_PERIOD_MS : Z }.

(** ** The table of nodes *)

Record root_rx_channel_t := {
  rr_expected_seq : Z; rr_highest_seen_seq : Z; rr_gap_count : Z; rr_replay_count : Z;
  rr_lost_count : Z; rr_last_ms : Z; rr_has_gap : bool }.

#[export] Instance eta_root_rx : Eta root_rx_channel_t := fun r =>
  Build_root_rx_channel_t (rr_expected_seq r) (rr_highest_seen_seq r) (rr_gap_count r)
    (rr_replay_count r) (rr_lost_count r) (rr_last_ms r) (rr_has_gap r).

Record root_tx_channel_t := { rt_next_seq : Z; rt_last_ack_seq : Z }.

#[export] Instance eta_root_tx : Eta root_tx_channel_t := fun t =>
  Build_root_tx_channel_t (rt_next_seq t) (rt_last_ack_seq t).

Definition root_rx_zero : root_rx_channel_t :=
  {| rr_expected_seq := 0; rr_highest_seen_seq := 0; rr_gap_count := 0; rr_replay_count := 0;
     rr_lost_count := 0; rr_last_ms := 0; rr_has_gap := false |}.
Definition root_tx_zero : root_tx_channel_t := {| rt_next_seq := 0; rt_last_ack_seq := 0 |}.

(** The channels of a new session. *)
Definition root_rx_fresh : root_rx_channel_t := root_rx_zero <| rr_expected_seq := 1 |>.
Definition root_tx_fresh : root_tx_channel_t := root_tx_zero <| rt_next_seq := 1 |>.

Record root_node_state_t := {
  n_used : bool; n_mac : bytes; n_tag : bytes; n_session_id : Z; n_expected_seq : Z;
  n_highest_seen_seq : Z; n_gap_count : Z; n_replay_count : Z; n_lost_count : Z;
  n_last_v2_ms : Z; n_has_gap : bool; n_tunnel_seen : bool; n_last_tunnel_ms : Z;
  n_last_rel_log_ms : Z; n_last_ack_tx_ms : Z; n_last_ack_err : Z; n_capabilities : Z;
  n_route_up : bool; n_route_changed_ms : Z; n_time_pending : bool;
  n_pending_time : mesh_v2_time_payload_t; n_time_superseded_count : Z;
  n_duplicate_tag_count : Z; n_ping_pending : bool; n_ping_valid : bool; n_ping_id : Z;
  n_ping_sent_ms : Z; n_ping_last_attempt_ms : Z; n_ping_last_rx_ms : Z; n_ping_ms : Z;
  n_ping_timeout_count : Z; n_rx : list root_rx_channel_t; n_tx : list root_tx_channel_t }.

#[export] Instance eta_root_node : Eta root_node_state_t := fun n =>
  Build_root_node_state_t (n_used n) (n_mac n) (n_tag n) (n_session_id n) (n_expected_seq n)
    (n_highest_seen_seq n) (n_gap_count n) (n_replay_count n) (n_lost_count n)
    (n_last_v2_ms n) (n_has_gap n) (n_tunnel_seen n) (n_last_tunnel_ms n)
    (n_last_rel_log_ms n) (n_last_ack_tx_ms n) (n_last_ack_err n) (n_capabilities n)
    (n_route_up n) (n_route_changed_ms n) (n_time_pending n) (n_pending_time n)
    (n_time_superseded_count n) (n_duplicate_tag_count n) (n_ping_pending n) (n_ping_valid n)
    (n_ping_id n) (n_ping_sent_ms n) (n_ping_last_attempt_ms n) (n_ping_last_rx_ms n)
    (n_ping_ms n) (n_ping_timeout_count n) (n_rx n) (n_tx n).

Definition time_zero : mesh_v2_time_payload_t :=
  {| tp_epoch_sec := 0; tp_generation := 0; tp_source_uptime_s := 0 |}.

Definition root_node_zero : root_node_state_t :=
  {| n_used := false; n_mac := mac_zero_addr; n_tag := []; n_session_id := 0;
     n_expected_seq := 0; n_highest_seen_seq := 0; n_gap_count := 0; n_replay_count := 0;
     n_lost_count := 0; n_last_v2_ms := 0; n_has_gap := false; n_tunnel_seen := false;
     n_last_tunnel_ms := 0; n_last_rel_log_ms := 0; n_last_ack_tx_ms := 0;
     n_last_ack_err := 0; n_capabilities := 0; n_route_up := false; n_route_changed_ms := 0;
     n_time_pending := false; n_pending_time := time_zero; n_time_superseded_count := 0;
     n_duplicate_tag_count := 0; n_ping_pending := false; n_ping_valid := false;
     n_ping_id := 0; n_ping_sent_ms := 0; n_ping_last_attempt_ms := 0;
     n_ping_last_rx_ms := 0; n_ping_ms := 0; n_ping_timeout_count := 0;
     n_rx := replicate TUNNEL_CHANNELS root_rx_zero;
     n_tx := replicate TUNNEL_CHANNELS root_tx_zero |}.

(** The slot [find_node_locked] creates. *)
Definition node_fresh (mac : bytes) : root_node_state_t :=
  root_node_zero <| n_used := true |> <| n_mac := mac |> <| n_expected_seq := 1 |>
    <| n_rx := replicate TUNNEL_CHANNELS root_rx_fresh |>
    <| n_tx := replicate TUNNEL_CHANNELS root_tx_fresh |>
    <| n_tag := copy_packet_text MESH_V2_TAG_MAX node_text |>.

Definition is_node (mac : bytes) (n : root_node_state_t) : bool :=
  n_used n && mac_eq (n_mac n) mac.

(** [find_node_locked]: the index of the node, and the table. *)
Definition find_node_locked (mac : bytes) (create : bool) (nodes : list root_node_state_t)
  : option nat * list root_node_state_t :=
  match find_idx (is_node mac) nodes with
  | Some i => (Some i, nodes)
  | None =>
      if create then
        match find_idx (fun n => negb (n_used n)) nodes with
        | Some i => (Some i, <[i := node_fresh mac]> nodes)
        | None => (None, nodes)
        end
      else (None, nodes)
  end.

(** [reset_session_locked], with the time it reads. *)
Definition reset_session (session_id now : Z) (n : root_node_state_t) : root_node_state_t :=
  n <| n_session_id := session_id |> <| n_expected_seq := 1 |> <| n_highest_seen_seq := 0 |>
    <| n_gap_count := 0 |> <| n_replay_count := 0 |> <| n_lost_count := 0 |>
    <| n_has_gap := false |> <| n_last_v2_ms := now |> <| n_last_tunnel_ms := 0 |>
    <| n_last_rel_log_ms := 0 |> <| n_tunnel_seen := false |> <| n_last_ack_tx_ms := 0 |>
    <| n_last_ack_err := 0 |> <| n_ping_pending := false |> <| n_ping_valid := false |>
    <| n_rx := replicate TUNNEL_CHANNELS root_rx_fresh |>
    <| n_tx := replicate TUNNEL_CHANNELS root_tx_fresh |>.

Definition root_rx_at (n : root_node_state_t) (channel : Z) : root_rx_channel_t :=
  nth (Z.to_nat channel) (n_rx n) root_rx_zero.
Definition root_tx_at (n : root_node_state_t) (channel : Z) : root_tx_channel_t :=
  nth (Z.to_nat channel) (n_tx n) root_tx_zero.
Definition mod_rx_chan (channel : Z) (f : root_rx_channel_t -> root_rx_channel_t)
  (n : root_node_state_t) : root_node_state_t := n <| n_rx ::= alter f (Z.to_nat channel) |>.
Definition mod_tx_chan (channel : Z) (f : root_tx_channel_t -> root_tx_channel_t)
  (n : root_node_state_t) : root_node_state_t := n <| n_tx ::= alter f (Z.to_nat channel) |>.

(** ** In-order reception

    The same text serves a tunnel channel and the legacy channel; the acknowledged
    number goes with the answer. *)

Record seq_verdict := {
  sv_deliver : bool; sv_send_nack : bool; sv_ack_seq : Z; sv_missing_seq : Z }.

Definition receive_seq (seq expected highest : Z) : seq_verdict * Z :=
  if seq =? expected then
    let next := u32 (expected + 1) in
    if next <=? highest
    then ({| sv_deliver := true; sv_send_nack := true; sv_ack_seq := seq;
             sv_missing_seq := next |}, next)
    else ({| sv_deliver := true; sv_send_nack := false; sv_ack_seq := seq;
             sv_missing_seq := 0 |}, next)
  else if seq <? expected then
    ({| sv_deliver := false; sv_send_nack := false; sv_ack_seq := u32 (expected - 1);
        sv_missing_seq := 0 |}, expected)
  else
    ({| sv_deliver := false; sv_send_nack := true;
        sv_ack_seq := if expected =? 0 then 0 else expected - 1;
        sv_missing_seq := expected |}, expected).

(** A tunnel packet at its channel. *)
Definition tunnel_receive_rx (seq now : Z) (replay : bool) (rx : root_rx_channel_t)
  : seq_verdict * root_rx_channel_t :=
  let rx := rx <| rr_last_ms := now |>
               <| rr_replay_count ::= fun c => if replay then u32 (c + 1) else c |>
               <| rr_highest_seen_seq ::= fun h => if h <? seq then seq else h |> in
  let '(v, expected) := receive_seq seq (rr_expected_seq rx) (rr_highest_seen_seq rx) in
  (v, rx <| rr_expected_seq := expected |>
         <| rr_gap_count ::= fun c => if sv_send_nack v then u32 (c + 1) else c |>
         <| rr_has_gap ::= fun g => g || sv_send_nack v |>).

(** A legacy packet at its node. *)
Definition legacy_receive (seq now : Z) (replay : bool) (n : root_node_state_t)
  : seq_verdict * root_node_state_t :=
  let n := n <| n_last_v2_ms := now |>
             <| n_replay_count ::= fun c => if replay then u32 (c + 1) else c |>
             <| n_highest_seen_seq ::= fun h => if h <? seq then seq else h |> in
  let '(v, expected) := receive_seq seq (n_expected_seq n) (n_highest_seen_seq n) in
  (v, n <| n_expected_seq := expected |>
        <| n_gap_count ::= fun c => if sv_send_nack v then u32 (c + 1) else c |>
        <| n_has_gap ::= fun g => g || sv_send_nack v |>).

(** The number after a report of a lost one: past everything that was seen. *)
Definition skip_lost (missing_seq expected highest : Z) : Z :=
  if missing_seq =? expected
  then if missing_seq <=? highest then u32 (highest + 1) else u32 (missing_seq + 1)
  else expected.

(** ** Command results *)

Record command_result_slot_t := {
  cr_used : bool; cr_peer : bytes; cr_root_session_id : Z; cr_node_session_id : Z;
  cr_command_id : Z; cr_operation_id : option mesh_v2_operation_id_t; cr_status : Z;
  cr_seen_count : Z; cr_updated_ms : Z; cr_text : bytes; cr_first_text : bytes;
  cr_text_changed : bool }.

#[export] Instance eta_command_result : Eta command_result_slot_t := fun c =>
  Build_command_result_slot_t (cr_used c) (cr_peer c) (cr_root_session_id c)
    (cr_node_session_id c) (cr_command_id c) (cr_operation_id c) (cr_status c)
    (cr_seen_count c) (cr_updated_ms c) (cr_text c) (cr_first_text c) (cr_text_changed c).

Definition command_result_zero : command_result_slot_t :=
  {| cr_used := false; cr_peer := mac_zero_addr; cr_root_session_id := 0;
     cr_node_session_id := 0; cr_command_id := 0; cr_operation_id := None; cr_status := 0;
     cr_seen_count := 0; cr_updated_ms := 0; cr_text := []; cr_first_text := [];
     cr_text_changed := false |}.

(** A slot of this peer, of these sessions when they are known. *)
Definition result_of_peer (peer : bytes) (rel : option keemash_rel_stats_t)
  (c : command_result_slot_t) : bool :=
  cr_used c && mac_eq (cr_peer c) peer &&
  match rel with
  | Some st => (cr_root_session_id c =? st_root_session_id st)
               && (cr_node_session_id c =? st_node_session_id st)
  | None => true
  end.

Definition result_identity (command_id : Z) (operation_id : option mesh_v2_operation_id_t)
  (c : command_result_slot_t) : bool :=
  match operation_id, cr_operation_id c with
  | Some op, Some op' => operation_id_eq op' op
  | None, None => cr_command_id c =? command_id
  | _, _ => false
  end.

(** What every answer leaves in its slot. *)
Definition result_update (command_id status now : Z) (txt : bytes) (c : command_result_slot_t)
  : command_result_slot_t :=
  c <| cr_command_id := command_id |> <| cr_status := status |>
    <| cr_seen_count ::= fun n => u32 (n + 1) |> <| cr_updated_ms := now |>
    <| cr_text := txt |>.

Definition result_new (peer : bytes) (rel : option keemash_rel_stats_t)
  (operation_id : option mesh_v2_operation_id_t) (txt : bytes) : command_result_slot_t :=
  command_result_zero <| cr_used := true |> <| cr_peer := peer |>
    <| cr_operation_id := operation_id |>
    <| cr_root_session_id := from_option st_root_session_id 0 rel |>
    <| cr_node_session_id := from_option st_node_session_id 0 rel |>
    <| cr_first_text := txt |>.

Definition result_again (txt : bytes) (c : command_result_slot_t) : command_result_slot_t :=
  if bytes_eqb (cr_text c) txt then c else c <| cr_text_changed := true |>.

(** ** The static variables *)

Record root_t := {
  s_nodes : list root_node_state_t; s_command_results : list command_result_slot_t;
  s_command_result_next : Z; s_next_command_id : Z; s_next_ping_id : Z; s_ping_cursor : Z;
  s_last_ping_dispatch_ms : Z }.

#[export] Instance eta_root : Eta root_t := fun r =>
  Build_root_t (s_nodes r) (s_command_results r) (s_command_result_next r)
    (s_next_command_id r) (s_next_ping_id r) (s_ping_cursor r) (s_last_ping_dispatch_ms r).

Definition root_zero : root_t :=
  {| s_nodes := replicate MESH_V2_MAX_NODES root_node_zero;
     s_command_results := replicate COMMAND_RESULT_CACHE_SIZE command_result_zero;
     s_command_result_next := 0; s_next_command_id := 1; s_next_ping_id := 1;
     s_ping_cursor := 0; s_last_ping_dispatch_ms := 0 |}.

Definition node_at (r : root_t) (i : nat) : root_node_state_t := nth i (s_nodes r) root_node_zero.

(** [note_command_result] on the record: [txt] is the text already cut to 63 characters. *)
Definition store_result (peer : bytes) (command_id : Z)
  (operation_id : option mesh_v2_operation_id_t) (status now : Z) (txt : bytes)
  (rel : option keemash_rel_stats_t) (r : root_t) : root_t :=
  match find_idx (fun c => result_of_peer peer rel c
                           && result_identity command_id operation_id c)
                 (s_command_results r) with
  | Some i =>
      r <| s_command_results ::=
             alter (fun c => result_update command_id status now txt (result_again txt c)) i |>
  | None =>
      r <| s_command_results ::=
             <[(Z.to_nat (s_command_result_next r) mod COMMAND_RESULT_CACHE_SIZE)%nat :=
                 result_update command_id status now txt
                   (result_new peer rel operation_id txt)]> |>
        <| s_command_result_next := u8 (s_command_result_next r + 1) |>
  end.

(** The answer to an operation of this peer. *)
Definition result_of_operation (peer : bytes) (operation_id : mesh_v2_operation_id_t)
  (rel : option keemash_rel_stats_t) (c : command_result_slot_t) : bool :=
  from_option (fun op => operation_id_eq op operation_id) false (cr_operation_id c)
  && result_of_peer peer rel c.

(** The first slot of the record with [P]: what [copy_command_result] copies. *)
Definition first_result (P : command_result_slot_t -> bool) (r : root_t)
  : option command_result_slot_t :=
  i ← find_idx P (s_command_results r); s_command_results r !! i.

(** *** Nodes by tag: [strncmp] over the whole array *)

Definition tag_is (tag : bytes) (n : root_node_state_t) : bool :=
  bytes_eqb (take MESH_V2_TAG_MAX (n_tag n)) (take MESH_V2_TAG_MAX tag).

Definition tag_match (now : Z) (tag : bytes) (n : root_node_state_t) : bool :=
  n_used n && n_route_up n && negb (n_last_v2_ms n =? 0)
  && (u32 (now - n_last_v2_ms n) <? NODE_FRESH_MS) && tag_is tag n.

Definition count_duplicate (tag : bytes) (n : root_node_state_t) : root_node_state_t :=
  if n_used n && tag_is tag n
  then n <| n_duplicate_tag_count ::= fun c => u32 (c + 1) |> else n.

(** *** Active ping *)

Definition ping_expire (timeout_ms now : Z) (n : root_node_state_t) : root_node_state_t :=
  if n_used n && n_ping_pending n && (timeout_ms <=? u32 (now - n_ping_sent_ms n))
  then n <| n_ping_pending := false |> <| n_ping_valid := false |>
         <| n_ping_timeout_count ::= fun c => u32 (c + 1) |>
  else n.

Definition ping_due (period_ms now : Z) (n : root_node_state_t) : bool :=
  n_used n && n_route_up n && negb (n_ping_pending n)
  && negb (Z.land (n_capabilities n) MESH_V2_CAP_ACTIVE_PING =? 0)
  && ((n_ping_last_attempt_ms n =? 0)
      || (period_ms <=? u32 (now - n_ping_last_attempt_ms n))).

(** The indices from the cursor on, once round the table. *)
Definition ping_order (cursor : Z) : list nat :=
  (fun offset => (Z.to_nat cursor + offset) mod MESH_V2_MAX_NODES)%nat
    <$> seq 0 MESH_V2_MAX_NODES.

Definition ping_next (period_ms now : Z) (r : root_t) : option nat :=
  k ← find_idx (fun i => ping_due period_ms now (node_at r i)) (ping_order (s_ping_cursor r));
  ping_order (s_ping_cursor r) !! k.

(** The next number, 0 left out, and the one after it. *)
Definition next_ping_id (next : Z) : Z * Z :=
  if next =? 0 then (u32 (next + 1), u32 (u32 (next + 1) + 1)) else (next, u32 (next + 1)).

Definition ping_dispatch (i : nat) (now : Z) (r : root_t) : root_t :=
  let '(ping_id, next) := next_ping_id (s_next_ping_id r) in
  r <| s_next_ping_id := next |>
    <| s_nodes ::= alter (fun n =>
         n <| n_ping_pending := true |> <| n_ping_id := ping_id |>
           <| n_ping_sent_ms := now |> <| n_ping_last_attempt_ms := now |>) i |>
    <| s_last_ping_dispatch_ms := now |>
    <| s_ping_cursor := u8 (Z.of_nat ((i + 1) mod MESH_V2_MAX_NODES)) |>.
