(* ===== verification/Root.v ===== *)
(** * The root facade: operations (keemash_mesh_root.c)

    Every function of the file, over the static variables of RootState, the reliable
    context and the world.  The polling task is its round [rel_poll_task]; the debugging
    drop counter is off, as the sources have it.  Pointers to addresses, payloads and
    results are not NULL. *)

From Stdlib Require String.
From S2P Require Import Prelude.
From S2P Require Import Words.
From S2P Require Import Esp.
From S2P Require Import Rtos.
From S2P Require Import MeshProto.
From S2P Require Import MeshProtoV1.
From S2P Require Import MeshProtoV2.
From S2P Require Import MeshWire.
From S2P Require Import RelState.
From S2P Require Import RelOps.
From S2P Require Import OtaTypes.
From S2P Require Import OtaV3.
From S2P Require Import Facade.
From S2P Require Import NodeState.
From S2P Require Import RootState.
#[local] Open Scope Z_scope.

Module RootText.
Import Stdlib.Strings.String.
#[local] Open Scope string_scope.

Definition log_on : bytes := text "@log:1".
Definition log_off : bytes := text "@log:0".
End RootText.

(** The hooks of the application (keemash_mesh_hooks.h) may call the facade again, so
    they act on its whole state. *)
Class RootEnv (U : Type) := {
  #[global] root_facade :: FacadeEnv U;
  root_err_u32 : esp_err_t -> Z;
  keemash_mesh_root_on_state_changed : Fac root_t U unit;
  keemash_mesh_root_on_node_seen : bytes -> bytes -> Fac root_t U unit;
  keemash_mesh_root_on_node_seen_uptime : bytes -> bytes -> bool -> Z -> Fac root_t U unit;
  keemash_mesh_root_on_log_line : bytes -> bytes -> bytes -> Fac root_t U unit;
  keemash_mesh_root_on_task_snapshot : bytes -> bytes -> Fac root_t U unit;
  keemash_mesh_root_on_memory_snapshot : bytes -> bytes -> Fac root_t U unit;
  keemash_mesh_root_on_sensor_snapshot : bytes -> bytes -> Fac root_t U unit;
  keemash_mesh_root_on_ota_v3_message : bytes -> bytes -> Fac root_t U unit;
  keemash_mesh_root_on_ota_status : bytes -> bytes -> Fac root_t U unit;
  keemash_mesh_root_on_topology : bytes -> bytes -> Fac root_t U unit;
  keemash_mesh_root_on_control_ex : bytes -> Z -> Z -> Z -> Z -> Z -> bytes ->
    option mesh_v2_operation_id_t -> Fac root_t U unit }.

Section Root.
Context {U : Type} {RC : RootConfig} {RK : RelKconfig} {RE : RootEnv U}.

Abbreviation RootM := (Fac root_t U).

Definition get_root : RootM root_t := get_own.
Definition mod_root : (root_t -> root_t) -> RootM unit := mod_own.
Definition mod_node_at (i : nat) (f : root_node_state_t -> root_node_state_t) : RootM unit :=
  mod_root (fun r => r <| s_nodes ::= alter f i |>).

(** [find_node_locked] on the table: the index, the slot being made when asked. *)
Definition find_node (mac : bytes) (create : bool) : RootM (option nat) :=
  r ← get_root;
  mod_root (fun r => r <| s_nodes ::= fun l => (find_node_locked mac create l).2 |>);;
  mret (find_node_locked mac create (s_nodes r)).1.

(** [st = find_node_locked(mac, create); if (st) ...] *)
Definition with_node (mac : bytes) (create : bool)
  (f : root_node_state_t -> root_node_state_t) : RootM unit :=
  found ← find_node mac create;
  match found with Some i => mod_node_at i f | None => mret tt end.

(** ** The core of the root: callbacks that do not deliver *)

Definition rel_send_cb (dst packet : bytes) : RootM esp_err_t :=
  if (length packet =? 0)%nat then mret ESP_ERR_INVALID_ARG
  else os (keemash_mesh_transport_send dst packet).

Definition rel_event_cb (peer : bytes) (channel reason first last : Z) : RootM unit :=
  keemash_mesh_root_on_state_changed.

#[local] Instance root_quiet_env : Env (facade root_t * U) :=
  rel_env rel_send_cb no_delivery rel_event_cb.

Definition rel_send (mac : bytes) (channel : Z) (payload : bytes) (priority : Z)
  : RootM esp_err_t :=
  on_rel ESP_ERR_INVALID_STATE (keemash_rel_send (Some mac) channel payload priority).

Definition rel_peer_ready (mac : bytes) : RootM bool :=
  on_rel false (keemash_rel_peer_ready (Some mac)).

Definition rel_peer_capabilities (mac : bytes) : RootM Z :=
  on_rel 0 (keemash_rel_peer_capabilities (Some mac)).

Definition rel_peer_route (mac : bytes) (up : bool) : RootM unit :=
  _ ← on_rel ESP_ERR_INVALID_STATE (keemash_rel_peer_route (Some mac) up); mret tt.

Definition rel_supersede (mac : bytes) : RootM nat :=
  on_rel 0%nat (keemash_rel_supersede_channel (Some mac) MESH_V2_TUNNEL_CHANNEL_TIME).

Definition rel_local_session : RootM Z := on_rel 0 keemash_rel_local_session.

Definition current_rel_stats (peer : bytes) : RootM (option keemash_rel_stats_t) :=
  taken ← rel_taken 100;
  if (taken : bool) then on_rel None (keemash_rel_stats (Some peer)) else mret None.

Definition note_reliable_delivery (peer : bytes) (channel : Z) : RootM unit :=
  now ← ms_now;
  with_node peer true (fun n =>
    n <| n_last_v2_ms := now |> <| n_last_tunnel_ms := now |> <| n_tunnel_seen := true |>
      <| n_last_rel_log_ms ::= fun t =>
           if channel =? MESH_V2_TUNNEL_CHANNEL_LOG then now else t |>).

Definition note_command_result (peer : bytes) (command_id : Z)
  (operation_id : option mesh_v2_operation_id_t) (status : Z) (txt : bytes) : RootM unit :=
  now ← ms_now;
  rel ← current_rel_stats peer;
  mod_root (store_result peer command_id operation_id status now
    (copy_text COMMAND_TEXT_MAX txt) rel).

(** ** Packets to a node *)

Definition send_packet_to_mac (mac : bytes) (type session_id seq ack_seq : Z)
  (payload : bytes) : RootM esp_err_t :=
  if (MESH_V2_PAYLOAD_MAX <? Z.of_nat (length payload))
     || (MESH_V2_PACKET_MAX <? Z.of_nat (sizeof_hdr + length payload))
  then mret ESP_ERR_INVALID_ARG
  else
    src ← local_mac;
    os (keemash_mesh_transport_send mac
          (seal (v2_hdr type 0 session_id seq ack_seq src payload) payload)).

(** [to] is the transport's source: it is never absent here. *)
Definition send_control (to : bytes) (type session_id ack_seq missing_seq : Z)
  : RootM esp_err_t :=
  if mac_zero to then mret ESP_ERR_INVALID_ARG
  else send_packet_to_mac to type session_id 0 ack_seq
         (if type =? MESH_V2_TYPE_NACK then encode_missing_seq missing_seq else []).

Definition send_tunnel_control_packet (dst : bytes) (type session_id : Z) (payload : bytes)
  : RootM esp_err_t := send_packet_to_mac dst type session_id 0 0 payload.

Definition root_tunnel_flags : Z :=
  Z.lor MESH_V2_TUNNEL_FLAG_E2E_ACK MESH_V2_TUNNEL_FLAG_HOP_ACK.

Definition send_tunnel_ack (h : mesh_v2_hdr_t) (t : mesh_v2_tunnel_hdr_t) (ack_seq : Z)
  : RootM esp_err_t :=
  send_tunnel_control_packet (h_src_mac h) MESH_V2_TYPE_TUNNEL_ACK (h_session_id h)
    (encode_tunnel_ack {| ta_channel_id := tu_channel_id t; ta_flags := root_tunnel_flags;
       ta_seq := tu_seq t; ta_ack_seq := ack_seq; ta_sack_bitmap := 0;
       ta_origin_mac := tu_origin_mac t; ta_target_mac := tu_target_mac t |}).

Definition send_tunnel_nack (h : mesh_v2_hdr_t) (t : mesh_v2_tunnel_hdr_t) (missing_seq : Z)
  : RootM esp_err_t :=
  send_tunnel_control_packet (h_src_mac h) MESH_V2_TYPE_TUNNEL_NACK (h_session_id h)
    (encode_tunnel_nack {| tk_channel_id := tu_channel_id t; tk_missing_seq := missing_seq;
       tk_origin_mac := tu_origin_mac t; tk_target_mac := tu_target_mac t |}).

Definition note_ack_tx_result (mac : bytes) (err : esp_err_t) : RootM unit :=
  found ← find_node mac false;
  match found with
  | Some i =>
      now ← ms_now;
      mod_node_at i (fun n =>
        n <| n_last_ack_tx_ms := now |> <| n_last_ack_err := i32 (root_err_u32 err) |>)
  | None => mret tt
  end.

(** ** Deliveries: node reports *)

(** The string of a character array in a payload. *)
Definition packet_text (off len : nat) (payload : bytes) : bytes :=
  copy_packet_text (len + 1) (slice off len payload).

Definition deliver_nodeinfo (peer payload : bytes) : RootM unit :=
  keemash_mesh_root_on_node_seen_uptime peer (packet_text 0 MESH_V2_TAG_MAX payload) true
    (tn_uptime_s (decode_tunnel_nodeinfo payload)).

Definition deliver_log (line_max : nat) (peer payload : bytes) : RootM unit :=
  let tag := packet_text 0 MESH_V2_TAG_MAX payload in
  keemash_mesh_root_on_node_seen peer tag;;
  keemash_mesh_root_on_log_line peer tag (packet_text MESH_V2_TAG_MAX line_max payload).

(** A result or an event with a text that fits. *)
Definition control_report_ok (payload : bytes) : bool :=
  let kind := get_u8 payload 0 in
  ((kind =? MESH_V2_CONTROL_RESULT) || (kind =? MESH_V2_CONTROL_EVENT))
  && (0 <? control_text_len payload) && (control_text_len payload <=? MESH_V2_CONTROL_TEXT_MAX).

Definition control_text (payload : bytes) : bytes :=
  cstr (slice 8 (Z.to_nat (control_text_len payload)) payload).

(** [peer_stats] are those read before the operation is looked at. *)
Definition deliver_control (peer payload : bytes) : RootM unit :=
  if negb (control_report_ok payload) then mret tt
  else
    rel ← current_rel_stats peer;
    let operation := keemash_mesh_control_get_operation_id payload in
    if has_flag (control_rsv payload) MESH_V2_CONTROL_FLAG_OPERATION_ID
       && negb (is_some operation) then mret tt
    else
      let kind := get_u8 payload 0 in
      let status := get_u8 payload 1 in
      let command_id := get_le 4 payload 4 in
      when (kind =? MESH_V2_CONTROL_RESULT)
        (note_command_result peer command_id operation status (control_text payload));;
      keemash_mesh_root_on_control_ex peer (from_option st_root_session_id 0 rel)
        (from_option st_node_session_id 0 rel) kind command_id status (control_text payload)
        operation.

Definition deliver_ota (peer payload : bytes) : RootM unit :=
  if negb (length payload =? 0)%nat && (MESH_V2_OTA_OP_STATUS <? get_u8 payload 0)
  then keemash_mesh_root_on_ota_v3_message peer payload
  else when (sizeof_v2_status <=? length payload)%nat
         (keemash_mesh_root_on_ota_status peer payload).

Definition rel_deliver_cb (peer : bytes) (channel : Z) (payload : bytes) (stream_id : Z)
  : RootM unit :=
  let at_least n := (n <=? length payload)%nat in
  note_reliable_delivery peer channel;;
  if (channel =? MESH_V2_TUNNEL_CHANNEL_NODEINFO) && at_least sizeof_tunnel_nodeinfo
  then deliver_nodeinfo peer payload
  else if (channel =? MESH_V2_TUNNEL_CHANNEL_LOG) && at_least sizeof_tunnel_log
  then deliver_log MESH_V2_TUNNEL_LOG_LINE_MAX peer payload
  else if (channel =? MESH_V2_TUNNEL_CHANNEL_TASK) && at_least sizeof_task_snapshot
  then keemash_mesh_root_on_task_snapshot peer payload
  else if (channel =? MESH_V2_TUNNEL_CHANNEL_MEMORY) && at_least sizeof_memory
  then keemash_mesh_root_on_memory_snapshot peer payload
  else if (channel =? MESH_V2_TUNNEL_CHANNEL_SENSOR)
          && keemash_mesh_sensor_snapshot_valid (decode_sensor_snapshot payload)
               (Z.of_nat (length payload))
  then keemash_mesh_root_on_sensor_snapshot peer payload
  else if channel =? MESH_V2_TUNNEL_CHANNEL_OTA then deliver_ota peer payload
  else if (channel =? MESH_V2_TUNNEL_CHANNEL_TOPOLOGY) && at_least sizeof_topology
  then keemash_mesh_root_on_topology peer payload
  else when ((channel =? MESH_V2_TUNNEL_CHANNEL_CONTROL)
             && (control_text_offset <=? Z.of_nat (length payload)))
         (deliver_control peer payload).

(** The core with the root's deliveries. *)
Definition root_env : Env (facade root_t * U) := rel_env rel_send_cb rel_deliver_cb rel_event_cb.

(** ** The polling task *)

(** The first node on the way to which a time waits; only this one is tried. *)
Definition flush_one_pending_time : RootM unit :=
  r ← get_root;
  match find_idx (fun n => n_used n && n_route_up n && n_time_pending n) (s_nodes r) with
  | None => mret tt
  | Some i =>
      let mac := n_mac (node_at r i) in
      let pending := n_pending_time (node_at r i) in
      ready ← rel_peer_ready mac;
      if negb ready then mret tt
      else
        unacked ← on_rel 0%nat
          (keemash_rel_channel_unacked (Some mac) MESH_V2_TUNNEL_CHANNEL_TIME);
        if negb (unacked =? 0)%nat then mret tt
        else
          err ← rel_send mac MESH_V2_TUNNEL_CHANNEL_TIME (encode_time pending)
                  KEEMASH_REL_PRIORITY_NORMAL;
          if negb (err_eqb err ESP_OK) then mret tt
          else with_node mac false (fun n =>
                 if n_time_pending n
                    && (tp_generation (n_pending_time n) =? tp_generation pending)
                 then n <| n_time_pending := false |> else n)
  end.

(** A node whose route has been down for long, at its place in the table. *)
Definition prune_one (now : Z) (i : nat) : RootM unit :=
  r ← get_root;
  let n := node_at r i in
  let mac := n_mac n in
  if negb (n_used n && negb (n_route_up n) && negb (n_route_changed_ms n =? 0)
           && (CONFIG_KEEMASH_REL_STALE_PEER_MS <=? u32 (now - n_route_changed_ms n)))
  then mret tt
  else
    err ← on_rel ESP_ERR_INVALID_STATE (keemash_rel_remove_peer (Some mac));
    if negb (err_eqb err ESP_OK) then mret tt
    else
      mod_node_at i (fun n =>
        if is_node mac n && negb (n_route_up n) then root_node_zero else n);;
      keemash_mesh_root_on_state_changed.

Definition prune_stale_route_down_peers : RootM unit :=
  now ← ms_now; for_each (seq 0 MESH_V2_MAX_NODES) (prune_one now).

Definition active_ping_poll_one : RootM unit :=
  started ← has_rel;
  if negb started then mret tt
  else
    now ← ms_now;
    mod_root (fun r => r <| s_nodes ::=
      fmap (ping_expire CONFIG_KEEMASH_ACTIVE_PING_TIMEOUT_MS now) |>);;
    r ← get_root;
    let pending := existsb (fun n => n_used n && n_ping_pending n) (s_nodes r) in
    if pending
       || negb (s_last_ping_dispatch_ms r =? 0)
          && (u32 (now - s_last_ping_dispatch_ms r) <? CONFIG_KEEMASH_ACTIVE_PING_PERIOD_MS)
    then mret tt
    else
      match ping_next CONFIG_KEEMASH_ACTIVE_PING_PERIOD_MS now r with
      | None => mret tt
      | Some i =>
          let ping_id := (next_ping_id (s_next_ping_id r)).1 in
          let mac := n_mac (node_at r i) in
          session ← rel_local_session;
          mod_root (ping_dispatch i now);;
          ready ← rel_peer_ready mac;
          err ← (if (ready : bool) then
                   send_packet_to_mac mac MESH_V2_TYPE_PING session 0 0
                     (encode_ping {| pg_ping_id := ping_id; pg_root_session_id := session |})
                 else mret ESP_ERR_INVALID_STATE);
          when (negb (err_eqb err ESP_OK)) (with_node mac false (fun n =>
            if n_ping_id n =? ping_id then n <| n_ping_pending := false |> else n))
      end.

Definition rel_poll_task : RootM unit :=
  taken ← rel_taken 100;
  when taken
    (on_rel tt (@keemash_rel_poll _ root_env);;
     flush_one_pending_time;;
     active_ping_poll_one;;
     prune_stale_route_down_peers).

Definition root_rel_config (mac : bytes) : keemash_rel_config_t :=
  rel_profile_config RK true mac MESH_V2_MAX_NODES 64 64 8 16 8 2 2.

Definition mesh_v2_root_init : RootM esp_err_t := start_reliable root_rel_config root_env.

(** ** Received packets: the legacy V2 path *)

Definition handle_pong (from : bytes) (h : mesh_v2_hdr_t) (payload : bytes)
  : RootM esp_err_t :=
  started ← has_rel;
  if negb (h_payload_len h =? Z.of_nat sizeof_ping) || negb started
  then mret ESP_ERR_INVALID_ARG
  else
    let pong := decode_ping payload in
    session ← rel_local_session;
    rel ← (if pg_root_session_id pong =? session then current_rel_stats from else mret None);
    if negb (from_option st_ready false rel) then mret ESP_ERR_INVALID_STATE
    else
      now ← ms_now;
      found ← find_node from false;
      r ← get_root;
      match found with
      | Some i =>
          let n := node_at r i in
          if n_ping_pending n && (n_ping_id n =? pg_ping_id pong) then
            mod_node_at i (fun n =>
              n <| n_ping_pending := false |> <| n_ping_valid := true |>
                <| n_ping_ms := u32 (now - n_ping_sent_ms n) |>
                <| n_ping_last_rx_ms := now |>);;
            mret ESP_OK
          else mret ESP_ERR_INVALID_STATE
      | None => mret ESP_ERR_INVALID_STATE
      end.

(** [reset_session_locked] *)
Definition reset_session_at (i : nat) (session_id : Z) : RootM unit :=
  now ← ms_now; mod_node_at i (reset_session session_id now).

Definition handle_hello (from : bytes) (h : mesh_v2_hdr_t) (payload : bytes) : RootM unit :=
  let full := Z.of_nat sizeof_v2_hello <=? h_payload_len h in
  let p := decode_v2_hello payload in
  let tag := if full then copy_packet_text (MESH_V2_TAG_MAX + 1) (hl_tag p) else node_text in
  let uptime := if full then hl_uptime_s p else 0 in
  let capabilities := if full then hl_capabilities p else 0 in
  found ← find_node (h_src_mac h) true;
  match found with
  | Some i =>
      reset_session_at i (h_session_id h);;
      let seen := negb (Z.land capabilities MESH_V2_CAP_TUNNEL =? 0) in
      mod_node_at i (fun n => n <| n_capabilities := capabilities |> <| n_tunnel_seen := seen |>);;
      when seen (now ← ms_now; mod_node_at i (fun n => n <| n_last_tunnel_ms := now |>));;
      mod_node_at i (fun n => n <| n_tag := copy_packet_text MESH_V2_TAG_MAX tag |>)
  | None => mret tt
  end;;
  keemash_mesh_root_on_node_seen_uptime (h_src_mac h) tag true uptime;;
  err ← send_control from MESH_V2_TYPE_ACK (h_session_id h) 0 0;
  note_ack_tx_result (h_src_mac h) err.

Definition note_reliable_hello_metadata (peer : bytes)
  (hello : mesh_v2_reliable_hello_payload_t) : RootM unit :=
  let tag := copy_packet_text (MESH_V2_TAG_MAX + 1) (hello_tag hello) in
  now ← ms_now;
  with_node peer true (fun n =>
    n <| n_capabilities := hello_capabilities hello |> <| n_route_up := true |>
      <| n_route_changed_ms := now |> <| n_tunnel_seen := true |> <| n_last_v2_ms := now |>
      <| n_last_tunnel_ms := now |> <| n_tag := copy_packet_text MESH_V2_TAG_MAX tag |>);;
  keemash_mesh_root_on_node_seen_uptime peer tag true (hello_uptime_s hello).

Definition deliver_legacy_v2_payload (h : mesh_v2_hdr_t) (payload : bytes) : RootM unit :=
  if h_type h =? MESH_V2_TYPE_NODEINFO then
    when (Z.of_nat sizeof_tunnel_nodeinfo <=? h_payload_len h)
      (deliver_nodeinfo (h_src_mac h) payload)
  else when ((h_type h =? MESH_V2_TYPE_LOG_LINE)
             && (Z.of_nat sizeof_v2_log_line <=? h_payload_len h))
         (deliver_log MESH_V2_LOG_LINE_MAX (h_src_mac h) payload).

(** [payload] is the inner payload, and what follows it in the packet. *)
Definition deliver_tunnel_payload (t : mesh_v2_tunnel_hdr_t) (payload : bytes) : RootM unit :=
  let ch := tu_channel_id t in
  let origin := tu_origin_mac t in
  let at_least n := Z.of_nat n <=? tu_payload_len t in
  if ch =? MESH_V2_TUNNEL_CHANNEL_NODEINFO then
    when (at_least sizeof_tunnel_nodeinfo) (deliver_nodeinfo origin payload)
  else if ch =? MESH_V2_TUNNEL_CHANNEL_LOG then
    when (at_least sizeof_tunnel_log) (deliver_log MESH_V2_TUNNEL_LOG_LINE_MAX origin payload)
  else if ch =? MESH_V2_TUNNEL_CHANNEL_TASK then
    when (at_least sizeof_task_snapshot) (keemash_mesh_root_on_task_snapshot origin payload)
  else when ((ch =? MESH_V2_TUNNEL_CHANNEL_TOPOLOGY) && at_least sizeof_topology)
         (keemash_mesh_root_on_topology origin (take (Z.to_nat (tu_payload_len t)) payload)).

Definition handle_lost (from : bytes) (h : mesh_v2_hdr_t) (payload : bytes) : RootM unit :=
  if h_payload_len h <? Z.of_nat sizeof_missing_seq then mret tt
  else
    let missing_seq := decode_missing_seq payload in
    found ← find_node (h_src_mac h) true;
    r ← get_root;
    ack_seq ← match found with
              | Some i =>
                  if n_session_id (node_at r i) =? h_session_id h then
                    now ← ms_now;
                    mod_node_at i (fun n =>
                      n <| n_last_v2_ms := now |> <| n_lost_count ::= fun c => u32 (c + 1) |>
                        <| n_has_gap := true |>
                        <| n_expected_seq :=
                             skip_lost missing_seq (n_expected_seq n) (n_highest_seen_seq n) |>);;
                    r ← get_root;
                    mret (Z.max 0 (n_expected_seq (node_at r i) - 1))
                  else mret 0
              | None => mret 0
              end;
    _ ← send_control from MESH_V2_TYPE_ACK (h_session_id h) ack_seq 0; mret tt.

Definition handle_tunnel_lost (h : mesh_v2_hdr_t) (payload : bytes) : RootM unit :=
  if h_payload_len h <? Z.of_nat sizeof_tunnel_nack then mret tt
  else
    let p := decode_tunnel_nack payload in
    let ch := tk_channel_id p in
    if negb (tunnel_channel_ok ch) then mret tt
    else
      found ← find_node (tk_origin_mac p) true;
      r ← get_root;
      match found with
      | Some i =>
          when (n_session_id (node_at r i) =? h_session_id h)
            (now ← ms_now;
             mod_node_at i (fun n =>
               (mod_rx_chan ch (fun rx =>
                 rx <| rr_lost_count ::= fun c => u32 (c + 1) |> <| rr_has_gap := true |>
                    <| rr_last_ms := now |>
                    <| rr_expected_seq := skip_lost (tk_missing_seq p) (rr_expected_seq rx)
                                            (rr_highest_seen_seq rx) |>) n)
               <| n_last_tunnel_ms := now |> <| n_tunnel_seen := true |>))
      | None => mret tt
      end.

Definition handle_tunnel_ack (h : mesh_v2_hdr_t) (payload : bytes) : RootM unit :=
  if h_payload_len h <? Z.of_nat sizeof_tunnel_ack then mret tt
  else
    let p := decode_tunnel_ack payload in
    let ch := ta_channel_id p in
    if negb (tunnel_channel_ok ch) then mret tt
    else
      found ← find_node (h_src_mac h) false;
      r ← get_root;
      match found with
      | Some i =>
          when (n_session_id (node_at r i) =? h_session_id h)
            (now ← ms_now;
             mod_node_at i (fun n =>
               (mod_tx_chan ch (fun tx => tx <| rt_last_ack_seq := ta_ack_seq p |>) n)
               <| n_last_tunnel_ms := now |> <| n_tunnel_seen := true |>))
      | None => mret tt
      end.

(** The start of another session in the middle: its first packet is the expected one. *)
Definition join_session (i : nat) (session_id seq : Z)
  (late : root_node_state_t -> root_node_state_t) : RootM unit :=
  r ← get_root;
  when (negb (n_session_id (node_at r i) =? session_id))
    (reset_session_at i session_id;; when (1 <? seq) (mod_node_at i late)).

(** Nothing is delivered, and the answer acknowledges 0. *)
Definition no_verdict : seq_verdict :=
  {| sv_deliver := false; sv_send_nack := false; sv_ack_seq := 0; sv_missing_seq := 0 |}.

Definition tunnel_state_step (h : mesh_v2_hdr_t) (t : mesh_v2_tunnel_hdr_t)
  : RootM seq_verdict :=
  let ch := tu_channel_id t in
  found ← find_node (tu_origin_mac t) true;
  match found with
  | None => mret no_verdict
  | Some i =>
      join_session i (h_session_id h) (tu_seq t)
        (mod_rx_chan ch (fun rx => rx <| rr_expected_seq := tu_seq t |>
                                      <| rr_highest_seen_seq := tu_seq t |>));;
      now ← ms_now;
      r ← get_root;
      let receive :=
        tunnel_receive_rx (tu_seq t) now (has_flag (tu_flags t) MESH_V2_TUNNEL_FLAG_REPLAY) in
      mod_node_at i (fun n =>
        (mod_rx_chan ch (fun rx => (receive rx).2) n)
        <| n_tunnel_seen := true |> <| n_last_tunnel_ms := now |> <| n_last_v2_ms := now |>);;
      mret (receive (root_rx_at (node_at r i) ch)).1
  end.

Definition handle_tunnel_data (h : mesh_v2_hdr_t) (payload : bytes) : RootM unit :=
  if h_payload_len h <? Z.of_nat sizeof_tunnel_hdr then mret tt
  else
    let t := decode_tunnel_hdr payload in
    let inner_space := h_payload_len h - Z.of_nat sizeof_tunnel_hdr in
    if negb (tunnel_channel_ok (tu_channel_id t)) || (inner_space <? tu_payload_len t)
       || (MESH_V2_TUNNEL_INNER_MAX <? tu_payload_len t) then mret tt
    else
      self ← local_mac;
      if negb (mac_zero (tu_target_mac t)) && negb (mac_eq (tu_target_mac t) self) then mret tt
      else
        v ← tunnel_state_step h t;
        err ← (if sv_send_nack v then send_tunnel_nack h t (sv_missing_seq v)
               else send_tunnel_ack h t (sv_ack_seq v));
        note_ack_tx_result (tu_origin_mac t) err;;
        when (sv_deliver v) (deliver_tunnel_payload t (drop sizeof_tunnel_hdr payload)).

Definition legacy_state_step (h : mesh_v2_hdr_t) : RootM seq_verdict :=
  found ← find_node (h_src_mac h) true;
  match found with
  | None => mret no_verdict
  | Some i =>
      join_session i (h_session_id h) (h_seq h)
        (fun n => n <| n_expected_seq := h_seq h |> <| n_highest_seen_seq := h_seq h |>);;
      now ← ms_now;
      r ← get_root;
      let replay := has_flag (h_flags h) MESH_V2_FLAG_REPLAY in
      mod_node_at i (fun n => (legacy_receive (h_seq h) now replay n).2);;
      mret (legacy_receive (h_seq h) now replay (node_at r i)).1
  end.

Definition handle_reliable_legacy_v2 (from : bytes) (h : mesh_v2_hdr_t) (payload : bytes)
  : RootM unit :=
  v ← legacy_state_step h;
  err ← (if sv_send_nack v
         then send_control from MESH_V2_TYPE_NACK (h_session_id h) (sv_ack_seq v)
                (sv_missing_seq v)
         else send_control from MESH_V2_TYPE_ACK (h_session_id h) (sv_ack_seq v) 0);
  note_ack_tx_result (h_src_mac h) err;;
  when (sv_deliver v) (deliver_legacy_v2_payload h payload).

(** ** Reception *)

Definition root_is_reliable_type (type : Z) : bool :=
  (MESH_V2_TYPE_RELIABLE_HELLO <=? type) && (type <=? MESH_V2_TYPE_RELIABLE_LOST).

(** A packet of the reliable layer: its sender's route is up. *)
Definition root_handle_reliable (from packet : bytes) : RootM esp_err_t :=
  started ← has_rel;
  init_err ← (if (started : bool) then mret ESP_OK else mesh_v2_root_init);
  if negb (err_eqb init_err ESP_OK) then mret init_err
  else
    taken ← os (mutex_take 1000);
    if negb taken then mret ESP_ERR_TIMEOUT
    else
      rel_peer_route from true;;
      rel_err ← on_rel ESP_ERR_INVALID_STATE (@keemash_rel_handle_rx _ root_env from packet);
      let probe := decode_hdr packet in
      when (err_eqb rel_err ESP_OK && (h_type probe =? MESH_V2_TYPE_RELIABLE_HELLO)
            && (Z.of_nat sizeof_hello <=? h_payload_len probe)
            && (sizeof_hdr + sizeof_hello <=? length packet)%nat)
        (note_reliable_hello_metadata from (decode_hello (drop sizeof_hdr packet)));;
      keemash_mesh_root_on_state_changed;;
      mret rel_err.

Definition root_handle_legacy (from : bytes) (h : mesh_v2_hdr_t) (payload : bytes)
  : RootM unit :=
  let type := h_type h in
  if type =? MESH_V2_TYPE_HELLO then handle_hello from h payload
  else if type =? MESH_V2_TYPE_TUNNEL_DATA then handle_tunnel_data h payload
  else if type =? MESH_V2_TYPE_TUNNEL_ACK then handle_tunnel_ack h payload
  else if type =? MESH_V2_TYPE_TUNNEL_LOST then handle_tunnel_lost h payload
  else if type =? MESH_V2_TYPE_LOST then handle_lost from h payload
  else when ((type =? MESH_V2_TYPE_NODEINFO) || (type =? MESH_V2_TYPE_LOG_LINE))
         (handle_reliable_legacy_v2 from h payload).

Definition mesh_v2_root_handle_rx (from packet : bytes) : RootM esp_err_t :=
  let probe := decode_hdr packet in
  if (sizeof_hdr <=? length packet)%nat && (h_magic probe =? MESH_PKT_MAGIC)
     && (h_version probe =? MESH_PKT_VERSION_V2) && root_is_reliable_type (h_type probe)
  then root_handle_reliable from packet
  else
    match validate_packet packet with
    | None => mret ESP_ERR_INVALID_ARG
    | Some (h, payload) =>
        if negb (mac_eq from (h_src_mac h)) then mret ESP_ERR_INVALID_CRC
        else if h_type h =? MESH_V2_TYPE_PONG then handle_pong from h payload
        else root_handle_legacy from h payload;; mret ESP_OK
    end.

(** ** Statistics *)

Record mesh_v2_root_stats_t := {
  rs_seen : bool; rs_tunnel_seen : bool; rs_has_gap : bool; rs_session_id : Z;
  rs_expected_seq : Z; rs_gap_count : Z; rs_replay_count : Z; rs_lost_count : Z;
  rs_last_v2_ms : Z; rs_last_tunnel_ms : Z; rs_last_rel_log_ms : Z; rs_last_ack_tx_ms : Z;
  rs_last_ack_err : Z; rs_reliable_ready : bool; rs_root_session_id : Z;
  rs_node_session_id : Z; rs_tx_unacked : nat; rs_reorder_depth : nat; rs_rto_ms : Z;
  rs_retry_count : Z; rs_ack_age_ms : Z; rs_rtt_ms : Z; rs_ping_valid : bool; rs_ping_ms : Z;
  rs_ping_age_ms : Z; rs_ping_timeout_count : Z; rs_overflow_count : Z; rs_lost_reason : Z;
  rs_capabilities : Z; rs_route_up : bool; rs_route_down_age_ms : Z;
  rs_duplicate_tag_count : Z; rs_time_superseded_count : Z }.

#[export] Instance eta_root_stats : Eta mesh_v2_root_stats_t := fun s =>
  Build_mesh_v2_root_stats_t (rs_seen s) (rs_tunnel_seen s) (rs_has_gap s) (rs_session_id s)
    (rs_expected_seq s) (rs_gap_count s) (rs_replay_count s) (rs_lost_count s)
    (rs_last_v2_ms s) (rs_last_tunnel_ms s) (rs_last_rel_log_ms s) (rs_last_ack_tx_ms s)
    (rs_last_ack_err s) (rs_reliable_ready s) (rs_root_session_id s) (rs_node_session_id s)
    (rs_tx_unacked s) (rs_reorder_depth s) (rs_rto_ms s) (rs_retry_count s)
    (rs_ack_age_ms s) (rs_rtt_ms s) (rs_ping_valid s) (rs_ping_ms s) (rs_ping_age_ms s)
    (rs_ping_timeout_count s) (rs_overflow_count s) (rs_lost_reason s) (rs_capabilities s)
    (rs_route_up s) (rs_route_down_age_ms s) (rs_duplicate_tag_count s)
    (rs_time_superseded_count s).

Definition root_stats_zero : mesh_v2_root_stats_t :=
  {| rs_seen := false; rs_tunnel_seen := false; rs_has_gap := false; rs_session_id := 0;
     rs_expected_seq := 0; rs_gap_count := 0; rs_replay_count := 0; rs_lost_count := 0;
     rs_last_v2_ms := 0; rs_last_tunnel_ms := 0; rs_last_rel_log_ms := 0;
     rs_last_ack_tx_ms := 0; rs_last_ack_err := 0; rs_reliable_ready := false;
     rs_root_session_id := 0; rs_node_session_id := 0; rs_tx_unacked := 0;
     rs_reorder_depth := 0; rs_rto_ms := 0; rs_retry_count := 0; rs_ack_age_ms := 0;
     rs_rtt_ms := 0; rs_ping_valid := false; rs_ping_ms := 0; rs_ping_age_ms := 0;
     rs_ping_timeout_count := 0; rs_overflow_count := 0; rs_lost_reason := 0;
     rs_capabilities := 0; rs_route_up := false; rs_route_down_age_ms := 0;
     rs_duplicate_tag_count := 0; rs_time_superseded_count := 0 |}.

(** A tunnel channel added to the sums. *)
Definition add_channel (s : mesh_v2_root_stats_t) (rx : root_rx_channel_t)
  : mesh_v2_root_stats_t :=
  s <| rs_gap_count ::= fun c => u32 (c + rr_gap_count rx) |>
    <| rs_replay_count ::= fun c => u32 (c + rr_replay_count rx) |>
    <| rs_lost_count ::= fun c => u32 (c + rr_lost_count rx) |>
    <| rs_has_gap ::= fun g => g || rr_has_gap rx |>
    <| rs_last_tunnel_ms ::= fun t => if t <? rr_last_ms rx then rr_last_ms rx else t |>.

(** [now] and [now'] are the times the two ages are computed with. *)
Definition node_stats (now now' : Z) (n : root_node_state_t) : mesh_v2_root_stats_t :=
  let s := root_stats_zero <| rs_seen := true |> <| rs_tunnel_seen := n_tunnel_seen n |>
    <| rs_has_gap := n_has_gap n |> <| rs_session_id := n_session_id n |>
    <| rs_expected_seq := n_expected_seq n |> <| rs_gap_count := n_gap_count n |>
    <| rs_replay_count := n_replay_count n |> <| rs_lost_count := n_lost_count n |>
    <| rs_last_v2_ms := n_last_v2_ms n |> <| rs_last_tunnel_ms := n_last_tunnel_ms n |>
    <| rs_last_rel_log_ms := n_last_rel_log_ms n |>
    <| rs_last_ack_tx_ms := n_last_ack_tx_ms n |> <| rs_last_ack_err := n_last_ack_err n |>
    <| rs_capabilities := n_capabilities n |> <| rs_route_up := n_route_up n |>
    <| rs_route_down_age_ms := if negb (n_route_up n) && negb (n_route_changed_ms n =? 0)
                               then u32 (now - n_route_changed_ms n) else 0 |>
    <| rs_time_superseded_count := n_time_superseded_count n |>
    <| rs_duplicate_tag_count := n_duplicate_tag_count n |>
    <| rs_ping_valid := n_ping_valid n |> <| rs_ping_ms := n_ping_ms n |>
    <| rs_ping_age_ms := if negb (n_ping_last_rx_ms n =? 0)
                         then u32 (now' - n_ping_last_rx_ms n) else UINT32_MAX |>
    <| rs_ping_timeout_count := n_ping_timeout_count n |> in
  let s := fold_left add_channel (drop 1 (n_rx n)) s in
  s <| rs_last_v2_ms ::= fun t => if t <? rs_last_tunnel_ms s then rs_last_tunnel_ms s else t |>.

Definition add_reliable (rel : keemash_rel_stats_t) (s : mesh_v2_root_stats_t)
  : mesh_v2_root_stats_t :=
  s <| rs_seen := true |> <| rs_reliable_ready := st_ready rel |>
    <| rs_root_session_id := st_root_session_id rel |>
    <| rs_node_session_id := st_node_session_id rel |> <| rs_tx_unacked := st_tx_unacked rel |>
    <| rs_reorder_depth := st_reorder_depth rel |> <| rs_rto_ms := st_rto_ms rel |>
    <| rs_retry_count := st_retry_count rel |> <| rs_ack_age_ms := st_ack_age_ms rel |>
    <| rs_rtt_ms := st_rtt_ms rel |> <| rs_overflow_count := st_overflow_count rel |>
    <| rs_lost_reason := st_lost_reason rel |> <| rs_route_up := st_route_up rel |>
    <| rs_route_down_age_ms := st_route_down_age_ms rel |>
    <| rs_capabilities ::= fun c => Z.lor c (st_capabilities rel) |>
    <| rs_replay_count ::= fun c => u32 (c + st_replay_count rel) |>
    <| rs_lost_count ::= fun c => u32 (c + st_lost_count rel) |>
    <| rs_has_gap ::= fun g => g || (0 <? st_reorder_depth rel)%nat |>.

(** What is written to [out]; the value returned is its [seen]. *)
Definition mesh_v2_root_stats_for_mac (mac : bytes) : RootM mesh_v2_root_stats_t :=
  found ← find_node mac false;
  r ← get_root;
  s ← match found with
      | Some i => now ← ms_now; now' ← ms_now; mret (node_stats now now' (node_at r i))
      | None => mret root_stats_zero
      end;
  taken ← rel_taken 100;
  rel ← (if (taken : bool) then on_rel None (keemash_rel_stats (Some mac)) else mret None);
  mret (from_option (fun st => add_reliable st s) s rel).

Definition mesh_v2_root_tunnel_ready_for_mac (mac : bytes) : RootM bool :=
  found ← find_node mac false;
  r ← get_root;
  mret (match found with
        | Some i => n_tunnel_seen (node_at r i) && negb (n_session_id (node_at r i) =? 0)
        | None => false
        end).

Definition peer_advertised_lossless (mac : bytes) : RootM bool :=
  found ← find_node mac false;
  r ← get_root;
  mret (match found with
        | Some i => Z.land (n_capabilities (node_at r i)) required_caps =? required_caps
        | None => false
        end).

(** ** Requests to a node *)

(** Over the reliable layer when the peer is ready there. *)
Definition send_if_ready (ms : Z) (mac : bytes) (channel : Z) (payload : RootM bytes)
  (priority : Z) : RootM esp_err_t :=
  taken ← rel_taken ms;
  if negb taken then mret ESP_ERR_INVALID_STATE
  else
    ready ← rel_peer_ready mac;
    if (ready : bool) then p ← payload; rel_send mac channel p priority
    else mret ESP_ERR_INVALID_STATE.

(** Through the tunnel: the session, and the number taken from the channel. *)
Definition take_tunnel_seq (mac : bytes) (channel : Z) : RootM (option (Z * Z)) :=
  found ← find_node mac false;
  r ← get_root;
  match found with
  | Some i =>
      let n := node_at r i in
      if n_tunnel_seen n && negb (n_session_id n =? 0) then
        mod_node_at i (mod_tx_chan channel (fun tx =>
          tx <| rt_next_seq ::= fun s => u32 (s + 1) |>));;
        mret (Some (n_session_id n, rt_next_seq (root_tx_at n channel)))
      else mret None
  | None => mret None
  end.

Definition tunnel_hdr_to_node (channel seq inner_len : Z) (root_mac mac : bytes)
  : mesh_v2_tunnel_hdr_t :=
  {| tu_channel_id := channel; tu_flags := root_tunnel_flags;
     tu_ttl := MESH_V2_TUNNEL_TTL_DEFAULT; tu_fragment_count := 1;
     tu_payload_len := inner_len; tu_fragment_index := 0; tu_stream_id := channel;
     tu_seq := seq; tu_ack_seq := 0; tu_sack_bitmap := 0; tu_origin_mac := root_mac;
     tu_target_mac := mac |}.

Definition send_through_tunnel (mac : bytes) (channel : Z) (inner : bytes)
  : RootM esp_err_t :=
  root_mac ← local_mac;
  seq ← take_tunnel_seq mac channel;
  match seq with
  | Some (session_id, seq) =>
      if seq =? 0 then mret ESP_ERR_INVALID_STATE
      else
        err ← send_packet_to_mac mac MESH_V2_TYPE_TUNNEL_DATA session_id 0 0
                (encode_tunnel_hdr (tunnel_hdr_to_node channel seq (Z.of_nat (length inner))
                   root_mac mac) ++ inner);
        note_ack_tx_result mac err;;
        mret err
  | None => mret ESP_ERR_INVALID_STATE
  end.

(** A peer of the reliable layer has no other way. *)
Definition with_fallback (mac : bytes) (channel : Z) (inner : bytes) (rel_err : esp_err_t)
  : RootM esp_err_t :=
  if err_eqb rel_err ESP_OK then mret ESP_OK
  else
    lossless ← peer_advertised_lossless mac;
    if (lossless : bool) then mret rel_err else send_through_tunnel mac channel inner.

Definition mesh_v2_root_send_log_ctrl (mac : bytes) (enable : bool) : RootM esp_err_t :=
  let txt := if enable then RootText.log_on else RootText.log_off in
  rel_err ← send_if_ready 500 mac MESH_V2_TUNNEL_CHANNEL_CONTROL
              (now ← ms_now;
               mret (control_payload MESH_V2_CONTROL_COMMAND 0 now txt None))
              KEEMASH_REL_PRIORITY_CONTROL;
  with_fallback mac MESH_V2_TUNNEL_CHANNEL_CONTROL
    (encode_tunnel_log_ctrl (if enable then 1 else 0)) rel_err.

Definition mesh_v2_root_send_task_request (mac : bytes) (request_id : Z) : RootM esp_err_t :=
  let req := encode_task_request {| tq_request_id := request_id; tq_detail := 1 |} in
  rel_err ← send_if_ready 500 mac MESH_V2_TUNNEL_CHANNEL_TASK (mret req)
              KEEMASH_REL_PRIORITY_HIGH;
  with_fallback mac MESH_V2_TUNNEL_CHANNEL_TASK req rel_err.

Definition mesh_v2_root_send_ota_payload (mac payload : bytes) : RootM esp_err_t :=
  if (length payload =? 0)%nat then mret ESP_ERR_INVALID_ARG
  else with_rel 1000
    (ready ← rel_peer_ready mac;
     if (ready : bool)
     then rel_send mac MESH_V2_TUNNEL_CHANNEL_OTA payload KEEMASH_REL_PRIORITY_OTA
     else mret ESP_ERR_INVALID_STATE).

Definition mesh_v2_root_send_ota_v3_message {Pb : Nanopb} (mac : bytes)
  (message : OtaMeshMessage) : RootM esp_err_t :=
  alloc ← os heap_ok;
  if negb alloc then mret ESP_ERR_NO_MEM
  else match keemash_ota_v3_encode_mesh_message message OtaMeshMessage_size with
       | inl err => mret err
       | inr wire => mesh_v2_root_send_ota_payload mac wire
       end.
(** ** Peers and commands *)

Definition caps_cover (caps required_caps' : Z) : bool :=
  let required := Z.lor required_caps required_caps' in Z.land caps required =? required.

Definition mesh_v2_root_peer_advertises_lossless (mac : bytes) (required : Z) : RootM bool :=
  taken ← rel_taken 100;
  if negb taken then mret false
  else caps ← rel_peer_capabilities mac; mret (caps_cover caps required).

Definition mesh_v2_root_peer_lossless (mac : bytes) (required : Z) : RootM bool :=
  taken ← rel_taken 100;
  if negb taken then mret false
  else
    caps ← rel_peer_capabilities mac;
    ready ← rel_peer_ready mac;
    mret (ready && caps_cover caps required).

Definition zero_operation (operation_id : option mesh_v2_operation_id_t) : bool :=
  match operation_id with
  | Some op => (op_high op =? 0) && (op_low op =? 0)
  | None => false
  end.

Definition mesh_v2_root_send_command_operation (mac : bytes) (command_id : Z)
  (command : bytes) (operation_id : option mesh_v2_operation_id_t) : RootM esp_err_t :=
  let len := Z.of_nat (length command) in
  if len =? 0 then mret ESP_ERR_INVALID_ARG
  else if MESH_V2_CONTROL_TEXT_MAX <=? len then mret ESP_ERR_INVALID_SIZE
  else if zero_operation operation_id then mret ESP_ERR_INVALID_ARG
  else
    supported ← (if is_some operation_id
                 then mesh_v2_root_peer_advertises_lossless mac MESH_V2_CAP_OPERATION_ID
                 else mret true);
    if negb supported then mret ESP_ERR_NOT_SUPPORTED
    else with_rel 500
      (let payload_len := keemash_mesh_control_payload_size len (is_some operation_id) in
       if (payload_len =? 0) || (MESH_V2_RELIABLE_INNER_MAX <? payload_len)
       then mret ESP_ERR_INVALID_SIZE
       else rel_send mac MESH_V2_TUNNEL_CHANNEL_CONTROL
              (control_payload MESH_V2_CONTROL_COMMAND 0 command_id command operation_id)
              KEEMASH_REL_PRIORITY_CONTROL).

Definition mesh_v2_root_send_command (mac : bytes) (command_id : Z) (command : bytes)
  : RootM esp_err_t := mesh_v2_root_send_command_operation mac command_id command None.

Definition mesh_v2_root_command_result_for_peer (mac : bytes) (command_id : Z)
  : RootM (option command_result_slot_t) :=
  rel ← current_rel_stats mac;
  r ← get_root;
  mret (first_result (fun c => (cr_command_id c =? command_id) && result_of_peer mac rel c) r).

Definition mesh_v2_root_command_result (command_id : Z)
  : RootM (option command_result_slot_t) :=
  r ← get_root;
  mret (first_result (fun c => cr_used c && (cr_command_id c =? command_id)) r).

Definition mesh_v2_root_command_result_for_operation (mac : bytes)
  (operation_id : mesh_v2_operation_id_t) : RootM (option command_result_slot_t) :=
  if zero_operation (Some operation_id) then mret None
  else
    rel ← current_rel_stats mac;
    r ← get_root;
    mret (first_result (result_of_operation mac operation_id rel) r).

(** The recursion of the source on an identifier of 0 is at most one deep. *)
Definition take_command_id : RootM Z :=
  r ← get_root;
  mod_root (fun r => r <| s_next_command_id ::= fun n =>
    let next := u32 (n + 1) in if next =? 0 then 1 else next |>);;
  mret (s_next_command_id r).

Definition mesh_v2_root_next_command_id : RootM Z :=
  id ← take_command_id; if id =? 0 then take_command_id else mret id.

(** The only fresh node with a tag; several with the same tag are counted. *)
Definition find_fresh_by_tag (tag : bytes) : RootM (option bytes) :=
  now ← ms_now;
  r ← get_root;
  let matches := filter (fun n => tag_match now tag n = true) (s_nodes r) in
  when (1 <? length matches)%nat
    (mod_root (fun r => r <| s_nodes ::= fmap (count_duplicate tag) |>));;
  mret (match matches with [n] => Some (n_mac n) | _ => None end).

Definition mesh_v2_root_find_ready_by_tag (tag : bytes) : RootM (option bytes) :=
  match tag with
  | [] => mret None
  | _ =>
      found ← find_fresh_by_tag tag;
      match found with
      | None => mret None
      | Some mac =>
          taken ← rel_taken 100;
          if negb taken then mret None
          else ready ← rel_peer_ready mac; mret (if (ready : bool) then Some mac else None)
      end
  end.

Definition mesh_v2_root_find_lossless_by_tag (tag : bytes) (required : Z)
  : RootM (option bytes) :=
  match tag with
  | [] => mret None
  | _ =>
      found ← find_fresh_by_tag tag;
      match found with
      | None => mret None
      | Some mac =>
          taken ← rel_taken 100;
          if negb taken then mret None
          else
            ready ← rel_peer_ready mac;
            caps ← rel_peer_capabilities mac;
            mret (if ready && caps_cover caps required then Some mac else None)
      end
  end.

(** ** The time *)

Definition put_time (generation epoch_sec source_uptime_s : Z) (superseded : bool)
  (n : root_node_state_t) : root_node_state_t :=
  n <| n_time_superseded_count ::= fun c => if superseded then u32 (c + 1) else c |>
    <| n_pending_time := {| tp_epoch_sec := epoch_sec; tp_generation := generation;
                            tp_source_uptime_s := source_uptime_s |} |>
    <| n_time_pending := true |>.

Definition mesh_v2_root_queue_time (mac : bytes) (generation epoch_sec source_uptime_s : Z)
  : RootM esp_err_t :=
  if generation =? 0 then mret ESP_ERR_INVALID_ARG
  else
    taken ← rel_taken 100;
    if negb taken then mret ESP_ERR_INVALID_STATE
    else
      found ← find_node mac false;
      r ← get_root;
      match found with
      | None => mret ESP_ERR_NOT_SUPPORTED
      | Some i =>
          if Z.land (n_capabilities (node_at r i)) MESH_V2_CAP_TYPED_TIME =? 0
          then mret ESP_ERR_NOT_SUPPORTED
          else
            let pending := n_time_pending (node_at r i) in
            removed ← rel_supersede mac;
            found ← find_node mac false;
            match found with
            | None => mret ESP_ERR_NOT_FOUND
            | Some i =>
                mod_node_at i (put_time generation epoch_sec source_uptime_s
                  (pending || negb (removed =? 0)%nat));;
                mret ESP_OK
            end
      end.

Definition takes_time (n : root_node_state_t) : bool :=
  n_used n && caps_cover (n_capabilities n) MESH_V2_CAP_TYPED_TIME.

Definition mesh_v2_root_queue_time_all (generation epoch_sec source_uptime_s : Z)
  : RootM nat :=
  if generation =? 0 then mret 0%nat
  else
    taken ← rel_taken 100;
    if negb taken then mret 0%nat
    else
      r ← get_root;
      let peers := filter (fun n => takes_time n = true) (s_nodes r) in
      for_each peers (fun n =>
        removed ← rel_supersede (n_mac n);
        with_node (n_mac n) false (put_time generation epoch_sec source_uptime_s
          (n_time_pending n || negb (removed =? 0)%nat)));;
      mret (length peers).

(** ** Routes *)

(** [macs] are the nodes the mesh reaches now. *)
Definition route_present (macs : list bytes) (n : root_node_state_t) : bool :=
  existsb (mac_eq (n_mac n)) macs.

Definition route_update (macs : list bytes) (now : Z) (n : root_node_state_t)
  : root_node_state_t :=
  if negb (n_used n) then n
  else
    let present := route_present macs n in
    let n := n <| n_route_changed_ms ::= fun t =>
                    if Bool.eqb (n_route_up n) present then t else now |>
               <| n_route_up := present |> in
    if present then n else n <| n_ping_pending := false |> <| n_ping_valid := false |>.

Definition mesh_v2_root_sync_routes (macs : list bytes) : RootM unit :=
  now ← ms_now;
  for_each macs (fun mac => with_node mac true (fun n =>
    n <| n_route_changed_ms ::= fun t => if n_route_up n then t else now |>
      <| n_route_up := true |>));;
  mod_root (fun r => r <| s_nodes ::= fmap (route_update macs now) |>);;
  r ← get_root;
  taken ← rel_taken 500;
  when taken
    (for_each (filter (fun n => n_used n = true) (s_nodes r)) (fun n =>
       rel_peer_route (n_mac n) (n_route_up n));;
     keemash_mesh_root_on_state_changed).
End Root.
