(* ===== verification/RootInv.v ===== *)
(** * The root facade: every operation is a composition of steps

    [RootStep T] lists what the facade does to its state: calls of the system, of the
    application and of the core, and the updates of its tables.  Every operation is a
    composition of these, so every operation is stable under [T]. *)

From S2P Require Import Prelude.
From S2P Require Import Words.
From S2P Require Import Esp.
From S2P Require Import Rtos.
From S2P Require Import MeshProto.
From S2P Require Import MeshProtoV1.
From S2P Require Import MeshProtoV2.
From S2P Require Import MeshWire.
From S2P Require Import RelState.
From S2P Require Import RelOps.
From S2P Require Import RelQuiet.
From S2P Require Import RelInv.
From S2P Require Import RelFrame.
From S2P Require Import OtaTypes.
From S2P Require Import OtaV3.
From S2P Require Import Facade.
From S2P Require Import FacadeInv.
From S2P Require Import NodeState.
From S2P Require Import RootState.
From S2P Require Import Root.
#[local] Open Scope Z_scope.

(** The hooks move the state along [T]; a hook that calls the facade's own operations
    does when they do. *)
Class RootHooks {U : Type} (RE : RootEnv U) (T : relation (fstate root_t U)) := {
  state_changed_moves : stable T keemash_mesh_root_on_state_changed;
  node_seen_moves : forall m t, stable T (keemash_mesh_root_on_node_seen m t);
  node_uptime_moves : forall m t b u, stable T (keemash_mesh_root_on_node_seen_uptime m t b u);
  log_line_moves : forall m t l, stable T (keemash_mesh_root_on_log_line m t l);
  task_moves : forall m p, stable T (keemash_mesh_root_on_task_snapshot m p);
  memory_moves : forall m p, stable T (keemash_mesh_root_on_memory_snapshot m p);
  sensor_moves : forall m p, stable T (keemash_mesh_root_on_sensor_snapshot m p);
  ota_v3_moves : forall m p, stable T (keemash_mesh_root_on_ota_v3_message m p);
  ota_status_moves : forall m p, stable T (keemash_mesh_root_on_ota_status m p);
  topology_moves : forall m p, stable T (keemash_mesh_root_on_topology m p);
  control_moves : forall m rs ns k i st t op,
    stable T (keemash_mesh_root_on_control_ex m rs ns k i st t op) }.

#[export] Hint Extern 1 (stable _ keemash_mesh_root_on_state_changed) =>
  apply state_changed_moves : stable.
#[export] Hint Extern 1 (stable _ (keemash_mesh_root_on_node_seen _ _)) =>
  apply node_seen_moves : stable.
#[export] Hint Extern 1 (stable _ (keemash_mesh_root_on_node_seen_uptime _ _ _ _)) =>
  apply node_uptime_moves : stable.
#[export] Hint Extern 1 (stable _ (keemash_mesh_root_on_log_line _ _ _)) =>
  apply log_line_moves : stable.
#[export] Hint Extern 1 (stable _ (keemash_mesh_root_on_task_snapshot _ _)) =>
  apply task_moves : stable.
#[export] Hint Extern 1 (stable _ (keemash_mesh_root_on_memory_snapshot _ _)) =>
  apply memory_moves : stable.
#[export] Hint Extern 1 (stable _ (keemash_mesh_root_on_sensor_snapshot _ _)) =>
  apply sensor_moves : stable.
#[export] Hint Extern 1 (stable _ (keemash_mesh_root_on_ota_v3_message _ _)) =>
  apply ota_v3_moves : stable.
#[export] Hint Extern 1 (stable _ (keemash_mesh_root_on_ota_status _ _)) =>
  apply ota_status_moves : stable.
#[export] Hint Extern 1 (stable _ (keemash_mesh_root_on_topology _ _)) =>
  apply topology_moves : stable.
#[export] Hint Extern 1 (stable _ (keemash_mesh_root_on_control_ex _ _ _ _ _ _ _ _)) =>
  apply control_moves : stable.

(** An update of a node that keeps its place in the table: its address, its channels
    and whether it is used; it starts no ping.  Or it frees the slot. *)
Definition node_plain (f : root_node_state_t -> root_node_state_t) : Prop :=
  forall n, f n = root_node_zero \/
    n_used (f n) = n_used n /\ n_mac (f n) = n_mac n /\
    (length (n_rx n) = TUNNEL_CHANNELS -> length (n_rx (f n)) = TUNNEL_CHANNELS) /\
    (length (n_tx n) = TUNNEL_CHANNELS -> length (n_tx (f n)) = TUNNEL_CHANNELS) /\
    (n_ping_pending (f n) = true -> n_ping_pending n = true).

Ltac node_plain :=
  intros ?; right; cbn; unfold setter; rewrite ?length_alter, ?length_replicate;
  split_and!; done || auto.

Lemma plain_id : node_plain (fun n => n).
Proof. node_plain. Qed.

Lemma plain_if (b : root_node_state_t -> bool) f g :
  node_plain f -> node_plain g -> node_plain (fun n => if b n then f n else g n).
Proof. intros Hf Hg n. destruct (b n); auto. Qed.

(** ** Calls of the core *)

Section Core.
Context {U : Type} {RC : RootConfig} {RK : RelKconfig} {RE : RootEnv U}.

(** The core's invariant is kept, and the facade moves only as the hook on a lost
    message does. *)
Definition core_call {A : Type} (m : Rel (facade root_t * U) A) : Prop :=
  (stable (keeps fac_wf) keemash_mesh_root_on_state_changed -> pres m) /\
  (forall T : relation (facade root_t), PreOrder T ->
     stable (own T) keemash_mesh_root_on_state_changed ->
     stable (along (fun w w' => T w.1 w'.1)) m).

Lemma send_cb_own (T : relation (facade root_t)) `{!PreOrder T} dst packet :
  stable (own T) (rel_send_cb dst packet).
Proof. unfold rel_send_cb. destruct (_ =? _)%nat; [apply stable_ret, _|apply os_own, _]. Qed.

Lemma send_cb_wf dst packet : stable (keeps fac_wf) (rel_send_cb dst packet).
Proof. unfold rel_send_cb. destruct (_ =? _)%nat; [apply stable_ret, _|apply os_wf]. Qed.

Lemma root_quiet_keeps :
  stable (keeps fac_wf) keemash_mesh_root_on_state_changed ->
  @CbKeeps (facade root_t * U) root_quiet_env.
Proof.
  intros H. apply rel_env_keeps; [apply send_cb_wf|intros; apply stable_ret, _|intros; exact H].
Qed.

Lemma root_quiet_along (T : relation (facade root_t)) `{!PreOrder T} :
  stable (own T) keemash_mesh_root_on_state_changed ->
  @CbAlong (facade root_t * U) root_quiet_env (fun w w' => T w.1 w'.1).
Proof. intros H. apply (rel_env_along T); [by apply send_cb_own|intros; exact H]. Qed.

Ltac core_call :=
  split; [intros H; pose proof (root_quiet_keeps H)
         |intros T ? H; pose proof (root_quiet_along T H)].

Lemma core_send mac ch p prio :
  prio <= KEEMASH_REL_PRIORITY_CONTROL ->
  core_call (@keemash_rel_send _ root_quiet_env mac ch p prio).
Proof.
  intros Hp. core_call; [|by apply send_along'].
  unfold keemash_rel_send. refine (stable_bind _ _ _ _ _); [by apply submit_pres|intros ?].
  refine (stable_ret _ _).
Qed.
Lemma core_ready mac : core_call (@keemash_rel_peer_ready _ root_quiet_env mac).
Proof.
  core_call; [|by apply peer_ready_along].
  unfold keemash_rel_peer_ready, with_peer. quiet_go; apply peer_find_pres.
Qed.
Lemma core_stats mac : core_call (@keemash_rel_stats _ root_quiet_env mac).
Proof.
  core_call; [|by apply stats_along].
  unfold keemash_rel_stats, with_peer. quiet_go; apply peer_find_pres.
Qed.
Lemma core_capabilities mac : core_call (@keemash_rel_peer_capabilities _ root_quiet_env mac).
Proof.
  core_call; [|by apply capabilities_along].
  unfold keemash_rel_peer_capabilities, with_peer. quiet_go; apply peer_find_pres.
Qed.
Lemma core_unacked mac ch : core_call (@keemash_rel_channel_unacked _ root_quiet_env mac ch).
Proof.
  core_call; [|by apply unacked_along].
  unfold keemash_rel_channel_unacked, with_peer. quiet_go; apply peer_find_pres.
Qed.
Lemma core_supersede mac ch :
  core_call (@keemash_rel_supersede_channel _ root_quiet_env mac ch).
Proof. core_call; [apply supersede_pres|by apply supersede_along]. Qed.
Lemma core_remove mac : core_call (@keemash_rel_remove_peer _ root_quiet_env mac).
Proof. core_call; [apply remove_peer_pres|by apply remove_along]. Qed.
Lemma core_route mac up : core_call (@keemash_rel_peer_route _ root_quiet_env mac up).
Proof. core_call; [apply peer_route_pres|by apply peer_route_along]. Qed.
Lemma core_session : core_call (keemash_rel_local_session (W := facade root_t * U)).
Proof. split; [intros _ s Hs; exact Hs|]. intros T HT H s. unfold along. cbn. reflexivity. Qed.
End Core.

(** ** The steps *)

Section Steps.
Context {U : Type} {RC : RootConfig} {RK : RelKconfig} {RE : RootEnv U}.

Class RootStep (T : relation (fstate root_t U)) := {
  root_pre :: PreOrder T;
  root_hooks :: RootHooks RE T;
  root_os : forall A (m : ST U A), stable T (os m);
  root_start : stable T mesh_v2_root_init;
  root_find : forall mac create, stable T (find_node mac create);
  root_node : forall i f, node_plain f -> stable T (mod_node_at i f);
  root_all : forall f, node_plain f ->
    stable T (mod_root (fun r => r <| s_nodes ::= fmap f |>));
  root_result : forall peer i op st now txt rel,
    stable T (mod_root (store_result peer i op st now (copy_text COMMAND_TEXT_MAX txt) rel));
  root_command_id : stable T take_command_id;
  root_core : forall A (null : A) m, core_call m -> stable T (on_rel null m);
  root_ping : stable T active_ping_poll_one }.

Context (T : relation (fstate root_t U)) `{!RootStep T}.

Lemma rstep_gets {A} (f : fstate root_t U -> A) : stable T (gets f).
Proof. apply stable_gets, _. Qed.
Lemma rstep_get_root : stable T get_root.
Proof. apply rstep_gets. Qed.
Lemma rstep_has_rel : stable T has_rel.
Proof. apply rstep_gets. Qed.
Lemma rstep_has_lock : stable T has_lock.
Proof. apply rstep_gets. Qed.
Lemma rstep_ms_now : stable T ms_now.
Proof. apply root_os. Qed.
Lemma rstep_local_mac : stable T local_mac.
Proof. apply root_os. Qed.

Hint Resolve rstep_get_root rstep_has_rel rstep_has_lock rstep_ms_now rstep_local_mac root_os
  root_start root_find root_result root_command_id root_ping : stable.
Hint Extern 4 (stable _ (mod_node_at _ _)) => apply root_node; solve [node_plain] : stable.

Ltac go := repeat (stable_step || solve [eauto 3 with stable nocore]).

Lemma rstep_have_rel : stable T have_rel.
Proof. unfold have_rel. go. Qed.
Hint Resolve rstep_have_rel : stable.
Lemma rstep_taken ms : stable T (rel_taken ms).
Proof. unfold rel_taken. go. Qed.
Hint Resolve rstep_taken : stable.
Lemma rstep_with_rel ms body : stable T body -> stable T (with_rel ms body).
Proof. intros H. unfold with_rel. go. Qed.
Lemma rstep_with_node mac create f : node_plain f -> stable T (with_node mac create f).
Proof. intros H. unfold with_node. go. by apply root_node. Qed.
Hint Extern 4 (stable _ (with_node _ _ _)) => apply rstep_with_node; solve [node_plain] : stable.

Lemma rstep_send mac ch p prio :
  prio <= KEEMASH_REL_PRIORITY_CONTROL -> stable T (rel_send mac ch p prio).
Proof. intros H. unfold rel_send. by apply root_core, core_send. Qed.
Hint Extern 2 (stable _ (rel_send _ _ _ _)) => apply rstep_send; done : stable.
Lemma rstep_ready mac : stable T (rel_peer_ready mac).
Proof. apply root_core, core_ready. Qed.
Lemma rstep_caps mac : stable T (rel_peer_capabilities mac).
Proof. apply root_core, core_capabilities. Qed.
Lemma rstep_route mac up : stable T (rel_peer_route mac up).
Proof. unfold rel_peer_route. go. apply root_core, core_route. Qed.
Lemma rstep_supersede mac : stable T (rel_supersede mac).
Proof. apply root_core, core_supersede. Qed.
Lemma rstep_session : stable T rel_local_session.
Proof. apply root_core, core_session. Qed.
Lemma rstep_stats mac : stable T (on_rel None (@keemash_rel_stats _ root_quiet_env mac)).
Proof. apply root_core, core_stats. Qed.
Hint Resolve rstep_with_rel rstep_ready rstep_caps rstep_route rstep_supersede rstep_session
  rstep_stats : stable.
Lemma rstep_current mac : stable T (current_rel_stats mac).
Proof. unfold current_rel_stats. go. Qed.
Hint Resolve rstep_current : stable.

Lemma rstep_delivery mac ch : stable T (note_reliable_delivery mac ch).
Proof. unfold note_reliable_delivery. go. Qed.
Lemma rstep_result mac i op st t : stable T (note_command_result mac i op st t).
Proof. unfold note_command_result. go. Qed.
Hint Resolve rstep_delivery rstep_result : stable.

(** *** Packets *)

Lemma rstep_to_mac mac ty se sq ak p : stable T (send_packet_to_mac mac ty se sq ak p).
Proof. unfold send_packet_to_mac. go. Qed.
Hint Resolve rstep_to_mac : stable.
Lemma rstep_send_control mac ty se ak ms : stable T (send_control mac ty se ak ms).
Proof. unfold send_control. destruct (mac_zero mac); go. Qed.
Lemma rstep_tunnel_ack h t k : stable T (send_tunnel_ack h t k).
Proof. unfold send_tunnel_ack, send_tunnel_control_packet. go. Qed.
Lemma rstep_tunnel_nack h t k : stable T (send_tunnel_nack h t k).
Proof. unfold send_tunnel_nack, send_tunnel_control_packet. go. Qed.
Lemma rstep_ack_result mac e : stable T (note_ack_tx_result mac e).
Proof. unfold note_ack_tx_result. go. Qed.
Hint Resolve rstep_send_control rstep_tunnel_ack rstep_tunnel_nack rstep_ack_result : stable.

(** *** Deliveries *)

Lemma rstep_nodeinfo mac p : stable T (deliver_nodeinfo mac p).
Proof. unfold deliver_nodeinfo. go. Qed.
Lemma rstep_log k mac p : stable T (deliver_log k mac p).
Proof. unfold deliver_log. go. Qed.
Lemma rstep_control mac p : stable T (deliver_control mac p).
Proof. unfold deliver_control, when. go. Qed.
Lemma rstep_ota mac p : stable T (deliver_ota mac p).
Proof. unfold deliver_ota, when. go. Qed.
Hint Resolve rstep_nodeinfo rstep_log rstep_control rstep_ota : stable.
Lemma rstep_deliver mac ch p k : stable T (rel_deliver_cb mac ch p k).
Proof. unfold rel_deliver_cb, when. cbn zeta. go. Qed.

(** *** The task *)

Lemma rstep_flush : stable T flush_one_pending_time.
Proof.
  unfold flush_one_pending_time. go; [apply root_core, core_unacked|].
  apply rstep_with_node. apply plain_if; node_plain.
Qed.
Lemma rstep_prune_one now i : stable T (prune_one now i).
Proof.
  unfold prune_one. cbn zeta. go; [apply root_core, core_remove|].
  apply root_node. apply plain_if; [by left|node_plain].
Qed.
Lemma rstep_prune : stable T prune_stale_route_down_peers.
Proof.
  unfold prune_stale_route_down_peers. go. apply rstep_prune_one.
Qed.
Hint Resolve rstep_flush rstep_prune : stable.
Lemma rstep_poll :
  stable T (on_rel tt (@keemash_rel_poll _ root_env)) -> stable T rel_poll_task.
Proof. intros H. unfold rel_poll_task, when. go. Qed.

(** *** Reception *)

Lemma rstep_pong from h p : stable T (handle_pong from h p).
Proof. unfold handle_pong. cbn zeta. go. Qed.
Lemma rstep_reset i k : stable T (reset_session_at i k).
Proof. unfold reset_session_at. go. Qed.
Hint Resolve rstep_pong rstep_reset : stable.
Lemma rstep_hello from h p : stable T (handle_hello from h p).
Proof. unfold handle_hello, when. cbn zeta. go. Qed.
Lemma rstep_metadata mac p : stable T (note_reliable_hello_metadata mac p).
Proof. unfold note_reliable_hello_metadata. cbn zeta. go. Qed.
Lemma rstep_legacy_payload h p : stable T (deliver_legacy_v2_payload h p).
Proof. unfold deliver_legacy_v2_payload, when. go. Qed.
Lemma rstep_tunnel_payload t p : stable T (deliver_tunnel_payload t p).
Proof. unfold deliver_tunnel_payload, when. cbn zeta. go. Qed.
Lemma rstep_lost from h p : stable T (handle_lost from h p).
Proof. unfold handle_lost. cbn zeta. go. Qed.
Lemma rstep_tunnel_lost h p : stable T (handle_tunnel_lost h p).
Proof. unfold handle_tunnel_lost, when. cbn zeta. go. Qed.
Lemma rstep_handle_tunnel_ack h p : stable T (handle_tunnel_ack h p).
Proof. unfold handle_tunnel_ack, when. cbn zeta. go. Qed.
Hint Resolve rstep_hello rstep_metadata rstep_legacy_payload rstep_tunnel_payload rstep_lost
  rstep_tunnel_lost rstep_handle_tunnel_ack : stable.
Lemma rstep_join i k q late : node_plain late -> stable T (join_session i k q late).
Proof. intros H. unfold join_session, when. go. by apply root_node. Qed.
Lemma rstep_tunnel_state h t : stable T (tunnel_state_step h t).
Proof.
  unfold tunnel_state_step. cbn zeta. go. apply rstep_join. node_plain.
Qed.
Lemma legacy_plain q now b : node_plain (fun n => (legacy_receive q now b n).2).
Proof.
  intros n. right. unfold legacy_receive. cbn zeta. destruct (receive_seq _ _ _). cbn. done.
Qed.
Lemma rstep_legacy_state h : stable T (legacy_state_step h).
Proof.
  unfold legacy_state_step. cbn zeta. go; [apply rstep_join; node_plain|].
  apply root_node, legacy_plain.
Qed.
Hint Resolve rstep_tunnel_state rstep_legacy_state : stable.
Lemma rstep_tunnel_data h p : stable T (handle_tunnel_data h p).
Proof. unfold handle_tunnel_data, when. cbn zeta. go. Qed.
Lemma rstep_reliable_legacy from h p : stable T (handle_reliable_legacy_v2 from h p).
Proof. unfold handle_reliable_legacy_v2, when. go. Qed.
Hint Resolve rstep_tunnel_data rstep_reliable_legacy : stable.
Lemma rstep_legacy from h p : stable T (root_handle_legacy from h p).
Proof. unfold root_handle_legacy, when. cbn zeta. go. Qed.
Hint Resolve rstep_legacy : stable.
Lemma rstep_reliable from packet :
  stable T (on_rel ESP_ERR_INVALID_STATE (@keemash_rel_handle_rx _ root_env from packet)) ->
  stable T (root_handle_reliable from packet).
Proof. intros H. unfold root_handle_reliable, when. cbn zeta. go. Qed.
Lemma rstep_handle_rx from packet :
  stable T (on_rel ESP_ERR_INVALID_STATE (@keemash_rel_handle_rx _ root_env from packet)) ->
  stable T (mesh_v2_root_handle_rx from packet).
Proof.
  intros H. unfold mesh_v2_root_handle_rx. cbn zeta. go. by apply rstep_reliable.
Qed.

(** *** Requests and queries *)

Lemma rstep_lossless mac : stable T (peer_advertised_lossless mac).
Proof. unfold peer_advertised_lossless. go. Qed.
Lemma rstep_seq mac ch : stable T (take_tunnel_seq mac ch).
Proof. unfold take_tunnel_seq. cbn zeta. go. Qed.
Hint Resolve rstep_lossless rstep_seq : stable.
Lemma rstep_through mac ch p : stable T (send_through_tunnel mac ch p).
Proof. unfold send_through_tunnel. go. Qed.
Hint Resolve rstep_through : stable.
Lemma rstep_fallback mac ch p e : stable T (with_fallback mac ch p e).
Proof. unfold with_fallback. go. Qed.
Lemma rstep_if_ready ms mac ch p prio :
  stable T p -> prio <= KEEMASH_REL_PRIORITY_CONTROL -> stable T (send_if_ready ms mac ch p prio).
Proof. intros Hp H. unfold send_if_ready. go. Qed.
Hint Resolve rstep_fallback : stable.
Lemma rstep_log_ctrl mac b : stable T (mesh_v2_root_send_log_ctrl mac b).
Proof. unfold mesh_v2_root_send_log_ctrl. cbn zeta. go. apply rstep_if_ready; [go|done]. Qed.
Lemma rstep_task_request mac i : stable T (mesh_v2_root_send_task_request mac i).
Proof.
  unfold mesh_v2_root_send_task_request. cbn zeta. go. apply rstep_if_ready; [go|done].
Qed.
Lemma rstep_ota_payload mac p : stable T (mesh_v2_root_send_ota_payload mac p).
Proof. unfold mesh_v2_root_send_ota_payload. go. apply rstep_with_rel. go. Qed.
Hint Resolve rstep_ota_payload : stable.
Lemma rstep_ota_v3 {Pb : Nanopb} mac m : stable T (mesh_v2_root_send_ota_v3_message mac m).
Proof. unfold mesh_v2_root_send_ota_v3_message. go. Qed.
Lemma rstep_advertises mac k : stable T (mesh_v2_root_peer_advertises_lossless mac k).
Proof. unfold mesh_v2_root_peer_advertises_lossless. go. Qed.
Hint Resolve rstep_advertises : stable.
Lemma rstep_command mac i t op : stable T (mesh_v2_root_send_command_operation mac i t op).
Proof.
  unfold mesh_v2_root_send_command_operation. cbn zeta. go; apply rstep_with_rel; go.
Qed.
Lemma rstep_next_id : stable T mesh_v2_root_next_command_id.
Proof. unfold mesh_v2_root_next_command_id. go. Qed.
Lemma duplicate_plain tag : node_plain (count_duplicate tag).
Proof. apply plain_if; [node_plain|apply plain_id]. Qed.
Lemma rstep_fresh tag : stable T (find_fresh_by_tag tag).
Proof. unfold find_fresh_by_tag, when. cbn zeta. go. apply root_all, duplicate_plain. Qed.
Hint Resolve rstep_fresh : stable.
Lemma rstep_find_ready tag : stable T (mesh_v2_root_find_ready_by_tag tag).
Proof. unfold mesh_v2_root_find_ready_by_tag. go. Qed.
Lemma rstep_find_lossless tag k : stable T (mesh_v2_root_find_lossless_by_tag tag k).
Proof. unfold mesh_v2_root_find_lossless_by_tag. go. Qed.
Lemma put_time_plain g e u b : node_plain (put_time g e u b).
Proof. node_plain. Qed.
Lemma rstep_queue_time mac g e u : stable T (mesh_v2_root_queue_time mac g e u).
Proof. unfold mesh_v2_root_queue_time. cbn zeta. go. Qed.
Lemma rstep_queue_all g e u : stable T (mesh_v2_root_queue_time_all g e u).
Proof. unfold mesh_v2_root_queue_time_all. cbn zeta. go. Qed.
Lemma route_plain macs now : node_plain (route_update macs now).
Proof.
  intros n. right. unfold route_update. destruct (negb (n_used n)); [done|].
  cbn zeta. destruct (route_present macs n); cbn; done.
Qed.
Lemma rstep_sync macs : stable T (mesh_v2_root_sync_routes macs).
Proof. unfold mesh_v2_root_sync_routes, when. go. apply root_all, route_plain. Qed.
End Steps.
