(* ===== verification/Hooks.v ===== *)
(** * Hooks and network policy (keemash_mesh_hooks.c, keemash_mesh_network.c)

    The library defines every application hook weakly; the firmware may define a strong
    one, which then takes its place at link time.  A firmware is a record of the strong
    definitions it has, and [link_root], [link_node] are the environments of the two
    facades that result.  [keemash_mesh_transport_send] and
    [keemash_mesh_get_local_mac] have no weak definition. *)

From S2P Require Import Prelude.
From S2P Require Import Words.
From S2P Require Import Esp.
From S2P Require Import Rtos.
From S2P Require Import MeshProto.
From S2P Require Import MeshProtoV2.
From S2P Require Import RelState.
From S2P Require Import Facade.
From S2P Require Import NodeState.
From S2P Require Import Node.
From S2P Require Import NodeInv.
From S2P Require Import RootState.
From S2P Require Import Root.
From S2P Require Import RootInv.
#[local] Open Scope Z_scope.

(** ** The hooks of the root *)

Record root_firmware (S : Type) := {
  rf_state_changed : option (ST S unit);
  rf_node_seen : option (bytes -> bytes -> ST S unit);
  rf_node_seen_uptime : option (bytes -> bytes -> bool -> Z -> ST S unit);
  rf_log_line : option (bytes -> bytes -> bytes -> ST S unit);
  rf_task_snapshot : option (bytes -> bytes -> ST S unit);
  rf_memory_snapshot : option (bytes -> bytes -> ST S unit);
  rf_sensor_snapshot : option (bytes -> bytes -> ST S unit);
  rf_ota_v3_message : option (bytes -> bytes -> ST S unit);
  rf_ota_status : option (bytes -> bytes -> ST S unit);
  rf_topology : option (bytes -> bytes -> ST S unit);
  rf_control_event : option (bytes -> ST S unit);
  rf_control : option (bytes -> Z -> Z -> Z -> Z -> Z -> bytes -> ST S unit);
  rf_control_ex : option (bytes -> Z -> Z -> Z -> Z -> Z -> bytes ->
    option mesh_v2_operation_id_t -> ST S unit) }.

Arguments rf_state_changed {S} _.
Arguments rf_node_seen {S} _.
Arguments rf_node_seen_uptime {S} _.
Arguments rf_log_line {S} _.
Arguments rf_task_snapshot {S} _.
Arguments rf_memory_snapshot {S} _.
Arguments rf_sensor_snapshot {S} _.
Arguments rf_ota_v3_message {S} _.
Arguments rf_ota_status {S} _.
Arguments rf_topology {S} _.
Arguments rf_control_event {S} _.
Arguments rf_control {S} _.
Arguments rf_control_ex {S} _.

(** The definition the linker takes. *)
Definition linked {A : Type} (weak : A) (strong : option A) : A := default weak strong.

Section RootHooksWeak.
Context {S : Type} (fw : root_firmware S).

Definition root_on_state_changed : ST S unit := linked (mret tt) (rf_state_changed fw).
Definition root_on_node_seen : bytes -> bytes -> ST S unit :=
  linked (fun _ _ => mret tt) (rf_node_seen fw).
Definition root_on_node_seen_uptime : bytes -> bytes -> bool -> Z -> ST S unit :=
  linked (fun _ _ _ _ => mret tt) (rf_node_seen_uptime fw).
Definition root_on_log_line : bytes -> bytes -> bytes -> ST S unit :=
  linked (fun _ _ _ => mret tt) (rf_log_line fw).
Definition root_on_task_snapshot : bytes -> bytes -> ST S unit :=
  linked (fun _ _ => mret tt) (rf_task_snapshot fw).
Definition root_on_memory_snapshot : bytes -> bytes -> ST S unit :=
  linked (fun _ _ => mret tt) (rf_memory_snapshot fw).
Definition root_on_sensor_snapshot : bytes -> bytes -> ST S unit :=
  linked (fun _ _ => mret tt) (rf_sensor_snapshot fw).
Definition root_on_ota_v3_message : bytes -> bytes -> ST S unit :=
  linked (fun _ _ => mret tt) (rf_ota_v3_message fw).
Definition root_on_ota_status : bytes -> bytes -> ST S unit :=
  linked (fun _ _ => mret tt) (rf_ota_status fw).
Definition root_on_topology : bytes -> bytes -> ST S unit :=
  linked (fun _ _ => mret tt) (rf_topology fw).
Definition root_on_control_event : bytes -> ST S unit :=
  linked (fun _ => mret tt) (rf_control_event fw).

(** An older firmware has one of the two older hooks: the weak ones hand over. *)
Definition root_on_control : bytes -> Z -> Z -> Z -> Z -> Z -> bytes -> ST S unit :=
  linked (fun peer root_session node_session kind command_id status text =>
    when (kind =? MESH_V2_CONTROL_EVENT) (root_on_control_event text)) (rf_control fw).
Definition root_on_control_ex : bytes -> Z -> Z -> Z -> Z -> Z -> bytes ->
    option mesh_v2_operation_id_t -> ST S unit :=
  linked (fun peer root_session node_session kind command_id status text operation_id =>
    root_on_control peer root_session node_session kind command_id status text)
    (rf_control_ex fw).
End RootHooksWeak.

Definition link_root {U : Type} (FE : FacadeEnv U) (err_u32 : esp_err_t -> Z)
  (fw : root_firmware (fstate root_t U)) : RootEnv U := {|
  root_facade := FE; root_err_u32 := err_u32;
  keemash_mesh_root_on_state_changed := root_on_state_changed fw;
  keemash_mesh_root_on_node_seen := root_on_node_seen fw;
  keemash_mesh_root_on_node_seen_uptime := root_on_node_seen_uptime fw;
  keemash_mesh_root_on_log_line := root_on_log_line fw;
  keemash_mesh_root_on_task_snapshot := root_on_task_snapshot fw;
  keemash_mesh_root_on_memory_snapshot := root_on_memory_snapshot fw;
  keemash_mesh_root_on_sensor_snapshot := root_on_sensor_snapshot fw;
  keemash_mesh_root_on_ota_v3_message := root_on_ota_v3_message fw;
  keemash_mesh_root_on_ota_status := root_on_ota_status fw;
  keemash_mesh_root_on_topology := root_on_topology fw;
  keemash_mesh_root_on_control_ex := root_on_control_ex fw |}.

(** ** The hooks of the node *)

(** [nf_ap_mac] is given the six bytes it writes to. *)
Record node_firmware (U S : Type) := {
  nf_ap_mac : option (bytes -> ST U (bool * bytes));
  nf_v1_ok_age_ms : option (ST U Z);
  nf_log_stream_enabled : option (ST U bool);
  nf_time_sync : option (bytes -> ST S unit);
  nf_log_ctrl : option (bool -> ST S unit);
  nf_command_result : option (bytes -> ST S (bool * Z * bytes));
  nf_command : option (bytes -> ST S bool) }.

Arguments nf_ap_mac {U S} _.
Arguments nf_v1_ok_age_ms {U S} _.
Arguments nf_log_stream_enabled {U S} _.
Arguments nf_time_sync {U S} _.
Arguments nf_log_ctrl {U S} _.
Arguments nf_command_result {U S} _.
Arguments nf_command {U S} _.

Section NodeHooksWeak.
Context {U S : Type} (fw : node_firmware U S).

(** [esp_read_mac(mac, ESP_MAC_WIFI_SOFTAP)]: the error and what it leaves in [mac]. *)
Variable esp_read_mac : bytes -> ST U (esp_err_t * bytes).

Definition get_ap_mac : bytes -> ST U (bool * bytes) :=
  linked (fun mac =>
    '(err, mac) ← esp_read_mac (replicate 6 0);
    mret (err_eqb err ESP_OK, mac)) (nf_ap_mac fw).
Definition node_v1_ok_age_ms : ST U Z := linked (mret UINT32_MAX) (nf_v1_ok_age_ms fw).
Definition node_log_stream_enabled : ST U bool :=
  linked (mret false) (nf_log_stream_enabled fw).
Definition node_on_time_sync : bytes -> ST S unit :=
  linked (fun _ => mret tt) (nf_time_sync fw).
Definition node_on_log_ctrl : bool -> ST S unit :=
  linked (fun _ => mret tt) (nf_log_ctrl fw).
(** The status and the text of the caller stay as they were: OK and empty. *)
Definition node_on_control_command_result : bytes -> ST S (bool * Z * bytes) :=
  linked (fun _ => mret (false, MESH_V2_CONTROL_STATUS_OK, [])) (nf_command_result fw).
Definition node_on_control_command : bytes -> ST S bool :=
  linked (fun _ => mret false) (nf_command fw).
End NodeHooksWeak.

(** The node with the hooks of [fw]; everything else as in [NE]. *)
Definition link_node {U : Type} (NE : NodeEnv U)
  (esp_read_mac : bytes -> ST U (esp_err_t * bytes))
  (fw : node_firmware U (fstate node_t U)) : NodeEnv U := {|
  node_facade := node_facade; node_flash := node_flash;
  uxTaskGetSystemState := uxTaskGetSystemState;
  heap_free_size := heap_free_size; heap_minimum_free_size := heap_minimum_free_size;
  heap_total_size := heap_total_size; esp_flash_get_size := esp_flash_get_size;
  esp_image_get_metadata := esp_image_get_metadata; nvs_get_stats := nvs_get_stats;
  keemash_mesh_get_ap_mac := ('(_, mac) ← get_ap_mac fw esp_read_mac (replicate 6 0); mret mac);
  keemash_mesh_node_v1_ok_age_ms := node_v1_ok_age_ms fw;
  keemash_mesh_node_log_stream_enabled := node_log_stream_enabled fw;
  keemash_mesh_node_on_time_sync := node_on_time_sync fw;
  keemash_mesh_node_on_log_ctrl := node_on_log_ctrl fw;
  keemash_mesh_node_on_control_command_result := node_on_control_command_result fw;
  keemash_mesh_node_on_control_command := node_on_control_command fw;
  ota_receiver_active := ota_receiver_active; ota_receiver_handle_v2 := ota_receiver_handle_v2;
  ota_v3_receiver_active := ota_v3_receiver_active;
  ota_v3_receiver_handle := ota_v3_receiver_handle |}.

(** ** The network policy *)

Inductive mesh_type_t := MESH_IDLE | MESH_ROOT | MESH_NODE | MESH_LEAF.

#[export] Instance mesh_type_eq : EqDecision mesh_type_t.
Proof. solve_decision. Defined.

Definition KEEMASH_MESH_ROLE_ROOT : Z := 0.
Definition KEEMASH_MESH_ROLE_NODE : Z := 1.
Definition KEEMASH_MESH_ROLE_LEAF : Z := 2.

Class MeshPolicy (W : Type) := {
  esp_mesh_fix_root : bool -> ST W esp_err_t;
  esp_mesh_allow_root_conflicts : bool -> ST W esp_err_t;
  esp_mesh_set_type : mesh_type_t -> ST W esp_err_t }.

(** An enumeration can hold any number. *)
Definition role_type (role : Z) : option mesh_type_t :=
  if role =? KEEMASH_MESH_ROLE_ROOT then Some MESH_ROOT
  else if role =? KEEMASH_MESH_ROLE_NODE then Some MESH_IDLE
  else if role =? KEEMASH_MESH_ROLE_LEAF then Some MESH_LEAF
  else None.

Definition keemash_mesh_apply_single_root_policy {W : Type} `{!MeshPolicy W} (role : Z)
  : ST W esp_err_t :=
  match role_type role with
  | None => mret ESP_ERR_INVALID_ARG
  | Some mesh_type =>
      err ← esp_mesh_fix_root true;
      if negb (err_eqb err ESP_OK) then mret err
      else
        err ← esp_mesh_allow_root_conflicts false;
        if negb (err_eqb err ESP_OK) then mret err
        else esp_mesh_set_type mesh_type
  end.

(** ** Without strong hooks *)

Definition no_root_firmware {S : Type} : root_firmware S :=
  Build_root_firmware S None None None None None None None None None None None None None.
Definition no_node_firmware {U S : Type} : node_firmware U S :=
  Build_node_firmware U S None None None None None None None.

Ltac hook_go := intros; first [apply stable_ret, _|apply stable_when, stable_ret, _; apply _].

(** The theorems about the facades hold for a firmware without any hook. *)
#[export] Instance no_root_hooks {U : Type} (FE : FacadeEnv U) err_u32
  (T : relation (fstate root_t U)) `{!PreOrder T} : RootHooks (link_root FE err_u32 no_root_firmware) T.
Proof. split; hook_go. Qed.

#[export] Instance no_node_hooks {U : Type} (NE : NodeEnv U) read_mac
  (T : relation (fstate node_t U)) `{!PreOrder T} :
  HooksMove NE T -> HooksMove (link_node NE read_mac no_node_firmware) T.
Proof.
  intros []. split; [hook_go..|done|done|done|done].
Qed.

(** A firmware with only the oldest hook: it is given the texts of the events, and nothing
    of any other report. *)
Lemma control_reaches_event_hook {S : Type} (f : bytes -> ST S unit)
    peer rs ns kind id status txt op :
  let fw := Build_root_firmware S None None None None None None None None None None
              (Some f) None None in
  root_on_control_ex fw peer rs ns kind id status txt op
  = when (kind =? MESH_V2_CONTROL_EVENT) (f txt).
Proof. done. Qed.

(** ** The calls the policy makes *)

Inductive mesh_call := Fix_root (b : bool) | Allow_conflicts (b : bool) | Set_type (t : mesh_type_t).

Section Policy.
(** What ESP-MESH answers to a call, given the calls before it. *)
Variable answer : list mesh_call -> mesh_call -> esp_err_t.

Definition record_call (c : mesh_call) : ST (list mesh_call) esp_err_t := fun l =>
  (answer l c, l ++ [c]).

Instance recording : MeshPolicy (list mesh_call) := {
  esp_mesh_fix_root := fun b => record_call (Fix_root b);
  esp_mesh_allow_root_conflicts := fun b => record_call (Allow_conflicts b);
  esp_mesh_set_type := fun t => record_call (Set_type t) }.

Definition policy_calls (t : mesh_type_t) : list mesh_call :=
  [Fix_root true; Allow_conflicts false; Set_type t].

(** Either the role is none, and nothing is called; or the calls made are the first ones
    of the policy, all but the last were accepted, the result is the answer to the last,
    and success means that all three were made. *)
Theorem single_root_policy_applied role :
  let '(err, calls) := keemash_mesh_apply_single_root_policy role [] in
  match role_type role with
  | None => err = ESP_ERR_INVALID_ARG /\ calls = []
  | Some t =>
      exists n c, calls = take n (policy_calls t) ++ [c] /\
        policy_calls t !! n = Some c /\ err = answer (take n (policy_calls t)) c /\
        (forall i d, (i < n)%nat -> policy_calls t !! i = Some d ->
           answer (take i (policy_calls t)) d = ESP_OK) /\
        (err = ESP_OK -> calls = policy_calls t)
  end.
Proof.
  unfold keemash_mesh_apply_single_root_policy. destruct (role_type role) as [t|]; [|done].
  rewrite bind_eq. cbn. unfold err_eqb. case_bool_decide as E0; cbn.
  2: { exists 0%nat, (Fix_root true). repeat split; [intros; lia|done]. }
  rewrite bind_eq. cbn. case_bool_decide as E1; cbn.
  2: { exists 1%nat, (Allow_conflicts false). repeat split; [|done].
       intros [|i] d Hi; [|lia]. by intros [= <-]. }
  exists 2%nat, (Set_type t). repeat split.
  intros [|[|i]] d Hi; [by intros [= <-]..|lia].
Qed.
End Policy.
