(* ===== verification/RootReach.v ===== *)
(** * The root facade: reachable states

    The two instances of [RootStep], and the theorem that the invariants hold in every
    state the facade can reach, deliveries and calls from hooks included. *)

From S2P Require Import Prelude.
From S2P Require Import Words.
From S2P Require Import Esp.
From S2P Require Import Rtos.
From S2P Require Import MeshProto.
From S2P Require Import MeshProtoV2.
From S2P Require Import MeshWire.
From S2P Require Import RelState.
From S2P Require Import RelOps.
From S2P Require Import RelInv.
From S2P Require Import RelFrame.
From S2P Require Import OtaTypes.
From S2P Require Import OtaV3.
From S2P Require Import Facade.
From S2P Require Import FacadeInv.
From S2P Require Import NodeState.
From S2P Require Import RootState.
From S2P Require Import Root.
From S2P Require Import RootInv.
#[local] Open Scope Z_scope.

(** ** The tables *)

Definition awaits_pong (n : root_node_state_t) : bool := n_used n && n_ping_pending n.

Definition chans_wf (n : root_node_state_t) : Prop :=
  length (n_rx n) = TUNNEL_CHANNELS /\ length (n_tx n) = TUNNEL_CHANNELS.

Definition macs_distinct (nodes : list root_node_state_t) : Prop :=
  forall i j n m, nodes !! i = Some n -> nodes !! j = Some m ->
    n_used n = true -> n_used m = true -> n_mac n = n_mac m -> i = j.

Record root_wf (r : root_t) : Prop := {
  rw_len : length (s_nodes r) = MESH_V2_MAX_NODES;
  rw_macs : macs_distinct (s_nodes r);
  rw_chans : Forall chans_wf (s_nodes r);
  rw_pings : (count_if awaits_pong (s_nodes r) <= 1)%nat;
  rw_results : length (s_command_results r) = COMMAND_RESULT_CACHE_SIZE;
  rw_texts : Forall (fun c => length (cr_text c) < COMMAND_TEXT_MAX /\
                              length (cr_first_text c) < COMMAND_TEXT_MAX)%nat
               (s_command_results r);
  rw_result_next : is_u8 (s_command_result_next r);
  rw_command_id : is_u32 (s_next_command_id r) /\ s_next_command_id r <> 0;
  rw_cursor : 0 <= s_ping_cursor r < Z.of_nat MESH_V2_MAX_NODES }.

(** The nodes may change in place. *)
Definition node_moves (n n' : root_node_state_t) : Prop :=
  n' = root_node_zero \/
  n_used n' = n_used n /\ n_mac n' = n_mac n /\ (chans_wf n -> chans_wf n') /\
  (n_ping_pending n' = true -> n_ping_pending n = true).

Lemma node_moves_refl n : node_moves n n.
Proof. by right. Qed.

Lemma plain_moves f n : node_plain f -> node_moves n (f n).
Proof.
  intros H. destruct (H n) as [->|(H1 & H2 & H3 & H4 & H5)]; [by left|right].
  split_and!; try done. intros [? ?]. split; auto.
Qed.

Lemma nodes_wf r nodes :
  Forall2 node_moves (s_nodes r) nodes -> root_wf r -> root_wf (r <| s_nodes := nodes |>).
Proof.
  intros H []. split; try done; cbn; unfold setter.
  - by rewrite <- (Forall2_length H).
  - intros i j n m Hi Hj Hn Hm He.
    destruct (Forall2_lookup_r _ _ _ _ _ H Hi) as (n0 & Hi0 & [->|(Hu & Hma & _)]); [done|].
    destruct (Forall2_lookup_r _ _ _ _ _ H Hj) as (m0 & Hj0 & [->|(Hu' & Hma' & _)]); [done|].
    apply (rw_macs0 _ _ _ _ Hi0 Hj0); congruence.
  - apply Forall_lookup. intros i n Hi.
    destruct (Forall2_lookup_r _ _ _ _ _ H Hi) as (n0 & Hi0 & [->|(_ & _ & Hc & _)]); [done|].
    apply Hc. by apply (Forall_lookup_1 _ _ _ _ rw_chans0 Hi0).
  - eapply Nat.le_trans; [|exact rw_pings0]. eapply count_if_Forall2; [|exact H].
    intros n n' Hm Hp. unfold awaits_pong in *. bools.
    destruct Hm as [->|(Hu & _ & _ & Hpp)]; [done|]. apply andb_true_iff. split; [congruence|auto].
Qed.

(** A slot for a node: only one with its address. *)
Lemma find_node_wf mac create r :
  root_wf r ->
  root_wf (r <| s_nodes ::= fun l => (find_node_locked mac create l).2 |>).
Proof.
  intros Hr.
  change (root_wf (r <| s_nodes := (find_node_locked mac create (s_nodes r)).2 |>)).
  unfold find_node_locked.
  destruct (find_idx (is_node mac) (s_nodes r)) eqn:Ef; [destruct r; exact Hr|].
  destruct create; [|destruct r; exact Hr].
  destruct (find_idx (fun n => negb (n_used n)) (s_nodes r)) as [i|] eqn:Ei; cbn [snd]; [|destruct r; exact Hr].
  pose proof (find_idx_None _ _ Ef) as Hnone.
  apply find_idx_Some in Ei as [(x & Hx & Hu) _]. apply negb_true_iff in Hu.
  destruct Hr. split; try done; cbn.
  - by rewrite length_insert.
  - assert (Hfresh : forall j m, <[i := node_fresh mac]> (s_nodes r) !! j = Some m ->
      n_used m = true -> n_mac m = mac -> j = i).
    { intros j m Hj Hm He. apply list_lookup_insert_Some in Hj as [(<- & _)|[_ Hj]]; [done|].
      specialize (Hnone m ltac:(by eapply list_elem_of_lookup_2)).
      unfold is_node, mac_eq in Hnone. by rewrite Hm, He, bytes_eqb_refl in Hnone. }
    intros a b n m Ha Hb Hn Hm He.
    pose proof Ha as Ha'. apply list_lookup_insert_Some in Ha' as [(<- & <- & _)|[_ Ha']].
    + symmetry. by apply (Hfresh b m).
    + pose proof Hb as Hb'. apply list_lookup_insert_Some in Hb' as [(<- & <- & _)|[_ Hb']].
      * by apply (Hfresh a n).
      * by apply (rw_macs0 a b n m).
  - apply Forall_insert; [done|]. split; [done|]. done.
  - pose proof (count_if_insert awaits_pong (s_nodes r) i x (node_fresh mac) Hx) as H.
    unfold awaits_pong at 2 4 in H. rewrite Hu in H. cbn in H. lia.
Qed.

Lemma length_copy_text n t : (length (copy_text (S n) t) < S n)%nat.
Proof. unfold copy_text. rewrite length_take. lia. Qed.

Lemma store_result_wf peer i op st now txt rel r :
  root_wf r ->
  root_wf (store_result peer i op st now (copy_text COMMAND_TEXT_MAX txt) rel r).
Proof.
  intros []. pose proof (length_copy_text 63 txt) as Hl.
  change (S 63) with COMMAND_TEXT_MAX in Hl.
  unfold store_result. destruct (find_idx _ _) as [k|]; split; try done; cbn; unfold setter.
  - by rewrite length_alter.
  - apply Forall_lookup. intros j c Hc.
    apply list_alter_Some in Hc as [(<- & c0 & Hc0 & ->)|[_ Hc]];
      [|by apply (Forall_lookup_1 _ _ _ _ rw_texts0 Hc)].
    pose proof (Forall_lookup_1 _ _ _ _ rw_texts0 Hc0) as [_ H].
    unfold result_again. destruct (bytes_eqb _ _); cbn; split; done || apply H.
  - by rewrite length_insert.
  - apply Forall_insert; [done|]. cbn. split; apply Hl.
  - apply u8_is.
Qed.

Lemma command_id_wf r :
  root_wf r ->
  root_wf (r <| s_next_command_id ::= fun n =>
    let next := u32 (n + 1) in if next =? 0 then 1 else next |>).
Proof.
  intros []. split; try done; cbn; unfold setter; cbn.
  destruct (u32 _ =? 0) eqn:E; [done|]. bools. split; [apply u32_is|done].
Qed.

Lemma ping_dispatch_wf i now r :
  root_wf r -> (i < MESH_V2_MAX_NODES)%nat -> count_if awaits_pong (s_nodes r) = 0%nat ->
  root_wf (ping_dispatch i now r).
Proof.
  intros [] Hi Hc. unfold ping_dispatch. destruct (next_ping_id _) as [pid next].
  destruct (lookup_lt_is_Some_2 (s_nodes r) i) as [n Hn]; [by rewrite rw_len0|].
  split; try done; cbn; unfold setter.
  - by rewrite length_alter.
  - intros a b x y Ha Hb Hx Hy He.
    assert (Hall : forall c z, alter (fun n => n <| n_ping_pending := true |>
      <| n_ping_id := pid |> <| n_ping_sent_ms := now |>
      <| n_ping_last_attempt_ms := now |>) i (s_nodes r) !! c = Some z ->
      exists z0, s_nodes r !! c = Some z0 /\ n_used z0 = n_used z /\ n_mac z0 = n_mac z).
    { intros c z Hz. apply list_alter_Some in Hz as [(<- & z0 & Hz0 & ->)|[_ Hz]]; eauto. }
    destruct (Hall _ _ Ha) as (x0 & Hx0 & Hux & Hmx).
    destruct (Hall _ _ Hb) as (y0 & Hy0 & Huy & Hmy).
    apply (rw_macs0 _ _ _ _ Hx0 Hy0); congruence.
  - apply Forall_lookup. intros j m Hm.
    apply list_alter_Some in Hm as [(<- & m0 & Hm0 & ->)|[_ Hm]];
      [|by apply (Forall_lookup_1 _ _ _ _ rw_chans0 Hm)].
    exact (Forall_lookup_1 _ _ _ _ rw_chans0 Hm0).
  - match goal with |- (count_if _ (alter ?f i _) <= 1)%nat => set (g := f) end.
    rewrite (alter_insert g _ _ _ Hn).
    pose proof (count_if_insert awaits_pong _ i n (g n) Hn) as H. rewrite Hc in H.
    destruct (awaits_pong n), (awaits_pong (g n)); lia.
  - pose proof (Nat.mod_upper_bound (i + 1) MESH_V2_MAX_NODES ltac:(done)) as H.
    unfold MESH_V2_MAX_NODES in *. unfold u8. rewrite Z.mod_small; lia.
Qed.

Lemma root_zero_wf : root_wf root_zero.
Proof.
  split; try done.
  - intros i j n m Hi _ Hn. apply lookup_replicate in Hi as [-> _]. done.
  - unfold root_zero. cbn [s_nodes]. by apply Forall_replicate.
  - unfold root_zero. cbn [s_nodes]. rewrite count_if_replicate by done. lia.
  - unfold root_zero. cbn [s_command_results]. apply Forall_replicate. cbn.
    unfold COMMAND_TEXT_MAX. lia.
Qed.

(** ** The two instances *)

Definition root_wf_moves : relation (facade root_t) := fun f f' =>
  root_wf (f_own f) -> root_wf (f_own f').
#[export] Instance root_wf_moves_preorder : PreOrder root_wf_moves.
Proof. split; [intros f H; exact H|]. intros a b c H1 H2 H. by apply H2, H1. Qed.

Section Instances.
Context {U : Type} {RC : RootConfig} {RK : RelKconfig} {RE : RootEnv U}.

Lemma mod_root_own g :
  (forall r, root_wf r -> root_wf (g r)) ->
  stable (own root_wf_moves) (mod_root (U := U) g).
Proof. intros H. apply mod_own_own. intros f Hf. by apply H. Qed.

Lemma mod_node_own i f :
  node_plain f -> stable (own root_wf_moves) (mod_node_at (U := U) i f).
Proof.
  intros H. apply mod_root_own. intros r Hr.
  change (root_wf (r <| s_nodes := alter f i (s_nodes r) |>)). apply nodes_wf; [|done].
  apply Forall2_alter; [apply node_moves_refl|]. intros n. by apply plain_moves.
Qed.

Lemma mod_all_own f :
  node_plain f ->
  stable (own root_wf_moves) (mod_root (U := U) (fun r => r <| s_nodes ::= fmap f |>)).
Proof.
  intros H. apply mod_root_own. intros r Hr.
  change (root_wf (r <| s_nodes := f <$> s_nodes r |>)). apply nodes_wf; [|done].
  apply Forall2_fmap_self. intros n. by apply plain_moves.
Qed.

Lemma find_node_own mac create : stable (own root_wf_moves) (find_node (U := U) mac create).
Proof.
  unfold find_node, get_root. apply stable_bind; [apply _|apply get_own_own, _|]. intros r.
  apply stable_bind; [apply _|apply mod_root_own, find_node_wf|]. intros _. apply stable_ret, _.
Qed.

Lemma command_id_own : stable (own root_wf_moves) (take_command_id (U := U)).
Proof.
  unfold take_command_id, get_root. apply stable_bind; [apply _|apply get_own_own, _|].
  intros r. apply stable_bind; [apply _|apply mod_root_own, command_id_wf|].
  intros _. apply stable_ret, _.
Qed.

Lemma expire_plain timeout now : node_plain (ping_expire timeout now).
Proof. apply plain_if; [node_plain|apply plain_id]. Qed.

Lemma no_ping_pending nodes :
  existsb awaits_pong nodes = false -> count_if awaits_pong nodes = 0%nat.
Proof.
  intros H. apply count_if_zero. intros n Hn. destruct (awaits_pong n) eqn:E; [|done].
  rewrite (proj2 (existsb_exists _ _)) in H; [done|]. exists n.
  by rewrite <- list_elem_of_In.
Qed.

Lemma ping_next_lt period now r i :
  ping_next period now r = Some i -> (i < MESH_V2_MAX_NODES)%nat.
Proof.
  unfold ping_next. intros H. apply bind_Some in H as (k & _ & H).
  unfold ping_order in H. rewrite list_lookup_fmap in H.
  apply fmap_Some in H as (k' & _ & ->). by apply Nat.mod_upper_bound.
Qed.

(** A ping is only sent while none is pending. *)
Lemma ping_own :
  (forall mac, stable (own root_wf_moves) (rel_peer_ready (U := U) mac)) ->
  (forall mac ty se sq ak p,
     stable (own root_wf_moves) (send_packet_to_mac (U := U) mac ty se sq ak p)) ->
  stable (own root_wf_moves) (active_ping_poll_one (U := U)).
Proof.
  intros Hready Hsend. unfold active_ping_poll_one. cbn zeta.
  apply stable_bind; [apply _|apply has_rel_own, _|]. intros [|]; [|apply stable_ret, _].
  cbn [negb].
  apply stable_bind; [apply _|apply os_own, _|]. intros now.
  apply stable_bind; [apply _|apply mod_all_own, expire_plain|]. intros _ s Hs.
  unfold get_root. destruct s as [rel [f u]]. cbn [fst snd] in *. rewrite run_own.
  change (existsb _ (s_nodes (f_own f))) with (existsb awaits_pong (s_nodes (f_own f))).
  destruct (existsb awaits_pong _) eqn:Ep; [exact Hs|]. cbn [orb].
  destruct (negb _ && _); [exact Hs|].
  destruct (ping_next _ _ _) as [i|] eqn:Ei; [|exact Hs].
  assert (Hrun : forall A (k : Z -> Fac root_t U A), exists v,
    (rel_local_session ≫= k) (rel, (f, u)) = k v (rel, (f, u))).
  { intros A k. rewrite bind_eq. unfold rel_local_session, on_rel.
    destruct rel as [c|]; [|by exists 0]. by exists (local_session c). }
  match goal with |- context [rel_local_session ≫= ?k] =>
    destruct (Hrun _ k) as [v ->] end.
  unfold mod_root. rewrite run_mod.
  set (f' := f <| f_own ::= _ |>).
  assert (Hf' : root_wf (f_own f')).
  { apply ping_dispatch_wf; [exact Hs|by eapply ping_next_lt|by apply no_ping_pending]. }
  clearbody f'. revert Hf'. change (own root_wf_moves (rel, (f', u))
    ((ready ← rel_peer_ready (n_mac (node_at (f_own f) i));
      err ← (if (ready : bool) then
        send_packet_to_mac (n_mac (node_at (f_own f) i)) MESH_V2_TYPE_PING v 0 0
          (encode_ping {| pg_ping_id := (next_ping_id (s_next_ping_id (f_own f))).1;
                          pg_root_session_id := v |})
        else mret ESP_ERR_INVALID_STATE);
      when (negb (err_eqb err ESP_OK))
        (with_node (n_mac (node_at (f_own f) i)) false (fun n =>
          if n_ping_id n =? (next_ping_id (s_next_ping_id (f_own f))).1
          then n <| n_ping_pending := false |> else n))) (rel, (f', u))).2).
  generalize (rel, (f', u)).
  match goal with |- forall p, own _ p (?m p).2 => change (stable (own root_wf_moves) m) end.
  apply stable_bind; [apply _|apply Hready|]. intros ready.
  apply stable_bind; [apply _|destruct ready; [apply Hsend|apply stable_ret, _]|]. intros err.
  unfold when. destruct (negb _); [|apply stable_ret, _].
  unfold with_node. apply stable_bind; [apply _|apply find_node_own|].
  intros [j|]; [|apply stable_ret, _]. apply mod_node_own. apply plain_if; [node_plain|apply plain_id].
Qed.

Lemma core_wf {A : Type} (null : A) m :
  RootHooks RE (keeps fac_wf) -> core_call m -> stable (keeps fac_wf) (on_rel null m).
Proof. intros H [Hm _]. apply on_rel_wf, Hm, state_changed_moves. Qed.

Lemma core_own {A : Type} (null : A) m :
  RootHooks RE (own root_wf_moves) -> core_call m -> stable (own root_wf_moves) (on_rel null m).
Proof.
  intros H [_ Hm]. apply on_rel_own; [apply _|]. apply Hm; [apply _|]. apply state_changed_moves.
Qed.

Lemma to_mac_own mac ty se sq ak p :
  stable (own root_wf_moves) (send_packet_to_mac (U := U) mac ty se sq ak p).
Proof.
  unfold send_packet_to_mac, local_mac. destruct (_ || _); [apply stable_ret, _|].
  apply stable_bind; [apply _|apply os_own, _|]. intros src. apply os_own, _.
Qed.

#[export] Instance root_step_rel `{!RootHooks RE (keeps fac_wf)} : RootStep (keeps fac_wf).
Proof.
  split; try apply _; intros; try apply mod_own_wf.
  - apply os_wf.
  - apply start_wf.
  - by apply core_wf.
  - unfold active_ping_poll_one, with_node, find_node, mod_node_at, get_root, mod_root,
      send_packet_to_mac, local_mac, ms_now, when. cbn zeta.
    stable_auto; apply core_wf; (done || apply core_session || apply core_ready).
Qed.

Lemma root_start_own config send deliver event :
  stable (@own root_t U root_wf_moves) (start_reliable config (rel_env send deliver event)).
Proof.
  unfold start_reliable, local_mac. cbn zeta.
  repeat (stable_step || solve [eauto with stable nocore]).
  all: try (apply mod_fac_own; intros f Hf; exact Hf).
Qed.

#[export] Instance root_step_own `{!RootHooks RE (own root_wf_moves)} :
  RootStep (own root_wf_moves).
Proof.
  split; try apply _.
  - intros. apply os_own, _.
  - apply root_start_own.
  - apply find_node_own.
  - apply mod_node_own.
  - apply mod_all_own.
  - intros. apply mod_root_own. intros r Hr. by apply store_result_wf.
  - apply command_id_own.
  - intros A null m Hm. by apply core_own.
  - apply ping_own; [|apply to_mac_own]. intros mac. apply core_own; [done|apply core_ready].
Qed.
End Instances.

(** ** Reachability *)

Section Calls.
Context {U : Type} {RC : RootConfig} {RK : RelKconfig} {RE : RootEnv U}.

(** The entry points of the file that change its state, and a round of its task. *)
Inductive root_call :=
  | Root_init
  | Root_rx (from packet : bytes)
  | Root_poll
  | Root_log_ctrl (mac : bytes) (enable : bool)
  | Root_task_request (mac : bytes) (request_id : Z)
  | Root_ota_payload (mac payload : bytes)
  | Root_ota_v3 (pb : Nanopb) (mac : bytes) (message : OtaMeshMessage)
  | Root_command (mac : bytes) (command_id : Z) (command : bytes)
      (operation : option mesh_v2_operation_id_t)
  | Root_next_command_id
  | Root_find_ready (tag : bytes)
  | Root_find_lossless (tag : bytes) (caps : Z)
  | Root_queue_time (mac : bytes) (generation epoch_sec source_uptime_s : Z)
  | Root_queue_time_all (generation epoch_sec source_uptime_s : Z)
  | Root_sync_routes (macs : list bytes).

Definition run_root (call : root_call) : Fac root_t U unit :=
  match call with
  | Root_init => discard mesh_v2_root_init
  | Root_rx from packet => discard (mesh_v2_root_handle_rx from packet)
  | Root_poll => rel_poll_task
  | Root_log_ctrl mac enable => discard (mesh_v2_root_send_log_ctrl mac enable)
  | Root_task_request mac i => discard (mesh_v2_root_send_task_request mac i)
  | Root_ota_payload mac payload => discard (mesh_v2_root_send_ota_payload mac payload)
  | Root_ota_v3 pb mac m => discard (@mesh_v2_root_send_ota_v3_message _ _ pb mac m)
  | Root_command mac i c op => discard (mesh_v2_root_send_command_operation mac i c op)
  | Root_next_command_id => discard mesh_v2_root_next_command_id
  | Root_find_ready tag => discard (mesh_v2_root_find_ready_by_tag tag)
  | Root_find_lossless tag caps => discard (mesh_v2_root_find_lossless_by_tag tag caps)
  | Root_queue_time mac g e u => discard (mesh_v2_root_queue_time mac g e u)
  | Root_queue_time_all g e u => discard (mesh_v2_root_queue_time_all g e u)
  | Root_sync_routes macs => mesh_v2_root_sync_routes macs
  end.

(** From the static initialisers, any sequence of calls; between two calls the world
    moves on its own. *)
Inductive root_reachable : fstate root_t U -> Prop :=
  | root_boot u :
      root_reachable (None, ({| f_lock := false; f_task := false; f_own := root_zero |}, u))
  | root_called s call : root_reachable s -> root_reachable (run_root call s).2
  | root_world r f u u' : root_reachable (r, (f, u)) -> root_reachable (r, (f, u')).

Lemma run_root_stable (T : relation (fstate root_t U)) `{!RootStep T} call :
  (forall from packet,
     stable T (on_rel ESP_ERR_INVALID_STATE (@keemash_rel_handle_rx _ root_env from packet))) ->
  stable T (on_rel tt (@keemash_rel_poll _ root_env)) ->
  stable T (run_root call).
Proof.
  intros Hrx Hpoll.
  assert (Hd : forall A (m : Fac root_t U A), stable T m -> stable T (discard m)).
  { intros A m Hm. unfold discard. apply stable_bind; [apply _|done|].
    intros _. apply stable_ret, _. }
  destruct call; cbn [run_root]; try apply Hd.
  - apply root_start.
  - by apply rstep_handle_rx.
  - by apply rstep_poll.
  - apply rstep_log_ctrl, _.
  - apply rstep_task_request, _.
  - apply rstep_ota_payload, _.
  - apply rstep_ota_v3, _.
  - apply rstep_command, _.
  - apply rstep_next_id, _.
  - apply rstep_find_ready, _.
  - apply rstep_find_lossless, _.
  - apply rstep_queue_time, _.
  - apply rstep_queue_all, _.
  - apply rstep_sync, _.
Qed.

Context `{!RootHooks RE (keeps fac_wf)} `{!RootHooks RE (own root_wf_moves)}.

(** The root's callbacks keep the core's invariant: the core's theorem about its
    reachable contexts applies to a core run by this facade. *)
#[export] Instance root_env_keeps : @CbKeeps (facade root_t * U) root_env.
Proof.
  apply rel_env_keeps.
  - intros dst packet. apply send_cb_wf.
  - intros mac ch payload stream. apply rstep_deliver, _.
  - intros. apply state_changed_moves.
Qed.

#[export] Instance root_env_along :
  @CbAlong (facade root_t * U) root_env (fun w w' => root_wf_moves w.1 w'.1).
Proof.
  apply (rel_env_along root_wf_moves).
  - intros dst packet. apply send_cb_own, _.
  - intros. apply state_changed_moves.
Qed.

#[export] Instance root_env_deliver :
  @CbDeliverAlong (facade root_t * U) root_env (fun w w' => root_wf_moves w.1 w'.1).
Proof. apply (rel_env_deliver root_wf_moves). intros. apply rstep_deliver, _. Qed.

Lemma run_root_fac_wf call : stable (keeps fac_wf) (run_root call).
Proof.
  apply run_root_stable; [apply _| |].
  - intros from packet. apply on_rel_wf, handle_rx_pres.
  - apply on_rel_wf, poll_pres.
Qed.

Lemma run_root_own call : stable (own root_wf_moves) (run_root call).
Proof.
  apply run_root_stable; [apply _| |].
  - intros from packet. apply on_rel_own; [apply _|]. apply handle_rx_along; apply _.
  - apply on_rel_own; [apply _|]. apply poll_along; apply _.
Qed.

Lemma reachable_root_fac s : root_reachable s -> fac_wf s.
Proof.
  induction 1 as [u|s call _ IH|r f u u' _ IH]; [done|by apply run_root_fac_wf|done].
Qed.

Lemma reachable_root_wf s : root_reachable s -> root_wf (f_own s.2.1).
Proof.
  induction 1 as [u|s call _ IH|r f u u' _ IH]; [apply root_zero_wf|by apply run_root_own|done].
Qed.

(** C8: in every state the root can reach, with deliveries and hooks that call back, the
    reliable context satisfies the core's invariant, no two nodes share an address, at
    most one node owes the answer to an active ping, the tables keep their sizes, the
    texts on record their terminator, and the next command number is never 0. *)
Theorem root_states s :
  root_reachable s -> fac_wf s /\ root_wf (f_own s.2.1).
Proof.
  intros H. split; [by apply reachable_root_fac|by apply reachable_root_wf].
Qed.
End Calls.
