(* ===== verification/RootProps.v ===== *)
(** * The root facade: what is proved of its operations

    The tunnel delivers in increasing order and each number once; an answer to a command
    is found again; a pong counts exactly for the ping that waits for it; what a late LOST
    and a node that is not ready hold up. *)

From Stdlib Require Import Sorted.
From S2P Require Import Prelude.
From S2P Require Import Words.
From S2P Require Import Esp.
From S2P Require Import Rtos.
From S2P Require Import MeshProto.
From S2P Require Import MeshProtoV2.
From S2P Require Import MeshWire.
From S2P Require Import RelState.
From S2P Require Import RelOps.
From S2P Require Import Facade.
From S2P Require Import FacadeInv.
From S2P Require Import NodeState.
From S2P Require Import RootState.
From S2P Require Import Root.
From S2P Require Import RootInv.
From S2P Require Import RootReach.
From S2P Require Import MeshProtoV1.
From S2P Require Import RelInv.
From S2P Require Import RelFrame.
#[local] Open Scope Z_scope.

(** ** A tunnel channel of one session *)

Inductive channel_event :=
  | ChannelData (seq now : Z) (replay : bool)
  | ChannelLost (missing_seq now : Z).

Definition event_seq (e : channel_event) : Z :=
  match e with ChannelData seq _ _ => seq | ChannelLost seq _ => seq end.

(** What [handle_tunnel_lost] does to the channel. *)
Definition channel_lost (missing_seq now : Z) (rx : root_rx_channel_t) : root_rx_channel_t :=
  rx <| rr_lost_count ::= fun c => u32 (c + 1) |> <| rr_has_gap := true |>
     <| rr_last_ms := now |>
     <| rr_expected_seq := skip_lost missing_seq (rr_expected_seq rx) (rr_highest_seen_seq rx) |>.

(** The numbers delivered, and each answer with the number expected after it. *)
Fixpoint channel_run (events : list channel_event) (rx : root_rx_channel_t)
  : list Z * list (seq_verdict * Z) * root_rx_channel_t :=
  match events with
  | [] => ([], [], rx)
  | ChannelData seq now replay :: events =>
      let '(v, rx) := tunnel_receive_rx seq now replay rx in
      let '(delivered, answers, rx') := channel_run events rx in
      (if sv_deliver v then seq :: delivered else delivered,
       (v, rr_expected_seq rx) :: answers, rx')
  | ChannelLost seq now :: events => channel_run events (channel_lost seq now rx)
  end.

(** The answer to a packet when [expected] is the next number. *)
Definition answer_ok (v : seq_verdict) (expected : Z) : Prop :=
  if sv_send_nack v then sv_missing_seq v = expected else sv_ack_seq v = expected - 1.

(** The channel has seen nothing beyond 32 bits, and expects a number. *)
Definition chan_ok (rx : root_rx_channel_t) : Prop :=
  1 <= rr_expected_seq rx <= UINT32_MAX /\ rr_highest_seen_seq rx < UINT32_MAX.

Lemma receive_seq_spec seq expected highest v expected' :
  receive_seq seq expected highest = (v, expected') ->
  0 <= seq < UINT32_MAX -> 1 <= expected <= UINT32_MAX ->
  sv_deliver v = (seq =? expected) /\
  expected' = expected + (if sv_deliver v then 1 else 0) /\ answer_ok v expected'.
Proof.
  unfold receive_seq, UINT32_MAX, answer_ok. intros H Hs Hr.
  destruct (seq =? expected) eqn:E; [|destruct (seq <? expected)].
  - apply Z.eqb_eq in E as ->.
    assert (Hn : u32 (expected + 1) = expected + 1) by words. rewrite Hn in H.
    destruct (_ <=? _); injection H as <- <-; cbn; split_and!; done || lia.
  - injection H as <- <-. cbn. rewrite Z.add_0_r. split_and!; try done. words.
  - injection H as <- <-. cbn. rewrite Z.add_0_r. done.
Qed.

Lemma tunnel_receive_rx_spec seq now replay rx v rx' :
  tunnel_receive_rx seq now replay rx = (v, rx') ->
  0 <= seq < UINT32_MAX -> chan_ok rx ->
  sv_deliver v = (seq =? rr_expected_seq rx) /\
  rr_expected_seq rx' = rr_expected_seq rx + (if sv_deliver v then 1 else 0) /\
  answer_ok v (rr_expected_seq rx') /\ chan_ok rx'.
Proof.
  unfold tunnel_receive_rx. cbv zeta. intros H Hs [He Hh].
  match type of H with (let '(_, _) := receive_seq _ ?e ?h in _) = _ =>
    change e with (rr_expected_seq rx) in H; set (highest := h) in H end.
  assert (Hi : highest < UINT32_MAX).
  { unfold highest. cbn. unfold setter. cbn. destruct (_ <? seq); lia. }
  destruct (receive_seq _ _ _) as [v0 e0] eqn:Er. injection H as <- <-.
  destruct (receive_seq_spec _ _ _ _ _ Er) as (H1 & H2 & H3); [done|done|].
  change (rr_expected_seq (_ <| rr_has_gap ::= _ |>)) with e0. split_and!; try done.
  unfold chan_ok. change (rr_expected_seq (_ <| rr_has_gap ::= _ |>)) with e0.
  change (rr_highest_seen_seq (_ <| rr_has_gap ::= _ |>)) with highest.
  split; [|done]. rewrite H2. rewrite H1. destruct (_ =? _) eqn:E; [|lia].
  apply Z.eqb_eq in E. lia.
Qed.

Lemma channel_lost_spec seq now rx :
  0 <= seq < UINT32_MAX -> chan_ok rx ->
  rr_expected_seq rx <= rr_expected_seq (channel_lost seq now rx) /\
  chan_ok (channel_lost seq now rx).
Proof.
  intros Hs [He Hh]. unfold channel_lost, chan_ok. cbn. unfold setter, skip_lost, UINT32_MAX in *.
  destruct (seq =? _) eqn:E; [|lia]. apply Z.eqb_eq in E.
  destruct (seq <=? _) eqn:El.
  - apply Z.leb_le in El.
    assert (u32 (rr_highest_seen_seq rx + 1) = rr_highest_seen_seq rx + 1) as -> by words. lia.
  - assert (u32 (seq + 1) = seq + 1) as -> by words. lia.
Qed.

(** C10: packets and reports of lost ones with sequence numbers below 2^32 - 1 arrive on a
    tunnel channel within a session, in whatever order and however often repeated.  The
    root delivers in strictly increasing order, so no number twice; and every answer either
    acknowledges exactly the numbers before the expected one, or asks for the expected one.
    The number 2^32 - 1 itself breaks this ([RootDemo.last_number_restarts]). *)
Theorem root_delivers_once events rx delivered answers rx' :
  channel_run events rx = (delivered, answers, rx') ->
  Forall (fun e => 0 <= event_seq e < UINT32_MAX) events -> chan_ok rx ->
  StronglySorted Z.lt delivered /\
  Forall (fun seq => rr_expected_seq rx <= seq < rr_expected_seq rx') delivered /\
  Forall (fun a => answer_ok a.1 a.2) answers /\
  rr_expected_seq rx <= rr_expected_seq rx'.
Proof.
  revert rx delivered answers. induction events as [|e events IH]; intros rx delivered answers H Hf Hok.
  { injection H as <- <- <-. split_and!; constructor || lia. }
  pose proof (Forall_inv Hf) as He. apply Forall_inv_tail in Hf.
  destruct e as [seq now replay|seq now]; cbn [channel_run event_seq] in *.
  - destruct (tunnel_receive_rx seq now replay rx) as [v rx1] eqn:Er.
    destruct (tunnel_receive_rx_spec _ _ _ _ _ _ Er He Hok) as (Hd & Hx & Ha & Hok1).
    destruct (channel_run events rx1) as [[d a] rx2] eqn:Ec. injection H as <- <- <-.
    destruct (IH _ _ _ Ec Hf Hok1) as (H1 & H2 & H3 & H4).
    rewrite Hx in *. destruct (sv_deliver v).
    + symmetry in Hd. apply Z.eqb_eq in Hd. subst seq. split_and!; try lia.
      * constructor; [done|]. eapply Forall_impl; [|exact H2]. cbn. lia.
      * constructor; [lia|]. eapply Forall_impl; [|exact H2]. cbn. lia.
      * constructor; [exact Ha|done].
    + rewrite Z.add_0_r in *. split_and!; try done. constructor; [exact Ha|done].
  - destruct (channel_lost_spec seq now rx He Hok) as [Hl Hok1].
    destruct (IH _ _ _ H Hf Hok1) as (H1 & H2 & H3 & H4).
    split_and!; try done; [|lia]. eapply Forall_impl; [|exact H2]. intros z Hz. cbv beta in Hz. lia.
Qed.

(** A late report that 1 is lost skips 2 and 3, which arrived, were not delivered, and
    which the node can still send again: the expected number becomes 4. *)
Theorem lost_skips_received :
  let '(delivered, answers, rx) :=
    channel_run [ChannelData 2 5 false; ChannelData 3 5 false; ChannelLost 1 6;
                 ChannelData 2 7 true; ChannelData 3 7 true; ChannelData 4 8 false]
      root_rx_fresh in
  delivered = [4] /\ rr_expected_seq rx = 5 /\
  (fun a : seq_verdict * Z => sv_ack_seq a.1) <$> drop 2 answers = [3; 3; 4].
Proof. vm_compute. done. Qed.

(** ** Answers to commands *)

Lemma operation_id_eq_refl op : operation_id_eq op op = true.
Proof. unfold operation_id_eq. by rewrite !Z.eqb_refl. Qed.

Lemma operation_id_eq_true a b : operation_id_eq a b = true -> a = b.
Proof. destruct a, b. unfold operation_id_eq. cbn. intros H. bools. by subst. Qed.

Lemma result_new_matches peer op id status now txt rel :
  result_of_operation peer op rel
    (result_update id status now txt (result_new peer rel (Some op) txt)) = true.
Proof.
  unfold result_of_operation, result_of_peer, result_new, mac_eq. cbn.
  rewrite operation_id_eq_refl, bytes_eqb_refl. destruct rel; cbn; [|done].
  by rewrite !Z.eqb_refl.
Qed.

(** What a slot is looked up by is not changed by an answer. *)
Lemma result_of_operation_update peer op rel id status now txt c :
  result_of_operation peer op rel (result_update id status now txt (result_again txt c))
  = result_of_operation peer op rel c.
Proof. unfold result_again. by destruct (bytes_eqb _ _). Qed.

(** The slot an answer to an operation goes to is the one that is looked up. *)
Lemma result_slot_found peer id op rel r :
  find_idx (fun c => result_of_peer peer rel c && result_identity id (Some op) c)
    (s_command_results r)
  = find_idx (result_of_operation peer op rel) (s_command_results r).
Proof.
  apply find_idx_ext. intros c. unfold result_of_operation, result_identity.
  rewrite andb_comm. by destruct (cr_operation_id c).
Qed.

(** The slot of an answer: of this peer, and of the operation or the number. *)
Definition result_slot_of (peer : bytes) (id : Z) (op : option mesh_v2_operation_id_t)
  (rel : option keemash_rel_stats_t) (c : command_result_slot_t) : bool :=
  result_of_peer peer rel c && result_identity id op c.

(** Whatever was on record, the answer is found in its slot afterwards. *)
Lemma answer_stored peer id op status now txt rel r :
  root_wf r ->
  exists c, first_result (result_slot_of peer id op rel)
              (store_result peer id op status now txt rel r) = Some c /\
    cr_command_id c = id /\ cr_status c = status /\ cr_text c = txt.
Proof.
  intros Hr. unfold store_result. fold (result_slot_of peer id op rel).
  assert (Hupd : forall c, result_slot_of peer id op rel c = true ->
    result_slot_of peer id op rel (result_update id status now txt (result_again txt c)) = true).
  { intros c H. unfold result_slot_of in *. apply andb_true_iff in H as [H1 H2].
    apply andb_true_iff. split.
    - rewrite <- H1. unfold result_again. by destruct (bytes_eqb _ _).
    - revert H2. unfold result_identity, result_again.
      by destruct (bytes_eqb _ _), op, (cr_operation_id c) eqn:E; cbn; rewrite ?E, ?Z.eqb_refl. }
  destruct (find_idx _ _) as [i|] eqn:Ef.
  - pose proof Ef as Ef'. apply find_idx_Some in Ef as [(c0 & Hc0 & HP) Hlt].
    exists (result_update id status now txt (result_again txt c0)). split.
    + unfold first_result. cbn. unfold setter. cbn.
      rewrite (find_idx_first _ _ i (result_update id status now txt (result_again txt c0))).
      * cbn [mbind option_bind]. by rewrite list_lookup_alter_eq, Hc0.
      * by rewrite list_lookup_alter_eq, Hc0.
      * by apply Hupd.
      * intros j y Hj Hy. rewrite list_lookup_alter_ne in Hy by lia. by apply (Hlt j).
    + unfold result_again. by destruct (bytes_eqb _ _).
  - set (k := (_ mod _)%nat). set (c := result_update _ _ _ _ _).
    assert (Hk : (k < length (s_command_results r))%nat).
    { rewrite (rw_results _ Hr). by apply Nat.mod_upper_bound. }
    clearbody k. exists c. split; [|done]. unfold first_result. cbn. unfold setter. cbn.
    rewrite (find_idx_first _ _ k c); [by cbn [mbind option_bind]; rewrite list_lookup_insert_eq| | |].
    + by rewrite list_lookup_insert_eq.
    + unfold result_slot_of, result_identity, result_of_peer, c, result_new, mac_eq. cbn.
      rewrite bytes_eqb_refl. destruct rel, op; cbn;
        rewrite ?Z.eqb_refl, ?operation_id_eq_refl; done.
    + intros j y Hj Hy. rewrite list_lookup_insert_ne in Hy by lia.
      apply (find_idx_None _ _ Ef). by eapply list_elem_of_lookup_2.
Qed.

(** The answer to an operation is found by its operation identity at once, with the status and
    the text that came last; the text of the first answer stays on record, and the note
    that the text changed is made exactly when a later answer had another text. *)
Theorem result_found peer id op status now txt rel r :
  root_wf r ->
  let lookup := first_result (result_of_operation peer op rel) in
  exists c, lookup (store_result peer id (Some op) status now txt rel r) = Some c /\
    cr_command_id c = id /\ cr_status c = status /\ cr_text c = txt /\ cr_updated_ms c = now /\
    match lookup r with
    | Some c0 => cr_first_text c = cr_first_text c0 /\
        cr_seen_count c = u32 (cr_seen_count c0 + 1) /\
        cr_text_changed c = cr_text_changed c0 || negb (bytes_eqb (cr_text c0) txt)
    | None => cr_first_text c = txt /\ cr_seen_count c = 1 /\ cr_text_changed c = false
    end.
Proof.
  intros Hr. cbn zeta. unfold store_result. rewrite result_slot_found.
  unfold first_result at 2. destruct (find_idx _ _) as [i|] eqn:Ef; cbn [mbind option_bind].
  - pose proof Ef as Ef'. apply find_idx_Some in Ef as [(c0 & Hc0 & HP) Hlt]. rewrite Hc0.
    exists (result_update id status now txt (result_again txt c0)). split.
    + unfold first_result. cbn. unfold setter. cbn.
      rewrite (find_idx_first _ _ i (result_update id status now txt (result_again txt c0))).
      * cbn [mbind option_bind]. by rewrite list_lookup_alter_eq, Hc0.
      * by rewrite list_lookup_alter_eq, Hc0.
      * by rewrite result_of_operation_update.
      * intros j y Hj Hy. rewrite list_lookup_alter_ne in Hy by lia. by apply (Hlt j).
    + unfold result_again. destruct (bytes_eqb _ _); cbn; unfold setter; cbn;
        by rewrite ?orb_false_r, ?orb_true_r.
  - set (k := (_ mod _)%nat). set (c := result_update _ _ _ _ _).
    assert (Hk : (k < length (s_command_results r))%nat).
    { rewrite (rw_results _ Hr). by apply Nat.mod_upper_bound. }
    clearbody k. exists c. split; [|done]. unfold first_result. cbn. unfold setter. cbn.
    rewrite (find_idx_first _ _ k c); [by cbn [mbind option_bind]; rewrite list_lookup_insert_eq| | |].
    + by rewrite list_lookup_insert_eq.
    + apply result_new_matches.
    + intros j y Hj Hy. rewrite list_lookup_insert_ne in Hy by lia.
      apply (find_idx_None _ _ Ef). by eapply list_elem_of_lookup_2.
Qed.

(** An answer, as it is put on record. *)
Record answer_t := {
  an_peer : bytes; an_id : Z; an_operation : option mesh_v2_operation_id_t; an_status : Z;
  an_now : Z; an_text : bytes; an_rel : option keemash_rel_stats_t }.

Definition store_answer (r : root_t) (a : answer_t) : root_t :=
  store_result (an_peer a) (an_id a) (an_operation a) (an_status a) (an_now a) (an_text a)
    (an_rel a) r.

Definition store_answers : list answer_t -> root_t -> root_t :=
  fun answers r => fold_left store_answer answers r.

(** The answer to another operation, or of another peer. *)
Definition other_answer (peer : bytes) (op : mesh_v2_operation_id_t) (a : answer_t) : Prop :=
  an_operation a <> Some op \/ an_peer a <> peer.

(** Slot [p] holds the answer [c] to an operation, alone; [d] slots were taken since. *)
Record kept (peer : bytes) (op : mesh_v2_operation_id_t) (rel : option keemash_rel_stats_t)
  (c : command_result_slot_t) (p d : nat) (r : root_t) : Prop := {
  kp_len : length (s_command_results r) = COMMAND_RESULT_CACHE_SIZE;
  kp_next : is_u8 (s_command_result_next r);
  kp_place : (Z.to_nat (s_command_result_next r) mod COMMAND_RESULT_CACHE_SIZE)%nat
             = ((p + d) mod COMMAND_RESULT_CACHE_SIZE)%nat;
  kp_at : s_command_results r !! p = Some c;
  kp_only : forall j y, s_command_results r !! j = Some y -> j <> p ->
    result_of_operation peer op rel y = false }.

Lemma next_result_mod z :
  is_u8 z -> (Z.to_nat (u8 (z + 1)) mod COMMAND_RESULT_CACHE_SIZE)%nat
             = ((Z.to_nat z + 1) mod COMMAND_RESULT_CACHE_SIZE)%nat.
Proof.
  intros H. unfold is_u8, u8, COMMAND_RESULT_CACHE_SIZE in *.
  destruct (decide (z = 255)) as [->|Hne]; [done|].
  rewrite Z.mod_small by lia. f_equal. lia.
Qed.

Lemma place_next z p d :
  is_u8 z -> (Z.to_nat z mod COMMAND_RESULT_CACHE_SIZE)%nat
             = ((p + d) mod COMMAND_RESULT_CACHE_SIZE)%nat ->
  (Z.to_nat (u8 (z + 1)) mod COMMAND_RESULT_CACHE_SIZE)%nat
  = ((p + S d) mod COMMAND_RESULT_CACHE_SIZE)%nat.
Proof.
  intros Hz H. rewrite next_result_mod by done.
  rewrite <- Nat.Div0.add_mod_idemp_l, H, Nat.Div0.add_mod_idemp_l. f_equal. lia.
Qed.

Lemma place_other p d :
  (p < COMMAND_RESULT_CACHE_SIZE)%nat -> (0 < d < COMMAND_RESULT_CACHE_SIZE)%nat ->
  ((p + d) mod COMMAND_RESULT_CACHE_SIZE)%nat <> p.
Proof.
  unfold COMMAND_RESULT_CACHE_SIZE. intros Hp Hd He.
  destruct (decide (p + d < 32)%nat); [rewrite Nat.mod_small in He by lia; lia|].
  assert ((p + d) mod 32 = p + d - 32)%nat as Hm; [|lia].
  symmetry. apply (Nat.mod_unique _ _ 1); lia.
Qed.

(** Neither does such an answer match the slot, nor its own slot the operation. *)
Lemma other_no_match peer op a c :
  other_answer peer op a -> cr_peer c = peer -> cr_operation_id c = Some op ->
  result_of_peer (an_peer a) (an_rel a) c && result_identity (an_id a) (an_operation a) c = false.
Proof.
  intros H Hp Ho. unfold result_of_peer, result_identity, mac_eq. rewrite Hp, Ho.
  destruct H as [H|H].
  - destruct (an_operation a) as [o|]; [|by rewrite andb_false_r].
    destruct (operation_id_eq op o) eqn:E; [|by rewrite andb_false_r].
    apply operation_id_eq_true in E. congruence.
  - destruct (bytes_eqb peer (an_peer a)) eqn:E; [|by rewrite andb_false_r].
    apply bytes_eqb_true in E. congruence.
Qed.

Lemma other_new_no_match peer op rel a :
  other_answer peer op a ->
  result_of_operation peer op rel
    (result_update (an_id a) (an_status a) (an_now a) (an_text a)
       (result_new (an_peer a) (an_rel a) (an_operation a) (an_text a))) = false.
Proof.
  intros H. unfold result_of_operation, result_of_peer, result_new, mac_eq. cbn.
  destruct H as [H|H].
  - destruct (an_operation a) as [o|]; [|done]. cbn.
    destruct (operation_id_eq o op) eqn:E; [|done]. apply operation_id_eq_true in E. congruence.
  - destruct (bytes_eqb (an_peer a) peer) eqn:E; [|by rewrite andb_false_r].
    apply bytes_eqb_true in E. congruence.
Qed.

Lemma kept_step peer op rel c p d r a :
  kept peer op rel c p d r -> cr_peer c = peer -> cr_operation_id c = Some op ->
  other_answer peer op a -> (0 < d < COMMAND_RESULT_CACHE_SIZE)%nat ->
  exists d', (0 < d' <= S d)%nat /\ kept peer op rel c p d' (store_answer r a).
Proof.
  intros [] Hp Ho Ha Hd. pose proof (other_no_match _ _ _ _ Ha Hp Ho) as Hno.
  pose proof (lookup_lt_Some _ _ _ kp_at0) as Hlt. rewrite kp_len0 in Hlt.
  unfold store_answer, store_result. destruct (find_idx _ _) as [i|] eqn:Ef.
  - exists d. split; [lia|]. apply find_idx_Some in Ef as [(y & Hy & HP) _].
    assert (i <> p) by (intros ->; congruence).
    split; try done; cbn; unfold setter.
    + by rewrite length_alter.
    + by rewrite list_lookup_alter_ne.
    + intros j z Hz Hj. apply list_alter_Some in Hz as [(<- & z0 & Hz0 & ->)|[_ Hz]];
        [rewrite result_of_operation_update|]; by eapply kp_only0.
  - exists (S d). split; [lia|]. pose proof (place_other p d Hlt Hd) as Hk.
    rewrite <- kp_place0 in Hk. set (k := (_ mod _)%nat) in *.
    assert (Hnext : (Z.to_nat (u8 (s_command_result_next r + 1)) mod COMMAND_RESULT_CACHE_SIZE
      = (p + S d) mod COMMAND_RESULT_CACHE_SIZE)%nat) by by apply place_next.
    clearbody k. split; cbn; unfold setter.
    + by rewrite length_insert.
    + apply u8_is.
    + exact Hnext.
    + by rewrite list_lookup_insert_ne.
    + intros j z Hz Hj. apply list_lookup_insert_Some in Hz as [(<- & <- & _)|[_ Hz]];
        [by apply other_new_no_match|by eapply kp_only0].
Qed.

Lemma kept_answers peer op rel c p answers :
  cr_peer c = peer -> cr_operation_id c = Some op -> Forall (other_answer peer op) answers ->
  forall d r, (0 < d)%nat -> (d + length answers <= COMMAND_RESULT_CACHE_SIZE)%nat ->
  kept peer op rel c p d r -> exists d', kept peer op rel c p d' (store_answers answers r).
Proof.
  intros Hp Ho. induction 1 as [|a answers Ha _ IH]; intros d r Hd Hl H; [by exists d|].
  cbn in Hl. destruct (kept_step _ _ _ _ _ _ _ _ H Hp Ho Ha ltac:(lia)) as (d' & Hd' & H').
  cbn. apply (IH d'); [lia|lia|done].
Qed.

(** C13: the first answer to an operation stays found, unchanged, while fewer than 32 answers
    to other operations or of other peers come in after it. *)
Theorem result_kept peer id op status now txt rel answers r :
  root_wf r -> Forall (other_answer peer op) answers ->
  (length answers < COMMAND_RESULT_CACHE_SIZE)%nat ->
  let lookup := first_result (result_of_operation peer op rel) in
  lookup r = None ->
  lookup (store_answers answers (store_result peer id (Some op) status now txt rel r))
  = Some (result_update id status now txt (result_new peer rel (Some op) txt)).
Proof.
  intros Hr Ha Hl. cbn zeta. intros Hnone.
  set (c := result_update _ _ _ _ _). set (p := (Z.to_nat (s_command_result_next r)
    mod COMMAND_RESULT_CACHE_SIZE)%nat).
  assert (Hp : (p < length (s_command_results r))%nat).
  { rewrite (rw_results _ Hr). by apply Nat.mod_upper_bound. }
  destruct (find_idx (result_of_operation peer op rel) (s_command_results r)) as [i|] eqn:Ef.
  { unfold first_result in Hnone. rewrite Ef in Hnone.
    apply find_idx_Some in Ef as [(x & Hx & _) _]. cbn in Hnone. congruence. }
  assert (H : kept peer op rel c p 1 (store_result peer id (Some op) status now txt rel r)).
  { assert (Hnext : (Z.to_nat (u8 (s_command_result_next r + 1)) mod COMMAND_RESULT_CACHE_SIZE
      = (p + 1) mod COMMAND_RESULT_CACHE_SIZE)%nat).
    { apply place_next; [apply Hr|]. rewrite Nat.add_0_r. unfold p. by rewrite Nat.Div0.mod_mod. }
    unfold store_result. rewrite result_slot_found, Ef. fold p. clearbody p.
    split; cbn; unfold setter.
    - rewrite length_insert. apply Hr.
    - apply u8_is.
    - exact Hnext.
    - by rewrite list_lookup_insert_eq.
    - intros j y Hy Hj. rewrite list_lookup_insert_ne in Hy by done.
      apply (find_idx_None _ _ Ef). by eapply list_elem_of_lookup_2. }
  destruct (kept_answers peer op rel c p answers eq_refl eq_refl Ha 1 _ ltac:(lia)
    ltac:(lia) H) as [d []].
  unfold first_result. rewrite (find_idx_first _ _ p c kp_at0); [exact kp_at0| |].
  - apply result_new_matches.
  - intros j y Hj Hy. apply (kp_only0 j y Hy). lia.
Qed.

(** ** Active pings and pending times *)

Section Link.
Context {U : Type} {RC : RootConfig} {RK : RelKconfig} {RE : RootEnv U}.

(** ** Reading the core leaves the facade's variables as they are *)

Definition still_event : bytes -> Z -> Z -> Z -> Z -> Fac root_t U unit :=
  fun _ _ _ _ _ => mret tt.

#[local] Instance still_env : Env (facade root_t * U) :=
  rel_env rel_send_cb no_delivery still_event.

Lemma still_along : @CbAlong (facade root_t * U) still_env (fun w w' => w.1 = w'.1).
Proof.
  apply (rel_env_along eq); [intros; apply send_cb_own, _|].
  intros. apply stable_ret, _.
Qed.

Lemma stats_still mac :
  stable (own eq) (on_rel None (@keemash_rel_stats _ root_quiet_env mac) : Fac root_t U _).
Proof.
  change (@keemash_rel_stats _ root_quiet_env mac) with (@keemash_rel_stats _ still_env mac).
  apply on_rel_own; [apply _|]. apply stats_along, still_along.
Qed.

Lemma ready_still mac : stable (own eq) (rel_peer_ready (U := U) mac).
Proof.
  unfold rel_peer_ready.
  change (@keemash_rel_peer_ready _ root_quiet_env) with (@keemash_rel_peer_ready _ still_env).
  apply on_rel_own; [apply _|]. apply peer_ready_along, still_along.
Qed.

Lemma have_rel_still : stable (own eq) (have_rel : Fac root_t U bool).
Proof.
  unfold have_rel. apply stable_bind; [apply _|apply has_rel_own, _|]. intros r.
  apply stable_bind; [apply _|apply has_lock_own, _|]. intros l. apply stable_ret, _.
Qed.

Lemma current_still mac : stable (own eq) (current_rel_stats (U := U) mac).
Proof.
  unfold current_rel_stats, rel_taken.
  apply stable_bind; [apply _| |intros [|]; [apply stats_still|apply stable_ret, _]].
  apply stable_bind; [apply _|apply have_rel_still|].
  intros [|]; [apply os_own, _|apply stable_ret, _].
Qed.

(** The table is not changed by looking a node up. *)
Lemma lookup_same mac (o : root_t) :
  o <| s_nodes ::= fun l => (find_node_locked mac false l).2 |> = o.
Proof.
  assert (H : (find_node_locked mac false (s_nodes o)).2 = s_nodes o)
    by (unfold find_node_locked; by destruct (find_idx _ _)).
  change (o <| s_nodes := (find_node_locked mac false (s_nodes o)).2 |> = o).
  rewrite H. by destruct o.
Qed.

Lemma find_node_still mac s :
  find_node (U := U) mac false s =
  ((find_node_locked mac false (s_nodes (f_own s.2.1))).1, s).
Proof.
  destruct s as [r [[l t o] u]].
  transitivity ((find_node_locked mac false (s_nodes o)).1,
    (r, (Build_facade l t (o <| s_nodes ::= fun l => (find_node_locked mac false l).2 |>), u)));
    [reflexivity|]. by rewrite lookup_same.
Qed.

(** ** Pongs *)

Definition pong_taken (now : Z) (n : root_node_state_t) : root_node_state_t :=
  n <| n_ping_pending := false |> <| n_ping_valid := true |>
    <| n_ping_ms := u32 (now - n_ping_sent_ms n) |> <| n_ping_last_rx_ms := now |>.

(** The link a pong must come over: the payload has its size, the core runs, the pong names
    the root's session, and the node is ready. *)
Definition pong_link (from : bytes) (h : mesh_v2_hdr_t) (pong : mesh_v2_ping_payload_t)
  (s : fstate root_t U) : Prop :=
  h_payload_len h = Z.of_nat sizeof_ping /\ (has_rel s).1 = true /\
  pg_root_session_id pong = (rel_local_session s).1 /\
  exists st, (current_rel_stats from s).1 = Some st /\ st_ready st = true.

(** Node [n] waits for this pong. *)
Definition awaits_this (pong : mesh_v2_ping_payload_t) (n : root_node_state_t) : Prop :=
  n_ping_pending n = true /\ n_ping_id n = pg_ping_id pong.

(** The clock when the pong is handled. *)
Definition pong_clock (from : bytes) (s : fstate root_t U) : Z :=
  (ticks_ms (current_rel_stats from s).2.2.2).1.

Lemma is_node_true mac n : is_node mac n = true <-> n_used n = true /\ n_mac n = mac.
Proof. unfold is_node, mac_eq. by rewrite andb_true_iff, bytes_eqb_true. Qed.

(** What [handle_pong] answers and does. *)
Lemma handle_pong_cases from h payload s :
  let pong := decode_ping payload in
  let r := f_own s.2.1 in
  let res := handle_pong (U := U) from h payload s in
  (exists i n, pong_link from h pong s /\ find_idx (is_node from) (s_nodes r) = Some i /\
     s_nodes r !! i = Some n /\ awaits_this pong n /\ res.1 = ESP_OK /\
     f_own res.2.2.1 = r <| s_nodes ::= alter (pong_taken (pong_clock from s)) i |>) \/
  (res.1 <> ESP_OK /\ f_own res.2.2.1 = r /\
   forall i n, pong_link from h pong s -> find_idx (is_node from) (s_nodes r) = Some i ->
     s_nodes r !! i = Some n -> ~ awaits_this pong n).
Proof.
  cbn zeta. unfold handle_pong, pong_link, pong_clock, awaits_this.
  rewrite bind_eq. change (has_rel s).2 with s.
  destruct (negb (h_payload_len h =? Z.of_nat sizeof_ping) || negb (has_rel s).1) eqn:E1.
  { right. split; [done|]. split; [done|]. intros i n (H1 & H2 & _).
    rewrite H1, H2, Z.eqb_refl in E1. done. }
  apply orb_false_iff in E1 as [E1 E2]. apply negb_false_iff, Z.eqb_eq in E1.
  apply negb_false_iff in E2. cbn zeta. rewrite bind_eq.
  assert (Hsess : (rel_local_session s).2 = s) by (destruct s as [[c|] w]; done).
  rewrite Hsess. set (session := (rel_local_session s).1). set (pong := decode_ping payload).
  rewrite bind_eq. destruct (pg_root_session_id pong =? session) eqn:Es.
  2:{ right. split; [done|]. split; [done|]. intros i n (_ & _ & H & _). apply Z.eqb_neq in Es. done. }
  apply Z.eqb_eq in Es. pose proof (current_still from s) as Hm. unfold own in Hm.
  destruct (current_rel_stats from s) as [rel [r1 [f1 u1]]]. cbn [fst snd] in *. subst f1.
  destruct (from_option st_ready false rel) eqn:Er; cbn [negb].
  2:{ right. split; [done|]. split; [done|]. intros i n (_ & _ & _ & st & -> & H). cbn in Er. congruence. }
  assert (Hlink : exists st, rel = Some st /\ st_ready st = true)
    by (destruct rel as [st|]; [by exists st|done]).
  rewrite bind_eq. unfold ms_now. rewrite os_run. cbn [fst snd]. set (now := (ticks_ms u1).1).
  set (u2 := (ticks_ms u1).2).
  rewrite bind_eq, find_node_still. cbn [fst snd]. unfold get_root. rewrite run_own.
  unfold find_node_locked. destruct (find_idx _ _) as [i|] eqn:Ef; cbn [fst].
  2:{ right. split; [done|]. split; [done|]. intros i n _ H. done. }
  pose proof Ef as Ef'. apply find_idx_Some in Ef as [(n & Hn & Hi) _].
  unfold node_at. rewrite (nth_lookup_Some _ _ _ _ Hn).
  destruct (n_ping_pending n && _) eqn:Ep.
  - left. apply andb_true_iff in Ep as [Hp Hid]. apply Z.eqb_eq in Hid. exists i, n. done.
  - right. split; [done|]. split; [done|]. intros i' n' _ [= <-] Hn' [Hp Hid].
    rewrite Hn in Hn'. injection Hn' as <-. rewrite Hp, Hid, Z.eqb_refl in Ep. done.
Qed.

(** C32: a pong is accepted exactly when it comes over a ready link of this session from a
    node that waits for a pong of that number.  Then that node's ping is no longer pending
    and the time from its sending to the clock's reading is recorded; otherwise nothing
    changes.  A pong that was accepted is refused when it comes again. *)
Theorem pong_exact from h payload s :
  root_wf (f_own s.2.1) ->
  let pong := decode_ping payload in
  let r := f_own s.2.1 in
  let res := handle_pong (U := U) from h payload s in
  (res.1 = ESP_OK <->
   pong_link from h pong s /\
   exists i n, s_nodes r !! i = Some n /\ n_used n = true /\ n_mac n = from /\
     awaits_this pong n) /\
  (res.1 = ESP_OK -> forall i n, s_nodes r !! i = Some n -> n_used n = true -> n_mac n = from ->
   f_own res.2.2.1 = r <| s_nodes ::= alter (pong_taken (pong_clock from s)) i |>) /\
  (res.1 <> ESP_OK -> f_own res.2.2.1 = r) /\
  (res.1 = ESP_OK ->
   forall from' h' payload' s', s'.2.1 = res.2.2.1 ->
     (handle_pong (U := U) from' h' payload' s').1 <> ESP_OK).
Proof.
  intros Hr. cbn zeta.
  assert (Hidx : forall i n, s_nodes (f_own s.2.1) !! i = Some n -> n_used n = true ->
    n_mac n = from -> find_idx (is_node from) (s_nodes (f_own s.2.1)) = Some i).
  { intros i n Hn Hu Hm. apply (find_idx_first _ _ i n Hn); [by apply is_node_true|].
    intros j y Hj Hy. destruct (is_node from y) eqn:Ey; [|done].
    apply is_node_true in Ey as [Huy Hmy].
    rewrite (rw_macs _ Hr i j n y Hn Hy Hu Huy ltac:(congruence)) in Hj. lia. }
  destruct (handle_pong_cases from h payload s)
    as [(i & n & Hl & Hf & Hn & Ha & Hok & Hown)|(Hbad & Hown & Hnot)].
  - pose proof Hf as Hf'. apply find_idx_Some in Hf as [(n' & Hn' & Hi) _].
    apply is_node_true in Hi as [Hu Hm]. rewrite Hn in Hn'. injection Hn' as <-.
    split; [split; [intros _; split; [done|by exists i, n]|done]|].
    split; [|split; [done|]].
    + intros _ j m Hj Huj Hmj. rewrite (Hidx j m Hj Huj Hmj) in Hf'. injection Hf' as ->. done.
    + intros _ from' h' payload' s' Hs' Hok'.
      destruct (handle_pong_cases from' h' payload' s')
        as [(j & m & _ & Hfj & Hj & [Hp' _] & _)|(Hbad & _)]; [|done].
      apply find_idx_Some in Hfj as [(m' & Hm' & Hij) _]. apply is_node_true in Hij as [Hu' _].
      rewrite Hj in Hm'. injection Hm' as <-.
      rewrite Hs', Hown in Hj. cbn in Hj. unfold setter in Hj.
      apply list_alter_Some in Hj as [(_ & m0 & _ & ->)|[Hij Hj]]; [done|].
      apply Hij. eapply (count_if_unique awaits_pong _ _ _ n m); [apply Hr|exact Hn|exact Hj| |];
        unfold awaits_pong; destruct Ha as [Hp _]; by rewrite ?Hu, ?Hp, ?Hu', ?Hp'.
  - split; [split; [done|]|done]. intros (Hl & i & n & Hn & Hu & Hm & Ha).
    exfalso. eapply Hnot; eauto.
Qed.

(** ** Pending times *)

Definition awaits_time (n : root_node_state_t) : bool :=
  n_used n && n_route_up n && n_time_pending n.

(** While the first node that waits for a time is not ready, a round hands no time to any
    node: the pending times of the ready nodes after it stay pending. *)
Theorem time_head_of_line s i :
  find_idx awaits_time (s_nodes (f_own s.2.1)) = Some i ->
  let mac := n_mac (node_at (f_own s.2.1) i) in
  (rel_peer_ready (U := U) mac s).1 = false ->
  flush_one_pending_time s = (tt, (rel_peer_ready mac s).2) /\
  f_own (flush_one_pending_time s).2.2.1 = f_own s.2.1.
Proof.
  intros Hi mac Hready.
  assert (H : flush_one_pending_time s = (tt, (rel_peer_ready mac s).2)).
  { unfold flush_one_pending_time. rewrite bind_eq.
    replace (get_root s) with (f_own s.2.1, s) by (by destruct s as [? [? ?]]). cbn [fst snd].
    change (find_idx _ (s_nodes (f_own s.2.1)))
      with (find_idx awaits_time (s_nodes (f_own s.2.1))).
    rewrite Hi. cbn zeta. fold mac. rewrite bind_eq, Hready. done. }
  split; [exact H|]. rewrite H. cbn [snd]. pose proof (ready_still mac s) as Hs.
  unfold own in Hs. by rewrite <- Hs.
Qed.
End Link.
