(* ===== verification/RootNode.v ===== *)
(** * What one facade sends is what the other takes

    Commands from the root and their answers from the node: the sender's checks, the bytes
    handed to the reliable layer, and what the receiver's delivery callback makes of them. *)

From S2P Require Import Prelude.
From S2P Require Import Words.
From S2P Require Import Esp.
From S2P Require Import Rtos.
From S2P Require Import MeshProto.
From S2P Require Import MeshProtoV2.
From S2P Require Import MeshWire.
From S2P Require Import RelState.
From S2P Require Import RelOps.
From S2P Require Import Facade.
From S2P Require Import FacadeInv.
From S2P Require Import NodeState.
From S2P Require Import Node.
From S2P Require Import RootState.
From S2P Require Import Root.
From S2P Require Import RootReach.
From S2P Require Import RootProps.
#[local] Open Scope Z_scope.

(** A C string. *)
Definition plain_text (txt : bytes) : Prop := Forall (fun b => b <> 0) txt.

Definition operation_ok (op : option mesh_v2_operation_id_t) : Prop :=
  match op with
  | Some id => is_u64 (op_high id) /\ is_u64 (op_low id) /\
               (negb (op_high id =? 0) || negb (op_low id =? 0)) = true
  | None => True
  end.

Lemma cstr_plain txt : plain_text txt -> cstr txt = txt.
Proof. intros H. rewrite <- (app_nil_r txt) at 1. by apply (cstr_app_zeros txt 0). Qed.

(** *** The members of a CONTROL payload *)

Lemma control_payload_text kind status id txt op :
  slice 8 (length txt) (control_payload kind status id txt op) = txt.
Proof.
  unfold control_payload. rewrite slice_app_r by (cbn; lia). cbn [length Nat.sub].
  rewrite slice_app_r by (by rewrite length_le_bytes). rewrite length_le_bytes.
  by apply slice_app_l.
Qed.

Lemma control_payload_id kind status id txt op :
  is_u32 id -> get_le 4 (control_payload kind status id txt op) 4 = id.
Proof.
  intros H. unfold control_payload, get_le. rewrite slice_app_r by (cbn; lia).
  cbn [length Nat.sub]. rewrite slice_app_l by apply length_le_bytes.
  by apply le_val_bytes_4.
Qed.

Lemma control_payload_operation kind status id txt op :
  Z.of_nat (length txt) <= MESH_V2_CONTROL_TEXT_MAX -> operation_ok op ->
  keemash_mesh_control_get_operation_id (control_payload kind status id txt op) = op.
Proof.
  intros Hl Hop. unfold keemash_mesh_control_get_operation_id.
  rewrite length_control_payload.
  change (control_text_len (control_payload kind status id txt op)) with (Z.of_nat (length txt)).
  rewrite (proj2 (Z.ltb_ge _ control_text_offset)) by (unfold control_text_offset; lia).
  destruct op as [op|]; [|done]. destruct Hop as (Hh & Hlo & Hnz).
  change (has_flag (control_rsv (control_payload kind status id txt (Some op)))
    MESH_V2_CONTROL_FLAG_OPERATION_ID) with true. cbn [negb orb].
  rewrite (proj2 (Z.ltb_ge _ _) Hl). cbv zeta.
  unfold keemash_mesh_control_payload_size. rewrite (proj2 (Z.ltb_ge _ _) Hl).
  unfold control_text_offset, sizeof_operation_id.
  rewrite (proj2 (Z.eqb_neq _ 0)) by lia. rewrite (proj2 (Z.ltb_ge _ (8 + Z.of_nat (length txt) + 0 + 16))) by lia. cbn [orb].
  replace (Z.to_nat (8 + Z.of_nat (length txt) + 0)) with (8 + length txt)%nat by lia.
  destruct (control_op_id_slice kind status id txt op Hh Hlo) as [-> ->]. cbn [op_high op_low].
  rewrite Hnz. by destruct op.
Qed.

Lemma control_size_fits (txt : bytes) b :
  Z.of_nat (length txt) <= MESH_V2_CONTROL_TEXT_MAX ->
  let size := keemash_mesh_control_payload_size (Z.of_nat (length txt)) b in
  (size =? 0) || (MESH_V2_RELIABLE_INNER_MAX <? size) = false.
Proof.
  intros Hl. cbn zeta. unfold keemash_mesh_control_payload_size.
  rewrite (proj2 (Z.ltb_ge _ _) Hl). apply orb_false_iff.
  rewrite Z.eqb_neq, Z.ltb_ge.
  unfold MESH_V2_CONTROL_TEXT_MAX, control_text_offset, sizeof_operation_id,
    MESH_V2_RELIABLE_INNER_MAX in *.
  destruct b; lia.
Qed.

(** The flag of the payload agrees with what is read from it. *)
Lemma control_flag_consistent kind status id txt op :
  has_flag (control_rsv (control_payload kind status id txt op))
    MESH_V2_CONTROL_FLAG_OPERATION_ID && negb (is_some op) = false.
Proof. by destruct op. Qed.

Lemma control_report_payload status id txt op :
  txt <> [] -> Z.of_nat (length txt) <= MESH_V2_CONTROL_TEXT_MAX ->
  control_report_ok (control_payload MESH_V2_CONTROL_RESULT status id txt op) = true.
Proof.
  intros Hne Hl. unfold control_report_ok.
  change (control_text_len (control_payload MESH_V2_CONTROL_RESULT status id txt op))
    with (Z.of_nat (length txt)).
  change (get_u8 (control_payload MESH_V2_CONTROL_RESULT status id txt op) 0)
    with MESH_V2_CONTROL_RESULT.
  rewrite (proj2 (Z.ltb_lt 0 _)) by (destruct txt; cbn; [done|lia]).
  by rewrite (proj2 (Z.leb_le _ _) Hl).
Qed.

(** Which channel a constant is. *)
Ltac eval_channels :=
  repeat match goal with
  | |- context [MESH_V2_TUNNEL_CHANNEL_CONTROL =? ?ch] =>
      let b := eval vm_compute in (MESH_V2_TUNNEL_CHANNEL_CONTROL =? ch) in
      change (MESH_V2_TUNNEL_CHANNEL_CONTROL =? ch) with b
  end; cbn [andb negb].

Section Commands.
Context {UN : Type} {NC : NodeConfig} {NK : RelKconfig} {NE : NodeEnv UN}.
Context {UR : Type} {RK : RelKconfig} {RE : RootEnv UR}.

(** The root hands a command over when the node is known to understand it. *)
Definition hand_over (mac : bytes) (op : option mesh_v2_operation_id_t) (payload : bytes)
  : Fac root_t UR esp_err_t :=
  supported ← (if is_some op
               then mesh_v2_root_peer_advertises_lossless mac MESH_V2_CAP_OPERATION_ID
               else mret true);
  if negb supported then mret ESP_ERR_NOT_SUPPORTED
  else with_rel 500
         (Root.rel_send mac MESH_V2_TUNNEL_CHANNEL_CONTROL payload KEEMASH_REL_PRIORITY_CONTROL).

(** C11: a command the root accepts is handed to the reliable layer as one payload, of which
    the node's delivery callback recovers the same number, the same text and the same
    operation, and then handles exactly that command. *)
Theorem command_reaches_node mac peer stream id txt op :
  is_u32 id -> txt <> [] -> plain_text txt ->
  Z.of_nat (length txt) < MESH_V2_CONTROL_TEXT_MAX -> operation_ok op ->
  let payload := control_payload MESH_V2_CONTROL_COMMAND 0 id txt op in
  mesh_v2_root_send_command_operation mac id txt op = hand_over mac op payload /\
  Node.rel_deliver_cb peer MESH_V2_TUNNEL_CHANNEL_CONTROL payload stream
    = handle_command (U := UN) id txt op.
Proof.
  intros Hid Hne Hplain Hl Hop payload. split.
  - unfold mesh_v2_root_send_command_operation, hand_over. cbv zeta.
    rewrite (proj2 (Z.eqb_neq (Z.of_nat (length txt)) 0)) by (destruct txt; cbn; [done|lia]).
    rewrite (proj2 (Z.leb_gt _ _) Hl).
    assert (Hz : zero_operation op = false).
    { destruct op as [op|]; [|done]. destruct Hop as (_ & _ & Hnz). cbn.
      by destruct (op_high op =? 0), (op_low op =? 0). }
    rewrite Hz. rewrite control_size_fits by lia. done.
  - unfold Node.rel_deliver_cb. eval_channels.
    cbn [andb negb]. unfold control_command. cbv zeta. unfold payload.
    rewrite length_control_payload.
    rewrite (proj2 (Z.ltb_ge _ control_text_offset)) by (unfold control_text_offset; lia).
    change (control_text_len (control_payload MESH_V2_CONTROL_COMMAND 0 id txt op))
      with (Z.of_nat (length txt)).
    change (get_u8 (control_payload MESH_V2_CONTROL_COMMAND 0 id txt op) 0
      =? MESH_V2_CONTROL_COMMAND) with true. cbn [negb orb].
    rewrite (proj2 (Z.ltb_ge _ (Z.of_nat (length txt)))) by lia.
    rewrite (proj2 (Z.ltb_ge _ (control_text_offset + _))) by (unfold control_text_offset; lia).
    rewrite control_payload_operation by (done || lia). rewrite control_flag_consistent.
    cbn [orb]. rewrite control_payload_id by done.
    rewrite Nat2Z.id, control_payload_text. by rewrite cstr_plain.
Qed.

(** What an answer leaves in the root's record: its slot, with its status and its text. *)
Lemma note_command_result_stored peer id op status txt (s : fstate root_t UR) :
  root_wf (f_own s.2.1) ->
  exists rel c, first_result (result_slot_of peer id op rel)
                  (f_own (note_command_result peer id op status txt s).2.2.1) = Some c /\
    cr_command_id c = id /\ cr_status c = status /\ cr_text c = take 63 txt.
Proof.
  intros Hr. destruct s as [r [f u]]. cbn [fst snd] in Hr.
  unfold note_command_result, ms_now. rewrite bind_eq, os_run. cbn [fst snd].
  set (now := (ticks_ms u).1). set (u1 := (ticks_ms u).2). rewrite bind_eq.
  pose proof (current_still peer (r, (f, u1))) as Hs. unfold own in Hs. cbn [fst snd] in Hs.
  destruct (current_rel_stats peer (r, (f, u1))) as [rel [r' [f' u']]]. cbn [fst snd] in *.
  subst f'. exists rel. exact (answer_stored peer id op status now (take 63 txt) rel _ Hr).
Qed.

(** C12: the answer a node sends to a command is one payload, from which the root's delivery
    callback takes the same number, status, text and operation.  It notes that answer and then
    tells the application; noting it leaves, whatever was on record, a slot of that peer and
    operation (number, without one) with the status and the first 63 characters of the
    text. *)
Theorem answer_reaches_root peer stream id status txt op :
  is_u32 id -> txt <> [] -> plain_text txt ->
  Z.of_nat (length txt) <= MESH_V2_CONTROL_TEXT_MAX -> operation_ok op ->
  let payload := control_payload MESH_V2_CONTROL_RESULT status id txt op in
  Node.rel_send_control_result (U := UN) id status txt op
  = (ok ← have_rel;
     if negb ok then mret ESP_ERR_INVALID_STATE
     else Node.rel_send MESH_V2_TUNNEL_CHANNEL_CONTROL payload KEEMASH_REL_PRIORITY_CONTROL) /\
  Root.rel_deliver_cb peer MESH_V2_TUNNEL_CHANNEL_CONTROL payload stream
  = (note_reliable_delivery (U := UR) peer MESH_V2_TUNNEL_CHANNEL_CONTROL;;
     rel ← current_rel_stats peer;
     note_command_result peer id op status txt;;
     keemash_mesh_root_on_control_ex peer (from_option st_root_session_id 0 rel)
       (from_option st_node_session_id 0 rel) MESH_V2_CONTROL_RESULT id status txt op) /\
  forall s : fstate root_t UR, root_wf (f_own s.2.1) ->
    exists rel c, first_result (result_slot_of peer id op rel)
                    (f_own (note_command_result peer id op status txt s).2.2.1) = Some c /\
      cr_command_id c = id /\ cr_status c = status /\ cr_text c = take 63 txt.
Proof.
  intros Hid Hne Hplain Hl Hop payload. split; [|split; [|apply note_command_result_stored]].
  - unfold rel_send_control_result, rel_send_control. cbv zeta.
    rewrite take_ge by lia.
    assert (Hn : (op' ← op; if negb (op_high op' =? 0) || negb (op_low op' =? 0)
      then Some op' else None) = op).
    { destruct op as [op|]; [|done]. destruct Hop as (_ & _ & Hnz). cbn. by rewrite Hnz. }
    rewrite Hn. by rewrite control_size_fits by lia.
  - unfold Root.rel_deliver_cb. cbv zeta.
    eval_channels.
    cbn [andb]. unfold payload at 1. rewrite length_control_payload.
    rewrite (proj2 (Z.leb_le control_text_offset _)) by (unfold control_text_offset; lia).
    cbn [when]. unfold when, deliver_control, payload.
    rewrite control_report_payload by done. cbn [negb]. cbv zeta.
    rewrite control_payload_operation by done. rewrite control_flag_consistent.
    rewrite control_payload_id by done.
    change (get_u8 (control_payload MESH_V2_CONTROL_RESULT status id txt op) 0)
      with MESH_V2_CONTROL_RESULT.
    change (get_u8 (control_payload MESH_V2_CONTROL_RESULT status id txt op) 1) with status.
    unfold control_text.
    change (control_text_len (control_payload MESH_V2_CONTROL_RESULT status id txt op))
      with (Z.of_nat (length txt)).
    rewrite Nat2Z.id, control_payload_text. by rewrite cstr_plain.
Qed.
End Commands.
