(* ===== verification/RootDemo.v ===== *)
(** * The root facade on a quiet board, alone and with a node

    The board of NodeDemo, seen from the root: every call of the system succeeds, the
    clock is still, and the world is the list of the packets sent, newest first.  A node
    of NodeDemo and the root are linked by carrying each other's packets: the handshake,
    a command and its answer.  The hypotheses of the root's theorems can hold. *)

From Stdlib Require Import Sorted.
From S2P Require Import Prelude.
From S2P Require Import Words.
From S2P Require Import Esp.
From S2P Require Import Rtos.
From S2P Require Import MeshProto.
From S2P Require Import MeshProtoV1.
From S2P Require Import MeshProtoV2.
From S2P Require Import MeshWire.
From S2P Require Import RelState.
From S2P Require Import RelOps.
From S2P Require Import RelInv.
From S2P Require Import RelEnv.
From S2P Require Import Facade.
From S2P Require Import FacadeInv.
From S2P Require Import NodeState.
From S2P Require Import Node.
From S2P Require Import NodeReach.
From S2P Require Import NodeDemo.
From S2P Require Import RootState.
From S2P Require Import Root.
From S2P Require Import RootInv.
From S2P Require Import RootReach.
From S2P Require Import RootProps.
From S2P Require Import RootNode.
#[local] Open Scope Z_scope.

#[local] Existing Instances wire_node wire_config wire_kconfig.

(** The root has its own address, and its own number for the session. *)
Definition root_board : FacadeEnv wire := {|
  fac_rtos := @fac_rtos _ wire_facade;
  fac_transport := {| keemash_mesh_get_local_mac := fun w => (root_mac, w);
                      keemash_mesh_transport_send := fun _ packet w => (ESP_OK, packet :: w) |};
  fac_timer_us := fun w => (7000000, w); fac_random := fun w => (55, w);
  heap_ok := fun w => (true, w) |}.

Definition wire_root : RootEnv wire := {|
  root_facade := root_board;
  root_err_u32 := fun e => if err_eqb e ESP_OK then 0 else 1;
  keemash_mesh_root_on_state_changed := mret tt;
  keemash_mesh_root_on_node_seen := fun _ _ => mret tt;
  keemash_mesh_root_on_node_seen_uptime := fun _ _ _ _ => mret tt;
  keemash_mesh_root_on_log_line := fun _ _ _ => mret tt;
  keemash_mesh_root_on_task_snapshot := fun _ _ => mret tt;
  keemash_mesh_root_on_memory_snapshot := fun _ _ => mret tt;
  keemash_mesh_root_on_sensor_snapshot := fun _ _ => mret tt;
  keemash_mesh_root_on_ota_v3_message := fun _ _ => mret tt;
  keemash_mesh_root_on_ota_status := fun _ _ => mret tt;
  keemash_mesh_root_on_topology := fun _ _ => mret tt;
  keemash_mesh_root_on_control_ex := fun _ _ _ _ _ _ _ _ => mret tt |}.
#[local] Existing Instance wire_root.

#[local] Instance wire_root_config : RootConfig := {|
  CONFIG_KEEMASH_ACTIVE_PING_TIMEOUT_MS := 3000; CONFIG_KEEMASH_ACTIVE_PING_PERIOD_MS := 0 |}.

#[local] Instance wire_root_hooks (T : relation (fstate root_t wire)) `{!PreOrder T} :
  RootHooks wire_root T.
Proof. split; intros; apply stable_ret, _. Qed.

(** ** A node and the root *)

Definition root_off : fstate root_t wire := (None, (facade_zero root_zero, [])).

Definition pair_t : Type := fstate node_t wire * fstate root_t wire.

(** The packets one side sent are carried to the other, oldest first. *)
Definition to_root (p : pair_t) : pair_t :=
  let '((c, (f, w)), r) := p in
  ((c, (f, [])), fold_left (fun r packet => (run_root (Root_rx node_mac packet) r).2) (rev w) r).
Definition to_node (p : pair_t) : pair_t :=
  let '(n, (c, (f, w))) := p in
  (fold_left (fun n packet => (run_node (Call_rx root_mac packet) n).2) (rev w) n, (c, (f, []))).
Definition round (p : pair_t) : pair_t := to_node (to_root p).

Definition linked_pair : pair_t :=
  round (round (started, (run_root Root_init root_off).2)).

(** The handshake is over on both sides. *)
Example pair_ready :
  (mesh_v2_node_ready linked_pair.1).1 = true /\ (rel_peer_ready node_mac linked_pair.2).1 = true.
Proof. vm_compute. done. Qed.

Definition op1 : mesh_v2_operation_id_t := {| op_high := 3; op_low := 9 |}.

(** "led:1", from the root. *)
Definition led_on : bytes := [108; 101; 100; 58; 49].

Definition after_command : pair_t :=
  round (round (linked_pair.1,
    (run_root (Root_command node_mac 4 led_on (Some op1)) linked_pair.2).2)).

(** A command crosses the mesh: it runs on the node, and the root has its answer on record. *)
Example command_answered :
  option_map (fun c => (cr_command_id c, cr_status c, cr_text c))
    (mesh_v2_root_command_result_for_operation node_mac op1 after_command.2).1
  = Some (4, MESH_V2_CONTROL_STATUS_OK, long_answer).
Proof. vm_compute. reflexivity. Qed.

Definition command_again : pair_t :=
  round (round (after_command.1,
    (run_root (Root_command node_mac 4 led_on (Some op1)) after_command.2).2)).

(** The command is sent a second time and does not run again; but the node repeats its
    answer from a shorter buffer, so the root notes that the answer changed. *)
Theorem repeat_looks_changed :
  option_map (fun c => (cr_seen_count c, length (cr_first_text c), length (cr_text c),
                        cr_text_changed c))
    (mesh_v2_root_command_result_for_operation node_mac op1 command_again.2).1
  = Some (2, 60%nat, 47%nat, true).
Proof. vm_compute. reflexivity. Qed.

(** ** The states are reachable *)

Definition pair_reachable (p : pair_t) : Prop := node_reachable p.1 /\ root_reachable p.2.

Lemma pair_intro n r : node_reachable n -> root_reachable r -> pair_reachable (n, r).
Proof. by split. Qed.

Lemma root_fed packets r :
  root_reachable r ->
  root_reachable (fold_left (fun r packet => (run_root (Root_rx node_mac packet) r).2) packets r).
Proof.
  revert r. induction packets as [|p packets IH]; intros r H; [done|]. by apply IH, root_called.
Qed.

Lemma node_fed packets n :
  node_reachable n ->
  node_reachable (fold_left (fun n packet => (run_node (Call_rx root_mac packet) n).2) packets n).
Proof.
  revert n. induction packets as [|p packets IH]; intros n H; [done|]. by apply IH, node_called.
Qed.

Lemma to_root_reachable p : pair_reachable p -> pair_reachable (to_root p).
Proof.
  destruct p as [[c [f w]] r]. intros [Hn Hr]. unfold pair_reachable, to_root. cbn [fst snd] in *.
  split; [exact (node_world c f w [] Hn)|exact (root_fed (rev w) r Hr)].
Qed.

Lemma to_node_reachable p : pair_reachable p -> pair_reachable (to_node p).
Proof.
  destruct p as [n [c [f w]]]. intros [Hn Hr]. unfold pair_reachable, to_node. cbn [fst snd] in *.
  split; [exact (node_fed (rev w) n Hn)|exact (root_world c f w [] Hr)].
Qed.

Lemma round_reachable p : pair_reachable p -> pair_reachable (round p).
Proof. intros H. exact (to_node_reachable _ (to_root_reachable _ H)). Qed.

Lemma node_started : node_reachable started.
Proof. unfold started. do 2 apply node_called. apply node_boot. Qed.

Lemma root_started : root_reachable (run_root Root_init root_off).2.
Proof. apply root_called. apply root_boot. Qed.

Lemma linked_pair_reachable : pair_reachable linked_pair.
Proof.
  exact (round_reachable _ (round_reachable _ (pair_intro _ _ node_started root_started))).
Qed.

Definition pinged : fstate root_t wire := (run_root Root_poll linked_pair.2).2.

Lemma pinged_reachable : root_reachable pinged.
Proof. unfold pinged. apply root_called. exact (proj2 linked_pair_reachable). Qed.

Example root_states_witness : fac_wf pinged /\ root_wf (f_own pinged.2.1).
Proof. apply root_states. exact pinged_reachable. Defined.

(** ** Witnesses *)

(** Packets 2, 1, 2, 4 (2 repeated), then a report that 3 is lost: 1, 2, then 5. *)
Definition mixed_events : list channel_event :=
  [ChannelData 2 5 false; ChannelData 1 5 false; ChannelData 2 5 true;
   ChannelData 4 5 false; ChannelLost 3 5; ChannelData 5 6 false].

Example root_delivers_once_witness :
  let '(delivered, _, _) := channel_run mixed_events root_rx_fresh in
  delivered = [1; 2; 5] /\ StronglySorted Z.lt [1; 2; 5].
Proof.
  split; [vm_compute; reflexivity|].
  refine (proj1 (root_delivers_once mixed_events root_rx_fresh [1; 2; 5]
    (channel_run mixed_events root_rx_fresh).1.2 (channel_run mixed_events root_rx_fresh).2
    _ _ _)).
  - vm_compute. reflexivity.
  - repeat (constructor; [cbn; unfold UINT32_MAX; lia|]). constructor.
  - split; cbn; unfold UINT32_MAX; lia.
Defined.

(** The number 2^32 - 1, far ahead, becomes the highest seen; the report that the expected
    number is lost moves the expected one past it, to 0, and number 1 is delivered again. *)
Example last_number_restarts :
  (channel_run [ChannelData 1 5 false; ChannelData 0xFFFFFFFF 5 false; ChannelLost 2 5;
                ChannelData 0 5 false; ChannelData 1 5 true] root_rx_fresh).1.1 = [1; 0; 1].
Proof. vm_compute. reflexivity. Qed.

Definition answer_seen (txt : bytes) (r : root_t) : root_t :=
  store_result node_mac 4 (Some op1) 0 9 txt None r.

Example result_found_witness :
  exists c, first_result (result_of_operation node_mac op1 None)
              (answer_seen [111] (answer_seen [107] root_zero)) = Some c /\
    cr_text c = [111] /\ cr_first_text c = [107] /\ cr_text_changed c = true.
Proof.
  assert (Hw : root_wf (answer_seen [107] root_zero)).
  { apply (store_result_wf node_mac 4 (Some op1) 0 9 [107] None), root_zero_wf. }
  destruct (result_found node_mac 4 op1 0 9 [111] None _ Hw) as (c & Hc & _ & _ & Ht & _ & Hm).
  exists c. split; [exact Hc|]. split; [exact Ht|].
  replace (first_result (result_of_operation node_mac op1 None) (answer_seen [107] root_zero))
    with (Some (result_update 4 0 9 [107] (result_new node_mac None (Some op1) [107]))) in Hm
    by (vm_compute; reflexivity).
  destruct Hm as (Hf & _ & Hx). split; [exact Hf|]. rewrite Hx. vm_compute. reflexivity.
Defined.

(** The answer to another operation of the same node. *)
Definition other_one : answer_t :=
  {| an_peer := node_mac; an_id := 5; an_operation := Some {| op_high := 3; op_low := 10 |};
     an_status := 0; an_now := 9; an_text := [110]; an_rel := None |}.

Example result_kept_witness :
  first_result (result_of_operation node_mac op1 None)
    (store_answers (replicate 31 other_one)
       (store_result node_mac 4 (Some op1) 0 9 [107] None root_zero))
  = Some (result_update 4 0 9 [107] (result_new node_mac None (Some op1) [107])).
Proof.
  apply (result_kept node_mac 4 op1 0 9 [107] None (replicate 31 other_one)).
  - exact root_zero_wf.
  - apply Forall_replicate. left. discriminate.
  - rewrite length_replicate. unfold COMMAND_RESULT_CACHE_SIZE. lia.
  - vm_compute. reflexivity.
Defined.

(** The pong of the node to the ping of the round. *)
Definition pong_payload : bytes :=
  encode_ping {| pg_ping_id := 1; pg_root_session_id := 55 |}.
Definition pong_hdr : mesh_v2_hdr_t :=
  v2_hdr MESH_V2_TYPE_PONG 0 77 0 0 node_mac pong_payload.

Example pong_exact_witness :
  let res := handle_pong node_mac pong_hdr pong_payload pinged in
  res.1 = ESP_OK /\ (handle_pong node_mac pong_hdr pong_payload res.2).1 <> ESP_OK.
Proof.
  cbv zeta.
  destruct (pong_exact node_mac pong_hdr pong_payload pinged) as (_ & _ & _ & H).
  - apply reachable_root_wf. exact pinged_reachable.
  - assert (Hok : (handle_pong node_mac pong_hdr pong_payload pinged).1 = ESP_OK)
      by (vm_compute; reflexivity).
    split; [exact Hok|]. by apply (H Hok).
Defined.

Example command_reaches_node_witness :
  let payload := control_payload MESH_V2_CONTROL_COMMAND 0 4 led_on (Some op1) in
  mesh_v2_root_send_command_operation node_mac 4 led_on (Some op1)
    = hand_over node_mac (Some op1) payload /\
  Node.rel_deliver_cb root_mac MESH_V2_TUNNEL_CHANNEL_CONTROL payload 0
    = handle_command 4 led_on (Some op1).
Proof.
  apply (command_reaches_node node_mac root_mac 0 4 led_on (Some op1)).
  - unfold is_u32. lia.
  - discriminate.
  - repeat (constructor; [discriminate|]). constructor.
  - vm_compute. reflexivity.
  - split; [|split; [|reflexivity]]; unfold is_u64; cbn; lia.
Defined.

Example answer_reaches_root_witness :
  Node.rel_send_control_result 4 0 long_answer (Some op1)
  = (ok ← have_rel;
     if negb ok then mret ESP_ERR_INVALID_STATE
     else Node.rel_send MESH_V2_TUNNEL_CHANNEL_CONTROL
            (control_payload MESH_V2_CONTROL_RESULT 0 4 long_answer (Some op1))
            KEEMASH_REL_PRIORITY_CONTROL) /\
  exists rel c, first_result (result_slot_of node_mac 4 (Some op1) rel)
      (f_own (note_command_result node_mac 4 (Some op1) 0 long_answer pinged).2.2.1) = Some c /\
    cr_text c = long_answer.
Proof.
  destruct (answer_reaches_root node_mac 0 4 0 long_answer (Some op1)) as (H1 & _ & H3).
  - unfold is_u32. lia.
  - discriminate.
  - unfold long_answer, plain_text. apply Forall_replicate. discriminate.
  - vm_compute. discriminate.
  - split; [|split; [|reflexivity]]; unfold is_u64; cbn; lia.
  - split; [exact H1|]. destruct (H3 pinged) as (rel & c & Hc & _ & _ & Ht).
    + apply reachable_root_wf. exact pinged_reachable.
    + exists rel, c. split; [exact Hc|]. rewrite Ht. vm_compute. reflexivity.
Defined.

(** ** An old session in between *)

Definition tunnel_packet (session seq : Z) : bytes :=
  let inner := replicate 64 65 in
  let payload := encode_tunnel_hdr
    {| tu_channel_id := MESH_V2_TUNNEL_CHANNEL_TASK; tu_flags := 0; tu_ttl := 4;
       tu_fragment_count := 1; tu_payload_len := 64; tu_fragment_index := 0;
       tu_stream_id := 0; tu_seq := seq; tu_ack_seq := 0; tu_sack_bitmap := 0;
       tu_origin_mac := node_mac; tu_target_mac := mac_zero_addr |} ++ inner in
  seal (v2_hdr MESH_V2_TYPE_TUNNEL_DATA 0 session 0 0 node_mac payload) payload.

(** The verdicts of the root on a sequence of tunnel packets. *)
Fixpoint verdicts (packets : list (Z * Z)) (s : fstate root_t wire) : list bool :=
  match packets with
  | [] => []
  | (session, seq) :: packets =>
      match validate_packet (tunnel_packet session seq) with
      | Some (h, payload) =>
          let '(v, s) := tunnel_state_step h (decode_tunnel_hdr payload) s in
          sv_deliver v :: verdicts packets s
      | None => false :: verdicts packets s
      end
  end.

(** Packets 1 and 2 of a session are delivered once; when a packet of the session before
    it arrives late in between, packet 2, sent again, is delivered a second time. *)
Theorem late_session_delivers_twice :
  verdicts [(9, 1); (9, 2); (9, 2)] root_off = [true; true; false] /\
  verdicts [(9, 1); (9, 2); (8, 7); (9, 2)] root_off = [true; true; true; true].
Proof. vm_compute. done. Qed.

(** ** A node that never gets ready *)

Definition slow_mac : bytes := [2; 0; 0; 0; 0; 3].

Definition slow_hello : bytes :=
  let payload := encode_v2_hello
    {| hl_tag := text_array 16 [115]; hl_uptime_s := 1; hl_mtu := 256; hl_ring_size := 8;
       hl_capabilities := root_caps |} in
  seal (v2_hdr MESH_V2_TYPE_HELLO 0 6 0 0 slow_mac payload) payload.

(** It said hello over the old protocol before the other node was linked. *)
Definition slow_first : pair_t :=
  round (round (started,
    (run_root (Root_rx slow_mac slow_hello) (run_root Root_init root_off).2).2)).

Definition times_queued : fstate root_t wire :=
  (run_root (Root_queue_time_all 1 1700000000 3)
     (run_root (Root_sync_routes [slow_mac; node_mac]) slow_first.2).2).2.

Definition polls (k : nat) (s : fstate root_t wire) : fstate root_t wire :=
  Nat.iter k (fun s => (run_root Root_poll s).2) s.

Definition time_waits (mac : bytes) (s : fstate root_t wire) : bool :=
  existsb (fun n => is_node mac n && awaits_time n) (s_nodes (f_own s.2.1)).

(** The other node is ready, and its time stays pending round after round. *)
Theorem ready_node_starves :
  (rel_peer_ready node_mac (polls 20 times_queued)).1 = true /\
  time_waits node_mac (polls 20 times_queued) = true.
Proof. vm_compute. done. Qed.
