(* ===== verification/OtaPackage.v ===== *)
(** * OTA v3: the .kota3 package (keemash_ota_v3_package.c)

    A package is a 16-byte header, a protobuf manifest and the payload.  The
    manifest is decoded with a callback per block descriptor: one pass counts
    the blocks, another feeds every block to a stream decoder, a third hands
    them to a visitor.  nanopb is a parameter that yields the fields of the
    message in wire order; zlib's running CRC, the heap and the random-access
    reader are parameters too.  Every pass folds one callback over the block
    fields and stops at the first that returns false, as nanopb does. *)

From S2P Require Import Prelude.
From S2P Require Import Words.
From S2P Require Import Esp.
From S2P Require Import OtaLib.
From S2P Require Import OtaTypes.
From S2P Require Import OtaV3.
From S2P Require Import OtaInflate.
From S2P Require Import OtaStream.
#[local] Open Scope Z_scope.

Definition KOTA3_HEADER_SIZE : Z := 16.
Definition KOTA3_MANIFEST_MAX : Z := 64 * 1024.
Definition KOTA3_READ_BYTES : Z := 2048.

Definition s_magic : bytes := [75; 79; 84; 65; 51; 0; 0; 1].

Definition le32 (b : bytes) (off : nat) : Z := get_le 4 b off.

(** A field of the manifest as it arrives. *)
Inductive manifest_field :=
  | MF_signed_fields (b : bytes)
  | MF_signature (b : bytes)
  | MF_block (sub : bytes).

(** [pb_manifest b]: the fields up to the end or the first malformed one,
    whether the message is well formed, and [bytes_left] after a success. *)
Class PackageEnv (W : Type) := {
  pb_manifest : bytes -> list manifest_field * bool * Z;
  pb_decode_block : bytes -> option FirmwareBlockDescriptor;
  zlib_crc32 : Z -> bytes -> Z;
  zlib_crc32_init : Z;
  scratch_alloc : ST W bool }.

(** The members of [block_context_t] that change; the others are arguments. *)
Record block_context_t := { bx_block_count : Z; bx_error : esp_err_t }.

#[export] Instance eta_block_context : Eta block_context_t := fun b =>
  Build_block_context_t (bx_block_count b) (bx_error b).

Definition blocks_start : block_context_t := {| bx_block_count := 0; bx_error := ESP_OK |}.

Definition manifest_zero : FirmwareArtifactManifest :=
  {| ma_signed_fields := []; ma_signature := [] |}.

Record keemash_ota_v3_package_info_t := {
  pi_fields : keemash_ota_v3_signed_fields_t; pi_signed_fields : bytes; pi_signature : bytes;
  pi_manifest_size : Z; pi_payload_offset : Z; pi_package_size : Z }.

Section Package.
Context {Cfg : OtaConfig} {D : Digest} {Key : Psa} {Pb : Nanopb} {Zl : Zlib} {W : Type}
  {Env : PackageEnv W}.
Context (read_fn : Z -> Z -> ST W (res bytes)).

(** ** The block callbacks

    The state of a pass: the block context and whatever the mode works on. *)

Section Callbacks.
Context {S : Type}.

Definition block_fail (err : esp_err_t) : ST (block_context_t * S) bool := fun '(b, s) =>
  (false, (b <| bx_error := err |>, s)).

(** The tests all three callbacks begin with; the rest gets the descriptor and
    reports an error code. *)
Definition with_block (sub : bytes) (body : FirmwareBlockDescriptor -> ST S esp_err_t)
  : ST (block_context_t * S) bool := fun '(b, s) =>
  if KEEMASH_OTA_V3_MAX_BLOCK_COUNT <=? bx_block_count b
  then block_fail ESP_ERR_INVALID_SIZE (b, s)
  else
    match pb_decode_block sub with
    | None => block_fail ESP_ERR_INVALID_RESPONSE (b, s)
    | Some d =>
        let '(err, s) := body d s in
        if negb (err_eqb err ESP_OK) then block_fail err (b, s)
        else (true, (b <| bx_block_count ::= fun n => u32 (n + 1) |>, s))
    end.

(** [pb_decode] of the manifest: static members are overwritten, the callback
    is run on every block. *)
Fixpoint decode_fields (callback : bytes -> ST (block_context_t * S) bool)
  (fields : list manifest_field) (m : FirmwareArtifactManifest)
  : ST (block_context_t * S) (bool * FirmwareArtifactManifest) :=
  match fields with
  | [] => mret (true, m)
  | MF_signed_fields b :: fields =>
      decode_fields callback fields
        {| ma_signed_fields := b; ma_signature := ma_signature m |}
  | MF_signature b :: fields =>
      decode_fields callback fields
        {| ma_signed_fields := ma_signed_fields m; ma_signature := b |}
  | MF_block sub :: fields =>
      ok ← callback sub;
      if (ok : bool) then decode_fields callback fields m else mret (false, m)
  end.

End Callbacks.

(** The descriptor's payload range; shared by the two callbacks that read it. *)
Definition outside_payload (payload_size : Z) (d : FirmwareBlockDescriptor) : bool :=
  (payload_size <? bd_encoded_offset d) || (bd_encoded_size d =? 0) ||
  (u32 (payload_size - bd_encoded_offset d) <? bd_encoded_size d).

Definition count_block (sub : bytes) : ST (block_context_t * W) bool :=
  with_block sub (fun _ => mret ESP_OK).

Definition discard_output (_ : bytes) : ST W esp_err_t := mret ESP_OK.

(** [while (consumed < descriptor.encoded_size) { ... }] *)
Fixpoint validate_chunks (fuel : nat) (payload_offset : Z) (d : FirmwareBlockDescriptor)
  (consumed : Z) : ST (keemash_ota_v3_stream_t * W) esp_err_t := fun '(s, w) =>
  if bd_encoded_size d <=? consumed then (ESP_OK, (s, w))
  else
    match fuel with
    | O => (ESP_FAIL, (s, w))
    | S fuel =>
        let count := Z.min (bd_encoded_size d - consumed) KOTA3_READ_BYTES in
        let '(r, w) := read_fn (u32 (payload_offset + bd_encoded_offset d + consumed)) count w in
        match r with
        | inl err => (err, (s, w))
        | inr chunk =>
            and_then (keemash_ota_v3_stream_feed discard_output d consumed chunk
                        (consumed + count =? bd_encoded_size d))
              (validate_chunks fuel payload_offset d (u32 (consumed + count))) (s, w)
        end
    end.

Definition chunk_fuel (d : FirmwareBlockDescriptor) : nat :=
  Z.to_nat (bd_encoded_size d / KOTA3_READ_BYTES + 1).

Definition validate_block (payload_offset payload_size : Z) (sub : bytes)
  : ST (block_context_t * (keemash_ota_v3_stream_t * W)) bool :=
  with_block sub (fun d =>
    if outside_payload payload_size d then mret ESP_ERR_INVALID_SIZE
    else validate_chunks (chunk_fuel d) payload_offset d 0).

Definition visit_block (visitor : FirmwareBlockDescriptor -> Z -> ST W esp_err_t)
  (payload_offset payload_size : Z) (sub : bytes) : ST (block_context_t * W) bool :=
  with_block sub (fun d =>
    if outside_payload payload_size d then mret ESP_ERR_INVALID_SIZE
    else visitor d (u32 (payload_offset + bd_encoded_offset d))).

(** ** The manifest *)

(** [decode_manifest] with the callback its mode selects, on a state that
    contains the world. *)
Definition decode_manifest {S : Type} (on_world : forall A, ST W A -> ST S A)
  (callback : bytes -> ST (block_context_t * S) bool) (manifest_size : Z)
  : ST (block_context_t * S) (res FirmwareArtifactManifest) := fun '(b, s) =>
  let '(ok, s) := on_world bool scratch_alloc s in
  if negb (ok : bool) then (inl ESP_ERR_NO_MEM, (b, s))
  else
    let '(r, s) := on_world (res bytes) (read_fn KOTA3_HEADER_SIZE manifest_size) s in
    match r with
    | inl err => (inl err, (b, s))
    | inr manifest_bytes =>
        let '(fields, well_formed, remaining) := pb_manifest manifest_bytes in
        let '((ok, m), (b, s)) := decode_fields callback fields manifest_zero (b, s) in
        if negb (ok && well_formed) || negb (remaining =? 0)
        then (inl (if negb (err_eqb (bx_error b) ESP_OK) then bx_error b
                   else ESP_ERR_INVALID_RESPONSE), (b, s))
        else (inr m, (b, s))
    end.

Definition id_world {A : Type} (m : ST W A) : ST W A := m.
Definition snd_world {T A : Type} (m : ST W A) : ST (T * W) A := fun '(t, w) =>
  let '(a, w) := m w in (a, (t, w)).

(** [while (remaining > 0U) { ... }] *)
Fixpoint manifest_crc (fuel : nat) (offset remaining crc : Z) : ST W (res Z) := fun w =>
  if remaining <=? 0 then (inr crc, w)
  else
    match fuel with
    | O => (inl ESP_FAIL, w)
    | S fuel =>
        let count := if remaining <? KOTA3_READ_BYTES then remaining else KOTA3_READ_BYTES in
        let '(r, w) := read_fn offset count w in
        match r with
        | inl err => (inl err, w)
        | inr buffer =>
            manifest_crc fuel (u32 (offset + count)) (u32 (remaining - count))
              (zlib_crc32 crc buffer) w
        end
    end.

Definition crc_fuel (manifest_size : Z) : nat :=
  Z.to_nat (manifest_size / KOTA3_READ_BYTES + 1).

Definition check_manifest_crc (manifest_size expected : Z) : ST W (res unit) := fun w =>
  let '(r, w) := manifest_crc (crc_fuel manifest_size) KOTA3_HEADER_SIZE manifest_size
                   zlib_crc32_init w in
  (crc ← r; fail_if (negb (u32 crc =? expected)) ESP_ERR_INVALID_CRC, w).

(** Returns [manifest_size]. *)
Definition read_header (package_size : Z) : ST W (res Z) := fun w =>
  if (package_size <=? KOTA3_HEADER_SIZE) || (KEEMASH_OTA_V3_MAX_PACKAGE_SIZE <? package_size)
  then (inl ESP_ERR_INVALID_ARG, w)
  else
    let '(r, w) := read_fn 0 KOTA3_HEADER_SIZE w in
    match r with
    | inl err => (inl err, w)
    | inr header =>
        if negb (bytes_eqb (take 8 header) s_magic) then (inl ESP_ERR_INVALID_RESPONSE, w)
        else
          let manifest_size := le32 header 8 in
          if (manifest_size =? 0) || (KOTA3_MANIFEST_MAX <? manifest_size) ||
             (package_size - KOTA3_HEADER_SIZE <? manifest_size)
          then (inl ESP_ERR_INVALID_SIZE, w)
          else
            let '(r, w) := check_manifest_crc manifest_size (le32 header 12) w in
            (r ;; mret manifest_size, w)
    end.

(** The tests on the verified fields that both users of a package make. *)
Definition sizes_disagree (fields : keemash_ota_v3_signed_fields_t) (blocks package_size
  payload_offset : Z) : bool :=
  negb (block_count fields =? blocks) ||
  negb (encoded_size fields =? u32 (package_size - payload_offset)) ||
  has_base_image fields.

Definition keemash_ota_v3_package_inspect (package_size : Z)
  : ST W (res keemash_ota_v3_package_info_t) := fun w =>
  let '(r, w) := read_header package_size w in
  match r with
  | inl err => (inl err, w)
  | inr manifest_size =>
      let '(ok, w) := scratch_alloc w in
      if negb (ok : bool) then (inl ESP_ERR_NO_MEM, w)
      else
        let '(r, (b, w)) :=
          decode_manifest (@id_world) count_block manifest_size (blocks_start, w) in
        let payload_offset := u32 (KOTA3_HEADER_SIZE + manifest_size) in
        (m ← r;
         fail_if ((1024 <? blen (ma_signed_fields m)) || negb (blen (ma_signature m) =? 64))
           ESP_ERR_INVALID_SIZE ;;
         fields ← keemash_ota_v3_verify_signed_fields (ma_signed_fields m) (ma_signature m);
         fail_if (sizes_disagree fields (bx_block_count b) package_size payload_offset)
           ESP_ERR_INVALID_SIZE ;;
         mret {| pi_fields := fields; pi_signed_fields := ma_signed_fields m;
                 pi_signature := ma_signature m; pi_manifest_size := manifest_size;
                 pi_payload_offset := payload_offset; pi_package_size := package_size |}, w)
  end.

Definition keemash_ota_v3_package_for_each_block (package : keemash_ota_v3_package_info_t)
  (visitor : FirmwareBlockDescriptor -> Z -> ST W esp_err_t) : ST W (res unit) := fun w =>
  if (pi_manifest_size package =? 0) ||
     negb (pi_payload_offset package =? u32 (KOTA3_HEADER_SIZE + pi_manifest_size package)) ||
     (pi_package_size package <? pi_payload_offset package) ||
     negb (encoded_size (pi_fields package)
           =? u32 (pi_package_size package - pi_payload_offset package))
  then (inl ESP_ERR_INVALID_ARG, w)
  else
    let '(ok, w) := scratch_alloc w in
    if negb (ok : bool) then (inl ESP_ERR_NO_MEM, w)
    else
      let '(r, (b, w)) :=
        decode_manifest (@id_world)
          (visit_block visitor (pi_payload_offset package) (encoded_size (pi_fields package)))
          (pi_manifest_size package) (blocks_start, w) in
      (r ;; fail_if (negb (bx_block_count b =? block_count (pi_fields package)))
              ESP_ERR_INVALID_RESPONSE, w).

(** The second pass of [keemash_ota_v3_verify_package]: every block through a
    stream decoder, then the same manifest, the same count, the finish. *)
Definition validate_package (manifest_size expected_count : Z)
  (first : FirmwareArtifactManifest) (fields : keemash_ota_v3_signed_fields_t)
  (validator : keemash_ota_v3_stream_t) : ST W (res unit) := fun w =>
  let payload_offset := u32 (KOTA3_HEADER_SIZE + manifest_size) in
  let '(r, (b, (s, w))) :=
    decode_manifest (@snd_world keemash_ota_v3_stream_t)
      (validate_block payload_offset (encoded_size fields))
      manifest_size (blocks_start, (validator, w)) in
  (second ← r;
   fail_if (negb (bytes_eqb (ma_signed_fields second) (ma_signed_fields first)) ||
            negb (bytes_eqb (ma_signature second) (ma_signature first))) ESP_ERR_INVALID_CRC ;;
   fail_if (negb (bx_block_count b =? expected_count)) ESP_ERR_INVALID_RESPONSE ;;
   try_err (keemash_ota_v3_stream_finish s).1, w).

Definition keemash_ota_v3_verify_package (package_size : Z)
  : ST W (res keemash_ota_v3_signed_fields_t) := fun w =>
  let '(r, w) := read_header package_size w in
  match r with
  | inl err => (inl err, w)
  | inr manifest_size =>
      let '(ok1, w) := scratch_alloc w in
      let '(ok2, w) := scratch_alloc w in
      if negb (ok1 : bool) || negb (ok2 : bool) then (inl ESP_ERR_NO_MEM, w)
      else
        let '(r, (b, w)) :=
          decode_manifest (@id_world) count_block manifest_size (blocks_start, w) in
        match (first ← r;
               fields ← keemash_ota_v3_verify_signed_fields (ma_signed_fields first)
                          (ma_signature first);
               fail_if (sizes_disagree fields (bx_block_count b) package_size
                          (u32 (KOTA3_HEADER_SIZE + manifest_size))) ESP_ERR_INVALID_SIZE ;;
               let '(err, s) := keemash_ota_v3_stream_begin fields stream_zero in
               try_err err ;;
               mret (first, fields, s)) with
        | inl err => (inl err, w)
        | inr (first, fields, s) =>
            let '(r, w) := validate_package manifest_size (bx_block_count b) first fields s w in
            (r ;; mret fields, w)
        end
  end.

End Package.
