(* ===== verification/OtaDemo.v ===== *)
(** * OTA v3: a concrete artifact

    A two-block artifact under a digest, a key, an encoder and an inflater that
    can be evaluated, received from the start and resumed after its first
    block: the hypotheses of the theorems of OtaChain, OtaInflate and OtaImage
    can hold. *)

From S2P Require Import Prelude.
From S2P Require Import Words.
From S2P Require Import Esp.
From S2P Require Import OtaLib.
From S2P Require Import OtaTypes.
From S2P Require Import OtaV3.
From S2P Require Import OtaChain.
From S2P Require Import OtaInflate.
From S2P Require Import OtaStream.
From S2P Require Import OtaRefine.
From S2P Require Import OtaImage.
#[local] Open Scope Z_scope.

#[local] Existing Instance toy_digest.
#[local] Existing Instance toy_digest_laws.

(** ["04"] followed by 64 bytes of zero, in hexadecimal digits. *)
Definition demo_config : OtaConfig := {|
  CONFIG_KEEMASH_OTA_V3_ENABLE := true;
  CONFIG_KEEMASH_OTA_V3_TRUSTED_P256_PUBKEY_HEX := 48 :: 52 :: replicate 128 48;
  CONFIG_KEEMASH_OTA_V3_DELTA_EXPERIMENTAL := false;
  CONFIG_KEEMASH_OTA_V3_CHECKPOINT_BYTES := 16384 |}.
#[local] Existing Instance demo_config.

(** A signature is the digest twice. *)
Definition demo_psa : Psa := {|
  psa_crypto_init := true; psa_key := bytes; psa_import_key := Some;
  psa_verify_hash := fun _ digest signature => bytes_eqb signature (digest ++ digest) |}.
#[local] Existing Instance demo_psa.

(** Stored data: what comes in goes out. *)
Definition demo_zlib : Zlib := {|
  z_stream := unit; z_zero := tt; inflateInit2 := fun _ => Some tt;
  inflate := fun z inp room flush =>
    let out := take (Z.to_nat room) inp in
    (if (flush =? Z_FINISH) && (blen inp <=? room) then Z_STREAM_END else Z_OK,
     length out, out, z);
  inflateEnd := fun z => z |}.
#[local] Existing Instance demo_zlib.

#[local] Instance demo_zlib_laws : ZlibLaws demo_zlib.
Proof.
  split.
  - intros z inp room flush r n out z' [= _ <- <- _]. rewrite length_take. lia.
  - intros z inp room flush r n out z' Hr [= _ <- <- _]. unfold blen. rewrite length_take. lia.
Defined.

Definition demo_block0 : bytes := replicate (Z.to_nat 16384) 7.
Definition demo_block1 : bytes := [1; 2; 3].
Definition demo_image : bytes := demo_block0 ++ demo_block1.

Definition demo_desc (index off : Z) (data : bytes) : FirmwareBlockDescriptor :=
  {| bd_index := index; bd_raw_offset := off; bd_raw_size := blen data;
     bd_encoded_offset := off; bd_encoded_size := blen data;
     bd_kind := FIRMWARE_BLOCK_DEFLATE; bd_raw_sha256 := toy_sha data;
     bd_encoded_sha256 := toy_sha data |}.
Definition desc0 : FirmwareBlockDescriptor := demo_desc 0 0 demo_block0.
Definition desc1 : FirmwareBlockDescriptor := demo_desc 1 16384 demo_block1.

Definition chain_after (chain : bytes) (d : FirmwareBlockDescriptor) : bytes :=
  toy_sha (chain ++ encode_varint (blen (toy_block_bytes d)) ++ toy_block_bytes d).
Definition demo_table : bytes := chain_after (chain_after (zeros 32) desc0) desc1.

Definition demo_artifact : FirmwareArtifactSignedFields :=
  {| fa_schema_version := 1; fa_project_name := [107]; fa_chip_target := [101];
     fa_firmware_version := [49]; fa_build_commit := [97]; fa_minimum_core_version := 0;
     fa_minimum_fabric_schema := 0; fa_raw_size := 16387; fa_encoded_size := 16387;
     fa_required_app_slot_size := 20000; fa_codec := 1;
     fa_image_sha256 := toy_sha demo_image; fa_encoded_sha256 := toy_sha demo_image;
     fa_block_table_sha256 := demo_table; fa_base_image_sha256 := [];
     fa_block_size := 16384; fa_block_count := 2; fa_deflate_window_bits := 11;
     fa_signing_key_id := [49] |}.

(** Its encoding is the byte 1. *)
Definition demo_decode (b : bytes) : option FirmwareArtifactSignedFields :=
  if bytes_eqb b [1] then Some demo_artifact else None.
Definition demo_pb : Nanopb := toy_pb demo_decode.
#[local] Existing Instance demo_pb.

#[local] Instance demo_pb_laws : NanopbLaws demo_pb.
Proof.
  apply toy_pb_laws. intros b f. unfold demo_decode. destruct (bytes_eqb b [1]); [|done].
  intros [= <-]. split; [repeat constructor; unfold is_u32; cbn; lia|].
  split; [cbn; lia|]. split; [cbn; lia|]. split; [cbn; lia|].
  do 2 (constructor; [apply bytes_check_ok; vm_compute; reflexivity|]). constructor.
Defined.

Definition demo_signature : bytes := toy_sha [1] ++ toy_sha [1].
Definition demo_fields : keemash_ota_v3_signed_fields_t :=
  match keemash_ota_v3_verify_signed_fields [1] demo_signature with
  | inr f => f
  | inl _ => signed_fields_zero
  end.

Lemma demo_accepted : keemash_ota_v3_verify_signed_fields [1] demo_signature = inr demo_fields.
Proof. vm_compute. reflexivity. Qed.

Example signed_fields_accepted_witness :
  fields_ok demo_fields /\
  exists pk key, decode_public_key = inr pk /\ psa_import_key pk = Some key /\
    psa_verify_hash key (sha256 [1]) demo_signature = true.
Proof. exact (signed_fields_accepted [1] demo_signature demo_fields demo_accepted). Defined.

Lemma demo_fields_ok : fields_ok demo_fields.
Proof.
  vm_compute. repeat split; try congruence; left; repeat split; congruence.
Qed.

Lemma demo_typed : Forall block_typed [desc0; desc1].
Proof.
  repeat constructor; unfold is_u32, is_u8; try (by vm_compute); try (vm_compute; congruence).
Qed.

(** ** The block table *)

Example block_table_tiles_witness :
  exists raw enc chain, check_table demo_fields [desc0; desc1] 0 0 0 (zeros 32)
                          = inr (raw, enc, chain) /\
    sum_raw [desc0; desc1] = raw_size demo_fields /\ chain = block_table_sha256 demo_fields.
Proof.
  exists 16387, 16387, demo_table.
  assert (H : check_table demo_fields [desc0; desc1] 0 0 0 (zeros 32)
              = inr (16387, 16387, demo_table)) by (vm_compute; reflexivity).
  split; [exact H|].
  destruct (block_table_tiles demo_fields [desc0; desc1] 16387 16387 demo_table (zeros 32)
              demo_fields_ok demo_typed eq_refl H) as (E & _ & E' & _).
  split; [exact E|exact E'].
Defined.

Example block_table_binding_witness :
  ([desc0; desc1] = [desc0; desc1] /\ zeros 32 = zeros 32) \/ collision.
Proof.
  apply (block_table_binding demo_fields demo_fields [desc0; desc1] [desc0; desc1]
           0 0 0 0 0 0 (zeros 32) (zeros 32) 16387 16387 16387 16387 demo_table
           demo_fields_ok demo_fields_ok demo_typed demo_typed); try lia; try reflexivity;
    vm_compute; reflexivity.
Defined.

(** ** Receiving *)

Definition demo_out (bs : bytes) : ST bytes esp_err_t := fun w => (ESP_OK, w ++ bs).
Definition demo_read (off n : Z) : ST bytes (res bytes) := fun w =>
  let b := slice (Z.to_nat off) (Z.to_nat n) w in
  (if blen b =? n then inr b else inl ESP_ERR_INVALID_SIZE, w).

(** The chunks of a block of at most [n] times 2048 bytes. *)
Fixpoint chunks_of (n : nat) (d : FirmwareBlockDescriptor) (off : Z) (data : bytes)
  : list ota_chunk :=
  match n with
  | O => []
  | S n =>
      let now := take (Z.to_nat 2048) data in
      let rest := drop (Z.to_nat 2048) data in
      {| ck_desc := d; ck_offset := off; ck_data := now; ck_final := blen rest =? 0 |}
        :: chunks_of n d (off + 2048) rest
  end.

Definition chunks0 : list ota_chunk := chunks_of 8 desc0 0 demo_block0.
Definition chunks1 : list ota_chunk := chunks_of 1 desc1 0 demo_block1.

Lemma run_pair {A B : Type} (p : A * B) (a : A) : p.1 = a -> p = (a, p.2).
Proof. destruct p. by intros <-. Qed.

Definition begun : keemash_ota_v3_stream_t :=
  (keemash_ota_v3_stream_begin demo_fields stream_zero).2.
Definition received0 : keemash_ota_v3_stream_t * bytes :=
  (feed_all demo_out chunks0 (begun, [])).2.
Definition received1 : keemash_ota_v3_stream_t * bytes :=
  (feed_all demo_out (chunks0 ++ chunks1) (begun, [])).2.

Lemma chunks_typed d n off data : block_typed d ->
  Forall (fun c => block_typed (ck_desc c)) (chunks_of n d off data).
Proof. intros Hd. revert off data. induction n; intros; constructor; cbn; auto. Qed.

Lemma demo_chunks_typed : Forall (fun c => block_typed (ck_desc c)) (chunks0 ++ chunks1).
Proof.
  pose proof demo_typed as H. apply Forall_cons_iff in H as [H0 H].
  apply Forall_cons_iff in H as [H1 _].
  apply Forall_app. split; by apply chunks_typed.
Qed.

Example verified_image_witness :
  exists chunks payload, handed demo_out [] chunks received1.2 /\
    blen (concat chunks) = 16387 /\ sha256 (concat chunks) = toy_sha demo_image /\
    blen payload = 16387 /\ sha256 payload = toy_sha demo_image.
Proof.
  refine (verified_image demo_out demo_fields stream_zero begun (chunks0 ++ chunks1) received1.1
           (keemash_ota_v3_stream_finish received1.1).2 [] received1.2
           demo_fields_ok demo_chunks_typed _ _ _).
  - apply run_pair. vm_compute. reflexivity.
  - unfold received1. rewrite <- surjective_pairing. apply run_pair. vm_compute. reflexivity.
  - apply run_pair. vm_compute. reflexivity.
Defined.

(** The checkpoint after the first block, and a transfer resumed from it. *)
Definition demo_rp : keemash_ota_v3_resume_point_t :=
  match keemash_ota_v3_stream_checkpoint received0.1 with
  | inr rp => rp
  | inl _ => rp_start
  end.
Definition resumed : keemash_ota_v3_stream_t * bytes :=
  (keemash_ota_v3_stream_resume demo_read demo_fields demo_rp (stream_zero, demo_block0)).2.
Definition resumed1 : keemash_ota_v3_stream_t * bytes :=
  (feed_all demo_out chunks1 resumed).2.

Lemma demo_reads : reads_flash demo_read (fun w => w).
Proof.
  intros off n w r w' Ho Hn [= <- <-].
  destruct (Z.eqb_spec (blen (slice (Z.to_nat off) (Z.to_nat n) w)) n); done.
Qed.

Example resumed_image_witness :
  exists chunks, handed demo_out demo_block0 chunks resumed1.2 /\
    let img := flash_prefix (fun w => w) demo_rp demo_block0 ++ concat chunks in
    blen img = 16387 /\ sha256 img = toy_sha demo_image /\
    sha256 (flash_prefix (fun w => w) demo_rp demo_block0) = rp_image_prefix_sha256 demo_rp.
Proof.
  refine (resumed_image demo_out demo_read (fun w => w) demo_fields demo_rp stream_zero
            resumed.1 chunks1 resumed1.1 (keemash_ota_v3_stream_finish resumed1.1).2
            demo_block0 resumed.2 resumed1.2 demo_reads demo_fields_ok _ _ _ _ _).
  - vm_compute. repeat split; congruence.
  - exact (proj2 (proj1 (Forall_app _ _ _) demo_chunks_typed)).
  - unfold resumed. rewrite <- surjective_pairing. apply run_pair. vm_compute. reflexivity.
  - unfold resumed1. rewrite <- !surjective_pairing. apply run_pair. vm_compute. reflexivity.
  - apply run_pair. vm_compute. reflexivity.
Defined.

Definition fed : keemash_ota_v3_stream_t * bytes :=
  (keemash_ota_v3_stream_feed demo_out desc0 0 (take (Z.to_nat 2048) demo_block0) false
     (begun, [])).2.

(** A chunk in the middle of the transfer is a step of the abstract receiver. *)
Example feed_refines_witness :
  remembers desc0 0 (take (Z.to_nat 2048) demo_block0) false fed.1 /\
  exists a', rx_step demo_fields rp_start desc0 0 (take (Z.to_nat 2048) demo_block0) false
               rx_start a'.
Proof.
  destruct (feed_refines demo_out
              (fun w bs w' => exists chunks, handed demo_out w chunks w' /\ concat chunks = bs)
              (handed_accepts demo_out) demo_fields rp_start [] true [] rx_start begun []
              desc0 0 (take (Z.to_nat 2048) demo_block0) false fed.1 fed.2)
    as [Hm [[E _]|(_ & a' & Hs & _)]].
  - apply (begin_rel demo_out demo_fields stream_zero); [apply demo_fields_ok|].
    apply run_pair. vm_compute. reflexivity.
  - pose proof demo_typed as H. by apply Forall_cons_iff in H as [? _].
  - unfold fed. rewrite <- surjective_pairing. apply run_pair. vm_compute. reflexivity.
  - apply (f_equal s_last_chunk_valid) in E. vm_compute in E. discriminate E.
  - split; [exact Hm|]. exists a'. exact Hs.
Defined.

(** ** Inflating alone *)

Definition demo_inflater : keemash_ota_v3_inflater_t :=
  (keemash_ota_v3_inflater_begin 3 inflater_zero).2.

Example inflate_total_witness :
  exists err i' q',
    inflate_loop demo_out (inflate_fuel demo_inflater [1; 2; 3]) true [1; 2; 3] demo_inflater []
      = Some (err, (i', q')) /\ 0 <= produced_raw_size i' <= 3.
Proof.
  destruct (inflate_total demo_out [1; 2; 3] true demo_inflater []) as (err & i' & q' & E & H & _).
  - vm_compute. repeat split; congruence.
  - exists err, i', q'. split; [exact E|exact H].
Defined.
