(* ===== verification/OtaPackageProps.v ===== *)
(** * OTA v3: what a verified package guarantees

    The manifest CRC does not depend on how the manifest is read; a package
    that verifies contains, after a header and its authenticated manifest, exactly the
    signed payload, one block for each descriptor of the manifest, and zlib makes the
    signed image of them.  The artifact of OtaDemo as a package is an instance. *)

From S2P Require Import Prelude.
From S2P Require Import Words.
From S2P Require Import Esp.
From S2P Require Import OtaLib.
From S2P Require Import OtaTypes.
From S2P Require Import OtaV3.
From S2P Require Import OtaChain.
From S2P Require Import OtaInflate.
From S2P Require Import OtaStream.
From S2P Require Import OtaRefine.
From S2P Require Import OtaImage.
From S2P Require Import OtaPackage.
From S2P Require Import OtaDemo.
#[local] Open Scope Z_scope.

Section PackageProps.
Context {Cfg : OtaConfig} {D : Digest} {Key : Psa} {Pb : Nanopb} {Zl : Zlib} {W : Type}
  {Env : PackageEnv W} {HD : DigestLaws D} {HP : NanopbLaws Pb} {HZ : ZlibLaws Zl}.
Context (read_fn : Z -> Z -> ST W (res bytes)) (file : W -> bytes)
  (Hread : reads_flash read_fn file)
  (Halloc : forall w, file (scratch_alloc w).2 = file w)
  (Hblock : forall sub d, pb_decode_block sub = Some d -> block_typed d).

(** Reading [n] bytes at [off]. *)
Lemma read_ok off n w b w' :
  0 <= off -> 0 <= n -> read_fn off n w = (inr b, w') ->
  w' = w /\ b = slice (Z.to_nat off) (Z.to_nat n) (file w) /\ blen b = n.
Proof. intros Ho Hn H. by apply Hread in H. Qed.

Lemma read_err off n w e w' :
  0 <= off -> 0 <= n -> read_fn off n w = (inl e, w') -> e <> ESP_OK.
Proof. intros Ho Hn H. by apply Hread in H. Qed.

Lemma slice_join_Z o n m bs :
  0 <= o -> 0 <= n -> 0 <= m ->
  slice (Z.to_nat o) (Z.to_nat n) bs ++ slice (Z.to_nat (o + n)) (Z.to_nat m) bs
  = slice (Z.to_nat o) (Z.to_nat (n + m)) bs.
Proof. intros. rewrite !Z2Nat.inj_add by lia. apply slice_join. Qed.

(** ** The manifest CRC *)

Definition crc_runs : Prop := forall c a b, zlib_crc32 (zlib_crc32 c a) b = zlib_crc32 c (a ++ b).

Lemma manifest_crc_ok fuel off left crc w c w' :
  crc_runs -> 0 <= off -> 0 < left -> off + left < UINT32_MAX ->
  left <= Z.of_nat fuel * KOTA3_READ_BYTES ->
  manifest_crc read_fn fuel off left crc w = (inr c, w') ->
  w' = w /\ c = zlib_crc32 crc (slice (Z.to_nat off) (Z.to_nat left) (file w)).
Proof.
  intros Hc. unfold KOTA3_READ_BYTES, UINT32_MAX in *. revert off left crc.
  induction fuel as [|fuel IH]; intros off left crc Ho Hl Hw Hf H; cbn [manifest_crc] in H;
    destruct (Z.leb_spec left 0) as [Hz|_]; try lia.
  unfold KOTA3_READ_BYTES in H. set (n := if left <? 2048 then left else 2048) in *.
  assert (Hn : 0 < n <= left /\ (n = left \/ n = 2048))
    by (unfold n; destruct (Z.ltb_spec left 2048); lia).
  destruct (read_fn off n w) as [[e|b] w1] eqn:Er; [done|].
  apply read_ok in Er as (-> & -> & _); [|lia..].
  rewrite !u32_id in H by words.
  destruct (decide (left = n)) as [E|Hne].
  - rewrite <- E in *. rewrite Z.sub_diag in H. destruct fuel; cbn in H; by injection H as <- <-.
  - apply IH in H as (-> & ->); [|lia..]. split; [done|].
    rewrite Hc, slice_join_Z by lia. do 3 f_equal. lia.
Qed.

(** The fuel of the loops over a package is enough: more gives the same. *)
Lemma rounds_enough n : 0 <= n -> n <= Z.of_nat (crc_fuel n) * KOTA3_READ_BYTES.
Proof.
  intros Hn. unfold crc_fuel, KOTA3_READ_BYTES.
  rewrite Z2Nat.id by (apply Z.add_nonneg_nonneg; [apply Z.div_pos|]; lia).
  pose proof (Z.mul_succ_div_gt n 2048 ltac:(lia)). lia.
Qed.

Lemma manifest_crc_enough fuel k off left crc w :
  left < UINT32_MAX -> left <= Z.of_nat fuel * KOTA3_READ_BYTES ->
  manifest_crc read_fn (fuel + k) off left crc w = manifest_crc read_fn fuel off left crc w.
Proof.
  unfold UINT32_MAX, KOTA3_READ_BYTES. revert off left crc w.
  induction fuel as [|fuel IH]; intros off left crc w Hl Hf.
  - destruct k; cbn; destruct (Z.leb_spec left 0); (done || lia).
  - cbn [Nat.add manifest_crc]. destruct (Z.leb_spec left 0) as [|Hp]; [done|].
    unfold KOTA3_READ_BYTES. set (n := if left <? 2048 then left else 2048).
    assert (Hn : n = left \/ n = 2048 /\ 2048 <= left)
      by (unfold n; destruct (Z.ltb_spec left 2048); lia).
    destruct (read_fn _ n w) as [[e|b] w1]; [done|].
    assert (E : u32 (left - n) = left - n) by (apply u32_id; unfold is_u32; lia).
    rewrite E. apply IH; lia.
Qed.

Lemma validate_chunks_enough fuel k po d consumed sw :
  0 <= consumed -> bd_encoded_size d < UINT32_MAX ->
  bd_encoded_size d - consumed <= Z.of_nat fuel * KOTA3_READ_BYTES ->
  validate_chunks read_fn (fuel + k) po d consumed sw
  = validate_chunks read_fn fuel po d consumed sw.
Proof.
  unfold UINT32_MAX, KOTA3_READ_BYTES. intros Hc Hs. revert consumed sw Hc.
  induction fuel as [|fuel IH]; intros consumed [s w] Hc Hf.
  - destruct k; cbn; destruct (Z.leb_spec (bd_encoded_size d) consumed); (done || lia).
  - cbn [Nat.add validate_chunks]. destruct (Z.leb_spec (bd_encoded_size d) consumed); [done|].
    unfold KOTA3_READ_BYTES. destruct (read_fn _ _ w) as [[e|b] w1]; [done|].
    unfold and_then. rewrite !bind_eq. destruct (err_eqb _ _); [|done].
    apply IH; rewrite u32_id by words; lia.
Qed.

Lemma manifest_crc_keeps fuel off remaining crc w c w' :
  0 <= off -> manifest_crc read_fn fuel off remaining crc w = (inr c, w') -> w' = w.
Proof.
  revert off remaining crc. induction fuel as [|fuel IH]; intros off left crc Ho H;
    cbn [manifest_crc] in H; destruct (Z.leb_spec left 0) as [Hz|Hz];
    [by injection H as _ <-|done|by injection H as _ <-|].
  destruct (read_fn off _ w) as [[e|b] w1] eqn:Er; [done|].
  apply read_ok in Er as (-> & _); [|done|].
  - eapply IH; [|exact H]. apply u32_is.
  - unfold KOTA3_READ_BYTES. destruct (left <? 2048); lia.
Qed.

(** The manifest is accepted only if the CRC of the manifest bytes as they
    lie in the file is the one in the header, however many reads it took. *)
Theorem manifest_crc_exact manifest_size expected w w' :
  crc_runs -> 0 < manifest_size <= KOTA3_MANIFEST_MAX ->
  check_manifest_crc read_fn manifest_size expected w = (inr tt, w') ->
  w' = w /\ u32 (zlib_crc32 zlib_crc32_init (slice 16 (Z.to_nat manifest_size) (file w))) = expected.
Proof.
  intros Hc Hm H. unfold check_manifest_crc, KOTA3_MANIFEST_MAX in *.
  destruct (manifest_crc _ _ _ _ _ _) as [r w1] eqn:E. injection H as H <-.
  res_inv. subst r. bools.
  apply manifest_crc_ok in E as (-> & ->);
    [done|done|unfold KOTA3_HEADER_SIZE; lia|lia|unfold KOTA3_HEADER_SIZE, UINT32_MAX; lia|].
  apply rounds_enough. lia.
Qed.

(** ** Validating the blocks *)

Section Validate.
Context (f : keemash_ota_v3_signed_fields_t) (w0 : W) (payload_offset : Z)
  (Hpo : 0 <= payload_offset <= 65552) (Hf : fields_ok f).

(** Nothing but the world's file matters to a pass that discards its output. *)
Definition untouched (w : W) (_ : bytes) (w' : W) : Prop := file w' = file w.

Lemma discard_accepts : accepts discard_output untouched.
Proof.
  split; [done|]. split; [by intros q b q' [= <-]|].
  intros q b q' b' q'' H H'. unfold untouched in *. congruence.
Qed.

Definition all_descs (a : image_rx) : list FirmwareBlockDescriptor := xb_desc <$> rx_all a.

(** The payload received so far is the beginning of the payload in the file. *)
Definition received (a : image_rx) (sw : keemash_ota_v3_stream_t * W) : Prop :=
  rel untouched f rp_start [] true w0 a sw.1 sw.2 /\
  rx_enc a = slice (Z.to_nat payload_offset) (length (rx_enc a)) (file w0).

(** Between two blocks: no more blocks than the descriptors handled. *)
Definition in_step (ds : list FirmwareBlockDescriptor) (sw : keemash_ota_v3_stream_t * W) : Prop :=
  exists a, received a sw /\ sublist (all_descs a) ds.

(** Inside block [d]: not begun, or open. *)
Definition in_block ds d (sw : keemash_ota_v3_stream_t * W) : Prop :=
  exists a, received a sw /\
    (sublist (all_descs a) ds \/
     sublist (all_descs a) (ds ++ [d]) /\ exists b, ar_open a = Some b).

Lemma current_offset a b d s w :
  rel untouched f rp_start [] true w0 a s w -> block_typed d ->
  rx_current f rp_start d a b ->
  bd_encoded_offset d + blen (xb_enc b) = blen (rx_enc a) /\
  rx_enc {| ar_blocks := ar_blocks a; ar_open := Some b |} = rx_enc a.
Proof.
  intros [_ _ Ht (chain & Htab & Ho) Hx (_ & Hr & He) _ _ Hb _] Hd Hcur.
  pose proof Htab as Hinv. apply check_table_inv in Hinv as (_ & Henc & _); [|done..].
  unfold rx_descs in *.
  destruct Hcur as [blocks e r|blocks raw enc ch next Htab' Hc];
    cbn [ar_open ar_blocks open_rel xb_enc xb_desc rp_next_block_index rp_raw_offset rp_encoded_offset rp_start] in *.
  - destruct Ho as (_ & _ & _ & Hck & _).
    apply check_block_inv in Hck as ([_ _ _ [Hoff _] _] & _); [|done|done|lia|lia|lia].
    rewrite rx_enc_open, blen_app. cbn [xb_enc].
    destruct (rx_raw_length blocks Hb) as [_ ->]. split; [lia|done].
  - rewrite Htab in Htab'. injection Htab' as <- <- <-.
    apply check_block_inv in Hc as ([_ _ _ [Hoff _] _] & _); [|done|done|lia|lia|lia].
    rewrite rx_enc_open. cbn [xb_enc]. rewrite app_nil_r.
    destruct (rx_raw_length blocks Hb) as [_ ->]. split; [rewrite blen_nil; lia|done].
Qed.

Lemma step_payload a a' d off chunk final s w :
  rel untouched f rp_start [] true w0 a s w -> block_typed d ->
  rx_step f rp_start d off chunk final a a' ->
  rx_enc a' = rx_enc a ++ chunk /\ blen (rx_enc a) = bd_encoded_offset d + off.
Proof.
  intros Hr Hd Hs.
  destruct Hs as [a b out Hc Ho _ _|a b b' out Hc Ho -> _];
    destruct (current_offset a b d s w Hr Hd Hc) as [E Eo].
  - rewrite <- Eo, !rx_enc_open. cbn [xb_enc ar_blocks]. rewrite app_assoc. rewrite rx_enc_open in Eo.
    rewrite Eo. split; [done|lia].
  - rewrite (proj2 (rx_close _ _)). rewrite <- Eo, !rx_enc_open. cbn [xb_enc ar_blocks]. rewrite app_assoc.
    rewrite rx_enc_open in Eo. rewrite Eo. split; [done|lia].
Qed.

(** A chunk of [d] belongs to the open block, or opens one more. *)
Lemma step_descs a a' d off chunk final :
  rx_step f rp_start d off chunk final a a' ->
  (all_descs a' = all_descs a \/ ar_open a = None /\ all_descs a' = all_descs a ++ [d]) /\
  (final = false -> exists b, ar_open a' = Some b).
Proof.
  unfold all_descs, rx_all.
  intros [x b out Hc _ _ _|x b b' out Hc _ -> _]; split; try done; try (intros _; by eexists);
    destruct Hc; cbn; rewrite ?fmap_app, ?app_nil_r; cbn; [by left|by right|by left|by right].
Qed.

Lemma in_block_end ds d sw : in_block ds d sw -> in_step (ds ++ [d]) sw.
Proof.
  intros (a & Hr & [Hs|[Hs _]]); exists a; (split; [done|]); [by apply sublist_inserts_r|done].
Qed.

(** An accepted chunk read from its place in the payload. *)
Lemma feed_in_block ds d consumed n final s w s' w' :
  in_block ds d (s, w) -> block_typed d -> 0 <= consumed -> 0 <= n ->
  let chunk := slice (Z.to_nat (payload_offset + bd_encoded_offset d + consumed))
                 (Z.to_nat n) (file w) in
  blen chunk = n -> 0 <= bd_encoded_offset d ->
  keemash_ota_v3_stream_feed discard_output d consumed chunk final (s, w) = (ESP_OK, (s', w')) ->
  if final then in_step (ds ++ [d]) (s', w') else in_block ds d (s', w').
Proof.
  intros Hi Hd Hc Hn chunk Hlen Ho Hfeed. pose proof Hi as (a & [Hr Hp] & Hs).
  destruct (feed_rel discard_output untouched discard_accepts _ _ _ _ _ _ _ _ _ _ _ _ _ _
              Hr Hd Hfeed) as [(-> & -> & _)|(a' & Hst & Hr')].
  { destruct final; [by apply in_block_end|done]. }
  assert (Ha : received a' (s', w')).
  { split; [done|]. cbn in Hr.
    destruct (step_payload _ _ _ _ _ _ _ _ Hr Hd Hst) as [-> Hl].
    assert (Hw : file w = file w0) by apply Hr. unfold chunk in *. rewrite Hw in *.
    revert Hlen. set (c := slice _ (Z.to_nat n) _). intros Hlen.
    rewrite length_app, <- slice_join. f_equal; [exact Hp|].
    assert (El : length c = Z.to_nat n) by (unfold blen in Hlen; lia).
    rewrite El. unfold c. f_equal. unfold blen in Hl. lia. }
  destruct (step_descs _ _ _ _ _ _ Hst) as [He Hopen].
  assert (Hds : sublist (all_descs a') (ds ++ [d])).
  { destruct He as [->|[Hno ->]].
    - destruct Hs as [Hs|[Hs _]]; [by apply sublist_inserts_r|done].
    - destruct Hs as [Hs|[_ [b Hb]]]; [by apply sublist_app|congruence]. }
  destruct final; [by exists a'|]. exists a'. split; [done|]. right. by split; [|apply Hopen].
Qed.

Lemma validate_chunks_inv fuel ds d consumed sw sw' :
  in_block ds d sw -> block_typed d -> 0 <= consumed ->
  bd_encoded_offset d + bd_encoded_size d <= encoded_size f ->
  validate_chunks read_fn fuel payload_offset d consumed sw = (ESP_OK, sw') ->
  in_step (ds ++ [d]) sw'.
Proof.
  intros Hi Hd. pose proof (proj1 Hd) as Ht. rewrite !Forall_cons_iff in Ht. unfold is_u32 in Ht.
  assert (He : encoded_size f <= 16777216) by (destruct Hf as (_ & _ & ? & _); ota_consts; lia).
  revert consumed sw Hi. induction fuel as [|fuel IH]; intros consumed [s w] Hi Hc Hb H;
    cbn [validate_chunks] in H;
    destruct (Z.leb_spec (bd_encoded_size d) consumed) as [Hl|Hl];
    [injection H as <-; by apply in_block_end|done|injection H as <-; by apply in_block_end|].
  unfold KOTA3_READ_BYTES in H. set (n := Z.min (bd_encoded_size d - consumed) 2048) in *.
  rewrite (u32_id (_ + consumed)) in H by words.
  destruct (read_fn _ n w) as [[e|chunk] w1] eqn:Er.
  { apply read_err in Er; [|lia..]. congruence. }
  apply read_ok in Er as (-> & -> & Hn); [|lia..].
  apply and_then_inv in H as ([s1 w1] & Hfeed & H).
  rewrite u32_id in H by words.
  apply (feed_in_block ds) in Hfeed; [|done|done|lia|lia|done|lia].
  destruct (Z.eqb_spec (consumed + n) (bd_encoded_size d)) as [E|E].
  - rewrite E in H. destruct fuel; cbn [validate_chunks] in H; rewrite Z.leb_refl in H;
      by injection H as <-.
  - apply (IH (consumed + n) (s1, w1)); [done|lia|done|done].
Qed.

Lemma rel_world a s w w' :
  rel untouched f rp_start [] true w0 a s w -> file w' = file w ->
  rel untouched f rp_start [] true w0 a s w'.
Proof. intros [? ? ? ? ? ? ? ? ? Ho] H. split; try done. unfold untouched in *. congruence. Qed.

Lemma validate_block_inv ds sub b sw b' sw' :
  in_step ds sw ->
  validate_block read_fn payload_offset (encoded_size f) sub (b, sw) = (true, (b', sw')) ->
  exists d, pb_decode_block sub = Some d /\ in_step (ds ++ [d]) sw'.
Proof.
  intros Hi H. unfold validate_block, with_block in H.
  destruct (_ <=? bx_block_count b); [done|].
  destruct (pb_decode_block sub) as [d|] eqn:Ed; [|done].
  destruct (outside_payload (encoded_size f) d) eqn:Eo.
  { rewrite ret_eq in H. done. }
  destruct (validate_chunks _ _ _ _ _ _) as [e sw1] eqn:Ev.
  destruct (err_eqb e ESP_OK) eqn:Ee; [|done]. apply err_eqb_true in Ee as ->.
  injection H as <- <-. exists d. split; [done|]. apply Hblock in Ed. pose proof (proj1 Ed) as Ht.
  rewrite !Forall_cons_iff in Ht. unfold is_u32 in Ht.
  unfold outside_payload in Eo. bools.
  assert (0 <= encoded_size f <= 16777216) by (destruct Hf as (_ & _ & ? & _); ota_consts; lia).
  rewrite u32_id in * by words.
  apply (validate_chunks_inv (chunk_fuel d) ds d 0 sw sw1); [|done|lia|lia|exact Ev].
  destruct Hi as (a & Hr & Hs). exists a. by split; [|left].
Qed.
End Validate.

(** The members of a decoded manifest: the last occurrence of each; and its
    block descriptors in order. *)
Definition set_member (m : FirmwareArtifactManifest) (x : manifest_field)
  : FirmwareArtifactManifest :=
  match x with
  | MF_signed_fields b => {| ma_signed_fields := b; ma_signature := ma_signature m |}
  | MF_signature b => {| ma_signed_fields := ma_signed_fields m; ma_signature := b |}
  | MF_block _ => m
  end.
Definition manifest_members (fields : list manifest_field) : FirmwareArtifactManifest :=
  fold_left set_member fields manifest_zero.
Definition manifest_blocks (fields : list manifest_field) : list bytes :=
  omap (fun x => match x with MF_block sub => Some sub | _ => None end) fields.

(** A pass over the fields: [I ds s] holds after the blocks [ds]. *)
Section Pass.
Context {S : Type} (I : list FirmwareBlockDescriptor -> S -> Prop)
  (callback : bytes -> ST (block_context_t * S) bool)
  (Hcb : forall ds sub b s b' s', I ds s -> callback sub (b, s) = (true, (b', s')) ->
    exists d, pb_decode_block sub = Some d /\ I (ds ++ [d]) s' /\
      bx_block_count b < KEEMASH_OTA_V3_MAX_BLOCK_COUNT /\
      bx_block_count b' = u32 (bx_block_count b + 1)).

Lemma decode_fields_ok fields ds m b s m' b' s' :
  I ds s -> 0 <= bx_block_count b ->
  decode_fields callback fields m (b, s) = ((true, m'), (b', s')) ->
  m' = fold_left set_member fields m /\
  exists ds', pb_decode_block <$> manifest_blocks fields = Some <$> ds' /\ I (ds ++ ds') s' /\
    bx_block_count b' = bx_block_count b + Z.of_nat (length ds').
Proof.
  revert ds m b s. induction fields as [|[x|x|sub] fields IH]; intros ds m b s Hi Hb H;
    cbn [decode_fields] in H.
  - injection H as <- <- <-. split; [done|]. exists []. rewrite app_nil_r, Z.add_0_r. done.
  - by apply IH with (ds := ds) in H.
  - by apply IH with (ds := ds) in H.
  - rewrite bind_eq in H. destruct (callback sub (b, s)) as [ok [b1 s1]] eqn:E. cbn in H.
    destruct ok; [|done]. apply (Hcb ds) in E as (d & Hd & Hi1 & Hlt & Hb1); [|done].
    ota_consts. rewrite u32_id in Hb1 by words.
    apply IH with (ds := ds ++ [d]) in H as (-> & ds' & Hds & Hi' & Hb'); [|done|lia].
    split; [done|]. exists (d :: ds'). cbn. rewrite Hd. rewrite <- app_assoc in Hi'.
    split; [f_equal; exact Hds|]. split; [done|lia].
Qed.

Lemma decode_manifest_ok (F : bytes) (on_world : forall A, ST W A -> ST S A) manifest_size s m b' s' :
  (forall s, I [] s -> I [] (on_world bool scratch_alloc s).2) ->
  (forall s bs s', I [] s ->
     on_world (res bytes) (read_fn KOTA3_HEADER_SIZE manifest_size) s = (inr bs, s') ->
     I [] s' /\ bs = F) ->
  I [] s ->
  decode_manifest read_fn on_world callback manifest_size (blocks_start, s) = (inr m, (b', s')) ->
  exists fields ds, pb_manifest F = (fields, true, 0) /\ m = manifest_members fields /\
    pb_decode_block <$> manifest_blocks fields = Some <$> ds /\ I ds s' /\
    bx_block_count b' = Z.of_nat (length ds).
Proof.
  intros Ha Hr Hi H. unfold decode_manifest in H.
  specialize (Ha s Hi). destruct (on_world bool scratch_alloc s) as [ok s1]. cbn in Ha.
  destruct ok; [|done]. cbn [negb] in H.
  destruct (on_world _ _ s1) as [[e|bs] s2] eqn:Er; [done|].
  apply Hr in Er as [Hi2 ->]; [|done]. destruct (pb_manifest F) as [[fields wf] rest].
  destruct (decode_fields _ _ _ _) as [[ok m2] [b2 s3]] eqn:Ed.
  destruct (_ || _) eqn:Eo in H; [done|]. bools. subst ok wf rest.
  injection H as <- <- <-.
  apply decode_fields_ok with (ds := []) in Ed as (-> & ds & Hds & Hi3 & Hb); [|done|done].
  exists fields, ds. done.
Qed.
End Pass.

Lemma with_block_count {S : Type} sub (body : FirmwareBlockDescriptor -> ST S esp_err_t) b s b' s' :
  with_block sub body (b, s) = (true, (b', s')) ->
  bx_block_count b < KEEMASH_OTA_V3_MAX_BLOCK_COUNT /\
  bx_block_count b' = u32 (bx_block_count b + 1).
Proof.
  unfold with_block. intros H. destruct (Z.leb_spec KEEMASH_OTA_V3_MAX_BLOCK_COUNT (bx_block_count b));
    [done|]. destruct (pb_decode_block sub) as [d|]; [|done].
  destruct (body d s) as [e s1]. destruct (negb _); [done|]. by injection H as <- <-.
Qed.

Definition manifest_bytes (manifest_size : Z) (w : W) : bytes :=
  slice 16 (Z.to_nat manifest_size) (file w).

(** The first pass leaves the file alone and counts the descriptors. *)
Lemma count_pass_ok manifest_size w m b' w' :
  0 <= manifest_size ->
  decode_manifest read_fn (@id_world W) count_block manifest_size (blocks_start, w)
    = (inr m, (b', w')) ->
  file w' = file w /\
  exists fields ds, pb_manifest (manifest_bytes manifest_size w) = (fields, true, 0) /\
    m = manifest_members fields /\ pb_decode_block <$> manifest_blocks fields = Some <$> ds /\
    bx_block_count b' = Z.of_nat (length ds).
Proof.
  intros Hm H.
  eapply (decode_manifest_ok (fun _ x => file x = file w) _) in H
    as (fields & ds & ? & ? & ? & ? & ?); [split; [done|]; by exists fields, ds| | | |done].
  - intros ds sub c x c' x' Hx Hc. pose proof (with_block_count _ _ _ _ _ _ Hc) as [Hl Hn].
    unfold count_block, with_block in Hc.
    destruct (_ <=? _); [done|]. destruct (pb_decode_block sub) as [d|]; [|done].
    rewrite ret_eq in Hc. cbn in Hc. injection Hc as _ <-. by exists d.
  - intros x Hx. unfold id_world. by rewrite Halloc.
  - intros x bs x' Hx Hr. unfold id_world in Hr.
    apply read_ok in Hr as (-> & -> & _); [|done|done]. unfold manifest_bytes. by rewrite <- Hx.
Qed.

Lemma sublist_full {A : Type} (l k : list A) : sublist l k -> length l = length k -> l = k.
Proof.
  induction 1 as [|x l k _ IH|x l k Hs _]; cbn; intros H; [done|f_equal; apply IH; lia|].
  apply sublist_length in Hs. lia.
Qed.

(** The second pass: the decoder has received the payload as it lies in the
    file, one block per descriptor of the manifest, and its finish accepted it. *)
Lemma validate_package_ok manifest_size count first f s w w' fields ds :
  0 < manifest_size <= KOTA3_MANIFEST_MAX -> fields_ok f ->
  pb_manifest (manifest_bytes manifest_size w) = (fields, true, 0) ->
  pb_decode_block <$> manifest_blocks fields = Some <$> ds ->
  block_count f = Z.of_nat (length ds) ->
  keemash_ota_v3_stream_begin f stream_zero = (ESP_OK, s) ->
  validate_package read_fn manifest_size count first f s w = (inr tt, w') ->
  exists blocks,
    let payload := concat (xb_enc <$> blocks) in
    let image := concat (xb_raw <$> blocks) in
    xb_desc <$> blocks = ds /\ Forall block_matches blocks /\
    payload = slice (16 + Z.to_nat manifest_size) (length payload) (file w) /\
    blen payload = encoded_size f /\ sha256 payload = encoded_sha256 f /\
    blen image = raw_size f /\ sha256 image = image_sha256 f.
Proof.
  intros Hm Hf Hpb Hds Hcnt Hb H. unfold KOTA3_MANIFEST_MAX in Hm. unfold validate_package in H.
  assert (Hcb : forall ds1 sub c sw c' sw', in_step f w (16 + manifest_size) ds1 sw ->
    validate_block read_fn (16 + manifest_size) (encoded_size f) sub (c, sw) = (true, (c', sw')) ->
    exists d, pb_decode_block sub = Some d /\ in_step f w (16 + manifest_size) (ds1 ++ [d]) sw' /\
      bx_block_count c < KEEMASH_OTA_V3_MAX_BLOCK_COUNT /\
      bx_block_count c' = u32 (bx_block_count c + 1)).
  { intros ds1 sub c sw c' sw' Hi Hc.
    pose proof (with_block_count _ _ _ _ _ _ Hc) as [Hl Hn].
    eapply validate_block_inv in Hc as (d & Hd & Hi'); [by exists d|lia|done|done]. }
  unfold KOTA3_HEADER_SIZE in H. rewrite u32_id in H by words.
  destruct (decode_manifest _ _ _ _ _) as [r [b [s1 w1]]] eqn:Ed.
  injection H as H <-. res_inv. subst r. set (w0 := w) in *.
  eapply (decode_manifest_ok (in_step f w0 (16 + manifest_size)) _ Hcb (manifest_bytes manifest_size w0))
    in Ed as (fields' & ds' & Hpb' & _ & Hds' & Hi & _).
  - rewrite Hpb in Hpb'. injection Hpb' as <-. rewrite Hds in Hds'.
    apply (inj (fmap Some)) in Hds'. subst ds'.
    destruct Hi as (rx & [Hr Hp] & Hsub). cbn in Hr, Hp.
    destruct (keemash_ota_v3_stream_finish s1) as [e s2] eqn:Ef. cbn in H. subst e.
    destruct (finish_image untouched _ _ _ _ _ _ _ _ _ Hr eq_refl (Z.le_refl 0) Ef)
      as (Hl & Hs & He & Hpay & _).
    destruct (finish_rel untouched _ _ _ _ _ _ _ _ _ Hr Ef) as (Ho & _ & Hn & _).
    change (0 + blen (rx_enc rx) = encoded_size f) in He. rewrite Z.add_0_l in He.
    pose proof (rl_blocks _ _ _ _ _ _ _ _ _ Hr) as Hbl.
    destruct rx as [blocks o]. cbn in Ho. subst o.
    unfold rx_enc, rx_raw, all_descs, rx_all in *. cbn [ar_blocks ar_open] in *.
    rewrite app_nil_r in *. exists blocks. cbv zeta.
    split; [apply sublist_full; [done|]; rewrite length_fmap; cbn in Hn; lia|].
    split; [done|]. rewrite Z2Nat.inj_add in Hp by lia. split; [exact Hp|].
    by specialize (Hpay eq_refl).
  - intros [t x] (rx & [Hr Hp] & Hsub). unfold snd_world.
    pose proof (Halloc x) as Hx. destruct (scratch_alloc x) as [ok x']. cbn in *.
    exists rx. split; [|done]. split; [|done]. by eapply rel_world.
  - intros [t x] bs [t' x'] Hi Hr. unfold snd_world in Hr.
    destruct (read_fn _ _ x) as [r y] eqn:Er. injection Hr as -> <- <-.
    apply read_ok in Er as (-> & -> & _); [|unfold KOTA3_HEADER_SIZE; lia|lia].
    split; [done|]. destruct Hi as (rx & [Hr _] & _). unfold manifest_bytes.
    by rewrite (rl_out _ _ _ _ _ _ _ _ _ Hr : file x = file w0).
  - exists rx_start. split; [split; [|by unfold rx_enc]|constructor]. cbn.
    destruct (begin_rel (W := W) discard_output f stream_zero s w0 Hf Hb)
      as [? ? ? ? ? ? ? ? ? _]. by split.
Qed.

Definition header_bytes (w : W) : bytes := slice 0 16 (file w).

Lemma read_header_ok package_size w manifest_size w' :
  are_bytes (file w) ->
  read_header read_fn package_size w = (inr manifest_size, w') ->
  file w' = file w /\ 0 < manifest_size <= KOTA3_MANIFEST_MAX /\
  KOTA3_HEADER_SIZE + manifest_size <= package_size <= KEEMASH_OTA_V3_MAX_PACKAGE_SIZE /\
  take 8 (header_bytes w) = s_magic /\ manifest_size = le32 (header_bytes w) 8 /\
  (crc_runs -> u32 (zlib_crc32 zlib_crc32_init (manifest_bytes manifest_size w))
     = le32 (header_bytes w) 12).
Proof.
  intros Hfile H. unfold read_header in H. destruct (_ || _) eqn:E0 in H; [done|]. bools.
  destruct (read_fn 0 _ w) as [[e|header] w1] eqn:Er; [done|].
  apply read_ok in Er as (-> & Hh & _); [|lia|unfold KOTA3_HEADER_SIZE; lia].
  change (header = header_bytes w) in Hh.
  destruct (bytes_eqb _ _) eqn:Em; [|done]. apply bytes_eqb_true in Em. cbn [negb] in H.
  destruct (_ || _) eqn:E1 in H; [done|]. bools.
  destruct (check_manifest_crc _ _ _ _) as [r w2] eqn:Ec. injection H as H <-. res_inv. subst.
  assert (Hpos : 0 <= le32 (header_bytes w) 8).
  { unfold le32, get_le. apply (le_val_range (slice 8 4 (header_bytes w))).
    by do 2 apply are_bytes_slice. }
  unfold KOTA3_MANIFEST_MAX, KOTA3_HEADER_SIZE in *. ota_consts.
  unfold check_manifest_crc in Ec.
  destruct (manifest_crc _ _ _ _ _ _) as [r w3] eqn:Ecrc. injection Ec as Ec <-.
  destruct r as [e|c]; [done|]. cbn in Ec. res_inv. bools.
  pose proof Ecrc as Hk. apply manifest_crc_keeps in Hk; [|done]. subst w3.
  split; [done|]. split; [lia|]. split; [lia|]. split; [done|]. split; [done|]. intros Hc.
  apply manifest_crc_ok in Ecrc as [_ ->];
    [done|done|unfold KOTA3_HEADER_SIZE; lia|lia|unfold KOTA3_HEADER_SIZE, UINT32_MAX; lia|].
  apply rounds_enough. lia.
Qed.

(** C20: when [keemash_ota_v3_verify_package] accepts a package, the file is a
    16-byte header with the magic, the size of the manifest and the CRC of its bytes; a
    well-formed manifest whose signed fields are authenticated by its signature; and
    exactly the signed payload up to its end, which is cut into one block per descriptor of
    the manifest, in order, each of which zlib inflates to raw bytes of the announced
    length and digest; together those are exactly the signed image. *)
Theorem verified_package package_size w f w' :
  are_bytes (file w) -> crc_runs -> zlib_progress Zl ->
  keemash_ota_v3_verify_package read_fn package_size w = (inr f, w') ->
  exists manifest_size fields blocks,
    let payload := concat (xb_enc <$> blocks) in
    let image := concat (xb_raw <$> blocks) in
    take 8 (header_bytes w) = s_magic /\ manifest_size = le32 (header_bytes w) 8 /\
    0 < manifest_size <= KOTA3_MANIFEST_MAX /\
    u32 (zlib_crc32 zlib_crc32_init (manifest_bytes manifest_size w))
      = le32 (header_bytes w) 12 /\
    pb_manifest (manifest_bytes manifest_size w) = (fields, true, 0) /\
    keemash_ota_v3_verify_signed_fields (ma_signed_fields (manifest_members fields))
      (ma_signature (manifest_members fields)) = inr f /\
    pb_decode_block <$> manifest_blocks fields = Some <$> (xb_desc <$> blocks) /\
    Forall (fun b => block_matches b /\ inflates_to false (xb_enc b) (xb_raw b)) blocks /\
    payload = slice (16 + Z.to_nat manifest_size) (length payload) (file w) /\
    16 + manifest_size + blen payload = package_size /\
    blen payload = encoded_size f /\ sha256 payload = encoded_sha256 f /\
    blen image = raw_size f /\ sha256 image = image_sha256 f.
Proof.
  intros Hfile Hcrc Hprog H. unfold keemash_ota_v3_verify_package in H.
  destruct (read_header _ _ _) as [[e|msize] w1] eqn:Eh; [done|].
  apply read_header_ok in Eh as (Hw1 & Hm & Hsz & Hhead); [|done].
  pose proof (Halloc w1) as Ha1. destruct (scratch_alloc w1) as [ok1 w2]. cbn in Ha1.
  pose proof (Halloc w2) as Ha2. destruct (scratch_alloc w2) as [ok2 w3]. cbn in Ha2.
  destruct (_ || _) in H; [done|].
  destruct (decode_manifest _ _ _ _ _) as [r [b w4]] eqn:Ed.
  match type of H with match ?m with _ => _ end = _ => destruct m as [e|[[first g] s]] eqn:Em end;
    [done|].
  res_inv. subst r. apply count_pass_ok in Ed as (Hw4 & fields & ds & Hpb & Hfirst & Hds & Hn); [|lia].
  destruct (keemash_ota_v3_stream_begin a0 stream_zero) as [e s0] eqn:Eb. res_inv.
  destruct (validate_package _ _ _ _ _ _ _) as [r w5] eqn:Ev. injection H as H <-. res_inv. subst.
  pose proof (proj1 (signed_fields_ok _ _ _ E0)) as Hf. destruct a3.
  assert (Hw : file w4 = file w) by congruence.
  assert (Hman : manifest_bytes msize w3 = manifest_bytes msize w)
    by (unfold manifest_bytes; congruence).
  assert (Hman4 : manifest_bytes msize w4 = manifest_bytes msize w)
    by (unfold manifest_bytes; congruence).
  rewrite Hman in Hpb.
  unfold sizes_disagree, KOTA3_MANIFEST_MAX, KOTA3_HEADER_SIZE in *. ota_consts. bools.
  rewrite !u32_id in * by words.
  eapply validate_package_ok in Ev as (blocks & Hd & Hbl & Hp & Hl & Hs & Hi & His);
    [|unfold KOTA3_MANIFEST_MAX; lia|done|by rewrite Hman4|exact Hds|congruence|done].
  exists msize, fields, blocks. cbv zeta. rewrite Hw in Hp. rewrite Hd.
  destruct Hhead as (Hmagic & Hms & Hmcrc).
  repeat (split; [first [done|lia|by apply Hmcrc]|]).
  split; [|split; [exact Hp|split; [lia|done]]].
  eapply Forall_impl; [|exact Hbl]. intros x Hx. split; [done|]. by apply inflates_exact, Hx.
Qed.

End PackageProps.

(** ** Witnesses *)

#[local] Existing Instance toy_digest.
#[local] Existing Instance toy_digest_laws.
#[local] Existing Instance demo_config.
#[local] Existing Instance demo_psa.
#[local] Existing Instance demo_zlib.
#[local] Existing Instance demo_zlib_laws.
#[local] Existing Instance demo_pb.
#[local] Existing Instance demo_pb_laws.

(** A checksum that, like zlib's, runs over consecutive pieces. *)
Definition demo_crc (crc : Z) (b : bytes) : Z :=
  fold_left (fun c x => (31 * c + x + 1) mod 2 ^ 32) b crc.

(** The manifest is the three bytes 9 8 7; block descriptors are their index. *)
Definition demo_manifest : bytes := [9; 8; 7].

Definition demo_package_env : PackageEnv bytes := {|
  pb_manifest := fun b =>
    if bytes_eqb b demo_manifest
    then ([MF_signed_fields [1]; MF_signature demo_signature; MF_block [0]; MF_block [1]], true, 0)
    else ([], false, blen b);
  pb_decode_block := fun b =>
    if bytes_eqb b [0] then Some desc0 else if bytes_eqb b [1] then Some desc1 else None;
  zlib_crc32 := demo_crc; zlib_crc32_init := 7; scratch_alloc := fun w => (true, w) |}.
#[local] Existing Instance demo_package_env.

Definition demo_package : bytes :=
  s_magic ++ le_bytes 4 3 ++ le_bytes 4 (demo_crc 7 demo_manifest) ++ demo_manifest ++ demo_image.

Lemma demo_blocks_typed sub d : pb_decode_block sub = Some d -> block_typed d.
Proof.
  pose proof demo_typed as H. apply Forall_cons_iff in H as [H0 H].
  apply Forall_cons_iff in H as [H1 _]. cbn [pb_decode_block demo_package_env].
  destruct (bytes_eqb sub [0]); [by intros [= <-]|].
  destruct (bytes_eqb sub [1]); [by intros [= <-]|done].
Qed.

Lemma demo_crc_runs : crc_runs.
Proof. intros c a b. unfold zlib_crc32, demo_package_env, demo_crc. by rewrite fold_left_app. Qed.

Example manifest_crc_exact_witness :
  u32 (demo_crc 7 (slice 16 3 demo_package)) = demo_crc 7 demo_manifest.
Proof.
  destruct (manifest_crc_exact demo_read (fun w => w) demo_reads 3 (demo_crc 7 demo_manifest)
              demo_package demo_package demo_crc_runs) as [_ H].
  - unfold KOTA3_MANIFEST_MAX. lia.
  - vm_compute. reflexivity.
  - exact H.
Defined.

Lemma demo_alloc (w : bytes) : (scratch_alloc w).2 = w.
Proof. done. Qed.

Definition verified : res keemash_ota_v3_signed_fields_t * bytes :=
  keemash_ota_v3_verify_package demo_read (blen demo_package) demo_package.

Lemma demo_verified :
  keemash_ota_v3_verify_package demo_read (blen demo_package) demo_package
  = (inr demo_fields, verified.2).
Proof. unfold verified. apply run_pair. vm_compute. reflexivity. Qed.

Lemma demo_progress : zlib_progress demo_zlib.
Proof.
  intros z inp room r n out z' [= _ <- <- _] Hr Hi _. left. rewrite length_take.
  destruct inp; [done|]. cbn [length]. lia.
Qed.

Example verified_package_witness :
  exists fields blocks,
    pb_manifest demo_manifest = (fields, true, 0) /\ length (manifest_blocks fields) = 2%nat /\
    Forall (fun b => inflates_to false (xb_enc b) (xb_raw b)) blocks /\
    blen (concat (xb_enc <$> blocks)) = 16387 /\
    sha256 (concat (xb_enc <$> blocks)) = toy_sha demo_image /\
    blen (concat (xb_raw <$> blocks)) = 16387 /\
    sha256 (concat (xb_raw <$> blocks)) = toy_sha demo_image.
Proof.
  destruct (verified_package demo_read (fun w => w) demo_reads demo_alloc
              demo_blocks_typed (blen demo_package) demo_package demo_fields verified.2)
    as (msize & fields & blocks & _ & Hms & _ & _ & Hpb & _ & _ & Hb & _ & _ & Hl & Hs & Hi & His).
  - apply bytes_check_ok. vm_compute. reflexivity.
  - exact demo_crc_runs.
  - exact demo_progress.
  - exact demo_verified.
  - assert (E : manifest_bytes (fun w => w) msize demo_package = demo_manifest)
      by (rewrite Hms; vm_compute; reflexivity).
    rewrite E in Hpb. exists fields, blocks. split; [exact Hpb|].
    split; [vm_compute in Hpb; injection Hpb as <-; vm_compute; reflexivity|].
    split; [|split; [exact Hl|split; [exact Hs|split; [exact Hi|exact His]]]].
    eapply Forall_impl; [|exact Hb]. intros x Hx. exact (proj2 Hx).
Defined.
