(* ===== verification/OtaFlashDemo.v ===== *)
(** * OTA v3: a node that receives the artifact of OtaDemo

    One partition, an NVS and a handle that never fail: the artifact is
    prepared, received, verified and activated, the boot is reported and
    acknowledged.  The hypotheses of OtaFlashProps and OtaBootProps can hold. *)

From S2P Require Import Prelude.
From S2P Require Import Words.
From S2P Require Import Esp.
From S2P Require Import OtaLib.
From S2P Require Import OtaTypes.
From S2P Require Import OtaV3.
From S2P Require Import OtaChain.
From S2P Require Import OtaInflate.
From S2P Require Import OtaStream.
From S2P Require Import OtaRefine.
From S2P Require Import OtaImage.
From S2P Require Import OtaCheckpoint.
From S2P Require Import OtaCheckpointProps.
From S2P Require Import OtaFlashEnv.
From S2P Require Import OtaFlash.
From S2P Require Import OtaFlashProps.
From S2P Require Import OtaBoot.
From S2P Require Import OtaBootProps.
From S2P Require Import OtaDemo.
#[local] Open Scope Z_scope.

#[local] Existing Instance toy_digest.
#[local] Existing Instance toy_digest_laws.
#[local] Existing Instance demo_config.
#[local] Existing Instance demo_psa.
#[local] Existing Instance demo_zlib.
#[local] Existing Instance demo_zlib_laws.
#[local] Existing Instance demo_pb.
#[local] Existing Instance demo_pb_laws.

(** ** The node *)

Record node := { nd_a : option bytes; nd_b : option bytes; nd_flash : bytes; nd_image : bytes }.

(** What a flash page can hold: a word that is not bytes is not stored. *)
Definition node_blob (w : node) (k : nvs_key) : option bytes :=
  b ← match k with V3A => nd_a w | V3B => nd_b w end;
  if bytes_check b then Some b else None.

Definition node_store : CheckpointEnv node := {|
  nvs_open := fun _ w => (ESP_OK, w);
  nvs_get_blob := fun k n w =>
    (match node_blob w k with
     | Some b => if (length b <=? n)%nat then inr b else inl ESP_ERR_NVS_INVALID_LENGTH
     | None => inl ESP_ERR_NVS_NOT_FOUND
     end, w);
  nvs_set_blob := fun k b w =>
    if bytes_check b
    then (ESP_OK, match k with
             | V3A => {| nd_a := Some b; nd_b := nd_b w; nd_flash := nd_flash w;
                         nd_image := nd_image w |}
             | V3B => {| nd_a := nd_a w; nd_b := Some b; nd_flash := nd_flash w;
                         nd_image := nd_image w |}
             end)
    else (ESP_FAIL, w);
  nvs_commit := fun w => (ESP_OK, w);
  heap_alloc := fun w => (true, w);
  esp_rom_crc32_le := fun init bs => fold_left Z.add bs init |}.
#[local] Existing Instance node_store.

Definition node_flash : FlashEnv node := {|
  esp_partition_t := unit; label := fun _ => [111]; size := fun _ => 65536;
  esp_partition_find_first := fun _ w => (Some tt, w);
  esp_partition_read := fun _ off n w => ((demo_read off n (nd_flash w)).1, w);
  esp_ota_get_next_update_partition := fun w => (Some tt, w);
  esp_ota_get_running_partition := fun w => (Some tt, w);
  esp_ota_get_state_partition := fun _ _ w => ((ESP_OK, ESP_OTA_IMG_VALID), w);
  esp_ota_set_boot_partition := fun _ w => (ESP_OK, w);
  esp_ota_begin := fun _ _ w =>
    (inr 1, {| nd_a := nd_a w; nd_b := nd_b w; nd_flash := nd_flash w; nd_image := [] |});
  esp_ota_resume := fun _ off w =>
    (inr 1, {| nd_a := nd_a w; nd_b := nd_b w; nd_flash := nd_flash w;
               nd_image := slice 0 (Z.to_nat off) (nd_flash w) |});
  esp_ota_write := fun _ b w =>
    (ESP_OK, {| nd_a := nd_a w; nd_b := nd_b w; nd_flash := nd_flash w;
                nd_image := nd_image w ++ b |});
  esp_ota_end := fun _ w =>
    (ESP_OK, {| nd_a := nd_a w; nd_b := nd_b w; nd_flash := nd_image w;
                nd_image := nd_image w |});
  esp_ota_abort := fun _ w => (ESP_OK, w);
  esp_err_u32 := fun e => if err_eqb e ESP_OK then 0 else 4294967295;
  img_state_u32 := fun s => if decide (s = ESP_OTA_IMG_VALID) then 2 else 0 |}.
#[local] Existing Instance node_flash.

Definition node_view : FlashView node node_flash := {|
  partition_data := fun w (_ : @esp_partition_t node node_flash) => nd_flash w;
  ota_partition := fun _ _ => Some (tt : @esp_partition_t node node_flash);
  ota_image := fun w _ => nd_image w |}.
#[local] Existing Instance node_view.

#[local] Instance node_store_laws : CheckpointEnvLaws node node_store.
Proof.
  refine {| nv_blob := node_blob |}; cbn; try done.
  - intros k n w b Hb. destruct (node_blob w k) as [b'|]; [|split; congruence].
    destruct (Nat.leb_spec (length b') n); split; try congruence. intros [= ->]. lia.
  - intros k n w b. destruct (node_blob w k) as [b'|]; [|done].
    destruct (Nat.leb_spec (length b') n); [|done]. by intros [= <-].
  - intros k b w k'. destruct (bytes_check b) eqn:E; [|done]. intros _.
    destruct k, k'; cbn; by rewrite ?E.
  - intros k b w. destruct (bytes_check b); [done|]. by left.
Defined.

#[local] Instance node_laws : FlashLaws node node_flash node_view node_store.
Proof.
  split; try done.
  - split; try done.
    + by intros [] n w h w' [= <- <-].
    + by intros h b w w' [= <-].
    + intros h w w' p [= <-] _. cbn. unfold slice. by rewrite drop_0, firstn_all.
  - intros k n w b. cbn. unfold node_blob.
    destruct (match k with V3A => nd_a w | V3B => nd_b w end) as [b'|]; cbn; [|done].
    destruct (bytes_check b') eqn:E; cbn; [|done]. destruct (length b' <=? n)%nat; [|done].
    intros [= <-]. by apply bytes_check_ok.
  - intros k b w. cbn. destruct (bytes_check b), k; by split.
  - intros p off n w r w' Ho Hn [= <- <-].
    pose proof (demo_reads off n (nd_flash w) _ _ Ho Hn eq_refl) as H. cbn in *.
    destruct (_ =? n); [|done]. by destruct H as (_ & ? & ?).
  - by intros [] off w h w' Ho [= <- <-].
Defined.

Definition blank : node := {| nd_a := None; nd_b := None; nd_flash := []; nd_image := [] |}.
Definition ready : ST node esp_err_t := mret ESP_OK.

(** ** The transfer *)

Definition demo_id : Id128 := {| high := 1; low := 2 |}.
Definition demo_artifact_id : bytes := zeros 32.

Definition msg_prepare : OtaTransfer := OtaTransfer_prepare
  {| pr_has_operation_id := true; pr_operation_id := demo_id;
     pr_artifact_id := demo_artifact_id; pr_signed_fields := [1];
     pr_signature := demo_signature; pr_requested_chunk_size := 2048;
     pr_requested_window := 4 |}.
Definition msg_data (c : ota_chunk) : OtaTransfer := OtaTransfer_data
  {| bc_has_operation_id := true; bc_operation_id := demo_id;
     bc_artifact_id := demo_artifact_id; bc_has_block := true; bc_block := ck_desc c;
     bc_block_encoded_offset := ck_offset c; bc_data := ck_data c;
     bc_final_chunk := ck_final c |}.
Definition demo_commit : OtaCommit :=
  {| co_has_operation_id := true; co_operation_id := demo_id;
     co_artifact_id := demo_artifact_id; co_block_table_sha256 := demo_table;
     co_image_sha256 := toy_sha demo_image |}.

Definition handle (t : OtaTransfer) :
  ST (keemash_ota_v3_flash_receiver * node) (esp_err_t * option esp_partition_t) :=
  keemash_ota_v3_flash_receiver_handle_transfer [107] [101] 0 0 ready t.
Definition run (ts : list OtaTransfer) (x : keemash_ota_v3_flash_receiver * node)
  : keemash_ota_v3_flash_receiver * node :=
  fold_left (fun x t => (handle t x).2) ts x.

Abbreviation step := (flash_step [107] [101] 0 0 ready).

Lemma run_reaches ts x : Forall transfer_typed ts -> rtc step x (run ts x).
Proof.
  intros H. revert x. induction H as [|t ts Ht _ IH]; intros x; [done|].
  eapply rtc_l; [by apply (fs_transfer [107] [101] 0 0 ready t)|]. apply IH.
Qed.

Definition msgs : list OtaTransfer := msg_prepare :: map msg_data (chunks0 ++ chunks1).
Definition before_last : list OtaTransfer := msg_prepare :: map msg_data (take 7%nat chunks0).

Lemma transfer_of cs : Forall (fun c => block_typed (ck_desc c)) cs ->
  Forall transfer_typed (msg_prepare :: map msg_data cs).
Proof.
  intros H. constructor.
  - split; [|split]; apply bytes_check_ok; vm_compute; reflexivity.
  - induction H; constructor; assumption.
Qed.

Lemma msgs_typed : Forall transfer_typed msgs.
Proof. apply transfer_of, demo_chunks_typed. Qed.

Lemma before_last_typed : Forall transfer_typed before_last.
Proof.
  apply transfer_of, Forall_take. exact (proj1 (proj1 (Forall_app _ _ _) demo_chunks_typed)).
Qed.

Definition received : keemash_ota_v3_flash_receiver * node := run msgs (flash_receiver_zero, blank).
Definition midway : keemash_ota_v3_flash_receiver * node :=
  run before_last (flash_receiver_zero, blank).

Lemma received_reached : rtc step (flash_receiver_zero, blank) (received.1, received.2).
Proof. rewrite <- surjective_pairing. apply run_reaches, msgs_typed. Qed.
Lemma midway_reached : rtc step (flash_receiver_zero, blank) (midway.1, midway.2).
Proof. rewrite <- surjective_pairing. apply run_reaches, before_last_typed. Qed.

(** ** The witnesses *)

Example flash_states_witness : flash_ok received.1 received.2.
Proof.
  apply (flash_states [107] [101] 0 0 ready blank received.1 received.2).
  exact received_reached.
Defined.

Lemma reached_ok x : rtc step (flash_receiver_zero, blank) (x.1, x.2) -> flash_ok x.1 x.2.
Proof. intros H. exact (flash_reachable_ok [107] [101] 0 0 ready blank _ H). Qed.

Definition committed : (esp_err_t * option esp_partition_t) *
  (keemash_ota_v3_flash_receiver * node) := handle (OtaTransfer_commit demo_commit) received.

Lemma commit_runs :
  keemash_ota_v3_flash_receiver_handle_transfer [107] [101] 0 0 ready
    (OtaTransfer_commit demo_commit) (received.1, received.2)
  = ((ESP_OK, Some (tt : @esp_partition_t node node_flash)), (committed.2.1, committed.2.2)).
Proof.
  rewrite <- !surjective_pairing. unfold committed, handle. apply run_pair. vm_compute. reflexivity.
Qed.

Lemma received_unverified : fr_verified received.1 = false.
Proof. vm_compute. reflexivity. Qed.

Example verified_flash_image_witness :
  image_in_flash (fr_fields committed.2.1) committed.2.2 (tt : @esp_partition_t node node_flash).
Proof.
  destruct (verified_flash_image [107] [101] 0 0 ready blank received.1 received.2
              demo_commit _ _ _ received_reached received_unverified commit_runs)
    as (p & E & _ & _ & _ & _ & H).
  destruct p. exact H.
Defined.

(** The last chunk of the first block makes a checkpoint due. *)
Definition last_chunk : ota_chunk :=
  default (Build_ota_chunk desc0 0 [] false) (chunks0 !! 7%nat).
Definition fed_last : keemash_ota_v3_stream_t * node :=
  (keemash_ota_v3_stream_feed (flash_output midway.1) (ck_desc last_chunk)
     (ck_offset last_chunk) (ck_data last_chunk) (ck_final last_chunk)
     (stream_of midway.1, midway.2)).2.

Example progress_accepted_witness :
  exists rp, keemash_ota_v3_stream_checkpoint fed_last.1 = inr rp /\
    save_refused (with_resume (fill_checkpoint (midway.1 <| fr_stream := Some fed_last.1 |>)
                                 CHECKPOINT_TRANSFERRING) rp) = false.
Proof.
  assert (Hp : label_ok (label (tt : @esp_partition_t node node_flash))).
  { split; [literal_bytes|]. split; [repeat constructor; discriminate|cbn; lia]. }
  pose proof demo_typed as Ht. apply Forall_cons_iff in Ht as [Ht _].
  pose proof (progress_accepted midway.1 midway.2 tt (ck_desc last_chunk)
                (ck_offset last_chunk) (ck_data last_chunk) (ck_final last_chunk)
                fed_last.1 fed_last.2 (reached_ok midway midway_reached)
                ltac:(vm_compute; reflexivity) ltac:(vm_compute; reflexivity) Hp) as H.
  specialize (H Ht). destruct (keemash_ota_v3_stream_checkpoint fed_last.1) as [e|rp] eqn:E.
  - vm_compute in E. discriminate E.
  - exists rp. split; [reflexivity|]. apply H.
    + unfold fed_last. rewrite <- surjective_pairing. apply run_pair. vm_compute. reflexivity.
    + vm_compute. reflexivity.
Defined.

(** ** Activation, boot and acknowledgement, on a node with an empty store *)

Definition wipe (w : node) : node :=
  {| nd_a := None; nd_b := None; nd_flash := nd_flash w; nd_image := nd_image w |}.
Definition wiped : node := wipe committed.2.2.

Lemma wipe_same w : same_flash w (wipe w).
Proof. by split. Qed.
Lemma wipe_register w : register (wipe w) None.
Proof. split; [by intros [|] b|by apply shows_empty]. Qed.

Lemma committed_ok : flash_ok committed.2.1 wiped.
Proof.
  refine (flash_ok_same _ committed.2.2 _ _ (wipe_same _)).
  eapply (handle_transfer_ok [107] [101] 0 0 ready (OtaTransfer_commit demo_commit));
    [|exact I|exact commit_runs].
  exact (reached_ok received received_reached).
Qed.

Lemma wiped_register : register wiped None.
Proof. apply wipe_register. Qed.

Lemma demo_label : label_ok (label (tt : @esp_partition_t node node_flash)).
Proof. split; [literal_bytes|]. split; [repeat constructor; discriminate|cbn; lia]. Qed.

Definition activated : keemash_ota_v3_flash_receiver * node :=
  (keemash_ota_v3_flash_receiver_activate ready (committed.2.1, wiped)).2.

Lemma activate_runs :
  keemash_ota_v3_flash_receiver_activate ready (committed.2.1, wiped)
  = (ESP_OK, (activated.1, activated.2)).
Proof.
  rewrite <- (surjective_pairing activated). unfold activated. apply run_pair. vm_compute. reflexivity.
Qed.

Definition reported : res OtaBootReport * node :=
  keemash_ota_v3_boot_report {| high := 7; low := 8 |} 9 activated.2.
Definition report_or (r : res OtaBootReport) : OtaBootReport :=
  match r with inr rep => rep | inl _ => OtaBootReport_init_zero end.
Definition demo_report : OtaBootReport := report_or reported.1.

Lemma demo_id_typed : id_typed demo_id.
Proof. split; unfold is_u64; cbn; lia. Qed.

Lemma report_runs :
  keemash_ota_v3_boot_report {| high := 7; low := 8 |} 9 activated.2
  = (inr demo_report, reported.2).
Proof. unfold demo_report, reported. apply run_pair. vm_compute. reflexivity. Qed.

Lemma committed_facts :
  fr_partition committed.2.1 = Some tt /\ 0 < encoded_size (fr_fields committed.2.1) /\
  fr_operation_id committed.2.1 = operation_bytes demo_id.
Proof. vm_compute. done. Qed.

Lemma ready_store : stable same_store ready.
Proof. by intros w. Qed.
Lemma boot_store p : stable same_store (esp_ota_set_boot_partition (W := node) p).
Proof. by intros w. Qed.
Lemma running_store : stable same_store (esp_ota_get_running_partition (W := node)).
Proof. by intros w. Qed.
Lemma state_store p s : stable same_store (esp_ota_get_state_partition (W := node) p s).
Proof. by intros w. Qed.

Example activation_reported_witness :
  br_operation_id demo_report = demo_id /\
  br_artifact_id demo_report = fr_artifact_id committed.2.1.
Proof.
  destruct committed_facts as (Hp & He & Ho).
  destruct (activation_reported ready ready_store boot_store running_store state_store
              committed.2.1 tt demo_id wiped None activated.1 activated.2 activated.2
              {| high := 7; low := 8 |} 9 demo_report reported.2
              committed_ok Hp demo_label He demo_id_typed Ho wiped_register activate_runs
              (fun k => eq_refl) report_runs) as (H1 & H2 & _).
  split; [exact H1|exact H2].
Defined.

Definition demo_pending : keemash_ota_v3_checkpoint_t :=
  terminal_checkpoint committed.2.1 CHECKPOINT_BOOT_PENDING.

Lemma activated_register : register activated.2 (Some demo_pending).
Proof.
  destruct committed_facts as (Hp & He & _).
  assert (Hh : held committed.2.1).
  { destruct committed_ok as [Hz|s p a rp full w0 _ _ Hh _|_ _ Hh _]; [|exact Hh|exact Hh].
    rewrite Hz in Hp. discriminate Hp. }
  exact (activate_register ready ready_store boot_store committed.2.1 tt wiped None
           activated.2 activated.1 Hh Hp demo_label He wiped_register activate_runs).
Qed.

Definition demo_ack : OtaBootAck :=
  {| ba_has_operation_id := true; ba_operation_id := demo_id;
     ba_artifact_id := demo_artifact_id; ba_state := OTA_BOOT_VALIDATED |}.
Definition acknowledged : esp_err_t * node := keemash_ota_v3_boot_ack demo_ack activated.2.

Lemma ack_runs : keemash_ota_v3_boot_ack demo_ack activated.2 = (ESP_OK, acknowledged.2).
Proof. unfold acknowledged. apply run_pair. vm_compute. reflexivity. Qed.

Example acknowledged_once_witness : register acknowledged.2 None.
Proof.
  destruct (acknowledged_once running_store state_store demo_ack
              activated.2 (Some demo_pending) acknowledged.2 activated_register ack_runs)
    as (_ & _ & H & _).
  exact H.
Defined.

(** After a restart the receiver is idle and the checkpoint is pending. *)
Definition aborted : esp_err_t * (keemash_ota_v3_flash_receiver * node) :=
  keemash_ota_v3_flash_receiver_abort (operation_bytes demo_id) demo_artifact_id
    (flash_receiver_zero, activated.2).

Lemma abort_runs :
  keemash_ota_v3_flash_receiver_abort (operation_bytes demo_id) demo_artifact_id
    (flash_receiver_zero, activated.2)
  = (ESP_ERR_INVALID_STATE, (aborted.2.1, aborted.2.2)).
Proof.
  rewrite <- (surjective_pairing aborted.2).
  unfold aborted. apply run_pair. vm_compute. reflexivity.
Qed.

Example persisted_abort_refused_witness : register aborted.2.2 (Some demo_pending).
Proof.
  destruct (persisted_abort_refused flash_receiver_zero activated.2 (Some demo_pending)
              (operation_bytes demo_id) demo_artifact_id ESP_ERR_INVALID_STATE
              aborted.2.1 aborted.2.2 eq_refl eq_refl activated_register abort_runs)
    as (_ & _ & H).
  exact H.
Defined.
