(* ===== verification/OtaWorker.v ===== *)
(** * OTA v3: the mesh worker (keemash_mesh_ota_v3_receiver.c)

    The task around the flash receiver: messages from the mesh wait in a queue of
    two, are decoded and handed to the receiver under a lock, and are answered
    with a status; a verified image is activated and the node restarts.  When no
    message comes for half a minute the worker reports a pending boot and drops a
    transfer that has been silent for ten minutes.

    The names of the texts are those of the sources; [CONFIG_KEEMASH_OTA_V3_ENABLE]
    is set. *)

From Stdlib Require String.
From S2P Require Import Prelude.
From S2P Require Import Words.
From S2P Require Import Esp.
From S2P Require Import Rtos.
From S2P Require Import OtaLib.
From S2P Require Import OtaTypes.
From S2P Require Import OtaV3.
From S2P Require Import OtaStream.
From S2P Require Import OtaCheckpoint.
From S2P Require Import OtaFlashEnv.
From S2P Require Import OtaInflate.
From S2P Require Import OtaFlash.
From S2P Require Import OtaBoot.
From S2P Require Import Fabric.
#[local] Open Scope Z_scope.

Definition OTA_V3_QUEUE_LEN : nat := 2.
Definition OTA_V3_IDLE_TIMEOUT_MS : Z := 10 * 60 * 1000.
Definition KEEMASH_MESH_CORE_VERSION : Z := 0x000a0000.

Definition OTA_PHASE_TRANSFERRING : Z := 5.
Definition OTA_PHASE_VERIFYING : Z := 6.
Definition OTA_PHASE_REBOOTING : Z := 7.
Definition OTA_PHASE_ABORTED : Z := 12.
Definition OTA_PHASE_FAILED : Z := 13.

Module WorkerText.
Import Stdlib.Strings.String.
#[local] Open Scope string_scope.

Definition verifying : bytes := text "verifying image".
Definition rebooting : bytes := text "verified; rebooting".
Definition aborted : bytes := text "aborted".
Definition accepted : bytes := text "accepted".
End WorkerText.

(** The node facade as the worker sees it, the application's preflight check, and
    the build's configuration.  [mesh_v2_node_fabric_identity] yields the node
    identifier and the boot session. *)
Class WorkerEnv (W : Type) := {
  #[global] worker_rtos :: Rtos W;
  CONFIG_KEEMASH_OTA_V3_MAX_WINDOW : Z;
  CONFIG_IDF_TARGET : bytes;
  mesh_v2_node_send_ota_v3_message : OtaMeshMessage -> ST W esp_err_t;
  mesh_v2_node_reliable_ready : ST W bool;
  mesh_v2_node_fabric_identity : ST W (res (Id128 * Z));
  preflight : ST W esp_err_t;
  vTaskDelay : Z -> ST W unit }.

Section Worker.
Context {Cfg : OtaConfig} {D : Digest} {Key : Psa} {Pb : Nanopb} {Zl : Zlib} {W : Type}
  {Store : CheckpointEnv W} {Flash : FlashEnv W} {Env : WorkerEnv W}.

Abbreviation receiver := keemash_ota_v3_flash_receiver (only parsing).

(** The preflight pointer is whether it is set. *)
Record keemash_mesh_ota_v3_config_t := { vc_preflight : bool; vc_reboot_delay_ms : Z }.

(** The static variables of the file, and the worker's [last_transfer_tick]; the
    lock and the task are whether they exist. *)
Record ota_v3_worker_t := {
  v_config : keemash_mesh_ota_v3_config_t; v_receiver : option receiver;
  v_queue : option (list bytes); v_lock : bool; v_worker : bool; v_last_tick : Z }.

#[export] Instance eta_ota_v3_worker : Eta ota_v3_worker_t := fun v =>
  Build_ota_v3_worker_t (v_config v) (v_receiver v) (v_queue v) (v_lock v) (v_worker v)
    (v_last_tick v).

Definition ota_v3_worker_zero : ota_v3_worker_t :=
  {| v_config := {| vc_preflight := false; vc_reboot_delay_ms := 0 |}; v_receiver := None;
     v_queue := None; v_lock := false; v_worker := false; v_last_tick := 0 |}.

Abbreviation OW := (ST (ota_v3_worker_t * W)).

Definition get_v3 : OW ota_v3_worker_t := gets fst.
Definition mod_v3 (f : ota_v3_worker_t -> ota_v3_worker_t) : OW unit :=
  modify (fun '(v, w) => (f v, w)).

(** A call on the receiver, and what it returns when the pointer is NULL. *)
Definition on_receiver {A : Type} (null : A) (m : ST (receiver * W) A) : OW A := fun '(v, w) =>
  match v_receiver v with
  | None => (null, (v, w))
  | Some r =>
      let '(a, (r, w)) := m (r, w) in (a, (v <| v_receiver := Some r |>, w))
  end.

(** [keemash_ota_v3_flash_receiver_status] into a zeroed struct. *)
Definition flash_status (v : ota_v3_worker_t) : keemash_ota_v3_flash_status_t :=
  match v_receiver v with
  | Some r => keemash_ota_v3_flash_receiver_status r
  | None => {| fs_raw_offset := 0; fs_encoded_offset := 0; fs_next_block_index := 0;
               fs_active := false; fs_verified := false; fs_resumed := false |}
  end.

(** ** Answers *)

Definition message_operation (t : OtaTransfer) : option Id128 :=
  let given (has : bool) (id : Id128) := if has then Some id else None in
  match t with
  | OtaTransfer_prepare m => given (pr_has_operation_id m) (pr_operation_id m)
  | OtaTransfer_data m => given (bc_has_operation_id m) (bc_operation_id m)
  | OtaTransfer_commit m => given (co_has_operation_id m) (co_operation_id m)
  | OtaTransfer_abort m => given (ab_has_operation_id m) (ab_operation_id m)
  | OtaTransfer_query m => given (qu_has_operation_id m) (qu_operation_id m)
  | _ => None
  end.

Definition message_artifact (t : OtaTransfer) : option bytes :=
  let sized (b : bytes) := if blen b =? KEEMASH_OTA_V3_SHA256_LEN then Some b else None in
  match t with
  | OtaTransfer_prepare m => sized (pr_artifact_id m)
  | OtaTransfer_data m => sized (bc_artifact_id m)
  | OtaTransfer_commit m => sized (co_artifact_id m)
  | OtaTransfer_abort m => sized (ab_artifact_id m)
  | OtaTransfer_query m => sized (qu_artifact_id m)
  | _ => None
  end.

(** The status message about a request. *)
Definition status_message (operation : Id128) (artifact_id : bytes) (phase : Z)
  (result : esp_err_t) (txt : bytes) (flash : keemash_ota_v3_flash_status_t) : OtaTransferStatus :=
  {| ts_has_operation_id := true; ts_operation_id := operation; ts_artifact_id := artifact_id;
     ts_phase := phase; ts_raw_offset := fs_raw_offset flash;
     ts_encoded_offset := fs_encoded_offset flash;
     ts_next_block_index := fs_next_block_index flash;
     ts_window_credit := CONFIG_KEEMASH_OTA_V3_MAX_WINDOW; ts_retries := 0;
     ts_resume_count := if fs_resumed flash then 1 else 0;
     ts_status := esp_err_u32 result; ts_message := copy_text 97 txt |}.

Definition send_status (request : OtaTransfer) (phase : Z) (result : esp_err_t) (txt : bytes)
  : OW esp_err_t :=
  match message_operation request, message_artifact request with
  | Some operation, Some artifact_id =>
      ok ← io heap_alloc;
      if negb (ok : bool) then mret ESP_ERR_NO_MEM
      else
        v ← get_v3;
        io (mesh_v2_node_send_ota_v3_message (OtaMeshMessage_transfer (OtaTransfer_status
              (status_message operation artifact_id phase result txt (flash_status v)))))
  | _, _ => mret ESP_ERR_INVALID_ARG
  end.

Definition send_pending_boot_report : OW esp_err_t :=
  ready ← io mesh_v2_node_reliable_ready;
  if negb (ready : bool) then mret ESP_ERR_INVALID_STATE
  else
    identity ← io mesh_v2_node_fabric_identity;
    match identity with
    | inl err => mret err
    | inr (node_id, boot_session) =>
        ok ← io heap_alloc;
        if negb (ok : bool) then mret ESP_ERR_NO_MEM
        else
          report ← io (keemash_ota_v3_boot_report node_id boot_session);
          match report with
          | inl err => mret err
          | inr r => io (mesh_v2_node_send_ota_v3_message (OtaMeshMessage_boot_report r))
          end
    end.

(** ** One message

    A run ends, or it ends in [esp_restart], which does not return. *)

Inductive outcome := Continues | Restarts.

(** The delay before [esp_restart]. *)
Definition reboot_after_status : OW outcome :=
  v ← get_v3;
  let delay := if vc_reboot_delay_ms (v_config v) =? 0 then 1500
               else vc_reboot_delay_ms (v_config v) in
  io (vTaskDelay (pdMS_TO_TICKS delay)) ;;
  mret Restarts.

(** [(void)send_status(...)] *)
Definition answer (request : OtaTransfer) (phase : Z) (result : esp_err_t) (txt : bytes)
  : OW outcome :=
  _ ← send_status request phase result txt; mret Continues.

Definition is_query (t : OtaTransfer) : bool :=
  match t with OtaTransfer_query _ => true | _ => false end.
Definition is_commit (t : OtaTransfer) : bool :=
  match t with OtaTransfer_commit _ => true | _ => false end.
Definition is_abort (t : OtaTransfer) : bool :=
  match t with OtaTransfer_abort _ => true | _ => false end.

(** A verified partition: select it, say so, restart. *)
Definition activate_and_restart (transfer : OtaTransfer) : OW outcome :=
  err ← on_receiver ESP_ERR_INVALID_STATE (keemash_ota_v3_flash_receiver_activate preflight);
  if negb (err_eqb err ESP_OK)
  then answer transfer OTA_PHASE_FAILED err (esp_err_to_name err)
  else
    err ← send_status transfer OTA_PHASE_REBOOTING ESP_OK WorkerText.rebooting;
    if negb (err_eqb err ESP_OK) then mret Continues else reboot_after_status.

(** A query about a boot that is pending is answered with the report. *)
Definition query_reported (transfer : OtaTransfer) : OW bool :=
  if is_query transfer then
    err ← send_pending_boot_report; mret (err_eqb err ESP_OK)
  else mret false.

Definition announce_verifying (transfer : OtaTransfer) : OW unit :=
  when (is_commit transfer)
    (_ ← send_status transfer OTA_PHASE_VERIFYING ESP_OK WorkerText.verifying; mret tt).

Definition process_transfer (transfer : OtaTransfer) : OW outcome :=
  reported ← query_reported transfer;
  if (reported : bool) then mret Continues
  else
    announce_verifying transfer ;;
    '(err, verified) ← on_receiver (ESP_ERR_INVALID_ARG, None)
      (keemash_ota_v3_flash_receiver_handle_transfer (default [] esp_app_project)
         CONFIG_IDF_TARGET KEEMASH_MESH_CORE_VERSION KEEMASH_FABRIC_VERSION preflight transfer);
    if negb (err_eqb err ESP_OK)
    then answer transfer OTA_PHASE_FAILED err (esp_err_to_name err)
    else
      match verified with
      | Some _ => activate_and_restart transfer
      | None =>
          if is_abort transfer
          then answer transfer OTA_PHASE_ABORTED ESP_OK WorkerText.aborted
          else answer transfer OTA_PHASE_TRANSFERRING ESP_OK WorkerText.accepted
      end.

Definition process_message (message : OtaMeshMessage) : OW outcome :=
  match message with
  | OtaMeshMessage_boot_ack ack => _ ← io (keemash_ota_v3_boot_ack ack); mret Continues
  | OtaMeshMessage_transfer transfer => process_transfer transfer
  | _ => mret Continues
  end.

(** ** The worker *)

(** The ten minutes of silence, under the lock. *)
Definition drop_idle_transfer : OW unit :=
  v ← get_v3;
  now ← io xTaskGetTickCount;
  if u32 (now - v_last_tick v) <? pdMS_TO_TICKS OTA_V3_IDLE_TIMEOUT_MS then mret tt
  else
    taken ← io (mutex_take portMAX_DELAY);
    if negb (taken : bool) then mret tt
    else
      v ← get_v3;
      when (fs_active (flash_status v) || fs_verified (flash_status v))
        (_ ← on_receiver ESP_ERR_INVALID_STATE keemash_ota_v3_flash_receiver_abort_current;
         mret tt).

(** A round without an item. *)
Definition worker_timeout : OW outcome :=
  drop_idle_transfer ;;
  _ ← send_pending_boot_report;
  mret Continues.

(** A round with one. *)
Definition worker_item (item : bytes) : OW outcome :=
  ok ← io heap_alloc;
  if negb (ok : bool) then mret Continues
  else
    match keemash_ota_v3_decode_mesh_message item with
    | inl _ => mret Continues
    | inr message =>
        taken ← io (mutex_take portMAX_DELAY);
        if negb (taken : bool) then mret Continues
        else
          result ← process_message message;
          match result, message with
          | Continues, OtaMeshMessage_transfer _ =>
              now ← io xTaskGetTickCount;
              mod_v3 (fun v => v <| v_last_tick := now |>) ;;
              mret Continues
          | _, _ => mret result
          end
    end.

(** One pass of the loop: [xQueueReceive] yields the first item, or times out when
    there is none. *)
Definition ota_v3_worker : OW outcome :=
  v ← get_v3;
  match v_queue v with
  | Some (item :: queue) => mod_v3 (fun v => v <| v_queue := Some queue |>) ;; worker_item item
  | _ => worker_timeout
  end.

(** ** Starting, and the other tasks *)

(** Undoing the creation of the receiver and the lock. *)
Definition undo_start (err : esp_err_t) : OW esp_err_t :=
  v ← get_v3;
  match v_receiver v with
  | Some r => io (keemash_ota_v3_flash_receiver_destroy r)
  | None => mret tt
  end ;;
  mod_v3 (fun v => v <| v_receiver := None |>) ;;
  mod_v3 (fun v => v <| v_lock := false |>) ;;
  mret err.

(** The worker reads the clock before its first pass. *)
Definition create_worker : OW esp_err_t :=
  ok ← io task_create;
  if negb (ok : bool) then
    mod_v3 (fun v => v <| v_queue := None |>) ;; undo_start ESP_ERR_NO_MEM
  else
    mod_v3 (fun v => v <| v_worker := true |>) ;;
    now ← io xTaskGetTickCount;
    mod_v3 (fun v => v <| v_last_tick := now |>) ;;
    mret ESP_OK.

Definition keemash_mesh_ota_v3_receiver_start (config : keemash_mesh_ota_v3_config_t)
  : OW esp_err_t :=
  v ← get_v3;
  if negb (vc_preflight config) then mret ESP_ERR_INVALID_ARG
  else if v_worker v then mret ESP_OK
  else
    mod_v3 (fun v => v <| v_config := config |>) ;;
    ok ← io mutex_create;
    if negb (ok : bool) then mod_v3 (fun v => v <| v_lock := false |>) ;; mret ESP_ERR_NO_MEM
    else
      mod_v3 (fun v => v <| v_lock := true |>) ;;
      '(err, r) ← io keemash_ota_v3_flash_receiver_create;
      mod_v3 (fun v => v <| v_receiver := r |>) ;;
      if negb (err_eqb err ESP_OK) then mod_v3 (fun v => v <| v_lock := false |>) ;; mret err
      else
        ok ← io queue_create;
        if negb (ok : bool) then undo_start ESP_ERR_NO_MEM
        else mod_v3 (fun v => v <| v_queue := Some [] |>) ;; create_worker.

(** [xQueueSend] waits for room, but only so long; the wait is over when it
    returns. *)
Definition keemash_mesh_ota_v3_receiver_handle (payload : bytes) : OW esp_err_t :=
  if (blen payload =? 0) || (OtaMeshMessage_size <? blen payload)
  then mret ESP_ERR_INVALID_SIZE
  else
    v ← get_v3;
    match v_queue v with
    | Some queue =>
        if negb (v_worker v) then mret ESP_ERR_INVALID_STATE
        else if (length queue <? OTA_V3_QUEUE_LEN)%nat
        then mod_v3 (fun v => v <| v_queue := Some (queue ++ [payload]) |>) ;; mret ESP_OK
        else mret ESP_ERR_TIMEOUT
    | None => mret ESP_ERR_INVALID_STATE
    end.

Definition keemash_mesh_ota_v3_receiver_active : OW bool :=
  v ← get_v3;
  match v_receiver v with
  | Some _ =>
      if negb (v_lock v) then mret false
      else
        taken ← io (mutex_take 20);
        if negb (taken : bool) then mret true
        else mret (fs_active (flash_status v) || fs_verified (flash_status v))
  | None => mret false
  end.

End Worker.
