(* ===== verification/OtaWorkerInv.v ===== *)
(** * The OTA v3 worker: reachable states

    What holds of the worker's static variables and of the receiver behind them
    after any sequence of starts, queued payloads, passes of the worker and
    restarts of the node. *)

From S2P Require Import Prelude.
From S2P Require Import Words.
From S2P Require Import Esp.
From S2P Require Import Rtos.
From S2P Require Import OtaLib.
From S2P Require Import OtaTypes.
From S2P Require Import OtaV3.
From S2P Require Import OtaInflate.
From S2P Require Import OtaStream.
From S2P Require Import OtaCheckpoint.
From S2P Require Import OtaFlashEnv.
From S2P Require Import OtaFlash.
From S2P Require Import OtaFlashProps.
From S2P Require Import OtaBoot.
From S2P Require Import Fabric.
From S2P Require Import OtaWorker.
#[local] Open Scope Z_scope.

(** The calls around the worker leave images and partitions alone, and a decoded
    message holds what its C struct can hold. *)
Class WorkerLaws (W : Type) (E : FlashEnv W) (V : FlashView W E) (P : Nanopb)
  (N : WorkerEnv W) := {
  #[global] worker_rtos_laws :: RtosLaws W same_flash worker_rtos;
  send_v3_keeps : forall m, stable same_flash (mesh_v2_node_send_ota_v3_message m);
  v3_ready_keeps : stable same_flash mesh_v2_node_reliable_ready;
  identity_keeps : stable same_flash mesh_v2_node_fabric_identity;
  preflight_keeps : stable same_flash preflight;
  delay_keeps : forall n, stable same_flash (vTaskDelay n);
  v3_running_keeps : stable same_flash esp_ota_get_running_partition;
  v3_state_keeps : forall p s, stable same_flash (esp_ota_get_state_partition p s);
  v3_set_boot_keeps : forall p, stable same_flash (esp_ota_set_boot_partition p);
  decoded_typed : forall b t,
    pb_decode_mesh b = Some (OtaMeshMessage_transfer t) -> transfer_typed t }.

Section Inv.
Context {Cfg : OtaConfig} {D : Digest} {Key : Psa} {Pb : Nanopb} {Zl : Zlib} {W : Type}
  {Store : CheckpointEnv W} {Flash : FlashEnv W} {View : FlashView W Flash}
  {HD : DigestLaws D} {HP : NanopbLaws Pb} {HZ : ZlibLaws Zl}
  {HF : FlashLaws W Flash View Store} {Env : WorkerEnv W} {HW : WorkerLaws W Flash View Pb Env}.

Abbreviation receiver := keemash_ota_v3_flash_receiver (only parsing).
Abbreviation state := (ota_v3_worker_t * W)%type.

(** ** The flash under the worker's own calls *)

#[local] Hint Resolve alloc_keeps send_v3_keeps v3_ready_keeps identity_keeps preflight_keeps
  delay_keeps v3_running_keeps v3_state_keeps v3_set_boot_keeps : stable.
#[local] Hint Extern 1 (stable _ keemash_ota_v3_checkpoint_load) => apply load_keeps : stable.
#[local] Hint Extern 1 (stable _ keemash_ota_v3_checkpoint_clear) => apply clear_keeps : stable.
#[local] Hint Extern 1 (stable _ (save_terminal_checkpoint _ _)) =>
  apply save_terminal_keeps : stable.

Lemma boot_report_keeps node session : stable same_flash (keemash_ota_v3_boot_report node session).
Proof. unfold keemash_ota_v3_boot_report, report_state. stable_auto. Qed.
#[local] Hint Extern 1 (stable _ (keemash_ota_v3_boot_report _ _)) =>
  apply boot_report_keeps : stable.

Lemma boot_ack_keeps ack : stable same_flash (keemash_ota_v3_boot_ack ack).
Proof. unfold keemash_ota_v3_boot_ack. stable_auto. Qed.
#[local] Hint Resolve boot_ack_keeps : stable.

Lemma activate_keeps r w :
  same_flash w (keemash_ota_v3_flash_receiver_activate preflight (r, w)).2.2.
Proof.
  unfold keemash_ota_v3_flash_receiver_activate.
  destruct (fr_active r), (fr_verified r), (fr_partition r) as [p|]; try reflexivity.
  match goal with |- context [and_then ?m ?k w] =>
    assert (H : stable same_flash (and_then m k)) end.
  { unfold and_then. stable_auto. intros w1.
    destruct (esp_ota_set_boot_partition p w1) as [e w2] eqn:Eb.
    apply (stable_run _ _ _ _ (v3_set_boot_keeps p)) in Eb.
    destruct (err_eqb e ESP_OK); [done|].
    destruct (save_terminal_checkpoint r CHECKPOINT_VERIFIED w2) as [e2 w3] eqn:Es.
    apply (stable_run _ _ _ _ (save_terminal_keeps _ _)) in Es. by transitivity w2. }
  specialize (H w). destruct (and_then _ _ w) as [e w1]. exact H.
Qed.

(** ** The invariant *)

(** The receiver is in order and the queue within its length. *)
Definition parts_ok (s : state) : Prop :=
  (forall r, v_receiver s.1 = Some r -> flash_ok r s.2) /\
  (forall q, v_queue s.1 = Some q -> (length q <= OTA_V3_QUEUE_LEN)%nat).

(** The four objects exist together. *)
Definition started (v : ota_v3_worker_t) : Prop :=
  v_worker v = true /\ v_lock v = true /\ is_Some (v_receiver v) /\ is_Some (v_queue v).
Definition stopped (v : ota_v3_worker_t) : Prop :=
  v_worker v = false /\ v_lock v = false /\ v_receiver v = None /\ v_queue v = None.

Definition worker_ok (s : state) : Prop := parts_ok s /\ (started s.1 \/ stopped s.1).

(** Moves that keep the objects. *)
Definition same_objects (v v' : ota_v3_worker_t) : Prop :=
  v_worker v' = v_worker v /\ v_lock v' = v_lock v /\
  (v_receiver v' = None <-> v_receiver v = None) /\ (v_queue v' = None <-> v_queue v = None).

#[export] Instance same_objects_preorder : PreOrder same_objects.
Proof. split; [done|]. unfold same_objects. intros a b c. intuition congruence. Qed.

Lemma same_objects_ok v v' : same_objects v v' -> started v \/ stopped v -> started v' \/ stopped v'.
Proof.
  unfold same_objects, started, stopped. rewrite <- !not_eq_None_Some.
  intros (-> & -> & Hr & Hq) [(? & ? & ? & ?)|(? & ? & ? & ?)]; [left|right]; tauto.
Qed.

(** What a pass of the worker does to the state: the objects stay, and the parts
    stay in order. *)
Definition steady (s s' : state) : Prop := same_objects s.1 s'.1 /\ keeps parts_ok s s'.

#[export] Instance steady_preorder : PreOrder steady.
Proof.
  split; [intros s; split; reflexivity|].
  intros a b c [H1 H2] [H1' H2']. split; [by etransitivity|by etransitivity].
Qed.

Lemma steady_ok s s' : steady s s' -> worker_ok s -> worker_ok s'.
Proof. intros [Ho Hp] [H1 H2]. split; [by apply Hp|by eapply same_objects_ok]. Qed.

Lemma parts_same v w w' : same_flash w w' -> parts_ok (v, w) -> parts_ok (v, w').
Proof.
  intros Hs [H1 H2]. split; [|done]. intros r Hr. eapply flash_ok_same; [|done]. by apply H1.
Qed.

Lemma io_steady {A : Type} (m : ST W A) : stable same_flash m -> stable steady (io m).
Proof.
  intros H [v w]. unfold io. specialize (H w). destruct (m w) as [a w']. cbn in *.
  split; [reflexivity|]. intros Hp. by eapply parts_same.
Qed.

Lemma on_receiver_steady {A : Type} (null : A) m :
  (forall r w, flash_ok r w -> flash_ok (m (r, w)).2.1 (m (r, w)).2.2) ->
  stable steady (on_receiver null m).
Proof.
  intros H [v w]. unfold on_receiver. destruct (v_receiver v) as [r|] eqn:Er; [|reflexivity].
  specialize (H r w). destruct (m (r, w)) as [a [r' w']]. cbn in *. split.
  - split; [done|]. split; [done|]. split; [|done]. cbn. rewrite Er. split; congruence.
  - intros [H1 H2]. split; [|exact H2]. cbn. intros r0 [= <-]. apply H. by apply H1.
Qed.

Lemma mod_v3_steady f :
  (forall v, same_objects v (f v) /\ v_receiver (f v) = v_receiver v /\
     (forall q, v_queue (f v) = Some q -> exists q', v_queue v = Some q' /\
        (length q <= length q')%nat)) ->
  stable steady (mod_v3 f).
Proof.
  intros H [v w]. destruct (H v) as (H1 & H2 & H3). split; [done|].
  intros [Hr Hq]. split; cbn in *; [by rewrite H2|].
  intros q Hf. destruct (H3 q Hf) as (q' & Hq' & Hl). specialize (Hq q' Hq'). lia.
Qed.

Lemma stable_get_v3 (R : relation state) `{!PreOrder R} : stable R get_v3.
Proof. by apply stable_gets. Qed.

#[local] Hint Resolve io_steady : stable.
#[local] Hint Extern 1 (stable _ get_v3) => apply stable_get_v3; apply _ : stable.

(** ** A pass of the worker *)

Lemma send_status_steady t phase e txt : stable steady (send_status t phase e txt).
Proof. unfold send_status. stable_auto. Qed.
#[local] Hint Resolve send_status_steady : stable.

Lemma boot_status_steady : stable steady send_pending_boot_report.
Proof. unfold send_pending_boot_report. stable_auto. Qed.
#[local] Hint Resolve boot_status_steady : stable.

Lemma answer_steady t phase e txt : stable steady (answer t phase e txt).
Proof. unfold answer. stable_auto. Qed.
#[local] Hint Resolve answer_steady : stable.

Lemma activate_steady :
  stable steady (on_receiver ESP_ERR_INVALID_STATE
                   (keemash_ota_v3_flash_receiver_activate preflight)).
Proof.
  apply on_receiver_steady. intros r w Hok.
  destruct (keemash_ota_v3_flash_receiver_activate preflight (r, w)) as [e [r' w']] eqn:E.
  by apply activate_ok in E as [-> ?].
Qed.

Lemma abort_steady :
  stable steady (on_receiver ESP_ERR_INVALID_STATE keemash_ota_v3_flash_receiver_abort_current).
Proof.
  apply on_receiver_steady. intros r w Hok.
  destruct (keemash_ota_v3_flash_receiver_abort_current (r, w)) as [e [r' w']] eqn:E.
  by eapply abort_current_ok.
Qed.
#[local] Hint Resolve activate_steady abort_steady : stable.

Lemma process_transfer_steady t : transfer_typed t -> stable steady (process_transfer t).
Proof.
  intros Ht. unfold process_transfer, query_reported, announce_verifying,
    activate_and_restart, reboot_after_status. stable_auto.
  apply on_receiver_steady. intros r w Hok.
  match goal with |- context [?m (r, w)] => destruct (m (r, w)) as [x [r' w']] eqn:E end.
  by eapply handle_transfer_ok.
Qed.

Lemma process_message_steady m :
  (forall t, m = OtaMeshMessage_transfer t -> transfer_typed t) -> stable steady (process_message m).
Proof.
  intros Hm. destruct m as [|t|r|a]; unfold process_message; stable_auto.
  by apply process_transfer_steady, Hm.
Qed.

Lemma decode_mesh_typed b m t :
  keemash_ota_v3_decode_mesh_message b = inr m -> m = OtaMeshMessage_transfer t -> transfer_typed t.
Proof.
  intros H ->. unfold keemash_ota_v3_decode_mesh_message, decode_with in H. res_inv.
  by eapply decoded_typed.
Qed.

Lemma worker_item_steady item : stable steady (worker_item item).
Proof.
  unfold worker_item. stable_auto.
  - apply process_message_steady. intros t ->. by eapply decode_mesh_typed.
  - apply mod_v3_steady. intros v. split; [done|]. split; [done|]. intros q Hq. by exists q.
Qed.

Lemma worker_timeout_steady : stable steady worker_timeout.
Proof. unfold worker_timeout, drop_idle_transfer. stable_auto. Qed.

Lemma pop_steady v w item queue :
  v_queue v = Some (item :: queue) -> steady (v, w) (v <| v_queue := Some queue |>, w).
Proof.
  intros Hq. split.
  - split; [done|]. split; [done|]. split; [done|]. cbn. rewrite Hq. split; congruence.
  - intros [H1 H2]. split; [exact H1|]. cbn in *. intros q [= <-].
    specialize (H2 _ Hq). cbn in H2. lia.
Qed.

Lemma worker_steady : stable steady ota_v3_worker.
Proof.
  intros [v w]. unfold ota_v3_worker. rewrite bind_eq. cbn [get_v3 gets fst snd].
  destruct (v_queue v) as [[|item queue]|] eqn:Eq; try apply worker_timeout_steady.
  rewrite bind_eq. etransitivity; [by eapply (pop_steady v w)|]. apply worker_item_steady.
Qed.

End Inv.
