(* ===== verification/OtaWorkerProps.v ===== *)
(** * The OTA v3 worker: what it guarantees

    A restart happens only with a verified receiver, whose partition holds the signed
    image unless a checkpoint said so already; every request is
    answered for its own operation, a silent transfer is dropped after ten minutes
    and not before, and a start either creates everything or nothing.  The node of
    OtaFlashDemo with a worker is an instance. *)

From S2P Require Import Prelude.
From S2P Require Import Words.
From S2P Require Import Esp.
From S2P Require Import Rtos.
From S2P Require Import OtaLib.
From S2P Require Import OtaTypes.
From S2P Require Import OtaV3.
From S2P Require Import OtaInflate.
From S2P Require Import OtaStream.
From S2P Require Import OtaCheckpoint.
From S2P Require Import OtaFlashEnv.
From S2P Require Import OtaFlash.
From S2P Require Import OtaFlashProps.
From S2P Require Import OtaBoot.
From S2P Require Import Fabric.
From S2P Require Import OtaWorker.
From S2P Require Import OtaWorkerInv.
From S2P Require Import OtaDemo.
From S2P Require Import OtaFlashDemo.
#[local] Open Scope Z_scope.

Section Props.
Context {Cfg : OtaConfig} {D : Digest} {Key : Psa} {Pb : Nanopb} {Zl : Zlib} {W : Type}
  {Store : CheckpointEnv W} {Flash : FlashEnv W} {View : FlashView W Flash}
  {HD : DigestLaws D} {HP : NanopbLaws Pb} {HZ : ZlibLaws Zl}
  {HF : FlashLaws W Flash View Store} {Env : WorkerEnv W} {HW : WorkerLaws W Flash View Pb Env}.

Abbreviation receiver := keemash_ota_v3_flash_receiver (only parsing).
Abbreviation state := (ota_v3_worker_t * W)%type.

(** ** Starting *)

(** The same with the worker's own accesses and the codes of a start. *)
Ltac run :=
  unfold mod_v3, get_v3; exec;
  change (err_eqb ESP_OK ESP_OK) with true; change (err_eqb ESP_ERR_NO_MEM ESP_OK) with false;
  cbv beta iota zeta.

(** A start from the stopped state creates all four objects with an idle receiver
    and an empty queue, or none. *)
Lemma start_spec cfg v w :
  stopped v -> vc_preflight cfg = true ->
  let '(err, (v', w')) := keemash_mesh_ota_v3_receiver_start cfg (v, w) in
  v_config v' = cfg /\
  if err_eqb err ESP_OK
  then started v' /\ v_receiver v' = Some flash_receiver_zero /\ v_queue v' = Some []
  else stopped v'.
Proof.
  intros (Hw & Hl & Hr & Hq) Hp. unfold keemash_mesh_ota_v3_receiver_start, undo_start,
    create_worker, keemash_ota_v3_flash_receiver_create.
  run. rewrite Hp, Hw.
  destruct (mutex_create w) as [[|] w1]; run; [|by unfold stopped; cbn; auto].
  destruct (heap_alloc w1) as [[|] w2]; run; [|by unfold stopped; cbn; auto].
  destruct (queue_create w2) as [[|] w3]; run; [|by unfold stopped; cbn; auto].
  destruct (task_create w3) as [[|] w4]; run; [|by unfold stopped; cbn; auto].
  destruct (xTaskGetTickCount w4) as [now w5]. run. cbn. split; [done|].
  unfold started. cbn. split; [|done]. do 2 (split; [done|]). split; by eexists.
Qed.

Lemma start_keeps cfg s : worker_ok s -> worker_ok (keemash_mesh_ota_v3_receiver_start cfg s).2.
Proof.
  destruct s as [v w]. intros [[Hf Hq] [Hs|Hs]]; cbn [fst snd] in *.
  - destruct Hs as (Hw & Hs). unfold keemash_mesh_ota_v3_receiver_start. run. rewrite Hw.
    destruct (vc_preflight cfg); exact (conj (conj Hf Hq) (or_introl (conj Hw Hs))).
  - destruct (vc_preflight cfg) eqn:Ep.
    + pose proof (start_spec cfg v w Hs Ep) as H.
      destruct (keemash_mesh_ota_v3_receiver_start cfg (v, w)) as [err [v' w']].
      destruct H as [_ H]. destruct (err_eqb err ESP_OK).
      * destruct H as (H1 & H2 & H3). split; [|by left]. split; cbn in *.
        -- intros r Hr. rewrite H2 in Hr. injection Hr as <-. by apply fo_idle.
        -- intros q Hr. rewrite H3 in Hr. injection Hr as <-. cbn. lia.
      * split; [|by right]. destruct H as (_ & _ & H1 & H2). split; cbn; congruence.
    + unfold keemash_mesh_ota_v3_receiver_start. run. rewrite Ep.
      exact (conj (conj Hf Hq) (or_intror Hs)).
Qed.

Lemma handle_keeps payload s : worker_ok s -> worker_ok (keemash_mesh_ota_v3_receiver_handle payload s).2.
Proof.
  destruct s as [v w]. intros Hok. pose proof Hok as [[Hf Hq] Hs]. cbn [fst snd] in *. unfold keemash_mesh_ota_v3_receiver_handle.
  destruct (_ || _); [exact Hok|]. run.
  destruct (v_queue v) as [q|] eqn:Eq; [|exact Hok].
  destruct (v_worker v) eqn:Ew; [|exact Hok]. cbn [negb].
  destruct (length q <? OTA_V3_QUEUE_LEN)%nat eqn:El; [|exact Hok].
  apply Nat.ltb_lt in El. split.
  - split; [exact Hf|]. cbn. intros q' [= <-]. rewrite length_app. cbn. unfold OTA_V3_QUEUE_LEN in *. lia.
  - left. destruct Hs as [(H1 & H2 & H3 & H4)|(H1 & _)]; [|congruence].
    unfold started. cbn. rewrite Ew. do 3 (split; [done|]). by eexists.
Qed.

(** ** Reachable states *)

(** The calls of the other tasks, the worker's passes, the rest of the node, and
    the restarts, after which the static variables are zero and the flash is
    whatever the interrupted work has left. *)
Inductive worker_step : state -> state -> Prop :=
  | ws_start cfg s : worker_step s (keemash_mesh_ota_v3_receiver_start cfg s).2
  | ws_handle payload s : worker_step s (keemash_mesh_ota_v3_receiver_handle payload s).2
  | ws_active s : worker_step s (keemash_mesh_ota_v3_receiver_active s).2
  | ws_pass s s' : v_worker s.1 = true -> ota_v3_worker s = (Continues, s') -> worker_step s s'
  | ws_elsewhere v w w' : same_flash w w' -> worker_step (v, w) (v, w')
  | ws_reboot v w w' : worker_step (v, w) (ota_v3_worker_zero, w').

Lemma active_steady : stable steady keemash_mesh_ota_v3_receiver_active.
Proof.
  unfold keemash_mesh_ota_v3_receiver_active.
  refine (stable_bind _ _ _ (stable_gets _ _) _). intros v.
  destruct (v_receiver v); [|refine (stable_ret _ _)]. destruct (negb _); [refine (stable_ret _ _)|].
  refine (stable_bind _ _ _ (io_steady _ (mutex_take_keeps _)) _). intros t.
  destruct (negb t); refine (stable_ret _ _).
Qed.

Lemma worker_step_ok s s' : worker_step s s' -> worker_ok s -> worker_ok s'.
Proof.
  intros [cfg s0|payload s0|s0|s0 s0' Hw Hp|v w w' Hs|v w w'] Hok.
  - by apply start_keeps.
  - by apply handle_keeps.
  - eapply steady_ok; [apply active_steady|done].
  - eapply steady_ok; [|done]. pose proof (worker_steady s0) as H. by rewrite Hp in H.
  - destruct Hok as [Hp Ho]. split; [by eapply parts_same|done].
  - split; [by split|by right].
Qed.

Lemma run_ok w0 s : rtc worker_step (ota_v3_worker_zero, w0) s -> worker_ok s.
Proof.
  intros H. remember (ota_v3_worker_zero, w0) as s0 eqn:Es. assert (H0 : worker_ok s0).
  { subst s0. split; [by split|by right]. }
  clear Es. induction H as [|a b c Hs _ IH]; [done|]. by apply IH, (worker_step_ok a).
Qed.

(** At every moment the worker's objects (lock, receiver, queue, task) exist
    all together or not at all, at most two messages wait, and the receiver is idle
    and zeroed, or receives an authenticated transfer in step with the flash, or
    holds a verified one. *)
Theorem worker_states w0 v w :
  rtc worker_step (ota_v3_worker_zero, w0) (v, w) ->
  (started v \/ stopped v) /\
  (forall q, v_queue v = Some q -> (length q <= 2)%nat) /\
  (forall r, v_receiver v = Some r -> flash_ok r w).
Proof.
  intros H. destruct (run_ok _ _ H) as [[H1 H2] H3]. done.
Qed.

(** ** A restart *)

#[local] Hint Resolve alloc_keeps send_v3_keeps v3_ready_keeps delay_keeps : stable.
#[local] Hint Extern 1 (stable _ mesh_v2_node_fabric_identity) => apply identity_keeps : stable.
#[local] Hint Extern 1 (stable _ (io _)) => apply io_stable : stable.
#[local] Hint Extern 1 (stable _ (keemash_ota_v3_boot_report _ _)) =>
  apply boot_report_keeps : stable.
#[local] Hint Extern 1 (stable _ get_v3) => apply stable_gets; apply _ : stable.

(** Sending leaves the worker's variables alone. *)
Lemma send_status_outside t phase e txt : stable (outside same_flash) (send_status t phase e txt).
Proof. unfold send_status. stable_auto. Qed.

Lemma boot_status_outside : stable (outside same_flash) send_pending_boot_report.
Proof. unfold send_pending_boot_report. stable_auto. Qed.

Definition is_prepare (t : OtaTransfer) : bool :=
  match t with OtaTransfer_prepare _ => true | _ => false end.

(** A partition comes out of [handle_transfer] for a commit only. *)
Lemma handled_partition project chip core schema t r w p r1 w1 :
  flash_ok r w ->
  keemash_ota_v3_flash_receiver_handle_transfer project chip core schema preflight t (r, w)
    = ((ESP_OK, Some p), (r1, w1)) ->
  fr_verified r1 = true /\ fr_partition r1 = Some p /\ flash_ok r1 w1 /\ is_prepare t = false.
Proof.
  intros Hok H. destruct t as [|m|m|m|m|m|m];
    cbn [keemash_ota_v3_flash_receiver_handle_transfer] in H; try discriminate H;
    try (unfold no_partition in H; repeat match type of H with
         | (if ?b then _ else _) = _ => destruct b; [discriminate H|]
         end; rewrite bind_eq, ret_eq in H; discriminate H).
  - destruct (commit_mismatch r m); [discriminate H|]. destruct (fr_verified r) eqn:Ev.
    + injection H as Hp <- <-. done.
    + destruct (keemash_ota_v3_flash_receiver_verify (r, w)) as [[e|po] [r2 w2]] eqn:Evf;
        [by injection H|]. injection H as -> -> ->.
      destruct (verify_ok _ _ _ _ _ Hok Evf) as (H1 & H2 & _ & _ & q & Hq & Hp & _).
      injection Hq as <-. done.
Qed.

Lemma answer_continues t phase e txt s : (answer t phase e txt s).1 = Continues.
Proof. unfold answer. by rewrite bind_eq, ret_eq. Qed.

Lemma activate_restarts t v w r v' w' :
  v_receiver v = Some r -> flash_ok r w ->
  activate_and_restart t (v, w) = (Restarts, (v', w')) ->
  v_receiver v' = Some r /\ same_flash w w'.
Proof.
  intros Hr Hok H. unfold activate_and_restart in H. rewrite bind_eq in H.
  unfold on_receiver in H. rewrite Hr in H. pose proof (activate_keeps r w) as Hk.
  destruct (keemash_ota_v3_flash_receiver_activate preflight (r, w)) as [e [r1 w1]] eqn:Ea.
  apply activate_ok in Ea as [-> Hok1]; [|done]. cbn [fst snd] in *.
  destruct (negb (err_eqb e ESP_OK)).
  { apply (f_equal fst) in H. rewrite answer_continues in H. discriminate H. }
  rewrite bind_eq in H.
  pose proof (send_status_outside t OTA_PHASE_REBOOTING ESP_OK WorkerText.rebooting
                (v <| v_receiver := Some r |>, w1)) as Hs.
  destruct (send_status _ _ _ _ _) as [e2 [v2 w2]]. destruct Hs as [Hv Hw]. cbn [fst snd] in *.
  destruct (negb (err_eqb e2 ESP_OK)); [discriminate H|].
  unfold reboot_after_status in H. rewrite !bind_eq in H. cbn [get_v3 gets fst snd] in H.
  rewrite io_run, ret_eq in H. injection H as <- <-. subst v2. split; [done|].
  transitivity w1; [done|]. transitivity w2; [done|apply delay_keeps].
Qed.

(** The two sends before the receiver is asked leave it alone. *)
Lemma query_outside t : stable (outside same_flash) (query_reported t).
Proof. unfold query_reported. pose proof boot_status_outside. stable_auto. Qed.

Lemma announce_outside t : stable (outside same_flash) (announce_verifying t).
Proof. unfold announce_verifying. pose proof send_status_outside. stable_auto. Qed.

Lemma transfer_restarts t v w v' w' :
  parts_ok (v, w) -> transfer_typed t ->
  process_transfer t (v, w) = (Restarts, (v', w')) ->
  exists r p, v_receiver v' = Some r /\ fr_verified r = true /\ fr_partition r = Some p /\
    flash_ok r w' /\ is_prepare t = false.
Proof.
  intros [Hf _] Ht H. cbn [fst snd] in Hf. unfold process_transfer in H. rewrite bind_eq in H.
  pose proof (query_outside t (v, w)) as H1.
  destruct (query_reported t (v, w)) as [b [v1 w1]]. destruct H1 as [Hv1 Hw1]. cbn [fst snd] in *.
  subst v1. destruct b; [discriminate H|]. rewrite bind_eq in H.
  pose proof (announce_outside t (v, w1)) as H2.
  destruct (announce_verifying t (v, w1)) as [[] [v2 w2]]. destruct H2 as [Hv2 Hw2].
  cbn [fst snd] in *. subst v2. rewrite bind_eq in H. unfold on_receiver in H.
  destruct (v_receiver v) as [r|] eqn:Er.
  2:{ cbn [fst snd] in H. change (err_eqb ESP_ERR_INVALID_ARG ESP_OK) with false in H.
      apply (f_equal fst) in H. cbn [negb] in H. rewrite answer_continues in H. discriminate H. }
  assert (Hok : flash_ok r w2).
  { eapply flash_ok_same; [by apply Hf|]. by transitivity w1. }
  match type of H with context [keemash_ota_v3_flash_receiver_handle_transfer ?a ?b ?c ?d ?e ?g (r, w2)] =>
    destruct (keemash_ota_v3_flash_receiver_handle_transfer a b c d e g (r, w2))
      as [[err po] [r1 w3]] eqn:Eh end. cbn [fst snd] in H.
  destruct (err_eqb err ESP_OK) eqn:Ee; cbn [negb] in H.
  2:{ apply (f_equal fst) in H. rewrite answer_continues in H. discriminate H. }
  apply err_eqb_true in Ee as ->. destruct po as [p|].
  2:{ destruct (is_abort t); apply (f_equal fst) in H; rewrite answer_continues in H; discriminate H. }
  destruct (handled_partition _ _ _ _ _ _ _ _ _ _ Hok Eh) as (Hv & Hp & Hok1 & Hnp).
  apply (activate_restarts t _ _ r1) in H as [Hr' Hs]; [|done|done].
  exists r1, p. split; [done|]. split; [done|]. split; [done|].
  split; [by eapply flash_ok_same|done].
Qed.

Lemma verified_held r w : flash_ok r w -> fr_verified r = true -> held r.
Proof. by intros [-> |s p a rp full w0 Ha Hv Hh _|_ _ Hh _] Hv'; [|congruence|]. Qed.

(** ** What a verified receiver stands for

    The partition of a verified receiver holds the signed image, as long as no
    PREPARE has restored a checkpoint recorded as verified, whose flash is not read
    again. *)

Definition image_held (r : receiver) (w : W) : Prop :=
  fr_verified r = true ->
  exists p, fr_partition r = Some p /\ image_in_flash (fr_fields r) w p.

Definition sound (s : state) : Prop := forall r, v_receiver s.1 = Some r -> image_held r s.2.

Lemma image_held_same r w w' : same_flash w w' -> image_held r w -> image_held r w'.
Proof.
  intros Hs H Hv. destruct (H Hv) as (p & Hp & Hi). exists p. split; [done|].
  by eapply image_in_flash_same.
Qed.

Lemma unverified_held r w : fr_verified r = false -> image_held r w.
Proof. unfold image_held. congruence. Qed.

Lemma failed_held e r w e' r' w' : fail_receiver e (r, w) = (e', (r', w')) -> image_held r' w'.
Proof. intros H. pose proof (fail_spec e r w) as [_ Hz]. rewrite H in Hz. cbn in Hz. by subst r'. Qed.

Lemma write_held d off chunk final r w e r' w' :
  flash_ok r w -> image_held r w ->
  keemash_ota_v3_flash_receiver_write d off chunk final (r, w) = (e, (r', w')) -> image_held r' w'.
Proof.
  intros Hok Hi H. unfold keemash_ota_v3_flash_receiver_write in H.
  destruct (fr_active r) eqn:Ea; cbn [negb] in H; [|by injection H as _ <- <-].
  destruct (flash_ok_active _ _ Hok Ea) as (_ & Hv & _).
  destruct (keemash_ota_v3_stream_feed _ _ _ _ _ _) as [e1 [s1 w1]].
  destruct (negb _); [by eapply failed_held|].
  destruct (no_checkpoint_due _); [injection H as _ <- _; by apply unverified_held|].
  destruct (heap_alloc w1) as [[|] w2]; cbn [negb] in H; [|by eapply failed_held].
  destruct (save_progress _ w2) as [e2 w3]. destruct (negb _); [by eapply failed_held|].
  injection H as _ <- _. by apply unverified_held.
Qed.

Lemma verify_held r w x r' w' :
  flash_ok r w -> image_held r w ->
  keemash_ota_v3_flash_receiver_verify (r, w) = (x, (r', w')) -> image_held r' w'.
Proof.
  intros Hok Hi H. destruct x as [e|po].
  - unfold keemash_ota_v3_flash_receiver_verify in H.
    destruct (fr_active r); cbn [negb] in H; [|by injection H as _ <- <-].
    repeat match type of H with
    | (let '(_, _) := fail_receiver ?e ?q in _) = _ =>
        let E := fresh "E" in destruct (fail_receiver e q) as [? [? ?]] eqn:E;
        injection H as _ <- <-; by eapply failed_held
    | (let '(_, _) := ?m in _) = _ => destruct m
    | (if ?b then _ else _) = _ => destruct b
    | _ = (inl _, _) => discriminate H
    end.
  - destruct (verify_ok _ _ _ _ _ Hok H) as (_ & _ & Hf & _ & p & _ & Hp & Him).
    intros _. exists p. by rewrite Hf.
Qed.

Lemma abort_current_held r w e r' w' :
  image_held r w -> keemash_ota_v3_flash_receiver_abort_current (r, w) = (e, (r', w')) ->
  image_held r' w'.
Proof.
  intros Hi H. unfold keemash_ota_v3_flash_receiver_abort_current in H.
  destruct (_ && _); [by injection H as _ <- <-|].
  destruct (keemash_ota_v3_checkpoint_clear w) as [e1 w1] eqn:Ec.
  apply (stable_run _ _ _ _ clear_keeps) in Ec.
  destruct (negb _); [injection H as _ <- <-; by eapply image_held_same|].
  pose proof (reset_zero r w1) as Hz. destruct (reset_receiver (r, w1)) as [[] [r2 w2]].
  injection H as _ <- _. cbn in Hz. by subst r2.
Qed.

Lemma abort_held op art r w e r' w' :
  image_held r w -> keemash_ota_v3_flash_receiver_abort op art (r, w) = (e, (r', w')) ->
  image_held r' w'.
Proof.
  intros Hi H. unfold keemash_ota_v3_flash_receiver_abort in H.
  destruct (_ && _) in H; [by injection H as _ <- <-|].
  destruct (_ && _) in H; [|by eapply abort_current_held].
  unfold and_then in H. rewrite bind_eq in H. unfold world in H.
  destruct (match_checkpoint _ _ _ w) as [e1 w1] eqn:Em.
  apply (stable_run _ _ _ _ (match_checkpoint_keeps _ _ _)) in Em. cbn [fst snd] in H.
  apply (image_held_same _ _ w1) in Hi; [|done].
  destruct (err_eqb e1 ESP_OK); [by eapply abort_current_held|by injection H as _ <- <-].
Qed.

(** Every request keeps the image, a PREPARE only if it restores nothing. *)
Lemma handled_held project chip core schema t r w x r' w' :
  flash_ok r w -> image_held r w ->
  keemash_ota_v3_flash_receiver_handle_transfer project chip core schema preflight t (r, w)
    = (x, (r', w')) ->
  image_held r' w' \/ is_prepare t = true /\ fr_verified r = false.
Proof.
  intros Hok Hi H. destruct t as [|m|m|m|m|m|m];
    cbn [keemash_ota_v3_flash_receiver_handle_transfer] in H;
    try (left; by injection H as _ <- <-).
  - destruct (fr_verified r) eqn:Ev; [left|by right].
    destruct (prepare_malformed m); [by injection H as _ <- <-|].
    unfold no_partition in H. rewrite bind_eq, ret_eq in H.
    unfold keemash_ota_v3_flash_receiver_prepare in H. rewrite Ev, orb_true_r in H.
    destruct (_ || _) in H; by injection H as _ <- <-.
  - left. destruct (_ || _) in H; [by injection H as _ <- <-|].
    unfold no_partition in H. rewrite bind_eq, ret_eq in H. injection H as _ H.
    eapply (write_held _ _ _ _ r w _ r' w' Hok Hi). by rewrite <- H, <- surjective_pairing.
  - left. destruct (commit_mismatch r m); [by injection H as _ <- <-|].
    destruct (fr_verified r); [by injection H as _ <- <-|].
    destruct (keemash_ota_v3_flash_receiver_verify (r, w)) as [y [r1 w1]] eqn:Ev.
    apply verify_held in Ev; [|done|done]. destruct y; by injection H as _ <- <-.
  - left. destruct (_ || _) in H; [by injection H as _ <- <-|].
    unfold no_partition in H. rewrite bind_eq, ret_eq in H. injection H as _ H.
    eapply (abort_held _ _ r w _ r' w' Hi). by rewrite <- H, <- surjective_pairing.
  - left. destruct (negb _) in H; [by injection H as _ <- <-|].
    destruct (matching_transfer _ _ _); [by injection H as _ <- <-|].
    unfold no_partition in H. rewrite bind_eq, ret_eq in H. unfold world in H.
    destruct (match_persisted_transfer _ _ w) as [e1 w1] eqn:Em. injection H as _ <- <-.
    eapply image_held_same; [|exact Hi]. eapply stable_run; [|exact Em].
    unfold match_persisted_transfer. destruct (negb _); [apply stable_ret, _|].
    apply match_checkpoint_keeps.
Qed.

(** *** One pass *)

(** The parts are in order, the image is held and the receiver has [P]. *)
Definition good (P : receiver -> Prop) (s : state) : Prop :=
  parts_ok s /\ forall r, v_receiver s.1 = Some r -> image_held r s.2 /\ P r.

Lemma good_outside P s s' : outside same_flash s s' -> keeps (good P) s s'.
Proof.
  destruct s as [v w], s' as [v' w']. intros [Hv Hw] [Hp Hg]. cbn [fst snd] in *. subst v'.
  split; [by eapply parts_same|]. intros r Hr. destruct (Hg r Hr) as [Hi Hpp].
  split; [by eapply image_held_same|done].
Qed.

Lemma outside_good {A : Type} P (m : ST state A) :
  stable (outside same_flash) m -> stable (keeps (good P)) m.
Proof. intros H s. by apply good_outside. Qed.

Lemma on_receiver_good {A : Type} P (null : A) m :
  (forall r w x r' w', flash_ok r w -> image_held r w -> P r -> m (r, w) = (x, (r', w')) ->
     flash_ok r' w' /\ image_held r' w' /\ P r') ->
  stable (keeps (good P)) (on_receiver null m).
Proof.
  intros H [v w] [[Hf Hq] Hg]. unfold on_receiver. cbn [fst snd] in *.
  destruct (v_receiver v) as [r|] eqn:Er;
    [|split; [by split; cbn [fst snd]; rewrite ?Er|intros r Hr; cbn in Hr; congruence]].
  destruct (Hg r eq_refl) as [Hi Hpp]. destruct (m (r, w)) as [a [r' w']] eqn:Em.
  destruct (H _ _ _ _ _ (Hf r eq_refl) Hi Hpp Em) as (H1 & H2 & H3).
  split; [split|]; cbn; [by intros r0 [= <-]|exact Hq|by intros r0 [= <-]].
Qed.

Lemma answer_outside t phase e txt : stable (outside same_flash) (answer t phase e txt).
Proof. unfold answer. pose proof send_status_outside. stable_auto. Qed.

Lemma activate_good P :
  stable (keeps (good P)) (on_receiver ESP_ERR_INVALID_STATE
                             (keemash_ota_v3_flash_receiver_activate preflight)).
Proof.
  apply on_receiver_good. intros r w x r' w' Hok Hi Hpp H.
  pose proof (activate_keeps r w) as Hk. rewrite H in Hk. cbn in Hk.
  apply activate_ok in H as [-> Hok']; [|done].
  split; [done|]. split; [by eapply image_held_same|done].
Qed.

Lemma restart_outside t P : stable (keeps (good P)) (activate_and_restart t).
Proof.
  unfold activate_and_restart. refine (stable_bind _ _ _ (activate_good P) _). intros e.
  apply outside_good. pose proof send_status_outside. pose proof answer_outside.
  unfold reboot_after_status. stable_auto.
Qed.

(** The requests that keep the image and [P]. *)
Definition keeps_image (P : receiver -> Prop) (t : OtaTransfer) : Prop :=
  transfer_typed t /\
  forall r w x r' w', flash_ok r w -> image_held r w -> P r ->
    keemash_ota_v3_flash_receiver_handle_transfer (default [] esp_app_project)
      CONFIG_IDF_TARGET KEEMASH_MESH_CORE_VERSION KEEMASH_FABRIC_VERSION preflight t (r, w)
      = (x, (r', w')) -> image_held r' w' /\ P r'.

Lemma process_good P t : keeps_image P t -> stable (keeps (good P)) (process_transfer t).
Proof.
  intros [Ht Hk]. unfold process_transfer.
  refine (stable_bind _ _ _ (outside_good P _ (query_outside t)) _). intros [|].
  { apply outside_good, stable_ret, _. }
  refine (stable_bind _ _ _ (outside_good P _ (announce_outside t)) _). intros [].
  refine (stable_bind _ _ _ (on_receiver_good P _ _ _) _).
  - intros r w x r' w' Hok Hi Hpp H. split; [by eapply handle_transfer_ok|by eapply Hk].
  - intros [e po]. destruct (negb _); [apply outside_good, answer_outside|].
    destruct po; [apply restart_outside|].
    destruct (is_abort t); apply outside_good, answer_outside.
Qed.

Lemma boot_ack_outside a :
  stable (outside same_flash) (_ ← io (X := ota_v3_worker_t) (keemash_ota_v3_boot_ack a); mret Continues).
Proof. pose proof boot_ack_keeps. stable_auto. Qed.

Lemma item_good P item :
  (forall t, keemash_ota_v3_decode_mesh_message item = inr (OtaMeshMessage_transfer t) ->
     keeps_image P t) ->
  stable (keeps (good P)) (worker_item item).
Proof.
  intros Hk. unfold worker_item.
  refine (stable_bind _ _ _ (outside_good P _ (io_stable _ _ alloc_keeps)) _). intros ok.
  destruct (negb ok); [apply outside_good, stable_ret, _|].
  destruct (keemash_ota_v3_decode_mesh_message item) as [e|m] eqn:Ed;
    [apply outside_good, stable_ret, _|].
  refine (stable_bind _ _ _ (outside_good P _ (io_stable _ _ (mutex_take_keeps _))) _).
  intros taken. destruct (negb taken); [apply outside_good, stable_ret, _|].
  refine (stable_bind _ _ _ _ _).
  - destruct m as [|t|r|a]; cbn [process_message]; [apply outside_good, stable_ret, _| |
      apply outside_good, stable_ret, _|apply outside_good, boot_ack_outside].
    by apply process_good, Hk.
  - intros [|]; [|destruct m; apply outside_good, stable_ret, _].
    destruct m; try (apply outside_good, stable_ret, _).
    refine (stable_bind _ _ _ (outside_good P _ (io_stable _ _ tick_keeps)) _). intros now.
    refine (stable_bind _ _ _ _ _); [|intros []; apply outside_good, stable_ret, _].
    intros [v w] [[Hf Hq] Hg]. by split; [split|].
Qed.

Definition any_receiver (_ : receiver) : Prop := True.

Lemma timeout_good : stable (keeps (good any_receiver)) worker_timeout.
Proof.
  assert (Habort : stable (keeps (good any_receiver))
            (on_receiver ESP_ERR_INVALID_STATE keemash_ota_v3_flash_receiver_abort_current)).
  { apply on_receiver_good. intros r w x r' w' Hok Hi _ H.
    split; [by eapply abort_current_ok|]. split; [by eapply abort_current_held|done]. }
  pose proof (outside_good any_receiver _ boot_status_outside) as Hboot.
  assert (Htick : stable (keeps (good any_receiver)) (io xTaskGetTickCount))
    by (apply outside_good, io_stable, tick_keeps).
  assert (Hlock : forall t, stable (keeps (good any_receiver)) (io (mutex_take t)))
    by (intros t; apply outside_good, io_stable, mutex_take_keeps).
  unfold worker_timeout, drop_idle_transfer. stable_auto.
Qed.

(** The pass [s] to [s'] restores a checkpoint that was recorded as verified: a
    PREPARE turns an unverified receiver into a verified one. *)
Definition prepare_next (s : state) : Prop :=
  exists item queue m, v_queue s.1 = Some (item :: queue) /\
    keemash_ota_v3_decode_mesh_message item
      = inr (OtaMeshMessage_transfer (OtaTransfer_prepare m)).

Definition unverified (s : state) : Prop :=
  forall r, v_receiver s.1 = Some r -> fr_verified r = false.

#[local] Instance unverified_dec s : Decision (unverified s).
Proof.
  unfold unverified. destruct (v_receiver s.1) as [r|]; [|by left].
  destruct (fr_verified r) eqn:E; [right|left].
  - intros H. specialize (H r eq_refl). congruence.
  - by intros r0 [= <-].
Qed.

Definition prepare_item (item : bytes) : Prop :=
  match keemash_ota_v3_decode_mesh_message item with
  | inr (OtaMeshMessage_transfer (OtaTransfer_prepare _)) => True
  | _ => False
  end.

#[local] Instance prepare_item_dec item : Decision (prepare_item item).
Proof.
  unfold prepare_item. repeat case_match; first [by left|by right; intros []].
Qed.

Lemma prepare_item_next v w item queue :
  v_queue v = Some (item :: queue) -> prepare_item item -> prepare_next (v, w).
Proof.
  unfold prepare_item. intros Hq H.
  destruct (keemash_ota_v3_decode_mesh_message item) as [e|[|t|x|x]] eqn:Ed; try done.
  destruct t as [|m|m|m|m|m|m]; try done. by exists item, queue, m.
Qed.

(** A verified receiver refuses a PREPARE. *)
Lemma verified_prepare item :
  prepare_item item -> forall t,
  keemash_ota_v3_decode_mesh_message item = inr (OtaMeshMessage_transfer t) ->
  forall r w x r' w', flash_ok r w -> image_held r w -> fr_verified r = true ->
    keemash_ota_v3_flash_receiver_handle_transfer (default [] esp_app_project)
      CONFIG_IDF_TARGET KEEMASH_MESH_CORE_VERSION KEEMASH_FABRIC_VERSION preflight t (r, w)
      = (x, (r', w')) -> image_held r' w' /\ fr_verified r' = true.
Proof.
  unfold prepare_item. intros Hp t Ht r w x r' w' _ Hi Ev H. rewrite Ht in Hp.
  destruct t as [|m|m|m|m|m|m]; try done.
  cbn [keemash_ota_v3_flash_receiver_handle_transfer] in H.
  destruct (prepare_malformed m); [by injection H as _ <- <-|].
  unfold no_partition in H. rewrite bind_eq, ret_eq in H.
  unfold keemash_ota_v3_flash_receiver_prepare in H. rewrite Ev, orb_true_r in H.
  destruct (_ || _) in H; by injection H as _ <- <-.
Qed.

Definition restores (s s' : state) : Prop :=
  prepare_next s /\ unverified s /\ ~ unverified s'.

Lemma unverified_sound s : unverified s -> sound s.
Proof. intros H r Hr. apply unverified_held. by apply H. Qed.

Lemma pass_sound s o s' :
  parts_ok s -> sound s -> ota_v3_worker s = (o, s') -> ~ restores s s' -> sound s'.
Proof.
  destruct s as [v w]. intros Hp Hs H Hn. unfold ota_v3_worker in H. rewrite bind_eq in H.
  cbn [get_v3 gets fst snd] in H.
  assert (Hg : good any_receiver (v, w)) by (split; [done|]; intros r Hr; by split; [apply Hs|]).
  assert (Htm : worker_timeout (v, w) = (o, s') -> sound s').
  { intros Ht. pose proof (timeout_good (v, w) Hg) as [_ Hg']. rewrite Ht in Hg'.
    intros r Hr. by apply Hg'. }
  destruct (v_queue v) as [[|item queue]|] eqn:Eq; [by apply Htm| |by apply Htm]. clear Htm Hg.
  rewrite bind_eq in H. cbn [mod_v3 modify fst snd] in H.
  set (s1 := (v <| v_queue := Some queue |>, w)) in H.
  assert (Hp1 : parts_ok s1) by (by apply (pop_steady v w item queue Eq)).
  assert (Hend : forall P : receiver -> Prop, (forall r, v_receiver v = Some r -> P r) ->
    (forall t, keemash_ota_v3_decode_mesh_message item = inr (OtaMeshMessage_transfer t) ->
       forall r w x r' w', flash_ok r w -> image_held r w -> P r ->
       keemash_ota_v3_flash_receiver_handle_transfer (default [] esp_app_project)
         CONFIG_IDF_TARGET KEEMASH_MESH_CORE_VERSION KEEMASH_FABRIC_VERSION preflight t (r, w)
         = (x, (r', w')) -> image_held r' w' /\ P r') -> sound s').
  { intros P Hpp Hk. assert (Hst : stable (keeps (good P)) (worker_item item)).
    { apply item_good. intros t Ht. split; [by eapply decode_mesh_typed|by apply Hk]. }
    assert (Hg : good P s1) by (split; [done|]; intros r Hr; by split; [apply Hs|apply Hpp]).
    specialize (Hst s1 Hg). rewrite H in Hst. intros r Hr. by apply (proj2 Hst). }
  destruct (decide (prepare_item item)) as [Hprep|Hprep].
  2:{ apply (Hend any_receiver); [done|]. intros t Ht r w1 x r' w2 Hok Hi _ Hh.
      destruct (handled_held _ _ _ _ _ _ _ _ _ _ Hok Hi Hh) as [?|[Hb _]]; [done|].
      exfalso. apply Hprep. unfold prepare_item. rewrite Ht. by destruct t. }
  destruct (v_receiver v) as [r|] eqn:Er; [destruct (fr_verified r) eqn:Ev|].
  - apply (Hend (fun x => fr_verified x = true)); [by intros r0 [= <-]|].
    by apply verified_prepare.
  - destruct (decide (unverified s')) as [Hu|Hu]; [by apply unverified_sound|].
    exfalso. apply Hn. split; [by apply (prepare_item_next v w item queue)|].
    split; [|done]. cbn. intros r0 Hr0. cbn in Hr0. congruence.
  - apply (Hend (fun x => fr_verified x = true)); [done|]. by apply verified_prepare.
Qed.

(** *** Every step *)

(** A step that restores no verified checkpoint. *)
Definition clean_step (s s' : state) : Prop := worker_step s s' /\ ~ restores s s'.

Lemma sound_outside s s' : outside same_flash s s' -> sound s -> sound s'.
Proof.
  destruct s as [v w], s' as [v' w']. intros [Hv Hw] H. cbn [fst snd] in *. subst v'.
  intros r Hr. by eapply image_held_same, H.
Qed.

Lemma active_outside : stable (outside same_flash) keemash_mesh_ota_v3_receiver_active.
Proof.
  unfold keemash_mesh_ota_v3_receiver_active.
  refine (stable_bind _ _ _ (stable_gets _ _) _). intros v.
  destruct (v_receiver v); [|refine (stable_ret _ _)]. destruct (negb _); [refine (stable_ret _ _)|].
  refine (stable_bind _ _ _ (io_stable _ _ (mutex_take_keeps _)) _). intros t.
  destruct (negb t); refine (stable_ret _ _).
Qed.

Lemma start_sound cfg s :
  worker_ok s -> sound s -> sound (keemash_mesh_ota_v3_receiver_start cfg s).2.
Proof.
  destruct s as [v w]. intros [_ Hs] H. cbn [fst snd] in *.
  destruct Hs as [(Hw & _)|Hs]; [|destruct (vc_preflight cfg) eqn:Ep].
  - unfold keemash_mesh_ota_v3_receiver_start. run. rewrite Hw. by destruct (vc_preflight cfg).
  - pose proof (start_spec cfg v w Hs Ep) as Hx.
    destruct (keemash_mesh_ota_v3_receiver_start cfg (v, w)) as [err [v' w']].
    destruct Hx as [_ Hx]. intros r Hr. cbn in Hr. destruct (err_eqb err ESP_OK).
    + destruct Hx as (_ & Hz & _). rewrite Hz in Hr. by injection Hr as <-.
    + destruct Hx as (_ & _ & Hz & _). congruence.
  - unfold keemash_mesh_ota_v3_receiver_start. run. by rewrite Ep.
Qed.

Lemma handle_sound payload s :
  sound s -> sound (keemash_mesh_ota_v3_receiver_handle payload s).2.
Proof.
  destruct s as [v w]. intros H. unfold keemash_mesh_ota_v3_receiver_handle.
  destruct (_ || _); [exact H|]. run. destruct (v_queue v); [|exact H].
  destruct (v_worker v); [|exact H]. cbn [negb]. destruct (_ <? _)%nat; exact H.
Qed.

Lemma step_sound s s' : worker_ok s -> clean_step s s' -> sound s -> sound s'.
Proof.
  intros Hok [Hst Hn] H. destruct Hst as [cfg s0|payload s0|s0|s0 s0' Hw Hp|v w w' Hs|v w w'].
  - by apply start_sound.
  - by apply handle_sound.
  - by eapply sound_outside; [apply active_outside|].
  - eapply pass_sound; [apply Hok|exact H|exact Hp|exact Hn].
  - eapply sound_outside; [|exact H]. done.
  - done.
Qed.

Lemma clean_run_sound s s' : worker_ok s -> sound s -> rtc clean_step s s' -> sound s'.
Proof.
  intros Hok Hs H. induction H as [|a b c Hc _ IH]; [done|].
  apply IH; [by eapply worker_step_ok; [apply Hc|]|by eapply step_sound].
Qed.

(** A restart comes of a pass that handled a transfer request other than PREPARE. *)
Lemma restart_item v w v' w' :
  worker_ok (v, w) -> ota_v3_worker (v, w) = (Restarts, (v', w')) ->
  ~ prepare_next (v, w) /\
  exists r p, v_receiver v' = Some r /\ fr_verified r = true /\ fr_partition r = Some p /\
    flash_ok r w'.
Proof.
  intros [[Hf Hq] _] H. cbn [fst snd] in Hf, Hq.
  unfold ota_v3_worker in H. rewrite bind_eq in H. cbn [get_v3 gets fst snd] in H.
  assert (Ht : forall s, (worker_timeout s).1 = Continues)
    by (intros s; unfold worker_timeout; by rewrite !bind_eq).
  destruct (v_queue v) as [[|item queue]|] eqn:Eq;
    [apply (f_equal fst) in H; by rewrite Ht in H| |apply (f_equal fst) in H; by rewrite Ht in H].
  rewrite bind_eq in H. cbn [mod_v3 modify fst snd] in H. unfold worker_item in H.
  rewrite bind_eq, io_run in H. cbn [fst snd] in H.
  destruct (negb _); [discriminate H|].
  destruct (keemash_ota_v3_decode_mesh_message item) as [e|m] eqn:Ed; [discriminate H|].
  rewrite bind_eq, io_run in H. cbn [fst snd] in H. destruct (negb _); [discriminate H|].
  set (v1 := v <| v_queue := Some queue |>) in H.
  match type of H with context [mutex_take portMAX_DELAY ?x] =>
    set (w1 := (mutex_take portMAX_DELAY x).2) in H end.
  assert (Hs : same_flash w w1).
  { transitivity (heap_alloc w).2; [apply alloc_keeps|apply mutex_take_keeps]. }
  assert (Hp : parts_ok (v1, w1)).
  { eapply parts_same; [exact Hs|]. split; [exact Hf|]. cbn. intros q [= <-].
    specialize (Hq _ eq_refl). cbn in Hq. unfold OTA_V3_QUEUE_LEN in *. lia. }
  rewrite bind_eq in H. destruct m as [|t|r|a]; try discriminate H.
  - cbn [process_message] in H. destruct (process_transfer t (v1, w1)) as [o [v2 w2]] eqn:Et.
    destruct o; cbn [fst snd] in H; [rewrite !bind_eq in H; discriminate H|].
    injection H as <- <-.
    apply transfer_restarts in Et as (r & p & H1 & H2 & H3 & H4 & H5);
      [|done|by eapply decode_mesh_typed].
    split; [|by exists r, p]. intros (i & q & mp & Hi & Hd). cbn in Hi.
    rewrite Eq in Hi. injection Hi as <- <-. rewrite Ed in Hd. injection Hd as ->. done.
  - cbn [process_message] in H. rewrite bind_eq in H. discriminate H.
Qed.

(** C38: the node restarts only into a verified image.  When a pass of the
    worker ends in a restart, the receiver holds an authenticated transfer that is
    verified.  And if at some moment of the run it held nothing verified, and since then
    no PREPARE has restored a checkpoint that was recorded as verified (whose flash is
    not read again), then its partition contains the signed image, byte for byte. *)
Theorem restart_verified w0 v w v' w' :
  rtc worker_step (ota_v3_worker_zero, w0) (v, w) ->
  ota_v3_worker (v, w) = (Restarts, (v', w')) ->
  exists r p, v_receiver v' = Some r /\ fr_verified r = true /\ fr_partition r = Some p /\
    keemash_ota_v3_verify_signed_fields (used_fields r) (fr_signature r) = inr (fr_fields r) /\
    (forall s, rtc worker_step (ota_v3_worker_zero, w0) s -> unverified s ->
       rtc clean_step s (v, w) -> image_in_flash (fr_fields r) w' p).
Proof.
  intros Hreach H. pose proof (run_ok _ _ Hreach) as Hok.
  destruct (restart_item _ _ _ _ Hok H) as (Hnp & r & p & Hr & Hv & Hp & Hfl).
  exists r, p. split; [done|]. split; [done|]. split; [done|].
  split; [by apply hd_verified, (verified_held r w')|]. intros s Hs Hu Hc.
  assert (Hsd : sound (v, w))
    by (eapply clean_run_sound; [by eapply run_ok|by apply unverified_sound|done]).
  assert (Hsd' : sound (v', w'))
    by (eapply pass_sound; [apply Hok|exact Hsd|exact H|by intros [? _]]).
  destruct (Hsd' r Hr Hv) as (p' & Hp' & Hi). cbn in Hi. congruence.
Qed.

(** ** Answers *)

(** What a request is answered with: its own identity, and where the receiver
    stands. *)
Definition answered (t : OtaTransfer) (s' : state) : Prop :=
  exists phase err txt s1,
    s' = (send_status t phase err txt s1).2 /\ s'.1 = s1.1 /\
    (phase = OTA_PHASE_FAILED <-> err <> ESP_OK) /\
    (phase = OTA_PHASE_ABORTED -> is_abort t = true) /\
    (forall op art, message_operation t = Some op -> message_artifact t = Some art ->
       (heap_alloc s1.2).1 = true ->
       s'.2 = (mesh_v2_node_send_ota_v3_message (OtaMeshMessage_transfer (OtaTransfer_status
                 (status_message op art phase err txt (flash_status s'.1))))
                 (heap_alloc s1.2).2).2).

Lemma answered_by t phase err txt s1 :
  (phase = OTA_PHASE_FAILED <-> err <> ESP_OK) ->
  (phase = OTA_PHASE_ABORTED -> is_abort t = true) ->
  answered t (send_status t phase err txt s1).2.
Proof.
  intros He Ha. exists phase, err, txt, s1. split; [done|].
  pose proof (send_status_outside t phase err txt s1) as [Hv _].
  split; [exact Hv|]. split; [done|]. split; [done|].
  intros op art Hop Hart Hal. rewrite Hv. destruct s1 as [v w]. unfold send_status.
  rewrite Hop, Hart, bind_eq, io_run. cbn [fst snd] in *. rewrite Hal. cbn [negb].
  rewrite bind_eq. cbn [get_v3 gets fst snd]. by rewrite io_run.
Qed.

Lemma answered_answer t phase err txt s1 :
  (phase = OTA_PHASE_FAILED <-> err <> ESP_OK) ->
  (phase = OTA_PHASE_ABORTED -> is_abort t = true) ->
  answered t (answer t phase err txt s1).2.
Proof. intros. unfold answer. rewrite bind_eq, ret_eq. by apply answered_by. Qed.

(** Every transfer request is answered.  Unless the node restarts or a
    query was answered with a boot report, the last thing done for a request is a
    status for its own operation and artifact, with FAILED exactly when the
    receiver refused it and ABORTED only for an abort, and with the offsets the
    receiver has at that moment. *)
Theorem request_answered t s s' :
  (query_reported t s).1 = false ->
  process_transfer t s = (Continues, s') -> answered t s'.
Proof.
  intros Hq H. unfold process_transfer in H. rewrite bind_eq, Hq in H.
  rewrite bind_eq in H. set (s1 := (announce_verifying t _).2) in H. clearbody s1.
  rewrite bind_eq in H. destruct (on_receiver _ _ s1) as [[err po] s2]. cbn [fst snd] in H.
  destruct (err_eqb err ESP_OK) eqn:Ee; cbn [negb] in H.
  2:{ apply err_eqb_false in Ee. apply (f_equal snd) in H. cbn [snd] in H. subst s'.
      by apply answered_answer. }
  destruct po as [p|].
  - unfold activate_and_restart in H. rewrite bind_eq in H.
    destruct (on_receiver _ _ s2) as [e2 s3]. cbn [fst snd] in H.
    destruct (err_eqb e2 ESP_OK) eqn:Ee2; cbn [negb] in H.
    2:{ apply err_eqb_false in Ee2. apply (f_equal snd) in H. cbn [snd] in H. subst s'.
        by apply answered_answer. }
    rewrite bind_eq in H.
    destruct (negb _); [|unfold reboot_after_status in H; rewrite !bind_eq in H; discriminate H].
    apply (f_equal snd) in H. cbn [snd] in H. rewrite ret_eq in H. cbn [snd] in H. subst s'.
    by apply answered_by.
  - destruct (is_abort t) eqn:Et; apply (f_equal snd) in H; cbn [snd] in H; subst s';
      by apply answered_answer.
Qed.

(** ** Silence *)

(** A silent transfer is dropped.  In a pass that finds no message, when
    the last transfer message is ten minutes old or older and a transfer is under
    way or verified, the receiver is idle and zeroed afterwards (unless the
    checkpoint could not be cleared, and then it is as before); a younger one, and
    an idle receiver, are left alone. *)
Theorem idle_exact v w r :
  v_queue v = Some [] -> v_receiver v = Some r ->
  let now := (xTaskGetTickCount w).1 in
  let w1 := (xTaskGetTickCount w).2 in
  let w2 := (mutex_take portMAX_DELAY w1).2 in
  (mutex_take portMAX_DELAY w1).1 = true ->
  let v' := (ota_v3_worker (v, w)).2.1 in
  (u32 (now - v_last_tick v) < pdMS_TO_TICKS OTA_V3_IDLE_TIMEOUT_MS -> v' = v) /\
  (pdMS_TO_TICKS OTA_V3_IDLE_TIMEOUT_MS <= u32 (now - v_last_tick v) ->
   fr_active r || fr_verified r = true ->
   v_receiver v' = Some (if err_eqb (keemash_ota_v3_checkpoint_clear w2).1 ESP_OK
                         then flash_receiver_zero else r)) /\
  (fr_active r || fr_verified r = false -> v_receiver v' = Some r).
Proof.
  intros Hq Hr now w1 w2 Hm v'.
  assert (Hv : v' = (drop_idle_transfer (v, w)).2.1).
  { unfold v', ota_v3_worker. rewrite bind_eq. cbn [get_v3 gets fst snd]. rewrite Hq.
    unfold worker_timeout. rewrite !bind_eq, ret_eq. cbn [snd]. apply boot_status_outside. }
  rewrite Hv. clear Hv v'. unfold drop_idle_transfer. rewrite bind_eq. cbn [get_v3 gets fst snd].
  rewrite bind_eq, io_run. cbn [fst snd]. fold now. fold w1.
  assert (Hs : fs_active (flash_status v) || fs_verified (flash_status v)
               = fr_active r || fr_verified r).
  { unfold flash_status. rewrite Hr. unfold keemash_ota_v3_flash_receiver_status.
    by destruct (fr_stream r). }
  destruct (Z.ltb_spec (u32 (now - v_last_tick v)) (pdMS_TO_TICKS OTA_V3_IDLE_TIMEOUT_MS)).
  { rewrite ret_eq. cbn [fst snd]. split; [done|]. split; [lia|done]. }
  rewrite bind_eq, io_run. cbn [fst snd]. rewrite Hm. cbn [negb]. rewrite bind_eq.
  cbn [get_v3 gets fst snd]. rewrite Hs. split; [lia|].
  destruct (fr_active r || fr_verified r) eqn:Ea; cbn [when]; [|done].
  split; [|done]. intros _ _. rewrite bind_eq, ret_eq. cbn [snd]. unfold on_receiver.
  rewrite Hr. unfold keemash_ota_v3_flash_receiver_abort_current. fold w2.
  replace (negb (fr_active r) && negb (fr_verified r)) with false
    by (destruct (fr_active r), (fr_verified r); done).
  destruct (keemash_ota_v3_checkpoint_clear w2) as [e w3]. cbn [fst].
  destruct (err_eqb e ESP_OK); cbn [negb]; [|done].
  pose proof (reset_zero r w3) as Hz. destruct (reset_receiver (r, w3)) as [[] [r' w']]. cbn in *.
  by rewrite Hz.
Qed.

End Props.

(** ** Witnesses *)

#[local] Existing Instance toy_digest.
#[local] Existing Instance toy_digest_laws.
#[local] Existing Instance demo_config.
#[local] Existing Instance demo_psa.
#[local] Existing Instance demo_zlib.
#[local] Existing Instance demo_zlib_laws.
#[local] Existing Instance node_store.
#[local] Existing Instance node_flash.
#[local] Existing Instance node_view.
#[local] Existing Instance node_laws.

(** A message on the wire is its place in the script. *)
Definition script : list OtaTransfer := msgs ++ [OtaTransfer_commit demo_commit].

Definition worker_pb : Nanopb := {|
  pb_encode_block := @pb_encode_block demo_pb; pb_decode_signed := @pb_decode_signed demo_pb;
  pb_encode_transfer := @pb_encode_transfer demo_pb;
  pb_decode_transfer := @pb_decode_transfer demo_pb;
  pb_encode_mesh := @pb_encode_mesh demo_pb;
  pb_decode_mesh := fun b =>
    match b with [i] => OtaMeshMessage_transfer <$> script !! Z.to_nat i | _ => None end |}.
#[local] Existing Instance worker_pb.

#[local] Instance worker_pb_laws : NanopbLaws worker_pb.
Proof. destruct demo_pb_laws as [H1 H2 H3]. split; [exact H1|exact H2|exact H3]. Defined.

(** The clock stands at 700 seconds. *)
Definition node_worker : WorkerEnv node := {|
  worker_rtos := {|
    xTaskGetTickCount := fun w => (700000, w); portTICK_PERIOD_MS := 1; pdMS_TO_TICKS := fun ms => ms;
    mutex_create := fun w => (true, w); mutex_take := fun _ w => (true, w);
    queue_create := fun w => (true, w); task_create := fun w => (true, w);
    esp_err_to_name := fun _ => [69]; esp_app_project := Some [107] |};
  CONFIG_KEEMASH_OTA_V3_MAX_WINDOW := 4; CONFIG_IDF_TARGET := [101];
  mesh_v2_node_send_ota_v3_message := fun _ w => (ESP_OK, w);
  mesh_v2_node_reliable_ready := fun w => (true, w);
  mesh_v2_node_fabric_identity := fun w => (inr ({| high := 7; low := 8 |}, 9), w);
  preflight := ready; vTaskDelay := fun _ w => (tt, w) |}.
#[local] Existing Instance node_worker.

#[local] Instance node_worker_laws : WorkerLaws node node_flash node_view worker_pb node_worker.
Proof.
  split; try done.
  intros b t H. change (match b with
    | [i] => OtaMeshMessage_transfer <$> script !! Z.to_nat i | _ => None end
    = Some (OtaMeshMessage_transfer t)) in H.
  destruct b as [|i [|j b]]; [discriminate H| |discriminate H].
  apply fmap_Some in H as (t' & E & H). injection H as ->.
  assert (Hs : Forall transfer_typed script).
  { apply Forall_app. split; [exact msgs_typed|]. constructor; [exact I|constructor]. }
  exact (Forall_lookup_1 _ _ _ _ Hs E).
Defined.

Abbreviation wstate := (ota_v3_worker_t * node)%type.

Definition demo_worker_config : keemash_mesh_ota_v3_config_t :=
  {| vc_preflight := true; vc_reboot_delay_ms := 0 |}.

Definition on : wstate :=
  (keemash_mesh_ota_v3_receiver_start demo_worker_config (ota_v3_worker_zero, blank)).2.

(** A message is queued, then the worker makes a pass. *)
Definition queued (i : nat) (s : wstate) : wstate :=
  (keemash_mesh_ota_v3_receiver_handle [Z.of_nat i] s).2.
Definition served (s : wstate) (i : nat) : wstate := (ota_v3_worker (queued i s)).2.

Definition after (n : nat) : wstate := fold_left served (seq 0 n) on.
Definition last_queued : wstate := queued (length msgs) (after (length msgs)).
Definition final : wstate := (ota_v3_worker last_queued).2.

(** Every pass before the last one continues. *)
Definition passes (s : wstate) (i : nat) : bool :=
  v_worker (queued i s).1 &&
  match (ota_v3_worker (queued i s)).1 with Continues => true | Restarts => false end.

Lemma served_steps s i : passes s i = true -> rtc worker_step s (served s i).
Proof.
  intros H. apply andb_true_iff in H as [Hw Hc].
  eapply rtc_l; [apply (ws_handle [Z.of_nat i] s)|]. eapply rtc_once, ws_pass; [exact Hw|].
  unfold served. fold (queued i s). destruct (ota_v3_worker (queued i s)) as [[|] s'] eqn:E.
  - reflexivity.
  - discriminate Hc.
Qed.

Fixpoint all_pass (ks : list nat) (s : wstate) : bool :=
  match ks with [] => true | i :: ks => passes s i && all_pass ks (served s i) end.

Lemma after_steps ks s : all_pass ks s = true -> rtc worker_step s (fold_left served ks s).
Proof.
  revert s. induction ks as [|i ks IH]; intros s H; [apply rtc_refl|].
  apply andb_true_iff in H as [H1 H2]. etransitivity; [by apply served_steps|].
  by apply IH.
Qed.

Lemma last_reached : rtc worker_step (ota_v3_worker_zero, blank) (last_queued.1, last_queued.2).
Proof.
  rewrite <- surjective_pairing.
  eapply rtc_l; [apply (ws_start demo_worker_config)|].
  eapply rtc_r; [|apply (ws_handle [Z.of_nat (length msgs)])].
  apply after_steps. vm_compute. reflexivity.
Qed.

Lemma last_restarts :
  ota_v3_worker (last_queued.1, last_queued.2) = (Restarts, (final.1, final.2)).
Proof.
  rewrite <- !surjective_pairing. unfold final. apply run_pair. vm_compute. reflexivity.
Qed.

Definition held_back (s : wstate) : bool :=
  match v_receiver s.1 with Some r => negb (fr_verified r) | None => true end.

Lemma held_back_unverified (s : wstate) : held_back s = true -> unverified s.
Proof.
  unfold held_back. intros H r Hr. rewrite Hr in H. by apply negb_true_iff.
Qed.

Lemma last_unverified : unverified (last_queued.1, last_queued.2).
Proof.
  apply held_back_unverified. rewrite <- surjective_pairing. vm_compute. reflexivity.
Qed.

Example restart_verified_witness :
  exists r p, v_receiver final.1 = Some r /\ fr_verified r = true /\
    image_in_flash (fr_fields r) final.2 p.
Proof.
  destruct (restart_verified blank last_queued.1 last_queued.2 final.1 final.2
              last_reached last_restarts) as (r & p & H1 & H2 & _ & _ & H5).
  exists r, p. split; [exact H1|]. split; [exact H2|].
  apply (H5 (last_queued.1, last_queued.2));
    [exact last_reached|exact last_unverified|apply rtc_refl].
Defined.

Example worker_states_witness :
  started last_queued.1 \/ stopped last_queued.1.
Proof. exact (proj1 (worker_states blank last_queued.1 last_queued.2 last_reached)). Defined.

(** A transfer under way, last touched when the clock stood at zero. *)
Definition silent : wstate := ((after 3).1 <| v_last_tick := 0 |>, (after 3).2).
Definition silent_receiver : keemash_ota_v3_flash_receiver :=
  default flash_receiver_zero (v_receiver silent.1).

Lemma silent_queue : v_queue silent.1 = Some [].
Proof. vm_compute. reflexivity. Qed.
Lemma silent_held : v_receiver silent.1 = Some silent_receiver.
Proof. vm_compute. reflexivity. Qed.

Example idle_exact_witness :
  v_receiver (ota_v3_worker (silent.1, silent.2)).2.1 = Some flash_receiver_zero.
Proof.
  assert (Hm : (mutex_take portMAX_DELAY (xTaskGetTickCount silent.2).2).1 = true) by reflexivity.
  destruct (idle_exact silent.1 silent.2 silent_receiver silent_queue silent_held Hm)
    as (_ & H & _).
  rewrite H.
  - vm_compute. reflexivity.
  - vm_compute. intros E. discriminate E.
  - vm_compute. reflexivity.
Defined.

Example request_answered_witness :
  answered msg_prepare (process_transfer msg_prepare on).2.
Proof.
  apply (request_answered msg_prepare on).
  - vm_compute. reflexivity.
  - apply run_pair. vm_compute. reflexivity.
Defined.
